(* ===== verification/_CoqProject ===== *)
-Q . S2P
Prelude.v
GoStrings.v
Json.v
Sql.v
AuditLog.v
AuditChain.v
Jobs.v
JobQueue.v
JobSystem.v
JobSpec.v
JobProps.v
JobViews.v
ModuleRegistry.v
Safeguard.v
SafeguardProps.v
Limiter.v
Release.v
Update.v
UpdateOps.v
UpdateLogic.v
UpdateRestore.v
UpdateActivate.v
UpdateCapture.v
UpdateSafety.v
UpdateApply.v
UpdateProps.v
UpdateSamples.v
Codec.v
Programs.v
Passwords.v
Identity.v
IdentityHandlers.v
IdentityUsers.v
IdentityLaws.v
IdentitySteps.v
IdentityRequests.v
IdentityProps.v
IdentitySessions.v
IdentityFactor.v
IdentitySites.v
IdentitySamples.v
Paths.v
Regex.v
Naming.v
Sites.v
SiteText.v
SiteRender.v
SiteChecks.v
SiteProps.v
SiteHost.v
SiteActivation.v
SitePlans.v
SiteHostProps.v
SiteSamples.v
Cron.v
BackupSchedule.v
BackupScheduleProps.v
BackupUnits.v
BackupRun.v
Shell.v
Words.v
SiteFs.v
Schedules.v
ScheduleCron.v
ScheduleCrontab.v
ScheduleHost.v
ScheduleHostProps.v
ScheduleTasks.v
Secrets.v
Firewall.v
FirewallModule.v
FirewallTable.v
FirewallProps.v
FirewallSubmit.v
Services.v
ServicesProps.v
Files.v
FilesProps.v
FilesUploads.v
BackupArchive.v
