(* ===== verification/Prelude.v ===== *)
(** * Nexa Panel: verification library

    Nexa Panel is a hosting control panel: an API server and a privileged agent, both
    the binary [nexa], over one SQLite database.  This library models the parts of the
    Go code whose correctness the rest leans on, and proves what they promise.  The
    theorems that state a property of the program carry a number, (C1) and so on.

    ** The parts and the files

    - Shared: this file (results, machine integers, time, automation), [GoStrings]
      (the functions of [strings], [strconv], [path] and [sort] the code calls, on
      bytes), [Json] ([encoding/json] output), [Sql] (tables, statements,
      transactions).
    - Audit log, [internal/platform/audit]: [AuditLog] holds Record, Verify, List and
      the sinks of audit.go, chain.go and sink.go; [AuditChain] the theorems (an
      untouched log verifies; edits, and logs that differ, are detected unless SHA-256
      collides; batches are equivalent to one walk; what is not seen).
    - Durable jobs, [internal/platform/jobs]: [Jobs] holds the tables and operations of
      jobs.go, repository.go and worker.go; [JobQueue] the invariant of
      the tables and the specification of every operation;
      [JobSystem] the step relation of processes that interleave, crash and lose
      leases; [JobSpec] an abstract queue and the refinement; [JobProps] the properties;
      [JobViews] redaction and scoped reads, and concrete runs.
    - Module registry, [internal/platform/module/registry.go]: [ModuleRegistry].
    - Automatic reverts, [internal/modules/safeguard/safeguard.go]: [Safeguard] (table,
      timers, bodies), [SafeguardProps] (its runs, with restarts).
    - Attempt limiters, [internal/platform/identity/limiter.go] and
      [internal/platform/httpapi/throttle.go]: [Limiter].
    - Self-update, [internal/platform/operators/selfupdate]: [Release] (versions, the
      stamp, the agreement checks, archive extraction), [Update] (the host and a state
      monad whose system calls proceed, are refused, or kill the process), [UpdateOps]
      (every operation of HostOperator), [UpdateLogic] (specifications of such
      programs), [UpdateRestore], [UpdateCapture], [UpdateActivate], [UpdateSafety],
      [UpdateApply] (specifications of the operations), [UpdateProps] (the properties),
      [UpdateSamples] (a concrete node).
    - Identity, [internal/platform/identity], and authorization,
      [internal/platform/authorization]: [Programs] (requests as sequences of atomic
      operations that interleave; what each may rely on and must guarantee), [Codec]
      (base64, base32, hexadecimal), [Passwords] (policy, stored hashes, one-time and
      recovery codes), [Identity] (the tables, sessions and the gate of
      identity.go and sessions.go), [IdentityHandlers] (handlers.go, bootstrap.go,
      mfa_http.go), [IdentityUsers] (users_http.go, breakglass.go; the role matrix, the
      permission middleware, the routes of identity.Register).
      Theorems: [IdentityLaws], [IdentitySteps] and [IdentityRequests] prove that every
      statement, transaction and request keeps to one guarantee, from which
      [IdentityProps] derives the properties of all interleavings (the tables stay well
      formed and an administrator is never lost; a session becomes verified only when a
      factor answers; codes are single use; what the gate has established);
      [IdentitySessions] (a sign-in's cookies work, revoked sessions do not),
      [IdentityFactor] (codes) and [IdentitySites] (grants and the role matrix) are about
      requests alone; [IdentitySamples] holds the concrete runs and
      three races the module allows.
    - Sites, [internal/platform/operators/sites] and [internal/platform/naming]: [Paths]
      and [Regex] (clean paths and regular expressions, with what the proofs need of
      them), [Naming] (slugs, host names, PHP versions), [Sites] (render.go and
      render_support.go: every check of a site and every byte of its files), [SiteText],
      [SiteRender], [SiteChecks] and [SiteProps] (a reference reader of nginx and PHP-FPM
      files, and what it finds in rendered ones), [SiteHost] (activation.go and
      artifacts.go: plans, their application, rollback and teardown, on the host of
      [Update]), [SiteActivation] and [SitePlans] (specifications of the steps, in the
      logic of [UpdateLogic]), [SiteHostProps] (the properties),
      [SiteSamples] (concrete sites, a concrete node, a path the checks should refuse).
      What the node does beyond its managed files (accounts, directories, service
      reloads, the verifying request) is the class [SiteHost.NodeSystem]; the laws the
      properties assume of it are [SiteActivation.NodeSystemLaws].
    - Files of sites, [internal/platform/operators/sitefs] and
      [internal/platform/operators/files]: [SiteFs] (scopes of requests, and relative
      paths against a walk from the site's root), [Files] (files.go, host.go, uploads.go
      and archive.go: every operation that changes a site, over a map from clean paths to
      entries and a list of answers, any of which may be a fault), [FilesProps] (changes
      are where [os.Root] leads from the write zones), [FilesUploads] (triples over trees;
      an upload whose chunks come one at a time leaves the bytes of the client, saving
      compares and swaps, copies and extractions keep to their budget).
    - Master key and secrets, [internal/platform/secrets]: [Secrets] (the box over an
      ideal AEAD; opening, creating and moving the key file on the host of [Update], with
      faults, torn writes and deaths).
    - System services, [internal/platform/operators/services], the routes and signatures
      of [internal/platform/agent] for them, and [internal/modules/services]: [Services],
      [ServicesProps] (the commands that reach systemctl, what a signature stands for,
      what a stop is guarded by).
    - Backup schedules, [internal/platform/operators/backups/schedule.go]: [Cron] (what a
      crontab expression selects, by crontab(5), names included; which dates exist),
      [BackupSchedule] (the checks, the
      calendar expression, the units, their installation and removal),
      [BackupScheduleProps] (a reader of systemd calendar expressions; both sides select
      the same moments), [BackupUnits] (a reader of unit files).
    - Backup copies, [internal/platform/operators/backups]: [BackupRun] (validation.go,
      support.go, run.go, system.go: requests, runs, retention and removal; every program
      and system call is a call in a history, answered by any function of the history);
      [BackupArchive] (site_archive.go: extraction of an archived site below a directory,
      over a map from clean paths to entries, with faults; what an archive of a tree restores
      to, and which trees it can never restore).
    - Scheduled commands, [internal/platform/operators/schedules]: [Shell] (a reader of
      POSIX shell quoting), [Words] (texts of words between blanks), [Schedules]
      (schedules.go and render.go: the checks, the wrapper script, the crontab),
      [ScheduleCron] and [ScheduleCrontab] (what expressions, wrappers and crontabs mean
      to cron and the shell; what [ValidateCron] does without),
      [ScheduleHost] (host.go: plans, application, rollback, runs, on the host of
      [Update]), [ScheduleHostProps] and [ScheduleTasks] (its specifications and
      properties, and a concrete node).
    - Firewall, [internal/platform/operators/firewall] and [internal/modules/firewall]:
      [Firewall] (rules, argument vectors, the status report, the operator),
      [FirewallModule] (the lockout judgement, the undoing change, submission over the
      audit log, the queue and the guard), [FirewallTable] (UFW's table, one row per
      address family, with comments and profiles; the report UFW prints of it, and that
      [parseStatus] reads it back; what a rule command makes of the table, and what a
      change without a reason leaves reachable), [FirewallProps] (the commands of an
      enable and of a revert), [FirewallSubmit] (the outcomes of a submission, and
      concrete nodes).

    ** How the code is rendered

    A definition bears the name of the Go function it models.  Integers are Z with the
    wrap-around written where the code can reach it; times are nanoseconds; a string is
    its bytes.  A Go function that returns an error returns [result]; a table is the
    list of its rows; a transaction has all of its effect or none ([Sql.run_tx]), and a
    driver fault is an argument.  Concurrency is a step relation over atomic
    operations: statements and transactions of the database, and sections under a
    mutex.  A Go handler that runs among others is a [Programs.prog]: the list of its
    atomic operations, each with a Boolean that says whether the driver fails.

    Fuel and bounds: string functions recurse with the string's length as fuel;
    [AuditLog.verify] takes one batch per row and one more, which
    (audit_batches_equivalent) shows to be enough; [ModuleRegistry.rounds] takes one
    round per module; the worker's inner loop [Jobs.drain] takes one iteration per row
    of the table and one more, and (job_pass_drains_queue) shows that a pass ends; [Files.copyTree] and
    [Files.archiveTree] take one step per level, and as every directory spends an entry of
    the budget, the fuel outlasts it: without fuel they answer what the spent budget does.

    ** Parameters

    What is not this repository's code is an argument: SHA-256, the semver module, tar
    and gzip decoding, the effect of host commands and of a started service on the
    files, SQLite's VACUUM INTO, symbolic-link resolution, HTTP downloads and the
    release source, JSON decoding of stored documents, the iteration order of Go maps,
    the clock; for sites the documents files hold ([text_of]) and the operations of
    [NodeSystem]; for identity, HMAC, Argon2, the cipher of the secrets, random bytes, URL
    parsing and Unicode classes, bundled in [Identity.crypto]; for schedules the account
    and group databases, [unicode.IsPrint] beyond ASCII, [time.Parse] and the directory
    handles of [os.Root]; for the firewall the answers of ufw and sshd, the notation
    UFW keeps a rule in, [net.ParseIP], [net.ParseCIDR] and the encoding of a change; for secrets an AEAD with its
    laws ([Secrets.AEADLaws]); for services the runner of commands, HMAC and times in
    JSON; for files the resolution of links by [os.Root] ([locate], [resolve_links]), the
    record of an upload in JSON, and archives as lists of members.  Hypotheses about them
    are named where they are assumed, and the witnesses instantiate them.

    ** What is not modelled

    Goroutines, tickers and the HTTP transport of the modelled parts; in identity the
    decoding of request bodies, cache headers, logging and the time a comparison takes;
    of the server only how routes are gated; in self-update
    temporary files, the staging tree's files on disk, [UpdatedAt] and the texts of
    wrapped errors in full; in sites and schedules the temporary file of an atomic write
    and the random plan identifier; in the firewall and the services the HTTP routes of the
    panel, and the mutex that keeps two applications apart; in files the sizes of
    directories, downloads, ownership, and requests that overlap; in backups the
    download and the swap of a restore, and modification times; in secrets a loss of
    power and other processes.  The front end, generated API code, the operators of
    databases, packages, PHP and SFTP, the modules that call the agent and the
    command line are outside of this library; most are I/O against programs this
    library has no model of. *)

From stdpp Require Export prelude strings gmap sorting pretty.

Local Open Scope Z_scope.

#[global] Arguments String.append !_ _ : simpl nomatch.

(** ** Fallible results

    A Go function with results [(T, error)] is modelled by [result E T]: [Err e]
    when the returned error is not nil, [Ok v] otherwise. *)
Inductive result (E A : Type) : Type :=
| Ok (a : A)
| Err (e : E).
Arguments Ok {E A} a.
Arguments Err {E A} e.

#[export] Instance result_ret E : MRet (result E) := fun A a => Ok a.
#[export] Instance result_bind E : MBind (result E) :=
  fun A B f r => match r with Ok a => f a | Err e => Err e end.
#[export] Instance result_fmap E : FMap (result E) :=
  fun A B f r => match r with Ok a => Ok (f a) | Err e => Err e end.
#[export] Instance result_eq_dec {E A} `{EqDecision E, EqDecision A} :
  EqDecision (result E A).
Proof. solve_decision. Defined.

Definition is_ok {E A} (r : result E A) : bool :=
  match r with Ok _ => true | Err _ => false end.

(** [guard b e]: the early return [if !b { return e }]. *)
Definition guard_err {E} (b : bool) (e : E) : result E unit :=
  if b then Ok tt else Err e.

(** ** Machine integers and time

    [time.Time] is a count of nanoseconds (Z).  [time.Duration] is an int64 count
    of nanoseconds; [Time.Sub] saturates at the int64 bounds. *)
Definition int64_max : Z := 9223372036854775807.
Definition int64_min : Z := -9223372036854775808.

(** Signed 64-bit arithmetic wraps around. *)
Definition wrap64 (z : Z) : Z := (z + 9223372036854775808) mod 18446744073709551616 - 9223372036854775808.

Lemma wrap64_small z : int64_min <= z <= int64_max -> wrap64 z = z.
Proof. unfold wrap64, int64_min, int64_max. intros H. rewrite Z.mod_small; lia. Qed.

Definition time_sub (a b : Z) : Z := Z.max int64_min (Z.min int64_max (a - b)).

Definition nanosecond : Z := 1.
Definition microsecond : Z := 1000.
Definition millisecond : Z := 1000000.
Definition second : Z := 1000000000.
Definition minute : Z := 60 * second.
Definition hour : Z := 60 * minute.

(** [Time.Truncate(d)] for the instants the panel handles. *)
Definition time_truncate (t d : Z) : Z := t - t `mod` d.

(** A duration is a positive int64. *)
Definition duration_pos (d : Z) : Prop := 0 < d ≤ int64_max.

Lemma time_sub_ge a b d : duration_pos d -> d ≤ time_sub a b <-> d ≤ a - b.
Proof. unfold duration_pos, time_sub, int64_max, int64_min. lia. Qed.

Lemma time_sub_le a b d : 0 ≤ d < int64_max -> time_sub a b ≤ d <-> a - b ≤ d.
Proof. unfold time_sub, int64_max, int64_min. lia. Qed.

Lemma time_truncate_idemp t d : 0 < d -> time_truncate (time_truncate t d) d = time_truncate t d.
Proof.
  intros Hd. unfold time_truncate at 1. unfold time_truncate.
  rewrite Zminus_mod_idemp_r, Z.sub_diag, Zmod_0_l. lia.
Qed.

(** ** Booleans *)
Ltac split_andb :=
  repeat match goal with
  | H : _ && _ = true |- _ => apply andb_prop in H as [??]
  | H : negb _ = true |- _ => apply negb_true_iff in H
  | H : negb _ = false |- _ => apply negb_false_iff in H
  | H : bool_decide _ = true |- _ => apply bool_decide_eq_true in H
  | H : bool_decide _ = false |- _ => apply bool_decide_eq_false in H
  | H : (_ <=? _)%Z = true |- _ => apply Z.leb_le in H
  | H : (_ <=? _)%Z = false |- _ => apply Z.leb_gt in H
  | H : (_ <? _)%Z = true |- _ => apply Z.ltb_lt in H
  | H : (_ <? _)%Z = false |- _ => apply Z.ltb_ge in H
  | H : (_ =? _)%Z = true |- _ => apply Z.eqb_eq in H
  | H : (_ =? _)%Z = false |- _ => apply Z.eqb_neq in H
  end.

(** Split every [if] and [match] of a hypothesis or of the goal. *)
Ltac cases_in H :=
  repeat (case_match; simplify_eq/=; try discriminate);
  try (progress simplify_eq/=).
Ltac cases := repeat (case_match; simplify_eq/=); split_andb; try done.

(** Inversion of monadic binds in [result]. *)
Lemma bind_Ok {E A B} (r : result E A) (f : A -> result E B) b :
  r ≫= f = Ok b -> exists a, r = Ok a /\ f a = Ok b.
Proof. destruct r; simpl; [eauto | done]. Qed.

Lemma bind_Err {E A B} (r : result E A) (f : A -> result E B) e :
  r ≫= f = Err e -> r = Err e \/ exists a, r = Ok a /\ f a = Err e.
Proof. destruct r; simpl; [eauto | intros [= ->]; auto]. Qed.

Lemma guard_Ok {E} b (e : E) u : guard_err b e = Ok u -> b = true.
Proof. by destruct b. Qed.

Ltac bind_ok :=
  repeat match goal with
  | H : _ ≫= _ = Ok _ |- _ => apply bind_Ok in H as (? & ? & H); simpl in H
  | H : guard_err _ _ = Ok _ |- _ => apply guard_Ok in H
  end.

(** ** The development's hint database *)
Create HintDb nexa.
Create Rewrite HintDb nexa.
#[export] Hint Resolve time_truncate_idemp : nexa.

(** ** Lists *)
Section lists.
Context {A : Type}.
Implicit Types l : list A.

Lemma forallb_Forall (p : A -> bool) l : forallb p l = true <-> Forall (fun x => p x = true) l.
Proof. rewrite forallb_forall, Forall_forall. setoid_rewrite list_elem_of_In. done. Qed.

Lemma existsb_Exists (p : A -> bool) l : existsb p l = true <-> Exists (fun x => p x = true) l.
Proof.
  rewrite existsb_exists, Exists_exists. setoid_rewrite list_elem_of_In. done.
Qed.

Lemma last_snoc_inv l x y : last (l ++ [x]) = Some y -> x = y.
Proof. rewrite last_snoc. congruence. Qed.
End lists.
