(* ===== verification/GoStrings.v ===== *)
(** * Go strings

    A Go string is a sequence of bytes, here [string].  This file defines the
    functions of the packages [strings], [strconv] and [sort] the panel calls,
    on bytes, as Go defines them: white space and control characters are the
    Unicode ones, recognised through their UTF-8 encodings. *)

From Stdlib Require Import Ascii.
From S2P Require Import Prelude.

Local Open Scope Z_scope.

Definition byte_val (c : ascii) : N := N_of_ascii c.
Definition in_range (lo hi : ascii) (c : ascii) : bool :=
  (byte_val lo <=? byte_val c)%N && (byte_val c <=? byte_val hi)%N.

(** [len(s)] *)
Definition len (s : string) : Z := Z.of_nat (String.length s).

Fixpoint all_bytes (p : ascii -> bool) (s : string) : bool :=
  match s with
  | EmptyString => true
  | String c t => p c && all_bytes p t
  end.

Fixpoint any_byte (p : ascii -> bool) (s : string) : bool :=
  match s with
  | EmptyString => false
  | String c t => p c || any_byte p t
  end.

(** [strings.HasPrefix] and [strings.TrimPrefix] as one test. *)
Fixpoint strip_prefix (p s : string) : option string :=
  match p with
  | EmptyString => Some s
  | String c p' =>
      match s with
      | String d s' => if Ascii.eqb c d then strip_prefix p' s' else None
      | EmptyString => None
      end
  end.
Definition has_prefix (p s : string) : bool := bool_decide (is_Some (strip_prefix p s)).

Fixpoint rev_app (s acc : string) : string :=
  match s with
  | EmptyString => acc
  | String c t => rev_app t (String c acc)
  end.
Definition rev_string (s : string) : string := rev_app s EmptyString.
Definition has_suffix (p s : string) : bool := has_prefix (rev_string p) (rev_string s).

(** [strings.Contains] *)
Fixpoint contains (sub s : string) : bool :=
  has_prefix sub s ||
  match s with
  | EmptyString => false
  | String _ t => contains sub t
  end.

(** [strings.Cut] on a one-byte separator: the text before and after its first
    occurrence, or [None]. *)
Fixpoint cut (c : ascii) (s : string) : option (string * string) :=
  match s with
  | EmptyString => None
  | String d t =>
      if Ascii.eqb c d then Some (EmptyString, t)
      else match cut c t with
           | Some (a, b) => Some (String d a, b)
           | None => None
           end
  end.

(** [strings.Cut] on a separator of several bytes. *)
Fixpoint cut_str (sep s : string) : option (string * string) :=
  match strip_prefix sep s with
  | Some t => Some (EmptyString, t)
  | None =>
      match s with
      | EmptyString => None
      | String c t => match cut_str sep t with Some (a, b) => Some (String c a, b) | None => None end
      end
  end.

(** [strings.Split] on a one-byte separator; never the empty list. *)
Fixpoint split (c : ascii) (s : string) : list string :=
  match s with
  | EmptyString => [EmptyString]
  | String d t =>
      if Ascii.eqb c d then EmptyString :: split c t
      else match split c t with
           | [] => [String d EmptyString]
           | h :: r => String d h :: r
           end
  end.

(** [strings.Count] of a one-byte string. *)
Fixpoint count_byte (c : ascii) (s : string) : nat :=
  match s with
  | EmptyString => 0%nat
  | String d t => ((if Ascii.eqb c d then 1 else 0) + count_byte c t)%nat
  end.

(** [strings.Join] *)
Fixpoint join (sep : string) (l : list string) : string :=
  match l with
  | [] => EmptyString
  | [x] => x
  | x :: r => x +:+ sep +:+ join sep r
  end.

(** [strings.ReplaceAll] of a one-byte string. *)
Fixpoint replace_byte (c : ascii) (r : string) (s : string) : string :=
  match s with
  | EmptyString => EmptyString
  | String d t => if Ascii.eqb c d then r +:+ replace_byte c r t else String d (replace_byte c r t)
  end.

(** [strings.NewReplacer(...).Replace]: left to right, at each place the first old
    string that stands there; what is put in is not looked at again. *)
Fixpoint first_old (pairs : list (string * string)) (s : string) : option (string * string) :=
  match pairs with
  | [] => None
  | (old, new) :: rest =>
      match strip_prefix old s with Some t => Some (new, t) | None => first_old rest s end
  end.
Fixpoint replacer_fuel (fuel : nat) (pairs : list (string * string)) (s : string) : string :=
  match fuel, s with
  | S f, String c t =>
      match first_old pairs s with
      | Some (new, rest) => new +:+ replacer_fuel f pairs rest
      | None => String c (replacer_fuel f pairs t)
      end
  | _, _ => EmptyString
  end.
Definition replacer (pairs : list (string * string)) (s : string) : string :=
  replacer_fuel (String.length s) pairs s.

(** ** Unicode white space and control characters in UTF-8 *)
Definition byte_eq (n : N) (c : ascii) : bool := (byte_val c =? n)%N.
Definition byte_between (lo hi : N) (c : ascii) : bool :=
  (lo <=? byte_val c)%N && (byte_val c <=? hi)%N.

(** [unicode.IsSpace]: TAB LF VT FF CR SP, U+0085, U+00A0, U+1680,
    U+2000-U+200A, U+2028, U+2029, U+202F, U+205F, U+3000. *)
Definition space1 (a : ascii) : bool := byte_between 9 13 a || byte_eq 32 a.
Definition space2 (a b : ascii) : bool := byte_eq 194 a && (byte_eq 133 b || byte_eq 160 b).
Definition space3 (a b c : ascii) : bool :=
  (byte_eq 225 a && byte_eq 154 b && byte_eq 128 c) ||
  (byte_eq 226 a && byte_eq 128 b &&
     (byte_between 128 138 c || byte_eq 168 c || byte_eq 169 c || byte_eq 175 c)) ||
  (byte_eq 226 a && byte_eq 129 b && byte_eq 159 c) ||
  (byte_eq 227 a && byte_eq 128 b && byte_eq 128 c).

(** Remove one leading white-space character, if there is one. *)
Definition space_width (s : string) : nat :=
  match s with
  | String a t =>
      if space1 a then 1
      else match t with
           | String b u =>
               if space2 a b then 2
               else match u with
                    | String c _ => if space3 a b c then 3 else 0
                    | EmptyString => 0
                    end
           | EmptyString => 0
           end
  | EmptyString => 0
  end.

Fixpoint drop_bytes (n : nat) (s : string) : string :=
  match n, s with
  | S m, String _ t => drop_bytes m t
  | _, _ => s
  end.

Fixpoint trim_left_fuel (fuel : nat) (s : string) : string :=
  match fuel with
  | O => s
  | S f => match space_width s with
           | O => s
           | n => trim_left_fuel f (drop_bytes n s)
           end
  end.
Definition trim_left (s : string) : string := trim_left_fuel (String.length s) s.

(** The same on a reversed string: a character ends where its last byte is. *)
Definition space_width_rev (s : string) : nat :=
  match s with
  | String c t =>
      if space1 c then 1
      else match t with
           | String b u =>
               if space2 b c then 2
               else match u with
                    | String a _ => if space3 a b c then 3 else 0
                    | EmptyString => 0
                    end
           | EmptyString => 0
           end
  | EmptyString => 0
  end.
Fixpoint trim_rev_fuel (fuel : nat) (s : string) : string :=
  match fuel with
  | O => s
  | S f => match space_width_rev s with
           | O => s
           | n => trim_rev_fuel f (drop_bytes n s)
           end
  end.
Definition trim_right (s : string) : string :=
  rev_string (trim_rev_fuel (String.length s) (rev_string s)).

(** [strings.TrimSpace] *)
Definition trim_space (s : string) : string := trim_right (trim_left s).

(** [strings.Fields]: the maximal runs of non-space characters. *)
Fixpoint fields_fuel (fuel : nat) (s cur : string) : list string :=
  let flush := match cur with EmptyString => [] | _ => [rev_string cur] end in
  match fuel with
  | O => flush
  | S f =>
      match space_width s with
      | O => match s with
             | EmptyString => flush
             | String c t => fields_fuel f t (String c cur)
             end
      | n => flush ++ fields_fuel f (drop_bytes n s) EmptyString
      end
  end.
Definition fields (s : string) : list string := fields_fuel (S (String.length s)) s EmptyString.

(** [strings.IndexFunc(s, unicode.IsControl) >= 0]: C0 controls, DEL and the C1
    controls U+0080-U+009F. *)
Fixpoint has_control (s : string) : bool :=
  match s with
  | EmptyString => false
  | String a t =>
      byte_between 0 31 a || byte_eq 127 a ||
      match t with
      | String b _ => byte_eq 194 a && byte_between 128 159 b
      | EmptyString => false
      end || has_control t
  end.

(** ** UTF-8 decoding

    [rune_width s] is the size in bytes of the character at the head of [s] and
    whether it is a valid encoding; an invalid byte counts as one character of
    size 1 (Go's [utf8.RuneError]). *)
Definition cont (c : ascii) : bool := byte_between 128 191 c.
Definition rune_width (s : string) : nat * bool :=
  match s with
  | EmptyString => (0%nat, true)
  | String a t =>
      if byte_between 0 127 a then (1%nat, true)
      else match t with
      | EmptyString => (1%nat, false)
      | String b u =>
        if byte_between 194 223 a then if cont b then (2%nat, true) else (1%nat, false)
        else match u with
        | EmptyString => (1%nat, false)
        | String c v =>
          if byte_between 224 239 a then
            if (if byte_eq 224 a then byte_between 160 191 b
                else if byte_eq 237 a then byte_between 128 159 b else cont b) && cont c
            then (3%nat, true) else (1%nat, false)
          else match v with
          | EmptyString => (1%nat, false)
          | String d _ =>
            if byte_between 240 244 a &&
               (if byte_eq 240 a then byte_between 144 191 b
                else if byte_eq 244 a then byte_between 128 143 b else cont b) &&
               cont c && cont d
            then (4%nat, true) else (1%nat, false)
          end
        end
      end
  end.

Fixpoint take_bytes (n : nat) (s : string) : string :=
  match n, s with
  | S m, String c t => String c (take_bytes m t)
  | _, _ => EmptyString
  end.

(** The characters of a string, each with its validity: what [range s] visits. *)
Fixpoint runes_fuel (fuel : nat) (s : string) : list (string * bool) :=
  match fuel with
  | O => []
  | S f =>
      match s with
      | EmptyString => []
      | _ => let '(n, ok) := rune_width s in (take_bytes n s, ok) :: runes_fuel f (drop_bytes n s)
      end
  end.
Definition runes (s : string) : list (string * bool) := runes_fuel (String.length s) s.

(** ** Numbers *)
Definition is_digit (c : ascii) : bool := in_range "0" "9" c.
Definition digit_val (c : ascii) : Z := Z.of_N (byte_val c) - 48.

Fixpoint digits_val (acc : Z) (s : string) : option Z :=
  match s with
  | EmptyString => Some acc
  | String c t => if is_digit c then digits_val (acc * 10 + digit_val c) t else None
  end.

(** An unsigned decimal with at least one digit. *)
Definition parse_digits (s : string) : option Z :=
  match s with EmptyString => None | _ => digits_val 0 s end.

(** [strconv.Atoi]: an optional sign, decimal digits, an int64; [None] is any
    error. *)
Definition atoi (s : string) : option Z :=
  let in_int64 z := if (int64_min <=? z)%Z && (z <=? int64_max)%Z then Some z else None in
  match s with
  | String c t =>
      if Ascii.eqb c "-" then match parse_digits t with Some z => in_int64 (- z) | None => None end
      else if Ascii.eqb c "+" then match parse_digits t with Some z => in_int64 z | None => None end
      else match parse_digits s with Some z => in_int64 z | None => None end
  | EmptyString => None
  end.

(** [strconv.ParseUint(s, 10, 64)]: no sign. *)
Definition parse_uint64 (s : string) : option Z :=
  match parse_digits s with
  | Some z => if (z <=? 18446744073709551615)%Z then Some z else None
  | None => None
  end.

(** [strconv.Itoa] and [strconv.FormatInt(_, 10)] *)
Definition itoa (z : Z) : string := pretty z.

(** ** Byte classes of the panel's regular expressions *)
Definition is_lower (c : ascii) : bool := in_range "a" "z" c.
Definition is_upper (c : ascii) : bool := in_range "A" "Z" c.
Definition is_alpha (c : ascii) : bool := is_lower c || is_upper c.
Definition is_alnum (c : ascii) : bool := is_alpha c || is_digit c.
Definition is_hex_lower (c : ascii) : bool := in_range "a" "f" c || is_digit c.
Definition is_hex (c : ascii) : bool := in_range "A" "F" c || is_hex_lower c.
Definition one_of (l : string) (c : ascii) : bool := any_byte (Ascii.eqb c) l.

(** [strings.ToLower], as far as ASCII results go: the ASCII letters, and the two
    other runes whose lower case is an ASCII letter (the Kelvin sign, the dotted
    capital I). *)
Definition lower_byte (c : ascii) : ascii :=
  if is_upper c then ascii_of_N (byte_val c + 32) else c.

Fixpoint to_lower (s : string) : string :=
  match s with
  | EmptyString => EmptyString
  | String a (String b r as t) =>
      if byte_eq 196 a && byte_eq 176 b then String "i" (to_lower r)
      else match r with
           | String c r' =>
               if byte_eq 226 a && byte_eq 132 b && byte_eq 170 c then String "k" (to_lower r')
               else String (lower_byte a) (to_lower t)
           | EmptyString => String (lower_byte a) (to_lower t)
           end
  | String a EmptyString => String (lower_byte a) EmptyString
  end.

(** [strings.TrimPrefix] and [strings.TrimSuffix] *)
Definition trim_prefix (p s : string) : string := default s (strip_prefix p s).
Definition trim_suffix (p s : string) : string :=
  match strip_prefix (rev_string p) (rev_string s) with Some t => rev_string t | None => s end.

(** [path.Clean]: the components kept so far are a stack. *)
Definition slash : ascii := "/".
Definition newline : ascii := "010".
Fixpoint clean_components (rooted : bool) (stack comps : list string) : list string :=
  match comps with
  | [] => rev stack
  | c :: rest =>
      if bool_decide (c = EmptyString) || bool_decide (c = "."%string) then clean_components rooted stack rest
      else if bool_decide (c = ".."%string) then
        match stack with
        | top :: below =>
            if bool_decide (top = ".."%string) then clean_components rooted (c :: stack) rest
            else clean_components rooted below rest
        | [] => clean_components rooted (if rooted then [] else [c]) rest
        end
      else clean_components rooted (c :: stack) rest
  end.
Definition path_clean (p : string) : string :=
  let rooted := has_prefix "/" p in
  let out := join "/" (clean_components rooted [] (split slash p)) in
  if rooted then String slash out
  else if bool_decide (out = EmptyString) then "." else out.

(** [filepath.Join]: leading empty elements are skipped. *)
Fixpoint filepath_join (l : list string) : string :=
  match l with
  | [] => EmptyString
  | EmptyString :: rest => filepath_join rest
  | _ => path_clean (join "/" l)
  end.

(** ** Byte order on strings, as [sort.Strings] and [slices.Sort] use it *)
Fixpoint str_leb (s t : string) : bool :=
  match s, t with
  | EmptyString, _ => true
  | _, EmptyString => false
  | String a s', String b t' =>
      if (byte_val a <? byte_val b)%N then true
      else if (byte_val b <? byte_val a)%N then false
      else str_leb s' t'
  end.
Definition str_le (s t : string) : Prop := str_leb s t = true.

#[export] Instance str_le_dec : RelDecision str_le.
Proof. intros s t. unfold str_le. apply _. Defined.

(** [sort.Strings] *)
Definition sort_strings (l : list string) : list string := merge_sort str_le l.

(** ** Lemmas *)

Lemma all_bytes_app p s t : all_bytes p (s +:+ t) = all_bytes p s && all_bytes p t.
Proof. induction s as [|c s IH]; simpl; [done|]. by rewrite IH, andb_assoc. Qed.

Lemma all_bytes_impl (p q : ascii -> bool) s :
  (forall c, p c = true -> q c = true) -> all_bytes p s = true -> all_bytes q s = true.
Proof.
  intros Hpq. induction s as [|c s IH]; simpl; [done|].
  intros [Hc Hs]%andb_prop. by rewrite (Hpq c Hc), IH.
Qed.

Lemma str_length_app s t : String.length (s +:+ t) = (String.length s + String.length t)%nat.
Proof. induction s as [|c s IH]; simpl; [done|]. by rewrite IH. Qed.

Lemma len_app s t : len (s +:+ t) = len s + len t.
Proof. unfold len. rewrite str_length_app. lia. Qed.

Lemma str_app_assoc s t u : (s +:+ t) +:+ u = s +:+ (t +:+ u).
Proof. induction s as [|c s IH]; simpl; [done|]. by rewrite IH. Qed.

Lemma str_app_nil_r s : s +:+ EmptyString = s.
Proof. induction s as [|c s IH]; simpl; [done|]. by rewrite IH. Qed.

Lemma str_app_inj_l s t u : s +:+ t = s +:+ u -> t = u.
Proof. induction s; simpl; [done|]. intros [=]. auto. Qed.

(** Two strings of one length that start two equal strings are equal. *)
Lemma str_app_inj_length s1 s2 t1 t2 :
  String.length s1 = String.length s2 -> s1 +:+ t1 = s2 +:+ t2 -> s1 = s2 /\ t1 = t2.
Proof.
  revert s2. induction s1 as [|c s1 IH]; intros [|d s2]; simpl; try done.
  intros [= Hl] [= -> Ht]. by destruct (IH s2 Hl Ht) as [-> ->].
Qed.

Lemma strip_prefix_Some p s t : strip_prefix p s = Some t <-> s = p +:+ t.
Proof.
  revert s. induction p as [|c p IH]; intros s; simpl; [naive_solver|].
  destruct s as [|d s]; [naive_solver|].
  destruct (Ascii.eqb_spec c d) as [->|Hne]; [rewrite IH|]; naive_solver.
Qed.

Lemma has_prefix_spec p s : has_prefix p s = true <-> exists t, s = p +:+ t.
Proof.
  unfold has_prefix. rewrite bool_decide_eq_true. unfold is_Some.
  by setoid_rewrite strip_prefix_Some.
Qed.

(** *** Cut and Split *)
Lemma cut_Some c s a b :
  cut c s = Some (a, b) -> s = a +:+ String c b /\ any_byte (Ascii.eqb c) a = false.
Proof.
  revert a b. induction s as [|d s IH]; intros a b; simpl; [done|].
  destruct (Ascii.eqb_spec c d) as [->|Hne]; [by intros [= <- <-]|].
  destruct (cut c s) as [[a' b']|]; [|done]. intros [= <- <-].
  destruct (IH a' b' eq_refl) as [-> Hn]. simpl. rewrite Hn.
  destruct (Ascii.eqb_spec c d); naive_solver.
Qed.

Lemma cut_None c s : cut c s = None <-> any_byte (Ascii.eqb c) s = false.
Proof.
  induction s as [|d s IH]; simpl; [done|].
  destruct (Ascii.eqb_spec c d) as [->|Hne]; simpl; [done|].
  destruct (cut c s) as [[??]|]; naive_solver.
Qed.

Lemma cut_app c a b : any_byte (Ascii.eqb c) a = false -> cut c (a +:+ String c b) = Some (a, b).
Proof.
  induction a as [|d a IH]; simpl; [by rewrite Ascii.eqb_refl|].
  intros [Hd Ha]%orb_false_iff. by rewrite Hd, (IH Ha).
Qed.

Lemma any_byte_app p a b : any_byte p (a +:+ b) = any_byte p a || any_byte p b.
Proof. induction a as [|c a IH]; [done|]. cbn. by rewrite IH, orb_assoc. Qed.

Lemma any_byte_false p s : any_byte p s = false <-> all_bytes (fun c => negb (p c)) s = true.
Proof. induction s as [|c s IH]; simpl; [done|]. destruct (p c); simpl; auto. done. Qed.

(** *** Decimal printing *)
Lemma is_digit_pretty_char n : is_digit (pretty_N_char n) = true.
Proof. unfold pretty_N_char. by repeat case_match. Qed.

Lemma pretty_N_go_digits n s :
  all_bytes is_digit s = true -> all_bytes is_digit (pretty_N_go n s) = true.
Proof.
  revert s. induction (N.lt_wf_0 n) as [n _ IHn]; intros s Hs.
  destruct (decide (0 < n)%N) as [Hn|Hn].
  - rewrite pretty_N_go_step by done. apply IHn; [by apply N.div_lt|].
    simpl. by rewrite is_digit_pretty_char.
  - by replace n with 0%N by lia.
Qed.

Lemma itoa_digits z : 0 <= z -> all_bytes is_digit (itoa z) = true.
Proof.
  intros Hz. unfold itoa. destruct z as [|p|p]; [done| |lia].
  unfold pretty, pretty_Z. cbn. by apply pretty_N_go_digits.
Qed.

Lemma pretty_N_go_longer n s : (String.length s <= String.length (pretty_N_go n s))%nat.
Proof.
  revert s. induction (N.lt_wf_0 n) as [n _ IH]; intros s. destruct (decide (0 < n)%N) as [Hn|Hn].
  - rewrite pretty_N_go_step by done. etrans; [|apply IH; by apply N.div_lt]. simpl. lia.
  - by replace n with 0%N by lia.
Qed.

Lemma itoa_nonempty z : itoa z <> EmptyString.
Proof.
  destruct z as [|p|p]; [done| |done]. unfold itoa.
  change (pretty (Zpos p)) with (pretty_N_go (Npos p) EmptyString). rewrite pretty_N_go_step by lia.
  intros H. pose proof (pretty_N_go_longer (Npos p `div` 10) (String (pretty_N_char (Npos p `mod` 10)) EmptyString)) as Hl.
  rewrite H in Hl. simpl in Hl. lia.
Qed.

Lemma itoa_inj a b : itoa a = itoa b -> a = b.
Proof. apply (inj pretty). Qed.

(** *** Byte order *)
Lemma str_leb_refl s : str_leb s s = true.
Proof. induction s as [|a s IH]; simpl; [done|]. by rewrite N.ltb_irrefl. Qed.

Lemma str_leb_total s t : str_leb s t = true \/ str_leb t s = true.
Proof.
  revert t. induction s as [|a s IH]; intros [|b t]; simpl; auto.
  destruct (byte_val a <? byte_val b)%N eqn:H1; auto.
  destruct (byte_val b <? byte_val a)%N eqn:H2; auto.
Qed.

Lemma byte_val_inj a b : byte_val a = byte_val b -> a = b.
Proof.
  unfold byte_val. intros H.
  by rewrite <-(ascii_N_embedding a), <-(ascii_N_embedding b), H.
Qed.

Lemma str_leb_antisym s t : str_leb s t = true -> str_leb t s = true -> s = t.
Proof.
  revert t. induction s as [|a s IH]; intros [|b t]; simpl; try done.
  destruct (N.ltb_spec (byte_val a) (byte_val b)), (N.ltb_spec (byte_val b) (byte_val a));
    try lia; try done.
  intros Hs Ht. f_equal; [apply byte_val_inj; lia | auto].
Qed.

Lemma str_leb_trans s t u : str_leb s t = true -> str_leb t u = true -> str_leb s u = true.
Proof.
  revert t u. induction s as [|a s IH]; intros [|b t] [|c u]; simpl; try done.
  destruct (N.ltb_spec (byte_val a) (byte_val b)), (N.ltb_spec (byte_val b) (byte_val a)),
    (N.ltb_spec (byte_val b) (byte_val c)), (N.ltb_spec (byte_val c) (byte_val b)),
    (N.ltb_spec (byte_val a) (byte_val c)), (N.ltb_spec (byte_val c) (byte_val a));
    try lia; try done; eauto.
Qed.

#[export] Instance str_le_refl : Reflexive str_le := str_leb_refl.
#[export] Instance str_le_trans : Transitive str_le := str_leb_trans.
#[export] Instance str_le_antisym : AntiSymm (=) str_le := str_leb_antisym.
#[export] Instance str_le_total : Total str_le := str_leb_total.

Lemma sort_strings_perm l : sort_strings l ≡ₚ l.
Proof. apply merge_sort_Permutation. Qed.

Lemma sort_strings_sorted l : Sorted str_le (sort_strings l).
Proof. apply Sorted_merge_sort; apply _. Qed.

(** Sorting erases the order of the input: what makes code that iterates over a
    Go map deterministic. *)
Lemma sort_strings_proper l l' : l ≡ₚ l' -> sort_strings l = sort_strings l'.
Proof.
  intros Hp. apply (Sorted_unique str_le); [apply sort_strings_sorted..|].
  by rewrite !sort_strings_perm.
Qed.
#[export] Instance sort_strings_Proper : Proper (Permutation ==> eq) sort_strings.
Proof. intros l l' Hp. by apply sort_strings_proper. Qed.

(** *** Paths *)

(** A component a path may safely have. *)
Definition plain (c : string) : Prop :=
  c <> EmptyString /\ c <> "."%string /\ c <> ".."%string /\ any_byte (Ascii.eqb slash) c = false.
Definition contained (p : string) : Prop := Forall plain (split slash p).

Lemma split_no_slash c s : Forall (fun x => any_byte (Ascii.eqb c) x = false) (split c s).
Proof.
  induction s as [|d s IH]; simpl; [by constructor|].
  destruct (Ascii.eqb c d) eqn:Hd; [by constructor|].
  destruct (split c s) as [|h r]; [by constructor; [simpl; rewrite Hd|]|].
  apply Forall_cons in IH as [Hh Hr]. constructor; [simpl; by rewrite Hd|done].
Qed.

Lemma split_app c a b :
  any_byte (Ascii.eqb c) a = false -> split c (a +:+ String c b) = a :: split c b.
Proof.
  induction a as [|d a IH]; simpl; [by rewrite Ascii.eqb_refl|].
  intros [-> Ha]%orb_false_iff. by rewrite IH.
Qed.

Lemma split_one c a : any_byte (Ascii.eqb c) a = false -> split c a = [a].
Proof. induction a as [|d a IH]; simpl; [done|]. intros [-> Ha]%orb_false_iff. by rewrite IH. Qed.

Lemma split_not_nil c s : split c s <> [].
Proof. destruct s as [|d s]; simpl; [done|]. destruct (Ascii.eqb c d); [done|]. by destruct (split c s). Qed.

(** Joining what [split] took apart. *)
Lemma join_split s : join "/" (split slash s) = s.
Proof.
  induction s as [|c s IH]; [done|]. cbn [split]. destruct (Ascii.eqb slash c) eqn:Hc.
  - apply Ascii.eqb_eq in Hc as <-. destruct (split slash s) as [|h r] eqn:Hs; [by apply split_not_nil in Hs|].
    change (String slash (join "/" (h :: r)) = String slash s). by rewrite IH.
  - destruct (split slash s) as [|h r] eqn:Hs; [by apply split_not_nil in Hs|].
    rewrite <-IH. by destruct r.
Qed.

Lemma split_join l :
  l <> [] -> Forall (fun x => any_byte (Ascii.eqb slash) x = false) l -> split slash (join "/" l) = l.
Proof.
  intros Hne Hl. destruct l as [|a l]; [done|]. clear Hne. revert a Hl. induction l as [|b l IH]; intros a Hl.
  - apply Forall_cons in Hl as [Ha _]. by apply split_one.
  - apply Forall_cons in Hl as [Ha Hl]. change (join "/" (a :: b :: l)) with (a +:+ String slash (join "/" (b :: l))).
    rewrite split_app by done. f_equal. by apply IH.
Qed.

(** The same for any separator of one byte. *)
Lemma split_joined c l :
  l <> [] -> Forall (fun x => any_byte (Ascii.eqb c) x = false) l -> split c (join (String c EmptyString) l) = l.
Proof.
  intros Hne Hl. destruct l as [|a l]; [done|]. clear Hne. revert a Hl. induction l as [|b l IH]; intros a Hl.
  - apply Forall_cons in Hl as [Ha _]. by apply split_one.
  - apply Forall_cons in Hl as [Ha Hl].
    change (join (String c EmptyString) (a :: b :: l)) with (a +:+ String c (join (String c EmptyString) (b :: l))).
    rewrite split_app by done. f_equal. by apply IH.
Qed.

Lemma cut_str_first c sep a b : any_byte (Ascii.eqb c) a = false ->
  cut_str (String c sep) (a +:+ String c sep +:+ b) = Some (a, b).
Proof.
  induction a as [|d a IH]; intros Ha.
  - change (EmptyString +:+ ?x) with x.
    assert (H : strip_prefix (String c sep) (String c sep +:+ b) = Some b) by (by apply strip_prefix_Some).
    destruct (String c sep +:+ b) as [|e t] eqn:He; [done|]. cbn [cut_str]. by rewrite H.
  - cbn [any_byte] in Ha. apply orb_false_iff in Ha as [Hd Ha].
    change (String d a +:+ ?x) with (String d (a +:+ x)). cbn [cut_str strip_prefix]. by rewrite Hd, IH.
Qed.

Lemma cut_str_none c sep s : any_byte (Ascii.eqb c) s = false -> cut_str (String c sep) s = None.
Proof.
  induction s as [|d s IH]; intros H; [done|]. cbn [any_byte] in H. apply orb_false_iff in H as [Hd H].
  cbn [cut_str strip_prefix]. by rewrite Hd, IH.
Qed.

(** What [path.Clean] keeps: leading [..] components, then plain ones. *)
Lemma clean_components_shape rooted stack comps ups downs :
  Forall (fun x => any_byte (Ascii.eqb slash) x = false) comps ->
  stack = downs ++ ups -> Forall (eq ".."%string) ups -> Forall plain downs ->
  exists ups' downs', clean_components rooted stack comps = ups' ++ downs' /\
    Forall (eq ".."%string) ups' /\ Forall plain downs'.
Proof.
  revert stack ups downs. induction comps as [|c comps IH]; intros stack ups downs Hc -> Hu Hd; simpl.
  { exists (rev ups), (rev downs). rewrite rev_app_distr. split_and!; [done|by apply Forall_rev..]. }
  apply Forall_cons in Hc as [Hcc Hc].
  destruct (bool_decide (c = EmptyString) || bool_decide (c = "."%string)) eqn:Hskip; [by eapply IH|].
  apply orb_false_iff in Hskip as [?%bool_decide_eq_false ?%bool_decide_eq_false].
  destruct (bool_decide (c = ".."%string)) eqn:Hup.
  - apply bool_decide_eq_true in Hup as ->. destruct downs as [|top downs]; simpl.
    + destruct ups as [|u ups]; simpl.
      * destruct rooted; [by eapply (IH [] [] [])|]. by eapply (IH _ [".."%string] []); [..|repeat constructor|].
      * apply Forall_cons in Hu as [<- Hu]. simpl.
        by eapply (IH _ (".."%string :: ".."%string :: ups) []); [..|repeat constructor|].
    + apply Forall_cons in Hd as [(? & ? & ? & ?) Hd]. rewrite bool_decide_eq_false_2 by done. by eapply IH.
  - apply bool_decide_eq_false in Hup. by eapply (IH _ ups (c :: downs)); [..|constructor].
Qed.

Lemma path_clean_safe s :
  has_prefix "/" s = false -> path_clean s <> ".."%string -> has_prefix "../" (path_clean s) = false ->
  path_clean s <> "."%string ->
  exists a l, Forall plain (a :: l) /\ path_clean s = join "/" (a :: l).
Proof.
  intros Hroot Hup Hpre Hdot. unfold path_clean in *. rewrite Hroot in *.
  destruct (clean_components_shape false [] (split slash s) [] []) as (ups & downs & Heq & Hu & Hd);
    [apply split_no_slash|done..|constructor|]. rewrite Heq in *.
  destruct ups as [|u ups].
  - simpl in *. destruct downs as [|a l]; [done|]. exists a, l. split; [done|].
    apply Forall_cons in Hd as [(Ha & _) _]. rewrite bool_decide_eq_false_2; [done|].
    destruct l; simpl; destruct a; done.
  - exfalso. apply Forall_cons in Hu as [<- _]. destruct (ups ++ downs) as [|b l] eqn:Hl.
    + simpl in Hup. rewrite Hl in Hup. done.
    + simpl in Hpre. rewrite Hl in Hpre. done.
Qed.

Lemma plain_join_contained l : l <> [] -> Forall plain l -> split slash (join "/" l) = l.
Proof. intros Hne Hl. apply split_join; [done|]. eapply Forall_impl; [exact Hl|]. by intros x (_ & _ & _ & ?). Qed.

Lemma cut_join a b l :
  Forall plain (a :: b :: l) -> cut slash (join "/" (a :: b :: l)) = Some (a, join "/" (b :: l)).
Proof. intros (Ha & _)%Forall_cons. change (cut slash (a +:+ String slash (join "/" (b :: l))) = Some (a, join "/" (b :: l))).
  apply cut_app. apply Ha. Qed.

Lemma rev_app_spec s acc : rev_app s acc = rev_string s +:+ acc.
Proof.
  unfold rev_string. revert acc. induction s as [|c s IH]; intros acc; simpl; [done|].
  by rewrite (IH (String c acc)), (IH (String c EmptyString)), str_app_assoc.
Qed.
Lemma rev_string_cons c s : rev_string (String c s) = rev_string s +:+ String c EmptyString.
Proof. unfold rev_string at 1. simpl. apply rev_app_spec. Qed.
Lemma rev_string_app s t : rev_string (s +:+ t) = rev_string t +:+ rev_string s.
Proof.
  induction s as [|c s IH]; simpl; [by rewrite str_app_nil_r|].
  by rewrite !rev_string_cons, IH, str_app_assoc.
Qed.
Lemma rev_string_involutive s : rev_string (rev_string s) = s.
Proof. induction s as [|c s IH]; [done|]. by rewrite rev_string_cons, rev_string_app, IH. Qed.

(** Bytes taken and dropped. *)
Lemma take_drop_bytes_app (a b : string) : take_bytes (String.length a) (a +:+ b) = a /\ drop_bytes (String.length a) (a +:+ b) = b.
Proof. induction a as [|c a [IH1 IH2]]; simpl; [by destruct b|]. by rewrite IH1, IH2. Qed.

Lemma take_drop_bytes n (s : string) : take_bytes n s +:+ drop_bytes n s = s.
Proof. revert s. induction n as [|n IH]; intros [|c s]; simpl; [done..|]. by rewrite IH. Qed.
Lemma take_bytes_short (s : string) n : (String.length s <= n)%nat -> take_bytes n s = s.
Proof. revert s. induction n as [|n IH]; intros [|c s]; simpl; try done; [lia|]. intros. by rewrite IH by lia. Qed.
Lemma take_bytes_length (s : string) n : (n <= String.length s)%nat -> String.length (take_bytes n s) = n.
Proof. revert s. induction n as [|n IH]; intros [|c s]; simpl; try done; [lia|]. intros. rewrite IH; lia. Qed.

#[export] Hint Resolve str_leb_refl sort_strings_perm sort_strings_sorted : nexa.
#[export] Hint Rewrite all_bytes_app len_app str_app_assoc str_app_nil_r : nexa.
