(* ===== verification/Json.v ===== *)
(** * JSON values

    Go's [any] values as [encoding/json] sees them, and [json.Marshal].  Numbers
    are kept as their literal text; an object is an association list with
    distinct keys, which [json.Marshal] writes in key order. *)

From Stdlib Require Import Ascii.
From S2P Require Import Prelude GoStrings.


Inductive json : Type :=
| JNull
| JBool (b : bool)
| JNum (literal : string)
| JStr (s : string)
| JArr (l : list json)
| JObj (l : list (string * json)).

Definition hex_digit (n : N) : ascii :=
  ascii_of_N (if (n <? 10)%N then 48 + n else 87 + n)%N.
Definition quote : ascii := "034".
Definition backslash : ascii := "\".

(** One character inside a JSON string, as [encodeState.string] writes it with
    HTML escaping on. *)
Definition escape_byte (c : ascii) : string :=
  let n := byte_val c in
  let u4 := "\u00" +:+ String (hex_digit (n / 16)) (String (hex_digit (n mod 16)) EmptyString) in
  if Ascii.eqb c backslash || Ascii.eqb c quote then String backslash (String c EmptyString)
  else if (n =? 8)%N then "\b" else if (n =? 12)%N then "\f" else if (n =? 10)%N then "\n"
  else if (n =? 13)%N then "\r" else if (n =? 9)%N then "\t"
  else if (n <? 32)%N then u4
  else if one_of "<>&" c then u4
  else String c EmptyString.

Definition escape_rune (r : string * bool) : string :=
  match r with
  | (s, false) => "\ufffd"
  | (String c EmptyString, true) => escape_byte c
  | (String a (String b (String c EmptyString)) as s, true) =>
      if byte_eq 226 a && byte_eq 128 b && (byte_eq 168 c || byte_eq 169 c)
      then (if byte_eq 168 c then "\u2028" else "\u2029")
      else s
  | (s, true) => s
  end.

Definition marshal_string (s : string) : string :=
  String quote (foldr (fun r acc => escape_rune r +:+ acc) (String quote EmptyString) (runes s)).

(** [strconv.Quote], the verb %q of [fmt]; characters above ASCII are taken as
    printable. *)
Definition quote_byte (c : ascii) : string :=
  let n := byte_val c in
  if Ascii.eqb c backslash || Ascii.eqb c quote then String backslash (String c EmptyString)
  else if (n =? 7)%N then "\a" else if (n =? 8)%N then "\b" else if (n =? 12)%N then "\f"
  else if (n =? 10)%N then "\n" else if (n =? 13)%N then "\r" else if (n =? 9)%N then "\t"
  else if (n =? 11)%N then "\v"
  else if (n <? 32)%N || (n =? 127)%N || (127 <? n)%N
  then "\x" +:+ String (hex_digit (n / 16)) (String (hex_digit (n mod 16)) EmptyString)
  else String c EmptyString.
Definition quote_rune (r : string * bool) : string :=
  match r with
  | (String c EmptyString, _) => quote_byte c
  | (s, _) => s
  end.
Definition go_quote (s : string) : string :=
  String quote (foldr (fun r acc => quote_rune r +:+ acc) (String quote EmptyString) (runes s)).

Definition key_le (a b : string * string) : Prop := str_le a.1 b.1.
#[export] Instance key_le_dec : RelDecision key_le.
Proof. intros a b. unfold key_le. apply _. Defined.

(** [json.Marshal] *)
Fixpoint marshal (j : json) : string :=
  match j with
  | JNull => "null"
  | JBool b => if b then "true" else "false"
  | JNum l => l
  | JStr s => marshal_string s
  | JArr l => "[" +:+ join "," (map marshal l) +:+ "]"
  | JObj l =>
      let members := map (fun kv => (kv.1, marshal kv.2)) l in
      "{" +:+ join "," (map (fun kv => marshal_string kv.1 +:+ ":" +:+ kv.2)
                            (merge_sort key_le members)) +:+ "}"
  end.

(** [json.Marshal] of a Go [[]string] that is not nil. *)
Definition marshal_strings (l : list string) : string := marshal (JArr (map JStr l)).

(** Induction over nested values. *)
Section json_ind.
Variable P : json -> Prop.
Hypothesis Hnull : P JNull.
Hypothesis Hbool : forall b, P (JBool b).
Hypothesis Hnum : forall l, P (JNum l).
Hypothesis Hstr : forall s, P (JStr s).
Hypothesis Harr : forall l, Forall P l -> P (JArr l).
Hypothesis Hobj : forall l, Forall (fun kv => P kv.2) l -> P (JObj l).

Fixpoint json_nested_ind (j : json) : P j :=
  match j with
  | JNull => Hnull
  | JBool b => Hbool b
  | JNum l => Hnum l
  | JStr s => Hstr s
  | JArr l => Harr l
      ((fix go l : Forall P l :=
          match l with [] => Forall_nil_2 _ | x :: r => Forall_cons_2 _ _ _ (json_nested_ind x) (go r) end) l)
  | JObj l => Hobj l
      ((fix go l : Forall (fun kv => P kv.2) l :=
          match l with
          | [] => Forall_nil_2 _
          | kv :: r => Forall_cons_2 _ _ _ (json_nested_ind kv.2) (go r)
          end) l)
  end.
End json_ind.

(** ** Strings that need no escaping *)
Definition plain_byte (c : ascii) : bool := is_alnum c || byte_eq 95 c.

Lemma plain_byte_escape c :
  plain_byte c = true ->
  byte_between 0 127 c = true /\ escape_byte c = String c EmptyString /\ Ascii.eqb c quote = false.
Proof. destruct c as [[][][][][][][][]]; vm_compute; intros; try discriminate; auto. Qed.

Lemma marshal_string_plain s :
  all_bytes plain_byte s = true -> marshal_string s = String quote (s +:+ String quote EmptyString).
Proof.
  unfold marshal_string, runes. intros Hs. f_equal. induction s as [|c s IH]; [done|].
  simpl in Hs. apply andb_prop in Hs as [Hc Hs]. destruct (plain_byte_escape _ Hc) as (Ha & He & _).
  cbn [String.length runes_fuel rune_width]. rewrite Ha. cbn [foldr take_bytes drop_bytes escape_rune].
  rewrite He, IH by done. done.
Qed.

(** A reader of arrays of such strings. *)
Fixpoint plain_items (s : string) (cur : option string) : list string :=
  match s with
  | EmptyString => []
  | String c r =>
      if Ascii.eqb c quote then
        match cur with None => plain_items r (Some EmptyString) | Some x => x :: plain_items r None end
      else match cur with
           | None => plain_items r None
           | Some x => plain_items r (Some (x +:+ String c EmptyString))
           end
  end.

Lemma plain_items_string s x rest :
  all_bytes plain_byte s = true ->
  plain_items (s +:+ String quote rest) (Some x) = (x +:+ s) :: plain_items rest None.
Proof.
  revert x. induction s as [|c s IH]; intros x Hs.
  - simpl. by rewrite str_app_nil_r.
  - simpl in Hs. apply andb_prop in Hs as [Hc Hs]. destruct (plain_byte_escape _ Hc) as (_ & _ & Hq).
    cbn [plain_items String.append]. rewrite Hq, IH, str_app_assoc by done. done.
Qed.

Lemma plain_items_marshal l :
  Forall (fun s => all_bytes plain_byte s = true) l -> plain_items (marshal_strings l) None = l.
Proof.
  intros Hl. unfold marshal_strings. cbn [marshal]. rewrite map_map. cbn [String.append plain_items].
  change (map (fun x => marshal (JStr x)) l) with (map marshal_string l).
  assert (Hj : forall l tail, Forall (fun s => all_bytes plain_byte s = true) l ->
    plain_items (join "," (map marshal_string l) +:+ tail) None = l ++ plain_items tail None).
  { clear. induction l as [|x l IH]; intros tail Hl; [done|]. inversion Hl as [|? ? Hx Hl']; subst.
    destruct l as [|y l].
    - cbn [map join]. rewrite marshal_string_plain by done. cbn [String.append plain_items].
      rewrite Ascii.eqb_refl, str_app_assoc. simpl. by rewrite plain_items_string.
    - cbn [map join] in *. rewrite marshal_string_plain by done. cbn [String.append plain_items].
      rewrite Ascii.eqb_refl, !str_app_assoc. simpl. rewrite plain_items_string by done. simpl.
      f_equal. apply (IH tail). done. }
  rewrite (Hj l "]") by done. simpl. apply app_nil_r.
Qed.
