(* ===== verification/Sql.v ===== *)
(** * SQL statements on tables

    A table is the list of its rows in rowid order.  The statements the panel
    issues through its query builder are [UPDATE ... WHERE], [DELETE ... WHERE]
    and [SELECT ... WHERE ... ORDER BY id], with a boolean row predicate for the
    [WHERE] clause; [RowsAffected] is the number of rows the predicate selects.
    A transaction either commits its whole effect or leaves the database as it
    was ([RunInTx]). *)

From S2P Require Import Prelude.

Local Open Scope Z_scope.

(** The driver stores a timestamp, and compares one, with microseconds. *)
Definition sql_time (t : Z) : Z := time_truncate t microsecond.

Lemma sql_time_le a b : a <= b -> sql_time a <= sql_time b.
Proof.
  unfold sql_time, time_truncate, microsecond. intros Hab.
  pose proof (Z_div_mod_eq_full a 1000). pose proof (Z_div_mod_eq_full b 1000).
  assert (a / 1000 <= b / 1000) by (apply Z.div_le_mono; lia). lia.
Qed.

Section table.
Context {R : Type}.
Implicit Types (rows : list R) (p : R -> bool).

Definition update_where p (f : R -> R) rows : list R :=
  map (fun r => if p r then f r else r) rows.
Definition delete_where p rows : list R := List.filter (fun r => negb (p r)) rows.
Definition select_where p rows : list R := List.filter p rows.
Definition rows_affected p rows : Z := Z.of_nat (length (List.filter p rows)).

(** [ORDER BY id ASC LIMIT 1] *)
Definition select_first p rows : option R := List.find p rows.

(** [SELECT EXISTS] *)
Definition select_exists p rows : bool := existsb p rows.
End table.

Section tx.
Context {D E : Type}.

(** [RunInTx]: [fault] is a driver error at any point of the transaction.  A
    failing body, too, rolls the database back. *)
Definition run_tx {A} (fault : bool) (driver_error : E) (d : D)
    (body : D -> result E (A * D)) : result E A * D :=
  if fault then (Err driver_error, d)
  else match body d with
       | Ok (a, d') => (Ok a, d')
       | Err e => (Err e, d)
       end.

(** The only two outcomes of a transaction. *)
Lemma run_tx_inv {A} fault e0 d body (r : result E A) d' :
  run_tx fault e0 d body = (r, d') ->
  (exists a, r = Ok a /\ fault = false /\ body d = Ok (a, d')) \/
  ((exists e, r = Err e) /\ d' = d).
Proof.
  unfold run_tx. destruct fault; [intros [= <- <-]; right; eauto|].
  destruct (body d) as [[a d'']|e] eqn:Hb; intros [= <- <-]; [left|right]; eauto.
Qed.
End tx.

Section lemmas.
Context {R : Type}.
Implicit Types (rows : list R) (p q : R -> bool).

Lemma elem_of_update_where p f rows r :
  r ∈ update_where p f rows <->
  exists r0, r0 ∈ rows /\ r = (if p r0 then f r0 else r0).
Proof.
  unfold update_where. rewrite list_elem_of_In, in_map_iff.
  setoid_rewrite list_elem_of_In. naive_solver.
Qed.

Lemma elem_of_select_where p rows r : r ∈ select_where p rows <-> r ∈ rows /\ p r = true.
Proof. unfold select_where. by rewrite !list_elem_of_In, filter_In. Qed.

Lemma elem_of_delete_where p rows r : r ∈ delete_where p rows <-> r ∈ rows /\ p r = false.
Proof. unfold delete_where. by rewrite !list_elem_of_In, filter_In, negb_true_iff. Qed.

(** An update that keeps [g] keeps the column. *)
Lemma map_update_where {B} (g : R -> B) p f rows :
  (forall r, g (f r) = g r) -> map g (update_where p f rows) = map g rows.
Proof.
  intros Hg. unfold update_where. rewrite map_map. apply map_ext. intros r.
  by destruct (p r).
Qed.

Lemma update_where_none p f rows :
  (forall r, r ∈ rows -> p r = false) -> update_where p f rows = rows.
Proof.
  intros H. unfold update_where. rewrite <-(map_id rows) at 2. apply map_ext_in.
  intros r Hr%list_elem_of_In. by rewrite (H r Hr).
Qed.

Lemma select_where_all p rows : (forall r, r ∈ rows -> p r = true) -> select_where p rows = rows.
Proof.
  unfold select_where. induction rows as [|r rows IH]; intros H; simpl; [done|].
  rewrite (H r) by (apply elem_of_cons; by left). f_equal. apply IH. intros r' ?. apply H, elem_of_cons. by right.
Qed.

Lemma select_where_app p rows1 rows2 :
  select_where p (rows1 ++ rows2) = select_where p rows1 ++ select_where p rows2.
Proof. apply List.filter_app. Qed.

Lemma rows_affected_app p rows1 rows2 :
  rows_affected p (rows1 ++ rows2) = rows_affected p rows1 + rows_affected p rows2.
Proof. unfold rows_affected. rewrite List.filter_app, length_app. lia. Qed.

Lemma rows_affected_0 p rows :
  rows_affected p rows = 0 <-> forall r, r ∈ rows -> p r = false.
Proof.
  unfold rows_affected. split.
  - intros H r Hr. destruct (p r) eqn:Hp; [|done].
    assert (r ∈ select_where p rows) as Hin by (by apply elem_of_select_where).
    unfold select_where in Hin. destruct (List.filter p rows); [|simpl in H; lia].
    by apply elem_of_nil in Hin.
  - intros H. replace (List.filter p rows) with (@nil R); [done|].
    symmetry. induction rows as [|r rows IHr]; simpl; [done|].
    rewrite (H r) by apply elem_of_cons, or_introl, eq_refl.
    apply IHr. intros r' Hr'. apply H. by apply elem_of_cons, or_intror.
Qed.

Lemma rows_affected_all p rows :
  (forall r, r ∈ rows -> p r = true) -> rows_affected p rows = Z.of_nat (length rows).
Proof.
  unfold rows_affected. induction rows as [|r rows IHr]; intros H; simpl; [done|].
  rewrite (H r) by (apply elem_of_cons; by left). simpl.
  rewrite !Nat2Z.inj_succ, IHr; [done|]. intros r' ?. apply H, elem_of_cons. by right.
Qed.

Lemma rows_affected_pos p rows :
  0 < rows_affected p rows <-> exists r, r ∈ rows /\ p r = true.
Proof.
  split.
  - unfold rows_affected. destruct (List.filter p rows) as [|r l] eqn:Hf; [simpl; lia|].
    intros _. exists r. apply elem_of_select_where. unfold select_where. rewrite Hf.
    apply elem_of_cons. by left.
  - intros (r & Hr & Hp). destruct (decide (rows_affected p rows = 0)) as [H0|H0].
    + by rewrite rows_affected_0 in H0; rewrite H0 in Hp.
    + unfold rows_affected in *. lia.
Qed.

Lemma select_first_Some p rows r : select_first p rows = Some r -> r ∈ rows /\ p r = true.
Proof. intros H. apply find_some in H. by rewrite list_elem_of_In. Qed.

Lemma select_first_None p rows :
  select_first p rows = None <-> forall r, r ∈ rows -> p r = false.
Proof.
  split; [intros H r Hr%list_elem_of_In; by eapply find_none|].
  induction rows as [|r rows IHr]; simpl; [done|]. intros H.
  rewrite (H r) by (apply elem_of_cons; by left).
  apply IHr. intros r' ?. apply H. apply elem_of_cons. by right.
Qed.
End lemmas.

Lemma select_first_app_none {R} (p : R -> bool) rows1 rows2 :
  select_first p rows1 = None -> select_first p (rows1 ++ rows2) = select_first p rows2.
Proof.
  unfold select_first. induction rows1 as [|r rows1 IH]; simpl; [done|]. by destruct (p r).
Qed.

(** The row a predicate singles out. *)
Lemma find_unique {R} (p : R -> bool) (l : list R) x :
  x ∈ l -> p x = true -> (forall y, y ∈ l -> p y = true -> y = x) -> select_first p l = Some x.
Proof.
  intros Hx Hp Hone. destruct (select_first p l) as [y|] eqn:Hf.
  - apply select_first_Some in Hf as [Hy Hpy]. by rewrite (Hone y Hy Hpy).
  - rewrite select_first_None in Hf. by rewrite (Hf x Hx) in Hp.
Qed.

Lemma one_row_affected {R} (p : R -> bool) (l : list R) x :
  NoDup l -> x ∈ l -> p x = true -> (forall y, y ∈ l -> p y = true -> y = x) -> rows_affected p l = 1.
Proof.
  intros HN (l1 & l2 & ->)%list_elem_of_split Hp Hone. apply NoDup_app in HN as (_ & Hd & HN).
  apply NoDup_cons in HN as [Hx2 _].
  rewrite rows_affected_app. replace (rows_affected p l1) with 0; [|symmetry; apply rows_affected_0].
  - unfold rows_affected. simpl. rewrite Hp. simpl. replace (List.filter p l2) with (@nil R); [done|].
    symmetry. pose proof (rows_affected_0 p l2) as [_ H0]. assert (rows_affected p l2 = 0) as H.
    { apply H0. intros y Hy. destruct (p y) eqn:Hpy; [|done]. destruct Hx2. rewrite <-(Hone y); [done|set_solver|done]. }
    unfold rows_affected in H. by destruct (List.filter p l2).
  - intros y Hy. destruct (p y) eqn:Hpy; [|done]. destruct (Hd y Hy). rewrite (Hone y); set_solver.
Qed.

(** ** Rows with a unique increasing key *)
Section keyed.
Context {R : Type} (key : R -> Z).
Implicit Types (rows : list R).

Definition keys_sorted rows : Prop := StronglySorted (fun a b => key a < key b) rows.

Lemma keys_sorted_unique rows a b :
  keys_sorted rows -> a ∈ rows -> b ∈ rows -> key a = key b -> a = b.
Proof.
  induction 1 as [|r rows Hs IHs Hall]; intros Ha Hb Hk; [by apply elem_of_nil in Ha|].
  rewrite Forall_forall in Hall. rewrite elem_of_cons in Ha, Hb.
  destruct Ha as [->|Ha], Hb as [->|Hb]; auto.
  - specialize (Hall _ Hb). simpl in Hall. lia.
  - specialize (Hall _ Ha). simpl in Hall. lia.
Qed.

Lemma keys_sorted_map rows (f : R -> R) :
  (forall r, key (f r) = key r) -> keys_sorted rows -> keys_sorted (map f rows).
Proof.
  intros Hf. induction 1 as [|r rows Hs IHs Hall]; simpl; constructor; [done|].
  rewrite Forall_forall in Hall |- *. intros r' (r0 & <- & Hr0)%list_elem_of_In%in_map_iff.
  rewrite !Hf. apply Hall. by apply list_elem_of_In.
Qed.

Lemma keys_sorted_filter rows p : keys_sorted rows -> keys_sorted (List.filter p rows).
Proof.
  induction 1 as [|r rows Hs IHs Hall]; simpl; [constructor|].
  destruct (p r); [|done]. constructor; [done|].
  rewrite Forall_forall in Hall |- *. intros r' [Hr' _]%list_elem_of_In%filter_In.
  apply Hall. by apply list_elem_of_In.
Qed.

Lemma keys_sorted_snoc rows r :
  keys_sorted rows -> (forall r', r' ∈ rows -> key r' < key r) -> keys_sorted (rows ++ [r]).
Proof.
  intros Hs Hlt. apply StronglySorted_app_2; [| done | repeat constructor].
  intros x1 x2 Hx1 Hx2. apply list_elem_of_singleton in Hx2 as ->. auto.
Qed.

Lemma keys_sorted_update rows p (f : R -> R) :
  (forall r, key (f r) = key r) -> keys_sorted rows -> keys_sorted (update_where p f rows).
Proof. intros Hf. apply keys_sorted_map. intros r. by destruct (p r). Qed.

(** Both depend on the keys only. *)
Lemma keys_sorted_keys rows : keys_sorted rows <-> StronglySorted Z.lt (map key rows).
Proof.
  unfold keys_sorted. induction rows as [|r rows IH]; simpl; [split; constructor|].
  rewrite !StronglySorted_cons, IH, !Forall_forall.
  setoid_rewrite list_elem_of_In. setoid_rewrite in_map_iff. naive_solver.
Qed.

Lemma keys_sorted_same_keys rows rows' :
  map key rows = map key rows' -> keys_sorted rows -> keys_sorted rows'.
Proof. intros Heq. by rewrite !keys_sorted_keys, Heq. Qed.

(** Two keyed tables with the same rows are the same list. *)
Lemma keys_sorted_NoDup rows : keys_sorted rows -> NoDup rows.
Proof.
  induction 1 as [|r rows Hs IHs Hall]; constructor; [|done].
  intros Hin. rewrite Forall_forall in Hall. specialize (Hall _ Hin). simpl in Hall. lia.
Qed.

Lemma select_above_all rows c :
  (forall x, x ∈ rows -> c < key x) -> select_where (fun r => c <? key r) rows = rows.
Proof.
  unfold select_where. induction rows as [|x rows IH]; intros Hall; simpl; [done|].
  rewrite (proj2 (Z.ltb_lt _ _)) by (apply Hall, elem_of_cons; auto).
  f_equal. apply IH. intros y Hy. apply Hall, elem_of_cons. auto.
Qed.

Lemma select_above_none rows c :
  (forall x, x ∈ rows -> key x <= c) -> select_where (fun r => c <? key r) rows = [].
Proof.
  unfold select_where. induction rows as [|x rows IH]; intros Hall; simpl; [done|].
  rewrite (proj2 (Z.ltb_ge _ _)) by (apply Hall, elem_of_cons; auto).
  apply IH. intros y Hy. apply Hall, elem_of_cons. auto.
Qed.

Lemma select_above_above rows b c :
  b <= c ->
  select_where (fun r => c <? key r) (select_where (fun r => b <? key r) rows) =
  select_where (fun r => c <? key r) rows.
Proof.
  intros Hbc. unfold select_where. induction rows as [|x rows IH]; simpl; [done|].
  destruct (Z.ltb_spec b (key x)); simpl; rewrite IH; [done|].
  by rewrite (proj2 (Z.ltb_ge c (key x))) by lia.
Qed.

(** The highest key, 0 for an empty table: [coalesce(max(id), 0)]. *)
Definition max_key rows : Z := match rows with [] => 0 | r :: l => foldr (fun r m => Z.max (key r) m) (key r) l end.

Lemma max_key_cons r rows :
  max_key (r :: rows) = match rows with [] => key r | _ => Z.max (key r) (max_key rows) end.
Proof.
  destruct rows as [|r' rows]; [done|]. simpl. revert r r'.
  induction rows as [|r'' rows IH]; intros r r'; simpl; [lia|].
  specialize (IH r r'). simpl in IH. lia.
Qed.

Lemma max_key_same_keys rows rows' : map key rows = map key rows' -> max_key rows = max_key rows'.
Proof.
  revert rows'. induction rows as [|r rows IH]; intros [|r' rows']; try done.
  intros [= Hr Hrows]. rewrite !max_key_cons, Hr, (IH rows' Hrows).
  destruct rows, rows'; done.
Qed.

Lemma max_key_ge rows x : x ∈ rows -> key x <= max_key rows.
Proof.
  induction rows as [|r rows IH]; [by intros ?%elem_of_nil|].
  rewrite elem_of_cons, max_key_cons. intros [->|Hx]; destruct rows; try lia.
  - by apply elem_of_nil in Hx.
  - specialize (IH Hx). lia.
Qed.

Lemma max_key_le rows b : 0 <= b -> (forall x, x ∈ rows -> key x <= b) -> max_key rows <= b.
Proof.
  intros Hb. induction rows as [|r rows IH]; intros Hall; [done|].
  assert (key r <= b) by (apply Hall, elem_of_cons; auto).
  assert (max_key rows <= b) by (apply IH; intros x ?; apply Hall, elem_of_cons; auto).
  rewrite max_key_cons. destruct rows; lia.
Qed.

Lemma max_key_app rows1 rows2 :
  (forall x, x ∈ rows1 ++ rows2 -> 0 < key x) -> max_key rows1 <= max_key (rows1 ++ rows2).
Proof.
  intros Hpos. destruct (rows1 ++ rows2) as [|r l] eqn:Happ.
  - by apply app_eq_nil in Happ as [-> ->].
  - apply max_key_le.
    + assert (0 < key r) by (apply Hpos, elem_of_cons; auto).
      assert (key r <= max_key (r :: l)) by (apply max_key_ge, elem_of_cons; auto). lia.
    + intros x Hx. apply max_key_ge. rewrite <-Happ. apply elem_of_app. auto.
Qed.
End keyed.

#[export] Hint Resolve keys_sorted_filter keys_sorted_update keys_sorted_snoc : nexa.
