(* ===== verification/AuditLog.v ===== *)
(** * The audit log and its hash chain

    [internal/platform/audit]: the append-only table of security events, the
    chain of hashes that [Record] extends and [Verify] walks, and the two write
    policies of [Sink].  SHA-256 (rendered in hexadecimal) and the RFC 3339
    rendering of an instant are the parameters [sha256hex] and [time_fmt]. *)

From Stdlib Require Import Ascii.
From S2P Require Import Prelude GoStrings Json Sql.

Local Open Scope Z_scope.

(** ** Data *)

Record Entry := mk_entry {
  ActorUserID : option string;
  Action : string;
  Subject : string;
  RemoteAddress : string;
  Metadata : option (list (string * json));  (* [None]: the nil map *)
}.

Record eventModel := mk_event {
  ev_ID : Z;
  ev_OccurredAt : Z;
  ev_ActorUserID : option string;
  ev_Action : string;
  ev_Subject : string;
  ev_RemoteAddress : string;
  ev_Metadata : string;
  ev_PrevHash : string;
  ev_Hash : string;
}.

(** The tables [audit_events] and [audit_chain_state].  [chain_state] is [None]
    when the table was dropped, [Some None] when its row is missing.
    [autoincrement] is SQLite's [sqlite_sequence] entry. *)
Record db := mk_db {
  audit_events : list eventModel;
  chain_state : option (option Z);
  autoincrement : Z;
}.

Inductive error :=
| errRequired            (* audit action and subject are required *)
| errChainStartMissing
| errChainBlanked
| errDriver              (* any error of the database driver *)
| ErrUnauditable (action : string).

#[export] Instance error_eq_dec : EqDecision error.
Proof. solve_decision. Defined.

Record VerifyResult := mk_verify {
  Intact : bool;
  Checked : Z;
  Unhashed : Z;
  FirstBrokenID : option Z;
  Reason : string;
  Guarantee : string;
}.

Definition chainGuarantee : string :=
  "tamper-evident, not tamper-proof: this detects partial edits, deletions, and corruption, but not a wholesale recompute or a truncated tail by anyone with write access to control.db".

Definition verifyBatch : nat := 500.

Record chainBounds := mk_bounds { total : Z; maxID : Z; hashed : Z }.

(** ** Hashing *)
Section audit.
Context (sha256hex : string -> string) (time_fmt : Z -> string).

Definition actorField (actor : option string) : string :=
  match actor with
  | None => "-"
  | Some a => "u:" +:+ a
  end.

Definition chainGenesis (watermark : Z) : string :=
  sha256hex ("nexa-audit-chain-v1:" +:+ itoa watermark).

(** The digest input: every field with its length in front. *)
Fixpoint digest_input (fields : list string) : string :=
  match fields with
  | [] => EmptyString
  | f :: r => itoa (len f) +:+ ":" +:+ f +:+ digest_input r
  end.

Definition row_fields (model : eventModel) : list string :=
  [time_fmt (ev_OccurredAt model); actorField (ev_ActorUserID model); ev_Action model;
   ev_Subject model; ev_RemoteAddress model; ev_Metadata model].

Definition chainHash (previous : string) (model : eventModel) : string :=
  sha256hex (digest_input (previous :: row_fields model)).

(** ** Reading the chain *)

Definition chainWatermark (fault : bool) (d : db) : result error Z :=
  if fault then Err errDriver
  else match chain_state d with
       | None | Some None => Err errChainStartMissing
       | Some (Some w) => Ok w
       end.

Definition readChainBounds (d : db) : chainBounds :=
  {| total := Z.of_nat (length (audit_events d));
     maxID := max_key ev_ID (audit_events d);
     hashed := rows_affected (fun m => negb (bool_decide (ev_Hash m = EmptyString))) (audit_events d) |}.

(** [tailHash]: the newest row is the last of the table. *)
Definition tailHash (d : db) (watermark : Z) : result error string :=
  match last (audit_events d) with
  | None => Ok (chainGenesis watermark)
  | Some tail =>
      if bool_decide (ev_Hash tail = EmptyString) then
        if watermark <? ev_ID tail then Err errChainBlanked
        else Ok (chainGenesis watermark)
      else Ok (ev_Hash tail)
  end.

(** ** Recording *)

Definition insert_event (d : db) (m : eventModel) : db :=
  let id := Z.max (autoincrement d) (max_key ev_ID (audit_events d)) + 1 in
  {| audit_events := audit_events d ++
       [{| ev_ID := id; ev_OccurredAt := sql_time (ev_OccurredAt m);
           ev_ActorUserID := ev_ActorUserID m; ev_Action := ev_Action m;
           ev_Subject := ev_Subject m; ev_RemoteAddress := ev_RemoteAddress m;
           ev_Metadata := ev_Metadata m; ev_PrevHash := ev_PrevHash m; ev_Hash := ev_Hash m |}];
     chain_state := chain_state d;
     autoincrement := id |}.

Definition entry_row (now : Z) (entry : Entry) : eventModel :=
  let metadata := default [] (Metadata entry) in
  {| ev_ID := 0; ev_OccurredAt := time_truncate now microsecond;
     ev_ActorUserID := ActorUserID entry; ev_Action := Action entry;
     ev_Subject := Subject entry; ev_RemoteAddress := RemoteAddress entry;
     ev_Metadata := marshal (JObj metadata); ev_PrevHash := EmptyString; ev_Hash := EmptyString |}.

Definition chained (previous : string) (m : eventModel) : eventModel :=
  {| ev_ID := ev_ID m; ev_OccurredAt := ev_OccurredAt m; ev_ActorUserID := ev_ActorUserID m;
     ev_Action := ev_Action m; ev_Subject := ev_Subject m;
     ev_RemoteAddress := ev_RemoteAddress m; ev_Metadata := ev_Metadata m;
     ev_PrevHash := previous; ev_Hash := chainHash previous m |}.

(** [UPDATE audit_chain_state SET watermark = watermark]: takes the write lock;
    it fails when the table is gone and changes nothing otherwise. *)
Definition claim_chain (d : db) : result error unit :=
  match chain_state d with None => Err errDriver | Some _ => Ok tt end.

Definition RecordEvent (fault : bool) (now : Z) (entry : Entry) (d : db) : result error unit * db :=
  if bool_decide (Action entry = EmptyString) || bool_decide (Subject entry = EmptyString)
  then (Err errRequired, d)
  else
    let model := entry_row now entry in
    run_tx fault errDriver d (fun d =>
      _ ← claim_chain d;
      watermark ← chainWatermark false d;
      previous ← tailHash d watermark;
      Ok (tt, insert_event d (chained previous model))).

(** ** Verifying *)

Definition broken (r : VerifyResult) (id : Z) (reason : string) : VerifyResult :=
  {| Intact := false; Checked := Checked r; Unhashed := Unhashed r;
     FirstBrokenID := Some id; Reason := reason; Guarantee := Guarantee r |}.

Definition verdict (reason : string) (unhashed : Z) : VerifyResult :=
  {| Intact := false; Checked := 0; Unhashed := unhashed; FirstBrokenID := None;
     Reason := reason; Guarantee := EmptyString |}.

Definition reasonMissing := "the recorded chain start is missing; the audit chain state was deleted or its table was dropped".
Definition reasonMoved := "the recorded chain start is newer than the newest audit event; the chain boundary was moved".
Definition reasonBlanked := "no audit event carries a chain hash although the chain has started; the hash columns were blanked (or, on a database upgraded moments ago, nothing has been recorded since the upgrade)".
Definition reasonNoHash := "row carries no chain hash".
Definition reasonLink := "chain link does not match the preceding row; a row was deleted or reordered".
Definition reasonContents := "row contents do not match its recorded hash".

(** One row of the walk: stop with a verdict, or go on with the hash to chain
    from and the counters. *)
Definition walk_row (watermark : Z) (previous : string) (result : VerifyResult) (model : eventModel)
    : VerifyResult + (string * VerifyResult) :=
  if bool_decide (ev_Hash model = EmptyString) then
    if watermark <? ev_ID model then inl (broken result (ev_ID model) reasonNoHash)
    else inr (previous, {| Intact := Intact result; Checked := Checked result;
                           Unhashed := Unhashed result + 1; FirstBrokenID := FirstBrokenID result;
                           Reason := Reason result; Guarantee := Guarantee result |})
  else if negb (bool_decide (ev_PrevHash model = previous)) then
    inl (broken result (ev_ID model) reasonLink)
  else if negb (bool_decide (chainHash previous model = ev_Hash model)) then
    inl (broken result (ev_ID model) reasonContents)
  else inr (ev_Hash model, {| Intact := Intact result; Checked := Checked result + 1;
                              Unhashed := Unhashed result; FirstBrokenID := FirstBrokenID result;
                              Reason := Reason result; Guarantee := Guarantee result |}).

(** The walk over one batch. *)
Fixpoint walk_rows (watermark : Z) (previous : string) (result : VerifyResult)
    (models : list eventModel) : VerifyResult + (string * VerifyResult) :=
  match models with
  | [] => inr (previous, result)
  | model :: rest =>
      match walk_row watermark previous result model with
      | inl r => inl r
      | inr (previous', result') => walk_rows watermark previous' result' rest
      end
  end.

(** The batched loop: [SELECT ... WHERE id > cursor ORDER BY id LIMIT 500]
    until a batch comes back empty.  [None]: the fuel ran out. *)
Fixpoint walk_batches (fuel : nat) (rows : list eventModel) (watermark cursor : Z)
    (previous : string) (result : VerifyResult) : option VerifyResult :=
  match fuel with
  | O => None
  | S f =>
      let models := take verifyBatch (select_where (fun m => cursor <? ev_ID m) rows) in
      match models with
      | [] => Some result
      | _ =>
          match walk_rows watermark previous result models with
          | inl r => Some r
          | inr (previous', result') =>
              walk_batches f rows watermark (default cursor (ev_ID <$> last models)) previous' result'
          end
      end
  end.

Definition intact_result : VerifyResult :=
  {| Intact := true; Checked := 0; Unhashed := 0; FirstBrokenID := None;
     Reason := EmptyString; Guarantee := EmptyString |}.

(** Enough fuel for every table: one batch per row and the empty one. *)
Definition walk_fuel (rows : list eventModel) : nat := S (length rows).

Definition verify (fault : bool) (d : db) : result error VerifyResult :=
  match chainWatermark fault d with
  | Err errChainStartMissing => Ok (verdict reasonMissing 0)
  | Err e => Err e
  | Ok watermark =>
      let bounds := readChainBounds d in
      if maxID bounds <? watermark then Ok (verdict reasonMoved (total bounds - hashed bounds))
      else if (0 <? watermark) && (0 <? total bounds) && (hashed bounds =? 0)
      then Ok (verdict reasonBlanked (total bounds))
      else
        match walk_batches (walk_fuel (audit_events d)) (audit_events d) watermark 0
                (chainGenesis watermark) intact_result with
        | Some r => Ok r
        | None => Err errDriver
        end
  end.

Definition with_guarantee (r : VerifyResult) : VerifyResult :=
  {| Intact := Intact r; Checked := Checked r; Unhashed := Unhashed r;
     FirstBrokenID := FirstBrokenID r; Reason := Reason r; Guarantee := chainGuarantee |}.

Definition Verify (fault : bool) (d : db) : result error VerifyResult :=
  match verify fault d with
  | Ok r => Ok (with_guarantee r)
  | Err e => Err e
  end.

(** [List]: the newest events first; a limit out of 1..200 means 100. *)
Definition list_limit (limit : Z) : Z := if (limit <? 1) || (200 <? limit) then 100 else limit.
Definition List (limit : Z) (d : db) : list eventModel :=
  take (Z.to_nat (list_limit limit)) (reverse (audit_events d)).

(** [listHTTP]: the limit a request asks for; [None] is a 400. *)
Definition listHTTP_limit (raw : string) : option Z :=
  if bool_decide (raw = EmptyString) then Some 100
  else match atoi raw with
       | Some parsed => if (parsed <? 1) || (200 <? parsed) then None else Some parsed
       | None => None
       end.
End audit.

(** ** Recording through an interface

    [Recorder]: a store that accepts entries, with the two laws its callers rely
    on: a refused entry leaves the store as it was, an accepted one is appended to
    what the store lists. *)
Definition described : Type := option string * string * string * string * string.
Definition describe (entry : Entry) : described :=
  (ActorUserID entry, Action entry, Subject entry, RemoteAddress entry,
   marshal (JObj (default [] (Metadata entry)))).

Class Recorder (D : Type) := {
  record : bool -> Z -> Entry -> D -> result error unit * D;
  entries : D -> list described;
  record_refused fault now e d x d' : record fault now e d = (Err x, d') -> d' = d;
  record_appends fault now e d u d' :
    record fault now e d = (Ok u, d') -> entries d' = entries d ++ [describe e];
}.

(** [Sink]: [None] is a nil recorder. What it logs is the list of lost actions. *)
Section sink.
Context `{!Recorder D}.

(** [RecordSensitive]: the caller must abort on [Err]. *)
Definition RecordSensitive (configured fault : bool) (now : Z) (entry : Entry) (d : D)
    : result error unit * D * list (string * string) :=
  if negb configured then (Err (ErrUnauditable (Action entry)), d, [])
  else match record fault now entry d with
       | (Ok _, d') => (Ok tt, d', [])
       | (Err _, d') => (Err (ErrUnauditable (Action entry)), d', [(Action entry, Subject entry)])
       end.

(** [RecordBestEffort]: never fails; a lost entry is logged. *)
Definition RecordBestEffort (configured fault : bool) (now : Z) (entry : Entry) (d : D)
    : D * list (string * string) :=
  if negb configured then (d, [(Action entry, Subject entry)])
  else match record fault now entry d with
       | (Ok _, d') => (d', [])
       | (Err _, d') => (d', [(Action entry, Subject entry)])
       end.
End sink.
