(* ===== verification/AuditChain.v ===== *)
(** * The audit chain: theory

    The walk of [verify] is exactly the check that every row hangs on the
    row before it ([linked]); batching does not change it; [Record] extends a
    linked chain; two intact logs with one tail are one log, or a SHA-256
    collision is at hand. *)

From Stdlib Require Import Ascii.
From S2P Require Import Prelude GoStrings Json Sql AuditLog.

Local Open Scope Z_scope.

(** ** The chain as a specification *)
Section chain_spec.
Context (sha256hex : string -> string) (time_fmt : Z -> string).
Local Abbreviation chainHash := (chainHash sha256hex time_fmt).
Local Abbreviation walk_rows := (walk_rows sha256hex time_fmt).
Local Abbreviation walk_batches := (walk_batches sha256hex time_fmt).

Definition unhashed_row (m : eventModel) : bool := bool_decide (ev_Hash m = EmptyString).

(** Every row hangs on the row before it: what an intact walk checks. *)
Fixpoint linked (watermark : Z) (previous : string) (rows : list eventModel) : Prop :=
  match rows with
  | [] => True
  | m :: rest =>
      if unhashed_row m then ev_ID m <= watermark /\ linked watermark previous rest
      else ev_PrevHash m = previous /\ ev_Hash m = chainHash previous m /\
           linked watermark (ev_Hash m) rest
  end.

Definition final_hash (previous : string) (rows : list eventModel) : string :=
  foldl (fun p m => if unhashed_row m then p else ev_Hash m) previous rows.

Definition n_unhashed (rows : list eventModel) : Z := rows_affected unhashed_row rows.
Definition n_hashed (rows : list eventModel) : Z :=
  rows_affected (fun m => negb (unhashed_row m)) rows.

Definition add_counts (r : VerifyResult) (rows : list eventModel) : VerifyResult :=
  {| Intact := Intact r; Checked := Checked r + n_hashed rows;
     Unhashed := Unhashed r + n_unhashed rows; FirstBrokenID := FirstBrokenID r;
     Reason := Reason r; Guarantee := Guarantee r |}.

Lemma linked_app w p rows1 rows2 :
  linked w p (rows1 ++ rows2) <-> linked w p rows1 /\ linked w (final_hash p rows1) rows2.
Proof.
  revert p. induction rows1 as [|m rows1 IH]; intros p; simpl; [tauto|].
  unfold final_hash in *; simpl. destruct (unhashed_row m); rewrite IH; tauto.
Qed.

Lemma final_hash_app p rows1 rows2 :
  final_hash p (rows1 ++ rows2) = final_hash (final_hash p rows1) rows2.
Proof. apply foldl_app. Qed.

Lemma walk_rows_app w p r rows1 rows2 :
  walk_rows w p r (rows1 ++ rows2) =
  match walk_rows w p r rows1 with
  | inl r' => inl r'
  | inr (p', r') => walk_rows w p' r' rows2
  end.
Proof.
  revert p r. induction rows1 as [|m rows1 IH]; intros p r; simpl; [done|].
  destruct (walk_row _ _ _ _ _ _) as [|[p' r']]; [done|]. apply IH.
Qed.

Lemma verify_result_eta r :
  {| Intact := Intact r; Checked := Checked r; Unhashed := Unhashed r;
     FirstBrokenID := FirstBrokenID r; Reason := Reason r; Guarantee := Guarantee r |} = r.
Proof. by destruct r. Qed.

(** The walk succeeds exactly on linked rows, and counts them. *)
Lemma walk_rows_linked w p r rows p' r' :
  walk_rows w p r rows = inr (p', r') <->
  linked w p rows /\ p' = final_hash p rows /\ r' = add_counts r rows.
Proof.
  revert p r. induction rows as [|m rows IH]; intros p r; simpl.
  { unfold add_counts, n_hashed, n_unhashed, rows_affected. simpl.
    rewrite !Z.add_0_r, verify_result_eta. naive_solver. }
  unfold walk_row, final_hash, add_counts, n_hashed, n_unhashed, rows_affected in *. simpl.
  fold (unhashed_row m). destruct (unhashed_row m) eqn:Hu; simpl in *.
  - destruct (Z.ltb_spec w (ev_ID m)); simpl.
    + split; [done|]. intros [[? _] _]. lia.
    + rewrite IH. simpl.
      split; intros (? & -> & ->); split_and?; try done; try tauto; f_equal; lia.
  - case_bool_decide as Hp; simpl; [|split; [done|tauto]].
    case_bool_decide as Hh; simpl; [|split; [done|]; intros [(_ & Hh' & _) _]; by destruct Hh].
    rewrite IH. simpl.
    split; intros (? & -> & ->); split_and?; try done; try tauto; f_equal; lia.
Qed.

Lemma walk_rows_broken w p r rows r' : walk_rows w p r rows = inl r' -> Intact r' = false.
Proof.
  revert p r. induction rows as [|m rows IH]; intros p r; simpl; [done|].
  destruct (walk_row _ _ _ _ _ _) as [r0|[p0 r0]] eqn:Hrow; [|apply IH].
  intros [= <-]. unfold walk_row in Hrow.
  repeat case_match; by simplify_eq.
Qed.

(** *** Batching *)
Lemma filter_above_last rows cursor n m :
  keys_sorted ev_ID rows ->
  last (take n (select_where (fun m => cursor <? ev_ID m) rows)) = Some m ->
  select_where (fun m' => ev_ID m <? ev_ID m') rows =
    drop n (select_where (fun m => cursor <? ev_ID m) rows).
Proof.
  intros Hs Hlast. set (L := select_where (fun m => cursor <? ev_ID m) rows) in *.
  assert (Hm : cursor < ev_ID m).
  { apply last_Some_elem_of in Hlast. apply Z.ltb_lt.
    apply (elem_of_select_where (fun m => cursor <? ev_ID m) rows m).
    fold L. rewrite <-(take_drop n L). apply elem_of_app. by left. }
  assert (HsL : keys_sorted ev_ID L) by (by apply keys_sorted_filter).
  rewrite <-(select_above_above _ _ cursor) by lia. fold L.
  rewrite <-(take_drop n L) at 1. rewrite <-(take_drop n L) in HsL.
  apply StronglySorted_app in HsL as (Hlt & Hs1 & _).
  apply last_Some in Hlast as [l Hl]. rewrite Hl in Hs1, Hlt |- *.
  apply StronglySorted_app in Hs1 as (Hlt1 & _ & _).
  rewrite select_where_app, select_above_none, select_above_all; [done|..].
  - intros x Hx. apply Hlt; [|done]. rewrite elem_of_app, list_elem_of_singleton. auto.
  - intros x [Hx|Hx]%elem_of_app.
    + specialize (Hlt1 x m Hx). rewrite list_elem_of_singleton in Hlt1.
      specialize (Hlt1 eq_refl). lia.
    + apply list_elem_of_singleton in Hx as ->. lia.
Qed.

Lemma walk_batches_spec fuel rows w cursor p r :
  keys_sorted ev_ID rows ->
  (length (select_where (fun m => cursor <? ev_ID m)%Z rows) < fuel)%nat ->
  walk_batches fuel rows w cursor p r =
  Some (match walk_rows w p r (select_where (fun m => cursor <? ev_ID m) rows) with
        | inl r' => r'
        | inr (_, r') => r'
        end).
Proof.
  intros Hs. revert cursor p r. induction fuel as [|f IH]; intros cursor p r Hf; [lia|].
  cbn [AuditLog.walk_batches]. set (L := select_where (fun m => cursor <? ev_ID m) rows) in *.
  destruct (last (take verifyBatch L)) as [m|] eqn:Hlast.
  - pose proof (filter_above_last _ _ _ _ Hs Hlast) as Hnext. fold L in Hnext.
    rewrite <-(take_drop verifyBatch L) at 2. rewrite walk_rows_app.
    destruct (take verifyBatch L) as [|m0 l0] eqn:Ht; [done|]. rewrite <-Ht.
    destruct (walk_rows w p r (take verifyBatch L)) as [|[p' r']]; [done|].
    simpl. rewrite IH; rewrite Hnext; [done|].
    rewrite length_drop. assert (0 < length L)%nat by (destruct L; simpl; [done|lia]).
    unfold verifyBatch. lia.
  - apply last_None in Hlast. by destruct L as [|m0 l0].
Qed.
End chain_spec.

(** ** Logs written by the panel *)
Section log.
Context (sha256hex : string -> string) (time_fmt : Z -> string).
Local Abbreviation RecordEvent := (RecordEvent sha256hex time_fmt).
Local Abbreviation linked := (linked sha256hex time_fmt).
Local Abbreviation Verify := (Verify sha256hex time_fmt).
Local Abbreviation chainGenesis := (chainGenesis sha256hex).

(** A database right after the migration that starts the chain: its rows carry
    no hash and the watermark is the highest id. *)
Record migrated (d : db) : Prop := {
  mig_sorted : keys_sorted ev_ID (audit_events d);
  mig_ids m : m ∈ audit_events d -> 0 < ev_ID m <= autoincrement d;
  mig_unhashed m : m ∈ audit_events d -> unhashed_row m = true;
  mig_watermark : chain_state d = Some (Some (max_key ev_ID (audit_events d)));
  mig_auto : 0 <= autoincrement d;
}.

(** A call of [Record]: whether the driver fails in it, the clock, the entry. *)
Record call := mk_call { call_fault : bool; call_now : Z; call_entry : Entry }.

(** The panel writes to the log in one way only: one [Record] after the other. *)
Fixpoint record_all (calls : list call) (d : db) : list (result error unit) * db :=
  match calls with
  | [] => ([], d)
  | c :: calls =>
      let '(r, d) := RecordEvent (call_fault c) (call_now c) (call_entry c) d in
      let '(rs, d) := record_all calls d in (r :: rs, d)
  end.

(** What a call should answer, and the row it should leave behind. *)
Definition answer_of (c : call) : result error unit :=
  if bool_decide (Action (call_entry c) = EmptyString \/ Subject (call_entry c) = EmptyString) then Err errRequired
  else if call_fault c then Err errDriver else Ok tt.
Definition accepted (c : call) : bool := is_ok (answer_of c).

Definition written (c : call) : Z * described :=
  (time_truncate (call_now c) microsecond, describe (call_entry c)).
Definition stored (m : eventModel) : Z * described :=
  (ev_OccurredAt m, (ev_ActorUserID m, ev_Action m, ev_Subject m, ev_RemoteAddress m, ev_Metadata m)).

Record log_ok (pre : list eventModel) (d : db) (post : list eventModel) : Prop := {
  log_events : audit_events d = pre ++ post;
  log_watermark : chain_state d = Some (Some (max_key ev_ID pre));
  log_sorted : keys_sorted ev_ID (pre ++ post);
  log_ids m : m ∈ pre ++ post -> 0 < ev_ID m <= autoincrement d;
  log_pre m : m ∈ pre -> unhashed_row m = true;
  log_post m : m ∈ post -> unhashed_row m = false;
  log_linked : linked (max_key ev_ID pre) (chainGenesis (max_key ev_ID pre)) (pre ++ post);
  log_auto : 0 <= autoincrement d;
}.

Lemma linked_unhashed w p rows :
  (forall m, m ∈ rows -> unhashed_row m = true /\ ev_ID m <= w) -> linked w p rows.
Proof.
  induction rows as [|m rows IH]; simpl; [done|]. intros Hall.
  destruct (Hall m) as [-> Hm]; [apply elem_of_cons; auto|].
  split; [done|]. apply IH. intros m' ?. apply Hall, elem_of_cons. auto.
Qed.

Lemma final_hash_unhashed p rows :
  (forall m, m ∈ rows -> unhashed_row m = true) -> final_hash p rows = p.
Proof.
  unfold final_hash. revert p. induction rows as [|m rows IH]; simpl; [done|]. intros p Hall.
  rewrite (Hall m) by (apply elem_of_cons; auto). apply IH.
  intros m' ?. apply Hall, elem_of_cons. auto.
Qed.

Lemma migrated_log_ok d : migrated d -> log_ok (audit_events d) d [].
Proof.
  intros [Hs Hid Hu Hw Ha]. split; rewrite ?app_nil_r; try done.
  - by intros m ?%elem_of_nil.
  - apply linked_unhashed. intros m Hm. split; [auto|]. by apply max_key_ge.
Qed.

Lemma tailHash_spec pre d post :
  log_ok pre d post ->
  tailHash sha256hex d (max_key ev_ID pre) =
    Ok (final_hash (chainGenesis (max_key ev_ID pre)) (pre ++ post)).
Proof.
  intros [He Hw Hs Hid Hpre Hpost Hl Ha]. unfold tailHash. rewrite He.
  rewrite final_hash_app, (final_hash_unhashed _ pre) by done.
  destruct (decide (post = [])) as [->|Hne].
  - rewrite app_nil_r. destruct (last pre) as [m|] eqn:Hlast; [|done].
    apply last_Some_elem_of in Hlast. pose proof (Hpre m Hlast) as Hu.
    unfold unhashed_row in Hu. rewrite Hu.
    by rewrite (proj2 (Z.ltb_ge _ _)) by (by apply max_key_ge).
  - destruct (exists_last Hne) as (post' & m & ->).
    assert (Hu : unhashed_row m = false).
    { apply Hpost. rewrite elem_of_app, list_elem_of_singleton. auto. }
    rewrite app_assoc, last_snoc, final_hash_app. unfold final_hash at 1. simpl.
    rewrite Hu. unfold unhashed_row in Hu. by rewrite Hu.
Qed.

Context (sha256hex_nonempty : forall x, sha256hex x <> EmptyString).

(** The row [Record] appends. *)
Definition recorded_row (d : db) (prev : string) (now : Z) (e : Entry) : eventModel :=
  let m := chained sha256hex time_fmt prev (entry_row now e) in
  {| ev_ID := Z.max (autoincrement d) (max_key ev_ID (audit_events d)) + 1;
     ev_OccurredAt := time_truncate now microsecond; ev_ActorUserID := ev_ActorUserID m;
     ev_Action := ev_Action m; ev_Subject := ev_Subject m;
     ev_RemoteAddress := ev_RemoteAddress m; ev_Metadata := ev_Metadata m;
     ev_PrevHash := ev_PrevHash m; ev_Hash := ev_Hash m |}.

Lemma RecordEvent_answer pre d post fault now e :
  log_ok pre d post ->
  RecordEvent fault now e d =
    (answer_of (mk_call fault now e),
     if accepted (mk_call fault now e)
     then insert_event d (chained sha256hex time_fmt
            (final_hash (chainGenesis (max_key ev_ID pre)) (pre ++ post)) (entry_row now e))
     else d).
Proof.
  intros Hok. unfold accepted, answer_of, AuditLog.RecordEvent, run_tx. simpl.
  rewrite <-bool_decide_or. case_bool_decide; [done|]. destruct fault; [done|].
  unfold claim_chain, chainWatermark. rewrite (log_watermark _ _ _ Hok). simpl.
  by rewrite (tailHash_spec _ _ _ Hok).
Qed.

Lemma RecordEvent_ok pre d post fault now e :
  log_ok pre d post -> accepted (mk_call fault now e) = true ->
  exists m, log_ok pre (RecordEvent fault now e d).2 (post ++ [m]) /\ stored m = written (mk_call fault now e).
Proof.
  intros Hok Hacc. rewrite (RecordEvent_answer _ _ _ _ _ _ Hok), Hacc.
  set (p := final_hash _ _). exists (recorded_row d p now e). split; [|done].
  destruct Hok as [He Hw Hs Hid Hpre Hpost Hl Ha].
  assert (Hst : sql_time (time_truncate now microsecond) = time_truncate now microsecond)
    by (apply time_truncate_idemp; unfold microsecond; lia).
  assert (Hevents : audit_events (insert_event d (chained sha256hex time_fmt p (entry_row now e)))
    = audit_events d ++ [recorded_row d p now e]).
  { unfold insert_event, recorded_row. simpl. by rewrite Hst. }
  rewrite He, <-app_assoc in Hevents.
  assert (Hmax : forall m, m ∈ pre ++ post -> ev_ID m < ev_ID (recorded_row d p now e)).
  { intros m Hm. simpl. specialize (Hid m Hm). lia. }
  split; try done.
  - rewrite app_assoc. by apply keys_sorted_snoc.
  - intros m. rewrite app_assoc, elem_of_app, list_elem_of_singleton.
    intros [Hm| ->]; simpl; [specialize (Hid m Hm)|]; lia.
  - intros m. rewrite elem_of_app, list_elem_of_singleton. intros [Hm| ->]; [auto|].
    unfold unhashed_row. simpl. apply bool_decide_eq_false. apply sha256hex_nonempty.
  - rewrite app_assoc. apply linked_app. split; [done|]. fold p. simpl.
    unfold unhashed_row. simpl.
    rewrite bool_decide_eq_false_2 by apply sha256hex_nonempty. done.
  - simpl. lia.
Qed.

Lemma record_all_ok pre calls d post :
  log_ok pre d post ->
  (record_all calls d).1 = map answer_of calls /\
  exists new, log_ok pre (record_all calls d).2 (post ++ new) /\
    map stored new = map written (List.filter accepted calls).
Proof.
  revert d post. induction calls as [|[fault now e] calls IH]; intros d post Hok; simpl.
  { split; [done|]. exists []. by rewrite app_nil_r. }
  pose proof (RecordEvent_answer _ _ _ fault now e Hok) as Hr.
  pose proof (RecordEvent_ok _ _ _ fault now e Hok) as Hok'.
  destruct (RecordEvent fault now e d) as [r d1]. injection Hr as -> ->.
  destruct (accepted (mk_call fault now e)) eqn:Hacc.
  - destruct (Hok' eq_refl) as (m & Hm & Hst). simpl in Hm. destruct (IH _ _ Hm) as (Ha & new & Hn & Hf).
    destruct (record_all calls _) as [rs d2]. simpl in *. split; [by rewrite Ha|].
    exists (m :: new). rewrite <-app_assoc in Hn. split; [done|]. simpl. by rewrite Hst, Hf.
  - destruct (IH _ _ Hok) as (Ha & new & Hn & Hf).
    destruct (record_all calls _) as [rs d2]. simpl in *. split; [by rewrite Ha|]. by exists new.
Qed.
End log.

(** ** Verdicts *)
Section verdicts.
Context (sha256hex : string -> string) (time_fmt : Z -> string).
Local Abbreviation linked := (linked sha256hex time_fmt).
Local Abbreviation Verify := (Verify sha256hex time_fmt).
Local Abbreviation verify := (verify sha256hex time_fmt).
Local Abbreviation chainGenesis := (chainGenesis sha256hex).
Local Abbreviation walk_rows := (walk_rows sha256hex time_fmt).

(** The rows a walk visits: it starts above id 0. *)
Definition walked (d : db) : list eventModel := select_where (fun m => 0 <? ev_ID m) (audit_events d).

(** [verify] without batches: the reference definition. *)
Definition verify_unbatched (d : db) (w : Z) : VerifyResult :=
  let bounds := readChainBounds d in
  if maxID bounds <? w then verdict reasonMoved (total bounds - hashed bounds)
  else if (0 <? w) && (0 <? total bounds) && (hashed bounds =? 0)
  then verdict reasonBlanked (total bounds)
  else match walk_rows w (chainGenesis w) intact_result (walked d) with
       | inl r => r
       | inr (_, r) => r
       end.

Lemma length_select {R} (p : R -> bool) rows : (length (select_where p rows) <= length rows)%nat.
Proof. unfold select_where. induction rows; simpl; [done|]. case_match; simpl; lia. Qed.

Lemma verify_spec d w :
  keys_sorted ev_ID (audit_events d) -> chain_state d = Some (Some w) ->
  verify false d = Ok (verify_unbatched d w).
Proof.
  intros Hs Hw. unfold AuditLog.verify, chainWatermark, verify_unbatched. rewrite Hw.
  case_match; [done|]. case_match; [done|].
  rewrite walk_batches_spec; [done|done|]. unfold walk_fuel.
  pose proof (length_select (fun m => 0 <? ev_ID m) (audit_events d)). lia.
Qed.

Lemma readChainBounds_ext d d' :
  map ev_ID (audit_events d) = map ev_ID (audit_events d') ->
  map ev_Hash (audit_events d) = map ev_Hash (audit_events d') ->
  readChainBounds d' = readChainBounds d.
Proof.
  unfold readChainBounds. intros Hid Hhash. rewrite (max_key_same_keys _ _ _ Hid). f_equal.
  - apply (f_equal length) in Hid. rewrite !length_map in Hid. lia.
  - revert Hhash. unfold rows_affected. generalize (audit_events d), (audit_events d').
    induction l as [|m l IH]; intros [|m' l']; try done. simpl.
    intros [= Hm Hl]. rewrite Hm. specialize (IH l' Hl).
    destruct (bool_decide _); simpl; lia.
Qed.

Definition walked_part (rows : list eventModel) := select_where (fun m => 0 <? ev_ID m) rows.

Lemma walked_split d : walked d = walked_part (audit_events d).
Proof. done. Qed.

Lemma walked_part_split l1 m l2 :
  0 < ev_ID m -> walked_part (l1 ++ m :: l2) = walked_part l1 ++ m :: walked_part l2.
Proof.
  intros Hm. unfold walked_part. rewrite select_where_app. unfold select_where. simpl.
  by rewrite (proj2 (Z.ltb_lt _ _) Hm).
Qed.

Lemma verify_unbatched_pass d d' w :
  Intact (verify_unbatched d w) = true -> readChainBounds d' = readChainBounds d ->
  verify_unbatched d' w =
    match walk_rows w (chainGenesis w) intact_result (walked d') with
    | inl r => r
    | inr (_, r) => r
    end.
Proof.
  unfold verify_unbatched. intros Hi Hb. rewrite Hb in *.
  by repeat (case_match; [done|]).
Qed.

Lemma verify_intact_linked d w r :
  keys_sorted ev_ID (audit_events d) -> chain_state d = Some (Some w) ->
  verify false d = Ok r -> Intact r = true ->
  linked w (chainGenesis w) (walked d) /\ r = add_counts intact_result (walked d) /\
  w <= maxID (readChainBounds d).
Proof.
  intros Hs Hw. rewrite (verify_spec d w) by done. intros [= <-].
  unfold verify_unbatched. destruct (Z.ltb_spec (maxID (readChainBounds d)) w); [done|].
  case_match; [done|].
  destruct (walk_rows _ _ _ _) as [r|[p' r]] eqn:Hwalk.
  - intros Hi. exfalso. revert Hi. apply not_true_iff_false.
    eapply walk_rows_broken; done.
  - intros _. by apply walk_rows_linked in Hwalk as (? & _ & ->).
Qed.
End verdicts.

(** ** Collisions

    SHA-256 is only collision resistant, so the statements below end in an
    explicit pair of colliding inputs instead of assuming injectivity. *)
Definition collision (h : string -> string) : Prop := exists x y, x <> y /\ h x = h y.

Lemma hash_inj_or_collision h x y : h x = h y -> x = y \/ collision h.
Proof. intros Hh. destruct (decide (x = y)); [auto|]. right. by exists x, y. Qed.

Lemma digits_no_colon s : all_bytes is_digit s = true -> any_byte (Ascii.eqb ":") s = false.
Proof.
  intros Hd. apply any_byte_false. eapply all_bytes_impl; [|done].
  intros c Hc. destruct (Ascii.eqb_spec ":" c) as [<-|]; done.
Qed.

(** The length prefixes make the digest input readable in one way only. *)
Lemma digest_input_cons f r :
  digest_input (f :: r) = itoa (len f) +:+ String ":" (f +:+ digest_input r).
Proof. done. Qed.

Lemma digest_input_inj l1 l2 :
  length l1 = length l2 -> digest_input l1 = digest_input l2 -> l1 = l2.
Proof.
  revert l2. induction l1 as [|f1 l1 IH]; intros [|f2 l2]; try done.
  intros [= Hl] Heq. rewrite !digest_input_cons in Heq.
  apply (f_equal (cut ":")) in Heq.
  rewrite !cut_app in Heq by (apply digits_no_colon, itoa_digits; unfold len; lia).
  injection Heq as Hlen Hrest. apply itoa_inj in Hlen.
  apply str_app_inj_length in Hrest as [-> Hrest]; [|unfold len in Hlen; lia].
  by rewrite (IH l2).
Qed.

(** The first byte of a row's digest input is a digit, never the [n] of the
    genesis input. *)
Lemma digest_input_not_genesis w f r :
  "nexa-audit-chain-v1:" +:+ itoa w <> digest_input (f :: r).
Proof.
  rewrite digest_input_cons.
  pose proof (itoa_digits (len f) ltac:(unfold len; lia)) as Hd.
  destruct (itoa (len f)) as [|c s]; simpl; [done|].
  intros [= <- _]. done.
Qed.

Section collisions.
Context (sha256hex : string -> string) (time_fmt : Z -> string).
Local Abbreviation chainHash := (chainHash sha256hex time_fmt).
Local Abbreviation linked := (linked sha256hex time_fmt).
Local Abbreviation row_fields := (row_fields time_fmt).
Local Abbreviation chainGenesis := (chainGenesis sha256hex).

Definition hashed_rows (rows : list eventModel) : list eventModel :=
  select_where (fun m => negb (unhashed_row m)) rows.

Lemma hashed_rows_cons m rows :
  hashed_rows (m :: rows) = if unhashed_row m then hashed_rows rows else m :: hashed_rows rows.
Proof. unfold hashed_rows, select_where. simpl. by destruct (unhashed_row m). Qed.

Lemma linked_hashed w p rows : linked w p rows -> linked w p (hashed_rows rows).
Proof.
  revert p. induction rows as [|m rows IH]; intros p; [done|].
  rewrite hashed_rows_cons. simpl. destruct (unhashed_row m) eqn:Hu; [naive_solver|].
  simpl. rewrite Hu. naive_solver.
Qed.

Lemma final_hash_hashed p rows : final_hash p (hashed_rows rows) = final_hash p rows.
Proof.
  revert p. induction rows as [|m rows IH]; intros p; [done|].
  rewrite hashed_rows_cons. unfold final_hash in *. simpl.
  destruct (unhashed_row m) eqn:Hu; [done|]. simpl. by rewrite Hu.
Qed.

Lemma hashed_rows_all rows m : m ∈ hashed_rows rows -> unhashed_row m = false.
Proof. intros [_ ?%negb_true_iff]%elem_of_select_where. done. Qed.

(** A linked, fully hashed list ends in a row digest of the list before it. *)
Lemma linked_snoc w p l m :
  linked w p (l ++ [m]) -> unhashed_row m = false ->
  linked w p l /\ final_hash p (l ++ [m]) = chainHash (final_hash p l) m.
Proof.
  rewrite linked_app, final_hash_app. simpl. intros (Hl & Hm) Hu. rewrite Hu in Hm.
  unfold final_hash at 1. simpl. rewrite Hu. tauto.
Qed.

Lemma chains_equal_or_collision w l1 l2 :
  (forall m, m ∈ l1 -> unhashed_row m = false) -> (forall m, m ∈ l2 -> unhashed_row m = false) ->
  linked w (chainGenesis w) l1 -> linked w (chainGenesis w) l2 ->
  final_hash (chainGenesis w) l1 = final_hash (chainGenesis w) l2 ->
  map row_fields l1 = map row_fields l2 \/ collision sha256hex.
Proof.
  revert l2. induction l1 as [|m1 l1 IH] using rev_ind; intros l2 H1 H2 Hl1 Hl2 Hf;
    destruct l2 as [|m2 l2 _] using rev_ind; [by left|..].
  - apply linked_snoc in Hl2 as [_ Hl2]; [|apply H2, elem_of_app; right; by constructor].
    rewrite Hl2 in Hf. right. eexists _, _. split; [|exact Hf]. apply digest_input_not_genesis.
  - apply linked_snoc in Hl1 as [_ Hl1]; [|apply H1, elem_of_app; right; by constructor].
    rewrite Hl1 in Hf. right. eexists _, _. split; [|exact (eq_sym Hf)]. apply digest_input_not_genesis.
  - apply linked_snoc in Hl1 as [Hl1 He1]; [|apply H1, elem_of_app; right; by constructor].
    apply linked_snoc in Hl2 as [Hl2 He2]; [|apply H2, elem_of_app; right; by constructor].
    rewrite He1, He2 in Hf. apply hash_inj_or_collision in Hf as [Hd|]; [|by right].
    apply digest_input_inj in Hd; [|done]. injection Hd as Hp Hfields.
    destruct (IH l2) as [Heq|]; try done.
    + intros m Hm. apply H1, elem_of_app. auto.
    + intros m Hm. apply H2, elem_of_app. auto.
    + left. rewrite !map_app, Heq. simpl. unfold AuditLog.row_fields. congruence.
    + by right.
Qed.
End collisions.

(** ** Properties *)
Section properties.
Context (sha256hex : string -> string) (time_fmt : Z -> string).

Lemma log_counts pre d post :
  log_ok sha256hex time_fmt pre d post ->
  n_hashed (audit_events d) = Z.of_nat (length post) /\
  n_unhashed (audit_events d) = Z.of_nat (length pre).
Proof.
  intros [He _ _ _ Hpre Hpost _ _]. rewrite He. unfold n_hashed, n_unhashed.
  rewrite !rows_affected_app. split.
  - rewrite (proj2 (rows_affected_0 _ pre)), rows_affected_all; [lia|..].
    + intros m Hm. by rewrite Hpost.
    + intros m Hm. by rewrite Hpre.
  - rewrite (rows_affected_all _ pre), (proj2 (rows_affected_0 _ post)); [lia|..].
    + intros m Hm. by rewrite Hpost.
    + intros m Hm. by rewrite Hpre.
Qed.

Lemma log_ok_verify pre d post :
  log_ok sha256hex time_fmt pre d post -> pre = [] \/ post <> [] ->
  verify sha256hex time_fmt false d = Ok (add_counts intact_result (audit_events d)).
Proof.
  intros Hok Hne. pose proof (log_counts _ _ _ Hok) as [Hh Hu].
  destruct Hok as [He Hw Hs Hid Hpre Hpost Hl Ha].
  rewrite (verify_spec _ _ _ (max_key ev_ID pre)) by (rewrite ?He; done).
  unfold verify_unbatched.
  assert (Hall : walked d = audit_events d).
  { apply select_above_all. rewrite He. intros x Hx. by apply Hid. }
  assert (max_key ev_ID pre <= maxID (readChainBounds d)).
  { simpl. rewrite He. apply max_key_app. intros x Hx. by apply Hid. }
  rewrite (proj2 (Z.ltb_ge _ _)) by done.
  replace (hashed (readChainBounds d)) with (Z.of_nat (length post)) by done.
  destruct (Z.eqb_spec (Z.of_nat (length post)) 0) as [H0|H0].
  - destruct Hne as [->|Hne]; [|by destruct post].
    destruct post; [|done]. rewrite Hall, He. done.
  - rewrite andb_false_r, Hall.
    by rewrite (proj2 (walk_rows_linked _ _ _ _ _ _ _ _) (conj (eq_ind_r _ Hl He) (conj eq_refl eq_refl))).
Qed.

(** C31. Starting from any database on which the chain was just started, after
    any sequence of [Record] calls, on any clock and with any driver failures, each
    call answered an error exactly when its entry has no action or no subject or the
    driver failed it; the log still holds the old rows unchanged, in order, followed
    by one row per successful call, in order, with the time of the call and the actor,
    action, subject, address and metadata of its entry; and [Verify] calls it intact
    with exactly the recorded rows checked and the old rows counted as unhashed.  The
    last needs a log that was empty at the start or one successful call, since
    [Verify] calls a log without any hash broken. *)
Theorem audit_log_verifies d0 calls :
  (forall x, sha256hex x <> EmptyString) -> migrated d0 ->
  audit_events d0 = [] \/ (exists c, c ∈ calls /\ accepted c = true) ->
  let '(answers, d) := record_all sha256hex time_fmt calls d0 in
  answers = map answer_of calls /\
  exists post, audit_events d = audit_events d0 ++ post /\
    map stored post = map written (List.filter accepted calls) /\
    Verify sha256hex time_fmt false d =
      Ok {| Intact := true; Checked := Z.of_nat (length post);
            Unhashed := Z.of_nat (length (audit_events d0)); FirstBrokenID := None;
            Reason := EmptyString; Guarantee := chainGuarantee |}.
Proof.
  intros Hsha Hm Hne.
  destruct (record_all_ok sha256hex time_fmt Hsha _ calls _ _ (migrated_log_ok _ _ d0 Hm)) as (Ha & post & Hok & Hst).
  destruct (record_all _ _ calls d0) as [answers d]. simpl in *. split; [done|].
  exists post. split_and!; [apply Hok|done|]. unfold Verify.
  destruct (log_counts _ _ _ Hok) as [Hh Hu].
  rewrite (log_ok_verify _ _ _ Hok).
  - unfold with_guarantee, add_counts. simpl. by rewrite Hh, Hu.
  - destruct Hne as [|(c & Hc & Hacc)]; [by left|right; intros ->].
    destruct (List.filter accepted calls) eqn:Hf; [|done].
    assert (c ∈ List.filter accepted calls) as Hin by (by apply list_elem_of_In, filter_In; rewrite <-list_elem_of_In).
    rewrite Hf in Hin. by apply elem_of_nil in Hin.
Qed.

(** Tamper evidence: when [Verify] calls two databases intact, they record
    the same chain start and their newest hash is the same, then their hashed
    rows carry the same time, actor, action, subject, address and metadata, row
    by row, or two different inputs with one SHA-256 digest are at hand. So an
    anchored tail hash pins the whole hashed log. *)
Theorem audit_tail_pins_log d1 d2 w r1 r2 :
  keys_sorted ev_ID (audit_events d1) -> keys_sorted ev_ID (audit_events d2) ->
  chain_state d1 = Some (Some w) -> chain_state d2 = Some (Some w) ->
  verify sha256hex time_fmt false d1 = Ok r1 -> Intact r1 = true ->
  verify sha256hex time_fmt false d2 = Ok r2 -> Intact r2 = true ->
  final_hash (chainGenesis sha256hex w) (walked d1) =
    final_hash (chainGenesis sha256hex w) (walked d2) ->
  map (row_fields time_fmt) (hashed_rows (walked d1)) =
    map (row_fields time_fmt) (hashed_rows (walked d2)) \/ collision sha256hex.
Proof.
  intros Hs1 Hs2 Hw1 Hw2 Hv1 Hi1 Hv2 Hi2 Hf.
  destruct (verify_intact_linked _ _ _ _ _ Hs1 Hw1 Hv1 Hi1) as [Hl1 _].
  destruct (verify_intact_linked _ _ _ _ _ Hs2 Hw2 Hv2 Hi2) as [Hl2 _].
  rewrite <-(final_hash_hashed _ (walked d1)), <-(final_hash_hashed _ (walked d2)) in Hf.
  eapply chains_equal_or_collision; eauto using linked_hashed, hashed_rows_all.
Qed.

(** C32. Edit detection: in an intact log, change the contents of one hashed row
    (above the chain start, its hashes kept) and [Verify] reports the log
    broken at that row, or a SHA-256 collision is at hand. *)
Theorem audit_edit_detected d d' w r l1 m m' l2 :
  keys_sorted ev_ID (audit_events d) -> chain_state d = Some (Some w) ->
  verify sha256hex time_fmt false d = Ok r -> Intact r = true ->
  audit_events d = l1 ++ m :: l2 -> audit_events d' = l1 ++ m' :: l2 ->
  chain_state d' = chain_state d -> 0 < ev_ID m ->
  ev_ID m' = ev_ID m -> ev_PrevHash m' = ev_PrevHash m -> ev_Hash m' = ev_Hash m ->
  unhashed_row m = false -> row_fields time_fmt m' <> row_fields time_fmt m ->
  (exists r', verify sha256hex time_fmt false d' = Ok r' /\ Intact r' = false /\
              FirstBrokenID r' = Some (ev_ID m) /\ Reason r' = reasonContents) \/
  collision sha256hex.
Proof.
  intros Hs Hw Hv Hi He He' Hw' Hpos Hid Hprev Hhash Hu Hfields.
  destruct (verify_intact_linked _ _ _ _ _ Hs Hw Hv Hi) as (Hl & _ & Hmax).
  assert (Hkeys : map ev_ID (audit_events d) = map ev_ID (audit_events d'))
    by (rewrite He, He', !map_app; simpl; congruence).
  pose proof (keys_sorted_same_keys _ _ _ Hkeys Hs) as Hs'.
  assert (Hb : readChainBounds d' = readChainBounds d).
  { apply readChainBounds_ext; [done|]. rewrite He, He', !map_app. simpl. congruence. }
  assert (Hwd : walked d = walked_part l1 ++ m :: walked_part l2).
  { rewrite walked_split, He. by apply walked_part_split. }
  assert (Hwd' : walked d' = walked_part l1 ++ m' :: walked_part l2).
  { rewrite walked_split, He'. apply walked_part_split. by rewrite Hid. }
  rewrite Hwd, linked_app in Hl. destruct Hl as [Hl1 Hm].
  simpl in Hm. rewrite Hu in Hm. destruct Hm as (Hp & Hh & _).
  set (p := final_hash (chainGenesis sha256hex w) (walked_part l1)) in *.
  destruct (decide (chainHash sha256hex time_fmt p m' = ev_Hash m')) as [Heq|Hneq].
  { right. rewrite Hhash, Hh in Heq. apply hash_inj_or_collision in Heq as [Hd|]; [|done].
    apply digest_input_inj in Hd; [|done]. by apply (f_equal tail) in Hd. }
  left. rewrite (verify_spec _ _ _ w Hs') by congruence.
  eexists. split; [done|]. rewrite (verify_spec _ _ _ w Hs Hw) in Hv. injection Hv as <-.
  rewrite (verify_unbatched_pass _ _ d d' w Hi Hb), Hwd', walk_rows_app.
  rewrite (proj2 (walk_rows_linked _ _ _ _ _ _ _ _) (conj Hl1 (conj eq_refl eq_refl))).
  simpl. unfold walk_row. fold p.
  rewrite bool_decide_eq_false_2 by (rewrite Hhash; by apply bool_decide_eq_false in Hu).
  rewrite bool_decide_eq_true_2 by congruence. simpl. by rewrite bool_decide_eq_false_2, Hid.
Qed.

(** The 500-row batches of [Verify] change nothing: on every table it
    terminates with the verdict of one walk over all the rows above id 0. *)
Theorem audit_batches_equivalent d w :
  keys_sorted ev_ID (audit_events d) -> chain_state d = Some (Some w) ->
  Verify sha256hex time_fmt false d =
    Ok (with_guarantee (verify_unbatched sha256hex time_fmt d w)).
Proof. intros Hs Hw. unfold Verify. by rewrite (verify_spec _ _ _ w). Qed.

(** Rows with an id below 1 are never visited: hand-inserted rows there leave an
    intact verdict as it was. *)
Theorem audit_nonpositive_ids_unseen d d' w r forged :
  keys_sorted ev_ID (forged :: audit_events d) -> chain_state d = Some (Some w) ->
  audit_events d <> [] -> ev_ID forged <= 0 ->
  audit_events d' = forged :: audit_events d -> chain_state d' = chain_state d ->
  Verify sha256hex time_fmt false d = Ok r -> Intact r = true ->
  Verify sha256hex time_fmt false d' = Ok r.
Proof.
  intros Hs Hw Hne Hid He Hw' Hv Hi.
  assert (Hs0 : keys_sorted ev_ID (audit_events d)) by (by apply StronglySorted_cons in Hs as [_ Hs]).
  unfold Verify in *. rewrite (verify_spec _ _ _ w Hs0 Hw) in Hv. injection Hv as <-.
  rewrite (verify_spec _ _ d' w) by (rewrite ?He; congruence). do 2 f_equal.
  assert (Hwalk : walked d' = walked d).
  { unfold walked. rewrite He. unfold select_where. simpl.
    by rewrite (proj2 (Z.ltb_ge _ _)). }
  rewrite (verify_unbatched_pass _ _ d d w Hi eq_refl). unfold verify_unbatched in *.
  assert (Htot : 0 < Z.of_nat (length (audit_events d))) by (destruct (audit_events d); [done|simpl; lia]).
  destruct (Z.ltb_spec (maxID (readChainBounds d)) w) as [|Hm]; [by simpl in Hi|].
  destruct ((0 <? w) && _ && _) eqn:Hguard in Hi; [by simpl in Hi|]. simpl in Hm, Hguard.
  rewrite (proj2 (Z.ltb_ge _ _)).
  2:{ simpl. rewrite He, max_key_cons. destruct (audit_events d); [done|lia]. }
  destruct ((0 <? w) && (0 <? total (readChainBounds d')) && (hashed (readChainBounds d') =? 0)) eqn:Hg;
    [|by rewrite Hwalk].
  exfalso. apply not_true_iff_false in Hguard. apply Hguard. simpl in Hg. split_andb.
  rewrite !andb_true_iff, !Z.ltb_lt, Z.eqb_eq. split_and?; try done.
  apply rows_affected_0. intros m Hin. apply (proj1 (rows_affected_0 _ _) H0).
  rewrite He. apply elem_of_cons. by right.
Qed.
End properties.

(** ** The audit table is a [Recorder] *)
Definition described_row (m : eventModel) : described :=
  (ev_ActorUserID m, ev_Action m, ev_Subject m, ev_RemoteAddress m, ev_Metadata m).

#[export] Program Instance audit_recorder (sha256hex : string -> string) (time_fmt : Z -> string) :
    Recorder db := {|
  record := RecordEvent sha256hex time_fmt;
  entries d := map described_row (audit_events d);
|}.
Next Obligation.
  intros ? ? fault now e d x d' H. unfold RecordEvent in H. case_match; [by simplify_eq|].
  apply run_tx_inv in H as [(? & ? & _)|[_ ?]]; done.
Qed.
Next Obligation.
  intros ? ? fault now e d x d' H. unfold RecordEvent in H. case_match; [done|].
  apply run_tx_inv in H as [(u & _ & _ & Hb)|[[? ?] _]]; [|done].
  bind_ok. simplify_eq. simpl. by rewrite map_app.
Qed.

Section sink_properties.
Context `{!Recorder D}.

(** No audit entry is lost silently. A sensitive write either appends the entry
    or refuses the action with [ErrUnauditable] and leaves the store as it was; a
    best-effort write either appends the entry or leaves the store as it was and
    logs the lost action and subject. Both hold for every [Recorder], a nil one
    included. *)
Theorem sink_never_silent configured fault now (e : Entry) (d : D) :
  (let '(r, d', lost) := RecordSensitive configured fault now e d in
   (r = Ok tt /\ entries d' = entries d ++ [describe e] /\ lost = []) \/
   (r = Err (ErrUnauditable (Action e)) /\ d' = d)) /\
  (let '(d', lost) := RecordBestEffort configured fault now e d in
   (entries d' = entries d ++ [describe e] /\ lost = []) \/
   (d' = d /\ lost = [(Action e, Subject e)])).
Proof.
  unfold RecordSensitive, RecordBestEffort.
  destruct configured; simpl; [|by split; right].
  destruct (record fault now e d) as [[u|x] d'] eqn:Hr.
  - split; left; eauto using record_appends.
  - apply record_refused in Hr as ->. split; by right.
Qed.
End sink_properties.

(** ** A concrete log

    A printable stand-in for SHA-256 and for the time format makes the theorems
    run on a log of two entries. *)
Module Sample.
Definition sha (x : string) : string := "h" +:+ x.
Definition entry1 : Entry := mk_entry (Some "admin"%string) "auth.login" "user:admin" "10.0.0.1" None.
Definition entry2 : Entry :=
  mk_entry None "backup.run" "backup:nightly" EmptyString (Some [("ok"%string, JBool true)]).
Definition fresh : db := mk_db [] (Some (Some 0)) 0.
Definition log1 : db := snd (RecordEvent sha itoa false 1700000000123456789 entry1 fresh).
Definition log2 : db := snd (RecordEvent sha itoa false 1700000001123456789 entry2 log1).

Definition edit_subject (m : eventModel) : eventModel :=
  {| ev_ID := ev_ID m; ev_OccurredAt := ev_OccurredAt m; ev_ActorUserID := ev_ActorUserID m;
     ev_Action := ev_Action m; ev_Subject := "user:nobody"; ev_RemoteAddress := ev_RemoteAddress m;
     ev_Metadata := ev_Metadata m; ev_PrevHash := ev_PrevHash m; ev_Hash := ev_Hash m |}.
Definition row1 : eventModel := default (mk_event 0 0 None EmptyString EmptyString EmptyString EmptyString EmptyString EmptyString) (audit_events log2 !! 0%nat).
Definition rest1 : list eventModel := drop 1 (audit_events log2).
Definition forged : db := mk_db (edit_subject row1 :: rest1) (Some (Some 0)) 2.

Lemma sha_nonempty x : sha x <> EmptyString.
Proof. done. Qed.

Lemma fresh_migrated : migrated fresh.
Proof. split; try done; [constructor|..]; by intros m Hm%elem_of_nil. Qed.

Lemma log2_sorted : keys_sorted ev_ID (audit_events log2).
Proof. apply keys_sorted_keys. vm_compute. repeat constructor. Qed.

Definition calls : list call :=
  [mk_call false 1700000000123456789 entry1; mk_call true 1700000000500000000 entry1;
   mk_call false 1700000001123456789 entry2].

Lemma audit_log_verifies_witness :
  (record_all sha itoa calls fresh).1 = [Ok tt; Err errDriver; Ok tt] /\
  exists post, audit_events (record_all sha itoa calls fresh).2 = post /\
    map stored post = [(1700000000123456000, describe entry1); (1700000001123456000, describe entry2)].
Proof.
  pose proof (audit_log_verifies sha itoa fresh calls sha_nonempty fresh_migrated (or_introl eq_refl)) as H.
  destruct (record_all sha itoa calls fresh) as [answers d]. destruct H as (Ha & post & He & Hst & _).
  split; [exact Ha|]. exists post. split; [exact He|exact Hst].
Defined.

Lemma audit_tail_pins_log_witness :
  map (row_fields itoa) (hashed_rows (walked log2)) = map (row_fields itoa) (hashed_rows (walked log2)) \/
  collision sha.
Proof.
  eapply (audit_tail_pins_log sha itoa log2 log2 0 _ _ log2_sorted log2_sorted); vm_compute; reflexivity.
Defined.

Lemma audit_edit_detected_witness :
  (exists r', verify sha itoa false forged = Ok r' /\ Intact r' = false /\
     FirstBrokenID r' = Some 1 /\ Reason r' = reasonContents) \/ collision sha.
Proof.
  apply (audit_edit_detected sha itoa log2 forged 0 (add_counts intact_result (audit_events log2))
           [] row1 (edit_subject row1) rest1 log2_sorted); try (vm_compute; reflexivity).
  vm_compute. discriminate.
Defined.

Lemma audit_batches_equivalent_witness :
  Verify sha itoa false forged = Ok (with_guarantee (verify_unbatched sha itoa forged 0)).
Proof.
  apply (audit_batches_equivalent sha itoa forged 0); [|reflexivity].
  apply keys_sorted_keys. vm_compute. repeat constructor.
Defined.

Definition planted_row : eventModel :=
  mk_event 0 0 None "auth.login" "user:x" EmptyString EmptyString EmptyString EmptyString.
Definition planted : db := mk_db (planted_row :: audit_events log2) (Some (Some 0)) 2.

Lemma audit_nonpositive_ids_unseen_witness :
  Verify sha itoa false planted =
    Ok (with_guarantee (add_counts intact_result (audit_events log2))).
Proof.
  apply (audit_nonpositive_ids_unseen sha itoa log2 planted 0 _ planted_row); try (vm_compute; done).
  apply keys_sorted_keys. vm_compute. repeat constructor.
Defined.
End Sample.
