(* ===== verification/Jobs.v ===== *)
(** * The durable job queue

    [internal/platform/jobs]: the tables [jobs] and [job_events], submissions
    ([repository.go]), handler registration and configuration ([jobs.go]), the
    worker's operations ([worker.go]), site-scoped reads ([access.go]) and the
    redaction of responses ([redact.go]).  The clock reading and the driver's
    faults of each operation are arguments.  A handler is the tree of its calls of
    [report] and its outcome ([prog]). *)

From Stdlib Require Import Ascii.
From S2P Require Import Prelude GoStrings Json Sql AuditLog.

Local Open Scope Z_scope.

(** ** Data *)

Inductive state := StateQueued | StateRunning | StateSucceeded | StateFailed.

#[export] Instance state_eq_dec : EqDecision state.
Proof. solve_decision. Defined.

Definition RecoveryPolicy : Type := string.
Definition RecoveryFail : RecoveryPolicy := "fail".
Definition RecoveryRetry : RecoveryPolicy := "retry".
Definition valid (p : RecoveryPolicy) : bool :=
  bool_decide (p = RecoveryFail) || bool_decide (p = RecoveryRetry).

Definition Terminal (s : state) : bool :=
  bool_decide (s = StateSucceeded) || bool_decide (s = StateFailed).

Record jobModel := mk_job {
  ID : Z;
  Kind : string;
  Title : string;
  State : state;
  Progress : Z;
  JobActor : option string;
  RequestJSON : string;
  ResultJSON : option string;
  Failure : option string;
  CreatedAt : Z;
  UpdatedAt : Z;
  StartedAt : option Z;
  CompletedAt : option Z;
  Recovery : RecoveryPolicy;
  IdempotencyKey : option string;
  ScopeSiteIDs : string;
  Attempt : Z;
  LeaseOwner : option string;
  LeaseToken : option string;
  LeaseExpiresAt : option Z;
}.

Record eventModel := mk_job_event {
  Sequence : Z;
  JobID : Z;
  EvState : state;
  EvProgress : Z;
  Message : string;
  OccurredAt : Z;
}.

(** The two tables and SQLite's sequence counters. *)
Record db := mk_jobs_db {
  jobs : list jobModel;
  job_events : list eventModel;
  jobs_seq : Z;
  events_seq : Z;
}.

(** What the API returns of a job. *)
Record Job := mk_api_job {
  J_ID : Z; J_Kind : string; J_Title : string; J_State : state; J_Progress : Z;
  J_Actor : option string; J_SiteIDs : list string; J_Attempt : Z; J_Request : string;
  J_Result : string; J_Failure : string; J_CreatedAt : Z; J_UpdatedAt : Z;
  J_StartedAt : option Z; J_CompletedAt : option Z;
}.

Inductive error :=
| errDriver
| ErrNoRows
| ErrLeaseLost
| ErrIdempotencyConflict
| errKindRequired
| errHandlerRequired
| errPolicy
| errRegistered (kind : string)
| errUnsupported (kind : string)
| errEncode
| errTooManySites
| errSiteID
| errKey
| errProgress
| errProgressMessage
| errDatabaseRequired
| errPollInterval
| errLeaseDuration
| errNilPointer          (* a nil dereference: the Go process panics *)
| errPolicyUnavailable
| errSiteAccess.

#[export] Instance job_error_eq_dec : EqDecision error.
Proof. solve_decision. Defined.

(** ** Configuration *)
Record Config := mk_config {
  PollInterval : Z;
  LeaseDuration : Z;
  RetentionPeriod : Z;
  PruneInterval : Z;
}.

Definition defaultRetentionPeriod : Z := 7 * 24 * hour.
Definition defaultPruneInterval : Z := hour.

(** The checks and defaults of [NewWithConfig]. *)
Definition NewWithConfig (configured : bool) (config : Config) : result error Config :=
  _ ← guard_err configured errDatabaseRequired;
  _ ← guard_err (negb (PollInterval config <=? 0)) errPollInterval;
  let lease := if LeaseDuration config =? 0 then 30 * second else LeaseDuration config in
  _ ← guard_err (negb (lease <=? 0)) errLeaseDuration;
  Ok {| PollInterval := PollInterval config;
        LeaseDuration := lease;
        RetentionPeriod :=
          if RetentionPeriod config =? 0 then defaultRetentionPeriod else RetentionPeriod config;
        PruneInterval :=
          if PruneInterval config <=? 0 then defaultPruneInterval else PruneInterval config |}.

(** ** Handlers *)

(** How a handler ends: with a result that encodes to [encoded] or does not encode,
    with an error ([Canceled]: one that wraps [context.Canceled]), or with a panic. *)
Inductive outcome :=
| Returned (encoded : string)
| Unencodable (message : string)
| Failed (message : string)
| Canceled (message : string)
| Panicked (value : string).

(** A handler's calls of [report], each with what it does on the reply. *)
Inductive prog :=
| Done (out : outcome)
| Report (next : Z) (message : string) (reply : option error -> prog).

Definition Handler : Type := string -> prog.

Record handlerRegistration := mk_registration {
  handler : Handler;
  recoveryPolicy : RecoveryPolicy;
}.

Definition registry : Type := gmap string handlerRegistration.

Definition RegisterHandlerWithOptions (kind : string) (h : option Handler)
    (policy : RecoveryPolicy) (handlers : registry) : result error registry :=
  if bool_decide (trim_space kind = EmptyString) then Err errHandlerRequired
  else match h with
  | None => Err errHandlerRequired
  | Some h =>
      if negb (valid policy) then Err errPolicy
      else match handlers !! kind with
           | Some _ => Err (errRegistered kind)
           | None => Ok (<[kind := mk_registration h policy]> handlers)
           end
  end.

Definition RegisterHandler (kind : string) (h : option Handler) (handlers : registry)
    : result error registry :=
  RegisterHandlerWithOptions kind h RecoveryFail handlers.

(** ** Inserting rows *)

(** The unique index on [(kind, idempotency_key)]. *)
Definition same_key (kind : string) (key : string) (r : jobModel) : bool :=
  bool_decide (Kind r = kind) && bool_decide (IdempotencyKey r = Some key).

Definition insert_job (d : db) (m : jobModel) : result error (Z * db) :=
  let id := Z.max (jobs_seq d) (max_key ID (jobs d)) + 1 in
  if match IdempotencyKey m with
     | Some key => select_exists (same_key (Kind m) key) (jobs d)
     | None => false
     end
  then Err errDriver
  else Ok (id,
    {| jobs := jobs d ++
         [{| ID := id; Kind := Kind m; Title := Title m; State := State m; Progress := Progress m;
             JobActor := JobActor m; RequestJSON := RequestJSON m; ResultJSON := ResultJSON m;
             Failure := Failure m; CreatedAt := sql_time (CreatedAt m);
             UpdatedAt := sql_time (UpdatedAt m); StartedAt := sql_time <$> StartedAt m;
             CompletedAt := sql_time <$> CompletedAt m; Recovery := Recovery m;
             IdempotencyKey := IdempotencyKey m; ScopeSiteIDs := ScopeSiteIDs m;
             Attempt := Attempt m; LeaseOwner := LeaseOwner m; LeaseToken := LeaseToken m;
             LeaseExpiresAt := sql_time <$> LeaseExpiresAt m |}];
       job_events := job_events d; jobs_seq := id; events_seq := events_seq d |}).

Definition insert_event (d : db) (id : Z) (s : state) (progress : Z) (message : string) (now : Z) : db :=
  let seq := Z.max (events_seq d) (max_key Sequence (job_events d)) + 1 in
  {| jobs := jobs d;
     job_events := job_events d ++
       [{| Sequence := seq; JobID := id; EvState := s; EvProgress := progress;
           Message := message; OccurredAt := sql_time now |}];
     jobs_seq := jobs_seq d; events_seq := seq |}.

Definition with_jobs (d : db) (rows : list jobModel) : db :=
  {| jobs := rows; job_events := job_events d; jobs_seq := jobs_seq d; events_seq := events_seq d |}.

(** ** Submissions *)

Record SubmitOptions := mk_submit {
  Actor : option string;
  SiteIDs : list string;
  SubmitKey : string;
}.

Definition sameActor (left right : option string) : bool :=
  match left, right with
  | None, None => true
  | Some l, Some r => bool_decide (l = r)
  | _, _ => false
  end.

Definition normalizeIdempotencyKey (raw : string) : result error (option string) :=
  let key := trim_space raw in
  if bool_decide (key = EmptyString) then Ok None
  else if (200 <? len key) || has_control key then Err errKey
  else Ok (Some key).

Fixpoint checked_sites (values : list string) : result error (list string) :=
  match values with
  | [] => Ok []
  | raw :: rest =>
      let value := trim_space raw in
      if bool_decide (value = EmptyString) || (128 <? len value) || has_control value
      then Err errSiteID
      else rest' ← checked_sites rest; Ok (value :: rest')
  end.

Definition normalizeSiteIDs (values : list string) : result error (list string) :=
  if (200 <? Z.of_nat (length values)) then Err errTooManySites
  else unique ← checked_sites values; Ok (sort_strings (remove_dups unique)).

(** What happens to the transaction of a submission: it runs, or the driver fails
    it (a concurrent submitter won, the disk is full, ...).  In the second case
    [after] is the database the recovery lookup reads and [lookup] is [false] when
    that lookup fails too. *)
Inductive tx_fate := TxRuns | TxFails (after : db) (lookup : bool).

Definition queued_model (kind title encoded encodedSiteIDs : string) (key : option string)
    (actor : option string) (policy : RecoveryPolicy) (now : Z) : jobModel :=
  {| ID := 0; Kind := kind; Title := trim_space title; State := StateQueued; Progress := 0;
     JobActor := actor; RequestJSON := encoded; ResultJSON := None; Failure := None;
     CreatedAt := now; UpdatedAt := now; StartedAt := None; CompletedAt := None;
     Recovery := policy; IdempotencyKey := key; ScopeSiteIDs := encodedSiteIDs;
     Attempt := 0; LeaseOwner := None; LeaseToken := None; LeaseExpiresAt := None |}.

Definition with_id (id : Z) (m : jobModel) : jobModel :=
  {| ID := id; Kind := Kind m; Title := Title m; State := State m; Progress := Progress m;
     JobActor := JobActor m; RequestJSON := RequestJSON m; ResultJSON := ResultJSON m;
     Failure := Failure m; CreatedAt := CreatedAt m; UpdatedAt := UpdatedAt m;
     StartedAt := StartedAt m; CompletedAt := CompletedAt m; Recovery := Recovery m;
     IdempotencyKey := IdempotencyKey m; ScopeSiteIDs := ScopeSiteIDs m; Attempt := Attempt m;
     LeaseOwner := LeaseOwner m; LeaseToken := LeaseToken m; LeaseExpiresAt := LeaseExpiresAt m |}.

(** Whether a row is the row this submission would have made. *)
Definition same_request (model existing : jobModel) : bool :=
  bool_decide (RequestJSON existing = RequestJSON model) &&
  bool_decide (ScopeSiteIDs existing = ScopeSiteIDs model) &&
  sameActor (JobActor existing) (JobActor model).

(** The submission transaction: the model to return, whether it was created. *)
Definition submit_tx (now : Z) (model : jobModel) (d : db) : result error (jobModel * bool * db) :=
  let create :=
    '(id, d') ← insert_job d model;
    Ok (with_id id model, true, insert_event d' id StateQueued 0 "Job queued." now) in
  match IdempotencyKey model with
  | None => create
  | Some key =>
      match select_first (same_key (Kind model) key) (jobs d) with
      | Some existing =>
          if same_request model existing then Ok (existing, false, d)
          else Err ErrIdempotencyConflict
      | None => create
      end
  end.

(** The second look at the table when the transaction returned [e]. *)
Definition resolve_race (model : jobModel) (e : error) (lookup : bool) (d : db)
    : result error (jobModel * bool) :=
  match IdempotencyKey model with
  | None => Err e
  | Some key =>
      match (if lookup then select_first (same_key (Kind model) key) (jobs d) else None) with
      | Some existing =>
          if same_request model existing then Ok (existing, false)
          else Err ErrIdempotencyConflict
      | None => Err e
      end
  end.

Definition persistSubmission (fate : tx_fate) (now : Z) (kind title : string)
    (request : option json) (options : SubmitOptions) (policy : RecoveryPolicy) (d : db)
    : result error (jobModel * bool) * db :=
  let kind := trim_space kind in
  if bool_decide (kind = EmptyString) then (Err errKindRequired, d)
  else if negb (valid policy) then (Err errPolicy, d)
  else match request with
  | None => (Err errEncode, d)
  | Some request =>
      match normalizeSiteIDs (SiteIDs options) with
      | Err e => (Err e, d)
      | Ok siteIDs =>
          match normalizeIdempotencyKey (SubmitKey options) with
          | Err e => (Err e, d)
          | Ok key =>
              let model := queued_model kind title (marshal request) (marshal_strings siteIDs)
                             key (Actor options) policy now in
              match fate with
              | TxFails after lookup => (resolve_race model errDriver lookup after, after)
              | TxRuns =>
                  match submit_tx now model d with
                  | Ok (m, created, d') => (Ok (m, created), d')
                  | Err e => (resolve_race model e true d, d)
                  end
              end
          end
      end
  end.

(** ** Audit entries of the queue *)
Definition job_subject (id : Z) : string := "job:" +:+ itoa id.

Definition submitted_entry (actor : option string) (id : Z) (kind : string) : Entry :=
  {| ActorUserID := actor; Action := "job.submitted"; Subject := job_subject id;
     RemoteAddress := EmptyString; Metadata := Some [("kind"%string, JStr kind)] |}.
Definition succeeded_entry (model : jobModel) : Entry :=
  {| ActorUserID := JobActor model; Action := "job.succeeded"; Subject := job_subject (ID model);
     RemoteAddress := EmptyString; Metadata := Some [("kind"%string, JStr (Kind model))] |}.
Definition failed_entry (model : jobModel) (message : string) : Entry :=
  {| ActorUserID := JobActor model; Action := "job.failed"; Subject := job_subject (ID model);
     RemoteAddress := EmptyString;
     Metadata := Some [("kind"%string, JStr (Kind model)); ("failure"%string, JStr message)] |}.

(** ** What a caller sees *)
Section api.
(** [json.Unmarshal] of a JSON array of strings; a failure leaves what it decoded. *)
Context (unmarshal_strings : string -> list string).

Definition toJob (model : jobModel) : Job :=
  {| J_ID := ID model; J_Kind := Kind model; J_Title := Title model; J_State := State model;
     J_Progress := Progress model; J_Actor := JobActor model;
     J_SiteIDs := unmarshal_strings (ScopeSiteIDs model); J_Attempt := Attempt model;
     J_Request := RequestJSON model; J_Result := default EmptyString (ResultJSON model);
     J_Failure := default EmptyString (Failure model); J_CreatedAt := CreatedAt model;
     J_UpdatedAt := UpdatedAt model; J_StartedAt := StartedAt model;
     J_CompletedAt := CompletedAt model |}.

(** The entries returned are those [recordAudit] writes, best-effort. *)
Definition SubmitTitledWithOptions (handlers : registry) (fate : tx_fate) (now : Z)
    (kind title : string) (request : option json) (options : SubmitOptions) (d : db)
    : result error Job * db * list Entry :=
  match handlers !! kind with
  | None => (Err (errUnsupported kind), d, [])
  | Some registration =>
      match persistSubmission fate now kind title request options
              (recoveryPolicy registration) d with
      | (Err e, d') => (Err e, d', [])
      | (Ok (model, created), d') =>
          let job := toJob model in
          (Ok job, d',
           if created then [submitted_entry (Actor options) (J_ID job) kind] else [])
      end
  end.

Definition EnqueueTitled (fate : tx_fate) (now : Z) (kind title : string) (request : option json)
    (options : SubmitOptions) (policy : RecoveryPolicy) (d : db) : result error Job * db :=
  if negb (valid policy) then (Err errPolicy, d)
  else match persistSubmission fate now kind title request options policy d with
       | (Ok (model, _), d') => (Ok (toJob model), d')
       | (Err e, d') => (Err e, d')
       end.

Definition Get (id : Z) (d : db) : result error Job :=
  match select_first (fun r => ID r =? id) (jobs d) with
  | Some model => Ok (toJob model)
  | None => Err ErrNoRows
  end.

Definition jobs_limit (limit : Z) : Z := if (limit <? 1) || (200 <? limit) then 50 else limit.

Definition List (limit : Z) (d : db) : list Job :=
  map toJob (take (Z.to_nat (jobs_limit limit)) (reverse (jobs d))).

Definition EventsAfter (jobID sequence : Z) (d : db) : list eventModel :=
  select_where (fun e => (JobID e =? jobID) && (sequence <? Sequence e)) (job_events d).
End api.

(** ** The worker's operations *)
Section worker.
Context (config : Config) (handlers : registry).

Definition lease_until (now : Z) : Z := sql_time (now + LeaseDuration config).

(** The row an operation owns: running under the given lease token. *)
Definition owned (id : Z) (token : string) (r : jobModel) : bool :=
  (ID r =? id) && bool_decide (State r = StateRunning) && bool_decide (LeaseToken r = Some token).

Definition set_claimed (now : Z) (owner token : string) (r : jobModel) : jobModel :=
  {| ID := ID r; Kind := Kind r; Title := Title r; State := StateRunning; Progress := Progress r;
     JobActor := JobActor r; RequestJSON := RequestJSON r; ResultJSON := ResultJSON r;
     Failure := Failure r; CreatedAt := CreatedAt r; UpdatedAt := sql_time now;
     StartedAt := Some (sql_time now); CompletedAt := CompletedAt r; Recovery := Recovery r;
     IdempotencyKey := IdempotencyKey r; ScopeSiteIDs := ScopeSiteIDs r;
     Attempt := Attempt r + 1; LeaseOwner := Some owner; LeaseToken := Some token;
     LeaseExpiresAt := Some (lease_until now) |}.

Definition set_progress (now next : Z) (r : jobModel) : jobModel :=
  {| ID := ID r; Kind := Kind r; Title := Title r; State := State r; Progress := next;
     JobActor := JobActor r; RequestJSON := RequestJSON r; ResultJSON := ResultJSON r;
     Failure := Failure r; CreatedAt := CreatedAt r; UpdatedAt := sql_time now;
     StartedAt := StartedAt r; CompletedAt := CompletedAt r; Recovery := Recovery r;
     IdempotencyKey := IdempotencyKey r; ScopeSiteIDs := ScopeSiteIDs r; Attempt := Attempt r;
     LeaseOwner := LeaseOwner r; LeaseToken := LeaseToken r;
     LeaseExpiresAt := Some (lease_until now) |}.

(** [state = ?, ..., completed_at = ?] with the lease columns set to NULL. *)
Definition set_finished (s : state) (progress : Z) (result failure : option string) (now : Z)
    (r : jobModel) : jobModel :=
  {| ID := ID r; Kind := Kind r; Title := Title r; State := s; Progress := progress;
     JobActor := JobActor r; RequestJSON := RequestJSON r; ResultJSON := result;
     Failure := failure; CreatedAt := CreatedAt r; UpdatedAt := sql_time now;
     StartedAt := StartedAt r; CompletedAt := Some (sql_time now); Recovery := Recovery r;
     IdempotencyKey := IdempotencyKey r; ScopeSiteIDs := ScopeSiteIDs r; Attempt := Attempt r;
     LeaseOwner := None; LeaseToken := None; LeaseExpiresAt := None |}.

Definition set_succeeded (resultJSON : string) (now : Z) (r : jobModel) : jobModel :=
  set_finished StateSucceeded 100 (Some resultJSON) (Failure r) now r.
Definition set_failed (message : string) (now : Z) (r : jobModel) : jobModel :=
  set_finished StateFailed (Progress r) (ResultJSON r) (Some message) now r.

Definition set_requeued (now : Z) (r : jobModel) : jobModel :=
  {| ID := ID r; Kind := Kind r; Title := Title r; State := StateQueued; Progress := 0;
     JobActor := JobActor r; RequestJSON := RequestJSON r; ResultJSON := ResultJSON r;
     Failure := Failure r; CreatedAt := CreatedAt r; UpdatedAt := sql_time now;
     StartedAt := None; CompletedAt := CompletedAt r; Recovery := Recovery r;
     IdempotencyKey := IdempotencyKey r; ScopeSiteIDs := ScopeSiteIDs r; Attempt := Attempt r;
     LeaseOwner := None; LeaseToken := None; LeaseExpiresAt := None |}.

Definition set_heartbeat (now : Z) (r : jobModel) : jobModel := set_progress now (Progress r) r.

(** The in-memory model [claim] returns. *)
Definition claimed_model (now : Z) (owner token : string) (r : jobModel) : jobModel :=
  {| ID := ID r; Kind := Kind r; Title := Title r; State := StateRunning; Progress := Progress r;
     JobActor := JobActor r; RequestJSON := RequestJSON r; ResultJSON := ResultJSON r;
     Failure := Failure r; CreatedAt := CreatedAt r; UpdatedAt := now; StartedAt := Some now;
     CompletedAt := CompletedAt r; Recovery := Recovery r; IdempotencyKey := IdempotencyKey r;
     ScopeSiteIDs := ScopeSiteIDs r; Attempt := Attempt r + 1; LeaseOwner := Some owner;
     LeaseToken := Some token; LeaseExpiresAt := Some (now + LeaseDuration config) |}.

Definition claim (fault : bool) (now : Z) (workerID leaseToken : string) (d : db)
    : result error jobModel * db :=
  run_tx fault errDriver d (fun d =>
    match select_first (fun r => bool_decide (State r = StateQueued)) (jobs d) with
    | None => Err ErrNoRows
    | Some row =>
        let p r := (ID r =? ID row) && bool_decide (State r = StateQueued) in
        if negb (rows_affected p (jobs d) =? 1) then Err ErrNoRows
        else Ok (claimed_model now workerID leaseToken row,
                 insert_event (with_jobs d (update_where p (set_claimed now workerID leaseToken) (jobs d)))
                   (ID row) StateRunning (Progress row) "Job started." now)
    end).

(** The fenced update all the writes of a running job share: the row must still be
    running under [token]; then it changes by [f] and an event is appended. *)
Definition fenced (fault : bool) (id : Z) (token : string) (f : jobModel -> jobModel)
    (s : state) (progress : Z) (message : string) (now : Z) (d : db) : result error unit * db :=
  run_tx fault errDriver d (fun d =>
    if negb (rows_affected (owned id token) (jobs d) =? 1) then Err ErrLeaseLost
    else Ok (tt, insert_event (with_jobs d (update_where (owned id token) f (jobs d)))
                   id s progress message now)).

Definition updateProgress (fault : bool) (now jobID : Z) (leaseToken : string) (progress : Z)
    (message : string) (d : db) : result error unit * db :=
  fenced fault jobID leaseToken (set_progress now progress) StateRunning progress message now d.

Definition with_token {A} (model : jobModel) (nil : A) (k : string -> A) : A :=
  match LeaseToken model with Some token => k token | None => nil end.

Definition finishSucceeded (fault : bool) (now : Z) (model : jobModel) (resultJSON : string) (d : db)
    : result error unit * db * list Entry :=
  with_token model (Err errNilPointer, d, []) (fun token =>
    match fenced fault (ID model) token (set_succeeded resultJSON now)
            StateSucceeded 100 "Job completed." now d with
    | (Ok _, d') => (Ok tt, d', [succeeded_entry model])
    | (Err e, d') => (Err e, d', [])
    end).

(** [message[:500]] *)
Definition failure_message (failure : string) : string :=
  if 500 <? len failure then take_bytes 500 failure else failure.

Definition finishFailed (fault : bool) (now : Z) (model : jobModel) (failure : string) (d : db)
    : db * list Entry :=
  let message := failure_message failure in
  with_token model (d, []) (fun token =>
    match fenced fault (ID model) token (set_failed message now)
            StateFailed (Progress model) "Job failed." now d with
    | (Ok _, d') => (d', [failed_entry model message])
    | (Err _, d') => (d', [])
    end).

(** One tick of the heartbeat; [Err]: the lease is given up. *)
Definition heartbeatLease (fault : bool) (now jobID : Z) (leaseToken : string) (d : db)
    : result error unit * db :=
  if fault then (Err errDriver, d)
  else
    let d' := with_jobs d (update_where (owned jobID leaseToken) (set_heartbeat now) (jobs d)) in
    if rows_affected (owned jobID leaseToken) (jobs d) =? 1 then (Ok tt, d') else (Err ErrLeaseLost, d').

Definition with_progress (next : Z) (m : jobModel) : jobModel :=
  {| ID := ID m; Kind := Kind m; Title := Title m; State := State m; Progress := next;
     JobActor := JobActor m; RequestJSON := RequestJSON m; ResultJSON := ResultJSON m;
     Failure := Failure m; CreatedAt := CreatedAt m; UpdatedAt := UpdatedAt m;
     StartedAt := StartedAt m; CompletedAt := CompletedAt m; Recovery := Recovery m;
     IdempotencyKey := IdempotencyKey m; ScopeSiteIDs := ScopeSiteIDs m; Attempt := Attempt m;
     LeaseOwner := LeaseOwner m; LeaseToken := LeaseToken m; LeaseExpiresAt := LeaseExpiresAt m |}.

(** The closure [report] of [execute]; its variable [progress] always equals
    [model.Progress].  [fault] is also the fate of a report made after the
    execution context was cancelled. *)
Definition report (fault : bool) (now : Z) (model : jobModel) (next : Z) (message : string) (d : db)
    : option error * jobModel * db :=
  if (next <? Progress model) || (next <? 0) || (99 <? next) then (Some errProgress, model, d)
  else if bool_decide (message = EmptyString) then (Some errProgressMessage, model, d)
  else with_token model (Some errNilPointer, model, d) (fun token =>
    match updateProgress fault now (ID model) token next message d with
    | (Err e, d') => (Some e, model, d')
    | (Ok _, d') => (None, with_progress next model, d')
    end).

(** [invokeHandler] and the end of [execute]: what is written for an outcome.
    [shutdown]: the worker's context was cancelled; [lost]: the heartbeat gave up
    the lease. *)
Definition panic_message (value : string) : string := "job handler panicked: " +:+ value.

Definition complete (fault shutdown lost : bool) (now : Z) (model : jobModel) (out : outcome) (d : db)
    : db * list Entry :=
  if lost then (d, [])
  else match out with
  | Canceled message => if shutdown then (d, []) else finishFailed fault now model message d
  | Failed message => finishFailed fault now model message d
  | Panicked value => finishFailed fault now model (panic_message value) d
  | Unencodable message => finishFailed fault now model ("encode job result: " +:+ message) d
  | Returned encoded =>
      let '(_, d', entries) := finishSucceeded fault now model encoded d in (d', entries)
  end.

Definition unavailable : string := "registered job handler is unavailable".

(** The handler [execute] runs for a claimed job; [None]: it fails the job at once. *)
Definition handler_prog (model : jobModel) : option prog :=
  registration ← handlers !! Kind model; Some (handler registration (RequestJSON model)).

(** What befalls an execution: the clock and the driver at its [n]-th database
    operation, whether the worker is being shut down when it ends, and whether the
    heartbeat lost the lease meanwhile ([heartbeatLease] beside the other operations:
    [JobSystem]). *)
Record run := mk_run {
  clock : nat -> Z;
  fails : nat -> bool;
  shutdown : bool;
  lost : bool;
}.

Fixpoint run_prog (e : run) (n : nat) (p : prog) (model : jobModel) (d : db) : db * list Entry :=
  match p with
  | Done out => complete (fails e n) (shutdown e) (lost e) (clock e n) model out d
  | Report next message reply =>
      let '(err, model', d') := report (fails e n) (clock e n) model next message d in
      run_prog e (S n) (reply err) model' d'
  end.

Definition execute (e : run) (n : nat) (model : jobModel) (d : db) : db * list Entry :=
  match handler_prog model with
  | None => finishFailed (fails e n) (clock e n) model unavailable d
  | Some p => with_token model (d, []) (fun _ => run_prog e n p model d)
  end.

(** ** Recovery and retention *)

Definition expired (now : Z) (r : jobModel) : bool :=
  bool_decide (State r = StateRunning) &&
  match LeaseExpiresAt r with None => true | Some t => t <=? sql_time now end.

Definition recovery_failure : string :=
  "Job interrupted after its worker lease expired; reconcile the target before retrying.".

(** The transaction for one interrupted job; [job] was read before. *)
Definition recover_job (fault : bool) (now : Z) (job : jobModel) (d : db) : result error unit * db :=
  let p r := (ID r =? ID job) && expired now r in
  run_tx fault errDriver d (fun d =>
    if negb (rows_affected p (jobs d) =? 1) then Ok (tt, with_jobs d
      (update_where p (if bool_decide (Recovery job = RecoveryRetry) then set_requeued now
                       else set_failed recovery_failure now) (jobs d)))
    else if bool_decide (Recovery job = RecoveryRetry) then
      Ok (tt, insert_event (with_jobs d (update_where p (set_requeued now) (jobs d)))
                (ID job) StateQueued 0 "Job lease expired; retrying idempotent work." now)
    else
      Ok (tt, insert_event (with_jobs d (update_where p (set_failed recovery_failure now) (jobs d)))
                (ID job) StateFailed (Progress job) "Job failed after its worker lease expired." now)).

(** [faults n]: the driver fails the [n]-th operation. *)
Fixpoint recover_jobs (faults : nat -> bool) (n : nat) (now : Z) (interrupted : list jobModel) (d : db)
    : result error unit * db :=
  match interrupted with
  | [] => (Ok tt, d)
  | job :: rest =>
      match recover_job (faults n) now job d with
      | (Ok _, d') => recover_jobs faults (S n) now rest d'
      | (Err e, d') => (Err e, d')
      end
  end.

Definition recoverExpired (faults : nat -> bool) (now : Z) (d : db) : result error unit * db :=
  if faults 0%nat then (Err errDriver, d)
  else recover_jobs faults 1 now (select_where (expired now) (jobs d)) d.

(** The rows [pruneRetired] selects. *)
Definition retired (now : Z) (r : jobModel) : bool :=
  Terminal (State r) &&
  match CompletedAt r with
  | Some t => t <? sql_time (now - RetentionPeriod config)
  | None => false
  end.

Definition pruneRetired (fault : bool) (now : Z) (d : db) : db :=
  if (RetentionPeriod config <=? 0) || fault then d
  else
    let doomed := map ID (select_where (retired now) (jobs d)) in
    {| jobs := delete_where (retired now) (jobs d);
       job_events := delete_where (fun e => bool_decide (JobID e ∈ doomed)) (job_events d);
       jobs_seq := jobs_seq d; events_seq := events_seq d |}.

(** ** The worker's loop *)

(** What befalls one pass: the clock and the driver during recovery and at the [n]-th
    claim, the lease token drawn for it, its execution, and whether the worker's
    context is cancelled when an error of recovery or of the [n]-th claim is looked at. *)
Record pass := mk_pass {
  recover_at : Z;
  recover_fails : nat -> bool;
  claim_at : nat -> Z;
  claim_fails : nat -> bool;
  token : nat -> string;
  runs : nat -> run;
  recovery_cancelled : bool;
  claim_cancelled : nat -> bool;
}.

(** The inner loop: claim and execute until no job is queued or a claim fails.  The
    Boolean says whether the worker returns.  [None]: the fuel ran out. *)
Fixpoint drain (fuel : nat) (workerID : string) (c : pass) (n : nat) (d : db) : option (db * bool) :=
  match fuel with
  | O => None
  | S f =>
      match claim (claim_fails c n) (claim_at c n) workerID (token c n) d with
      | (Ok job, d') => drain f workerID c (S n) (execute (runs c n) 0 job d').1
      | (Err ErrNoRows, d') => Some (d', false)
      | (Err _, d') => Some (d', claim_cancelled c n)
      end
  end.

(** What the worker's [select] receives: the cancellation, a notification or a tick
    of the poll ticker, a tick of the prune ticker. *)
Inductive signal := SignalDone | SignalWork (c : pass) | SignalPrune (fault : bool) (now : Z).

(** One turn of the outer loop; enough fuel for a claim of every row of the table. *)
Definition turn (workerID : string) (s : signal) (d : db) : option (db * bool) :=
  match s with
  | SignalDone => Some (d, true)
  | SignalPrune fault now => Some (pruneRetired fault now d, false)
  | SignalWork c =>
      match recoverExpired (recover_fails c) (recover_at c) d with
      | (Err _, d') => Some (d', recovery_cancelled c)
      | (Ok _, d') => drain (S (length (jobs d'))) workerID c 0 d'
      end
  end.

Fixpoint turns (workerID : string) (signals : list signal) (d : db) : option db :=
  match signals with
  | [] => Some d
  | s :: rest =>
      match turn workerID s d with
      | Some (d', false) => turns workerID rest d'
      | Some (d', true) => Some d'
      | None => None
      end
  end.

(** The worker: the sweep on startup, then a turn for every signal. *)
Definition worker (workerID : string) (fault : bool) (now : Z) (signals : list signal) (d : db) : option db :=
  turns workerID signals (pruneRetired fault now d).
End worker.
