(* ===== verification/JobQueue.v ===== *)
(** * The queue's tables: invariant and effect of each operation

    [db_ok] is the invariant of the two tables.  Every write of a worker is a
    [transition] of one row with its event; [transition_ok] says when a transition
    keeps the invariant, and one lemma per operation classifies its effect. *)

From S2P Require Import Prelude GoStrings Json Sql AuditLog Jobs.

Local Open Scope Z_scope.

(** ** The invariant *)

Definition leased (r : jobModel) : Prop :=
  is_Some (LeaseOwner r) /\ is_Some (LeaseToken r) /\ is_Some (LeaseExpiresAt r).
Definition unleased (r : jobModel) : Prop :=
  LeaseOwner r = None /\ LeaseToken r = None /\ LeaseExpiresAt r = None.

(** The columns that go with each state. *)
Definition state_ok (r : jobModel) : Prop :=
  match State r with
  | StateQueued => unleased r /\ StartedAt r = None /\ CompletedAt r = None /\ Progress r = 0
  | StateRunning => leased r /\ is_Some (StartedAt r) /\ CompletedAt r = None /\
                    0 <= Progress r <= 99 /\ 1 <= Attempt r
  | StateSucceeded => unleased r /\ is_Some (CompletedAt r) /\ is_Some (ResultJSON r) /\
                      Progress r = 100 /\ 1 <= Attempt r
  | StateFailed => unleased r /\ is_Some (CompletedAt r) /\ is_Some (Failure r) /\
                   0 <= Progress r <= 99 /\ 1 <= Attempt r
  end.

(** A job under the [fail] policy was never handed out twice. *)
Definition attempts_ok (r : jobModel) : Prop :=
  valid (Recovery r) = true /\ 0 <= Attempt r /\
  (Recovery r = RecoveryFail -> Attempt r <= 1 /\ (State r = StateQueued -> Attempt r = 0)).

Definition row_ok (r : jobModel) : Prop := state_ok r /\ attempts_ok r.

(** What one event may be followed by. *)
Definition legal (a b : state * Z) : Prop :=
  match a.1, b.1 with
  | StateQueued, StateRunning => b.2 = a.2
  | StateRunning, StateRunning => a.2 <= b.2 <= 99
  | StateRunning, StateSucceeded => b.2 = 100
  | StateRunning, StateFailed => 0 <= b.2 <= 99
  | StateRunning, StateQueued => b.2 = 0
  | _, _ => False
  end.

Fixpoint path (a : state * Z) (h : list (state * Z)) : Prop :=
  match h with
  | [] => True
  | b :: h' => legal a b /\ path b h'
  end.

Definition events_of (id : Z) (d : db) : list eventModel :=
  select_where (fun e => JobID e =? id) (job_events d).
Definition history (id : Z) (d : db) : list (state * Z) :=
  map (fun e => (EvState e, EvProgress e)) (events_of id d).

(** The event log of a row is a run of the state machine from the queue to the row. *)
Definition history_ok (d : db) (r : jobModel) : Prop :=
  exists h, history (ID r) d = (StateQueued, 0) :: h /\ path (StateQueued, 0) h /\
    let final := List.last h (StateQueued, 0) in
    final.1 = State r /\ (State r <> StateFailed -> final.2 = Progress r).

Record db_ok (d : db) : Prop := {
  ok_sorted : keys_sorted ID (jobs d);
  ok_ids r : r ∈ jobs d -> 0 < ID r <= jobs_seq d;
  ok_rows r : r ∈ jobs d -> row_ok r;
  ok_keys r r' key : r ∈ jobs d -> r' ∈ jobs d -> Kind r = Kind r' ->
    IdempotencyKey r = Some key -> IdempotencyKey r' = Some key -> r = r';
  ok_events_sorted : keys_sorted Sequence (job_events d);
  ok_events e : e ∈ job_events d -> 0 < Sequence e <= events_seq d /\ exists r, r ∈ jobs d /\ ID r = JobID e;
  ok_history r : r ∈ jobs d -> history_ok d r;
  ok_seqs : 0 <= jobs_seq d /\ 0 <= events_seq d;
}.

Definition empty_db : db := {| jobs := []; job_events := []; jobs_seq := 0; events_seq := 0 |}.

Lemma empty_db_ok : db_ok empty_db.
Proof. split; simpl; try lia; try (constructor; done); by intros ? ?%elem_of_nil || intros ? ? ? ?%elem_of_nil. Qed.

(** ** Transitions *)

(** [d'] is [d] with row [r0] replaced by [r1] and one event for it appended. *)
Record transition (d d' : db) (r0 r1 : jobModel) (progress : Z) : Prop := {
  tr_in : r0 ∈ jobs d;
  tr_rows r : r ∈ jobs d' <-> r = r1 \/ (r ∈ jobs d /\ ID r <> ID r0);
  tr_ids : map ID (jobs d') = map ID (jobs d);
  tr_seq : jobs_seq d' = jobs_seq d;
  tr_events : exists message now,
    job_events d' = job_events d ++
      [mk_job_event (events_seq d') (ID r0) (State r1) progress message (sql_time now)];
  tr_events_seq : events_seq d' = Z.max (events_seq d) (max_key Sequence (job_events d)) + 1;
}.

(** Columns no worker operation writes. *)
Definition same_job (r0 r1 : jobModel) : Prop :=
  ID r1 = ID r0 /\ Kind r1 = Kind r0 /\ Title r1 = Title r0 /\ JobActor r1 = JobActor r0 /\
  RequestJSON r1 = RequestJSON r0 /\ Recovery r1 = Recovery r0 /\
  IdempotencyKey r1 = IdempotencyKey r0 /\ ScopeSiteIDs r1 = ScopeSiteIDs r0 /\
  CreatedAt r1 = CreatedAt r0.

Lemma last_default {A} (x : A) l a b : List.last (x :: l) a = List.last (x :: l) b.
Proof. revert x. induction l as [|y l IH]; intros x; [done|]. apply (IH y). Qed.

Lemma path_snoc a h b :
  path a h -> legal (List.last h a) b -> path a (h ++ [b]).
Proof.
  revert a. induction h as [|c h IH]; intros a; simpl; [done|].
  intros [Hl Hp] Hb. split; [done|]. apply IH; [done|].
  destruct h; [done|]. by rewrite (last_default _ _ c a).
Qed.

Lemma last_snoc_list {A} (h : list A) b a : List.last (h ++ [b]) a = b.
Proof. apply last_last. Qed.

Section events.
Implicit Types d : db.

Lemma events_of_snoc d d' e id :
  job_events d' = job_events d ++ [e] ->
  events_of id d' = events_of id d ++ (if JobID e =? id then [e] else []).
Proof. intros He. unfold events_of. rewrite He, select_where_app. done. Qed.

Lemma event_seq_fresh d e :
  db_ok d -> Sequence e = Z.max (events_seq d) (max_key Sequence (job_events d)) + 1 ->
  keys_sorted Sequence (job_events d ++ [e]).
Proof.
  intros Hok Hseq. apply keys_sorted_snoc; [apply Hok|].
  intros e' He'. pose proof (max_key_ge Sequence _ _ He'). lia.
Qed.
End events.

(** The one lemma behind every worker write. *)
Lemma transition_ok d d' r0 r1 progress :
  db_ok d -> transition d d' r0 r1 progress -> same_job r0 r1 -> row_ok r1 ->
  legal (State r0, Progress r0) (State r1, progress) -> State r0 <> StateFailed ->
  (State r1 <> StateFailed -> progress = Progress r1) -> db_ok d'.
Proof.
  intros Hok [Hin Hrows Hids Hseq (msg & now & Hev) Heseq] Hsame Hr1 Hlegal Hnf Hprog.
  assert (Hid : ID r1 = ID r0) by apply Hsame.
  assert (Hsorted : keys_sorted ID (jobs d')) by (eapply keys_sorted_same_keys; [by symmetry|apply Hok]).
  assert (Hlift : forall r, r ∈ jobs d' -> exists r', r' ∈ jobs d /\ ID r = ID r' /\ Kind r = Kind r' /\
                    IdempotencyKey r = IdempotencyKey r').
  { intros r [->|[Hr _]]%Hrows; [exists r0|exists r]; [|done].
    destruct Hsame as (? & ? & ? & ? & ? & ? & ? & ?). done. }
  split.
  - done.
  - intros r (r' & Hr' & -> & _)%Hlift. rewrite Hseq. by apply Hok.
  - intros r [->|[Hr _]]%Hrows; [done|]. by apply Hok.
  - intros r r' key Hr Hr' HK HI HI'. apply (keys_sorted_unique ID _ _ _ Hsorted Hr Hr').
    destruct (Hlift _ Hr) as (q & Hq & -> & Hk & Hi), (Hlift _ Hr') as (q' & Hq' & -> & Hk' & Hi').
    f_equal. apply (ok_keys _ Hok q q' key); congruence.
  - rewrite Hev. apply event_seq_fresh; [done|]. by simpl.
  - intros e He. rewrite Hev, elem_of_app, list_elem_of_singleton in He.
    destruct He as [He| ->]; simpl.
    + destruct (ok_events _ Hok _ He) as [Hle (r & Hr & Hre)]. split; [lia|].
      destruct (decide (ID r = ID r0)) as [Heq|Hne].
      * exists r1. rewrite Hrows, Hid, <-Heq. auto.
      * exists r. rewrite Hrows. auto.
    + split; [pose proof (ok_seqs _ Hok); lia|]. exists r1. rewrite Hrows. auto.
  - intros r Hr. unfold history_ok, history. rewrite (events_of_snoc _ _ _ _ Hev). simpl.
    apply Hrows in Hr as [->|[Hr Hne]].
    + rewrite Hid, Z.eqb_refl. destruct (ok_history _ Hok _ Hin) as (h & Hh & Hp & Hs & Hpr).
      unfold history in Hh. rewrite map_app, Hh. simpl.
      exists (h ++ [(State r1, progress)]). split; [done|]. rewrite last_snoc_list. simpl.
      split; [|auto]. apply path_snoc; [done|].
      rewrite (surjective_pairing (List.last h _)), Hs, Hpr by done. done.
    + rewrite (proj2 (Z.eqb_neq _ _)) by done. rewrite app_nil_r. by apply (ok_history _ Hok).
  - pose proof (ok_seqs _ Hok). rewrite Hseq, Heseq. lia.
Qed.

(** An update of the single row [r0] that appends an event. *)
Lemma update_transition d p f r0 s progress message now :
  db_ok d -> r0 ∈ jobs d -> p r0 = true -> (forall r, p r = true -> ID r = ID r0) ->
  (forall r, ID (f r) = ID r) -> State (f r0) = s ->
  transition d (insert_event (with_jobs d (update_where p f (jobs d))) (ID r0) s progress message now)
    r0 (f r0) progress.
Proof.
  intros Hok Hin Hp Honly Hf Hs. split; simpl; try done.
  - intros r. rewrite elem_of_update_where. split.
    + intros (r' & Hr' & ->). destruct (p r') eqn:Hpr.
      * left. f_equal. eapply keys_sorted_unique; eauto. apply Hok.
      * right. split; [done|]. intros Heq.
        assert (r' = r0) by (eapply keys_sorted_unique; eauto; apply Hok). congruence.
    + intros [->|[Hr Hne]]; [exists r0; by rewrite Hp|].
      exists r. split; [done|]. destruct (p r) eqn:Hpr; [|done]. by apply Honly in Hpr.
  - by apply map_update_where.
  - exists message, now. by rewrite Hs.
Qed.

(** A predicate that pins the id selects at most one row. *)
Lemma rows_affected_one d p id :
  db_ok d -> (forall r, p r = true -> ID r = id) ->
  (exists r, r ∈ jobs d /\ p r = true /\ rows_affected p (jobs d) = 1) \/
  (rows_affected p (jobs d) = 0 /\ forall r, r ∈ jobs d -> p r = false).
Proof.
  intros Hok Honly.
  destruct (select_where p (jobs d)) as [|r l] eqn:Hsel.
  - right. assert (rows_affected p (jobs d) = 0) as H0.
    { unfold rows_affected. unfold select_where in Hsel. by rewrite Hsel. }
    split; [done|]. by apply rows_affected_0.
  - left. assert (r ∈ select_where p (jobs d)) as [Hr Hp]%elem_of_select_where
      by (rewrite Hsel; apply elem_of_cons; auto).
    exists r. split_and!; [done..|]. unfold rows_affected. unfold select_where in Hsel. rewrite Hsel.
    destruct l as [|r' l]; [done|].
    assert (r' ∈ select_where p (jobs d)) as [Hr' Hp']%elem_of_select_where
      by (unfold select_where; rewrite Hsel, !elem_of_cons; auto).
    assert (r = r') as <-.
    { eapply keys_sorted_unique; eauto; [apply Hok|]. by rewrite (Honly r), (Honly r'). }
    exfalso. assert (NoDup (select_where p (jobs d))) as Hnd.
    { apply (keys_sorted_NoDup ID). apply keys_sorted_filter, Hok. }
    unfold select_where in Hnd. rewrite Hsel in Hnd. apply NoDup_cons in Hnd as [Hnd _].
    apply Hnd, elem_of_cons. auto.
Qed.

(** ** The row updates keep the row invariant *)
Section rows.
Context (config : Config).
Local Abbreviation set_claimed := (set_claimed config).
Local Abbreviation set_progress := (set_progress config).
Local Abbreviation set_heartbeat := (set_heartbeat config).

Lemma set_claimed_ok now w t r : row_ok r -> State r = StateQueued -> row_ok (set_claimed now w t r).
Proof.
  intros [Hs (Hv & Ha & Hf)] Hq. unfold state_ok in Hs. rewrite Hq in Hs.
  destruct Hs as (_ & _ & Hc & Hp). split.
  - unfold state_ok, leased. simpl. rewrite Hp. split_and!; eauto using mk_is_Some; lia.
  - unfold attempts_ok. simpl. split_and!; [done|lia|].
    intros [_ Ha0]%Hf. rewrite Ha0 by done. split; [lia|done].
Qed.

Lemma set_progress_ok now next r :
  row_ok r -> State r = StateRunning -> 0 <= next <= 99 -> row_ok (set_progress now next r).
Proof.
  intros [Hs Ha] Hr Hn. unfold state_ok in Hs. rewrite Hr in Hs.
  destruct Hs as ((? & ? & ?) & ? & ? & ? & ?). split; [|done].
  unfold state_ok, leased. simpl. rewrite Hr. split_and!; eauto using mk_is_Some; lia.
Qed.

Lemma set_succeeded_ok now result r :
  row_ok r -> State r = StateRunning -> row_ok (set_succeeded result now r).
Proof.
  intros [Hs (Hv & Ha & Hf)] Hr. unfold state_ok in Hs. rewrite Hr in Hs.
  split; [|split_and!; try done; naive_solver]. unfold state_ok, unleased. simpl.
  split_and!; eauto using mk_is_Some; lia.
Qed.

Lemma set_failed_ok now message r :
  row_ok r -> State r = StateRunning -> row_ok (set_failed message now r).
Proof.
  intros [Hs (Hv & Ha & Hf)] Hr. unfold state_ok in Hs. rewrite Hr in Hs.
  split; [|split_and!; try done; naive_solver]. unfold state_ok, unleased. simpl.
  split_and!; eauto using mk_is_Some; lia.
Qed.

Lemma set_requeued_ok now r :
  row_ok r -> State r = StateRunning -> Recovery r = RecoveryRetry -> row_ok (set_requeued now r).
Proof.
  intros [Hs (Hv & Ha & Hf)] Hr Hretry. unfold state_ok in Hs. rewrite Hr in Hs.
  split.
  - unfold state_ok, unleased. simpl. naive_solver.
  - unfold attempts_ok. simpl. rewrite Hretry. split_and!; done.
Qed.
End rows.

Lemma owned_running id token r :
  owned id token r = true <-> ID r = id /\ State r = StateRunning /\ LeaseToken r = Some token.
Proof.
  unfold owned. rewrite !andb_true_iff, Z.eqb_eq, !bool_decide_eq_true. naive_solver.
Qed.

Lemma expired_running now r : expired now r = true -> State r = StateRunning.
Proof. unfold expired. intros H. by split_andb. Qed.

(** A row update without an event that leaves the state machine alone. *)
Lemma touch_ok d p f :
  db_ok d ->
  (forall r, same_job r (f r) /\ State (f r) = State r /\ Progress (f r) = Progress r) ->
  (forall r, r ∈ jobs d -> p r = true -> row_ok (f r)) ->
  db_ok (with_jobs d (update_where p f (jobs d))).
Proof.
  intros Hok Hf Hrow.
  assert (Hkeep : forall r, r ∈ update_where p f (jobs d) -> exists r', r' ∈ jobs d /\
    same_job r' r /\ State r = State r' /\ Progress r = Progress r' /\ row_ok r).
  { intros r (r' & Hr' & ->)%elem_of_update_where. exists r'. split; [done|].
    destruct (p r') eqn:Hp; [destruct (Hf r') as (? & ? & ?); auto|].
    split_and!; try done. by apply Hok. }
  assert (Hids : map ID (update_where p f (jobs d)) = map ID (jobs d)).
  { apply map_update_where. intros r. by destruct (Hf r) as [[? _] _]. }
  split; simpl; try apply Hok.
  - eapply keys_sorted_same_keys; [by symmetry|apply Hok].
  - intros r (r' & Hr' & (-> & _) & _)%Hkeep. by apply Hok.
  - by intros r (r' & _ & _ & _ & _ & ?)%Hkeep.
  - intros r r' key Hr Hr' HK HI HI'.
    assert (keys_sorted ID (update_where p f (jobs d))) as Hs
      by (eapply keys_sorted_same_keys; [by symmetry|apply Hok]).
    apply (keys_sorted_unique ID _ _ _ Hs Hr Hr').
    destruct (Hkeep _ Hr) as (q & Hq & (-> & Hk & _ & _ & _ & _ & Hi & _) & _).
    destruct (Hkeep _ Hr') as (q' & Hq' & (-> & Hk' & _ & _ & _ & _ & Hi' & _) & _).
    f_equal. apply (ok_keys _ Hok q q' key); congruence.
  - intros e He. destruct (ok_events _ Hok _ He) as [? (r & Hr & Heq)]. split; [done|].
    exists (if p r then f r else r). split; [apply elem_of_update_where; eauto|].
    destruct (p r); [|done]. destruct (Hf r) as [[? _] _]. congruence.
  - intros r (r' & Hr' & (Hid & _) & Hst & Hpr & _)%Hkeep. unfold history_ok. rewrite Hid, Hst, Hpr.
    by apply (ok_history _ Hok).
Qed.

(** ** The effect of each operation *)
Section effects.
Context (config : Config).
Local Abbreviation set_claimed := (set_claimed config).
Local Abbreviation claim := (claim config).
Local Abbreviation claimed_model := (claimed_model config).

Definition queued (r : jobModel) : bool := bool_decide (State r = StateQueued).

Lemma claim_spec fault now w t d res d' :
  db_ok d -> claim fault now w t d = (res, d') ->
  (exists r0, res = Ok (claimed_model now w t r0) /\ select_first queued (jobs d) = Some r0 /\
     transition d d' r0 (set_claimed now w t r0) (Progress r0) /\ fault = false) \/
  (exists e, res = Err e /\ d' = d /\
     (fault = false -> e = ErrNoRows /\ select_first queued (jobs d) = None)).
Proof.
  intros Hok Hc. unfold Jobs.claim, run_tx in Hc. fold queued in Hc.
  destruct fault; [injection Hc as <- <-; right; eexists; split_and!; [done..|discriminate]|].
  change (λ r : jobModel, bool_decide (State r = StateQueued)) with queued in Hc.
  destruct (select_first queued (jobs d)) as [r0|] eqn:Hsel.
  2: { injection Hc as <- <-. right. eauto. }
  apply select_first_Some in Hsel as Hr0. destruct Hr0 as [Hin Hq].
  set (p r := (ID r =? ID r0) && bool_decide (State r = StateQueued)) in *.
  assert (Hp0 : p r0 = true) by (unfold p; rewrite Z.eqb_refl; done).
  assert (Honly : forall r, p r = true -> ID r = ID r0) by (unfold p; intros r Hp; by split_andb).
  destruct (rows_affected_one d p (ID r0) Hok Honly) as [(r & _ & _ & Hone)|[_ Hno]];
    [|by rewrite Hno in Hp0].
  rewrite Hone in Hc. injection Hc as <- <-. left. exists r0. split_and!; try done.
  by apply update_transition.
Qed.

Lemma fenced_spec fault id token f s progress message now d res d' :
  db_ok d -> (forall r, ID (f r) = ID r) -> (forall r, State r = StateRunning -> State (f r) = s) ->
  fenced fault id token f s progress message now d = (res, d') ->
  (exists r0, res = Ok tt /\ r0 ∈ jobs d /\ owned id token r0 = true /\
     transition d d' r0 (f r0) progress /\ fault = false) \/
  (exists e, res = Err e /\ d' = d /\
     (fault = false -> e = ErrLeaseLost /\ forall r, r ∈ jobs d -> owned id token r = false)).
Proof.
  intros Hok Hid Hst Hf. unfold fenced, run_tx in Hf.
  destruct fault; [injection Hf as <- <-; right; eexists; split_and!; [done..|discriminate]|].
  assert (Honly : forall r, owned id token r = true -> ID r = id) by (by intros r [? _]%owned_running).
  destruct (rows_affected_one d (owned id token) id Hok Honly) as [(r & Hr & Hp & Hone)|[H0 Hno]].
  - rewrite Hone in Hf. injection Hf as <- <-. left. exists r. split_and!; try done.
    apply owned_running in Hp as Hp'. destruct Hp' as (<- & Hrun & _).
    apply update_transition; eauto.
  - rewrite H0 in Hf. injection Hf as <- <-. right. eauto.
Qed.

(** What recovery does to an interrupted row. *)
Definition recovered (now : Z) (job r : jobModel) : jobModel :=
  if bool_decide (Recovery job = RecoveryRetry) then set_requeued now r
  else set_failed recovery_failure now r.

Definition recovered_progress (job : jobModel) : Z :=
  if bool_decide (Recovery job = RecoveryRetry) then 0 else Progress job.

Lemma recover_job_spec fault now job d res d' :
  db_ok d -> recover_job fault now job d = (res, d') ->
  (exists r0, res = Ok tt /\ r0 ∈ jobs d /\ ID r0 = ID job /\ expired now r0 = true /\
     transition d d' r0 (recovered now job r0) (recovered_progress job)) \/
  (res = Ok tt /\ d' = d /\ forall r, r ∈ jobs d -> ID r = ID job -> expired now r = false) \/
  (exists e, res = Err e /\ d' = d /\ fault = true).
Proof.
  intros Hok Hr. unfold recover_job, run_tx in Hr.
  destruct fault; [injection Hr as <- <-; right; right; eauto|].
  set (p r := (ID r =? ID job) && expired now r) in *.
  assert (Honly : forall r, p r = true -> ID r = ID job) by (unfold p; intros r Hp; by split_andb).
  destruct (rows_affected_one d p (ID job) Hok Honly) as [(r & Hin & Hp & Hone)|[H0 Hno]].
  - left. exists r. rewrite Hone in Hr. unfold recovered, recovered_progress. simpl in Hr.
    apply Honly in Hp as Hid. assert (Hex : expired now r = true) by (unfold p in Hp; by split_andb).
    destruct (bool_decide (Recovery job = RecoveryRetry)); injection Hr as <- <-;
      (split_and!; try done; rewrite <-Hid; apply update_transition; try done;
       by intros r' Hp'%Honly; congruence).
  - right; left. rewrite H0 in Hr. injection Hr as <- <-. split_and!; [done| |].
    + rewrite update_where_none by done. by destruct d.
    + intros r Hin Hid. specialize (Hno r Hin). unfold p in Hno.
      by rewrite (proj2 (Z.eqb_eq _ _) Hid) in Hno.
Qed.
End effects.

(** ** Submission *)

(** [d'] is [d] with one new queued row and its event. *)
Record inserted (d d' : db) (r : jobModel) : Prop := {
  ins_jobs : jobs d' = jobs d ++ [r];
  ins_id : ID r = Z.max (jobs_seq d) (max_key ID (jobs d)) + 1;
  ins_seq : jobs_seq d' = ID r;
  ins_events_seq : events_seq d' = Z.max (events_seq d) (max_key Sequence (job_events d)) + 1;
  ins_events : exists message now, job_events d' = job_events d ++
    [mk_job_event (events_seq d') (ID r) StateQueued 0 message (sql_time now)];
  ins_state : State r = StateQueued;
  ins_row : row_ok r;
  ins_attempt : Attempt r = 0;
  ins_key key : IdempotencyKey r = Some key ->
    forall r', r' ∈ jobs d -> same_key (Kind r) key r' = false;
}.

Lemma select_exists_false {R} (p : R -> bool) rows :
  select_exists p rows = false -> forall r, r ∈ rows -> p r = false.
Proof.
  unfold select_exists. intros H r Hr. apply not_true_iff_false. intros Hp.
  apply not_true_iff_false in H. apply H, existsb_exists. exists r. by rewrite <-list_elem_of_In.
Qed.

Lemma inserted_above d d' r : db_ok d -> inserted d d' r -> forall r', r' ∈ jobs d -> ID r' < ID r.
Proof. intros Hok [_ Hid _ _ _ _ _ _ _] r' Hr'. pose proof (max_key_ge ID _ _ Hr'). lia. Qed.

Lemma inserted_ok d d' r : db_ok d -> inserted d d' r -> db_ok d'.
Proof.
  intros Hok Hins. pose proof (inserted_above _ _ _ Hok Hins) as Habove.
  destruct Hins as [Hj Hid Hseq Heseq (msg & now & Hev) Hst Hrow Hatt Hkey].
  pose proof (ok_seqs _ Hok) as [Hs0 He0].
  assert (Hnone : events_of (ID r) d = []).
  { destruct (events_of (ID r) d) as [|e l] eqn:He; [done|].
    assert (e ∈ events_of (ID r) d) as [Hin Heq]%elem_of_select_where
      by (rewrite He; apply elem_of_cons; auto).
    destruct (ok_events _ Hok _ Hin) as [_ (r' & Hr' & Hre)]. specialize (Habove _ Hr').
    apply Z.eqb_eq in Heq. lia. }
  assert (Hsplit : forall x, x ∈ jobs d' <-> x ∈ jobs d \/ x = r)
    by (intros x; by rewrite Hj, elem_of_app, list_elem_of_singleton).
  assert (Hnew : forall x key, x ∈ jobs d -> Kind x = Kind r -> IdempotencyKey x = Some key ->
                   IdempotencyKey r = Some key -> False).
  { intros x key Hx Hk Hkx Hkr. specialize (Hkey _ Hkr _ Hx). unfold same_key in Hkey.
    by rewrite !bool_decide_eq_true_2 in Hkey. }
  split.
  - rewrite Hj. apply keys_sorted_snoc; [apply Hok|done].
  - intros x [Hx| ->]%Hsplit; [|lia]. specialize (Habove _ Hx). pose proof (ok_ids _ Hok _ Hx). lia.
  - intros x [Hx| ->]%Hsplit; [by apply Hok|done].
  - intros x y key [Hx| ->]%Hsplit [Hy| ->]%Hsplit HK Hkx Hky; try done.
    + by apply (ok_keys _ Hok x y key).
    + by destruct (Hnew x key).
    + by destruct (Hnew y key).
  - rewrite Hev. apply event_seq_fresh; done.
  - intros e He. rewrite Hev, elem_of_app, list_elem_of_singleton in He. destruct He as [He| ->].
    + destruct (ok_events _ Hok _ He) as [Hle (x & Hx & Hxe)]. split; [lia|].
      exists x. rewrite Hsplit. auto.
    + simpl. split; [lia|]. exists r. rewrite Hsplit. auto.
  - intros x Hx. unfold history_ok, history. rewrite (events_of_snoc _ _ _ _ Hev). simpl.
    apply Hsplit in Hx as [Hx| ->].
    + rewrite (proj2 (Z.eqb_neq _ _)) by (specialize (Habove _ Hx); lia).
      rewrite app_nil_r. by apply (ok_history _ Hok).
    + rewrite Hnone, Z.eqb_refl. exists []. simpl. split_and!; [done..|].
      intros _. destruct Hrow as [Hrow _]. unfold state_ok in Hrow. rewrite Hst in Hrow. naive_solver.
  - lia.
Qed.

(** The row the table holds for a new model. *)
Definition stored_job (id : Z) (m : jobModel) : jobModel :=
  {| ID := id; Kind := Kind m; Title := Title m; State := State m; Progress := Progress m;
     JobActor := JobActor m; RequestJSON := RequestJSON m; ResultJSON := ResultJSON m;
     Failure := Failure m; CreatedAt := sql_time (CreatedAt m); UpdatedAt := sql_time (UpdatedAt m);
     StartedAt := sql_time <$> StartedAt m; CompletedAt := sql_time <$> CompletedAt m;
     Recovery := Recovery m; IdempotencyKey := IdempotencyKey m; ScopeSiteIDs := ScopeSiteIDs m;
     Attempt := Attempt m; LeaseOwner := LeaseOwner m; LeaseToken := LeaseToken m;
     LeaseExpiresAt := sql_time <$> LeaseExpiresAt m |}.

(** The transaction of a submission: it creates a row, or finds the row of an equal
    earlier submission, or refuses. *)
Lemma submit_tx_spec now kind title encoded sites key actor policy d :
  db_ok d -> valid policy = true ->
  let model := queued_model kind title encoded sites key actor policy now in
  let next := Z.max (jobs_seq d) (max_key ID (jobs d)) + 1 in
  match submit_tx now model d with
  | Ok (m, true, d') => m = with_id next model /\ inserted d d' (stored_job next model)
  | Ok (m, false, d') => d' = d /\ same_request model m = true /\
      exists k, key = Some k /\ select_first (same_key kind k) (jobs d) = Some m
  | Err e => e = ErrIdempotencyConflict /\
      exists k r, key = Some k /\ select_first (same_key kind k) (jobs d) = Some r /\
        same_request model r = false
  end.
Proof.
  intros Hok Hv model next. unfold submit_tx. simpl IdempotencyKey. simpl Kind.
  assert (Hcreate : (forall k, key = Some k -> forall r, r ∈ jobs d -> same_key kind k r = false) ->
    exists d', (x ← insert_job d model; let '(id, d0) := x in
      Ok (E := error) (with_id id model, true, insert_event d0 id StateQueued 0 "Job queued." now)) =
      Ok (with_id next model, true, d') /\ inserted d d' (stored_job next model)).
  { intros Hkeys. unfold insert_job. simpl IdempotencyKey. simpl Kind.
    assert (Hdup : match key with Some k => select_exists (same_key kind k) (jobs d) | None => false end = false).
    { destruct key as [k|]; [|done]. apply not_true_iff_false. intros (r & Hr & Hp)%existsb_exists.
      apply list_elem_of_In in Hr. by rewrite (Hkeys k) in Hp. }
    rewrite Hdup. simpl. eexists. split; [done|].
    split; simpl; try done. by exists "Job queued."%string, now. }
  destruct key as [k|].
  - destruct (select_first (same_key kind k) (jobs d)) as [r|] eqn:Hsel.
    + destruct (same_request model r) eqn:Hsame; eauto 8.
    + destruct Hcreate as (d' & -> & Hins); [|done].
      intros k' [= <-]. by apply select_first_None.
  - by destruct Hcreate as (d' & -> & Hins).
Qed.

(** ** Retention *)

(** The rows a sweep removes. *)
Definition swept (config : Config) (fault : bool) (now : Z) (r : jobModel) : bool :=
  negb ((RetentionPeriod config <=? 0) || fault) && retired config now r.

Lemma elem_of_prune config fault now d r :
  r ∈ jobs (pruneRetired config fault now d) <-> r ∈ jobs d /\ swept config fault now r = false.
Proof.
  unfold pruneRetired, swept. destruct ((RetentionPeriod config <=? 0) || fault); simpl; [tauto|].
  by rewrite elem_of_delete_where.
Qed.

Lemma prune_ok config fault now d : db_ok d -> db_ok (pruneRetired config fault now d).
Proof.
  intros Hok. unfold pruneRetired. destruct ((RetentionPeriod config <=? 0) || fault); [done|].
  assert (Hkept : forall r, r ∈ jobs d -> retired config now r = false ->
    ~ ID r ∈ map ID (select_where (retired config now) (jobs d))).
  { intros r Hr Hret (r' & Heq & Hr')%list_elem_of_In%in_map_iff.
    apply list_elem_of_In, elem_of_select_where in Hr' as [Hr' Hret'].
    assert (r' = r) as -> by (by eapply (keys_sorted_unique ID); [apply Hok|..]). congruence. }
  split; simpl; try apply Hok.
  - apply keys_sorted_filter, Hok.
  - intros r [Hr _]%elem_of_delete_where. by apply Hok.
  - intros r [Hr _]%elem_of_delete_where. by apply Hok.
  - intros r r' key [Hr _]%elem_of_delete_where [Hr' _]%elem_of_delete_where. by apply Hok.
  - apply keys_sorted_filter, Hok.
  - intros e [He Hd]%elem_of_delete_where. destruct (ok_events _ Hok _ He) as [? (r & Hr & Hre)].
    split; [done|]. exists r. split; [|done]. apply elem_of_delete_where. split; [done|].
    apply not_true_iff_false. intros Hret. apply bool_decide_eq_false in Hd. apply Hd.
    rewrite <-Hre. apply list_elem_of_In, in_map, list_elem_of_In, elem_of_select_where. done.
  - intros r [Hr Hret]%elem_of_delete_where. specialize (Hkept _ Hr Hret).
    destruct (ok_history _ Hok _ Hr) as (h & Hh & Hp & Hf). exists h. split; [|done].
    rewrite <-Hh. unfold history, events_of. simpl. f_equal.
    unfold select_where, delete_where. induction (job_events d) as [|e l IH]; simpl; [done|].
    destruct (bool_decide (JobID e ∈ _)) eqn:Hd; simpl; rewrite IH; [|done].
    apply bool_decide_eq_true in Hd. by rewrite (proj2 (Z.eqb_neq _ _)) by (intros Heq; apply Hkept; by rewrite <-Heq).
Qed.

(** ** Heartbeat *)
Lemma heartbeat_ok config fault now id token d res d' :
  db_ok d -> heartbeatLease config fault now id token d = (res, d') -> db_ok d'.
Proof.
  intros Hok. unfold heartbeatLease. destruct fault; [by intros [= <- <-]|].
  assert (db_ok (with_jobs d (update_where (owned id token) (set_heartbeat config now) (jobs d)))).
  { apply touch_ok; [done| |].
    - intros r. unfold same_job. simpl. done.
    - intros r Hr (_ & Hrun & _)%owned_running. apply set_progress_ok; [by apply Hok|done|].
      destruct (ok_rows _ Hok _ Hr) as [Hs _]. unfold state_ok in Hs. rewrite Hrun in Hs. naive_solver. }
  case_match; by intros [= <- <-].
Qed.

(** ** The writes of a running handler *)
Section handler_writes.
Context (config : Config).

(** A report is refused, or moves the row its token owns forward. *)
Lemma report_spec fault now model next message d err model' d' token :
  db_ok d -> LeaseToken model = Some token -> 0 <= Progress model ->
  report config fault now model next message d = (err, model', d') ->
  (is_Some err /\ model' = model /\ d' = d) \/
  (exists r0, err = None /\ model' = with_progress next model /\ fault = false /\
     Progress model <= next <= 99 /\ message <> EmptyString /\
     r0 ∈ jobs d /\ owned (ID model) token r0 = true /\
     transition d d' r0 (set_progress config now next r0) next).
Proof.
  intros Hok Htok Hpos Hr. unfold report in Hr.
  destruct ((next <? Progress model) || (next <? 0) || (99 <? next)) eqn:Hg;
    [injection Hr as <- <- <-; left; eauto|].
  apply orb_false_iff in Hg as [[Hg1 Hg2]%orb_false_iff Hg3].
  case_bool_decide; [injection Hr as <- <- <-; left; eauto|].
  unfold with_token in Hr. rewrite Htok in Hr. unfold updateProgress in Hr.
  destruct (fenced _ _ _ _ _ _ _ _ _) as [res d1] eqn:Hf.
  apply fenced_spec in Hf; [|done|done|by intros r].
  destruct Hf as [(r0 & -> & Hin & How & Htr & ->)|(e & -> & -> & _)].
  - injection Hr as <- <- <-. right. exists r0. split_andb. split_and!; try done; lia.
  - injection Hr as <- <- <-. left. eauto.
Qed.

(** The end of a handler writes nothing, or finishes the row its token owns. *)
Lemma complete_spec fault shutdown lost now model out d d' entries token :
  db_ok d -> LeaseToken model = Some token ->
  complete fault shutdown lost now model out d = (d', entries) ->
  d' = d \/
  (exists r0, lost = false /\ fault = false /\ r0 ∈ jobs d /\ owned (ID model) token r0 = true /\
     ((exists result, out = Returned result /\
         transition d d' r0 (set_succeeded result now r0) 100) \/
      (exists failure, transition d d' r0 (set_failed failure now r0) (Progress model)))).
Proof.
  intros Hok Htok Hc.
  assert (Hfail : forall why, finishFailed fault now model why d = (d', entries) ->
    d' = d \/ exists r0, fault = false /\ r0 ∈ jobs d /\ owned (ID model) token r0 = true /\
      transition d d' r0 (set_failed (failure_message why) now r0) (Progress model)).
  { intros why H. unfold finishFailed, with_token in H. rewrite Htok in H.
    destruct (fenced _ _ _ _ _ _ _ _ _) as [res d1] eqn:Hf.
    apply fenced_spec in Hf; [|done|done|by intros r].
    destruct Hf as [(r0 & -> & Hin & How & Htr & ->)|(e & -> & -> & _)];
      injection H as <- _; [right; by exists r0|by left]. }
  unfold complete in Hc. destruct lost; [injection Hc as <- _; auto|].
  destruct out as [result|why|why|why|value].
  4: destruct shutdown; [injection Hc as <- _; by left|].
  2-5: apply Hfail in Hc as [->|(r0 & ? & ? & ? & Htr)]; [by left|right; exists r0];
    split_and!; try assumption; [done|right; by eexists].
  unfold finishSucceeded, with_token in Hc. rewrite Htok in Hc.
  destruct (fenced _ _ _ _ _ _ _ _ _) as [res d1] eqn:Hf.
  apply fenced_spec in Hf; [|done|done|by intros r].
  destruct Hf as [(r0 & -> & Hin & How & Htr & ->)|(e & -> & -> & _)];
    injection Hc as <- _; [right; exists r0|by left].
  split_and!; try assumption; [done..|left; by exists result].
Qed.

(** Transitions of owned rows keep the invariant. *)
Lemma progress_ok now next model token r0 d d' :
  db_ok d -> transition d d' r0 (set_progress config now next r0) next ->
  owned (ID model) token r0 = true -> Progress r0 <= next <= 99 -> db_ok d'.
Proof.
  intros Hok Htr (_ & Hrun & _)%owned_running Hn.
  assert (Hrow : row_ok r0) by (apply Hok; apply Htr).
  assert (0 <= Progress r0).
  { destruct Hrow as [Hs _]. unfold state_ok in Hs. rewrite Hrun in Hs. naive_solver. }
  eapply transition_ok; [done|done|unfold same_job; done| | |congruence|done].
  - apply set_progress_ok; [done..|lia].
  - unfold legal. simpl. rewrite Hrun. lia.
Qed.

Lemma succeeded_ok now result r0 d d' :
  db_ok d -> transition d d' r0 (set_succeeded result now r0) 100 -> State r0 = StateRunning -> db_ok d'.
Proof.
  intros Hok Htr Hrun. eapply transition_ok; [done|done|unfold same_job; done| | |congruence|done].
  - apply set_succeeded_ok; [apply Hok; apply Htr|done].
  - unfold legal. simpl. by rewrite Hrun.
Qed.

Lemma failed_ok now why progress r0 d d' :
  db_ok d -> transition d d' r0 (set_failed why now r0) progress -> State r0 = StateRunning ->
  0 <= progress <= 99 -> db_ok d'.
Proof.
  intros Hok Htr Hrun Hp. eapply transition_ok; [done|done|unfold same_job; done| | |congruence|done].
  - apply set_failed_ok; [apply Hok; apply Htr|done].
  - unfold legal. simpl. by rewrite Hrun.
Qed.

Lemma requeued_ok now r0 d d' :
  db_ok d -> transition d d' r0 (set_requeued now r0) 0 -> State r0 = StateRunning ->
  Recovery r0 = RecoveryRetry -> db_ok d'.
Proof.
  intros Hok Htr Hrun Hretry. eapply transition_ok; [done|done|unfold same_job; done| | |congruence|done].
  - apply set_requeued_ok; [apply Hok; apply Htr|done..].
  - unfold legal. simpl. by rewrite Hrun.
Qed.

Lemma claimed_ok now owner token r0 d d' :
  db_ok d -> transition d d' r0 (set_claimed config now owner token r0) (Progress r0) ->
  State r0 = StateQueued -> db_ok d'.
Proof.
  intros Hok Htr Hq. eapply transition_ok; [done|done|unfold same_job; done| | |congruence|done].
  - apply set_claimed_ok; [apply Hok; apply Htr|done].
  - unfold legal. simpl. by rewrite Hq.
Qed.
End handler_writes.
