(* ===== verification/JobSystem.v ===== *)
(** * Several processes on one queue

    Processes claim, run, report, lose their lease, crash, recover and prune in any
    order, with any clock and any driver fault ([sys_step]).  [sys_ok] is the
    invariant of every reachable state; [spec_step] is the abstract queue the
    tables implement. *)

From stdpp Require Import functions.
From S2P Require Import Prelude GoStrings Json Sql AuditLog Jobs JobQueue.

Local Open Scope Z_scope.

(** ** The system *)

(** What a process is doing. *)
Inductive phase :=
| Idle
| Busy (model : jobModel) (p : prog) (lost : bool)
| Recovering (now : Z) (rest : list jobModel).

(** [used]: the lease tokens drawn so far; [claimed]: the ids handed out, newest
    first (both are ghosts). *)
Record sys := mk_sys {
  store : db;
  procs : nat -> phase;
  used : list string;
  claimed : list Z;
}.

Section system.
Context (config : Config) (handlers : registry).

Definition start_prog (model : jobModel) : prog :=
  default (Done (Failed unavailable)) (handler_prog handlers model).

Definition with_store (s : sys) (d : db) : sys :=
  {| store := d; procs := procs s; used := used s; claimed := claimed s |}.
Definition set_proc (s : sys) (d : db) (i : nat) (ph : phase) : sys :=
  {| store := d; procs := <[i := ph]> (procs s); used := used s; claimed := claimed s |}.

Inductive sys_step (s : sys) : sys -> Prop :=
| step_submit fate now kind title request options policy r d' :
    (fate = TxRuns \/ exists b, fate = TxFails (store s) b) ->
    persistSubmission fate now kind title request options policy (store s) = (r, d') ->
    sys_step s (with_store s d')
| step_claim i now owner token model d' :
    procs s i = Idle -> token ∉ used s ->
    claim config false now owner token (store s) = (Ok model, d') ->
    sys_step s {| store := d'; procs := <[i := Busy model (start_prog model) false]> (procs s);
                  used := token :: used s; claimed := ID model :: claimed s |}
| step_claim_none i fault now owner token e d' :
    procs s i = Idle -> claim config fault now owner token (store s) = (Err e, d') ->
    sys_step s (with_store s d')
| step_report i fault now model next message reply lost err model' d' :
    procs s i = Busy model (Report next message reply) lost ->
    (lost = true -> fault = true) ->
    report config fault now model next message (store s) = (err, model', d') ->
    sys_step s (set_proc s d' i (Busy model' (reply err) lost))
| step_heartbeat i fault now model p lost token r d' :
    procs s i = Busy model p lost -> LeaseToken model = Some token ->
    heartbeatLease config fault now (ID model) token (store s) = (r, d') ->
    sys_step s (set_proc s d' i (Busy model p (lost || negb (is_ok r))))
| step_complete i fault shutdown now model out lost d' entries :
    procs s i = Busy model (Done out) lost ->
    complete fault shutdown lost now model out (store s) = (d', entries) ->
    sys_step s (set_proc s d' i Idle)
| step_crash i : sys_step s (set_proc s (store s) i Idle)
| step_recover i now :
    procs s i = Idle ->
    sys_step s (set_proc s (store s) i (Recovering now (select_where (expired now) (jobs (store s)))))
| step_recover_job i fault now job rest r d' :
    procs s i = Recovering now (job :: rest) -> recover_job fault now job (store s) = (r, d') ->
    sys_step s (set_proc s d' i (if is_ok r then Recovering now rest else Idle))
| step_recovered i now :
    procs s i = Recovering now [] -> sys_step s (set_proc s (store s) i Idle)
| step_prune fault now :
    sys_step s (with_store s (pruneRetired config fault now (store s))).

Definition initial : sys :=
  {| store := empty_db; procs := fun _ => Idle; used := []; claimed := [] |}.

Definition reachable (s : sys) : Prop := rtc sys_step initial s.

(** ** Invariant *)

Definition busy_ok (s : sys) (model : jobModel) : Prop :=
  exists token, LeaseToken model = Some token /\ token ∈ used s /\ 0 <= Progress model <= 99 /\
    ID model <= jobs_seq (store s) /\
    forall r, r ∈ jobs (store s) -> State r = StateRunning -> LeaseToken r = Some token ->
      ID r = ID model /\ Progress r = Progress model.

Definition snapshot_ok (d : db) (job : jobModel) : Prop :=
  ID job <= jobs_seq d /\ 0 <= Progress job <= 99 /\
  forall r, r ∈ jobs d -> ID r = ID job -> Recovery r = Recovery job.

Definition phase_ok (s : sys) (ph : phase) : Prop :=
  match ph with
  | Idle => True
  | Busy model _ _ => busy_ok s model
  | Recovering _ rest => Forall (snapshot_ok (store s)) rest
  end.

Definition claims (id : Z) (s : sys) : Z := rows_affected (Z.eqb id) (claimed s).

Record sys_ok (s : sys) : Prop := {
  sys_db : db_ok (store s);
  sys_token r token : r ∈ jobs (store s) -> State r = StateRunning ->
    LeaseToken r = Some token -> token ∈ used s;
  sys_token_unique r r' : r ∈ jobs (store s) -> r' ∈ jobs (store s) ->
    State r = StateRunning -> State r' = StateRunning -> LeaseToken r = LeaseToken r' -> r = r';
  sys_phase i : phase_ok s (procs s i);
  sys_busy i j model p lost model' p' lost' :
    procs s i = Busy model p lost -> procs s j = Busy model' p' lost' ->
    LeaseToken model = LeaseToken model' -> i = j;
  sys_claims r : r ∈ jobs (store s) -> claims (ID r) s = Attempt r;
  sys_claimed id : id ∈ claimed s -> id <= jobs_seq (store s);
}.

Lemma initial_ok : sys_ok initial.
Proof.
  split; simpl; try done; try (by intros ? ?%elem_of_nil); try (by intros ? ? ?%elem_of_nil).
  apply empty_db_ok.
Qed.

(** ** Store changes that respect the other processes *)

(** [d'] comes from [d] by a write that hands out no job; [w] is the lease token of
    the writer, the only one whose row may change its progress. *)
Record evolves (w : option string) (d d' : db) : Prop := {
  evo_ok : db_ok d';
  evo_seq : jobs_seq d <= jobs_seq d';
  evo_rows r' : r' ∈ jobs d' ->
    (exists r, r ∈ jobs d /\ ID r' = ID r /\ Recovery r' = Recovery r /\ Attempt r' = Attempt r /\
       (State r' = StateRunning -> State r = StateRunning /\ LeaseToken r' = LeaseToken r /\
          (LeaseToken r' = w \/ Progress r' = Progress r))) \/
    (jobs_seq d < ID r' /\ State r' = StateQueued /\ Attempt r' = 0);
}.

Lemma evolves_refl d w : db_ok d -> evolves w d d.
Proof. intros Hok. split; [done|lia|]. intros r Hr. left. exists r. auto 10. Qed.

Lemma transition_evolves w d d' r0 r1 progress :
  transition d d' r0 r1 progress -> db_ok d' -> same_job r0 r1 -> Attempt r1 = Attempt r0 ->
  (State r1 = StateRunning -> State r0 = StateRunning /\ LeaseToken r1 = LeaseToken r0 /\
     (LeaseToken r1 = w \/ Progress r1 = Progress r0)) ->
  evolves w d d'.
Proof.
  intros [Hin Hrows _ Hseq _ _] Hok (Hid & _ & _ & _ & _ & Hrec & _) Hatt Hrun. split; [done|lia|].
  intros r [->|[Hr _]]%Hrows; left; [exists r0|exists r]; auto 10.
Qed.

Lemma phase_evolves w s d' P' ph :
  phase_ok s ph -> evolves w (store s) d' ->
  (forall m p l, ph = Busy m p l -> LeaseToken m <> w) ->
  phase_ok {| store := d'; procs := P'; used := used s; claimed := claimed s |} ph.
Proof.
  intros Hph [Hok Hseq Hrows] Hw. destruct ph as [|m p l|now rest]; simpl in *; [done| |].
  - destruct Hph as (t & Ht & Hused & Hp & Hid & Hall). exists t. simpl. split_and!; try done; try lia.
    intros r' [(r & Hr & -> & _ & _ & Hrun)|(_ & Hq & _)]%Hrows Hr' Ht'; [|congruence].
    destruct (Hrun Hr') as (Hr0 & Htok & [Heq|Hprog]).
    + exfalso. apply (Hw m p l eq_refl). congruence.
    + rewrite Hprog. apply Hall; [done..|congruence].
  - eapply Forall_impl; [done|]. intros job (Hid & Hp & Hrec). split_and!; try lia.
    intros r' [(r & Hr & -> & -> & _)|(Hlt & _)]%Hrows Heq; [by apply Hrec|lia].
Qed.

Lemma evolves_ok w s d' P' :
  sys_ok s -> evolves w (store s) d' ->
  (forall j, (P' j = procs s j /\ forall m p l, P' j = Busy m p l -> LeaseToken m <> w) \/
     (phase_ok {| store := d'; procs := P'; used := used s; claimed := claimed s |} (P' j) /\
      forall m p l, P' j = Busy m p l -> exists m0 p0 l0, procs s j = Busy m0 p0 l0 /\
        LeaseToken m = LeaseToken m0)) ->
  sys_ok {| store := d'; procs := P'; used := used s; claimed := claimed s |}.
Proof.
  intros [Hdb Htok Huniq Hph Hbusy Hcl Hcd] Hevo HP.
  pose proof Hevo as [Hok Hseq Hrows].
  assert (Hback : forall j m p l, P' j = Busy m p l ->
            exists m0 p0 l0, procs s j = Busy m0 p0 l0 /\ LeaseToken m = LeaseToken m0).
  { intros j m p l Hj. destruct (HP j) as [[Heq _]|[_ H]]; [|eauto]. exists m, p, l. by rewrite <-Heq. }
  split; simpl.
  - done.
  - intros r' t [(r & Hr & _ & _ & _ & Hrun)|(_ & Hq & _)]%Hrows Hr' Ht; [|congruence].
    destruct (Hrun Hr') as (? & ? & _). eapply Htok; eauto; congruence.
  - intros r' q' Hr' Hq' Hrr Hqr Heq. apply (keys_sorted_unique ID _ _ _ (ok_sorted _ Hok) Hr' Hq').
    apply Hrows in Hr' as [(r & Hr & -> & _ & _ & Hrun)|(_ & ? & _)]; [|congruence].
    apply Hrows in Hq' as [(q & Hq & -> & _ & _ & Hqrun)|(_ & ? & _)]; [|congruence].
    destruct (Hrun Hrr) as (? & ? & _), (Hqrun Hqr) as (? & ? & _). f_equal. apply Huniq; congruence.
  - intros j. destruct (HP j) as [[Heq Hne]|[Hj _]]; [|done].
    eapply phase_evolves; [|done|done]. rewrite Heq. apply Hph.
  - intros i j m p l m' p' l' Hi Hj Heq.
    destruct (Hback _ _ _ _ Hi) as (? & ? & ? & ? & ?), (Hback _ _ _ _ Hj) as (? & ? & ? & ? & ?).
    eapply Hbusy; eauto; congruence.
  - intros r' [(r & Hr & -> & _ & -> & _)|(Hlt & _ & ->)]%Hrows; [by apply Hcl|].
    apply rows_affected_0. intros id Hid%Hcd. apply Z.eqb_neq. lia.
  - intros id Hid%Hcd. lia.
Qed.

(** One process writes and changes its phase. *)
Lemma set_proc_ok w s d' i ph :
  sys_ok s -> evolves w (store s) d' ->
  (forall t, w = Some t -> exists m p l, procs s i = Busy m p l /\ LeaseToken m = Some t) ->
  phase_ok (set_proc s d' i ph) ph ->
  (forall m p l, ph = Busy m p l -> exists m0 p0 l0, procs s i = Busy m0 p0 l0 /\
     LeaseToken m = LeaseToken m0) ->
  sys_ok (set_proc s d' i ph).
Proof.
  intros Hs Hevo Hw Hph Hback. apply evolves_ok with w; [done..|]. intros j.
  destruct (decide (j = i)) as [->|Hne].
  - right. rewrite fn_lookup_insert. auto.
  - left. rewrite fn_lookup_insert_ne by done. split; [done|]. intros m p l Hj Heq.
    pose proof (sys_phase _ Hs j) as Hpj. rewrite Hj in Hpj. destruct Hpj as (t & Ht & _).
    rewrite Ht in Heq. destruct (Hw t) as (m' & p' & l' & Hi & Ht'); [done|].
    apply Hne. eapply (sys_busy _ Hs); eauto; congruence.
Qed.

Lemma with_store_ok s d' : sys_ok s -> evolves None (store s) d' -> sys_ok (with_store s d').
Proof.
  intros Hs Hevo. apply evolves_ok with None; [done..|]. intros j. left. split; [done|].
  intros m p l Hj Heq. pose proof (sys_phase _ Hs j) as Hpj. rewrite Hj in Hpj.
  destruct Hpj as (t & Ht & _). congruence.
Qed.

(** ** Every step keeps the invariant *)

Lemma persist_spec fate now kind title request options policy d r d' :
  db_ok d -> (fate = TxRuns \/ exists b, fate = TxFails d b) ->
  persistSubmission fate now kind title request options policy d = (r, d') ->
  d' = d \/ exists m row, r = Ok (m, true) /\ ID m = ID row /\ inserted d d' row /\
    Kind row = trim_space kind.
Proof.
  intros Hok Hfate. unfold persistSubmission.
  case_bool_decide; [intros [= _ <-]; auto|].
  destruct (valid policy) eqn:Hv; simpl; [|intros [= _ <-]; auto].
  destruct request as [request|]; [|intros [= _ <-]; auto].
  destruct (normalizeSiteIDs _) as [sites|]; [|intros [= _ <-]; auto].
  destruct (normalizeIdempotencyKey _) as [key|]; [|intros [= _ <-]; auto].
  destruct Hfate as [->|[b ->]]; [|intros [= _ <-]; auto].
  pose proof (submit_tx_spec now (trim_space kind) title (marshal request) (marshal_strings sites)
                key (Actor options) policy d Hok Hv) as Hspec. simpl in Hspec.
  destruct (submit_tx _ _ _) as [[[m []] d0]|e]; [| |intros [= _ <-]; auto].
  - destruct Hspec as [-> Hins]. intros [= <- <-]. right. eexists _, _. split_and!; try exact Hins; done.
  - destruct Hspec as [-> _]. intros [= _ <-]. auto.
Qed.

Lemma inserted_evolves d d' row : db_ok d -> inserted d d' row -> evolves None d d'.
Proof.
  intros Hok Hins. pose proof (inserted_ok _ _ _ Hok Hins) as Hok'.
  destruct Hins as [Hj Hid Hseq _ _ Hst _ Hatt _]. split; [done|lia|].
  intros r. rewrite Hj, elem_of_app, list_elem_of_singleton. intros [Hr| ->].
  - left. exists r. auto 10.
  - right. split_and!; [lia|done..].
Qed.

Lemma prune_evolves fault now d : db_ok d -> evolves None d (pruneRetired config fault now d).
Proof.
  intros Hok. split; [by apply prune_ok| |]; unfold pruneRetired.
  - by case_match.
  - intros r Hr. left. exists r. case_match; [auto 10|].
    apply elem_of_delete_where in Hr as [Hr _]. auto 10.
Qed.

Lemma heartbeat_evolves fault now id token d res d' :
  db_ok d -> heartbeatLease config fault now id token d = (res, d') -> evolves None d d'.
Proof.
  intros Hok Hh. pose proof (heartbeat_ok _ _ _ _ _ _ _ _ Hok Hh) as Hok'.
  unfold heartbeatLease in Hh. destruct fault; [injection Hh as _ <-; by apply evolves_refl|].
  assert (d' = with_jobs d (update_where (owned id token) (set_heartbeat config now) (jobs d))) as ->
    by (case_match; congruence).
  split; [done|done|]. intros r' (r & Hr & ->)%elem_of_update_where. left. exists r.
  destruct (owned id token r); auto 10.
Qed.

Lemma recover_job_evolves fault now job d res d' :
  db_ok d -> snapshot_ok d job -> recover_job fault now job d = (res, d') -> evolves None d d'.
Proof.
  intros Hok (_ & Hp & Hrec) Hr.
  apply recover_job_spec in Hr as [(r0 & _ & Hin & Hid & Hex%expired_running & Htr)|[(_ & -> & _)|(e & _ & -> & _)]];
    [|by apply evolves_refl..|done].
  specialize (Hrec _ Hin Hid). unfold recovered, recovered_progress in Htr. rewrite <-Hrec in Htr.
  case_bool_decide as Hpol.
  - eapply transition_evolves; [done|by eapply requeued_ok|done..].
  - eapply transition_evolves; [done|by eapply failed_ok|done..].
Qed.

Lemma snapshot_expired d now : db_ok d -> Forall (snapshot_ok d) (select_where (expired now) (jobs d)).
Proof.
  intros Hok. apply Forall_forall. intros job [Hin Hex%expired_running]%elem_of_select_where.
  pose proof (ok_ids _ Hok _ Hin). destruct (ok_rows _ Hok _ Hin) as [Hst _].
  unfold state_ok in Hst. rewrite Hex in Hst. split_and!; try naive_solver lia.
  intros r Hr Heq. f_equal. eapply (keys_sorted_unique ID); eauto. apply Hok.
Qed.

Lemma claim_keeps s i owner now token model d' :
  sys_ok s -> procs s i = Idle -> token ∉ used s ->
  claim config false now owner token (store s) = (Ok model, d') ->
  sys_ok {| store := d'; procs := <[i := Busy model (start_prog model) false]> (procs s);
            used := token :: used s; claimed := ID model :: claimed s |}.
Proof.
  intros Hs Hidle Hfresh Hc. pose proof Hs as [Hdb Htok Huniq Hph Hbusy Hcl Hcd].
  apply claim_spec in Hc as [(r0 & [= ->] & Hsel & Htr & _)|(e & [=] & _)]; [|done].
  apply select_first_Some in Hsel as [_ Hq%bool_decide_eq_true].
  assert (Hok' : db_ok d') by (by eapply claimed_ok).
  destruct Htr as [Hin Hrows Hids Hseq _ _]. simpl.
  assert (Hold : forall r t, r ∈ jobs (store s) -> State r = StateRunning -> LeaseToken r = Some t -> t <> token).
  { intros r t Hr Hrun Ht ->. by apply Hfresh, (Htok r). }
  split; simpl.
  - done.
  - intros r t [->|[Hr _]]%Hrows Hrun Ht; apply elem_of_cons; [left|right; by apply (Htok r)].
    simpl in Ht. congruence.
  - intros r r' [->|[Hr Hne]]%Hrows [->|[Hr' Hne']]%Hrows Hrun Hrun' Heq; try done.
    + exfalso. simpl in Heq. by apply (Hold r' token).
    + exfalso. simpl in Heq. by apply (Hold r token).
    + by apply Huniq.
  - intros j. destruct (decide (j = i)) as [->|Hne].
    + rewrite fn_lookup_insert. exists token. simpl. split_and!; try done.
      * apply elem_of_cons. auto.
      * destruct (ok_rows _ Hdb _ Hin) as [Hst _]. unfold state_ok in Hst. rewrite Hq in Hst. naive_solver lia.
      * destruct (ok_rows _ Hdb _ Hin) as [Hst _]. unfold state_ok in Hst. rewrite Hq in Hst. naive_solver lia.
      * rewrite Hseq. by apply Hdb.
      * intros r [->|[Hr _]]%Hrows Hrun Ht; [done|]. by destruct (Hold r token).
    + rewrite fn_lookup_insert_ne by done. specialize (Hph j).
      destruct (procs s j) as [|m p l|now' rest] eqn:Hj; simpl in *; [done| |].
      * destruct Hph as (t & Ht & Hu & Hp & Hid & Hall). exists t. simpl.
        split_and!; try done; [apply elem_of_cons; auto|lia..|].
        intros r [->|[Hr _]]%Hrows Hrun Htr; [|by apply Hall]. simpl in Htr. congruence.
      * eapply Forall_impl; [done|]. intros job (? & ? & Hrec). split_and!; try lia.
        intros r [->|[Hr _]]%Hrows Heq; [by apply (Hrec r0)|by apply Hrec].
  - intros j k m p l m' p' l' Hj Hk Heq.
    assert (Hother : forall x m p l, x <> i -> procs s x = Busy m p l -> LeaseToken m <> Some token).
    { intros x mx px lx _ Hx Hbad. pose proof (Hph x) as Hpx. rewrite Hx in Hpx.
      destruct Hpx as (t & Ht & Hu & _). congruence. }
    destruct (decide (j = i)) as [->|Hji], (decide (k = i)) as [->|Hki]; [done|..].
    + rewrite fn_lookup_insert in Hj. rewrite fn_lookup_insert_ne in Hk by done.
      injection Hj as <- _ _. by destruct (Hother k m' p' l').
    + rewrite fn_lookup_insert in Hk. rewrite fn_lookup_insert_ne in Hj by done.
      injection Hk as <- _ _. by destruct (Hother j m p l).
    + rewrite fn_lookup_insert_ne in Hj, Hk by done. by eapply Hbusy.
  - intros r Hr. unfold claims. simpl. pose proof (Hcl r0 Hin) as H0. unfold claims in *.
    change (ID r0 :: claimed s) with ([ID r0] ++ claimed s). rewrite rows_affected_app.
    apply Hrows in Hr as [->|[Hr Hne]]; unfold rows_affected at 1; simpl.
    + rewrite Z.eqb_refl. simpl. lia.
    + rewrite (proj2 (Z.eqb_neq _ _)) by done. by apply Hcl.
  - intros id [->|Hid]%elem_of_cons; rewrite Hseq; [by apply Hdb|by apply Hcd].
Qed.

(** The running row a busy process's token points at is its job. *)
Lemma busy_row s i model p lost token r :
  sys_ok s -> procs s i = Busy model p lost -> LeaseToken model = Some token ->
  r ∈ jobs (store s) -> owned (ID model) token r = true ->
  State r = StateRunning /\ ID r = ID model /\ Progress r = Progress model /\ 0 <= Progress model <= 99.
Proof.
  intros Hs Hi Ht Hr (Hid & Hrun & Htr)%owned_running.
  pose proof (sys_phase _ Hs i) as Hph. rewrite Hi in Hph. destruct Hph as (t & Ht' & _ & Hp & _ & Hall).
  assert (t = token) as -> by congruence. destruct (Hall r Hr Hrun Htr) as [_ Hpr]. done.
Qed.

Lemma report_keeps s i fault now model next message reply lost err model' d' :
  sys_ok s -> procs s i = Busy model (Report next message reply) lost ->
  report config fault now model next message (store s) = (err, model', d') ->
  sys_ok (set_proc s d' i (Busy model' (reply err) lost)).
Proof.
  intros Hs Hi Hr. pose proof (sys_phase _ Hs i) as Hph. rewrite Hi in Hph.
  destruct Hph as (token & Ht & Hu & Hp & Hid & Hall).
  apply (report_spec _ _ _ _ _ _ _ _ _ _ token) in Hr; [|apply Hs|done|lia].
  destruct Hr as [(_ & -> & ->)|(r0 & -> & -> & _ & Hn & _ & Hin & How & Htr)].
  - apply (set_proc_ok None); [done|apply evolves_refl, Hs|done| |].
    + exists token. simpl. auto.
    + intros m p l [= <- <- <-]. eauto.
  - destruct (busy_row _ _ _ _ _ _ _ Hs Hi Ht Hin How) as (Hrun & Heq & Hpr & _).
    apply owned_running in How as Ho. destruct Ho as (_ & _ & Htok).
    assert (Hok' : db_ok d') by (eapply progress_ok; [apply Hs|done|done|lia]).
    apply (set_proc_ok (Some token)); [done| | | |].
    + eapply transition_evolves; [done|done|unfold same_job; done|done|].
      intros _. simpl. split_and!; try done. by left.
    + intros t [= <-]. eauto 10.
    + destruct Htr as [_ Hrows _ Hseq _ _]. exists token. simpl. split_and!; try done; try lia.
      intros r [->|[Hr Hne]]%Hrows Hrr Htr; [done|].
      exfalso. apply Hne. rewrite Heq. by destruct (Hall r Hr Hrr Htr).
    + intros m p l [= <- <- <-]. eauto 10.
Qed.

Lemma complete_keeps s i fault shutdown now model out lost d' entries :
  sys_ok s -> procs s i = Busy model (Done out) lost ->
  complete fault shutdown lost now model out (store s) = (d', entries) ->
  sys_ok (set_proc s d' i Idle).
Proof.
  intros Hs Hi Hc. pose proof (sys_phase _ Hs i) as Hph. rewrite Hi in Hph.
  destruct Hph as (token & Ht & Hu & Hp & Hid & Hall).
  apply (complete_spec _ _ _ _ _ _ _ _ _ token) in Hc; [|apply Hs|done].
  apply (set_proc_ok None); [done| |done..].
  destruct Hc as [->|(r0 & _ & _ & Hin & How & Hcase)]; [apply evolves_refl, Hs|].
  destruct (busy_row _ _ _ _ _ _ _ Hs Hi Ht Hin How) as (Hrun & _ & Hpr & _).
  destruct Hcase as [(result & _ & Htr)|(failure & Htr)].
  - eapply transition_evolves; [done|by eapply succeeded_ok; [apply Hs|..]|done..].
  - eapply transition_evolves; [done|by eapply failed_ok; [apply Hs|..]|done..].
Qed.

Lemma sys_step_ok s s' : sys_ok s -> sys_step s s' -> sys_ok s'.
Proof.
  intros Hs Hstep. pose proof (sys_db _ Hs) as Hdb.
  destruct Hstep as [fate now kind title request options policy r d' Hfate Hp
    |i owner now token model d' Hi Hfresh Hc|i fault now owner token e d' Hi Hc
    |i fault now model next message reply lost err model' d' Hi _ Hr
    |i fault now model p lost token r d' Hi Ht Hh|i fault shutdown now model out lost d' entries Hi Hc
    |i|i now Hi|i fault now job rest r d' Hi Hr|i now Hi|fault now].
  - apply with_store_ok; [done|].
    apply persist_spec in Hp as [->|(m & row & _ & _ & Hins & _)]; try done.
    + by apply evolves_refl.
    + by eapply inserted_evolves.
  - by eapply claim_keeps.
  - apply with_store_ok; [done|].
    apply claim_spec in Hc as [(r0 & [=] & _)|(e' & _ & -> & _)]; [by apply evolves_refl|done].
  - by eapply report_keeps.
  - apply (set_proc_ok None); [done|by eapply heartbeat_evolves|done| |].
    + assert (phase_ok s (Busy model p lost)) as Hph by (rewrite <-Hi; apply Hs).
      eapply (phase_evolves None s d' (procs s) (Busy model p _) Hph); [by eapply heartbeat_evolves|].
      intros m q l [= <- _ _]. by rewrite Ht.
    + intros m q l [= <- _ _]. eauto.
  - by eapply complete_keeps.
  - by apply (set_proc_ok None); [|apply evolves_refl|..].
  - apply (set_proc_ok None); [done|by apply evolves_refl|done| |done]. by apply snapshot_expired.
  - assert (Hph : phase_ok s (Recovering now (job :: rest))) by (rewrite <-Hi; apply Hs).
    simpl in Hph. apply Forall_cons in Hph as Hjob. destruct Hjob as [Hjob Hrest].
    assert (Hevo : evolves None (store s) d') by (by eapply recover_job_evolves).
    apply (set_proc_ok None); [done..| |by destruct (is_ok r)].
    destruct (is_ok r); [|done].
    by eapply (phase_evolves None s d' (procs s) (Recovering now rest)).
  - by apply (set_proc_ok None); [|apply evolves_refl|..].
  - apply with_store_ok; [done|by apply prune_evolves].
Qed.

Lemma reachable_ok s : reachable s -> sys_ok s.
Proof.
  intros Hr. refine (rtc_ind_r (R := sys_step) sys_ok initial initial_ok _ s Hr).
  intros s1 s2 _ Hstep Hok. by eapply sys_step_ok.
Qed.
End system.
