(* ===== verification/JobSpec.v ===== *)
(** * The abstract queue, and that the tables implement it

    [spec_step] is the promise of the queue without tables, leases in columns,
    transactions or processes: jobs are submitted under fresh ids, started by
    naming a fresh token, moved forward and finished only by naming that token,
    put back only under the [retry] policy, failed when abandoned, and retired
    only when terminal. [sys_step_refines] is the simulation. *)

From stdpp Require Import functions.
From S2P Require Import Prelude GoStrings Json Sql AuditLog Jobs JobQueue JobSystem.

Local Open Scope Z_scope.

Inductive spec_state :=
| SQueued
| SRunning (token : string) (progress : Z)
| SSucceeded (result : string)
| SFailed (why : string).

Record spec_job := mk_spec_job {
  sp_kind : string;
  sp_request : string;
  sp_policy : RecoveryPolicy;
  sp_attempt : Z;
  sp_state : spec_state;
}.

(** [sp_last]: the highest id ever given; [sp_started]: the ids started. *)
Record spec := mk_spec {
  sp_jobs : Z -> option spec_job;
  sp_last : Z;
  sp_started : list Z;
}.

Definition terminal (st : spec_state) : Prop :=
  match st with SSucceeded _ | SFailed _ => True | _ => False end.

Definition with_state (j : spec_job) (st : spec_state) : spec_job :=
  mk_spec_job (sp_kind j) (sp_request j) (sp_policy j) (sp_attempt j) st.
Definition started (j : spec_job) (token : string) (progress : Z) : spec_job :=
  mk_spec_job (sp_kind j) (sp_request j) (sp_policy j) (sp_attempt j + 1) (SRunning token progress).

Definition spec_write (s s' : spec) (id : Z) (j : spec_job) : Prop :=
  forall k, sp_jobs s' k = if k =? id then Some j else sp_jobs s k.

Definition quiet (s s' : spec) : Prop := sp_last s' = sp_last s /\ sp_started s' = sp_started s.

Inductive spec_step (s s' : spec) : Prop :=
| spec_submit id j :
    sp_last s < id -> sp_jobs s id = None -> sp_state j = SQueued -> sp_attempt j = 0 ->
    valid (sp_policy j) = true ->
    spec_write s s' id j -> sp_last s' = id -> sp_started s' = sp_started s -> spec_step s s'
| spec_start id j token :
    sp_jobs s id = Some j -> sp_state j = SQueued ->
    (forall k j' progress, sp_jobs s k = Some j' -> sp_state j' <> SRunning token progress) ->
    spec_write s s' id (started j token 0) -> sp_last s' = sp_last s ->
    sp_started s' = id :: sp_started s -> spec_step s s'
| spec_progress id j token p p' :
    sp_jobs s id = Some j -> sp_state j = SRunning token p -> p <= p' <= 99 ->
    spec_write s s' id (with_state j (SRunning token p')) -> quiet s s' -> spec_step s s'
| spec_finish id j token p st :
    sp_jobs s id = Some j -> sp_state j = SRunning token p -> terminal st ->
    spec_write s s' id (with_state j st) -> quiet s s' -> spec_step s s'
| spec_retry id j token p :
    sp_jobs s id = Some j -> sp_state j = SRunning token p -> sp_policy j = RecoveryRetry ->
    spec_write s s' id (with_state j SQueued) -> quiet s s' -> spec_step s s'
| spec_retire :
    (forall k, sp_jobs s' k = sp_jobs s k \/
       (sp_jobs s' k = None /\ exists j, sp_jobs s k = Some j /\ terminal (sp_state j))) ->
    quiet s s' -> spec_step s s'.

(** ** The abstraction *)
Definition abs_state (r : jobModel) : spec_state :=
  match State r with
  | StateQueued => SQueued
  | StateRunning => SRunning (default EmptyString (LeaseToken r)) (Progress r)
  | StateSucceeded => SSucceeded (default EmptyString (ResultJSON r))
  | StateFailed => SFailed (default EmptyString (Failure r))
  end.

Definition abs_job (r : jobModel) : spec_job :=
  mk_spec_job (Kind r) (RequestJSON r) (Recovery r) (Attempt r) (abs_state r).

Definition abs (s : sys) : spec :=
  {| sp_jobs id := abs_job <$> select_first (fun r => ID r =? id) (jobs (store s));
     sp_last := jobs_seq (store s);
     sp_started := claimed s |}.

Lemma abs_Some s r : db_ok (store s) -> r ∈ jobs (store s) -> sp_jobs (abs s) (ID r) = Some (abs_job r).
Proof.
  intros Hok Hr. simpl. destruct (select_first _ _) as [r'|] eqn:Hs.
  - apply select_first_Some in Hs as [Hr' Heq%Z.eqb_eq]. simpl. do 2 f_equal.
    eapply (keys_sorted_unique ID); eauto. apply Hok.
  - exfalso. apply (proj1 (select_first_None _ _)) with (r := r) in Hs; [|done].
    by rewrite Z.eqb_refl in Hs.
Qed.

Lemma abs_inv s id j :
  sp_jobs (abs s) id = Some j -> exists r, r ∈ jobs (store s) /\ ID r = id /\ j = abs_job r.
Proof.
  simpl. destruct (select_first _ _) as [r|] eqn:Hs; [|done]. intros [= <-].
  apply select_first_Some in Hs as [Hr Heq%Z.eqb_eq]. eauto.
Qed.

Lemma abs_None s id :
  (forall r, r ∈ jobs (store s) -> ID r <> id) -> sp_jobs (abs s) id = None.
Proof.
  intros H. simpl. rewrite (proj2 (select_first_None _ _)); [done|].
  intros r Hr. apply Z.eqb_neq. auto.
Qed.

Lemma abs_eq s s' k :
  db_ok (store s) -> db_ok (store s') ->
  (forall r, ID r = k -> r ∈ jobs (store s') <-> r ∈ jobs (store s)) ->
  sp_jobs (abs s') k = sp_jobs (abs s) k.
Proof.
  intros Hok Hok' Heq. destruct (sp_jobs (abs s') k) as [j|] eqn:Hj.
  - apply abs_inv in Hj as (r & Hr & <- & ->). symmetry. apply abs_Some; [done|]. by apply Heq.
  - symmetry. apply abs_None. intros r Hr Hk. apply Heq in Hr; [|done].
    rewrite <-Hk, (abs_Some _ _ Hok' Hr) in Hj. done.
Qed.

Lemma transition_write s s' r0 r1 progress :
  db_ok (store s) -> db_ok (store s') -> transition (store s) (store s') r0 r1 progress ->
  ID r1 = ID r0 -> spec_write (abs s) (abs s') (ID r0) (abs_job r1).
Proof.
  intros Hok Hok' [Hin Hrows _ _ _ _] Hid k. destruct (Z.eqb_spec k (ID r0)) as [->|Hne].
  - rewrite <-Hid. apply abs_Some; [done|]. apply Hrows. auto.
  - apply abs_eq; [done..|]. intros r Hr. rewrite Hrows. naive_solver.
Qed.

Section refinement.
Context (config : Config) (handlers : registry).
Local Abbreviation sys_step := (sys_step config handlers).

Lemma submit_refines s d' row :
  sys_ok s -> inserted (store s) d' row -> spec_step (abs s) (abs (with_store s d')).
Proof.
  intros Hs Hins. pose proof (sys_db _ Hs) as Hok. pose proof (inserted_ok _ _ _ Hok Hins) as Hok'.
  pose proof (inserted_above _ _ _ Hok Hins) as Habove.
  destruct Hins as [Hj Hid Hseq _ _ Hst Hrow Hatt _].
  apply (spec_submit _ _ (ID row) (abs_job row)); simpl; try done.
  - lia.
  - apply (abs_None s). intros r Hr Heq. specialize (Habove _ Hr). lia.
  - unfold abs_state. by rewrite Hst.
  - by destruct Hrow as [_ [? _]].
  - intros k. destruct (Z.eqb_spec k (ID row)) as [->|Hne].
    + apply (abs_Some (with_store s d') row); [done|]. simpl. rewrite Hj. apply elem_of_app. right.
      by apply list_elem_of_singleton.
    + apply (abs_eq s (with_store s d')); [done..|]. intros r Hr. simpl. rewrite Hj, elem_of_app, list_elem_of_singleton.
      naive_solver.
Qed.

(** A finished or moved row as a step of the specification. *)
Lemma owned_refines s s' r0 r1 progress token :
  sys_ok s -> sys_ok s' -> transition (store s) (store s') r0 r1 progress ->
  claimed s' = claimed s -> same_job r0 r1 -> Attempt r1 = Attempt r0 ->
  State r0 = StateRunning -> LeaseToken r0 = Some token ->
  match State r1 with
  | StateQueued => Recovery r0 = RecoveryRetry
  | StateRunning => LeaseToken r1 = Some token /\ Progress r0 <= Progress r1 <= 99
  | _ => True
  end -> spec_step (abs s) (abs s').
Proof.
  intros Hs Hs' Htr Hcl Hsame Hatt Hrun Htok Hcase.
  destruct Hsame as (Hid & Hk & _ & _ & Hreq & Hpol & _).
  pose proof (transition_write _ _ _ _ _ (sys_db _ Hs) (sys_db _ Hs') Htr Hid) as Hw.
  assert (Hq : quiet (abs s) (abs s')) by (split; [apply Htr|done]).
  assert (H0 : sp_jobs (abs s) (ID r0) = Some (abs_job r0)) by (apply abs_Some; [apply Hs|apply Htr]).
  assert (Hst : sp_state (abs_job r0) = SRunning token (Progress r0))
    by (simpl; unfold abs_state; by rewrite Hrun, Htok).
  assert (Hj : abs_job r1 = with_state (abs_job r0) (abs_state r1))
    by (unfold with_state; simpl; rewrite <-Hk, <-Hreq, <-Hpol, <-Hatt; done).
  rewrite Hj in Hw. destruct (State r1) eqn:Hs1.
  - eapply spec_retry; [done..| |done]. unfold abs_state in Hw. by rewrite Hs1 in Hw.
  - destruct Hcase as [Ht1 Hp]. eapply (spec_progress _ _ _ _ _ _ (Progress r1)); [done..| |done].
    unfold abs_state in Hw. by rewrite Hs1, Ht1 in Hw.
  - eapply (spec_finish _ _ _ _ _ _ (abs_state r1)); try done. unfold abs_state. by rewrite Hs1.
  - eapply (spec_finish _ _ _ _ _ _ (abs_state r1)); try done. unfold abs_state. by rewrite Hs1.
Qed.

Lemma claim_refines s s' owner now token r0 :
  sys_ok s -> sys_ok s' -> token ∉ used s ->
  transition (store s) (store s') r0 (set_claimed config now owner token r0) (Progress r0) ->
  State r0 = StateQueued -> claimed s' = ID r0 :: claimed s -> spec_step (abs s) (abs s').
Proof.
  intros Hs Hs' Hfresh Htr Hq Hcl.
  pose proof (transition_write _ _ _ _ _ (sys_db _ Hs) (sys_db _ Hs') Htr eq_refl) as Hw.
  assert (Hp : Progress r0 = 0).
  { destruct (ok_rows _ (sys_db _ Hs) r0) as [Hst _]; [apply Htr|].
    unfold state_ok in Hst. rewrite Hq in Hst. naive_solver. }
  apply (spec_start _ _ (ID r0) (abs_job r0) token).
  - apply abs_Some; [apply Hs|apply Htr].
  - simpl. unfold abs_state. by rewrite Hq.
  - intros k j' progress (r & Hr & _ & ->)%abs_inv. simpl. unfold abs_state.
    destruct (State r) eqn:Hst; try done. intros [= Heq _].
    destruct (ok_rows _ (sys_db _ Hs) _ Hr) as [Hok _]. unfold state_ok in Hok. rewrite Hst in Hok.
    destruct Hok as ((_ & [t Ht] & _) & _). rewrite Ht in Heq. simpl in Heq. subst t.
    by apply Hfresh, (sys_token _ Hs r).
  - unfold abs_job, abs_state in Hw. simpl in Hw. by rewrite Hp in Hw.
  - simpl. apply Htr.
  - done.
Qed.

Lemma prune_refines s fault now :
  sys_ok s -> spec_step (abs s) (abs (with_store s (pruneRetired config fault now (store s)))).
Proof.
  intros Hs. pose proof (sys_db _ Hs) as Hok. pose proof (prune_ok config fault now _ Hok) as Hok'.
  apply spec_retire.
  - intros k. destruct (sp_jobs (abs s) k) as [j|] eqn:Hj.
    + apply abs_inv in Hj as (r & Hr & <- & ->).
      destruct (swept config fault now r) eqn:Hsw.
      * right. split.
        -- apply abs_None. intros r' [Hr' Hsw']%elem_of_prune Heq.
           assert (r' = r) as -> by (by eapply (keys_sorted_unique ID); [apply Hok|..]). congruence.
        -- eexists. split; [done|]. unfold swept, retired, Terminal in Hsw. split_andb.
           simpl. unfold abs_state. by destruct (State r).
      * left. apply (abs_Some (with_store s _) r); [done|]. by apply elem_of_prune.
    + left. apply abs_None. intros r [Hr _]%elem_of_prune Heq.
      by rewrite <-Heq, (abs_Some _ _ Hok Hr) in Hj.
  - split; [|done]. simpl. unfold pruneRetired. by case_match.
Qed.

Definition spec_eq (a b : spec) : Prop := (forall k, sp_jobs b k = sp_jobs a k) /\ quiet a b.

Lemma abs_store_eq s s' : store s' = store s -> claimed s' = claimed s -> spec_eq (abs s) (abs s').
Proof. intros Hst Hcl. unfold spec_eq, quiet, abs. simpl. by rewrite Hst, Hcl. Qed.

Lemma heartbeat_refines s s' fault now id token r :
  sys_ok s -> sys_ok s' -> heartbeatLease config fault now id token (store s) = (r, store s') ->
  claimed s' = claimed s -> spec_eq (abs s) (abs s').
Proof.
  intros Hs Hs' Hh Hcl. unfold heartbeatLease in Hh.
  destruct fault; [injection Hh as _ Hst; by apply abs_store_eq|].
  assert (Hst : store s' = with_jobs (store s)
            (update_where (owned id token) (set_heartbeat config now) (jobs (store s))))
    by (case_match; congruence).
  split; [|split; simpl; by rewrite ?Hst].
  intros k. destruct (sp_jobs (abs s) k) as [j|] eqn:Hj.
  - apply abs_inv in Hj as (q & Hq & <- & ->).
    set (q' := if owned id token q then set_heartbeat config now q else q).
    assert (Hq' : q' ∈ jobs (store s')) by (rewrite Hst; apply elem_of_update_where; eauto).
    assert (Hid : ID q' = ID q) by (unfold q'; by destruct (owned id token q)). rewrite <-Hid.
    rewrite (abs_Some _ _ (sys_db _ Hs') Hq'). unfold q'. by destruct (owned id token q).
  - apply abs_None. intros q' Hq'. rewrite Hst in Hq'.
    apply elem_of_update_where in Hq' as (q & Hq & ->). intros Heq.
    assert (ID q = k) as <- by (by destruct (owned id token q)).
    by rewrite (abs_Some _ _ (sys_db _ Hs) Hq) in Hj.
Qed.

Lemma recover_refines s i fault now job rest ph r d' :
  sys_ok s -> procs s i = Recovering now (job :: rest) ->
  recover_job fault now job (store s) = (r, d') -> sys_ok (set_proc s d' i ph) ->
  spec_eq (abs s) (abs (set_proc s d' i ph)) \/ spec_step (abs s) (abs (set_proc s d' i ph)).
Proof.
  intros Hs Hi Hr Hs'. pose proof (sys_phase _ Hs i) as Hph. rewrite Hi in Hph. simpl in Hph.
  apply Forall_cons in Hph as [(_ & _ & Hpol) _].
  apply recover_job_spec in Hr as [(r0 & _ & Hin & Hid & Hex%expired_running & Htr)|[(_ & -> & _)|(e & _ & -> & _)]];
    [|left; by apply abs_store_eq..|apply Hs].
  right. specialize (Hpol _ Hin Hid).
  destruct (ok_rows _ (sys_db _ Hs) _ Hin) as [Hst _]. unfold state_ok in Hst. rewrite Hex in Hst.
  destruct Hst as ((_ & [t Ht] & _) & _).
  eapply (owned_refines s (set_proc s d' i ph)); [done..|apply Htr|done| | |done|done|].
  - unfold recovered, same_job. by case_match.
  - unfold recovered. by case_match.
  - unfold recovered. case_bool_decide; [|done]. simpl. congruence.
Qed.

(** The simulation, one step. *)
Lemma step_refines s s' :
  sys_ok s -> sys_step s s' -> spec_eq (abs s) (abs s') \/ spec_step (abs s) (abs s').
Proof.
  intros Hs Hstep. pose proof (sys_step_ok _ _ _ _ Hs Hstep) as Hs'. pose proof (sys_db _ Hs) as Hdb.
  destruct Hstep as [fate now kind title request options policy r d' Hfate Hp
    |i owner now token model d' Hi Hfresh Hc|i fault now owner token e d' Hi Hc
    |i fault now model next message reply lost err model' d' Hi _ Hr
    |i fault now model p lost token r d' Hi Ht Hh|i fault shutdown now model out lost d' entries Hi Hc
    |i|i now Hi|i fault now job rest r d' Hi Hr|i now Hi|fault now].
  - apply persist_spec in Hp as [->|(m & row & _ & _ & Hins & _)]; try done.
    + left. by apply abs_store_eq.
    + right. by eapply submit_refines.
  - right. apply claim_spec in Hc as [(r0 & [= ->] & Hsel & Htr & _)|(e & [=] & _)]; [|done].
    apply select_first_Some in Hsel as [_ Hq%bool_decide_eq_true].
    by eapply claim_refines.
  - apply claim_spec in Hc as [(r0 & [=] & _)|(e' & _ & -> & _)]; [|done]. left. by apply abs_store_eq.
  - pose proof (sys_phase _ Hs i) as Hph. rewrite Hi in Hph. destruct Hph as (token & Ht & _ & Hp & _ & _).
    apply (report_spec _ _ _ _ _ _ _ _ _ _ token) in Hr; [|done|done|lia].
    destruct Hr as [(_ & -> & ->)|(r0 & -> & -> & _ & Hn & _ & Hin & How & Htr)]; [left; by apply abs_store_eq|].
    right. destruct (busy_row _ _ _ _ _ _ _ Hs Hi Ht Hin How) as (Hrun & _ & Hpr & _).
    apply owned_running in How as (_ & _ & Htok).
    eapply (owned_refines s (set_proc s d' i _)); [done..|apply Htr|done|unfold same_job; done|done|done|done|].
    simpl. rewrite Hrun. split; [done|lia].
  - left. by eapply heartbeat_refines.
  - pose proof (sys_phase _ Hs i) as Hph. rewrite Hi in Hph. destruct Hph as (token & Ht & _ & Hp & _ & _).
    apply (complete_spec _ _ _ _ _ _ _ _ _ token) in Hc; [|done..].
    destruct Hc as [->|(r0 & _ & _ & Hin & How & Hcase)]; [left; by apply abs_store_eq|]. right.
    destruct (busy_row _ _ _ _ _ _ _ Hs Hi Ht Hin How) as (Hrun & _ & Hpr & _).
    apply owned_running in How as (_ & _ & Htok).
    destruct Hcase as [(result & _ & Htr)|(failure & Htr)];
      (eapply (owned_refines s (set_proc s d' i _)); [done..|apply Htr|done|unfold same_job; done|done|done|done|done]).
  - left. by apply abs_store_eq.
  - left. by apply abs_store_eq.
  - by eapply recover_refines.
  - left. by apply abs_store_eq.
  - right. by eapply prune_refines.
Qed.
End refinement.
