(* ===== verification/JobProps.v ===== *)
(** * The queue: properties

    What submissions, workers, recovery and retention promise, for one operation
    and for every interleaving of processes. *)

From stdpp Require Import functions.
From S2P Require Import Prelude GoStrings Json Sql AuditLog Jobs JobQueue JobSystem JobSpec.

Local Open Scope Z_scope.

Section helpers.
Context (config : Config) (handlers : registry).
Local Abbreviation sys_step := (sys_step config handlers).
Local Abbreviation reachable := (reachable config handlers).

Lemma initial_abs k : sp_jobs (abs initial) k = None.
Proof. done. Qed.

(** A finished row survives a step as it is, or is pruned. *)
Lemma transition_terminal d d' r0 r1 progress r r' :
  db_ok d -> transition d d' r0 r1 progress -> ID r1 = ID r0 -> Terminal (State r0) = false ->
  r ∈ jobs d -> Terminal (State r) = true -> r' ∈ jobs d' -> ID r' = ID r -> r' = r.
Proof.
  intros Hok [Hin Hrows _ _ _ _] Hid Ht0 Hr Ht [->|[Hr' _]]%Hrows Heq.
  - assert (r0 = r) by (eapply (keys_sorted_unique ID); [apply Hok|done..|congruence]). congruence.
  - by eapply (keys_sorted_unique ID); [apply Hok|..].
Qed.

Lemma running_not_terminal r : State r = StateRunning -> Terminal (State r) = false.
Proof. by intros ->. Qed.
Lemma queued_not_terminal r : State r = StateQueued -> Terminal (State r) = false.
Proof. by intros ->. Qed.

Lemma step_terminal s s' r r' :
  sys_ok s -> sys_step s s' -> r ∈ jobs (store s) -> Terminal (State r) = true ->
  r' ∈ jobs (store s') -> ID r' = ID r -> r' = r.
Proof.
  intros Hs Hstep Hr Ht Hr' Heq. pose proof (sys_db _ Hs) as Hdb.
  assert (Hsame : store s' = store s -> r' = r).
  { intros Hst. rewrite Hst in Hr'. by eapply (keys_sorted_unique ID); [apply Hdb|..]. }
  destruct Hstep as [fate now kind title request options policy r1 d' Hfate Hp
    |i owner now token model d' Hi Hfresh Hc|i fault now owner token e d' Hi Hc
    |i fault now model next message reply lost err model' d' Hi _ Hrep
    |i fault now model p lost token r1 d' Hi Htok Hh|i fault shutdown now model out lost d' entries Hi Hc
    |i|i now Hi|i fault now job rest r1 d' Hi Hrec|i now Hi|fault now]; cbn [with_store set_proc store] in *; auto.
  - apply persist_spec in Hp as [->|(m & row & _ & _ & Hins & _)]; auto.
    pose proof (inserted_above _ _ _ Hdb Hins r Hr). rewrite (ins_jobs _ _ _ Hins) in Hr'.
    apply elem_of_app in Hr' as [Hr'|Hr'%list_elem_of_singleton]; [|subst; lia].
    by eapply (keys_sorted_unique ID); [apply Hdb|..].
  - apply claim_spec in Hc as [(r0 & _ & Hsel & Htr & _)|(e & [=] & _)]; [|done].
    apply select_first_Some in Hsel as [_ Hq%bool_decide_eq_true].
    eapply transition_terminal; eauto using queued_not_terminal.
  - apply claim_spec in Hc as [(r0 & [=] & _)|(e' & _ & -> & _)]; auto.
  - pose proof (sys_phase _ Hs i) as Hph. rewrite Hi in Hph. destruct Hph as (token & Htk & _ & Hp & _ & _).
    apply (report_spec _ _ _ _ _ _ _ _ _ _ token) in Hrep; [|done|done|lia].
    destruct Hrep as [(_ & _ & ->)|(r0 & _ & _ & _ & _ & _ & Hin & How & Htr)]; [auto|].
    apply owned_running in How as (_ & Hrun & _).
    eapply transition_terminal; eauto using running_not_terminal.
  - unfold heartbeatLease in Hh. destruct fault; [by apply Hsame; injection Hh as _ <-|].
    assert (d' = with_jobs (store s) (update_where (owned (ID model) token) (set_heartbeat config now)
              (jobs (store s)))) as -> by (case_match; congruence).
    apply elem_of_update_where in Hr' as (q & Hq & ->).
    assert (q = r) as ->.
    { eapply (keys_sorted_unique ID); [apply Hdb|done..|]. by destruct (owned (ID model) token q). }
    destruct (owned (ID model) token r) eqn:How; [|done].
    apply owned_running in How as (_ & Hrun & _). by rewrite Hrun in Ht.
  - pose proof (sys_phase _ Hs i) as Hph. rewrite Hi in Hph. destruct Hph as (token & Htk & _ & Hp & _ & _).
    apply (complete_spec _ _ _ _ _ _ _ _ _ token) in Hc; [|done..].
    destruct Hc as [->|(r0 & _ & _ & Hin & How & Hcase)]; [auto|].
    apply owned_running in How as (_ & Hrun & _).
    destruct Hcase as [(? & _ & Htr)|(? & Htr)]; eapply transition_terminal; eauto using running_not_terminal.
  - apply recover_job_spec in Hrec as [(r0 & _ & Hin & Hid & Hex%expired_running & Htr)|[(_ & -> & _)|(e & _ & -> & _)]];
      [|auto..|done].
    eapply transition_terminal; eauto using running_not_terminal. unfold recovered. by case_match.
  - apply elem_of_prune in Hr' as [Hr' _]. by eapply (keys_sorted_unique ID); [apply Hdb|..].
Qed.

(** A step keeps the rows' ids or adds one above all. *)
Lemma step_rows s s' :
  sys_ok s -> sys_step s s' ->
  jobs_seq (store s) <= jobs_seq (store s') /\
  forall q, q ∈ jobs (store s') ->
    (exists q0, q0 ∈ jobs (store s) /\ ID q0 = ID q) \/ jobs_seq (store s) < ID q.
Proof.
  intros Hs Hstep. pose proof (sys_step_ok _ _ _ _ Hs Hstep) as Hs'.
  destruct (step_refines _ _ _ _ Hs Hstep) as [[Heq [Hl _]]|Hsp].
  - simpl in Hl. split; [lia|]. intros q Hq. left. pose proof (abs_Some _ _ (sys_db _ Hs') Hq) as Hj.
    rewrite Heq in Hj. apply abs_inv in Hj as (q0 & ? & ? & _). eauto.
  - assert (Hb : forall q, q ∈ jobs (store s') -> sp_jobs (abs s) (ID q) <> None \/ jobs_seq (store s) < ID q).
    { intros q Hq. pose proof (abs_Some _ _ (sys_db _ Hs') Hq) as Hj.
      destruct Hsp as [k j Hlt _ _ _ _ Hw _ _|k j t Hk _ _ Hw _ _|k j t p p' Hk _ _ Hw _
        |k j t p st Hk _ _ Hw _|k j t p Hk _ _ Hw _|Hgone _].
      6: destruct (Hgone (ID q)) as [Hg|[Hg _]]; left; congruence.
      all: rewrite Hw in Hj; destruct (Z.eqb_spec (ID q) k) as [Hqk|]; [|left; congruence].
      1: right; simpl in Hlt; lia.
      all: left; rewrite Hqk; congruence. }
    split.
    + destruct Hsp as [? ? Hlt _ _ _ _ _ Hl _|? ? ? _ _ _ _ Hl _|? ? ? ? ? _ _ _ _ [Hl _]
        |? ? ? ? ? _ _ _ _ [Hl _]|? ? ? ? _ _ _ _ [Hl _]|_ [Hl _]]; simpl in *; lia.
    + intros q Hq. destruct (Hb q Hq) as [Hn|]; [left|by right].
      destruct (sp_jobs (abs s) (ID q)) as [j|] eqn:Hj; [|done].
      apply abs_inv in Hj as (q0 & ? & ? & _). eauto.
Qed.

(** The number of times a [fail] job was started, on the specification. *)
Definition starts (id : Z) (a : spec) : Z := rows_affected (Z.eqb id) (sp_started a).

Lemma starts_cons id id' l : rows_affected (Z.eqb id) (id' :: l) = (if id =? id' then 1 else 0) + rows_affected (Z.eqb id) l.
Proof.
  change (id' :: l) with ([id'] ++ l). rewrite rows_affected_app. f_equal. unfold rows_affected.
  simpl. by destruct (id =? id').
Qed.

(** The end of a handler whose token marks no row. *)
Lemma complete_unowned fault shutdown lost now model out d token :
  LeaseToken model = Some token -> (forall r, r ∈ jobs d -> owned (ID model) token r = false) ->
  complete fault shutdown lost now model out d = (d, []).
Proof.
  intros Ht Hno.
  assert (Hf : forall f st pr msg, exists e, fenced fault (ID model) token f st pr msg now d = (Err e, d)).
  { intros. unfold fenced, run_tx. destruct fault; [eauto|].
    rewrite (proj2 (rows_affected_0 _ _) Hno). simpl. eauto. }
  assert (Hfail : forall why, finishFailed fault now model why d = (d, [])).
  { intros why. unfold finishFailed, with_token. rewrite Ht. by edestruct Hf as [e ->]. }
  unfold complete. destruct lost; [done|]. destruct out; [|apply Hfail..| |apply Hfail].
  - unfold finishSucceeded, with_token. rewrite Ht. by edestruct Hf as [e ->].
  - destruct shutdown; [done|apply Hfail].
Qed.

(** Once submitted under the [fail] policy, [id] is started at most once, even after
    its row is gone. *)
Definition once (id : Z) (a : spec) : Prop :=
  id <= sp_last a /\ starts id a <= 1 /\
  forall j, sp_jobs a id = Some j -> sp_policy j = RecoveryFail /\
    (sp_state j = SQueued -> starts id a = 0).

Lemma spec_step_once id a b : once id a -> spec_eq a b \/ spec_step a b -> once id b.
Proof.
  unfold once, starts. intros (Hle & Hst & Hj) [[Heq [Hl Hs]]|Hstep].
  { rewrite Hl, Hs. setoid_rewrite Heq. done. }
  assert (Hw : forall k jk, spec_write a b k jk -> quiet a b -> forall j0, sp_jobs a k = Some j0 ->
      sp_policy jk = sp_policy j0 -> (sp_state jk = SQueued -> sp_state j0 = SQueued \/ sp_policy j0 = RecoveryRetry) ->
      id <= sp_last b /\ rows_affected (Z.eqb id) (sp_started b) <= 1 /\
      forall j, sp_jobs b id = Some j -> sp_policy j = RecoveryFail /\
        (sp_state j = SQueued -> rows_affected (Z.eqb id) (sp_started b) = 0)).
  { intros k jk Hw [Hl Hs] j0 Hj0 Hpol Hq. rewrite Hl, Hs. split_and!; [done..|].
    intros j. rewrite Hw. destruct (Z.eqb_spec id k) as [->|]; [|apply Hj].
    intros [= <-]. destruct (Hj _ Hj0) as [Hf Hz]. split; [congruence|].
    intros [?|Hr]%Hq; [auto|]. by rewrite Hf in Hr. }
  destruct Hstep as [k j Hlt Hnone Hqd Ha Hv Hwr Hl Hs|k j t Hk Hqd Hfr Hwr Hl Hs
    |k j t p p' Hk Hrun Hp Hwr Hq|k j t p st Hk Hrun Hterm Hwr Hq|k j t p Hk Hrun Hpol Hwr Hq|Hgone Hq].
  - rewrite Hl, Hs. split_and!; [lia|done|]. intros j'. rewrite Hwr, (proj2 (Z.eqb_neq _ _)) by lia. apply Hj.
  - rewrite Hl, Hs, starts_cons. destruct (Z.eqb_spec id k) as [->|Hne].
    + destruct (Hj _ Hk) as [Hf Hz]. specialize (Hz Hqd). split_and!; [done|lia|].
      intros j'. rewrite Hwr, Z.eqb_refl. by intros [= <-].
    + split_and!; [done|lia|]. intros j'. rewrite Hwr, (proj2 (Z.eqb_neq _ _)) by done. apply Hj.
  - by eapply Hw.
  - eapply Hw; eauto. simpl. by destruct st.
  - eapply Hw; eauto.
  - destruct Hq as [Hl Hs]. rewrite Hl, Hs. split_and!; [done..|]. intros j Hb.
    destruct (Hgone id) as [Heq|[Hnone _]]; [|congruence]. apply Hj. congruence.
Qed.

Lemma once_init s r :
  sys_ok s -> r ∈ jobs (store s) -> Recovery r = RecoveryFail -> once (ID r) (abs s).
Proof.
  intros Hs Hr Hf. pose proof (sys_claims _ Hs _ Hr) as Hcl. unfold claims in Hcl.
  destruct (ok_rows _ (sys_db _ Hs) _ Hr) as [_ (_ & _ & Hatt)]. destruct (Hatt Hf) as [H1 H0].
  unfold once, starts. rewrite (abs_Some s r (sys_db _ Hs) Hr). simpl sp_started. rewrite Hcl. split_and!.
  - by apply Hs.
  - done.
  - intros j [= <-]. split; [done|]. simpl. unfold abs_state. destruct (State r) eqn:Hst; try done. auto.
Qed.

Lemma steps_once id s s' : sys_ok s -> rtc sys_step s s' -> once id (abs s) -> once id (abs s').
Proof.
  intros Hs Hr. revert Hs. induction Hr as [|s1 s2 s3 Hstep Hr IH]; [done|]. intros Hs Ho.
  apply IH; [by eapply sys_step_ok|]. eapply spec_step_once; [done|by eapply step_refines].
Qed.
End helpers.

(** ** Every interleaving *)
Section interleavings.
Context (config : Config) (handlers : registry).
Local Abbreviation sys_step := (sys_step config handlers).
Local Abbreviation reachable := (reachable config handlers).

(** C1. Whatever processes do (submit, claim, report, heartbeat, finish, crash,
    recover, prune; any clock, any driver fault), the two tables keep their
    invariant: ids and sequences ascend below their counters, the lease columns are
    set exactly on running rows, terminal rows are stamped, progress is in range,
    idempotency keys are unique per kind, every event belongs to a row, and each
    row's event log is a legal run of the state machine ending in the row's state
    and progress. *)
Theorem job_tables_invariant s : reachable s -> db_ok (store s).
Proof. intros Hr. apply (reachable_ok _ _ _ Hr). Qed.

(** C2. The tables implement the abstract queue: every reachable step is invisible
    to the specification or is one of its steps. *)
Theorem job_queue_refines_spec s s' :
  reachable s -> sys_step s s' -> spec_eq (abs s) (abs s') \/ spec_step (abs s) (abs s').
Proof. intros Hr. by apply step_refines, (reachable_ok _ _ _ Hr). Qed.

(** C33. A job under the [fail] policy is started at most once, counting every start
    from its submission on, through crashes, lease expiry and recovery, and even
    after its row was pruned. *)
Theorem job_fail_policy_runs_once s s' r :
  reachable s -> r ∈ jobs (store s) -> Recovery r = RecoveryFail ->
  rtc sys_step s s' -> claims (ID r) s' <= 1.
Proof.
  intros Hr Hin Hf Hrun. pose proof (reachable_ok _ _ _ Hr) as Hs.
  by destruct (steps_once _ _ _ _ _ Hs Hrun (once_init _ _ Hs Hin Hf)) as (_ & ? & _).
Qed.

(** Terminal is final: a succeeded or failed row is never written again; later
    it is the same row or it was pruned. *)
Theorem job_terminal_is_final s s' r r' :
  reachable s -> rtc sys_step s s' -> r ∈ jobs (store s) -> Terminal (State r) = true ->
  r' ∈ jobs (store s') -> ID r' = ID r -> r' = r.
Proof.
  intros Hreach Hrun Hr Ht Hr' Heq. pose proof (reachable_ok _ _ _ Hreach) as Hs.
  assert (sys_ok s' /\ ID r <= jobs_seq (store s') /\ forall q, q ∈ jobs (store s') -> ID q = ID r -> q = r)
    as (_ & _ & Hall); [|by apply Hall].
  clear r' Hr' Heq. revert Hs. assert (Hseq : ID r <= jobs_seq (store s)).
  { by apply (ok_ids _ (sys_db _ (reachable_ok _ _ _ Hreach))). }
  assert (Hall : forall q, q ∈ jobs (store s) -> ID q = ID r -> q = r).
  { intros q Hq Heq. eapply (keys_sorted_unique ID); eauto. apply (sys_db _ (reachable_ok _ _ _ Hreach)). }
  clear Hreach Hr. induction Hrun as [|s1 s2 s3 Hstep Hrun IH]; [auto|]. intros Hs1.
  pose proof (sys_step_ok _ _ _ _ Hs1 Hstep) as Hs2.
  destruct (step_rows _ _ _ _ Hs1 Hstep) as [Hle Hback].
  apply IH; [lia| |done]. intros q Hq Heq.
  destruct (Hback q Hq) as [(q0 & Hq0 & Hid)|Hnew]; [|lia].
  assert (q0 = r) as -> by (apply Hall; congruence).
  by apply (step_terminal config handlers s1 s2 r q).
Qed.

(** Fencing: a process whose lease token no longer marks its job's row cannot
    write: a report is refused, a heartbeat reports the lease as lost, the end of
    the handler records nothing, and no table changes. *)
Theorem job_stale_worker_fenced s i model p lost token :
  reachable s -> procs s i = Busy model p lost -> LeaseToken model = Some token ->
  (forall r, r ∈ jobs (store s) -> ID r = ID model -> LeaseToken r <> Some token) ->
  (forall fault now next message err model' d',
     report config fault now model next message (store s) = (err, model', d') ->
     is_Some err /\ d' = store s) /\
  (forall fault now r d', heartbeatLease config fault now (ID model) token (store s) = (r, d') ->
     is_ok r = false /\ d' = store s) /\
  (forall fault shutdown lost' now out,
     complete fault shutdown lost' now model out (store s) = (store s, [])).
Proof.
  intros Hr Hi Ht Hlost. pose proof (reachable_ok _ _ _ Hr) as Hs. pose proof (sys_db _ Hs) as Hdb.
  pose proof (sys_phase _ Hs i) as Hph. rewrite Hi in Hph. destruct Hph as (t & Ht' & _ & Hp & _ & _).
  assert (Hno : forall r, r ∈ jobs (store s) -> owned (ID model) token r = false).
  { intros r Hin. apply not_true_iff_false. intros (Hid & _ & Htr)%owned_running. by apply (Hlost r). }
  split_and!.
  - intros fault now next message err model' d' Hrep.
    apply (report_spec _ _ _ _ _ _ _ _ _ _ token) in Hrep; [|done|done|lia].
    destruct Hrep as [(? & _ & ->)|(r0 & _ & _ & _ & _ & _ & Hin & How & _)]; [done|].
    by rewrite Hno in How.
  - intros fault now r d'. unfold heartbeatLease. destruct fault; [by intros [= <- <-]|].
    rewrite (proj2 (rows_affected_0 _ _) Hno), update_where_none by done. simpl.
    intros [= <- <-]. split; [done|]. by destruct (store s).
  - intros fault shutdown lost' now out. by apply complete_unowned with token.
Qed.

(** Two processes never own the same job. *)
Theorem job_single_owner s i j mi pi li mj pj lj ti tj ri rj :
  reachable s -> procs s i = Busy mi pi li -> procs s j = Busy mj pj lj ->
  LeaseToken mi = Some ti -> LeaseToken mj = Some tj ->
  ri ∈ jobs (store s) -> owned (ID mi) ti ri = true ->
  rj ∈ jobs (store s) -> owned (ID mj) tj rj = true ->
  ID mi = ID mj -> i = j.
Proof.
  intros Hr Hi Hj Hti Htj Hri (Hidi & _ & Htri)%owned_running Hrj (Hidj & _ & Htrj)%owned_running Heq.
  pose proof (reachable_ok _ _ _ Hr) as Hs.
  assert (ri = rj) as -> by (eapply (keys_sorted_unique ID); [apply (sys_db _ Hs)|done..|congruence]).
  eapply (sys_busy _ Hs); eauto. congruence.
Qed.
End interleavings.

(** ** Single operations *)

(** The model a submission builds from its normalised inputs. *)
Definition submission (now : Z) (kind title : string) (request : json) (sites : list string)
    (key : option string) (actor : option string) (policy : RecoveryPolicy) : jobModel :=
  queued_model (trim_space kind) title (marshal request) (marshal_strings sites) key actor policy now.

Lemma sameActor_spec l r : sameActor l r = bool_decide (l = r).
Proof. destruct l, r; simpl; try done. apply bool_decide_ext. naive_solver. Qed.

Lemma same_request_spec model r :
  same_request model r = bool_decide (RequestJSON r = RequestJSON model /\
    ScopeSiteIDs r = ScopeSiteIDs model /\ JobActor r = JobActor model).
Proof. unfold same_request. by rewrite sameActor_spec, !bool_decide_and, andb_assoc. Qed.

Lemma persist_unfold fate now kind title request options policy d sites key :
  trim_space kind <> EmptyString -> valid policy = true ->
  normalizeSiteIDs (SiteIDs options) = Ok sites ->
  normalizeIdempotencyKey (SubmitKey options) = Ok key ->
  persistSubmission fate now kind title (Some request) options policy d =
  let model := submission now kind title request sites key (Actor options) policy in
  match fate with
  | TxFails after lookup => (resolve_race model errDriver lookup after, after)
  | TxRuns => match submit_tx now model d with
              | Ok (m, created, d') => (Ok (m, created), d')
              | Err e => (resolve_race model e true d, d)
              end
  end.
Proof.
  intros Hk Hv Hs Hkey. unfold persistSubmission. rewrite bool_decide_eq_false_2 by done.
  rewrite Hv, Hs, Hkey. by destruct fate.
Qed.

(** Recovery of every interrupted job. *)
Lemma recover_jobs_spec faults n now snapshot d :
  db_ok d -> (forall job, job ∈ snapshot -> snapshot_ok d job) ->
  exists res d', recover_jobs faults n now snapshot d = (res, d') /\ db_ok d' /\
    map ID (jobs d') = map ID (jobs d) /\
    (forall r, r ∈ jobs d -> (forall job, job ∈ snapshot -> ID job <> ID r) \/ expired now r = false -> r ∈ jobs d') /\
    ((forall n, faults n = false) -> res = Ok tt /\
     forall r, r ∈ jobs d -> (exists job, job ∈ snapshot /\ ID job = ID r) -> expired now r = true ->
       recovered now r r ∈ jobs d').
Proof.
  revert n d. induction snapshot as [|job rest IH]; intros n d Hok Hsnap; cbn [recover_jobs].
  { exists (Ok tt), d. split_and!; [done..|]. split; [done|]. by intros r _ (job & ?%elem_of_nil & _). }
  destruct (recover_job (faults n) now job d) as [res d1] eqn:Hr.
  assert (Hj : snapshot_ok d job) by (apply Hsnap, elem_of_cons; auto).
  pose proof (recover_job_evolves _ _ _ _ _ _ Hok Hj Hr) as Hevo.
  assert (Hsnap1 : forall job', job' ∈ rest -> snapshot_ok d1 job').
  { intros job' Hin. destruct (Hsnap job') as (Hid & Hp & Hrec); [apply elem_of_cons; auto|].
    destruct Hevo as [_ Hseq Hrows]. split_and!; try lia.
    intros r' [(r & Hr0 & -> & -> & _)|(Hlt & _)]%Hrows Heq; [by apply Hrec|lia]. }
  destruct (IH (S n) d1 (evo_ok _ _ _ Hevo) Hsnap1) as (res' & d' & Hrun & Hok' & Hids & Hkeep & Hmove).
  apply recover_job_spec in Hr as [(r0 & -> & Hin0 & Hid0 & Hex0 & Htr)|[(-> & -> & Hnone)|(e & -> & -> & Hf)]]; [..|done].
  - exists res', d'. rewrite Hids, (tr_ids _ _ _ _ _ Htr). split_and!; try done.
    + intros r Hr Hcase. assert (Hne : ID r <> ID r0).
      { intros Heq. assert (r = r0) as -> by (eapply (keys_sorted_unique ID); eauto; apply Hok).
        destruct Hcase as [Hno|]; [|congruence]. apply (Hno job); [apply elem_of_cons; auto|done]. }
      apply Hkeep; [by apply Htr; auto|]. destruct Hcase as [Hno|]; [left|by right].
      intros job' Hj'. apply Hno, elem_of_cons. auto.
    + intros [Hres Hm]%Hmove. split; [done|].
      intros r Hr (job' & Hj' & Heq') Hex. destruct (decide (ID r = ID r0)) as [Heq|Hne].
      * assert (r = r0) as -> by (eapply (keys_sorted_unique ID); eauto; apply Hok).
        assert (Hsame : recovered now r0 r0 = recovered now job r0).
        { unfold recovered. destruct Hj as (_ & _ & Hrec). by rewrite (Hrec r0). }
        rewrite Hsame. apply Hkeep; [apply Htr; auto|]. right.
        unfold recovered, expired. by case_match.
      * apply Hm; [apply Htr; auto|exists job'|done].
        apply elem_of_cons in Hj' as [->|]; [congruence|done].
  - exists res', d'. split_and!; try done.
    + intros r Hr Hcase. apply Hkeep; [done|]. destruct Hcase as [Hno|]; [left|by right].
      intros job' Hj'. apply Hno, elem_of_cons. auto.
    + intros [Hres Hm]%Hmove. split; [done|]. intros r Hr (job' & Hj' & Heq') Hex. apply Hm; [done| |done]. exists job'.
      apply elem_of_cons in Hj' as [->|]; [|done]. rewrite Hnone in Hex by done. done.
  - exists (Err e), d. split_and!; try done. intros Hno. by rewrite Hno in Hf.
Qed.

Lemma recoverExpired_spec faults now d :
  db_ok d -> exists res d', recoverExpired faults now d = (res, d') /\ db_ok d' /\
    map ID (jobs d') = map ID (jobs d) /\
    (forall r, r ∈ jobs d -> expired now r = false -> r ∈ jobs d') /\
    ((forall n, faults n = false) -> res = Ok tt /\
     forall r, r ∈ jobs d -> expired now r = true -> recovered now r r ∈ jobs d').
Proof.
  intros Hok. unfold recoverExpired. destruct (faults 0%nat) eqn:Hf.
  { exists (Err errDriver), d. split_and!; try done. intros Hno. by rewrite Hno in Hf. }
  destruct (recover_jobs_spec faults 1 now (select_where (expired now) (jobs d)) d Hok)
    as (res & d' & Hrun & Hok' & Hids & Hkeep & Hmove).
  { apply Forall_forall, snapshot_expired. done. }
  exists res, d'. split_and!; [done..|by auto|]. intros [Hres Hm]%Hmove. split; [done|].
  intros r Hr Hex. apply Hm; [done| |done]. exists r. split; [|done]. by apply elem_of_select_where.
Qed.

Section operations.
Context (config : Config) (handlers : registry).

(** Submission under an idempotency key, on every branch.  When a row of that
    kind and key exists, the same request, site scope and actor get that row back,
    anything else is an idempotency conflict, and no table changes, whether the
    transaction ran or lost a race and was resolved by the second lookup.
    Otherwise a queued row with its event is created under a fresh id, and the
    same submission repeated at any later time returns that row. *)
Theorem job_submission_outcome now kind title request options policy d sites key :
  db_ok d -> trim_space kind <> EmptyString -> valid policy = true ->
  normalizeSiteIDs (SiteIDs options) = Ok sites ->
  normalizeIdempotencyKey (SubmitKey options) = Ok (Some key) ->
  let model := submission now kind title request sites (Some key) (Actor options) policy in
  let next := Z.max (jobs_seq d) (max_key ID (jobs d)) + 1 in
  match select_first (same_key (trim_space kind) key) (jobs d) with
  | Some r =>
      forall fate, fate = TxRuns \/ fate = TxFails d true ->
      persistSubmission fate now kind title (Some request) options policy d =
        (if bool_decide (RequestJSON r = marshal request /\ ScopeSiteIDs r = marshal_strings sites /\
                         JobActor r = Actor options)
         then Ok (r, false) else Err ErrIdempotencyConflict, d)
  | None =>
      exists d', persistSubmission TxRuns now kind title (Some request) options policy d =
        (Ok (with_id next model, true), d') /\ inserted d d' (stored_job next model) /\
      forall later title' policy', valid policy' = true ->
        persistSubmission TxRuns later kind title' (Some request) options policy' d' =
          (Ok (stored_job next model, false), d')
  end.
Proof.
  intros Hok Hk Hv Hs Hkey model next.
  assert (HK : Kind model = trim_space kind) by done.
  assert (HI : IdempotencyKey model = Some key) by done.
  destruct (select_first (same_key (trim_space kind) key) (jobs d)) as [r|] eqn:Hsel.
  - intros fate [-> | ->]; rewrite (persist_unfold _ _ _ _ _ _ _ _ sites (Some key)) by done;
      cbv zeta iota; fold model; unfold submit_tx, resolve_race; rewrite HI, HK, Hsel, same_request_spec;
      cbn [model RequestJSON ScopeSiteIDs JobActor submission queued_model]; by case_bool_decide.
  - pose proof (submit_tx_spec now (trim_space kind) title (marshal request) (marshal_strings sites)
                  (Some key) (Actor options) policy d Hok Hv) as Hspec. simpl in Hspec.
    destruct (submit_tx now _ d) as [[[m []] d']|e] eqn:Htx.
    2: destruct Hspec as (_ & _ & k & [= <-] & Hbad); congruence.
    2: destruct Hspec as (_ & k & r & [= <-] & Hbad & _); congruence.
    destruct Hspec as [-> Hins]. exists d'. split_and!; [|exact Hins|].
    + rewrite (persist_unfold _ _ _ _ _ _ _ _ sites (Some key)) by done. simpl.
      unfold submission. by rewrite Htx.
    + intros later title' policy' Hv'. rewrite (persist_unfold _ _ _ _ _ _ _ _ sites (Some key)) by done.
      unfold submit_tx. cbn [IdempotencyKey Kind submission queued_model].
      rewrite (ins_jobs _ _ _ Hins). rewrite select_first_app_none by exact Hsel.
      simpl. unfold same_key at 1. simpl. rewrite !bool_decide_eq_true_2 by done. simpl.
      by rewrite same_request_spec, bool_decide_eq_true_2.
Qed.

(** Recovery: run without a driver fault, [recoverExpired] succeeds, leaves no
    running row with an expired lease, puts exactly the expired [retry] jobs back
    into the queue, fails exactly the other expired ones, and writes no other row. *)
Theorem job_recovery_exact now d :
  db_ok d ->
  exists d', recoverExpired (fun _ => false) now d = (Ok tt, d') /\ db_ok d' /\
    (forall r', r' ∈ jobs d' <-> exists r, r ∈ jobs d /\
       r' = if expired now r then
              (if bool_decide (Recovery r = RecoveryRetry) then set_requeued now r
               else set_failed recovery_failure now r)
            else r) /\
    (forall r', r' ∈ jobs d' -> expired now r' = false).
Proof.
  intros Hok. destruct (recoverExpired_spec (fun _ => false) now d Hok) as (res & d' & Hrun & Hok' & Hids & Hkeep & Hmove).
  destruct Hmove as [-> Hmove]; [done|].
  set (after r := if expired now r then recovered now r r else r).
  assert (Hin : forall r, r ∈ jobs d -> after r ∈ jobs d')
    by (intros r Hr; unfold after; destruct (expired now r) eqn:Hex; auto).
  assert (Hiff : forall r', r' ∈ jobs d' <-> exists r, r ∈ jobs d /\ r' = after r).
  { intros r'. split; [|intros (r & Hr & ->); auto]. intros Hr'.
    assert (ID r' ∈ map ID (jobs d)) as (r & Hid & Hr)%list_elem_of_In%in_map_iff.
    { rewrite <-Hids. apply list_elem_of_In, in_map, list_elem_of_In, Hr'. }
    apply list_elem_of_In in Hr. exists r. split; [done|].
    eapply (keys_sorted_unique ID); [apply Hok'|done|by apply Hin|].
    unfold after, recovered. repeat case_match; done. }
  exists d'. split_and!; [exact Hrun|exact Hok'|exact Hiff|].
  intros r' (r & Hr & ->)%Hiff. unfold after. destruct (expired now r) eqn:Hex; [|done].
  unfold recovered, expired. by case_match.
Qed.

(** Retention: a sweep that runs removes exactly the terminal rows completed
    before the cutoff together with exactly their events; queued and running rows,
    younger rows and their event streams stay. *)
Theorem job_prune_exact now d :
  db_ok d -> 0 < RetentionPeriod config ->
  (forall r, r ∈ jobs (pruneRetired config false now d) <->
     r ∈ jobs d /\ ~ (Terminal (State r) = true /\ exists t, CompletedAt r = Some t /\
                      t < sql_time (now - RetentionPeriod config))) /\
  (forall e, e ∈ job_events (pruneRetired config false now d) <->
     e ∈ job_events d /\ exists r, r ∈ jobs (pruneRetired config false now d) /\ ID r = JobID e).
Proof.
  intros Hok Hpos. assert (Hret : forall r, swept config false now r = true <->
    Terminal (State r) = true /\ exists t, CompletedAt r = Some t /\ t < sql_time (now - RetentionPeriod config)).
  { intros r. unfold swept, retired. rewrite (proj2 (Z.leb_gt _ _)) by done. simpl.
    rewrite andb_true_iff. destruct (CompletedAt r) as [t|]; [rewrite Z.ltb_lt|]; naive_solver. }
  split.
  - intros r. rewrite elem_of_prune, <-Hret. by rewrite not_true_iff_false.
  - intros e. setoid_rewrite elem_of_prune.
    unfold pruneRetired. rewrite (proj2 (Z.leb_gt _ _)) by done. simpl.
    rewrite elem_of_delete_where, bool_decide_eq_false. split.
    + intros [He Hd]. split; [done|]. destruct (ok_events _ Hok _ He) as [_ (r & Hr & Heq)].
      exists r. split_and!; [done| |done]. apply not_true_iff_false. intros Hsw. apply Hd.
      rewrite <-Heq. apply list_elem_of_In, in_map, list_elem_of_In, elem_of_select_where.
      unfold swept in Hsw. split_andb. done.
    + intros [He (r & [Hr Hsw] & Heq)]. split; [done|].
      intros (r' & Hid & [Hr' Hrt]%list_elem_of_In%elem_of_select_where)%list_elem_of_In%in_map_iff.
      assert (r' = r) as -> by (eapply (keys_sorted_unique ID); [apply Hok|done..|congruence]).
      unfold swept in Hsw. rewrite (proj2 (Z.leb_gt _ _)), Hrt in Hsw by done. done.
Qed.
End operations.

(** ** Submissions of the other modules

    A submission without a key and without a scope: a fresh queued row and its audit
    entry, or nothing. *)
Lemma submit_titled_spec unmarshal_strings handlers fate now kind title request actor d r d' l :
  db_ok d -> trim_space kind = kind -> kind <> EmptyString ->
  SubmitTitledWithOptions unmarshal_strings handlers fate now kind title (Some request) (mk_submit actor [] EmptyString) d = (r, d', l) ->
  match r with
  | Ok job => exists row, inserted d d' row /\ Kind row = kind /\ RequestJSON row = marshal request /\ JobActor row = actor /\
      J_ID job = ID row /\ l = [submitted_entry actor (J_ID job) kind]
  | Err _ => l = [] /\ (fate = TxRuns -> d' = d)
  end.
Proof.
  intros Hok Htrim Hne. unfold SubmitTitledWithOptions. destruct (handlers !! kind) as [reg|]; [|by intros [= <- <- <-]].
  unfold persistSubmission. rewrite Htrim, bool_decide_eq_false_2 by done.
  destruct (valid (recoveryPolicy reg)) eqn:Hv; cbn [negb]; [|by intros [= <- <- <-]].
  change (normalizeSiteIDs (SiteIDs (mk_submit actor [] EmptyString))) with (Ok (E := error) (@nil string)).
  change (normalizeIdempotencyKey (SubmitKey (mk_submit actor [] EmptyString))) with (Ok (E := error) (@None string)).
  cbn iota. destruct fate as [|after lookup]; [|by intros [= <- <- <-]].
  pose proof (submit_tx_spec now kind title (marshal request) (marshal_strings []) None actor (recoveryPolicy reg) d Hok Hv) as Hspec.
  cbn zeta in Hspec. change (Actor (mk_submit actor [] EmptyString)) with actor.
  destruct (submit_tx now _ d) as [[[m created] d1]|e].
  - destruct created; [|destruct Hspec as (_ & _ & k & ? & _); done]. destruct Hspec as [-> Hins].
    intros [= <- <- <-]. eexists. split_and!; [exact Hins|done..].
  - destruct Hspec as (_ & k & r0 & ? & _). done.
Qed.

(** ** Registration *)

Lemma submit_kind fate now kind title request options policy d m d' :
  persistSubmission fate now kind title request options policy d = (Ok (m, true), d') ->
  Kind m = trim_space kind.
Proof.
  unfold persistSubmission. case_bool_decide; [done|]. destruct (valid policy); [|done]. simpl.
  destruct request as [request|]; [|done].
  destruct (normalizeSiteIDs _) as [sites|]; [|done].
  destruct (normalizeIdempotencyKey _) as [key|]; [|done].
  assert (Hrace : forall model e lookup d0, resolve_race model e lookup d0 <> Ok (m, true)).
  { intros. unfold resolve_race. repeat case_match; congruence. }
  destruct fate as [|after lookup]; [|intros [= Hbad _]; by apply Hrace in Hbad].
  unfold submit_tx. set (model := queued_model _ _ _ _ _ _ _ _).
  assert (Hcreate : forall r, (x ← insert_job d model; let '(id, d0) := x in
      Ok (E := error) (with_id id model, true, insert_event d0 id StateQueued 0 "Job queued." now)) = r ->
      match r with Ok (m', c, _) => c = true /\ Kind m' = trim_space kind | Err e => True end).
  { intros r <-. by destruct (insert_job d model) as [[id d0]|]. }
  destruct (IdempotencyKey model) as [k|].
  - destruct (select_first _ _) as [existing|].
    + destruct (same_request model existing); [done|]. intros [= Hbad _]. by apply Hrace in Hbad.
    + specialize (Hcreate _ eq_refl). destruct (_ ≫= _) as [[[m' c] d0]|e].
      * intros [= -> _ _]. by destruct Hcreate.
      * intros [= Hbad _]. by apply Hrace in Hbad.
  - specialize (Hcreate _ eq_refl). destruct (_ ≫= _) as [[[m' c] d0]|e].
    + intros [= -> _ _]. by destruct Hcreate.
    + intros [= Hbad _]. by apply Hrace in Hbad.
Qed.

(** A kind with white space around it is accepted by registration and by
    submission, but its jobs cannot run: the row carries the trimmed kind, no
    handler is found under it, and the worker's execution fails the job as having
    no handler. *)
Theorem job_padded_kind_never_runs config kind h policy handlers handlers' now title request options d m d' :
  RegisterHandlerWithOptions kind (Some h) policy handlers = Ok handlers' ->
  trim_space kind <> kind -> handlers !! trim_space kind = None ->
  persistSubmission TxRuns now kind title request options policy d = (Ok (m, true), d') ->
  handlers' !! kind = Some (mk_registration h policy) /\
  forall r e n d1, Kind r = Kind m ->
    execute config handlers' e n r d1 = finishFailed (fails e n) (clock e n) r unavailable d1.
Proof.
  intros Hreg Hne Hnone Hsub. apply submit_kind in Hsub. unfold RegisterHandlerWithOptions in Hreg.
  case_bool_decide; [done|]. destruct (negb (valid policy)); [done|].
  destruct (handlers !! kind); [done|]. injection Hreg as <-. split; [apply lookup_insert_eq|].
  intros r e n d1 Hk. unfold execute, handler_prog. rewrite Hk, Hsub.
  assert (<[kind:=mk_registration h policy]> handlers !! trim_space kind = None) as ->; [|done].
  rewrite <-Hnone. apply lookup_insert_ne. congruence.
Qed.

(** ** The worker's pass

    A pass of the worker's loop over a queue nobody else touches, whatever fails in
    it: each claimed job is executed, whatever its handler does. *)
Section drain.
Context (config : Config) (handlers : registry).

(** [d'] differs from [d] at row [id] only. *)
Definition only_row (id : Z) (d d' : db) : Prop :=
  forall r, ID r <> id -> r ∈ jobs d' <-> r ∈ jobs d.

Lemma only_row_trans id d1 d2 d3 : only_row id d1 d2 -> only_row id d2 d3 -> only_row id d1 d3.
Proof. intros H1 H2 r Hr. by rewrite (H2 r Hr), (H1 r Hr). Qed.

Lemma transition_only_row d d' r0 r1 progress :
  transition d d' r0 r1 progress -> ID r1 = ID r0 -> only_row (ID r0) d d'.
Proof.
  intros [_ Hrows _ _ _ _] Hid r Hr. rewrite Hrows. split; [|auto].
  intros [->|[? _]]; [by destruct Hr|done].
Qed.

(** The row the worker owns while it runs [model]. *)
Definition holds (model : jobModel) (token : string) (d : db) : Prop :=
  LeaseToken model = Some token /\ 0 <= Progress model <= 99 /\
  exists r, r ∈ jobs d /\ owned (ID model) token r = true /\ Progress r = Progress model.

Definition finished (id : Z) (d : db) : Prop :=
  exists r, r ∈ jobs d /\ ID r = id /\ Terminal (State r) = true.

Lemma holds_fenced model token f s progress message now d :
  db_ok d -> holds model token d -> (forall r, ID (f r) = ID r) ->
  (forall r, State r = StateRunning -> State (f r) = s) ->
  exists r0 d', fenced false (ID model) token f s progress message now d = (Ok tt, d') /\
    r0 ∈ jobs d /\ owned (ID model) token r0 = true /\ transition d d' r0 (f r0) progress.
Proof.
  intros Hok (_ & _ & r & Hr & How & _) Hid Hst.
  destruct (fenced false _ _ _ _ _ _ _ _) as [res d'] eqn:Hf.
  apply fenced_spec in Hf; [|done..].
  destruct Hf as [(r0 & -> & ? & ? & ? & _)|(e & _ & _ & Hno)]; [by exists r0, d'|].
  destruct Hno as [_ Hno]; [done|]. by rewrite Hno in How.
Qed.

(** Without faults the end of a handler always finishes its row. *)
Lemma complete_finishes now model out d token :
  db_ok d -> holds model token d ->
  let d' := (complete false false false now model out d).1 in
  db_ok d' /\ finished (ID model) d' /\ only_row (ID model) d d'.
Proof.
  intros Hok Hh. pose proof Hh as (Ht & Hp & _).
  assert (Hfail : forall why, let d' := (finishFailed false now model why d).1 in
            db_ok d' /\ finished (ID model) d' /\ only_row (ID model) d d').
  { intros why. unfold finishFailed, with_token. rewrite Ht.
    destruct (holds_fenced model token (set_failed (failure_message why) now) StateFailed (Progress model)
                "Job failed." now d Hok Hh) as (r0 & d' & -> & Hin & (<- & Hrun & _)%owned_running & Htr);
      [done..|]. simpl. split_and!.
    - by eapply failed_ok.
    - eexists. split_and!; [apply Htr; by left|done..].
    - by eapply transition_only_row. }
  unfold complete. destruct out as [result|why|why|why|value]; try apply Hfail.
  unfold finishSucceeded, with_token. rewrite Ht.
  destruct (holds_fenced model token (set_succeeded result now) StateSucceeded 100
              "Job completed." now d Hok Hh) as (r0 & d' & -> & Hin & (<- & Hrun & _)%owned_running & Htr);
    [done..|]. simpl. split_and!.
  - by eapply succeeded_ok.
  - eexists. split_and!; [apply Htr; by left|done..].
  - by eapply transition_only_row.
Qed.

(** The row has left the queue. *)
Definition unqueued (id : Z) (d : db) : Prop :=
  exists r, r ∈ jobs d /\ ID r = id /\ State r <> StateQueued.

Lemma finished_unqueued id d : finished id d -> unqueued id d.
Proof. intros (r & Hr & Hid & Ht). exists r. split_and!; [done..|]. intros Hq. by rewrite Hq in Ht. Qed.

Lemma holds_unqueued model token d : holds model token d -> unqueued (ID model) d.
Proof. intros (_ & _ & r & Hr & (Hid & Hrun & _)%owned_running & _). exists r. by rewrite Hrun. Qed.

(** Nothing fails, and the worker keeps its lease and its context. *)
Definition calm_run (e : run) : Prop := (forall n, fails e n = false) /\ shutdown e = false /\ lost e = false.

(** The only row an execution leaves changed is its own, which is not queued; it is
    finished when nothing failed. *)
Record executed (calm : Prop) (id : Z) (d d' : db) : Prop := {
  ex_ok : db_ok d';
  ex_only : only_row id d d';
  ex_unqueued : unqueued id d';
  ex_finished : calm -> finished id d';
}.

Lemma executed_nothing (calm : Prop) model token d :
  db_ok d -> holds model token d -> ~ calm -> executed calm (ID model) d d.
Proof. intros Hok Hh Hno. by split; [|..|by eapply holds_unqueued|]. Qed.

Lemma complete_leaves fault shutdown lost now model out d token :
  db_ok d -> holds model token d ->
  executed (fault = false /\ shutdown = false /\ lost = false) (ID model) d
    (complete fault shutdown lost now model out d).1.
Proof.
  intros Hok Hh.
  assert (Hdone : forall P : Prop, executed P (ID model) d (complete false false false now model out d).1).
  { intros P. destruct (complete_finishes now model out d token Hok Hh) as (? & ? & ?).
    split; auto using finished_unqueued. }
  assert (Hno : forall P : Prop, ~ P -> executed P (ID model) d d) by (intros P; by apply executed_nothing with token).
  pose proof Hh as (Ht & _). destruct lost; [apply Hno; naive_solver|]. destruct fault.
  - assert (Hf : (complete true shutdown false now model out d).1 = d).
    { unfold complete, finishFailed, finishSucceeded, with_token. rewrite Ht. by destruct out, shutdown. }
    rewrite Hf. apply Hno. naive_solver.
  - destruct shutdown; [|apply Hdone]. destruct out; try apply Hdone. apply Hno. naive_solver.
Qed.

(** A handler, whatever it reports. *)
Lemma run_prog_leaves e p n model d token :
  db_ok d -> holds model token d -> executed (calm_run e) (ID model) d (run_prog config e n p model d).1.
Proof.
  revert n model d. induction p as [out|next message reply IH]; intros n model d Hok Hh; simpl.
  { destruct (complete_leaves (fails e n) (shutdown e) (lost e) (clock e n) model out d token Hok Hh) as [? ? ? Hfin].
    split; [done..|]. intros (? & ? & ?). auto. }
  destruct (report config (fails e n) (clock e n) model next message d) as [[err model'] d1] eqn:Hr.
  pose proof Hh as (Ht & Hp & r & Hrin & How & Hpr).
  apply (report_spec _ _ _ _ _ _ _ _ _ _ token) in Hr; [|done|done|lia].
  destruct Hr as [(_ & -> & ->)|(r0 & -> & -> & _ & Hn & _ & Hin & How0 & Htr)]; [by apply IH|].
  pose proof How0 as (Hid & Hrun & Htok)%owned_running.
  assert (r0 = r) as <-.
  { eapply (keys_sorted_unique ID); [apply Hok|done..|]. apply owned_running in How as [? _]. congruence. }
  assert (Hok1 : db_ok d1) by (eapply progress_ok; [done..|lia]).
  destruct (IH None (S n) (with_progress next model) d1 Hok1) as [Hok' Honly Hunq Hfin].
  { split_and!; [done|simpl; lia|simpl; lia|]. eexists. split_and!; [apply Htr; by left| |done].
    apply owned_running. done. }
  split; [done| |done..]. eapply only_row_trans; [|exact Honly].
  simpl. rewrite <-Hid. by eapply transition_only_row.
Qed.

Lemma execute_leaves e n model d token :
  db_ok d -> holds model token d -> executed (calm_run e) (ID model) d (execute config handlers e n model d).1.
Proof.
  intros Hok Hh. unfold execute, with_token. destruct (handler_prog handlers model) as [p|].
  - pose proof Hh as [-> _]. by apply run_prog_leaves with token.
  - destruct (complete_leaves (fails e n) false false (clock e n) model (Failed unavailable) d token Hok Hh)
      as [? ? ? Hfin]. split; [done..|]. intros (? & _). auto.
Qed.

(** One claim and its execution. *)
Lemma claim_execute fault now owner token e n d model d1 :
  db_ok d -> claim config fault now owner token d = (Ok model, d1) ->
  exists r0, select_first queued (jobs d) = Some r0 /\ ID model = ID r0 /\
    executed (calm_run e) (ID r0) d (execute config handlers e n model d1).1.
Proof.
  intros Hok Hc. apply claim_spec in Hc as [(r0 & [= ->] & Hsel & Htr & _)|(err & [=] & _)]; [|done].
  pose proof Hsel as [Hin Hq%bool_decide_eq_true]%select_first_Some.
  assert (Hok1 : db_ok d1) by (by eapply claimed_ok).
  assert (Hp : Progress r0 = 0).
  { destruct (ok_rows _ Hok _ Hin) as [Hs _]. unfold state_ok in Hs. rewrite Hq in Hs. naive_solver. }
  destruct (execute_leaves e n (claimed_model config now owner token r0) d1 token Hok1)
    as [Hok' Honly Hunq Hfin].
  { split_and!; [done|simpl; lia..|]. eexists. split_and!; [apply Htr; by left| |done].
    by apply owned_running. }
  exists r0. split_and!; [done..|]. split; [done| |done..]. eapply only_row_trans; [by eapply transition_only_row|done].
Qed.

Definition n_queued (d : db) : nat := length (select_where queued (jobs d)).

(** A queued row that leaves the queue makes it shorter. *)
Lemma queue_shrinks d d' r0 :
  db_ok d -> db_ok d' -> r0 ∈ jobs d -> queued r0 = true -> unqueued (ID r0) d' -> only_row (ID r0) d d' ->
  (n_queued d' < n_queued d)%nat.
Proof.
  intros Hok Hok' Hin Hq (r' & Hr' & Hid & Hout) Honly. unfold n_queued.
  assert (Hnd : NoDup (r0 :: select_where queued (jobs d'))).
  { apply NoDup_cons. split.
    - intros [Hin' _]%elem_of_select_where.
      assert (r' = r0) as -> by (by eapply (keys_sorted_unique ID); [apply Hok'|..]).
      by apply bool_decide_eq_true in Hq.
    - apply (keys_sorted_NoDup ID), keys_sorted_filter, Hok'. }
  apply (submseteq_length (r0 :: select_where queued (jobs d'))), NoDup_submseteq; [done|].
  intros r [->|[Hr Hrq]%elem_of_select_where]%elem_of_cons; apply elem_of_select_where; [done|].
  split; [|done]. apply (Honly r); [|done]. intros Heq.
  assert (r = r') as -> by (by eapply (keys_sorted_unique ID); [apply Hok'|done..|congruence]).
  by apply bool_decide_eq_true in Hrq.
Qed.

(** No driver fault in the pass, no lost lease, no shutdown. *)
Definition calm (c : pass) : Prop :=
  (forall n, recover_fails c n = false) /\ (forall n, claim_fails c n = false) /\ forall n, calm_run (runs c n).

(** The inner loop. *)
Lemma drain_spec fuel owner c n d :
  db_ok d -> (n_queued d < fuel)%nat ->
  exists d' stopped, drain config handlers fuel owner c n d = Some (d', stopped) /\ db_ok d' /\
    (stopped = true -> exists n, claim_cancelled c n = true) /\
    (forall r, r ∈ jobs d -> State r <> StateQueued -> r ∈ jobs d') /\
    (calm c -> stopped = false /\ (forall r, r ∈ jobs d' -> State r <> StateQueued) /\
      forall r, r ∈ jobs d -> State r = StateQueued -> finished (ID r) d').
Proof.
  revert n d. induction fuel as [|fuel IH]; intros n d Hok Hfuel; [lia|]. cbn [drain].
  destruct (claim config (claim_fails c n) (claim_at c n) owner (token c n) d) as [[model|e] d1] eqn:Hc.
  - destruct (claim_execute _ _ _ _ (runs c n) 0%nat _ _ _ Hok Hc) as (r0 & Hsel & Hid & [Hok2 Honly Hunq Hfin]).
    set (d2 := (execute config handlers (runs c n) 0 model d1).1) in *.
    pose proof Hsel as [Hin Hq]%select_first_Some.
    destruct (IH (S n) d2 Hok2) as (d' & stopped & Hrun & Hok' & Hstop & Hkeep & Hcalm).
    { pose proof (queue_shrinks _ _ _ Hok Hok2 Hin Hq Hunq Honly). lia. }
    exists d', stopped. split_and!; [done..| |].
    + intros r Hr Hrq. apply Hkeep; [|done]. apply Honly; [|done]. intros Heq.
      assert (r = r0) as -> by (by eapply (keys_sorted_unique ID); [apply Hok|..]).
      by apply bool_decide_eq_true in Hq.
    + intros Hc'. destruct (Hcalm Hc') as (? & ? & Hdone). split_and!; [done..|]. intros r Hr Hrq.
      destruct (decide (ID r = ID r0)) as [->|Hne]; [|apply Hdone; [by apply Honly|done]].
      destruct Hfin as (r' & Hr' & Hid' & Ht'); [by apply Hc'|]. exists r'. split_and!; [|done..].
      apply Hkeep; [done|]. intros Hbad. by rewrite Hbad in Ht'.
  - apply claim_spec in Hc as [(r0 & [=] & _)|(e' & [= <-] & -> & Hno)]; [|done].
    assert (exists stopped, match e with ErrNoRows => Some (d, false) | _ => Some (d, claim_cancelled c n) end = Some (d, stopped) /\
      (stopped = true -> claim_cancelled c n = true) /\ (e = ErrNoRows -> stopped = false)) as (stopped & Hr & Hs & Hz)
      by (destruct e; eauto 6; by eexists).
    exists d, stopped. split_and!; [done|done|by eauto|done|]. intros (_ & Hcf & _).
    destruct Hno as [-> Hno]; [apply Hcf|]. rewrite select_first_None in Hno. unfold queued in Hno.
    split_and!; [by apply Hz|..]; intros r Hr' Hq; specialize (Hno r Hr'); by rewrite Hq in Hno.
Qed.

(** C37. A pass of the worker, on a queue nobody else writes, always ends, whatever
    its handlers do in finitely many reports and whatever the driver fails: after at
    most one claim per row it is back at its signals, or returns because its context
    was cancelled; the tables keep their invariant, and a row that was neither queued
    nor running with an expired lease is untouched.  When nothing fails and no lease
    is lost, then after the pass no job is queued, every job that was queued is
    terminal, and so is every job whose lease had expired: run again under the retry
    policy, failed with the recovery message under the other. *)
Theorem job_pass_drains_queue owner c d :
  db_ok d ->
  exists d' stopped, turn config handlers owner (SignalWork c) d = Some (d', stopped) /\ db_ok d' /\
    (stopped = true -> recovery_cancelled c = true \/ exists n, claim_cancelled c n = true) /\
    (forall r, r ∈ jobs d -> State r <> StateQueued -> expired (recover_at c) r = false -> r ∈ jobs d') /\
    (calm c ->
      stopped = false /\ (forall r, r ∈ jobs d' -> State r <> StateQueued) /\
      (forall r, r ∈ jobs d -> State r = StateQueued \/ expired (recover_at c) r = true -> finished (ID r) d') /\
      (forall r, r ∈ jobs d -> expired (recover_at c) r = true -> Recovery r <> RecoveryRetry ->
         set_failed recovery_failure (recover_at c) r ∈ jobs d')).
Proof.
  intros Hok. cbn [turn].
  destruct (recoverExpired_spec (recover_fails c) (recover_at c) d Hok) as (res & d1 & -> & Hok1 & _ & Hkeep & Hmove).
  assert (Hq : forall r, State r = StateQueued -> expired (recover_at c) r = false)
    by (intros r Hr; unfold expired; by rewrite Hr).
  destruct res as [[]|e].
  2: { exists d1, (recovery_cancelled c). split_and!; [done..|by auto|by auto|].
       intros (Hrf & _). by destruct (Hmove Hrf) as [[=] _]. }
  destruct (drain_spec (S (length (jobs d1))) owner c 0 d1 Hok1) as (d' & stopped & Hrun & Hok' & Hstop & Hkeep' & Hcalm).
  { unfold n_queued, select_where. pose proof (List.filter_length_le queued (jobs d1)). lia. }
  exists d', stopped. split_and!; [done..|by auto|by auto|]. intros Hc.
  destruct (Hcalm Hc) as (Hst & Hnone & Hdone). destruct (Hmove (proj1 Hc)) as [_ Hmoved].
  assert (Hterm : forall r, r ∈ jobs d -> expired (recover_at c) r = true -> Recovery r <> RecoveryRetry ->
            set_failed recovery_failure (recover_at c) r ∈ jobs d').
  { intros r Hr Hex Hrec. apply Hkeep'; [|done]. specialize (Hmoved r Hr Hex). unfold recovered in Hmoved.
    by rewrite bool_decide_eq_false_2 in Hmoved. }
  split_and!; [done..| |done]. intros r Hr [Hrq|Hex]; [by apply Hdone; auto|].
  destruct (decide (Recovery r = RecoveryRetry)) as [Hrec|Hrec].
  - specialize (Hmoved r Hr Hex). unfold recovered in Hmoved. rewrite bool_decide_eq_true_2 in Hmoved by done.
    by apply (Hdone _ Hmoved).
  - exists (set_failed recovery_failure (recover_at c) r). split; [by apply Hterm|done].
Qed.
End drain.
