(* ===== verification/JobViews.v ===== *)
(** * What the API shows of the queue

    Site-scoped reads ([access.go]), the redaction of credential material
    ([redact.go]) and the request checks of the handlers ([http.go]).  SQLite's
    [json_each] and the JSON decoder are parameters; what the reads rely on is the
    round trip of the string arrays the queue itself wrote. *)

From Stdlib Require Import Ascii.
From stdpp Require Import functions.
From S2P Require Import Prelude GoStrings Json Sql AuditLog Jobs JobQueue JobSystem JobSpec JobProps.

Local Open Scope Z_scope.

(** ** Redaction *)

Definition redactedSecret : string := "[redacted]".

Definition credentialKeyFragments : list string :=
  ["password"; "passwd"; "secret"; "token"; "key"; "passphrase";
   "credential"; "auth"; "private"; "signature"; "salt"; "session"]%string.

Definition isCredentialKey (key : string) : bool :=
  let lowered := to_lower key in
  existsb (fun fragment => contains fragment lowered) credentialKeyFragments.

Fixpoint redactValue (value : json) : json :=
  match value with
  | JObj l =>
      JObj (map (fun kv => (kv.1, if isCredentialKey kv.1 then JStr redactedSecret
                                  else redactValue kv.2)) l)
  | JArr l => JArr (map redactValue l)
  | _ => value
  end.

Section redaction.
Context (unmarshal : string -> option json).

Definition redactRawJSON (raw : string) : string :=
  if bool_decide (raw = EmptyString) then raw
  else match unmarshal raw with
       | None => marshal (JStr redactedSecret)
       | Some decoded => marshal (redactValue decoded)
       end.

Definition redactJobForAPI (job : Job) : Job :=
  {| J_ID := J_ID job; J_Kind := J_Kind job; J_Title := J_Title job; J_State := J_State job;
     J_Progress := J_Progress job; J_Actor := J_Actor job; J_SiteIDs := J_SiteIDs job;
     J_Attempt := J_Attempt job; J_Request := redactRawJSON (J_Request job);
     J_Result := redactRawJSON (J_Result job); J_Failure := J_Failure job;
     J_CreatedAt := J_CreatedAt job; J_UpdatedAt := J_UpdatedAt job;
     J_StartedAt := J_StartedAt job; J_CompletedAt := J_CompletedAt job |}.

Definition redactJobsForAPI (jobs : list Job) : list Job := map redactJobForAPI jobs.
End redaction.

(** ** Site-scoped reads *)

(** The fields of a user the queue reads. *)
Record User := mk_user { UserID : string; Role : string }.

(** [SiteAccessPolicy.AccessibleSiteIDs]; [None]: no policy was set. *)
Definition site_policy : Type := option (User -> result error (bool * list string)).

Section access.
Context (json_each unmarshal_strings : string -> list string) (siteAccess : site_policy).

(** The rows the query of [scopeJobsForUser] lets through. *)
Definition scopeJobsForUser (user : User) : result error (jobModel -> bool) :=
  if negb (bool_decide (Role user = "developer"%string)) then Ok (fun _ => true)
  else match siteAccess with
  | None => Err errPolicyUnavailable
  | Some accessible =>
      '(all, siteIDs) ← accessible user;
      if (all : bool) then Ok (fun _ => true)
      else Ok (fun job =>
        bool_decide (JobActor job = Some (UserID user)) ||
        (negb (bool_decide (siteIDs = [])) &&
         (negb (bool_decide (ScopeSiteIDs job = "[]"%string)) &&
          forallb (fun site => bool_decide (site ∈ siteIDs)) (json_each (ScopeSiteIDs job)))))
  end.

Definition ListForUser (user : User) (limit : Z) (d : db) : result error (list Job) :=
  scoped ← scopeJobsForUser user;
  Ok (map (toJob unmarshal_strings)
        (take (Z.to_nat (jobs_limit limit)) (List.filter scoped (reverse (jobs d))))).

Definition GetForUser (user : User) (id : Z) (d : db) : result error Job :=
  scoped ← scopeJobsForUser user;
  match select_first (fun r => (ID r =? id) && scoped r) (jobs d) with
  | Some model => Ok (toJob unmarshal_strings model)
  | None => Err ErrNoRows
  end.

Definition EventsAfterForUser (user : User) (jobID sequence : Z) (d : db)
    : result error (list eventModel) :=
  _ ← GetForUser user jobID d;
  Ok (EventsAfter jobID sequence d).
End access.

(** ** Request checks *)

Inductive http_error := invalid_limit | invalid_job_id | invalid_event_id | invalid_delay.

(** The limit [listHTTP] asks for. *)
Definition listHTTP_limit (raw : string) : result http_error Z :=
  if bool_decide (raw = EmptyString) then Ok 50
  else match atoi raw with
       | Some parsed => if (parsed <? 1) || (200 <? parsed) then Err invalid_limit else Ok parsed
       | None => Err invalid_limit
       end.

Definition parseID (raw : string) : result http_error Z :=
  match atoi raw with
  | Some id => if id <? 1 then Err invalid_job_id else Ok id
  | None => Err invalid_job_id
  end.

(** Where an event stream resumes. *)
Definition last_event_id (raw : string) : result http_error Z :=
  if bool_decide (raw = EmptyString) then Ok 0
  else match atoi raw with
       | Some parsed => if parsed <? 0 then Err invalid_event_id else Ok parsed
       | None => Err invalid_event_id
       end.

(** ** Diagnostics *)

Definition diagnostics_steps : list (Z * string) :=
  [(20, "Checking control-panel persistence."); (50, "Checking durable progress events.");
   (80, "Checking worker cancellation.")]%string.

(** The reports of [diagnosticsHandler], then its result.  [cancelled progress]: the
    context is cancelled during the wait before that step; [error_text] is the
    text of an error. *)
Fixpoint diagnostics_reports (cancelled : Z -> bool) (error_text : error -> string)
    (steps : list (Z * string)) : prog :=
  match steps with
  | [] => Done (Returned (marshal (JObj [("healthy"%string, JBool true);
            ("checks"%string, JNum (itoa (Z.of_nat (length diagnostics_steps))))])))
  | (progress, message) :: rest =>
      if cancelled progress then Done (Canceled "context canceled")
      else Report progress message (fun err =>
        match err with
        | Some e => Done (Failed (error_text e))
        | None => diagnostics_reports cancelled error_text rest
        end)
  end.

(** [delay]: the decoded request in milliseconds, [None] when it does not decode. *)
Definition diagnosticsHandler (cancelled : Z -> bool) (error_text : error -> string) (delay : string -> option Z) (request : string) : prog :=
  match delay request with
  | None => Done (Failed "invalid diagnostics request")
  | Some input =>
      let delay := input * millisecond in
      let delay := if delay <=? 0 then 100 * millisecond else delay in
      if 2 * second <? delay then Done (Failed "diagnostics delay exceeds two seconds")
      else diagnostics_reports cancelled error_text diagnostics_steps
  end.

(** ** Properties *)

Definition is_marker (value : json) : bool :=
  match value with JStr s => bool_decide (s = redactedSecret) | _ => false end.

Lemma is_marker_eq value : is_marker value = true -> value = JStr redactedSecret.
Proof. destruct value; try done. intros ->%bool_decide_eq_true. done. Qed.

(** No value under a credential-shaped key but the marker. *)
Fixpoint withheld (value : json) : bool :=
  match value with
  | JObj l => forallb (fun kv => if isCredentialKey kv.1 then is_marker kv.2 else withheld kv.2) l
  | JArr l => forallb withheld l
  | _ => true
  end.

Lemma redactValue_withheld value : withheld (redactValue value) = true.
Proof.
  induction value as [| | | |l IH|l IH] using json_nested_ind; simpl; try done.
  - rewrite forallb_Forall, Forall_map. exact IH.
  - rewrite forallb_Forall, Forall_map. eapply Forall_impl; [exact IH|]. intros [k v] Hv. simpl in *.
    by destruct (isCredentialKey k).
Qed.

Lemma withheld_redactValue value : withheld value = true -> redactValue value = value.
Proof.
  induction value as [| | | |l IH|l IH] using json_nested_ind; simpl; try done.
  - rewrite forallb_Forall. intros Hl. f_equal. rewrite <-(map_id l) at 2.
    apply map_ext_in. intros v Hv%list_elem_of_In. rewrite Forall_forall in IH, Hl. auto.
  - rewrite forallb_Forall. intros Hl. f_equal. rewrite <-(map_id l) at 2.
    apply map_ext_in. intros [k v] Hv%list_elem_of_In. rewrite Forall_forall in IH, Hl.
    specialize (IH _ Hv). specialize (Hl _ Hv). simpl in *.
    destruct (isCredentialKey k); [by rewrite (is_marker_eq _ Hl)|].
    by rewrite IH.
Qed.

(** What [secureid.Hex] and the prefix [site_] put into a site's id. *)
Definition site_id (s : string) : Prop := all_bytes plain_byte s = true.

Section properties.
Context (unmarshal : string -> option json).

(** Redaction is complete and changes nothing else: a payload that is shown is
    empty, or the encoding of a value in which every member with a
    credential-shaped name holds the marker, at any depth; a payload that cannot be
    decoded is withheld whole; one without credentials is shown as it decodes; and
    redacting twice is redacting once. *)
Theorem job_redaction_complete raw :
  (raw = EmptyString /\ redactRawJSON unmarshal raw = EmptyString) \/
  exists value, redactRawJSON unmarshal raw = marshal value /\ withheld value = true /\
    redactValue value = value /\
    match unmarshal raw with
    | None => value = JStr redactedSecret
    | Some decoded => value = redactValue decoded /\ (withheld decoded = true -> value = decoded)
    end.
Proof.
  unfold redactRawJSON. case_bool_decide as Hraw; [left; done|right].
  destruct (unmarshal raw) as [decoded|].
  - exists (redactValue decoded). pose proof (redactValue_withheld decoded).
    split_and!; auto using withheld_redactValue.
  - by exists (JStr redactedSecret).
Qed.

Context (json_each unmarshal_strings : string -> list string) (siteAccess : site_policy).
Context (json_each_strings : forall l, Forall site_id l -> json_each (marshal_strings l) = l).

Lemma marshal_strings_empty l : Forall site_id l -> marshal_strings l = "[]"%string -> l = [].
Proof.
  intros Hl H. apply (f_equal json_each) in H. rewrite json_each_strings in H by done.
  change "[]"%string with (marshal_strings []) in H. by rewrite json_each_strings in H by done.
Qed.

(** What a user may see: everything, unless a developer with site grants, who sees
    the jobs submitted by themself and those whose site scope is not empty and lies
    within the grants. *)
Definition may_see (user : User) (job : jobModel) : Prop :=
  Role user <> "developer"%string \/
  exists accessible all grants, siteAccess = Some accessible /\ accessible user = Ok (all, grants) /\
    (all = true \/ JobActor job = Some (UserID user) \/
     exists sites, ScopeSiteIDs job = marshal_strings sites /\ Forall site_id sites /\
       sites <> [] /\ sites ⊆ grants).

Lemma scope_spec user scoped job :
  (exists sites, ScopeSiteIDs job = marshal_strings sites /\ Forall site_id sites) ->
  scopeJobsForUser json_each siteAccess user = Ok scoped -> scoped job = true <-> may_see user job.
Proof.
  intros (sites & Hsites & Hids). unfold scopeJobsForUser, may_see.
  case_bool_decide as Hrole; simpl; [|intros [= <-]; split; auto].
  destruct siteAccess as [accessible|]; [|done].
  destruct (accessible user) as [[all grants]|e] eqn:Ha; simpl; [|done].
  assert (Hgoal : forall P : Prop, (Role user <> "developer"%string \/ P) <-> P) by tauto.
  rewrite Hgoal. destruct all; intros [= <-].
  { split; [|done]. intros _. exists accessible, true, grants. auto. }
  rewrite orb_true_iff, !andb_true_iff, !negb_true_iff, !bool_decide_eq_true, !bool_decide_eq_false,
    forallb_Forall, Hsites, json_each_strings, Forall_forall by done.
  setoid_rewrite bool_decide_eq_true. split.
  - intros [Hown|(Hg & Hne & Hall)]; exists accessible, false, grants; split_and!; try done; right; [by left|right].
    exists sites. split_and!; [done..|by intros ->|by intros x Hx; apply Hall].
  - intros (a & al & g & [= <-] & Hg & Hcase). rewrite Ha in Hg. injection Hg as <- <-.
    destruct Hcase as [|[Hown|(sites' & Heq & Hids' & Hne & Hsub)]]; [done|by left|right].
    assert (sites' = sites) as ->.
    { apply (f_equal json_each) in Heq. by rewrite !json_each_strings in Heq by done. }
    split_and!; [|by intros Hm%marshal_strings_empty|auto].
    intros ->. destruct sites as [|x l]; [done|]. assert (x ∈ (@nil string)) as Hx%elem_of_nil; [|done].
    apply Hsub, elem_of_cons. auto.
Qed.

(** Site scoping fails closed on every read path: a developer gets an error when
    no access policy is set or it fails, and otherwise [List], [Get] and the event
    stream return only jobs the user may see; [Get] returns every such job. *)
Theorem job_reads_are_scoped user d :
  (forall r, r ∈ jobs d -> exists sites, ScopeSiteIDs r = marshal_strings sites /\ Forall site_id sites) ->
  match scopeJobsForUser json_each siteAccess user with
  | Err e => Role user = "developer"%string /\
      (forall limit, ListForUser json_each unmarshal_strings siteAccess user limit d = Err e) /\
      (forall id, GetForUser json_each unmarshal_strings siteAccess user id d = Err e) /\
      (forall id n, EventsAfterForUser json_each unmarshal_strings siteAccess user id n d = Err e)
  | Ok _ =>
      (forall limit items, ListForUser json_each unmarshal_strings siteAccess user limit d = Ok items ->
         forall j, j ∈ items -> exists r, r ∈ jobs d /\ may_see user r /\ j = toJob unmarshal_strings r) /\
      (forall id, is_ok (GetForUser json_each unmarshal_strings siteAccess user id d) = true <->
         exists r, r ∈ jobs d /\ ID r = id /\ may_see user r) /\
      (forall id n events, EventsAfterForUser json_each unmarshal_strings siteAccess user id n d = Ok events ->
         exists r, r ∈ jobs d /\ ID r = id /\ may_see user r)
  end.
Proof.
  intros Hscope. destruct (scopeJobsForUser json_each siteAccess user) as [scoped|e] eqn:Hs.
  - assert (Hspec : forall r, r ∈ jobs d -> scoped r = true <-> may_see user r)
      by (intros r Hr; by eapply scope_spec; eauto).
    assert (Hget : forall id, is_ok (GetForUser json_each unmarshal_strings siteAccess user id d) = true <->
         exists r, r ∈ jobs d /\ ID r = id /\ may_see user r).
    { intros id. unfold GetForUser. rewrite Hs. simpl.
      destruct (select_first _ (jobs d)) as [r|] eqn:Hsel; simpl.
      - apply select_first_Some in Hsel as [Hr [Hid Hv]%andb_prop]. apply Z.eqb_eq in Hid.
        split; [|done]. intros _. exists r. by rewrite <-Hspec.
      - split; [done|]. intros (r & Hr & <- & Hv).
        apply (proj1 (select_first_None _ _)) with (r := r) in Hsel; [|done].
        apply Hspec in Hv; [|done]. by rewrite Z.eqb_refl, Hv in Hsel. }
    split_and!; [|done|].
    + intros limit items. unfold ListForUser. rewrite Hs. simpl. intros [= <-] j.
      intros (r & <- & Hr)%list_elem_of_In%in_map_iff. exists r.
      apply list_elem_of_In, elem_of_take in Hr as (i & Hi & _).
      apply list_elem_of_lookup_2, list_elem_of_In, filter_In in Hi as [Hr Hv].
      apply list_elem_of_In in Hr. rewrite elem_of_reverse in Hr. split_and!; [done|by apply Hspec|done].
    + intros id n events He. apply Hget. unfold EventsAfterForUser in He.
      by destruct (GetForUser _ _ _ _ _ _).
  - split_and!.
    + unfold scopeJobsForUser in Hs. by case_bool_decide.
    + intros limit. unfold ListForUser. by rewrite Hs.
    + intros id. unfold GetForUser. by rewrite Hs.
    + intros id n. unfold EventsAfterForUser, GetForUser. by rewrite Hs.
Qed.
End properties.

(** ** A concrete run of the queue

    One [fail] job is submitted and claimed, its lease expires, another process
    recovers it; the theorems on the queue applied along that run. *)
Module Queue.
Definition cfg : Config := mk_config second (30 * second) defaultRetentionPeriod defaultPruneInterval.
Definition handlers : registry :=
  <["platform.diagnostics"%string :=
      mk_registration (diagnosticsHandler (fun _ => false) (fun _ => "refused"%string) (fun _ => Some 100)) RecoveryRetry]>
  (<["site.apply"%string := mk_registration (fun _ => Done (Returned "{}")) RecoveryFail]> ∅).

Definition opts : SubmitOptions := mk_submit (Some "u1"%string) ["s2"; "s1"]%string "k1".
Definition d1 : db :=
  (persistSubmission TxRuns (5 * second) "site.apply" "Apply" (Some (JObj [])) opts RecoveryFail empty_db).2.
Definition row1 : jobModel :=
  default (with_id 0 (queued_model EmptyString EmptyString EmptyString EmptyString None None EmptyString 0)) (jobs d1 !! 0%nat).
Definition claim1 := claim cfg false (6 * second) "w1" "t1" d1.
Definition model1 : jobModel := claimed_model cfg (6 * second) "w1" "t1" row1.
Definition d2 : db := claim1.2.
Definition late : Z := 90 * second.
Definition d3 : db := (recoverExpired (fun _ => false) late d2).2.

Definition s1 : sys := with_store initial d1.
Definition s2 : sys :=
  {| store := d2; procs := <[0%nat := Busy model1 (start_prog handlers model1) false]> (procs s1);
     used := ["t1"%string]; claimed := [1] |}.
Definition s3 : sys := set_proc s2 d2 1 (Recovering late (select_where (expired late) (jobs d2))).
Definition s4 : sys := set_proc s3 d3 1 (Recovering late []).
Definition s5 : sys := set_proc s4 d3 1 Idle.

Lemma step1 : sys_step cfg handlers initial s1.
Proof.
  eapply (step_submit _ _ _ TxRuns (5 * second) "site.apply" "Apply" (Some (JObj [])) opts RecoveryFail); [by left|].
  apply surjective_pairing.
Qed.

Lemma step2 : sys_step cfg handlers s1 s2.
Proof.
  apply (step_claim cfg handlers s1 0%nat (6 * second) "w1" "t1" model1 d2); [done| |].
  - by intros ?%elem_of_nil.
  - vm_compute. reflexivity.
Qed.

Lemma step3 : sys_step cfg handlers s2 s3.
Proof. by apply (step_recover cfg handlers s2 1%nat late). Qed.

Lemma step4 : sys_step cfg handlers s3 s4.
Proof.
  apply (step_recover_job cfg handlers s3 1%nat false late
           (default row1 (jobs d2 !! 0%nat)) [] (Ok tt) d3); vm_compute; reflexivity.
Qed.

Lemma step5 : sys_step cfg handlers s4 s5.
Proof. by apply (step_recovered cfg handlers s4 1%nat late). Qed.

Lemma reach1 : reachable cfg handlers s1.
Proof. apply rtc_once, step1. Qed.
Lemma reach2 : reachable cfg handlers s2.
Proof. eapply rtc_r; [apply reach1|apply step2]. Qed.
Lemma reach4 : reachable cfg handlers s4.
Proof. eapply rtc_r; [eapply rtc_r; [apply reach2|apply step3]|apply step4]. Qed.

Definition failed_row : jobModel := default row1 (jobs d3 !! 0%nat).

Lemma job_tables_invariant_witness : db_ok d3 /\ length (jobs d3) = 1%nat.
Proof. split; [exact (job_tables_invariant cfg handlers s4 reach4)|reflexivity]. Defined.

Lemma job_queue_refines_spec_witness :
  spec_eq (abs s1) (abs s2) \/ spec_step (abs s1) (abs s2).
Proof. exact (job_queue_refines_spec cfg handlers s1 s2 reach1 step2). Defined.

Lemma job_fail_policy_runs_once_witness : claims 1 s4 <= 1.
Proof.
  apply (job_fail_policy_runs_once cfg handlers s1 s4 row1 reach1).
  - apply list_elem_of_lookup_2 with 0%nat. reflexivity.
  - reflexivity.
  - eapply rtc_l; [apply step2|]. eapply rtc_l; [apply step3|]. apply rtc_once, step4.
Defined.

Lemma job_terminal_is_final_witness : failed_row = failed_row.
Proof.
  apply (job_terminal_is_final cfg handlers s4 s5 failed_row failed_row reach4).
  - apply rtc_once, step5.
  - apply list_elem_of_lookup_2 with 0%nat. reflexivity.
  - reflexivity.
  - apply list_elem_of_lookup_2 with 0%nat. reflexivity.
  - reflexivity.
Defined.

Lemma job_stale_worker_fenced_witness :
  complete false false false (91 * second) model1 (Returned "{}") d3 = (d3, []).
Proof.
  apply (job_stale_worker_fenced cfg handlers s4 0%nat model1 (start_prog handlers model1) false "t1"
           reach4 eq_refl eq_refl).
  intros r Hr _. change (r ∈ [failed_row]) in Hr. apply list_elem_of_singleton in Hr as ->. vm_compute. discriminate.
Defined.

Lemma job_single_owner_witness : 0%nat = 0%nat.
Proof.
  assert (Hin : set_claimed cfg (6 * second) "w1" "t1" row1 ∈ jobs (store s2)).
  { apply list_elem_of_lookup_2 with 0%nat. reflexivity. }
  by apply (job_single_owner cfg handlers s2 0%nat 0%nat model1 (start_prog handlers model1) false
           model1 (start_prog handlers model1) false "t1" "t1" _ _ reach2 eq_refl eq_refl eq_refl eq_refl
           Hin eq_refl Hin eq_refl).
Defined.

Lemma d1_ok : db_ok d1.
Proof. apply (reachable_ok cfg handlers s1 reach1). Qed.
Lemma d2_ok : db_ok d2.
Proof. apply (reachable_ok cfg handlers s2 reach2). Qed.
Lemma d3_ok : db_ok d3.
Proof. apply (reachable_ok cfg handlers s4 reach4). Qed.

Lemma job_submission_outcome_witness :
  persistSubmission TxRuns (9 * second) "site.apply" "Again" (Some (JObj [])) opts RecoveryFail d1 =
  (Ok (row1, false), d1).
Proof.
  exact (job_submission_outcome (9 * second) "site.apply" "Again" (JObj []) opts RecoveryFail d1
          ["s1"; "s2"]%string "k1" d1_ok ltac:(discriminate) eq_refl eq_refl eq_refl TxRuns (or_introl eq_refl)).
Defined.

Lemma job_recovery_exact_witness : exists d', recoverExpired (fun _ => false) late d2 = (Ok tt, d') /\ db_ok d'.
Proof. destruct (job_recovery_exact late d2 d2_ok) as (d' & ? & ? & _). by exists d'. Defined.

Lemma job_prune_exact_witness : ~ failed_row ∈ jobs (pruneRetired cfg false (late + 8 * 24 * hour) d3).
Proof.
  destruct (job_prune_exact cfg (late + 8 * 24 * hour) d3 d3_ok ltac:(reflexivity)) as [Hrows _].
  intros [_ Hkeep]%Hrows. apply Hkeep. split; [reflexivity|]. eexists. split; reflexivity.
Defined.

(** The pass that recovers the first job and runs a second one. *)
Definition quiet_run : run := mk_run (fun _ => 91 * second) (fun _ => false) false false.
Definition late_pass : pass :=
  mk_pass late (fun _ => false) (fun _ => 91 * second) (fun _ => false) (fun _ => "t2"%string) (fun _ => quiet_run)
    false (fun _ => false).

Lemma job_pass_drains_queue_witness :
  exists d', turn cfg handlers "w1" (SignalWork late_pass) d2 = Some (d', false) /\
    forall r, r ∈ jobs d' -> State r <> StateQueued.
Proof.
  destruct (job_pass_drains_queue cfg handlers "w1" late_pass d2 d2_ok) as (d' & stopped & Ht & _ & _ & _ & Hcalm).
  destruct Hcalm as (-> & Hnone & _); [by repeat split|]. by exists d'.
Defined.

Definition idle_handler : Handler := fun _ => Done (Returned "{}").
Definition padded : registry := <[" x"%string := mk_registration idle_handler RecoveryFail]> ∅.
Definition padded_submission :=
  persistSubmission TxRuns (5 * second) " x" EmptyString (Some JNull) opts RecoveryFail empty_db.
Definition padded_row : jobModel :=
  match padded_submission.1 with Ok (m, _) => m | Err _ => row1 end.

Lemma job_padded_kind_never_runs_witness :
  execute cfg padded (mk_run (fun _ => 7 * second) (fun _ => false) false false) 0 padded_row d1 =
  finishFailed false (7 * second) padded_row unavailable d1.
Proof.
  apply (job_padded_kind_never_runs cfg " x" idle_handler RecoveryFail ∅ padded (5 * second)
    EmptyString (Some JNull) opts empty_db padded_row padded_submission.2);
    [reflexivity|vm_compute; discriminate|reflexivity|vm_compute; reflexivity|reflexivity].
Defined.

(** A developer granted one of the job's two sites does not see it. *)
Definition read_array (s : string) : list string := plain_items s None.
Definition developer : User := mk_user "u9" "developer".
Definition grants : site_policy := Some (fun _ => Ok (false, ["s1"%string])).

Lemma job_reads_are_scoped_witness :
  is_ok (GetForUser read_array read_array grants developer 1 d1) = true <->
  exists r, r ∈ jobs d1 /\ ID r = 1 /\ may_see grants developer r.
Proof.
  apply (job_reads_are_scoped read_array read_array grants plain_items_marshal developer d1).
  intros r Hr. change (r ∈ [row1]) in Hr. apply list_elem_of_singleton in Hr as ->.
  exists ["s1"; "s2"]%string. split; [reflexivity|]. repeat constructor.
Defined.

Example developer_refused : is_ok (GetForUser read_array read_array grants developer 1 d1) = false.
Proof. reflexivity. Qed.
End Queue.
