(* ===== verification/ModuleRegistry.v ===== *)
(** * The module registry

    [internal/platform/module/registry.go]: [ValidateAndSort] checks the
    descriptors of the panel's modules and orders them so that every module comes
    after its dependencies.  Go's maps are lists here, so the theorems also say
    that the iteration order of the maps does not matter. *)

From S2P Require Import Prelude GoStrings.

Local Open Scope Z_scope.

Record Descriptor := mk_descriptor {
  ID : string;
  Name : string;
  Version : string;
  Description : string;
  Dependencies : list string;
  RequiredCapabilities : list string;
  EstimatedIdleBytes : Z;
}.

Inductive error := errNil | errDescriptor | errDuplicate (id : string) | errMissing | errCycle.

(** The first loop: [None] is a nil module; the map [byID] as a list in the order
    of the modules. *)
Fixpoint validate (modules : list (option Descriptor)) (byID : list Descriptor)
    : result error (list Descriptor) :=
  match modules with
  | [] => Ok byID
  | None :: _ => Err errNil
  | Some d :: rest =>
      if bool_decide (ID d = EmptyString) || bool_decide (Name d = EmptyString) ||
         bool_decide (Version d = EmptyString) then Err errDescriptor
      else if bool_decide (ID d ∈ map ID byID) then Err (errDuplicate (ID d))
      else validate rest (byID ++ [d])
  end.

Definition dependencies_known (byID : list Descriptor) : bool :=
  forallb (fun d => forallb (fun dep => bool_decide (dep ∈ map ID byID)) (Dependencies d)) byID.

Definition id_le (a b : Descriptor) : Prop := str_le (ID a) (ID b).
#[export] Instance id_le_dec : RelDecision id_le.
Proof. intros a b. unfold id_le. apply _. Defined.

(** Whether every dependency of a module is resolved. *)
Definition ready (resolved : list string) (d : Descriptor) : bool :=
  forallb (fun dep => bool_decide (dep ∈ resolved)) (Dependencies d).

(** The rounds of the last loop; [None]: out of fuel. *)
Fixpoint rounds (fuel : nat) (remaining : list Descriptor) (ordered : list Descriptor)
    : option (result error (list Descriptor)) :=
  match fuel with
  | O => None
  | S f =>
      match remaining with
      | [] => Some (Ok ordered)
      | _ =>
          let resolved := map ID ordered in
          let round := merge_sort id_le (List.filter (ready resolved) remaining) in
          match round with
          | [] => Some (Err errCycle)
          | _ => rounds f (List.filter (fun d => negb (ready resolved d)) remaining) (ordered ++ round)
          end
      end
  end.

Definition ValidateAndSort (modules : list (option Descriptor)) : option (result error (list Descriptor)) :=
  match validate modules [] with
  | Err e => Some (Err e)
  | Ok byID =>
      if dependencies_known byID then rounds (S (length byID)) byID []
      else Some (Err errMissing)
  end.

(** ** Theory *)

(** Every module stands after its dependencies. *)
Fixpoint topological (before : list string) (l : list Descriptor) : Prop :=
  match l with
  | [] => True
  | d :: l' => Dependencies d ⊆ before /\ topological (before ++ [ID d]) l'
  end.

Lemma topological_mono b b' l : b ⊆ b' -> topological b l -> topological b' l.
Proof.
  revert b b'. induction l as [|d l IH]; intros b b' Hb; simpl; [done|].
  intros [Hd Hl]. split; [set_solver|]. eapply IH; [|done]. set_solver.
Qed.

Lemma topological_app b l1 l2 :
  topological b (l1 ++ l2) <-> topological b l1 /\ topological (b ++ map ID l1) l2.
Proof.
  revert b. induction l1 as [|d l1 IH]; intros b; simpl; [by rewrite app_nil_r; tauto|].
  rewrite IH, <-app_assoc. simpl. tauto.
Qed.

Lemma ready_spec resolved d : ready resolved d = true <-> Dependencies d ⊆ resolved.
Proof.
  unfold ready. rewrite forallb_Forall, Forall_forall.
  setoid_rewrite bool_decide_eq_true. set_solver.
Qed.

Lemma topological_ready b l : (forall d, d ∈ l -> Dependencies d ⊆ b) -> topological b l.
Proof.
  revert b. induction l as [|d l IH]; intros b Hall; simpl; [done|].
  split; [apply Hall; set_solver|]. apply IH. intros d' Hd'. specialize (Hall d'). set_solver.
Qed.

#[local] Instance id_le_total : Total id_le.
Proof. intros a b. apply str_leb_total. Qed.
#[local] Instance id_le_trans : Transitive id_le.
Proof. intros a b c. apply str_leb_trans. Qed.

Lemma merge_sort_ids l l' :
  l ≡ₚ l' -> NoDup (map ID l) -> merge_sort id_le l = merge_sort id_le l'.
Proof.
  intros Hp Hnd. set (s := merge_sort id_le l). set (s' := merge_sort id_le l').
  assert (Hs : s ≡ₚ s') by (unfold s, s'; by rewrite !merge_sort_Permutation).
  assert (Hnds : NoDup (map ID s)) by (unfold s; by rewrite merge_sort_Permutation).
  assert (H1 : StronglySorted id_le s) by (apply Sorted_StronglySorted; [apply _|apply Sorted_merge_sort, _]).
  assert (H2 : StronglySorted id_le s') by (apply Sorted_StronglySorted; [apply _|apply Sorted_merge_sort, _]).
  clearbody s s'. clear Hp Hnd l l'. revert s' Hs H2. induction H1 as [|a s Hs1 IH Ha]; intros s' Hs H2.
  { symmetry. by apply Permutation_nil_l in Hs. }
  destruct s' as [|b s']; [by apply Permutation_nil_r in Hs|].
  assert (a = b) as <-.
  { inversion H2 as [|? ? H2' Hb]; subst.
    assert (a ∈ b :: s') as Hab by (rewrite <-Hs; set_solver).
    assert (b ∈ a :: s) as Hba by (rewrite Hs; set_solver).
    rewrite Forall_forall in Ha, Hb. apply elem_of_cons in Hab as [?|Hab]; [done|].
    apply elem_of_cons in Hba as [?|Hba]; [done|].
    assert (ID a = ID b) as Hid by (apply str_leb_antisym; [by apply Ha|by apply Hb]).
    simpl in Hnds. apply NoDup_cons in Hnds as [Hn _]. exfalso. apply Hn. rewrite Hid.
    by apply list_elem_of_In, in_map, list_elem_of_In. }
  f_equal. apply IH; [by apply NoDup_cons in Hnds as [_ ?]|by apply Permutation_cons_inv in Hs|].
  by inversion H2.
Qed.

Lemma filter_partition {A} (p : A -> bool) l :
  List.filter p l ++ List.filter (fun x => negb (p x)) l ≡ₚ l.
Proof.
  induction l as [|x l IH]; simpl; [done|]. destruct (p x); simpl; [by rewrite IH|].
  by rewrite <-Permutation_middle, IH.
Qed.

Lemma filter_perm {A} (p : A -> bool) l l' : l ≡ₚ l' -> List.filter p l ≡ₚ List.filter p l'.
Proof.
  induction 1; simpl; [done|by case_match; [constructor|]|repeat case_match; by try constructor|etrans; eauto].
Qed.

(** What the rounds do, from any intermediate state. *)
Lemma rounds_sound fuel remaining ordered r :
  topological [] ordered -> rounds fuel remaining ordered = Some (Ok r) ->
  topological [] r /\ r ≡ₚ ordered ++ remaining.
Proof.
  revert remaining ordered. induction fuel as [|fuel IH]; intros remaining ordered Ht; [done|].
  destruct remaining as [|m rem]; [intros [= <-]; by rewrite app_nil_r|].
  cbn [rounds]. set (R := m :: rem). set (round := merge_sort id_le (List.filter (ready (map ID ordered)) R)).
  assert (Hin : forall d, d ∈ round -> ready (map ID ordered) d = true).
  { intros d. unfold round. rewrite merge_sort_Permutation.
    rewrite list_elem_of_In, filter_In. tauto. }
  assert (Hperm : round ++ List.filter (fun d => negb (ready (map ID ordered) d)) R ≡ₚ R).
  { unfold round. rewrite merge_sort_Permutation. apply filter_partition. }
  destruct round as [|d round']; [done|]. intros Hr. apply IH in Hr as [Htr Hp].
  - split; [done|]. by rewrite Hp, <-app_assoc, Hperm.
  - apply topological_app. split; [done|]. apply topological_ready. intros x Hx.
    rewrite app_nil_l. by apply ready_spec, Hin.
Qed.

(** A module that only waits for resolved ones is left while any order exists. *)
Lemma some_ready remaining ordered order :
  topological [] order -> order ≡ₚ ordered ++ remaining -> NoDup (map ID order) -> remaining <> [] ->
  List.filter (ready (map ID ordered)) remaining <> [].
Proof.
  intros Ht Hp Hnd Hne Hnil.
  assert (Hnone : forall d, d ∈ remaining -> ready (map ID ordered) d = false).
  { intros d Hd. apply not_true_iff_false. intros Hr.
    assert (d ∈ List.filter (ready (map ID ordered)) remaining) as Hin.
    { apply list_elem_of_In, filter_In. by rewrite <-list_elem_of_In. }
    rewrite Hnil in Hin. by apply elem_of_nil in Hin. }
  (* no member of the order can be unresolved: induct along it *)
  assert (Hall : forall l2 l1, order = l1 ++ l2 -> (forall d, d ∈ l1 -> d ∈ ordered) ->
                  forall d, d ∈ order -> d ∈ ordered).
  { induction l2 as [|m l2 IH]; intros l1 Heq Hl1.
    - intros d Hd. apply Hl1. by rewrite Heq, app_nil_r in Hd.
    - apply (IH (l1 ++ [m])); [by rewrite <-app_assoc|]. intros d [Hd|Hd]%elem_of_app; [auto|].
      apply list_elem_of_singleton in Hd as ->.
      assert (m ∈ ordered ++ remaining) as [|Hm]%elem_of_app by (rewrite <-Hp, Heq; set_solver); [done|].
      exfalso. specialize (Hnone _ Hm). apply not_true_iff_false in Hnone. apply Hnone, ready_spec.
      rewrite Heq, topological_app in Ht. destruct Ht as [_ [Hd _]]. simpl in Hd.
      intros dep Hdep%Hd. apply list_elem_of_In, in_map_iff in Hdep as (x & <- & Hx%list_elem_of_In).
      apply list_elem_of_In, in_map, list_elem_of_In. auto. }
  destruct remaining as [|m rem]; [done|].
  assert (m ∈ ordered) as Hm.
  { apply (Hall order []); [done|by intros d ?%elem_of_nil|]. rewrite Hp. set_solver. }
  rewrite Hp, map_app in Hnd. apply NoDup_app in Hnd as (_ & Hdis & _).
  apply (Hdis (ID m)); [by apply list_elem_of_In, in_map, list_elem_of_In|]. simpl. set_solver.
Qed.

Lemma rounds_complete fuel remaining ordered order :
  topological [] order -> order ≡ₚ ordered ++ remaining -> NoDup (map ID order) ->
  (length remaining < fuel)%nat -> exists r, rounds fuel remaining ordered = Some (Ok r).
Proof.
  revert remaining ordered. induction fuel as [|fuel IH]; intros remaining ordered Ht Hp Hnd Hf; [lia|].
  destruct remaining as [|m rem]; [by exists ordered|].
  pose proof (some_ready (m :: rem) ordered order Ht Hp Hnd ltac:(done)) as Hready.
  cbn [rounds]. set (R := m :: rem) in *. set (F := List.filter (ready (map ID ordered)) R) in *.
  set (G := List.filter (fun d => negb (ready (map ID ordered) d)) R).
  assert (Hpart : F ++ G ≡ₚ R) by apply filter_partition.
  assert (Hs : merge_sort id_le F ≡ₚ F) by apply merge_sort_Permutation.
  destruct (merge_sort id_le F) as [|d round] eqn:He.
  { apply Permutation_nil_l in Hs. congruence. }
  apply IH; [done|by rewrite Hp, <-app_assoc, Hs, Hpart|done|].
  apply Permutation_length in Hpart, Hs. rewrite length_app in Hpart. simpl in Hs.
  change (length R) with (S (length rem)) in *. lia.
Qed.

Lemma rounds_total fuel remaining ordered :
  (length remaining < fuel)%nat -> is_Some (rounds fuel remaining ordered).
Proof.
  revert remaining ordered. induction fuel as [|fuel IH]; intros remaining ordered Hf; [lia|].
  destruct remaining as [|m rem]; [by eexists|]. cbn [rounds]. set (R := m :: rem) in *.
  set (F := List.filter (ready (map ID ordered)) R).
  assert (Hpart : F ++ List.filter (fun d => negb (ready (map ID ordered) d)) R ≡ₚ R) by apply filter_partition.
  assert (Hs : merge_sort id_le F ≡ₚ F) by apply merge_sort_Permutation.
  destruct (merge_sort id_le F) as [|d round]; [by eexists|]. apply IH.
  apply Permutation_length in Hpart, Hs. rewrite length_app in Hpart. simpl in Hs.
  change (length R) with (S (length rem)) in *. lia.
Qed.

Lemma NoDup_map_filter {A B} (f : A -> B) p l : NoDup (map f l) -> NoDup (map f (List.filter p l)).
Proof.
  induction l as [|x l IH]; simpl; [done|]. intros [Hx Hl]%NoDup_cons.
  destruct (p x); simpl; [|auto]. apply NoDup_cons. split; [|auto]. intros Hin. apply Hx.
  apply list_elem_of_In, in_map_iff in Hin as (y & <- & [Hy _]%filter_In).
  by apply list_elem_of_In, in_map.
Qed.

Lemma rounds_perm fuel remaining remaining' ordered :
  remaining ≡ₚ remaining' -> NoDup (map ID remaining) ->
  rounds fuel remaining ordered = rounds fuel remaining' ordered.
Proof.
  revert remaining remaining' ordered. induction fuel as [|fuel IH]; intros R R' ordered Hp Hnd; [done|].
  assert (Hfil : forall p, NoDup (map ID (List.filter p R))) by (intros p; by apply NoDup_map_filter).
  destruct R as [|m R]; [by apply Permutation_nil_l in Hp as <-|].
  destruct R' as [|m' R']; [by apply Permutation_nil_r in Hp|]. cbn [rounds].
  rewrite (merge_sort_ids _ _ (filter_perm (ready (map ID ordered)) _ _ Hp) (Hfil _)).
  case_match; [done|]. by apply IH; [apply filter_perm|].
Qed.

(** ** Properties *)

Lemma Permutation_map_inv_Some {A} (l l' : list A) : map Some l ≡ₚ map Some l' -> l ≡ₚ l'.
Proof.
  intros Hp. apply (Permutation_flat_map (fun o => match o with Some x => [x] | None => [] end)) in Hp.
  rewrite !flat_map_concat_map, !map_map in Hp.
  assert (H : forall l : list A, concat (map (fun x => [x]) l) = l)
    by (intros l0; induction l0 as [|x l0 IH]; simpl; congruence).
  by rewrite !H in Hp.
Qed.

(** What the first loop accepts. *)
Lemma validate_Ok modules byID acc :
  validate modules acc = Ok byID ->
  exists l, modules = map Some l /\ byID = acc ++ l /\
    (NoDup (map ID acc) -> NoDup (map ID byID)) /\
    Forall (fun d => ID d <> EmptyString /\ Name d <> EmptyString /\ Version d <> EmptyString) l.
Proof.
  revert acc. induction modules as [|[d|] rest IH]; intros acc; simpl; [|case_match eqn:Hg|done].
  - intros [= <-]. exists []. split_and!; [done|by rewrite app_nil_r|done|constructor].
  - done.
  - destruct (bool_decide (ID d ∈ map ID acc)) eqn:Hdup; [done|]. intros (l & -> & -> & Hnd & Hl)%IH.
    apply orb_false_iff in Hg as [[Hg1 Hg2]%orb_false_iff Hg3]. split_andb.
    exists (d :: l). rewrite <-app_assoc in *. split_and!; [done..| |by constructor].
    intros Hacc. apply Hnd. rewrite map_app. apply NoDup_app. split_and!; [done| |apply NoDup_singleton].
    intros x Hx Hx'. simpl in Hx'. apply list_elem_of_singleton in Hx' as ->. done.
Qed.

Lemma validate_perm l l' acc byID :
  l ≡ₚ l' -> validate (map Some l) acc = Ok byID -> NoDup (map ID acc) ->
  validate (map Some l') acc = Ok (acc ++ l').
Proof.
  intros Hp Hv Hacc. apply validate_Ok in Hv as (l0 & Heq & -> & Hnd & Hall).
  assert (l0 = l) as -> by (symmetry; by apply (inj (map Some))). specialize (Hnd Hacc).
  rewrite Hp in Hnd, Hall. clear Hp Heq l. revert acc Hnd Hacc. induction l' as [|d l IH]; intros acc Hnd Hacc.
  { simpl. by rewrite app_nil_r. }
  apply Forall_cons in Hall as [(H1 & H2 & H3) Hall]. simpl.
  rewrite !bool_decide_eq_false_2 by done. simpl.
  rewrite map_app in Hnd. simpl in Hnd. pose proof Hnd as (_ & Hdis & Hnd2)%NoDup_app.
  rewrite bool_decide_eq_false_2 by (intros Hin; apply (Hdis _ Hin); set_solver).
  replace (acc ++ d :: l) with ((acc ++ [d]) ++ l) by (by rewrite <-app_assoc).
  apply IH; [done| |].
  - by rewrite !map_app, <-app_assoc.
  - rewrite map_app. apply NoDup_app. split_and!; [done| |apply NoDup_singleton].
    intros x Hx Hx'. apply list_elem_of_singleton in Hx' as ->. apply (Hdis _ Hx). set_solver.
Qed.

(** C39. The order is right and always found: [ValidateAndSort] returns; a success is
    a reordering of exactly the given modules with every module after its
    dependencies; and whenever some such order of valid modules with distinct ids
    exists, it succeeds, so the cycle error means that no order exists. *)
Theorem registry_order_sound_complete modules :
  (forall ordered, ValidateAndSort modules = Some (Ok ordered) ->
     topological [] ordered /\ map Some ordered ≡ₚ modules /\ NoDup (map ID ordered)) /\
  (ValidateAndSort modules = Some (Err errCycle) ->
     forall order, map Some order ≡ₚ modules -> ~ topological [] order) /\
  is_Some (ValidateAndSort modules).
Proof.
  unfold ValidateAndSort. destruct (validate modules []) as [byID|e] eqn:Hv.
  2: { split_and!; [done| |by eexists]. intros [= ->] order Hp.
       exfalso. clear order Hp. revert Hv. generalize (@nil Descriptor). induction modules as [|[d|] rest IH]; intros acc;
         simpl; [done|repeat case_match; try done; apply IH|done]. }
  apply validate_Ok in Hv as (l & -> & -> & Hnd & _). specialize (Hnd ltac:(constructor)). rewrite app_nil_l in *.
  destruct (dependencies_known l); [|split_and!; [done..|by eexists]].
  split_and!.
  - intros ordered Ho. apply rounds_sound in Ho as [Ht Hp]; [|done]. rewrite app_nil_l in Hp.
    split_and!; [done|by rewrite Hp|by rewrite Hp].
  - intros Hc order Hp Ht. assert (Hp' : order ≡ₚ l).
    { apply (Permutation_map_inv_Some order l Hp). }
    destruct (rounds_complete (S (length l)) l [] order Ht) as [r Hr]; [done|by rewrite Hp'|lia|congruence].
  - apply rounds_total. lia.
Qed.

(** The order is deterministic: it depends on the set of modules only, neither on
    the order they are listed in nor on the iteration order of Go's maps. *)
Theorem registry_order_deterministic l l' ordered :
  l ≡ₚ l' -> ValidateAndSort (map Some l) = Some (Ok ordered) ->
  ValidateAndSort (map Some l') = Some (Ok ordered).
Proof.
  intros Hp. unfold ValidateAndSort. destruct (validate (map Some l) []) as [byID|e] eqn:Hv; [|done].
  rewrite (validate_perm _ _ _ _ Hp Hv) by constructor. apply validate_Ok in Hv as (l0 & Heq & -> & Hnd & _).
  assert (l0 = l) as -> by (symmetry; by apply (inj (map Some))). rewrite !app_nil_l in *.
  specialize (Hnd ltac:(constructor)).
  assert (Hdk : dependencies_known l' = dependencies_known l).
  { apply eq_true_iff_eq. unfold dependencies_known. rewrite !forallb_Forall, <-Hp.
    apply Forall_iff. intros d. rewrite !forallb_Forall. apply Forall_iff. intros dep.
    rewrite !bool_decide_eq_true. by rewrite Hp. }
  rewrite Hdk. destruct (dependencies_known l); [|done].
  rewrite (rounds_perm _ _ _ [] Hp Hnd). by rewrite (Permutation_length Hp).
Qed.

(** ** A concrete registry *)
Definition sample_module (id : string) (deps : list string) : Descriptor :=
  mk_descriptor id id "0.1.0" EmptyString deps [] 0.
Definition sample_modules : list Descriptor :=
  [sample_module "jobs" ["audit"; "identity"]; sample_module "identity" ["audit"]; sample_module "audit" []]%string.

Example sample_order :
  ValidateAndSort (map Some sample_modules) = Some (Ok (rev sample_modules)).
Proof. reflexivity. Qed.

Lemma registry_order_deterministic_witness :
  ValidateAndSort (map Some (rev sample_modules)) = Some (Ok (rev sample_modules)).
Proof.
  apply (registry_order_deterministic sample_modules); [apply Permutation_rev|reflexivity].
Defined.
