(* ===== verification/Safeguard.v ===== *)
(** * Timed automatic reverts

    [internal/modules/safeguard/safeguard.go]: a risky host change is armed with a
    revert that fires on a server timer unless an operator confirms in time.  The
    state of a process is the table [lockout_reverts], the map of timers, the bodies
    of expired timers and the wait group that shutdown waits on.  A body is split
    where other goroutines can run: taking the lock, loading the row, running the
    executor, recording the outcome. *)

From S2P Require Import Prelude GoStrings Json Sql.

Local Open Scope Z_scope.

(** ** Data *)

Inductive rstate := StateArmed | StateConfirmed | StateReverted | StateRevertFailed.
#[export] Instance rstate_eq_dec : EqDecision rstate.
Proof. solve_decision. Defined.

Definition DefaultWindow : Z := 2 * minute.
Definition executeTimeout : Z := 2 * minute.

Record revertModel := mk_revert {
  ID : string;
  Domain : string;
  Subject : string;
  Summary : string;
  ReasonsJSON : string;
  PayloadJSON : string;
  ActorUserID : option string;
  JobID : Z;
  RevertJobID : Z;
  ArmedAt : Z;
  ExpiresAt : Z;
  ConfirmedAt : option Z;
  State : rstate;
  Failure : string;
}.

Record ArmRequest := mk_arm {
  a_Domain : string;
  a_Subject : string;
  a_Summary : string;
  a_Reasons : option (list string);     (* [None]: the nil slice *)
  a_Payload : option json;              (* [None]: does not encode *)
  a_JobID : Z;
  a_Actor : option string;
}.

Inductive error := errRequired | errEncode | errDriver | ErrNotFound | errRegistered (domain : string).

(** What an executor answers: the job that carries the revert, or why it failed. *)
Definition Executor : Type := revertModel -> Z * option string.

(** A timer body: launched by the runtime, then past the load of its row, then with
    the executor's answer. *)
Inductive body :=
| Launched (id : string)
| Loaded (revert : revertModel)
| Executed (id : string) (jobID : Z) (failure : option string).

(** [timers]: [true] while the runtime timer is pending.  [executed] is a ghost: the
    reverts whose executor ran. *)
Record guard := mk_guard {
  reverts : list revertModel;
  timers : gmap string bool;
  bodies : list body;
  running : Z;
  closed : bool;
  started : bool;
  executed : list string;
}.

Definition with_reverts (g : guard) (rows : list revertModel) : guard :=
  mk_guard rows (timers g) (bodies g) (running g) (closed g) (started g) (executed g).
Definition with_bodies (g : guard) (l : list body) : guard :=
  mk_guard (reverts g) (timers g) l (running g) (closed g) (started g) (executed g).

Definition set_state (s : rstate) (confirmed : option Z) (failure : string) (job : Z) (r : revertModel)
    : revertModel :=
  mk_revert (ID r) (Domain r) (Subject r) (Summary r) (ReasonsJSON r) (PayloadJSON r) (ActorUserID r)
    (JobID r) job (ArmedAt r) (ExpiresAt r) confirmed s failure.

Definition is_armed (id : string) (r : revertModel) : bool :=
  bool_decide (ID r = id) && bool_decide (State r = StateArmed).

(** ** Operations *)
Section operations.
Context (window : Z) (executors : gmap string Executor).

(** The window a guard is built with; [None]: no option was given. *)
Definition WithWindow (option_window : option Z) : Z :=
  match option_window with
  | Some w => if 0 <? w then w else DefaultWindow
  | None => DefaultWindow
  end.

Definition Register (domain : string) (executor : option Executor) (known : gmap string Executor)
    : result error (gmap string Executor) :=
  match executor with
  | None => Err errRequired
  | Some e =>
      if bool_decide (domain = EmptyString) then Err errRequired
      else match known !! domain with
           | Some _ => Err (errRegistered domain)
           | None => Ok (<[domain := e]> known)
           end
  end.

(** [time.AfterFunc] with the ticket of the wait group. *)
Definition schedule (id : string) (g : guard) : guard :=
  match timers g !! id with
  | Some _ => g
  | None =>
      if closed g then g
      else mk_guard (reverts g) (<[id := true]> (timers g)) (bodies g) (running g + 1) (closed g)
             (started g) (executed g)
  end.

(** The delay a timer is set to. *)
Definition schedule_delay (expiresAt now : Z) : Z := Z.max 0 (time_sub expiresAt now).

Definition stopTimer (id : string) (g : guard) : guard :=
  let pending := bool_decide (timers g !! id = Some true) in
  mk_guard (reverts g) (delete id (timers g)) (bodies g) (if pending then running g - 1 else running g)
    (closed g) (started g) (executed g).

Definition marshal_reasons (reasons : option (list string)) : string :=
  match reasons with None => marshal JNull | Some l => marshal_strings l end.

(** [id] is the fresh identifier; a primary key already taken is a driver error. *)
Definition Arm (fault : bool) (id : string) (now : Z) (request : ArmRequest) (g : guard)
    : result error revertModel * guard :=
  if bool_decide (a_Domain request = EmptyString) || bool_decide (a_Subject request = EmptyString)
  then (Err errRequired, g)
  else match a_Payload request with
  | None => (Err errEncode, g)
  | Some payload =>
      let model := mk_revert id (a_Domain request) (a_Subject request) (a_Summary request)
        (marshal_reasons (a_Reasons request)) (marshal payload) (a_Actor request) (a_JobID request) 0
        now (now + window) None StateArmed EmptyString in
      if fault || select_exists (fun r => bool_decide (ID r = id)) (reverts g) then (Err errDriver, g)
      else (Ok model, schedule id (with_reverts g (reverts g ++ [model])))
  end.

Definition load (fault : bool) (domain id : string) (rows : list revertModel) : result error revertModel :=
  if fault then Err ErrNotFound
  else match select_first (fun r => bool_decide (ID r = id) &&
               (bool_decide (domain = EmptyString) || bool_decide (Domain r = domain))) rows with
       | Some r => Ok r
       | None => Err ErrNotFound
       end.

Definition Get (domain id : string) (g : guard) : result error revertModel :=
  load false domain id (reverts g).

(** The conditional update of [Confirm]; the answer tells whether a row was affected. *)
Definition confirmed_row (now : Z) (r : revertModel) : revertModel :=
  set_state StateConfirmed (Some now) (Failure r) (RevertJobID r) r.

Definition confirm_update (fault : bool) (now : Z) (id : string) (g : guard) : result error bool * guard :=
  if fault then (Err errDriver, g)
  else (Ok (negb (rows_affected (is_armed id) (reverts g) =? 0)),
        with_reverts g (update_where (is_armed id) (confirmed_row now) (reverts g))).

(** [between] and [after]: what other goroutines do between the load and the
    conditional update, and between the update and the stop of the timer. *)
Definition Confirm (between after : guard -> guard) (fault : bool) (now : Z)
    (domain id : string) (g : guard) : result error revertModel * guard :=
  match load false domain id (reverts g) with
  | Err e => (Err e, g)
  | Ok model =>
      if negb (bool_decide (State model = StateArmed)) then (Ok model, g)
      else
        match confirm_update fault now id (between g) with
        | (Err e, g) => (Err e, g)
        | (Ok false, g) => (load false domain id (reverts g), g)
        | (Ok true, g) => (Ok (confirmed_row now model), stopTimer id (after g))
        end
  end.

(** The rows of a domain, newest first; [recent_le] compares [armed_at]. *)
Definition armed_later (a b : revertModel) : Prop := ArmedAt b <= ArmedAt a.
#[local] Instance armed_later_dec : RelDecision armed_later.
Proof. intros a b. unfold armed_later. apply _. Defined.

Definition Recent (domain : string) (limit : Z) (g : guard) : list revertModel :=
  let limit := if limit <=? 0 then 20 else limit in
  take (Z.to_nat limit)
    (merge_sort armed_later (select_where (fun r => bool_decide (Domain r = domain)) (reverts g))).

(** [Start]: only the first call reconciles. *)
Definition Start (fault : bool) (g : guard) : guard :=
  if started g then g
  else
    let g := mk_guard (reverts g) (timers g) (bodies g) (running g) (closed g) true (executed g) in
    if fault then g
    else foldl (fun g r => schedule (ID r) g) g
           (select_where (fun r => bool_decide (State r = StateArmed)) (reverts g)).

(** The locked part of [Close]; it then waits until [running] is 0. *)
Definition Close (g : guard) : guard :=
  mk_guard (reverts g) ∅ (bodies g)
    (running g - Z.of_nat (size (filter (fun kv => kv.2 = true) (timers g)))) true (started g) (executed g).

(** The runtime launches an expired timer's body. *)
Definition expire (id : string) (g : guard) : guard :=
  if bool_decide (timers g !! id = Some true)
  then mk_guard (reverts g) (<[id := false]> (timers g)) (bodies g ++ [Launched id]) (running g)
         (closed g) (started g) (executed g)
  else g.

Definition finish (fault : bool) (id : string) (jobID : Z) (execErr : option string)
    (rows : list revertModel) : list revertModel :=
  if fault then rows
  else update_where (is_armed id)
         (fun r => set_state (match execErr with None => StateReverted | Some _ => StateRevertFailed end)
                     (ConfirmedAt r) (default EmptyString execErr) jobID r) rows.

Definition no_executor (domain : string) : string := "no revert executor is registered for " +:+ go_quote domain.

(** One step of a body of [fire]; [None]: the body ended, its ticket is returned. *)
Definition fire_step (fault : bool) (b : body) (g : guard) : option body * guard :=
  match b with
  | Launched id =>
      let g := mk_guard (reverts g) (delete id (timers g)) (bodies g) (running g) (closed g) (started g)
                 (executed g) in
      match load fault EmptyString id (reverts g) with
      | Err _ => (None, g)
      | Ok model => if bool_decide (State model = StateArmed) then (Some (Loaded model), g) else (None, g)
      end
  | Loaded revert =>
      match executors !! Domain revert with
      | None => (Some (Executed (ID revert) 0 (Some (no_executor (Domain revert)))), g)
      | Some executor =>
          let '(jobID, execErr) := executor revert in
          (Some (Executed (ID revert) jobID execErr),
           mk_guard (reverts g) (timers g) (bodies g) (running g) (closed g) (started g)
             (ID revert :: executed g))
      end
  | Executed id jobID execErr => (None, with_reverts g (finish fault id jobID execErr (reverts g)))
  end.

(** The [n]-th body makes a step. *)
Definition run_body (fault : bool) (n : nat) (g : guard) : guard :=
  match bodies g !! n with
  | None => g
  | Some b =>
      match fire_step fault b g with
      | (Some b', g') => with_bodies g' (<[n := b']> (bodies g))
      | (None, g') =>
          mk_guard (reverts g') (timers g') (delete n (bodies g)) (running g' - 1) (closed g') (started g')
            (executed g')
      end
  end.

(** The process dies: only the table survives. *)
Definition crash (g : guard) : guard :=
  mk_guard (reverts g) ∅ [] 0 false false (executed g).

Definition confirmed (id : string) (g : guard) : Prop :=
  exists r, r ∈ reverts g /\ ID r = id /\ State r = StateConfirmed.

(** What the goroutines of the panel do, one atomic step at a time.  A request to
    confirm makes three: its load changes nothing and is left out, so that its update
    may come at any later time, whatever happened to the row since; then the timer of
    the row it confirmed is stopped, again at any later time. *)
Inductive step (g : guard) : guard -> Prop :=
| step_arm fault id now request r g' : Arm fault id now request g = (r, g') -> step g g'
| step_confirm fault now id r g' : confirm_update fault now id g = (r, g') -> step g g'
| step_stop id : confirmed id g -> step g (stopTimer id g)
| step_expire id : step g (expire id g)
| step_body fault n : step g (run_body fault n g)
| step_start fault : step g (Start fault g)
| step_close : step g (Close g)
| step_crash : step g (crash g).
End operations.

Definition fresh_guard (rows : list revertModel) : guard := mk_guard rows ∅ [] 0 false false [].
