(* ===== verification/SafeguardProps.v ===== *)
(** * Automatic reverts: invariant and properties

    [guard_ok] is the invariant of every reachable guard; the theorems are about
    any interleaving of arming, confirming, expiring, firing, starting, closing and
    crashing. *)

From S2P Require Import Prelude GoStrings Json Sql Safeguard.

Local Open Scope Z_scope.

Definition pending (m : gmap string bool) : nat := size (filter (fun kv => kv.2 = true) m).

Lemma pending_insert m id : m !! id = None -> pending (<[id := true]> m) = S (pending m).
Proof.
  intros Hm. unfold pending. rewrite map_filter_insert_True by done.
  rewrite map_size_insert_None; [done|]. apply map_lookup_filter_None. by left.
Qed.

Lemma pending_delete m id :
  pending m = (pending (delete id m) + if bool_decide (m !! id = Some true) then 1 else 0)%nat.
Proof.
  unfold pending. rewrite map_filter_delete. case_bool_decide as Hm.
  - assert (Hf : filter (fun kv : string * bool => kv.2 = true) m !! id = Some true)
      by (by apply map_lookup_filter_Some).
    rewrite map_size_delete_Some by (by eexists).
    assert (size (filter (fun kv : string * bool => kv.2 = true) m) <> 0%nat); [|lia].
    intros H0%map_size_empty_inv. rewrite H0 in Hf. done.
  - rewrite delete_id; [lia|]. apply map_lookup_filter_None. right. intros b Hb Ht. simpl in Ht. congruence.
Qed.

Lemma pending_expire m id : m !! id = Some true -> pending m = S (pending (<[id := false]> m)).
Proof.
  intros Hm. rewrite (pending_delete m id), bool_decide_eq_true_2 by done.
  unfold pending. rewrite map_filter_insert_False by done. lia.
Qed.

Definition body_id (b : body) : string :=
  match b with Launched id => id | Loaded r => ID r | Executed id _ _ => id end.
Definition launched_id (b : body) : option string :=
  match b with Launched id => Some id | _ => None end.
Definition launched (g : guard) : list string := omap launched_id (bodies g).

Definition unarmed (id : string) (rows : list revertModel) : Prop :=
  forall r, r ∈ rows -> ID r = id -> State r <> StateArmed.

Record guard_ok (g : guard) : Prop := {
  g_ids : NoDup (map ID (reverts g));
  g_running : running g = Z.of_nat (pending (timers g) + length (bodies g));
  g_launched : NoDup (launched g);
  g_known b : b ∈ bodies g -> body_id b ∈ map ID (reverts g);
  g_timers id b : timers g !! id = Some b -> id ∈ map ID (reverts g);
  g_fresh id : timers g !! id = Some true -> id ∉ launched g;
  g_owed id : id ∈ launched g -> timers g !! id = Some false \/ closed g = true \/ unarmed id (reverts g);
  g_closed : closed g = true -> timers g = ∅;
}.

(** How any step changes the table: rows are added at the end, armed rows may leave
    that state, nothing else. *)
Definition table_step (rows rows' : list revertModel) : Prop :=
  exists f new, rows' = map f rows ++ new /\ (forall r, ID (f r) = ID r) /\
    (forall r, State r <> StateArmed -> f r = r).

Lemma table_step_refl rows : table_step rows rows.
Proof. exists id, []. split_and!; [by rewrite map_id, app_nil_r|done..]. Qed.

Lemma table_step_update id f rows :
  (forall r, ID (f r) = ID r) -> table_step rows (update_where (is_armed id) f rows).
Proof.
  intros Hf. exists (fun r => if is_armed id r then f r else r), []. split_and!.
  - by rewrite app_nil_r.
  - intros r. by destruct (is_armed id r).
  - intros r Hr. unfold is_armed. by rewrite (bool_decide_eq_false_2 _ Hr), andb_false_r.
Qed.

Lemma table_step_keeps rows rows' r :
  table_step rows rows' -> r ∈ rows -> State r <> StateArmed -> r ∈ rows'.
Proof.
  intros (f & new & -> & _ & Hf) Hr Hs. apply elem_of_app. left. rewrite <-(Hf r Hs).
  by apply list_elem_of_In, in_map, list_elem_of_In.
Qed.

Lemma table_step_ids rows rows' id : table_step rows rows' -> id ∈ map ID rows -> id ∈ map ID rows'.
Proof.
  intros (f & new & -> & Hid & _) Hin. rewrite map_app, map_map, (map_ext _ ID) by done. set_solver.
Qed.

Lemma same_id rows a b : NoDup (map ID rows) -> a ∈ rows -> b ∈ rows -> ID a = ID b -> a = b.
Proof.
  induction rows as [|r rows IH]; [by intros _ ?%elem_of_nil|]. simpl.
  intros [Hr Hnd]%NoDup_cons [->|Ha]%elem_of_cons [->|Hb]%elem_of_cons Heq; [done|..|by apply IH].
  - exfalso. apply Hr. rewrite Heq. by apply list_elem_of_In, in_map, list_elem_of_In.
  - exfalso. apply Hr. rewrite <-Heq. by apply list_elem_of_In, in_map, list_elem_of_In.
Qed.

Lemma in_ids r rows : r ∈ rows -> ID r ∈ map ID rows.
Proof. intros. by apply list_elem_of_In, in_map, list_elem_of_In. Qed.

Lemma unarmed_update id id' f rows :
  (forall r, ID (f r) = ID r) -> (forall r, State (f r) <> StateArmed) ->
  unarmed id' rows -> unarmed id' (update_where (is_armed id) f rows).
Proof.
  intros Hid Hs Hu r (r0 & Hr0 & ->)%elem_of_update_where. destruct (is_armed id r0); [done|]. by apply Hu.
Qed.

Lemma update_unarmed id f rows :
  (forall r, ID (f r) = ID r) -> (forall r, State (f r) <> StateArmed) ->
  unarmed id (update_where (is_armed id) f rows).
Proof.
  intros Hid Hs r (r0 & Hr0 & ->)%elem_of_update_where. unfold is_armed.
  destruct (bool_decide (ID r0 = id)) eqn:Hi; simpl; [|apply bool_decide_eq_false in Hi; done].
  destruct (bool_decide (State r0 = StateArmed)) eqn:Ha; [done|]. by apply bool_decide_eq_false in Ha.
Qed.

Lemma load_spec fault domain id rows r :
  load fault domain id rows = Ok r -> r ∈ rows /\ ID r = id.
Proof.
  unfold load. destruct fault; [done|].
  destruct (select_first _ rows) as [r'|] eqn:Hs; [|done]. intros [= ->].
  apply select_first_Some in Hs as [? [Hi _]%andb_prop]. by apply bool_decide_eq_true in Hi.
Qed.

Lemma load_id id rows : (exists r, r ∈ rows /\ ID r = id) -> is_ok (load false EmptyString id rows) = true.
Proof.
  intros (r & Hr & Hid). unfold load. destruct (select_first _ rows) eqn:Hs; [done|].
  apply (proj1 (select_first_None _ _)) with (r := r) in Hs; [|done].
  by rewrite !bool_decide_eq_true_2 in Hs.
Qed.

(** ** Steps keep the invariant *)

(** A change of the table only. *)
Lemma rows_ok g rows :
  guard_ok g -> NoDup (map ID rows) -> (forall id, id ∈ map ID (reverts g) -> id ∈ map ID rows) ->
  (forall id, id ∈ map ID (reverts g) -> unarmed id (reverts g) -> unarmed id rows) ->
  guard_ok (with_reverts g rows).
Proof.
  intros [Hids Hrun Hl Hk Ht Hf Ho Hc] Hnd Hsub Hun. split; simpl; auto; [eauto|].
  intros id Hid. destruct (Ho id Hid) as [|[|Hu]]; auto. right; right. apply Hun; [|done].
  unfold launched in Hid. apply list_elem_of_omap in Hid as (b & Hb & Hbi).
  specialize (Hk b Hb). by destruct b; simplify_eq/=.
Qed.

Lemma schedule_ok id g :
  guard_ok g -> id ∈ map ID (reverts g) -> id ∉ launched g -> guard_ok (schedule id g).
Proof.
  intros Hg Hid Hnl. pose proof Hg as [Hids Hrun Hl Hk Ht Hf Ho Hc]. unfold schedule.
  destruct (timers g !! id) eqn:Hnone; [done|]. destruct (closed g) eqn:Hcl; [done|].
  split; simpl; auto.
  - rewrite Hrun, pending_insert by done. lia.
  - intros id' b. destruct (decide (id' = id)) as [->|]; [done|].
    rewrite lookup_insert_ne by done. eauto.
  - intros id'. destruct (decide (id' = id)) as [->|]; [done|]. rewrite lookup_insert_ne by done. apply Hf.
  - intros id' Hid'. destruct (decide (id' = id)) as [->|]; [by destruct Hnl|].
    rewrite lookup_insert_ne by done. destruct (Ho id' Hid') as [|[|]]; auto.
  - congruence.
Qed.

Lemma stopTimer_ok id g : guard_ok g -> unarmed id (reverts g) -> guard_ok (stopTimer id g).
Proof.
  intros [Hids Hrun Hl Hk Ht Hf Ho Hc] Hun. unfold stopTimer. split; simpl; auto.
  - rewrite (pending_delete _ id) in Hrun. case_bool_decide; lia.
  - intros id' b [_ Hb]%lookup_delete_Some. eauto.
  - intros id' [_ Hb]%lookup_delete_Some. auto.
  - intros id' Hid'. destruct (decide (id' = id)) as [->|]; [auto|].
    rewrite lookup_delete_ne by done. auto.
  - intros Hcl. rewrite (Hc Hcl). apply delete_empty.
Qed.

Lemma expire_ok id g : guard_ok g -> guard_ok (expire id g).
Proof.
  intros Hg. pose proof Hg as [Hids Hrun Hl Hk Ht Hf Ho Hc]. unfold expire.
  case_bool_decide as Hp; [|done].
  assert (Hlaunched : launched (mk_guard (reverts g) (<[id:=false]> (timers g)) (bodies g ++ [Launched id])
            (running g) (closed g) (started g) (executed g)) = launched g ++ [id])
    by (unfold launched; simpl; by rewrite omap_app).
  split; rewrite ?Hlaunched; simpl; auto.
  - rewrite Hrun, length_app, (pending_expire _ _ Hp). simpl. lia.
  - apply NoDup_app. split_and!; [done| |apply NoDup_singleton].
    intros x Hx Hx'. apply list_elem_of_singleton in Hx' as ->. by apply (Hf id).
  - intros b [Hb| ->%list_elem_of_singleton]%elem_of_app; [auto|]. simpl. eauto.
  - intros id' b. destruct (decide (id' = id)) as [->|]; [eauto|]. rewrite lookup_insert_ne by done. eauto.
  - intros id'. destruct (decide (id' = id)) as [->|Hne]; [by rewrite lookup_insert_eq|].
    rewrite lookup_insert_ne by done. intros Hp' [Hin|Hin%list_elem_of_singleton]%elem_of_app; [|done].
    by apply (Hf id').
  - intros id'. destruct (decide (id' = id)) as [->|Hne]; [rewrite lookup_insert_eq; auto|].
    rewrite lookup_insert_ne by done. intros [Hin|Hin%list_elem_of_singleton]%elem_of_app; [auto|done].
  - intros Hcl. rewrite (Hc Hcl) in Hp. by rewrite lookup_empty in Hp.
Qed.

Section steps.
Context (window : Z) (executors : gmap string Executor).
Local Abbreviation step := (step window executors).

Lemma arm_ok fault id now request g r g' :
  guard_ok g -> Arm window fault id now request g = (r, g') ->
  guard_ok g' /\ table_step (reverts g) (reverts g').
Proof.
  intros Hg. unfold Arm. case_match; [intros [= _ <-]; eauto using table_step_refl|].
  destruct (a_Payload request) as [payload|]; [|intros [= _ <-]; eauto using table_step_refl].
  set (model := mk_revert _ _ _ _ _ _ _ _ _ _ _ _ _ _).
  destruct (fault || _) eqn:Hdup; [intros [= _ <-]; eauto using table_step_refl|].
  intros [= _ <-]. apply orb_false_iff in Hdup as [_ Hdup].
  assert (Hnew : id ∉ map ID (reverts g)).
  { intros (q & Hq & Hin)%list_elem_of_In%in_map_iff. apply not_true_iff_false in Hdup.
    apply Hdup, existsb_exists. exists q. split; [done|]. by apply bool_decide_eq_true. }
  assert (Hids : map ID (reverts g ++ [model]) = map ID (reverts g) ++ [id]) by (by rewrite map_app).
  assert (Hrows : guard_ok (with_reverts g (reverts g ++ [model]))).
  { apply rows_ok; [done|..].
    - rewrite Hids. apply NoDup_app. split_and!; [apply Hg| |apply NoDup_singleton]. set_solver.
    - rewrite Hids. set_solver.
    - intros id' Hid' Hu q [Hq| ->%list_elem_of_singleton]%elem_of_app; [by apply Hu|]. simpl. by intros <-. }
  split.
  - apply schedule_ok; [done|simpl; rewrite Hids; set_solver|].
    intros (b & Hb & Hbi)%list_elem_of_omap. apply Hnew. apply (g_known _ Hg) in Hb. by destruct b; simplify_eq/=.
  - exists (fun r => r), [model]. split_and!; try done. unfold schedule. repeat case_match; by rewrite map_id.
Qed.

Lemma confirm_ok fault now id g r g' :
  guard_ok g -> confirm_update fault now id g = (r, g') ->
  guard_ok g' /\ table_step (reverts g) (reverts g') /\ (r = Ok true -> confirmed id g').
Proof.
  intros Hg. unfold confirm_update. destruct fault.
  { intros [= <- <-]. by split_and!; [|apply table_step_refl|]. }
  intros [= <- <-]. split_and!; [apply rows_ok; [done|..]|by apply table_step_update|].
  - rewrite map_update_where by done. apply Hg.
  - intros ?. by rewrite map_update_where.
  - intros id' _. by apply unarmed_update.
  - intros [= Hz%negb_true_iff%Z.eqb_neq].
    destruct (select_first (is_armed id) (reverts g)) as [q|] eqn:Hs.
    + apply select_first_Some in Hs as [Hq Ha]. exists (confirmed_row now q).
      pose proof Ha as [Hid%bool_decide_eq_true _]%andb_prop. split_and!; [|done..].
      apply elem_of_update_where. exists q. by rewrite Ha.
    + destruct Hz. by apply rows_affected_0, select_first_None.
Qed.

Lemma confirmed_unarmed id g : guard_ok g -> confirmed id g -> unarmed id (reverts g).
Proof.
  intros Hg (r & Hr & Hid & Hs) q Hq Hqid. assert (q = r) as ->; [|by rewrite Hs].
  eapply same_id; [apply Hg|done..|congruence].
Qed.

Lemma schedule_rows id g : reverts (schedule id g) = reverts g.
Proof. unfold schedule. by repeat case_match. Qed.
Lemma schedule_launched id g : launched (schedule id g) = launched g.
Proof. unfold schedule, launched. by repeat case_match. Qed.
Lemma schedule_same id g : is_Some (timers g !! id) \/ closed g = true -> schedule id g = g.
Proof. unfold schedule. intros [[b ->]|Hc]; [done|]. rewrite Hc. by case_match. Qed.

Lemma start_ok fault g : guard_ok g -> guard_ok (Start fault g) /\ reverts (Start fault g) = reverts g.
Proof.
  intros Hg. unfold Start. destruct (started g); [done|].
  set (g0 := mk_guard _ _ _ _ _ _ _). assert (Hg0 : guard_ok g0) by (by destruct Hg; split).
  destruct fault; [done|].
  assert (Hall : forall r, r ∈ select_where (fun r => bool_decide (State r = StateArmed)) (reverts g0) ->
            r ∈ reverts g0 /\ State r = StateArmed).
  { intros r [? ?%bool_decide_eq_true]%elem_of_select_where. done. }
  change (reverts g) with (reverts g0). clearbody g0. clear Hg g.
  assert (Hinv : forall l g, guard_ok g -> (forall r, r ∈ l -> r ∈ reverts g /\ State r = StateArmed) ->
    guard_ok (foldl (fun g r => schedule (ID r) g) g l) /\
    reverts (foldl (fun g r => schedule (ID r) g) g l) = reverts g); [|by apply Hinv].
  induction l as [|r l IH]; intros g Hg Hl; simpl; [done|].
  assert (Hs : guard_ok (schedule (ID r) g)).
  { destruct (decide (is_Some (timers g !! ID r) \/ closed g = true)) as [Hc|Hc].
    - by rewrite schedule_same.
    - destruct (Hl r) as [Hr Hra]; [set_solver|]. apply schedule_ok; [done|by apply in_ids|].
      intros Hin. destruct (g_owed _ Hg _ Hin) as [Ht|[?|Hu]]; [|tauto|by apply (Hu r)].
      apply Hc. left. by eexists. }
  destruct (IH (schedule (ID r) g) Hs) as [? Heq].
  - intros q Hq. rewrite schedule_rows. apply Hl. set_solver.
  - by rewrite Heq, schedule_rows.
Qed.

Lemma close_ok g : guard_ok g -> guard_ok (Close g).
Proof.
  intros [Hids Hrun Hl Hk Ht Hf Ho Hc]. split; simpl; auto;
    try (intros ?; by rewrite lookup_empty).
  rewrite Hrun. unfold pending. rewrite map_filter_empty, map_size_empty. lia.
Qed.

Lemma delete_insert_list {A} (l : list A) n x : delete n (<[n := x]> l) = delete n l.
Proof. revert n. induction l as [|y l IH]; intros [|n]; simpl; [done..|]. f_equal. apply IH. Qed.

(** A body that was launched takes the lock. *)
Lemma launched_ok g n id :
  guard_ok g -> bodies g !! n = Some (Launched id) ->
  pending (delete id (timers g)) = pending (timers g) /\ id ∉ omap launched_id (delete n (bodies g)).
Proof.
  intros Hg Hn. assert (Hin : id ∈ launched g).
  { apply list_elem_of_omap. exists (Launched id). split; [by eapply list_elem_of_lookup_2|done]. }
  split.
  - rewrite (pending_delete (timers g) id), bool_decide_eq_false_2; [lia|].
    intros Hp. by apply (g_fresh _ Hg id).
  - pose proof (g_launched _ Hg) as Hnd. unfold launched in Hnd.
    rewrite (delete_Permutation _ _ _ Hn) in Hnd. simpl in Hnd. by apply NoDup_cons in Hnd as [? _].
Qed.

(** Fewer launched bodies, fewer timers. *)
Lemma fewer_ok g tm l run ex :
  guard_ok g -> (forall id b, tm !! id = Some b -> timers g !! id = Some b) ->
  (forall id, id ∈ omap launched_id l -> id ∈ launched g /\ tm !! id = timers g !! id) ->
  NoDup (omap launched_id l) -> (forall b, b ∈ l -> body_id b ∈ map ID (reverts g)) ->
  run = Z.of_nat (pending tm + length l) -> 
  guard_ok (mk_guard (reverts g) tm l run (closed g) (started g) ex).
Proof.
  intros [Hids Hrun Hl Hk Ht Hf Ho Hc] Htm Hll Hnd Hb ->. split; unfold launched; simpl; auto.
  - eauto.
  - intros id Hp [Hin _]%Hll. by apply (Hf id); auto.
  - intros id [Hin ->]%Hll. auto.
  - intros Hcl. apply map_empty. intros id. destruct (tm !! id) as [b|] eqn:Hid; [|done].
    apply Htm in Hid. by rewrite (Hc Hcl), lookup_empty in Hid.
Qed.

(** Taking a body out, or moving it past its launch. *)
Definition without (n : nat) (g : guard) : list body := delete n (bodies g).

Lemma without_spec g n b :
  guard_ok g -> bodies g !! n = Some b ->
  length (bodies g) = S (length (without n g)) /\
  (forall x, x ∈ without n g -> x ∈ bodies g) /\
  NoDup (omap launched_id (without n g)) /\
  (forall id, id ∈ omap launched_id (without n g) -> id ∈ launched g).
Proof.
  intros Hg Hn. unfold without. assert (Hperm : bodies g ≡ₚ b :: delete n (bodies g)) by (by apply delete_Permutation).
  assert (Hl : launched g ≡ₚ omap launched_id (b :: delete n (bodies g)))
    by (unfold launched; by rewrite Hperm at 1).
  pose proof (g_launched _ Hg) as Hnd. rewrite Hl in Hnd. split_and!.
  - apply (Permutation_length Hperm).
  - intros x Hx. rewrite Hperm. set_solver.
  - simpl in Hnd. destruct (launched_id b); [by apply NoDup_cons in Hnd as [_ ?]|done].
  - intros id Hid. rewrite Hl. simpl. destruct (launched_id b); set_solver.
Qed.

Lemma replaced_spec g n b nb :
  bodies g !! n = Some b -> launched_id nb = None ->
  omap launched_id (<[n := nb]> (bodies g)) ≡ₚ omap launched_id (without n g) /\
  length (<[n := nb]> (bodies g)) = length (bodies g) /\
  forall x, x ∈ <[n := nb]> (bodies g) -> x = nb \/ x ∈ without n g.
Proof.
  intros Hn Hnb. assert (Hp : <[n := nb]> (bodies g) ≡ₚ nb :: without n g).
  { rewrite (delete_Permutation (<[n := nb]> (bodies g)) n nb).
    - by rewrite delete_insert_list.
    - apply list_lookup_insert_eq. by apply lookup_lt_Some in Hn. }
  split_and!.
  - rewrite Hp. simpl. by rewrite Hnb.
  - apply length_insert.
  - intros x Hx. rewrite Hp in Hx. set_solver.
Qed.

(** The lock and the load. *)
Lemma run_launched_ok fault g n id :
  guard_ok g -> bodies g !! n = Some (Launched id) ->
  guard_ok (run_body executors fault n g) /\ reverts (run_body executors fault n g) = reverts g.
Proof.
  intros Hg Hn. pose proof (launched_ok _ _ _ Hg Hn) as [Hpend Hnot].
  pose proof (without_spec _ _ _ Hg Hn) as (Hlen & Hsub & Hnd & Hlsub).
  assert (Hdel : forall id' b, delete id (timers g) !! id' = Some b -> timers g !! id' = Some b)
    by (by intros id' b [_ ?]%lookup_delete_Some).
  assert (Hsame : forall id', id' ∈ omap launched_id (without n g) -> delete id (timers g) !! id' = timers g !! id').
  { intros id' Hid'. apply lookup_delete_ne. intros ->. by apply Hnot. }
  assert (Hgone : guard_ok (mk_guard (reverts g) (delete id (timers g)) (without n g) (running g - 1)
                    (closed g) (started g) (executed g))).
  { apply fewer_ok; auto.
    - intros b Hb. by apply (g_known _ Hg), Hsub.
    - rewrite (g_running _ Hg), Hpend, Hlen. lia. }
  unfold run_body. rewrite Hn. unfold fire_step. simpl.
  destruct (load fault EmptyString id (reverts g)) as [m|e] eqn:Hm; [|done]. apply load_spec in Hm as [Hm Hmid].
  destruct (bool_decide (State m = StateArmed)); [|done].
  destruct (replaced_spec _ _ _ (Loaded m) Hn eq_refl) as (Ho & Hlen' & Hin). split; [|done].
  unfold with_bodies; cbn [reverts timers bodies running closed started executed]. apply fewer_ok; auto; rewrite ?Ho; auto.
  - intros id' Hid'. rewrite Ho in Hid'. auto.
  - intros b [->|Hb]%Hin; [by apply in_ids|]. by apply (g_known _ Hg), Hsub.
  - rewrite (g_running _ Hg), Hpend, Hlen'. done.
Qed.

(** The executor. *)
Lemma run_loaded_ok fault g n revert :
  guard_ok g -> bodies g !! n = Some (Loaded revert) ->
  guard_ok (run_body executors fault n g) /\ reverts (run_body executors fault n g) = reverts g.
Proof.
  intros Hg Hn. pose proof (without_spec _ _ _ Hg Hn) as (Hlen & Hsub & Hnd & Hlsub).
  assert (Hnew : forall job failure ex, guard_ok (mk_guard (reverts g) (timers g)
            (<[n := Executed (ID revert) job failure]> (bodies g)) (running g) (closed g) (started g) ex)).
  { intros job failure ex.
    destruct (replaced_spec _ _ _ (Executed (ID revert) job failure) Hn eq_refl) as (Ho & Hlen' & Hin).
    apply fewer_ok; auto; rewrite ?Ho; auto.
    - intros id' Hid'. rewrite Ho in Hid'. auto.
    - intros b [->|Hb]%Hin; [|by apply (g_known _ Hg), Hsub].
      apply (g_known _ Hg (Loaded revert)). by eapply list_elem_of_lookup_2.
    - by rewrite (g_running _ Hg), Hlen'. }
  unfold run_body. rewrite Hn. unfold fire_step.
  destruct (executors !! Domain revert) as [e|]; [|split; [apply Hnew|done]].
  destruct (e revert) as [job failure]. split; [apply Hnew|done].
Qed.

(** The outcome. *)
Lemma run_executed_ok fault g n id job failure :
  guard_ok g -> bodies g !! n = Some (Executed id job failure) ->
  guard_ok (run_body executors fault n g) /\ table_step (reverts g) (reverts (run_body executors fault n g)).
Proof.
  intros Hg Hn. pose proof (without_spec _ _ _ Hg Hn) as (Hlen & Hsub & Hnd & Hlsub).
  assert (Hgone : guard_ok (mk_guard (reverts g) (timers g) (without n g) (running g - 1)
                    (closed g) (started g) (executed g))).
  { apply fewer_ok; auto.
    - intros b Hb. by apply (g_known _ Hg), Hsub.
    - rewrite (g_running _ Hg), Hlen. lia. }
  unfold run_body. rewrite Hn. simpl. unfold finish.
  destruct fault; [split; [done|apply table_step_refl]|].
  set (f := fun r => set_state _ _ _ _ r). assert (Hfs : forall r, State (f r) <> StateArmed) by (intros r; unfold f; by destruct failure).
  split; [|by apply table_step_update].
  apply (rows_ok _ (update_where (is_armed id) f (reverts g)) Hgone); simpl.
  - rewrite map_update_where by done. apply Hg.
  - intros ?. by rewrite map_update_where.
  - intros id' _. by apply unarmed_update.
Qed.

Lemma run_body_ok fault n g :
  guard_ok g -> guard_ok (run_body executors fault n g) /\
                table_step (reverts g) (reverts (run_body executors fault n g)).
Proof.
  intros Hg. destruct (bodies g !! n) as [[id|revert|id job failure]|] eqn:Hn.
  - destruct (run_launched_ok fault _ _ _ Hg Hn) as [? ->]. split; [done|apply table_step_refl].
  - destruct (run_loaded_ok fault _ _ _ Hg Hn) as [? ->]. split; [done|apply table_step_refl].
  - by eapply run_executed_ok.
  - unfold run_body. rewrite Hn. split; [done|apply table_step_refl].
Qed.

Lemma step_ok g g' : guard_ok g -> step g g' -> guard_ok g' /\ table_step (reverts g) (reverts g').
Proof.
  intros Hg [fault id now request r g1 Ha|fault now id r g1 Hc|id Hc|id|fault n|fault| |].
  - by eapply arm_ok.
  - by destruct (confirm_ok _ _ _ _ _ _ Hg Hc) as (? & ? & _).
  - split; [|apply table_step_refl]. by apply stopTimer_ok, confirmed_unarmed.
  - split; [by apply expire_ok|]. unfold expire. case_bool_decide; apply table_step_refl.
  - by apply run_body_ok.
  - destruct (start_ok fault g Hg) as [? ->]. split; [done|apply table_step_refl].
  - split; [by apply close_ok|apply table_step_refl].
  - split; [|apply table_step_refl]. destruct Hg. split; simpl; try done; try (by intros ? ?%elem_of_nil).
    + constructor.
Qed.

Lemma steps_ok g g' :
  guard_ok g -> rtc step g g' -> guard_ok g' /\
  (forall r, r ∈ reverts g -> State r <> StateArmed -> r ∈ reverts g').
Proof.
  intros Hg Hr. revert Hg. induction Hr as [|g1 g2 g3 Hstep Hr IH]; [done|]. intros Hg.
  destruct (step_ok _ _ Hg Hstep) as [Hg2 Ht]. destruct (IH Hg2) as [Hg3 Hkeep]. split; [done|].
  intros r Hr1 Hs. apply Hkeep; [|done]. by eapply table_step_keeps.
Qed.

(** A whole confirmation is a run, whatever ran in between. *)
Lemma confirm_run between after fault now domain id g r g' :
  (forall g, rtc step g (between g)) -> (forall g, rtc step g (after g)) -> guard_ok g ->
  Confirm between after fault now domain id g = (r, g') -> rtc step g g'.
Proof.
  intros Hb Ha Hg. unfold Confirm. destruct (load false domain id (reverts g)) as [m|e]; [|by intros [= _ <-]].
  case_match; [by intros [= _ <-]|]. destruct (steps_ok _ _ Hg (Hb g)) as [Hgb _].
  destruct (confirm_update fault now id (between g)) as [u g1] eqn:Hu.
  destruct (confirm_ok _ _ _ _ _ _ Hgb Hu) as (Hg1 & _ & Hset).
  assert (Hrun : rtc step g g1) by (eapply rtc_r; [apply Hb|by eapply step_confirm]).
  destruct u as [[]|e]; intros [= _ <-]; [|done..].
  eapply rtc_r; [etrans; [apply Hrun|apply Ha]|]. apply step_stop.
  destruct (Hset eq_refl) as (q & Hq & Hid & Hs). destruct (steps_ok _ _ Hg1 (Ha g1)) as [_ Hkeep].
  exists q. split_and!; [|done..]. apply Hkeep; [done|by rewrite Hs].
Qed.

Lemma fresh_ok rows : NoDup (map ID rows) -> guard_ok (fresh_guard rows).
Proof.
  intros Hnd. split; simpl; try done; try (by intros ? ?%elem_of_nil). constructor.
Qed.

(** *** Who guards an armed revert *)

(** Every armed row is on a timer or in the hands of a body. *)
Definition guarded (g : guard) : Prop :=
  started g = true -> closed g = false ->
  forall r, r ∈ reverts g -> State r = StateArmed ->
    is_Some (timers g !! ID r) \/ exists b, b ∈ bodies g /\ body_id b = ID r.

(** Steps in which the driver does not fail a body's load or its outcome, nor the
    reconciliation of [Start]. *)
Inductive sound_step (g : guard) : guard -> Prop :=
| sound_arm fault id now request r g' : Arm window fault id now request g = (r, g') -> sound_step g g'
| sound_confirm fault now id r g' : confirm_update fault now id g = (r, g') -> sound_step g g'
| sound_stop id : confirmed id g -> sound_step g (stopTimer id g)
| sound_expire id : sound_step g (expire id g)
| sound_body n : sound_step g (run_body executors false n g)
| sound_start : sound_step g (Start false g)
| sound_close : sound_step g (Close g)
| sound_crash : sound_step g (crash g).

Lemma sound_step_step g g' : sound_step g g' -> step g g'.
Proof.
  destruct 1; [by eapply step_arm|by eapply step_confirm|by apply step_stop|apply step_expire|apply step_body|
    apply step_start|apply step_close|apply step_crash].
Qed.

Lemma schedule_timers id g id' :
  is_Some (timers g !! id') -> is_Some (timers (schedule id g) !! id').
Proof.
  unfold schedule. intros Hs. destruct (timers g !! id); [done|]. destruct (closed g); [done|]. simpl.
  destruct (decide (id' = id)) as [->|]; [rewrite lookup_insert_eq; by eexists|by rewrite lookup_insert_ne].
Qed.

Lemma schedule_sets id g : closed g = false -> is_Some (timers (schedule id g) !! id).
Proof.
  unfold schedule. intros Hc. destruct (timers g !! id) eqn:Ht; [by rewrite Ht|]. rewrite Hc. simpl.
  rewrite lookup_insert_eq. by eexists.
Qed.

Lemma schedule_closed id g : closed (schedule id g) = closed g.
Proof. unfold schedule. by repeat case_match. Qed.
Lemma schedule_bodies id g : bodies (schedule id g) = bodies g.
Proof. unfold schedule. by repeat case_match. Qed.
Lemma schedule_started id g : started (schedule id g) = started g.
Proof. unfold schedule. by repeat case_match. Qed.

Lemma schedule_all_timers l g r :
  closed g = false -> r ∈ l -> is_Some (timers (foldl (fun g r => schedule (ID r) g) g l) !! ID r).
Proof.
  revert g. induction l as [|q l IH]; intros g Hc Hr; [by apply elem_of_nil in Hr|]. simpl.
  apply elem_of_cons in Hr as [->|Hr]; [|by apply IH; rewrite ?schedule_closed].
  assert (Hkeep : forall l g id, is_Some (timers g !! id) ->
            is_Some (timers (foldl (fun g r => schedule (ID r) g) g l) !! id)).
  { clear. induction l as [|q l IH]; intros g id Hs; simpl; [done|]. by apply IH, schedule_timers. }
  by apply Hkeep, schedule_sets.
Qed.

Lemma arm_guarded fault id now request g r g' :
  guarded g -> Arm window fault id now request g = (r, g') -> guarded g'.
Proof.
  intros Hgu. unfold Arm. case_match; [by intros [= _ <-]|].
  destruct (a_Payload request); [|by intros [= _ <-]]. set (model := mk_revert _ _ _ _ _ _ _ _ _ _ _ _ _ _).
  destruct (fault || _); [by intros [= _ <-]|]. intros [= _ <-]. unfold guarded.
  rewrite schedule_rows, schedule_bodies, schedule_closed, schedule_started. simpl.
  intros Hst Hc q [Hq| ->%list_elem_of_singleton]%elem_of_app Ha.
  - destruct (Hgu Hst Hc q Hq Ha) as [Ht|]; [left|by right]. by apply schedule_timers.
  - left. by apply schedule_sets.
Qed.

Lemma confirm_guarded fault now id g r g' :
  guarded g -> confirm_update fault now id g = (r, g') -> guarded g'.
Proof.
  intros Hgu. unfold confirm_update. destruct fault; intros [= _ <-]; [done|].
  intros Hst Hc q (q0 & Hq & ->)%elem_of_update_where Ha. destruct (is_armed id q0); [done|].
  by apply (Hgu Hst Hc q0 Hq).
Qed.

Lemma stop_guarded id g : guard_ok g -> confirmed id g -> guarded g -> guarded (stopTimer id g).
Proof.
  intros Hg Hc%confirmed_unarmed Hgu Hst Hcl q Hq Ha; [|done].
  destruct (Hgu Hst Hcl q Hq Ha) as [Ht|]; [left|by right]. simpl.
  rewrite lookup_delete_ne; [done|]. intros ->. by apply (Hc q Hq).
Qed.

Lemma body_guarded n g : guard_ok g -> guarded g -> guarded (run_body executors false n g).
Proof.
  intros Hg Hgu. unfold run_body. destruct (bodies g !! n) as [b|] eqn:Hn; [|done].
  assert (Hperm : bodies g ≡ₚ b :: delete n (bodies g)) by (by apply delete_Permutation).
  assert (Hsplit : forall x, x ∈ bodies g -> x = b \/ x ∈ delete n (bodies g))
    by (intros x Hx; rewrite Hperm in Hx; set_solver).
  assert (Hnb : forall nb, nb ∈ <[n := nb]> (bodies g) /\ forall x, x ∈ delete n (bodies g) -> x ∈ <[n := nb]> (bodies g)).
  { intros nb. assert (Hp : <[n := nb]> (bodies g) ≡ₚ nb :: delete n (bodies g)).
    { rewrite (delete_Permutation (<[n := nb]> (bodies g)) n nb).
      - by rewrite delete_insert_list.
      - apply list_lookup_insert_eq. by apply lookup_lt_Some in Hn. }
    split; [|intros x Hx]; rewrite Hp; set_solver. }
  destruct b as [id|revert|id job failure]; cbn [fire_step reverts].
  - destruct (load false EmptyString id (reverts g)) as [m|e] eqn:Hm.
    + pose proof (load_spec _ _ _ _ _ Hm) as [Hmin Hmid].
      case_bool_decide as Hma; intros Hst Hc q Hq Ha; simpl in *.
      * destruct (decide (ID q = id)) as [Heq|Hne].
        -- right. exists (Loaded m). split; [apply (proj1 (Hnb _))|]. simpl. congruence.
        -- destruct (Hgu Hst Hc q Hq Ha) as [Ht|(b & Hb & Hbi)]; [left; by rewrite lookup_delete_ne|].
           right. apply Hsplit in Hb as [->|Hb]; [done|]. exists b. split; [by apply (proj2 (Hnb _))|done].
      * assert (ID q <> id) as Hne.
        { intros Heq. apply Hma. rewrite <-Ha. f_equal. eapply same_id; [apply Hg|done..|congruence]. }
        destruct (Hgu Hst Hc q Hq Ha) as [Ht|(b & Hb & Hbi)]; [left; by rewrite lookup_delete_ne|].
        right. apply Hsplit in Hb as [->|Hb]; [done|]. by exists b.
    + exfalso. assert (Hin : id ∈ map ID (reverts g)).
      { apply (g_known _ Hg (Launched id)). by eapply list_elem_of_lookup_2. }
      apply list_elem_of_In, in_map_iff in Hin as (r & Hid & Hr%list_elem_of_In).
      assert (is_ok (load false EmptyString id (reverts g)) = true) as Hl by (apply load_id; eauto).
      by rewrite Hm in Hl.
  - assert (Hmove : forall job failure ex, guarded (mk_guard (reverts g) (timers g)
      (<[n := Executed (ID revert) job failure]> (bodies g)) (running g) (closed g) (started g) ex)).
    { intros job failure ex Hst Hc q Hq Ha. simpl in *.
      destruct (Hgu Hst Hc q Hq Ha) as [|(b & Hb & Hbi)]; [by left|right].
      apply Hsplit in Hb as [->|Hb].
      - eexists. split; [apply (proj1 (Hnb _))|done].
      - exists b. split; [by apply (proj2 (Hnb _))|done]. }
    destruct (executors !! Domain revert) as [e|]; [|by apply Hmove].
    destruct (e revert). apply Hmove.
  - intros Hst Hc q Hq Ha. simpl in *. apply elem_of_update_where in Hq as (q0 & Hq & ->).
    destruct (is_armed id q0) eqn:Hia; [by destruct failure|].
    assert (ID q0 <> id).
    { intros Heq. unfold is_armed in Hia. by rewrite !bool_decide_eq_true_2 in Hia. }
    destruct (Hgu Hst Hc q0 Hq Ha) as [|(b & Hb & Hbi)]; [by left|right].
    apply Hsplit in Hb as [->|Hb]; [done|by exists b].
Qed.

Lemma sound_step_guarded g g' : guard_ok g -> guarded g -> sound_step g g' -> guarded g'.
Proof.
  intros Hg Hgu [fault id now request r g1 Ha|fault now id r g1 Hc|id Hc|id|n| | |].
  - by eapply arm_guarded.
  - by eapply confirm_guarded.
  - by apply stop_guarded.
  - unfold expire. case_bool_decide as Hp; [|done]. intros Hst Hc q Hq Ha. simpl in *.
    destruct (Hgu Hst Hc q Hq Ha) as [Ht|(b & Hb & Hbi)].
    + left. destruct (decide (ID q = id)) as [->|]; [rewrite lookup_insert_eq; by eexists|by rewrite lookup_insert_ne].
    + right. exists b. split; [apply elem_of_app; by left|done].
  - by apply body_guarded.
  - unfold Start. destruct (started g) eqn:Hs; [done|]. intros _ Hc q Hq Ha. left.
    apply schedule_all_timers.
    + simpl. revert Hc. generalize (select_where (fun r => bool_decide (State r = StateArmed)) (reverts
        (mk_guard (reverts g) (timers g) (bodies g) (running g) (closed g) true (executed g)))).
      set (g0 := mk_guard _ _ _ _ _ _ _). change (closed g) with (closed g0). clearbody g0.
      intros l. revert g0. induction l as [|x l IH]; intros g0; simpl; [done|]. intros H.
      rewrite <-(schedule_closed (ID x) g0). by apply IH.
    + apply elem_of_select_where. split; [|by apply bool_decide_eq_true].
      destruct (start_ok false g Hg) as [_ Hrows]. unfold Start in Hrows. rewrite Hs in Hrows.
      by rewrite Hrows in Hq.
  - intros _ Hc. done.
  - intros Hst. done.
Qed.

(** *** Shutdown *)
Definition weight (b : body) : nat := match b with Launched _ => 3 | Loaded _ => 2 | Executed _ _ _ => 1 end.
Definition total_weight (l : list body) : nat := sum_list_with weight l.

Lemma run_first_weight fault g :
  bodies g <> [] -> (total_weight (bodies (run_body executors fault 0 g)) < total_weight (bodies g))%nat.
Proof.
  unfold run_body. destruct (bodies g) as [|b l] eqn:Hb; [done|]. intros _.
  assert ((b :: l) !! 0%nat = Some b) as -> by done.
  assert (Hw : forall g' b', fire_step executors fault b g = (b', g') ->
            match b' with Some b' => (weight b' < weight b)%nat | None => True end).
  { intros g' b' H. destruct b as [id|revert|id job failure]; cbn [fire_step] in H.
    - destruct (load _ _ _ _); [case_bool_decide|]; injection H as <- _; simpl; lia.
    - destruct (executors !! Domain revert) as [e|]; [destruct (e revert)|]; injection H as <- _; simpl; lia.
    - injection H as <- _. done. }
  assert (0 < weight b)%nat by (destruct b; simpl; lia).
  destruct (fire_step executors fault b g) as [[b'|] g'] eqn:Hs; specialize (Hw _ _ eq_refl); simpl in Hw;
    unfold total_weight; simpl; lia.
Qed.

Lemma run_all_bodies fault n g :
  (total_weight (bodies g) <= n)%nat -> bodies (Nat.iter n (run_body executors fault 0) g) = [].
Proof.
  revert g. induction n as [|n IH]; intros g Hn.
  - destruct (bodies g) as [|[] l] eqn:Hb; simpl; [done|unfold total_weight in Hn; simpl in Hn; lia..].
  - rewrite Nat.iter_succ_r. apply IH. destruct (bodies g) as [|b l] eqn:Hb.
    + unfold run_body. rewrite Hb. simpl. rewrite Hb. unfold total_weight. simpl. lia.
    + pose proof (run_first_weight fault g ltac:(by rewrite Hb)). rewrite Hb in *. lia.
Qed.

Lemma iter_body_ok fault n g :
  guard_ok g -> guard_ok (Nat.iter n (run_body executors fault 0) g) /\
    closed (Nat.iter n (run_body executors fault 0) g) = closed g.
Proof.
  intros Hg. induction n as [|n [IH IHc]]; simpl; [done|]. split; [by apply run_body_ok|].
  rewrite <-IHc. unfold run_body. destruct (bodies _ !! 0%nat) as [b|]; [|done].
  assert (Hc : forall g b' g', fire_step executors fault b g = (b', g') -> closed g' = closed g).
  { intros g0 b' g' H. destruct b as [id|revert|id job failure]; cbn [fire_step] in H.
    - destruct (load _ _ _ _); [case_bool_decide|]; by injection H as _ <-.
    - destruct (executors !! Domain revert) as [e|]; [destruct (e revert)|]; by injection H as _ <-.
    - by injection H as _ <-. }
  destruct (fire_step executors fault b _) as [[b'|] g'] eqn:Hs; by rewrite <-(Hc _ _ _ Hs).
Qed.

(** *** Executions *)

(** The row of [id] is decided and no body is about to run its executor. *)
Definition settled (id : string) (g : guard) : Prop :=
  guard_ok g /\ (exists r, r ∈ reverts g /\ ID r = id /\ State r <> StateArmed) /\
  forall r, Loaded r ∈ bodies g -> ID r <> id.

Lemma body_settled fault n g id :
  settled id g -> (forall r, Loaded r ∈ bodies (run_body executors fault n g) -> ID r <> id) /\
    filter (fun x => x = id) (executed (run_body executors fault n g)) = filter (fun x => x = id) (executed g).
Proof.
  intros (Hg & (r0 & Hr0 & Hid & Hs0) & Hl). unfold run_body.
  destruct (bodies g !! n) as [b|] eqn:Hn; [|done].
  assert (Hdel : forall r, Loaded r ∈ delete n (bodies g) -> ID r <> id).
  { intros r Hr. apply Hl. rewrite (delete_Permutation _ _ _ Hn). set_solver. }
  assert (Hins : forall nb r, Loaded r ∈ <[n := nb]> (bodies g) -> Loaded r = nb \/ ID r <> id).
  { intros nb r Hr. rewrite (delete_Permutation _ n nb), delete_insert_list in Hr.
    - apply elem_of_cons in Hr as [|Hr]; [by left|right; by apply Hdel].
    - apply list_lookup_insert_eq. by apply lookup_lt_Some in Hn. }
  destruct b as [id'|revert|id' job failure]; cbn [fire_step].
  - cbn [reverts]. destruct (load fault EmptyString id' (reverts g)) as [m|e] eqn:Hm; [|done].
    apply load_spec in Hm as [Hm Hmid]. case_bool_decide as Ha; [|done]. split; [|done].
    intros r [[= ->]|]%Hins; [|done]. intros Heq. apply Hs0. rewrite <-Ha. f_equal.
    eapply same_id; [apply Hg|done..|congruence].
  - assert (Hne : ID revert <> id) by (apply Hl; by eapply list_elem_of_lookup_2).
    destruct (executors !! Domain revert) as [e|]; [destruct (e revert) as [job failure]|];
      simpl; (split; [by intros r [|]%Hins|]); [|done].
    by rewrite filter_cons_False.
  - done.
Qed.

Lemma step_settled g g' id :
  settled id g -> step g g' -> settled id g' /\
  filter (fun x => x = id) (executed g') = filter (fun x => x = id) (executed g).
Proof.
  intros Hs Hstep. pose proof Hs as (Hg & (r0 & Hr0 & Hid & Hs0) & Hl).
  destruct (step_ok _ _ Hg Hstep) as [Hg' Ht].
  assert (Hrow : exists r, r ∈ reverts g' /\ ID r = id /\ State r <> StateArmed)
    by (exists r0; split_and!; [by eapply table_step_keeps|done..]).
  assert (Hgoal : (bodies g' = bodies g \/ bodies g' = [] \/ exists i, bodies g' = bodies g ++ [Launched i]) ->
            executed g' = executed g -> settled id g' /\
            filter (fun x => x = id) (executed g') = filter (fun x => x = id) (executed g)).
  { intros Hb ->. split; [|done]. split_and!; [done..|]. intros r Hr. apply Hl.
    destruct Hb as [Hb|[Hb|[i Hb]]]; rewrite Hb in Hr; [done|by apply elem_of_nil in Hr|].
    apply elem_of_app in Hr as [|Hr%list_elem_of_singleton]; done. }
  destruct Hstep as [fault i now request r g1 Ha|fault now i r g1 Hc|i Hc|i|fault n|fault| |].
  - unfold Arm in Ha. repeat case_match; simplify_eq; apply Hgoal; rewrite ?schedule_bodies; auto.
    unfold schedule. by repeat case_match.
  - unfold confirm_update in Hc. case_match; simplify_eq; apply Hgoal; auto.
  - apply Hgoal; auto.
  - apply Hgoal; unfold expire; case_bool_decide; eauto.
  - destruct (body_settled fault n g id Hs) as [? ?]. done.
  - assert (Hfold : forall l g0, bodies (foldl (fun g r => schedule (ID r) g) g0 l) = bodies g0 /\
        executed (foldl (fun g r => schedule (ID r) g) g0 l) = executed g0).
    { induction l as [|x l IH]; intros g0; simpl; [done|]. destruct (IH (schedule (ID x) g0)) as [-> ->].
      rewrite schedule_bodies. unfold schedule. by repeat case_match. }
    apply Hgoal; unfold Start; destruct (started g); auto; destruct fault; auto; [left|]; by rewrite ?(proj1 (Hfold _ _)), ?(proj2 (Hfold _ _)).
  - by apply Hgoal; auto.
  - by apply Hgoal; auto.
Qed.

(** ** Properties *)

(** C36. A revert leaves the armed state at most once: along any run, through
    restarts, a row that is confirmed, reverted or failed stays exactly as it is
    and stays the only row of its id.  A request to confirm may have loaded the row
    while it was armed and update at any later step, also after the row was reverted:
    the condition of its update is all that keeps the outcome. *)
Theorem safeguard_decided_once rows g g' r r' :
  NoDup (map ID rows) -> rtc step (fresh_guard rows) g -> rtc step g g' ->
  r ∈ reverts g -> State r <> StateArmed ->
  r ∈ reverts g' /\ (r' ∈ reverts g' -> ID r' = ID r -> r' = r).
Proof.
  intros Hnd H0 H1 Hr Hs. destruct (steps_ok _ _ (fresh_ok _ Hnd) H0) as [Hg _].
  destruct (steps_ok _ _ Hg H1) as [Hg' Hkeep]. split; [by apply Hkeep|].
  intros Hr' Heq. eapply same_id; [apply Hg'|done|by apply Hkeep|done].
Qed.

(** Shutdown ends: the wait group always counts exactly the pending timers and
    the bodies that have not ended, so after [Close] it counts the bodies only;
    running these (each takes at most three steps, whatever the driver does) brings
    it to zero, and never below. *)
Theorem safeguard_shutdown_balanced rows g fault :
  NoDup (map ID rows) -> rtc step (fresh_guard rows) g ->
  running g = Z.of_nat (pending (timers g) + length (bodies g)) /\
  running (Close g) = Z.of_nat (length (bodies g)) /\
  let g' := Nat.iter (3 * length (bodies g)) (run_body executors fault 0) (Close g) in
  bodies g' = [] /\ running g' = 0.
Proof.
  intros Hnd H0. destruct (steps_ok _ _ (fresh_ok _ Hnd) H0) as [Hg _].
  assert (Hp0 : pending ∅ = 0%nat) by (unfold pending; by rewrite map_filter_empty, map_size_empty).
  pose proof (close_ok _ Hg) as Hgc. split_and!; [apply Hg| |].
  - rewrite (g_running _ Hgc). simpl. rewrite Hp0. done.
  - assert (Hend : bodies (Nat.iter (3 * length (bodies g)) (run_body executors fault 0) (Close g)) = []).
    { apply run_all_bodies. simpl. unfold total_weight. generalize (bodies g) as l.
      induction l as [|b l IH]; simpl in *; [lia|]. destruct b; simpl; lia. }
    split; [done|]. destruct (iter_body_ok fault (3 * length (bodies g)) _ Hgc) as [Hok Hc].
    rewrite (g_running _ Hok), Hend, (g_closed _ Hok) by (by rewrite Hc). simpl. by rewrite Hp0.
Qed.

(** No armed revert is orphaned: as long as the driver does not fail a firing or
    the reconciliation, every armed row of a started, open guard is on a timer or in
    the hands of a body that has not ended, also after restarts. *)
Theorem safeguard_armed_is_guarded rows g :
  NoDup (map ID rows) -> rtc sound_step (fresh_guard rows) g -> guarded g.
Proof.
  intros Hnd Hr. assert (guard_ok g /\ guarded g) as [_ ?]; [|done].
  refine (rtc_ind_r (R := sound_step) (fun g => guard_ok g /\ guarded g) (fresh_guard rows) _ _ g Hr).
  - split; [by apply fresh_ok|by intros ?].
  - intros g1 g2 _ Hstep [Hg Hgu]. split; [|by eapply sound_step_guarded].
    by apply (step_ok _ _ Hg), sound_step_step.
Qed.

(** A confirmation in time holds: when [Confirm] reports the confirmed state and
    no body had loaded the row before, the executor of that revert never runs in
    any continuation, restarts included. *)
Theorem safeguard_confirmed_never_fires rows g g1 g2 now domain id r :
  NoDup (map ID rows) -> rtc step (fresh_guard rows) g ->
  Confirm (fun g => g) (fun g => g) false now domain id g = (Ok r, g1) -> State r = StateConfirmed ->
  (forall q, Loaded q ∈ bodies g -> ID q <> id) -> rtc step g1 g2 ->
  filter (fun x => x = id) (executed g2) = filter (fun x => x = id) (executed g).
Proof.
  intros Hnd H0 Hc Hst Hl H1. destruct (steps_ok _ _ (fresh_ok _ Hnd) H0) as [Hg _].
  assert (Hrun : rtc step g g1) by (eapply confirm_run; [intros; apply rtc_refl..|apply Hg|apply Hc]).
  destruct (steps_ok _ _ Hg Hrun) as [Hg1 _].
  assert (settled id g1 /\ executed g1 = executed g) as [Hset Hex].
  { unfold Confirm in Hc. destruct (load false domain id (reverts g)) as [m|e] eqn:Hm; [|done].
    pose proof (load_spec _ _ _ _ _ Hm) as [Hmin Hmid].
    destruct (negb (bool_decide (State m = StateArmed))) eqn:Ha.
    { injection Hc as -> <-. split; [|done]. split_and!; [done| |done]. exists r. by rewrite Hst. }
    destruct (confirm_update false now id g) as [u gu] eqn:Hu.
    destruct (confirm_ok _ _ _ _ _ _ Hg Hu) as (_ & _ & Hset). injection Hu as <- <-.
    apply negb_false_iff, bool_decide_eq_true in Ha.
    assert (Hz : negb (rows_affected (is_armed id) (reverts g) =? 0) = true).
    { apply negb_true_iff, Z.eqb_neq. intros Hz. rewrite rows_affected_0 in Hz. specialize (Hz m Hmin).
      unfold is_armed in Hz. by rewrite !bool_decide_eq_true_2 in Hz. }
    rewrite Hz in *. injection Hc as <- <-. split; [|done].
    destruct (Hset eq_refl) as (q & Hq & Hid & Hs). split_and!; [done| |done]. exists q. by rewrite Hs. }
  rewrite <-Hex. clear Hex Hc Hg1 Hrun. induction H1 as [|g1 g2 g3 Hstep _ IH]; [done|].
  destruct (step_settled _ _ _ Hset Hstep) as [Hset2 Heq]. rewrite <-Heq. by apply IH.
Qed.

(** A confirmation that races a firing reports success although the change is
    undone: once a body has loaded the armed row, its executor runs; a [Confirm]
    before the outcome is recorded returns the confirmed state, and the row keeps it
    after the body ended. *)
Theorem safeguard_confirm_races_fire g n revert e now :
  guard_ok g -> bodies g !! n = Some (Loaded revert) -> revert ∈ reverts g -> State revert = StateArmed ->
  Domain revert <> EmptyString -> executors !! Domain revert = Some e ->
  let g1 := run_body executors false n g in
  ID revert ∈ executed g1 /\
  exists r g2, Confirm (fun g => g) (fun g => g) false now (Domain revert) (ID revert) g1 = (Ok r, g2) /\
    State r = StateConfirmed /\
    exists r', r' ∈ reverts (run_body executors false n g2) /\ ID r' = ID revert /\ State r' = StateConfirmed.
Proof.
  intros Hg Hn Hr Ha Hd He g1. destruct (run_loaded_ok false _ _ _ Hg Hn) as [Hg1 Hrows].
  assert (Hex : ID revert ∈ executed g1 /\ exists job failure, bodies g1 !! n = Some (Executed (ID revert) job failure)).
  { unfold g1, run_body, fire_step, Executor in *. rewrite Hn, He. destruct (e revert) as [job failure]. simpl.
    split; [set_solver|]. exists job, failure. apply list_lookup_insert_eq. by apply lookup_lt_Some in Hn. }
  destruct Hex as [Hex (job & failure & Hn1)]. split; [done|]. fold g1 in Hrows, Hg1.
  unfold Confirm, confirm_update. destruct (load false (Domain revert) (ID revert) (reverts g1)) as [m|err] eqn:Hm.
  2: { exfalso. unfold load in Hm. destruct (select_first _ _) eqn:Hs; [done|]. rewrite Hrows in Hs.
       apply (proj1 (select_first_None _ _)) with (r := revert) in Hs; [|done].
       rewrite (bool_decide_eq_true_2 (ID revert = ID revert)) in Hs by done.
       by rewrite (bool_decide_eq_true_2 (Domain revert = Domain revert)), orb_true_r in Hs by done. }
  apply load_spec in Hm as [Hm Hmid]. rewrite Hrows in Hm.
  assert (m = revert) as -> by (eapply same_id; [apply Hg|done..]). clear Hm Hmid.
  rewrite Ha. simpl. rewrite Hrows.
  assert (Harm : is_armed (ID revert) revert = true) by (unfold is_armed; by rewrite !bool_decide_eq_true_2).
  destruct (Z.eqb_spec (rows_affected (is_armed (ID revert)) (reverts g)) 0) as [Hz|Hz].
  { rewrite rows_affected_0 in Hz. by rewrite (Hz revert Hr) in Harm. }
  do 2 eexists. split_and!; [done|done|]. unfold run_body. simpl. rewrite Hn1. simpl.
  exists (confirmed_row now revert). split_and!; [|done..]. apply elem_of_update_where.
  exists (confirmed_row now revert). split.
  - apply elem_of_update_where. exists revert. by rewrite Harm.
  - unfold is_armed. by rewrite andb_false_r.
Qed.

(** A driver fault while a body loads its row drops the revert: the row stays
    armed, its timer is gone and no body will undo the change in this process. *)
Theorem safeguard_fault_orphans g n id r :
  guard_ok g -> bodies g !! n = Some (Launched id) -> r ∈ reverts g -> ID r = id -> State r = StateArmed ->
  let g' := run_body executors true n g in
  r ∈ reverts g' /\ timers g' !! id = None /\ bodies g' = delete n (bodies g) /\
  (started g = true -> closed g = false -> (forall b, b ∈ delete n (bodies g) -> body_id b <> id) -> ~ guarded g').
Proof.
  intros Hg Hn Hr Hid Ha g'. unfold g', run_body. rewrite Hn. simpl. split_and!; [done|apply lookup_delete_eq|done|].
  intros Hst Hc Hnob Hgu. destruct (Hgu Hst Hc r Hr Ha) as [[b Hb]|(b & Hb & Hbi)]; simpl in *.
  - by rewrite Hid, lookup_delete_eq in Hb.
  - apply (Hnob b); [done|congruence].
Qed.
End steps.

(** ** A concrete guard

    One revert is armed; it is confirmed in time, or fires while a confirmation
    races it, or is dropped by a driver fault. *)
Module Revert.
Definition executors : gmap string Executor := {[ "firewall"%string := fun _ => (7, None) ]}.
Definition request : ArmRequest :=
  mk_arm "firewall" "22/tcp" "Port 22 will be reopened." (Some ["SSH"%string]) (Some (JObj [])) 3 None.
Definition g0 : guard := fresh_guard [].
Definition g1 : guard := (Arm DefaultWindow false "revert_1" (10 * second) request (Start false g0)).2.
Definition row1 : revertModel :=
  mk_revert "revert_1" "firewall" "22/tcp" "Port 22 will be reopened." (marshal_strings ["SSH"%string])
    (marshal (JObj [])) None 3 0 (10 * second) (130 * second) None StateArmed EmptyString.
Definition g2 : guard := expire "revert_1" g1.
Definition g3 : guard := run_body executors false 0 g2.
Definition confirmed := Confirm (fun g => g) (fun g => g) false (20 * second) "firewall" "revert_1" g1.
Definition gc : guard := confirmed.2.
Definition rowc : revertModel := set_state StateConfirmed (Some (20 * second)) EmptyString 0 row1.

Local Abbreviation step := (step DefaultWindow executors).

Lemma guard_reach1 : rtc step g0 g1.
Proof.
  eapply rtc_l; [apply (step_start _ _ _ false)|]. apply rtc_once.
  eapply (step_arm _ _ _ false "revert_1" (10 * second) request). apply surjective_pairing.
Qed.
Lemma guard1_ok : guard_ok g1.
Proof. apply (steps_ok DefaultWindow executors _ _ (fresh_ok [] (NoDup_nil_2)) guard_reach1). Qed.
Lemma guard_reach2 : rtc step g0 g2.
Proof. eapply rtc_r; [apply guard_reach1|apply step_expire]. Qed.
Lemma reachc : rtc step g0 gc.
Proof.
  etrans; [apply guard_reach1|].
  eapply confirm_run; [intros; apply rtc_refl..|apply guard1_ok|]. apply surjective_pairing.
Qed.

Lemma safeguard_decided_once_witness : rowc ∈ reverts (crash gc).
Proof.
  apply (safeguard_decided_once DefaultWindow executors [] gc (crash gc) rowc rowc).
  - constructor.
  - apply reachc.
  - apply rtc_once, step_crash.
  - apply list_elem_of_lookup_2 with 0%nat. vm_compute. reflexivity.
  - vm_compute. discriminate.
Defined.

Lemma safeguard_shutdown_balanced_witness : running (Close g2) = 1.
Proof.
  destruct (safeguard_shutdown_balanced DefaultWindow executors [] g2 false ltac:(constructor) guard_reach2)
    as (_ & H & _). rewrite H. vm_compute. reflexivity.
Defined.

Lemma safeguard_armed_is_guarded_witness : guarded g1.
Proof.
  apply (safeguard_armed_is_guarded DefaultWindow executors []); [constructor|].
  eapply rtc_l; [apply sound_start|]. apply rtc_once.
  eapply (sound_arm _ _ _ false "revert_1" (10 * second) request). apply surjective_pairing.
Defined.

Lemma safeguard_confirmed_never_fires_witness :
  filter (fun x => x = "revert_1"%string) (executed (expire "revert_1" gc)) = [].
Proof.
  apply (safeguard_confirmed_never_fires DefaultWindow executors [] g1 gc _ (20 * second) "firewall" "revert_1" rowc).
  - constructor.
  - apply guard_reach1.
  - vm_compute. reflexivity.
  - reflexivity.
  - intros q Hq. vm_compute in Hq. by apply elem_of_nil in Hq.
  - apply rtc_once, step_expire.
Defined.

Lemma g2_ok : guard_ok g2.
Proof. apply (steps_ok DefaultWindow executors _ _ (fresh_ok [] (NoDup_nil_2)) guard_reach2). Qed.
Lemma g3_ok : guard_ok g3.
Proof. apply (run_body_ok executors), g2_ok. Qed.

Lemma safeguard_confirm_races_fire_witness : "revert_1"%string ∈ executed (run_body executors false 0 g3).
Proof.
  apply (safeguard_confirm_races_fire executors g3 0 row1 (fun _ => (7, None)) (130 * second)).
  - apply g3_ok.
  - vm_compute. reflexivity.
  - apply list_elem_of_lookup_2 with 0%nat. vm_compute. reflexivity.
  - reflexivity.
  - discriminate.
  - reflexivity.
Defined.

Lemma safeguard_fault_orphans_witness : row1 ∈ reverts (run_body executors true 0 g2).
Proof.
  apply (safeguard_fault_orphans executors g2 0 "revert_1" row1).
  - apply g2_ok.
  - vm_compute. reflexivity.
  - apply list_elem_of_lookup_2 with 0%nat. vm_compute. reflexivity.
  - reflexivity.
  - reflexivity.
Defined.
End Revert.
