(* ===== verification/Limiter.v ===== *)
(** * Attempt limiting

    The two in-memory fixed-window limiters: [attemptLimiter] of
    [internal/platform/identity/limiter.go] (sign-in attempts by account) and
    [IPThrottle] of [internal/platform/httpapi/throttle.go] (requests by source
    address).  Go iterates over the map of buckets in an unspecified order: the
    order is the argument [order] of the operations that depend on it. *)

From S2P Require Import Prelude GoStrings.

Local Open Scope Z_scope.

Record attemptBucket := mk_bucket { startedAt : Z; count : Z }.

Notation buckets_map := (gmap string attemptBucket).

Record attemptLimiter := mk_limiter {
  limit : Z;
  window : Z;
  maxBuckets : Z;
  buckets : buckets_map;
}.

Definition defaultAttemptBucketCapacity : Z := 4096.
Definition defaultThrottleBucketCapacity : Z := 8192.

Definition with_buckets (l : attemptLimiter) (b : buckets_map) : attemptLimiter :=
  mk_limiter (limit l) (window l) (maxBuckets l) b.

Definition newAttemptLimiterWithCapacity (limit window maxBuckets : Z) : attemptLimiter :=
  mk_limiter limit window maxBuckets ∅.
Definition newAttemptLimiter (limit window : Z) : attemptLimiter :=
  newAttemptLimiterWithCapacity limit window defaultAttemptBucketCapacity.

Definition map_len (b : buckets_map) : Z := Z.of_nat (size b).

(** The loop that picks the oldest bucket: the variables [oldestKey] and [oldest]
    after each key of the iteration. *)
Definition pick (b : buckets_map) (oldest : string * Z) (key : string) : string * Z :=
  match b !! key with
  | None => oldest
  | Some bucket =>
      if bool_decide (oldest.1 = EmptyString) || (startedAt bucket <? oldest.2)
      then (key, startedAt bucket) else oldest
  end.

(** [order b]: the order in which [range] visits the keys of [b]. *)
Definition makeRoom (order : buckets_map -> list string) (now : Z) (l : attemptLimiter) : attemptLimiter :=
  if map_len (buckets l) <? maxBuckets l then l
  else
    let live := filter (fun kv : string * attemptBucket => time_sub now (startedAt kv.2) < window l) (buckets l) in
    if map_len live <? maxBuckets l then with_buckets l live
    else with_buckets l (delete (foldl (pick live) (EmptyString, 0) (order live)).1 live).

Definition Allow (order : buckets_map -> list string) (key : string) (now : Z) (l : attemptLimiter)
    : bool * attemptLimiter :=
  let fresh := mk_bucket now 1 in
  match buckets l !! key with
  | None => let l := makeRoom order now l in (true, with_buckets l (<[key := fresh]> (buckets l)))
  | Some bucket =>
      if window l <=? time_sub now (startedAt bucket)
      then (true, with_buckets l (<[key := fresh]> (buckets l)))
      else if limit l <=? count bucket then (false, l)
      else (true, with_buckets l (<[key := mk_bucket (startedAt bucket) (count bucket + 1)]> (buckets l)))
  end.

Definition Reset (key : string) (l : attemptLimiter) : attemptLimiter :=
  with_buckets l (delete key (buckets l)).

(** [IPThrottle] keeps the same fields, and a [makeRoom] of the same text. *)
Definition throttle_makeRoom : (buckets_map -> list string) -> Z -> attemptLimiter -> attemptLimiter :=
  makeRoom.

Definition NewIPThrottleWithCapacity (limit window maxBuckets : Z) : attemptLimiter :=
  mk_limiter limit window (if maxBuckets <=? 0 then defaultThrottleBucketCapacity else maxBuckets) ∅.
Definition NewIPThrottle (limit window : Z) : attemptLimiter :=
  NewIPThrottleWithCapacity limit window defaultThrottleBucketCapacity.

Definition throttle_Allow (order : buckets_map -> list string) (key : string) (now : Z) (t : attemptLimiter)
    : bool * attemptLimiter :=
  if (limit t <=? 0) || (window t <=? 0) then (true, t) else Allow order key now t.

(** ** Theory *)

(** An iteration order visits every key and no other. *)
Definition visits (order : buckets_map -> list string) : Prop :=
  forall b k, k ∈ order b <-> is_Some (b !! k).

Lemma pick_in b keys acc :
  (forall k, k ∈ keys -> is_Some (b !! k)) ->
  (foldl (pick b) acc keys).1 = acc.1 \/ (foldl (pick b) acc keys).1 ∈ keys.
Proof.
  revert acc. induction keys as [|k keys IH]; intros acc Hk; simpl; [by left|].
  destruct (IH (pick b acc k)) as [Heq|Hin]; [set_solver| |right; set_solver].
  rewrite Heq. unfold pick. destruct (b !! k); [|by left].
  case_match; [right; set_solver|by left].
Qed.

Lemma oldest_in order b :
  visits order -> b <> ∅ -> is_Some (b !! (foldl (pick b) (EmptyString, 0) (order b)).1).
Proof.
  intros Hv Hne. destruct (order b) as [|k keys] eqn:Ho.
  { exfalso. apply Hne, map_empty. intros i. apply eq_None_not_Some. rewrite <-(Hv b i), Ho. by intros ?%elem_of_nil. }
  assert (Hk : is_Some (b !! k)) by (apply Hv; rewrite Ho; set_solver).
  assert (Hkeys : forall k', k' ∈ keys -> is_Some (b !! k')) by (intros k' ?; apply Hv; rewrite Ho; set_solver).
  simpl. assert (Hp : pick b (EmptyString, 0) k = (k, (pick b (EmptyString, 0) k).2)).
  { unfold pick. by destruct Hk as [x ->]. }
  rewrite Hp. destruct (pick_in b keys (k, (pick b (EmptyString, 0) k).2) Hkeys) as [->|Hin]; auto.
Qed.

Lemma makeRoom_size order now l :
  visits order -> 1 <= maxBuckets l -> map_len (buckets l) <= maxBuckets l ->
  map_len (buckets (makeRoom order now l)) < maxBuckets l.
Proof.
  intros Hv Hmax Hlen. unfold makeRoom. destruct (Z.ltb_spec (map_len (buckets l)) (maxBuckets l)); [done|].
  set (live := filter _ _). destruct (Z.ltb_spec (map_len live) (maxBuckets l)) as [|Hlive]; [done|]. simpl.
  assert (Hsub : map_len live <= map_len (buckets l)).
  { unfold map_len. apply inj_le, map_subseteq_size, map_filter_subseteq. }
  assert (size live <> 0%nat) as Hs by (unfold map_len in Hlive; lia).
  assert (live <> ∅) as Hne by by apply map_size_non_empty_iff.
  unfold map_len in *. rewrite map_size_delete_Some by (by apply oldest_in).
  lia.
Qed.

Lemma makeRoom_params order now l :
  limit (makeRoom order now l) = limit l /\ window (makeRoom order now l) = window l /\
  maxBuckets (makeRoom order now l) = maxBuckets l.
Proof. unfold makeRoom. by repeat case_match. Qed.

(** Making room only removes buckets. *)
Lemma makeRoom_sub order now l k b :
  buckets (makeRoom order now l) !! k = Some b -> buckets l !! k = Some b.
Proof.
  unfold makeRoom. case_match; [done|]. case_match; simpl.
  - by intros [? _]%map_lookup_filter_Some.
  - by intros [_ [? _]%map_lookup_filter_Some]%lookup_delete_Some.
Qed.

(** The fixed window of one key, as a function of its bucket alone. *)
Definition window_allow (limit window : Z) (bucket : option attemptBucket) (now : Z)
    : bool * attemptBucket :=
  match bucket with
  | None => (true, mk_bucket now 1)
  | Some b =>
      if window <=? now - startedAt b then (true, mk_bucket now 1)
      else if limit <=? count b then (false, b)
      else (true, mk_bucket (startedAt b) (count b + 1))
  end.

Fixpoint window_run (limit window : Z) (bucket : option attemptBucket) (times : list Z) : list Z :=
  match times with
  | [] => []
  | t :: rest =>
      let '(ok, b) := window_allow limit window bucket t in
      (if ok then [t] else []) ++ window_run limit window (Some b) rest
  end.

Definition in_window (a window : Z) (t : Z) : bool := (a <=? t) && (t <? a + window).
Definition hits (a window : Z) (l : list Z) : Z := Z.of_nat (length (List.filter (in_window a window) l)).

Lemma hits_cons a w t l : hits a w (t :: l) = (if in_window a w t then 1 else 0) + hits a w l.
Proof. unfold hits. simpl. case_match; simpl; lia. Qed.

Lemma run_sorted limit window b times lo :
  Forall (fun t => lo <= t) times -> Forall (fun t => lo <= t) (window_run limit window b times).
Proof.
  revert b. induction times as [|t times IH]; intros b; simpl; [constructor|].
  intros [Ht Hts]%Forall_cons. destruct (window_allow _ _ _ _) as [[] b']; simpl; [constructor|]; auto.
Qed.

Lemma hits_above a w l : Forall (fun t => a + w <= t) l -> hits a w l = 0.
Proof.
  induction 1 as [|t l Ht Hl IH]; [done|]. rewrite hits_cons, IH. unfold in_window.
  rewrite (proj2 (Z.ltb_ge _ _)), andb_false_r by done. done.
Qed.

Definition ascending (times : list Z) : Prop := StronglySorted Z.le times.

(** Before the window that was opened after [a] ends, only its budget is left. *)
Lemma run_budget limit window a s c times :
  0 < window -> 0 <= c <= limit -> a <= s -> ascending times -> Forall (fun t => s <= t) times ->
  hits a window (window_run limit window (Some (mk_bucket s c)) times) <= limit - c.
Proof.
  intros Hw Hc Ha Hs. revert c Hc. induction Hs as [|t times Hs IH Ht]; intros c Hc Hall.
  { unfold hits. simpl. lia. }
  apply Forall_cons in Hall as [Hst Hall]. simpl.
  destruct (Z.leb_spec window (t - s)); simpl.
  - assert (hits a window (t :: window_run limit window (Some (mk_bucket t 1)) times) = 0) as ->; [|lia].
    apply hits_above. constructor; [lia|]. apply run_sorted. eapply Forall_impl; [exact Ht|]. simpl. lia.
  - destruct (Z.leb_spec limit c); simpl; [by apply IH|].
    rewrite hits_cons. specialize (IH (c + 1) ltac:(lia) Hall). case_match; lia.
Qed.

Lemma run_after limit window a s c times :
  0 < window -> 1 <= c <= limit -> ascending times -> Forall (fun t => s <= t) times ->
  Forall (fun t => a <= t) times ->
  hits a window (window_run limit window (Some (mk_bucket s c)) times) <= limit + (limit - c).
Proof.
  intros Hw Hc Hs. revert c Hc. induction Hs as [|t times Hs IH Ht]; intros c Hc Hall Ha.
  { unfold hits. simpl. lia. }
  apply Forall_cons in Hall as [Hst Hall]. apply Forall_cons in Ha as [Hat Ha]. simpl.
  destruct (Z.leb_spec window (t - s)); simpl.
  - rewrite hits_cons. pose proof (run_budget limit window a t 1 times Hw ltac:(lia) Hat Hs Ht).
    case_match; lia.
  - destruct (Z.leb_spec limit c); simpl; [by apply IH|].
    rewrite hits_cons. specialize (IH (c + 1) ltac:(lia) Hall Ha). case_match; lia.
Qed.

Lemma run_bound limit window a s c times :
  0 < window -> 1 <= c <= limit -> ascending times -> Forall (fun t => s <= t) times ->
  hits a window (window_run limit window (Some (mk_bucket s c)) times) <= 2 * limit.
Proof.
  intros Hw Hc Hs. revert s c Hc. induction Hs as [|t times Hs IH Ht]; intros s c Hc Hall.
  { unfold hits. simpl. lia. }
  destruct (Z.le_gt_cases a t) as [Hat|Hat].
  { pose proof (run_after limit window a s c (t :: times) Hw Hc ltac:(by constructor) Hall
      ltac:(constructor; [done|eapply Forall_impl; [exact Ht|simpl; lia]])). lia. }
  apply Forall_cons in Hall as [Hst Hall]. simpl.
  assert (Hout : in_window a window t = false) by (unfold in_window; rewrite (proj2 (Z.leb_gt _ _)) by lia; done).
  destruct (Z.leb_spec window (t - s)); simpl.
  - rewrite hits_cons, Hout. specialize (IH t 1 ltac:(lia) Ht). lia.
  - destruct (Z.leb_spec limit c); simpl; [by apply IH|].
    rewrite hits_cons, Hout. specialize (IH s (c + 1) ltac:(lia) Hall). lia.
Qed.

(** ** Properties *)

(** Memory is bounded: whatever keys arrive at whatever times, in whatever order
    Go iterates, the number of buckets never exceeds the capacity; and a refused
    attempt stores nothing. *)
Theorem limiter_memory_bounded order calls l :
  visits order -> 1 <= maxBuckets l -> map_len (buckets l) <= maxBuckets l ->
  let l' := foldl (fun l (call : string * Z) => (Allow order call.1 call.2 l).2) l calls in
  map_len (buckets l') <= maxBuckets l.
Proof.
  intros Hv. revert l. induction calls as [|[key now] calls IH]; intros l Hmax Hlen; [done|]. simpl.
  assert (Hstep : map_len (buckets (Allow order key now l).2) <= maxBuckets l /\
                  maxBuckets (Allow order key now l).2 = maxBuckets l).
  { unfold Allow. destruct (buckets l !! key) as [b|] eqn:Hk.
    - assert (Hins : forall b', map_len (<[key := b']> (buckets l)) = map_len (buckets l))
        by (intros b'; unfold map_len; by rewrite map_size_insert_Some by (by eexists)).
      repeat case_match; simpl; rewrite ?Hins; done.
    - simpl. pose proof (makeRoom_size order now l Hv Hmax Hlen) as Hroom.
      destruct (makeRoom_params order now l) as (_ & _ & ->). split; [|done].
      unfold map_len in *. rewrite map_size_insert. case_match; unfold id; lia. }
  destruct Hstep as [Hle Hm]. rewrite <-Hm. apply IH; by rewrite Hm.
Qed.

(** Each key is limited by its own window: [Allow] answers, and updates the
    bucket of its key, as the fixed window of that key alone does, and the buckets
    of other keys stay as they are or are dropped to make room. *)
Theorem limiter_keys_independent order key now l :
  duration_pos (window l) ->
  let '(ok, l') := Allow order key now l in
  let '(ok', b') := window_allow (limit l) (window l) (buckets l !! key) now in
  ok = ok' /\ buckets l' !! key = Some b' /\
  forall k b, k <> key -> buckets l' !! k = Some b -> buckets l !! k = Some b.
Proof.
  intros Hw. unfold Allow, window_allow. destruct (buckets l !! key) as [b|] eqn:Hk.
  - assert (Hsub : (window l <=? time_sub now (startedAt b)) = (window l <=? now - startedAt b)).
    { apply eq_true_iff_eq. rewrite !Z.leb_le. by apply time_sub_ge. }
    rewrite Hsub. repeat case_match; simplify_eq/=; rewrite ?lookup_insert_eq; split_and!; try done;
      intros k b' Hne; by rewrite lookup_insert_ne.
  - simpl. rewrite lookup_insert_eq. split_and!; [done..|].
    intros k b' Hne. rewrite lookup_insert_ne by done. apply makeRoom_sub.
Qed.

(** A sequence of attempts on one limiter: the attempts with their answers. *)
Fixpoint attempts (order : buckets_map -> list string) (l : attemptLimiter) (calls : list (string * Z))
    : list (string * Z * bool) :=
  match calls with
  | [] => []
  | (key, now) :: rest => let '(ok, l') := Allow order key now l in (key, now, ok) :: attempts order l' rest
  end.

(** The times at which attempts of [key] were allowed. *)
Definition allowed (key : string) (answers : list (string * Z * bool)) : list Z :=
  omap (fun a : string * Z * bool => if bool_decide (a.1.1 = key) && a.2 then Some a.1.2 else None) answers.
Definition times_of (key : string) (calls : list (string * Z)) : list Z :=
  omap (fun c : string * Z => if bool_decide (c.1 = key) then Some c.2 else None) calls.

(** While the keys in use fit the capacity, no bucket is evicted. *)
Definition roomy (keys : list string) (l : attemptLimiter) : Prop :=
  dom (buckets l) ⊆ list_to_set keys /\ Z.of_nat (length keys) <= maxBuckets l.

Lemma list_to_set_size_le (keys : list string) : (size (list_to_set keys : gset string) <= length keys)%nat.
Proof.
  induction keys as [|k keys IH]; [done|]. simpl.
  destruct (decide (k ∈ (list_to_set keys : gset string))).
  - replace ({[k]} ∪ list_to_set keys : gset string) with (list_to_set keys : gset string) by set_solver. lia.
  - rewrite size_union, size_singleton by set_solver. lia.
Qed.

Lemma roomy_no_eviction order keys key now l :
  roomy keys l -> key ∈ keys -> buckets l !! key = None -> makeRoom order now l = l.
Proof.
  intros [Hdom Hlen] Hin Hnone. unfold makeRoom.
  destruct (Z.ltb_spec (map_len (buckets l)) (maxBuckets l)) as [|Hge]; [done|exfalso].
  assert (Hsize : (size (dom (buckets l)) < length keys)%nat).
  { assert (Hsub : ({[key]} : gset string) ∪ dom (buckets l) ⊆ list_to_set keys)
      by (apply union_least; [apply singleton_subseteq_l, elem_of_list_to_set|]; done).
    apply subseteq_size in Hsub. rewrite size_union in Hsub by (by apply disjoint_singleton_l, not_elem_of_dom).
    rewrite size_singleton in Hsub.
    assert (Hl : (size (list_to_set keys : gset string) <= length keys)%nat) by apply list_to_set_size_le.
    lia. }
  unfold map_len in Hge. rewrite size_dom in Hsize. lia.
Qed.

Lemma attempts_window order keys key l calls :
  duration_pos (window l) -> roomy keys l -> Forall (fun c => c.1 ∈ keys) calls ->
  allowed key (attempts order l calls) = window_run (limit l) (window l) (buckets l !! key) (times_of key calls).
Proof.
  intros Hw. revert l Hw. induction calls as [|[k t] calls IH]; intros l Hw Hroom Hk; [done|].
  apply Forall_cons in Hk as [Hin Hk]. simpl in Hin |- *.
  assert (Hstep : exists b', Allow order k t l =
    (( window_allow (limit l) (window l) (buckets l !! k) t).1, with_buckets l (<[k := b']> (buckets l))) /\
    b' = (window_allow (limit l) (window l) (buckets l !! k) t).2).
  { unfold Allow, window_allow. destruct (buckets l !! k) as [b|] eqn:Hb.
    - assert (Hsub : (window l <=? time_sub t (startedAt b)) = (window l <=? t - startedAt b)).
      { apply eq_true_iff_eq. rewrite !Z.leb_le. by apply time_sub_ge. }
      rewrite Hsub. repeat case_match; eexists; (split; [|done]); simpl; try done.
      f_equal. destruct l as [li w m bs]. unfold with_buckets. simpl in *. by rewrite insert_id.
    - rewrite (roomy_no_eviction order keys k t l) by done. by eexists. }
  destruct Hstep as (b' & -> & Hb'). simpl.
  assert (Hroom' : roomy keys (with_buckets l (<[k := b']> (buckets l)))).
  { destruct Hroom as [Hd Hl]. split; [|done]. simpl. rewrite dom_insert_L.
    apply union_least; [by apply singleton_subseteq_l, elem_of_list_to_set|done]. }
  specialize (IH (with_buckets l (<[k := b']> (buckets l))) Hw Hroom' Hk). simpl in IH.
  case_bool_decide as Hkey; simpl.
  - subst k. rewrite lookup_insert_eq in IH. destruct (window_allow _ _ _ _) as [ok b]; simpl in *; subst b'.
    destruct ok; simpl; by rewrite IH.
  - by rewrite lookup_insert_ne in IH by done.
Qed.

(** C40. The rate: while the keys in use fit the capacity, over attempts in ascending
    time by any keys in any interleaving, no interval as long as the window holds
    more than twice [limit] allowed attempts of a key, and the window that the key's
    first attempt opens holds at most [limit]. *)
Theorem limiter_rate_bounded order keys limit window capacity calls key a :
  duration_pos window -> 1 <= limit -> Z.of_nat (length keys) <= capacity ->
  Forall (fun c => c.1 ∈ keys) calls -> ascending (times_of key calls) ->
  let answers := attempts order (newAttemptLimiterWithCapacity limit window capacity) calls in
  hits a window (allowed key answers) <= 2 * limit /\
  match times_of key calls with
  | [] => True
  | t :: _ => hits t window (allowed key answers) <= limit
  end.
Proof.
  intros Hd Hl Hlen Hk Hs answers. assert (Hw : 0 < window) by apply Hd.
  assert (Hrun : allowed key answers = window_run limit window None (times_of key calls)).
  { unfold answers. rewrite (attempts_window order keys); [done|done| |done].
    split; [|done]. cbn. by rewrite dom_empty_L. }
  rewrite Hrun. clear Hrun answers Hk. destruct (times_of key calls) as [|t times]; [unfold hits; simpl; lia|].
  apply StronglySorted_cons in Hs as [Ht Hs]. simpl. rewrite !hits_cons. split.
  - destruct (Z.le_gt_cases a t) as [Hat|Hat].
    + pose proof (run_budget limit window a t 1 times Hw ltac:(lia) Hat Hs Ht). case_match; lia.
    + pose proof (run_bound limit window a t 1 times Hw ltac:(lia) Hs Ht).
      unfold in_window. rewrite (proj2 (Z.leb_gt _ _)) by lia. simpl. lia.
  - pose proof (run_budget limit window t t 1 times Hw ltac:(lia) ltac:(lia) Hs Ht). case_match; lia.
Qed.

(** The request throttle is the same limiter when its limit and window are
    positive; otherwise it allows everything and keeps no state. *)
Theorem throttle_fails_open order key now t :
  (0 < limit t -> 0 < window t -> throttle_Allow order key now t = Allow order key now t) /\
  (limit t <= 0 \/ window t <= 0 -> throttle_Allow order key now t = (true, t)).
Proof.
  unfold throttle_Allow. split.
  - intros Hl Hw. by rewrite !(proj2 (Z.leb_gt _ _)) by done.
  - intros [H|H]; rewrite (proj2 (Z.leb_le _ 0) H); [done|by rewrite orb_true_r].
Qed.

(** ** Concrete limiters *)
Definition key_order (b : buckets_map) : list string := (map_to_list b).*1.

Lemma key_order_visits : visits key_order.
Proof.
  intros b k. unfold key_order. rewrite list_elem_of_fmap. split.
  - intros ([k' x] & -> & Hin%elem_of_map_to_list). by exists x.
  - intros [x Hx]. exists (k, x). by rewrite elem_of_map_to_list.
Qed.

Lemma limiter_memory_bounded_witness :
  map_len (buckets (foldl (fun l (call : string * Z) => (Allow key_order call.1 call.2 l).2)
    (newAttemptLimiterWithCapacity 2 minute 2)
    [("a", 1); ("b", 2); ("c", 3); ("", 4)]%string)) <= 2.
Proof.
  apply (limiter_memory_bounded key_order _ (newAttemptLimiterWithCapacity 2 minute 2) key_order_visits);
    vm_compute; discriminate.
Defined.

Lemma limiter_keys_independent_witness :
  (Allow key_order "a" 5 (newAttemptLimiter 3 minute)).1 = true.
Proof.
  pose proof (limiter_keys_independent key_order "a" 5 (newAttemptLimiter 3 minute)
                ltac:(vm_compute; split; [reflexivity|discriminate])) as H.
  destruct (Allow key_order "a" 5 (newAttemptLimiter 3 minute)) as [ok l]. by destruct H as [-> _].
Defined.

Lemma limiter_rate_bounded_witness :
  hits 0 minute (allowed "a" (attempts key_order (newAttemptLimiterWithCapacity 2 minute 2)
    [("a", 0); ("b", 1); ("a", 2); ("a", 3); ("a", minute)]%string)) <= 4.
Proof.
  refine (proj1 (limiter_rate_bounded key_order ["a"; "b"]%string 2 minute 2 _ "a" 0 _ _ _ _ _)).
  - vm_compute. split; [reflexivity|discriminate].
  - lia.
  - reflexivity.
  - repeat constructor; vm_compute; set_solver.
  - vm_compute. repeat constructor; discriminate.
Defined.

Lemma throttle_fails_open_witness :
  throttle_Allow key_order "1.2.3.4" 7 (NewIPThrottle 0 minute) = (true, NewIPThrottle 0 minute).
Proof. apply (throttle_fails_open key_order "1.2.3.4" 7 (NewIPThrottle 0 minute)). vm_compute. left. discriminate. Defined.
