(* ===== verification/Release.v ===== *)
(** * Releases of the panel

    [internal/platform/operators/selfupdate]: version strings (version.go), the
    published checksum (apply.go), the RELEASE stamp and its agreement with the
    release metadata (manifest.go) and the extraction of a release archive
    (archive.go).  The module [golang.org/x/mod/semver], the digest and the
    decoding of a compressed tar stream are parameters. *)

From Stdlib Require Import Ascii.
From S2P Require Import Prelude GoStrings.

Local Open Scope Z_scope.

Record Release := mk_release {
  Version : string;
  Tag : string;
  Notes : string;
  AssetName : string;
  AssetURL : string;
  ChecksumURL : string;
  SignatureURL : string;
  PublishedAt : Z;
}.

Record releaseManifest := mk_manifest {
  m_Version : string;
  m_Commit : string;
  m_Arch : string;
  m_BuiltAt : string;
}.

Inductive error :=
| errChecksumEmpty | errChecksumLength | errChecksumHex | errChecksumMismatch
| errStampLine | errStampTwice (key : string) | errStampMissing
| errArch | errTag | errAsset | errManifestArch | errManifestVersion | errManifestMismatch
| errBinaryVersion | errBinaryMismatch | errBytes
| errGzip | errTar | errEntries | errLongPath | errUnusablePath | errAbsolute | errTraversing
| errRoots | errLayout | errDirectory | errSize | errExists | errLarger | errNotRegular
| errNoBinary | errNoInstaller.

(** [assetArch]; the same text on both supported architectures. *)
Definition assetArch (goarch : string) : option string :=
  if bool_decide (goarch = "amd64"%string) then Some "amd64"%string
  else if bool_decide (goarch = "arm64"%string) then Some "arm64"%string
  else None.

(** ** Versions *)
Section versions.
Context (semver_IsValid : string -> bool) (semver_Canonical : string -> string)
        (semver_Compare : string -> string -> Z).

Definition normalizeVersion (raw : string) : string :=
  let value := trim_prefix "v" (trim_space raw) in
  let candidate := "v" +:+ value in
  if contains "+" value || negb (semver_IsValid candidate) ||
     negb (bool_decide (semver_Canonical candidate = candidate))
  then EmptyString else value.

Definition isNewer (candidate baseline : string) : bool :=
  let candidate := normalizeVersion candidate in
  let baseline := normalizeVersion baseline in
  negb (bool_decide (candidate = EmptyString)) && negb (bool_decide (baseline = EmptyString)) &&
  (0 <? semver_Compare ("v" +:+ candidate) ("v" +:+ baseline)).

Definition isPlausibleVersion (reported : string) : bool :=
  negb (bool_decide (normalizeVersion reported = EmptyString)).

(** ** The checksum sidecar *)
Context (sha256hex : string -> string).

Definition sha256_Size : Z := 32.

(** [hex.DecodeString] succeeds on an even number of hexadecimal digits. *)
Definition is_hex_string (s : string) : bool := all_bytes is_hex s && (len s mod 2 =? 0).

Definition parseChecksum (contents : string) : result error string :=
  match fields contents with
  | [] => Err errChecksumEmpty
  | first :: _ =>
      let digest := to_lower first in
      if negb (len digest =? sha256_Size * 2) then Err errChecksumLength
      else if negb (is_hex_string digest) then Err errChecksumHex
      else Ok digest
  end.

Definition verifyChecksum (binary expected : string) : result error unit :=
  guard_err (bool_decide (sha256hex binary = expected)) errChecksumMismatch.

(** ** The RELEASE stamp *)
Definition equals : ascii := "=".

Definition empty_manifest : releaseManifest := mk_manifest EmptyString EmptyString EmptyString EmptyString.

Definition set_key (key value : string) (m : releaseManifest) : releaseManifest :=
  if bool_decide (key = "version"%string) then mk_manifest value (m_Commit m) (m_Arch m) (m_BuiltAt m)
  else if bool_decide (key = "commit"%string) then mk_manifest (m_Version m) value (m_Arch m) (m_BuiltAt m)
  else if bool_decide (key = "arch"%string) then mk_manifest (m_Version m) (m_Commit m) value (m_BuiltAt m)
  else if bool_decide (key = "built_at"%string) then mk_manifest (m_Version m) (m_Commit m) (m_Arch m) value
  else m.

(** The loop over the lines, with the keys seen so far. *)
Fixpoint parse_lines (lines seen : list string) (m : releaseManifest) : result error releaseManifest :=
  match lines with
  | [] => Ok m
  | line :: rest =>
      let line := trim_space line in
      if bool_decide (line = EmptyString) || has_prefix "#" line then parse_lines rest seen m
      else match cut equals line with
           | None => Err errStampLine
           | Some (key, value) =>
               let key := trim_space key in
               let value := trim_space value in
               if bool_decide (key ∈ seen) then Err (errStampTwice key)
               else parse_lines rest (key :: seen) (set_key key value m)
           end
  end.

Definition manifest_complete (m : releaseManifest) : bool :=
  forallb (fun value => negb (bool_decide (value = EmptyString)))
    [m_Version m; m_Commit m; m_Arch m; m_BuiltAt m].

Definition parseReleaseManifest (contents : string) : result error releaseManifest :=
  match parse_lines (split newline contents) [] empty_manifest with
  | Err e => Err e
  | Ok m => if manifest_complete m then Ok m else Err errStampMissing
  end.

Definition verifyReleaseAgreement (release : Release) (manifest : releaseManifest)
    (arch binaryVersion digest archive : string) : result error unit :=
  match assetArch arch with
  | None => Err errArch
  | Some suffix =>
      if negb (bool_decide (trim_space (Tag release) = "v" +:+ Version release)) then Err errTag
      else if negb (bool_decide (AssetName release = "nexa-panel-linux-" +:+ suffix +:+ ".tar.gz")) then Err errAsset
      else if negb (bool_decide (m_Arch manifest = suffix)) then Err errManifestArch
      else
        let manifestVersion := normalizeVersion (m_Version manifest) in
        if bool_decide (manifestVersion = EmptyString) then Err errManifestVersion
        else if negb (bool_decide (manifestVersion = Version release)) then Err errManifestMismatch
        else
          let reported := normalizeVersion binaryVersion in
          if bool_decide (reported = EmptyString) then Err errBinaryVersion
          else if negb (bool_decide (reported = Version release)) then Err errBinaryMismatch
          else guard_err (bool_decide (sha256hex archive = to_lower digest)) errBytes
  end.
End versions.

(** ** Command output *)
Definition lastLine (output : string) : string :=
  match List.filter (fun line => negb (bool_decide (line = EmptyString)))
          (rev (map trim_space (split newline (trim_space output)))) with
  | line :: _ => line
  | [] => "no output"
  end.

Definition firstField (s : string) : string := default EmptyString (head (fields s)).

(** ** Extraction *)
Definition maxExtractedBytes : Z := 512 * 1024 * 1024.
Definition maxArchiveEntries : Z := 4096.
Definition maxEntryPathLength : Z := 512.
Definition maxManifestBytes : Z := 8 * 1024.

Definition releaseManifestEntry : string := "RELEASE".
Definition releaseBinaryEntry : string := "bin/nexa".
Definition releaseInstallerEntry : string := "scripts/install.sh".

Definition releaseTreePrefixes : list string := ["bin/"; "packaging/"; "scripts/"]%string.
Definition releaseTreeFiles : list string := [releaseManifestEntry].
Definition executableEntries : list string :=
  [releaseBinaryEntry; releaseInstallerEntry; "scripts/nexa-seed-admin.sh"%string;
   "scripts/nexa-release-helper.py"%string; "scripts/uninstall.sh"%string].

Inductive typeflag := TypeDir | TypeReg | TypeOther.

(** One member: its declared size, the bytes of it that the stream holds, and
    whether these are all ([false]: the stream ends inside the member). *)
Record member := mk_member {
  Name : string;
  Typeflag : typeflag;
  Size : Z;
  Body : string;
  Complete : bool;
}.

(** The staging tree, by path relative to the destination. *)
Inductive staged := Directory | File (content : string) (mode : Z).
Notation tree := (gmap string staged).

Definition isReleaseTreeEntry (relative : string) : bool :=
  existsb (fun allowed => bool_decide (relative = allowed)) releaseTreeFiles ||
  existsb (fun prefix => (has_prefix prefix relative && (len prefix <? len relative)) ||
             bool_decide (relative = trim_suffix "/" prefix)) releaseTreePrefixes.

Definition unusable (c : ascii) : bool := one_of "\" c || byte_eq 0 c.

(** The relative path, and the root that is pinned from then on; the empty path is
    the top-level directory. *)
Definition releaseEntryPath (name root : string) : result error (string * string) :=
  if maxEntryPathLength <? len name then Err errLongPath
  else if any_byte unusable name then Err errUnusablePath
  else if has_prefix "/" name then Err errAbsolute
  else
    let cleaned := path_clean (trim_suffix "/" name) in
    if bool_decide (cleaned = "."%string) || bool_decide (cleaned = EmptyString) then Ok (EmptyString, root)
    else if bool_decide (cleaned = ".."%string) || has_prefix "../" cleaned then Err errTraversing
    else
      let '(top, relative) := match cut slash cleaned with
                              | Some (a, b) => (a, Some b) | None => (cleaned, None) end in
      let root := if bool_decide (root = EmptyString) then top else root in
      if negb (bool_decide (top = root)) then Err errRoots
      else match relative with
           | None => Ok (EmptyString, root)
           | Some relative => if isReleaseTreeEntry relative then Ok (relative, root) else Err errLayout
           end.

(** [os.MkdirAll]: every ancestor and the path itself, unless a file is in the
    way. *)
Fixpoint ancestors (above : string) (comps : list string) : list string :=
  match comps with
  | [] => []
  | c :: rest =>
      let here := if bool_decide (above = EmptyString) then c else above +:+ String slash c in
      here :: ancestors here rest
  end.
Definition is_file (t : tree) (p : string) : bool :=
  match t !! p with Some (File _ _) => true | _ => false end.
Definition add_directory (t : tree) (p : string) : tree :=
  match t !! p with None => <[p := Directory]> t | Some _ => t end.
Definition mkdirAll (comps : list string) (t : tree) : result error tree :=
  let dirs := ancestors EmptyString comps in
  if existsb (is_file t) dirs then Err errDirectory else Ok (foldl add_directory t dirs).

(** [io.Copy] through [io.LimitReader(reader, size+1)]: the bytes written, and
    whether the copy ended without an error. *)
Definition limited_copy (size : Z) (body : string) (complete : bool) : string * bool :=
  let limit := wrap64 (size + 1) in
  if limit <=? 0 then (EmptyString, true)
  else if len body <? limit then (body, complete)
  else (take_bytes (Z.to_nat limit) body, true).

(** The result, and the bytes that reached the disk whatever the result. *)
Definition writeArchiveFile (relative : string) (m : member) (t : tree) : result error (tree * Z) * Z :=
  match mkdirAll (removelast (split slash relative)) t with
  | Err e => (Err e, 0)
  | Ok t =>
      match t !! relative with
      | Some _ => (Err errExists, 0)
      | None =>
          let '(content, complete) := limited_copy (Size m) (Body m) (Complete m) in
          let written := len content in
          if negb complete then (Err errTar, written)
          else if Size m <? written then (Err errLarger, written)
          else
            let mode := if bool_decide (relative ∈ executableEntries) then 448 else 384 in
            (Ok (<[relative := File content mode]> t, written), written)
      end
  end.

(** The variables of the extraction loop. *)
Record extraction := mk_extraction {
  entries : Z;
  extracted : Z;
  root : string;
  sawBinary : bool;
  written_tree : tree;
}.

Definition extract_member (m : member) (x : extraction) : result error extraction * Z :=
  let x := mk_extraction (entries x + 1) (extracted x) (root x) (sawBinary x) (written_tree x) in
  if maxArchiveEntries <? entries x then (Err errEntries, 0)
  else match releaseEntryPath (Name m) (root x) with
  | Err e => (Err e, 0)
  | Ok (relative, root) =>
      if bool_decide (relative = EmptyString)
      then (Ok (mk_extraction (entries x) (extracted x) root (sawBinary x) (written_tree x)), 0)
      else match Typeflag m with
      | TypeDir =>
          match mkdirAll (split slash relative) (written_tree x) with
          | Err e => (Err e, 0)
          | Ok t => (Ok (mk_extraction (entries x) (extracted x) root (sawBinary x) t), 0)
          end
      | TypeReg =>
          if (Size m <? 0) || (maxExtractedBytes <? wrap64 (extracted x + Size m)) then (Err errSize, 0)
          else match writeArchiveFile relative m (written_tree x) with
          | (Err e, disk) => (Err e, disk)
          | (Ok (t, written), disk) =>
              (Ok (mk_extraction (entries x) (wrap64 (extracted x + written)) root
                     (sawBinary x || bool_decide (relative = releaseBinaryEntry)) t), disk)
          end
      | TypeOther => (Err errNotRegular, 0)
      end
  end.

(** The loop; the number counts all bytes written to the disk. *)
Fixpoint extract_members (l : list member) (x : extraction) : result error extraction * Z :=
  match l with
  | [] => (Ok x, 0)
  | m :: rest =>
      match extract_member m x with
      | (Err e, disk) => (Err e, disk)
      | (Ok x, disk) => let '(r, more) := extract_members rest x in (r, disk + more)
      end
  end.

(** [untar archive]: the members up to the end of the stream or its first error
    ([false]); [None]: not a gzip stream. *)
Definition extractRelease (untar : string -> option (list member * bool)) (archive : string)
    : result error tree * Z :=
  match untar archive with
  | None => (Err errGzip, 0)
  | Some (l, complete) =>
      match extract_members l (mk_extraction 0 0 EmptyString false ∅) with
      | (Err e, disk) => (Err e, disk)
      | (Ok x, disk) =>
          (if negb complete then Err errTar
           else if negb (sawBinary x) then Err errNoBinary
           else match written_tree x !! releaseInstallerEntry with
                | Some _ => Ok (written_tree x)
                | None => Err errNoInstaller
                end, disk)
      end
  end.

(** ** Theory *)

(** A member path that is accepted stays inside the release layout. *)
Lemma entry_path_safe name root relative root' :
  releaseEntryPath name root = Ok (relative, root') -> relative <> EmptyString ->
  contained relative /\ isReleaseTreeEntry relative = true.
Proof.
  unfold releaseEntryPath. destruct (_ <? _); [done|]. destruct (any_byte _ _); [done|].
  destruct (has_prefix "/" name) eqn:Habs; [done|].
  set (s := trim_suffix "/" name).
  destruct (bool_decide (path_clean s = "."%string) || bool_decide (path_clean s = EmptyString)) eqn:Hdot;
    [intros [= <- <-]; done|]. apply orb_false_iff in Hdot as [Hdot%bool_decide_eq_false _].
  destruct (bool_decide (path_clean s = ".."%string) || has_prefix "../" (path_clean s)) eqn:Hup; [done|].
  apply orb_false_iff in Hup as [Hup%bool_decide_eq_false Hpre]. intros H Hne.
  assert (Hs : has_prefix "/" s = false).
  { unfold s, trim_suffix. destruct (strip_prefix (rev_string "/") (rev_string name)) as [t|] eqn:Ht; [|done].
    apply strip_prefix_Some in Ht. change (rev_string "/") with (String "/" EmptyString) in Ht. simpl in Ht.
    destruct (has_prefix "/" (rev_string t)) eqn:Hp; [|done]. exfalso.
    apply has_prefix_spec in Hp as [u Hu]. assert (Hn : name = rev_string t +:+ "/").
    { rewrite <-(rev_string_involutive name), Ht. apply rev_string_cons. }
    rewrite Hu in Hn. rewrite Hn in Habs. unfold has_prefix in Habs. simpl in Habs. done. }
  destruct (path_clean_safe s Hs Hup Hpre Hdot) as (a & l & Hpl & Hcl). rewrite Hcl in H.
  destruct l as [|b l].
  - apply Forall_cons in Hpl as [(_ & _ & _ & Ha) _]. simpl in H.
    rewrite (proj2 (cut_None slash a) Ha) in H. repeat case_match; simplify_eq; done.
  - rewrite cut_join in H by done. apply Forall_cons in Hpl as [_ Hpl].
    assert (Hc : contained (join "/" (b :: l))) by (unfold contained; by rewrite plain_join_contained).
    revert Hc H. generalize (join "/" (b :: l)). intros r Hc H. cbv zeta in H.
    destruct (negb _); [done|]. destruct (isReleaseTreeEntry r) eqn:Hin; [|done]. by injection H as <- _.
Qed.

(** *** The staging tree *)
Lemma has_prefix_cons c p d s : has_prefix (String c p) (String d s) = true <-> c = d /\ has_prefix p s = true.
Proof.
  rewrite !has_prefix_spec. simpl. split.
  - intros [t [= -> ->]]. split; [done|by exists t].
  - intros (-> & t & ->). by exists t.
Qed.

Definition top_of (p : string) : string := match cut slash p with Some (a, _) => a | None => p end.

(** Membership of the layout depends on the first component only. *)
Lemma layout_by_top p : contained p -> isReleaseTreeEntry p = true <->
  p = releaseManifestEntry \/ top_of p ∈ ["bin"; "packaging"; "scripts"]%string.
Proof.
  intros Hc. assert (Hpre : forall d, any_byte (Ascii.eqb slash) d = false -> d <> EmptyString ->
    ((has_prefix (d +:+ "/") p && (len (d +:+ "/") <? len p)) || bool_decide (p = d)) = true <-> top_of p = d).
  { intros d Hd Hne. rewrite orb_true_iff, andb_true_iff, has_prefix_spec, Z.ltb_lt, bool_decide_eq_true.
    unfold top_of. destruct (cut slash p) as [[a b]|] eqn:Hcut.
    - apply cut_Some in Hcut as [-> Ha]. split.
      + intros [[[t Ht] _]| <-].
        * rewrite str_app_assoc in Ht. simpl in Ht.
          assert (Hx : cut slash (a +:+ String slash b) = Some (d, t)) by (rewrite Ht; by apply cut_app).
          rewrite cut_app in Hx by done. congruence.
        * exfalso. revert Hd. clear. induction a as [|x a IH]; simpl; [done|]. intros [_ ?]%orb_false_iff. auto.
      + intros <-. left. split; [exists b; by rewrite str_app_assoc|].
        rewrite !len_app. destruct b as [|x b]; [|unfold len; simpl; lia]. exfalso.
        unfold contained in Hc. rewrite split_app in Hc by done. simpl in Hc.
        apply Forall_cons in Hc as [_ Hc]. apply Forall_cons in Hc as [[? _] _]. done.
    - apply cut_None in Hcut. split; [|by auto]. intros [[[t Ht] _]| ->]; [exfalso|done].
      rewrite Ht, str_app_assoc in Hcut. clear -Hcut. induction d as [|x d IH]; simpl in *; [done|].
      apply orb_false_iff in Hcut as [_ ?]. auto. }
  unfold isReleaseTreeEntry, releaseTreeFiles, releaseTreePrefixes. cbn [existsb].
  rewrite !orb_true_iff, bool_decide_eq_true.
  pose proof (Hpre "bin"%string) as H1. pose proof (Hpre "packaging"%string) as H2. pose proof (Hpre "scripts"%string) as H3.
  specialize (H1 eq_refl ltac:(done)). specialize (H2 eq_refl ltac:(done)). specialize (H3 eq_refl ltac:(done)).
  change ("bin" +:+ "/")%string with "bin/"%string in H1. change ("packaging" +:+ "/")%string with "packaging/"%string in H2.
  change ("scripts" +:+ "/")%string with "scripts/"%string in H3.
  change (trim_suffix "/" "bin/") with "bin"%string. change (trim_suffix "/" "packaging/") with "packaging"%string.
  change (trim_suffix "/" "scripts/") with "scripts"%string.
  rewrite !elem_of_cons, elem_of_nil. rewrite orb_true_iff in H1, H2, H3. rewrite H1, H2, H3. intuition congruence.
Qed.

Definition tree_ok (t : tree) : Prop :=
  map_Forall (fun p e => contained p /\ isReleaseTreeEntry p = true /\
    match e with
    | Directory => True
    | File _ mode => mode = if bool_decide (p ∈ executableEntries) then 448 else 384
    end) t.


Lemma join_snoc l c : l <> [] -> join "/" (l ++ [c]) = join "/" l +:+ String slash c.
Proof.
  induction l as [|a [|b l] IH]; intros Hne; [done|done|].
  change (join "/" ((a :: b :: l) ++ [c])) with (a +:+ String slash (join "/" ((b :: l) ++ [c]))).
  rewrite IH by done. change (join "/" (a :: b :: l)) with (a +:+ String slash (join "/" (b :: l))).
  by rewrite str_app_assoc.
Qed.

Lemma join_empty l : Forall plain l -> join "/" l = EmptyString -> l = [].
Proof.
  destruct l as [|a [|b l]]; [done| |]; intros [(Ha & _) _]%Forall_cons; simpl; [done|].
  destruct a; done.
Qed.

Lemma ancestors_join pre comps p :
  Forall plain pre -> Forall plain comps -> p ∈ ancestors (join "/" pre) comps ->
  exists l, l <> [] /\ l `prefix_of` comps /\ p = join "/" (pre ++ l).
Proof.
  revert pre. induction comps as [|c comps IH]; intros pre Hpre Hc Hin; simpl in Hin; [by apply elem_of_nil in Hin|].
  apply Forall_cons in Hc as [Hcc Hc].
  assert (Hhere : (if bool_decide (join "/" pre = EmptyString) then c else join "/" pre +:+ String slash c) =
                  join "/" (pre ++ [c])).
  { case_bool_decide as He.
    - apply join_empty in He as ->; done.
    - rewrite join_snoc; [done|]. intros ->. done. }
  rewrite Hhere in Hin. apply elem_of_cons in Hin as [->|Hin].
  - exists [c]. split_and!; [done|by exists comps|done].
  - destruct (IH (pre ++ [c])) as (l & Hl & Hpl & ->); [by apply Forall_app; split; [|constructor]|done|done|].
    exists (c :: l). split_and!; [done|by apply prefix_cons|]. by rewrite <-app_assoc.
Qed.

Lemma top_of_join a l : Forall plain (a :: l) -> top_of (join "/" (a :: l)) = a.
Proof.
  intros Hl. unfold top_of. destruct l as [|b l]; [|by rewrite cut_join].
  apply Forall_cons in Hl as [(_ & _ & _ & Ha) _]. simpl. by rewrite (proj2 (cut_None slash a) Ha).
Qed.

(** The directories made for a path of the layout belong to the layout. *)
Lemma ancestors_ok a l comps p :
  contained (join "/" (a :: l)) -> Forall plain (a :: l) -> isReleaseTreeEntry (join "/" (a :: l)) = true ->
  comps `prefix_of` (a :: l) -> (comps = a :: l \/ l <> []) -> p ∈ ancestors EmptyString comps ->
  contained p /\ isReleaseTreeEntry p = true.
Proof.
  intros Hc Hpl Hlay [suf Hpre] Hor Hin.
  assert (Hcp : Forall plain comps) by (rewrite Hpre in Hpl; by apply Forall_app in Hpl as [? _]).
  destruct (ancestors_join [] comps p) as (k & Hk & [suf' Hkc] & ->); [constructor|done|done|]. simpl.
  assert (Hkp : Forall plain k) by (rewrite Hkc in Hcp; by apply Forall_app in Hcp as [? _]).
  assert (Hck : contained (join "/" k)) by (unfold contained; by rewrite plain_join_contained).
  split; [done|]. apply layout_by_top in Hlay; [|done]. apply layout_by_top; [done|].
  assert (Htop : top_of (join "/" k) = a).
  { destruct k as [|x k]; [done|]. rewrite top_of_join by done. rewrite Hkc in Hpre. simpl in Hpre. congruence. }
  rewrite Htop. rewrite top_of_join in Hlay by done. destruct Hlay as [Heq|Ht]; [left|by right].
  assert (Hl0 : a :: l = split slash releaseManifestEntry) by (rewrite <-Heq; by rewrite plain_join_contained).
  change (split slash releaseManifestEntry) with [releaseManifestEntry] in Hl0. injection Hl0 as -> ->.
  destruct Hor as [->|]; [|done]. destruct k as [|x [|y k]]; [done| |done]. simpl in Hkc. by injection Hkc as ->.
Qed.

Lemma contained_comps p :
  contained p -> exists a l, split slash p = a :: l /\ p = join "/" (a :: l) /\ Forall plain (a :: l).
Proof.
  unfold contained. intros Hc. destruct (split slash p) as [|a l] eqn:Hs.
  { by apply split_not_nil in Hs. }
  exists a, l. split_and!; [done|by rewrite <-Hs, join_split|done].
Qed.

Lemma tree_ok_dirs dirs t :
  tree_ok t -> (forall p, p ∈ dirs -> contained p /\ isReleaseTreeEntry p = true) ->
  tree_ok (foldl add_directory t dirs) /\
  forall p e, t !! p = Some e -> foldl add_directory t dirs !! p = Some e.
Proof.
  revert t. induction dirs as [|d dirs IH]; intros t Ht Hd; simpl; [done|].
  assert (Hdd := Hd d ltac:(set_solver)).
  destruct (IH (add_directory t d)) as [Ht' Hkeep].
  - unfold add_directory. destruct (t !! d) eqn:Hl; [done|].
    intros p e. rewrite lookup_insert_Some. intros [[<- <-]|[_ ?]]; [by destruct Hdd|by apply Ht].
  - intros p Hp. apply Hd. set_solver.
  - split; [done|]. intros p e Hp. apply Hkeep. unfold add_directory.
    destruct (t !! d) eqn:Hl; [done|]. rewrite lookup_insert_ne; [done|]. by intros ->; rewrite Hl in Hp.
Qed.

Lemma mkdirAll_ok comps relative t t' :
  tree_ok t -> contained relative -> isReleaseTreeEntry relative = true ->
  (comps = split slash relative \/ comps = removelast (split slash relative)) ->
  mkdirAll comps t = Ok t' ->
  tree_ok t' /\ forall p e, t !! p = Some e -> t' !! p = Some e.
Proof.
  intros Ht Hc Hl Hcomps. unfold mkdirAll. destruct (existsb _ _); [done|]. intros [= <-].
  apply tree_ok_dirs; [done|]. intros p Hp.
  destruct (contained_comps _ Hc) as (a & l & Hs & Heq & Hpl). rewrite Hs in Hcomps. rewrite Heq in Hc, Hl.
  apply (ancestors_ok a l comps); try done.
  - destruct Hcomps as [->| ->]; [done|]. exists [List.last (a :: l) EmptyString]. by apply app_removelast_last.
  - destruct Hcomps as [->| ->]; [by left|]. destruct l as [|b l]; [|by right].
    simpl in Hp. by apply elem_of_nil in Hp.
Qed.

Definition extraction_ok (x : extraction) : Prop :=
  tree_ok (written_tree x) /\
  (sawBinary x = true -> exists content, written_tree x !! releaseBinaryEntry = Some (File content 448)).

Lemma extract_member_ok m x x' disk :
  extraction_ok x -> extract_member m x = (Ok x', disk) -> extraction_ok x'.
Proof.
  intros [Ht Hb]. unfold extract_member. cbn [entries extracted root sawBinary written_tree].
  destruct (_ <? _); [done|]. destruct (releaseEntryPath _ _) as [[relative r]|e] eqn:Hp; [|done].
  case_bool_decide as Hne; [by intros [= <- _]|]. destruct (entry_path_safe _ _ _ _ Hp Hne) as [Hc Hl].
  destruct (Typeflag m); [| |done].
  - destruct (mkdirAll _ _) as [t|e] eqn:Hm; [|done]. intros [= <- _].
    destruct (mkdirAll_ok _ relative _ _ Ht Hc Hl (or_introl eq_refl) Hm) as [Ht' Hkeep].
    split; [done|]. intros Hs. destruct (Hb Hs) as [c ?]. exists c. by apply Hkeep.
  - destruct (_ || _); [done|]. unfold writeArchiveFile.
    destruct (mkdirAll _ _) as [t|e] eqn:Hm; [|done].
    destruct (mkdirAll_ok _ relative _ _ Ht Hc Hl (or_intror eq_refl) Hm) as [Ht' Hkeep].
    destruct (t !! relative) eqn:Hfree; [done|]. destruct (limited_copy _ _ _) as [content ok].
    destruct ok; simpl; [|done]. destruct (_ <? _); [done|]. intros [= <- _]. split; simpl.
    + intros p e. rewrite lookup_insert_Some. intros [[<- <-]|[_ ?]]; [done|by apply Ht'].
    + intros [Hs|Hs%bool_decide_eq_true]%orb_true_iff.
      * destruct (Hb Hs) as [c Hbin]. apply Hkeep in Hbin. exists c. rewrite lookup_insert_ne; [done|].
        intros ->. by rewrite Hfree in Hbin.
      * subst relative. exists content. by rewrite lookup_insert_eq.
Qed.

Lemma extract_members_ok l x x' disk :
  extraction_ok x -> extract_members l x = (Ok x', disk) -> extraction_ok x'.
Proof.
  revert x disk. induction l as [|m l IH]; intros x disk Hx; simpl; [by intros [= <- _]|].
  destruct (extract_member m x) as [[y|e] d] eqn:Hm; [|done].
  destruct (extract_members l y) as [r more] eqn:Hl. intros [= -> _].
  eapply IH; [|exact Hl]. by eapply extract_member_ok.
Qed.

(** *** The bytes written *)
Lemma limited_copy_len size body complete :
  0 <= size -> len (limited_copy size body complete).1 <= Z.max 0 (wrap64 (size + 1)).
Proof.
  intros Hs. unfold limited_copy. destruct (Z.leb_spec (wrap64 (size + 1)) 0); [unfold len; simpl; lia|].
  destruct (Z.ltb_spec (len body) (wrap64 (size + 1))); simpl; [lia|].
  assert (Ht : forall n s, (String.length (take_bytes n s) <= n)%nat).
  { induction n as [|n IH]; intros [|c s]; simpl; try lia. specialize (IH s). lia. }
  unfold len. specialize (Ht (Z.to_nat (wrap64 (size + 1))) body). lia.
Qed.

Lemma extract_member_disk m x r disk :
  0 <= extracted x <= maxExtractedBytes -> Size m <= int64_max - maxExtractedBytes ->
  extract_member m x = (r, disk) ->
  0 <= disk /\ extracted x + disk <= maxExtractedBytes + 1 /\
  match r with Ok x' => extracted x' = extracted x + disk /\ extracted x' <= maxExtractedBytes | Err _ => True end.
Proof.
  intros Hx Hsize. unfold extract_member. cbn [entries extracted root sawBinary written_tree].
  destruct (_ <? _); [intros [= <- <-]; lia|].
  destruct (releaseEntryPath _ _) as [[relative rt]|e]; [|intros [= <- <-]; lia].
  case_bool_decide; [intros [= <- <-]; simpl; lia|].
  destruct (Typeflag m); [| |intros [= <- <-]; lia].
  - destruct (mkdirAll _ _); intros [= <- <-]; simpl; lia.
  - destruct (Z.ltb_spec (Size m) 0); simpl; [intros [= <- <-]; lia|].
    unfold maxExtractedBytes, int64_max, int64_min in *.
    rewrite wrap64_small by (unfold int64_min, int64_max; lia).
    destruct (Z.ltb_spec (512 * 1024 * 1024) (extracted x + Size m)); [intros [= <- <-]; lia|].
    unfold writeArchiveFile. destruct (mkdirAll _ _) as [t|e]; [|intros [= <- <-]; lia].
    destruct (t !! relative); [intros [= <- <-]; lia|].
    pose proof (limited_copy_len (Size m) (Body m) (Complete m) ltac:(lia)) as Hlen.
    rewrite wrap64_small in Hlen by (unfold int64_min, int64_max; lia).
    destruct (limited_copy _ _ _) as [content ok]. simpl in Hlen.
    assert (0 <= len content) by (unfold len; lia).
    destruct ok; simpl; [|intros [= <- <-]; lia].
    destruct (Z.ltb_spec (Size m) (len content)); intros [= <- <-]; simpl; [lia|].
    rewrite wrap64_small by (unfold int64_min, int64_max; lia). lia.
Qed.

Lemma extract_members_disk l x r disk :
  0 <= extracted x <= maxExtractedBytes -> Forall (fun m => Size m <= int64_max - maxExtractedBytes) l ->
  extract_members l x = (r, disk) -> 0 <= disk /\ extracted x + disk <= maxExtractedBytes + 1.
Proof.
  revert x r disk. induction l as [|m l IH]; intros x r disk Hx Hl; simpl; [intros [= _ <-]; lia|].
  apply Forall_cons in Hl as [Hm Hl]. destruct (extract_member m x) as [r1 d1] eqn:He.
  destruct (extract_member_disk m x r1 d1 Hx Hm He) as (? & ? & Hr1).
  destruct r1 as [y|e]; [|intros [= _ <-]; done].
  destruct (extract_members l y) as [r2 d2] eqn:Hrest. intros [= _ <-].
  destruct (IH y r2 d2 ltac:(lia) Hl Hrest). lia.
Qed.

Lemma extraction_start_ok : extraction_ok (mk_extraction 0 0 EmptyString false ∅).
Proof. split; [apply map_Forall_empty|done]. Qed.

(** ** Properties *)

(** C35. Whatever an archive holds, a staging tree that is extracted lies inside the
    release layout: every path has only plain components (none empty, [.] or [..])
    and belongs to the layout, every file has mode 0700 exactly when it is one of
    the release's executables and 0600 otherwise, the panel's binary is a regular
    executable and the installer is there. *)
Theorem release_extraction_contained untar archive t disk :
  extractRelease untar archive = (Ok t, disk) ->
  tree_ok t /\
  (exists content, t !! releaseBinaryEntry = Some (File content 448)) /\
  is_Some (t !! releaseInstallerEntry).
Proof.
  unfold extractRelease. destruct (untar archive) as [[l complete]|]; [|done].
  destruct (extract_members _ _) as [[x|e] d] eqn:Hx; [|done].
  apply extract_members_ok in Hx as [Ht Hb]; [|apply extraction_start_ok].
  destruct complete; simpl; [|done]. destruct (sawBinary x); simpl; [|done].
  destruct (written_tree x !! releaseInstallerEntry) eqn:Hi; intros [= <- _].
  split_and!; [done|by apply Hb|by rewrite Hi].
Qed.

(** The size limit holds for declared sizes up to the int64 bound less the limit:
    then extraction, successful or not, writes at most one byte more than
    [maxExtractedBytes] to the disk. *)
Theorem release_extraction_bounded untar archive l complete r disk :
  untar archive = Some (l, complete) -> Forall (fun m => Size m <= int64_max - maxExtractedBytes) l ->
  extractRelease untar archive = (r, disk) -> 0 <= disk <= maxExtractedBytes + 1.
Proof.
  intros Hu Hl. unfold extractRelease. rewrite Hu.
  destruct (extract_members _ _) as [[x|e] d] eqn:Hx; intros [= _ <-];
    eapply extract_members_disk in Hx; try done; unfold maxExtractedBytes in *; simpl in *; lia.
Qed.

Fixpoint repeat_byte (n : nat) : string :=
  match n with O => EmptyString | S n => String "x" (repeat_byte n) end.
Lemma repeat_byte_len n : len (repeat_byte n) = Z.of_nat n.
Proof. unfold len. f_equal. by induction n as [|n IH]; simpl; [|rewrite IH]. Qed.

(** A member whose declared size makes the sum of the size check wrap around. *)
Definition bomb (n : nat) : list member :=
  [mk_member "nexa/RELEASE" TypeReg 2 "ab" true;
   mk_member "nexa/bin/nexa" TypeReg (int64_max - 1) (repeat_byte n) false].

(** Beyond that bound the check does not protect: the sum of the bytes extracted
    and the declared size is an int64 and wraps around, so there are archives of two
    members for which extraction writes any number of bytes. *)
Theorem release_size_check_overflows n :
  Z.of_nat n < int64_max - 2 ->
  extractRelease (fun _ => Some (bomb n, false)) EmptyString = (Err errTar, 2 + Z.of_nat n).
Proof.
  intros Hn. unfold extractRelease, bomb. cbn [extract_members].
  set (x0 := mk_extraction 0 0 EmptyString false ∅).
  replace (extract_member (mk_member "nexa/RELEASE" TypeReg 2 "ab" true) x0) with
    (Ok (E := error) (mk_extraction 1 2 "nexa" false {["RELEASE"%string := File "ab" 384]}), 2)
    by (vm_compute; reflexivity).
  assert (Hm : extract_member (mk_member "nexa/bin/nexa" TypeReg (int64_max - 1) (repeat_byte n) false)
      (mk_extraction 1 2 "nexa" false {["RELEASE"%string := File "ab" 384]}) = (Err errTar, Z.of_nat n)).
  { unfold extract_member. cbn [entries extracted root sawBinary written_tree Name Typeflag Size].
    change (maxArchiveEntries <? 1 + 1) with false.
    change (releaseEntryPath "nexa/bin/nexa" "nexa") with (Ok (E := error) ("bin/nexa"%string, "nexa"%string)).
    cbn match. rewrite bool_decide_eq_false_2 by done.
    change ((int64_max - 1 <? 0) || (maxExtractedBytes <? wrap64 (2 + (int64_max - 1)))) with false. cbn match.
    unfold writeArchiveFile.
    change (mkdirAll (removelast (split slash "bin/nexa")) {["RELEASE"%string := File "ab" 384]}) with
      (Ok (E := error) (<["bin"%string := Directory]> ({["RELEASE"%string := File "ab" 384]} : tree))).
    cbn match. rewrite lookup_insert_ne, lookup_singleton_ne by done.
    unfold limited_copy. cbn [Size Body Complete]. change (wrap64 (int64_max - 1 + 1)) with int64_max.
    change (int64_max <=? 0) with false. cbn match. rewrite repeat_byte_len.
    rewrite (proj2 (Z.ltb_lt _ _)) by (unfold int64_max in *; lia). cbn. by rewrite repeat_byte_len. }
  rewrite Hm. done.
Qed.

Section agreement.
Context (semver_IsValid : string -> bool) (semver_Canonical : string -> string)
        (sha256hex : string -> string).

(** Acceptance as the conjunction of the comparisons. *)
Lemma verifyReleaseAgreement_Ok release manifest arch binaryVersion digest archive u :
  let version := normalizeVersion semver_IsValid semver_Canonical in
  verifyReleaseAgreement semver_IsValid semver_Canonical sha256hex release manifest arch
    binaryVersion digest archive = Ok u <->
  exists suffix, assetArch arch = Some suffix /\
    trim_space (Tag release) = "v" +:+ Version release /\
    AssetName release = "nexa-panel-linux-" +:+ suffix +:+ ".tar.gz" /\
    m_Arch manifest = suffix /\ Version release <> EmptyString /\
    version (m_Version manifest) = Version release /\ version binaryVersion = Version release /\
    sha256hex archive = to_lower digest.
Proof.
  intros version. destruct u. unfold verifyReleaseAgreement. fold version.
  destruct (assetArch arch) as [suffix|]; [|by split; [|intros (? & ? & _)]].
  repeat case_bool_decide; simpl; unfold guard_err; repeat case_bool_decide;
    (split; [intros ?; try done; eexists; split_and!; try reflexivity; try assumption; congruence
            |intros (suffix' & ? & ? & ? & ? & ? & ? & ? & ?); simplify_eq; congruence]).
Qed.

(** A bundle is accepted exactly when every statement of what it is agrees: the
    tag and the version, the asset and the architecture stamp with the node's
    architecture, the stamped version and the version the binary reports with the
    release, and the digest with the bytes. *)
Theorem release_agreement_exact release manifest arch binaryVersion digest archive :
  let version := normalizeVersion semver_IsValid semver_Canonical in
  verifyReleaseAgreement semver_IsValid semver_Canonical sha256hex release manifest arch
    binaryVersion digest archive = Ok tt <->
  exists suffix, assetArch arch = Some suffix /\
    trim_space (Tag release) = "v" +:+ Version release /\
    AssetName release = "nexa-panel-linux-" +:+ suffix +:+ ".tar.gz" /\
    m_Arch manifest = suffix /\ Version release <> EmptyString /\
    version (m_Version manifest) = Version release /\ version binaryVersion = Version release /\
    sha256hex archive = to_lower digest.
Proof. apply verifyReleaseAgreement_Ok. Qed.
End agreement.

(** ** A concrete release *)
Module Sample.
Definition members : list member :=
  [mk_member "nexa-0.2.0/" TypeDir 0 EmptyString true;
   mk_member "nexa-0.2.0/RELEASE" TypeReg 5 "hello" true;
   mk_member "nexa-0.2.0/bin/nexa" TypeReg 3 "elf" true;
   mk_member "nexa-0.2.0/scripts//./install.sh" TypeReg 2 "#!" true].
Definition untar (archive : string) : option (list member * bool) := Some (members, true).
Definition sample_tree : tree :=
  <["scripts/install.sh"%string := File "#!" 448]> (<["scripts"%string := Directory]>
  (<["bin/nexa"%string := File "elf" 448]> (<["bin"%string := Directory]>
  {["RELEASE"%string := File "hello" 384]}))).

Example sample_extract : extractRelease untar EmptyString = (Ok sample_tree, 10).
Proof. vm_compute. reflexivity. Qed.
Example sample_traversal : releaseEntryPath "nexa/../../etc/shadow" "nexa" = Err errTraversing.
Proof. reflexivity. Qed.
Example sample_clean : map path_clean ["a//b/../c/"; "../x"; "/.."; "" +:+ "."; "a/../.."]%string =
  ["a/c"; "../x"; "/"; "."; ".."]%string.
Proof. reflexivity. Qed.

Lemma release_extraction_contained_witness : is_Some (sample_tree !! releaseInstallerEntry).
Proof. apply (release_extraction_contained untar EmptyString sample_tree 10). vm_compute. reflexivity. Defined.

Lemma release_extraction_bounded_witness : 0 <= 10 <= maxExtractedBytes + 1.
Proof.
  apply (release_extraction_bounded untar EmptyString members true (Ok sample_tree) 10).
  - reflexivity.
  - repeat constructor; vm_compute; discriminate.
  - vm_compute. reflexivity.
Defined.

Lemma release_size_check_overflows_witness :
  (extractRelease (fun _ => Some (bomb 1000, false)) EmptyString).2 = 1002.
Proof. rewrite (release_size_check_overflows 1000); [reflexivity|vm_compute; reflexivity]. Defined.
End Sample.
