(* ===== verification/Update.v ===== *)
(** * The host and the data of an update

    The types of [internal/platform/operators/selfupdate] and the host an update
    runs on: the files by clean absolute path, the binary the control panel's
    service runs, and an oracle that decides, operation by operation, whether a
    system call proceeds, is refused, or the process dies there.  Operations are
    programs of a small state monad over it. *)

From S2P Require Import Prelude GoStrings Release.

Local Open Scope Z_scope.

(** ** Data *)
Inductive transactionPhase :=
| phasePrepared | phaseActivating | phaseSucceeded | phaseFailed
| phaseUnknown (s : string).

Record Result := mk_result {
  r_Previous : string;
  r_Target : string;
  Swapped : bool;
  Activated : bool;
  RolledBack : bool;
  PackagingSynced : bool;
  PackagingNote : string;
}.

Record controlDatabaseSnapshot := mk_dbsnap {
  Path : string;
  Captured : bool;
  Existed : bool;
  Mode : Z;
  UID : Z;
  GID : Z;
}.

Record updateTransaction := mk_transaction {
  ID : string;
  TargetVersion : string;
  PreviousVersion : string;
  Phase : transactionPhase;
  SnapshotDir : string;
  PreservedBinary : string;
  DatabaseSnapshot : controlDatabaseSnapshot;
  ActivationDatabaseRestore : option controlDatabaseSnapshot;
  PackagingRunning : bool;
  Failure : string;
  FailureReported : bool;
  t_Result : Result;
  CreatedAt : Z;
}.

Record snapshotEntry := mk_entry {
  e_Path : string;
  BackupName : string;
  e_Mode : Z;
  e_UID : Z;
  e_GID : Z;
  LinkTarget : string;
  e_Existed : bool;
}.

Record TransactionStatus := mk_status {
  Present : bool;
  s_ID : string;
  s_Target : string;
  s_Previous : string;
  s_Phase : option transactionPhase;
  Terminal : bool;
  s_Failure : string;
  s_Result : Result;
}.

Definition zero_result : Result := mk_result EmptyString EmptyString false false false false EmptyString.

(** Assignments to the fields of a transaction. *)
Definition set_phase (p : transactionPhase) (t : updateTransaction) : updateTransaction :=
  mk_transaction (ID t) (TargetVersion t) (PreviousVersion t) p (SnapshotDir t) (PreservedBinary t)
    (DatabaseSnapshot t) (ActivationDatabaseRestore t) (PackagingRunning t) (Failure t)
    (FailureReported t) (t_Result t) (CreatedAt t).
Definition set_packaging (running : bool) (t : updateTransaction) : updateTransaction :=
  mk_transaction (ID t) (TargetVersion t) (PreviousVersion t) (Phase t) (SnapshotDir t) (PreservedBinary t)
    (DatabaseSnapshot t) (ActivationDatabaseRestore t) running (Failure t)
    (FailureReported t) (t_Result t) (CreatedAt t).
Definition set_failure (failure : string) (reported : bool) (t : updateTransaction) : updateTransaction :=
  mk_transaction (ID t) (TargetVersion t) (PreviousVersion t) (Phase t) (SnapshotDir t) (PreservedBinary t)
    (DatabaseSnapshot t) (ActivationDatabaseRestore t) (PackagingRunning t) failure reported
    (t_Result t) (CreatedAt t).
Definition set_result (r : Result) (t : updateTransaction) : updateTransaction :=
  mk_transaction (ID t) (TargetVersion t) (PreviousVersion t) (Phase t) (SnapshotDir t) (PreservedBinary t)
    (DatabaseSnapshot t) (ActivationDatabaseRestore t) (PackagingRunning t) (Failure t)
    (FailureReported t) r (CreatedAt t).
Definition set_target (target : string) (t : updateTransaction) : updateTransaction :=
  mk_transaction (ID t) target (PreviousVersion t) (Phase t) (SnapshotDir t) (PreservedBinary t)
    (DatabaseSnapshot t) (ActivationDatabaseRestore t) (PackagingRunning t) (Failure t)
    (FailureReported t) (t_Result t) (CreatedAt t).

Definition set_rolled_back (rolled swapped : bool) (r : Result) : Result :=
  mk_result (r_Previous r) (r_Target r) swapped (Activated r) rolled (PackagingSynced r) (PackagingNote r).
Definition set_activated (r : Result) : Result :=
  mk_result (r_Previous r) (r_Target r) (Swapped r) true (RolledBack r) (PackagingSynced r) (PackagingNote r).

(** ** Files *)

(** What a file holds: bytes, or a document the operator wrote there. *)
Inductive content :=
| Bytes (b : string)
| Journal (t : updateTransaction)
| Manifest (entries : list snapshotEntry).

Inductive node :=
| Reg (c : content) (mode uid gid : Z)
| Link (target : string) (uid gid : Z)
| Special.
Notation filesystem := (gmap string node).

(** [FileMode.Perm] *)
Definition perm (mode : Z) : Z := Z.land mode 511.

(** [filepath.Join] of a clean path and a clean relative one. *)
Definition path_join (a b : string) : string := a +:+ String slash b.
Definition under (root p : string) : bool := has_prefix (root +:+ "/") p.

Record Command := mk_command {
  c_Name : string;
  c_Args : list string;
  c_LockFile : bool;          (* the lifecycle lock is inherited as descriptor 3 *)
  c_Stdin : string;
}.
Definition command (name : string) (args : list string) : Command := mk_command name args false EmptyString.

Inductive answer := Proceed | Refuse | Die.

Record machine := mk_machine {
  files : filesystem;
  serving : option content;        (* what the API service runs; [None]: stopped *)
  schedule : list answer;          (* answers to the coming operations; then [Proceed] *)
  ran : list (Command * answer);   (* the commands started and how they ended, newest first *)
}.
Definition with_files (fs : filesystem) (h : machine) : machine :=
  mk_machine fs (serving h) (schedule h) (ran h).
Definition with_schedule (s : list answer) (h : machine) : machine :=
  mk_machine (files h) (serving h) s (ran h).

(** ** Programs *)
Inductive outcome (A : Type) :=
| Done (a : A)
| Failed (e : string)
| Crashed.
Arguments Done {A} a.
Arguments Failed {A} e.
Arguments Crashed {A}.

Definition M (A : Type) : Type := machine -> outcome A * machine.

#[export] Instance M_ret : MRet M := fun A a h => (Done a, h).
#[export] Instance M_bind : MBind M := fun A B k m h =>
  match m h with
  | (Done a, h') => k a h'
  | (Failed e, h') => (Failed e, h')
  | (Crashed, h') => (Crashed, h')
  end.
Definition fail {A} (e : string) : M A := fun h => (Failed e, h).
Definition get : M machine := fun h => (Done h, h).
Definition modify (f : machine -> machine) : M unit := fun h => (Done tt, f h).

(** [if err := m; err != nil]: the error as a value. *)
Definition attempt {A} (m : M A) : M (A + string) := fun h =>
  match m h with
  | (Done a, h') => (Done (inl a), h')
  | (Failed e, h') => (Done (inr e), h')
  | (Crashed, h') => (Crashed, h')
  end.

(** [fmt.Errorf("what: %w", err)] *)
Definition wrap {A} (what : string) (m : M A) : M A := fun h =>
  match m h with
  | (Failed e, h') => (Failed (what +:+ ": " +:+ e), h')
  | r => r
  end.

Definition ask : M answer := fun h =>
  (Done (default Proceed (head (schedule h))), with_schedule (tail (schedule h)) h).

Definition system_error : string := "system error".

(** A system call without effect on the tracked state. *)
Definition io : M unit :=
  a ← ask;
  match a with
  | Proceed => mret tt
  | Refuse => fail system_error
  | Die => fun h => (Crashed, h)
  end.

Definition update_files (f : filesystem -> filesystem) : M unit := modify (fun h => with_files (f (files h)) h).

Fixpoint for_each {A} (l : list A) (f : A -> M unit) : M unit :=
  match l with
  | [] => mret tt
  | x :: rest => _ ← f x; for_each rest f
  end.

(** ** System calls *)
Section calls.
Context (follow : filesystem -> string -> option node).

Definition lstat (p : string) : M (option node) := _ ← io; h ← get; mret (files h !! p).
(** [os.Stat] and [os.Open] follow a symbolic link. *)
Definition stat (p : string) : M (option node) :=
  _ ← io; h ← get;
  mret (match files h !! p with Some (Link _ _ _) => follow (files h) p | n => n end).

(** [os.ReadFile]; [None]: the file does not exist. *)
Definition read_file (p : string) : M (option content) :=
  n ← stat p;
  match n with
  | None => mret None
  | Some (Reg c _ _ _) => mret (Some c)
  | Some _ => fail system_error
  end.
Definition read_existing (p : string) : M content :=
  c ← read_file p; match c with Some c => mret c | None => fail system_error end.

(** [os.Remove] by a caller that accepts a missing file. *)
Definition remove (p : string) : M unit := _ ← io; update_files (delete p).

Definition symlink (target p : string) : M unit :=
  _ ← io; h ← get;
  match files h !! p with
  | Some _ => fail system_error
  | None => update_files (<[p := Link target 0 0]>)
  end.

Definition set_owner (uid gid : Z) (n : node) : node :=
  match n with
  | Reg c mode _ _ => Reg c mode uid gid
  | Link t _ _ => Link t uid gid
  | Special => Special
  end.
(** [os.Chown] and [os.Lchown] on a path that is no link, respectively one. *)
Definition chown (p : string) (uid gid : Z) : M unit := _ ← io; update_files (alter (set_owner uid gid) p).

(** The pattern of every atomic write: stage a temporary file, rename it over the
    path, flush the directory. *)
Definition publish (p : string) (c : content) (mode : Z) : M unit :=
  _ ← io;                                            (* create, write, chmod, sync, close *)
  _ ← io; _ ← update_files (<[p := Reg c mode 0 0]>);  (* rename *)
  io.                                                (* sync the directory *)

Definition copyRegularFile (source destination : string) (mode : Z) : M unit :=
  c ← read_existing source; publish destination c mode.
End calls.
