(* ===== verification/UpdateOps.v ===== *)
(** * Host updates

    The operations of [HostOperator] in [internal/platform/operators/selfupdate]
    (transaction.go, apply.go, selfupdate.go, signature.go, client.go) as programs on
    the host of [Update].  The parameters are what lies outside the repository: the
    effect of commands on the files, what a binary prints for [version], SQLite's
    [VACUUM INTO], symbolic-link resolution, the release source, the downloads, the
    tar decoder, the digest and the semver module. *)

From S2P Require Import Prelude GoStrings Json Release Update.

Local Open Scope Z_scope.

Record HostOperator := mk_operator {
  installed : string;
  binaryPath : string;
  databasePath : string;
  workRoot : string;
  lockPath : string;
  allowedSignersPath : string;
  managedPaths : list string;
  packageStateDir : string;
  arch : string;
}.

(** [HostConfig]; the empty string and [None] are the zero values. *)
Record HostConfig := mk_config {
  InstalledVersion : string;
  BinaryPath : string;
  ControlDatabasePath : string;
  WorkRoot : string;
  LockPath : string;
  AllowedSignersPath : string;
  Arch : string;
  cfg_managedPaths : option (list string);
  cfg_packageStateDir : string;
}.

Record Availability := mk_availability {
  InstalledVersion' : string;
  Latest' : option Release.Release;
  UpdateAvailable : bool;
}.

Definition transactionFileName : string := "transaction.json".
Definition transactionDirName : string := "transactions".
Definition defaultBinaryPath : string := "/usr/bin/nexa".
Definition defaultWorkRoot : string := "/var/lib/nexa-panel-update".
Definition defaultControlDatabasePath : string := "/var/lib/nexa-panel/control.db".
Definition defaultLifecycleLock : string := "/run/lock/nexa-panel-lifecycle.lock".
Definition defaultAllowedSignersPath : string := "/etc/nexa-panel/release-signers".
Definition defaultPackageStateDir : string := "/var/lib/dpkg".
Definition releaseSignerIdentity : string := "nexa-panel-release".
Definition releaseSignatureNamespace : string := "file".
Definition releaseInstallerFlag : string := "--sync-packaging".
Definition releaseInstallerNoStart : string := "--no-start".
Definition maxBinaryBytes : Z := 256 * 1024 * 1024.
Definition maxArchiveBytes : Z := 256 * 1024 * 1024.
Definition maxChecksumBytes : Z := 4 * 1024.
Definition maxSignatureBytes : Z := 64 * 1024.
Definition maxAllowedSignerBytes : Z := 64 * 1024.

Definition defaultManagedPackagingPaths : list string := [
  "/usr/lib/systemd/system/nexa-agent.service";
  "/usr/lib/systemd/system/nexa-api.service";
  "/usr/lib/systemd/system/nexa-panel-system-backup.service";
  "/usr/lib/systemd/system/nexa-panel-system-backup.timer";
  "/usr/lib/systemd/system/nexa-update-recovery.service";
  "/etc/systemd/system/multi-user.target.wants/nexa-update-recovery.service";
  "/usr/lib/sysusers.d/nexa-panel.conf";
  "/usr/lib/tmpfiles.d/nexa-panel.conf";
  "/etc/systemd/system/nexa-api.service.d/10-nexa-panel.conf";
  "/etc/systemd/system/nexa-api.service.d/10-insecure-http.conf";
  "/etc/nexa-panel/release-signers";
  "/etc/nexa-panel/publishing.json";
  "/etc/nginx/sites-available/nexa-panel.conf";
  "/etc/nginx/sites-enabled/nexa-panel.conf";
  "/etc/nginx/snippets/nexa-panel-proxy.conf";
  "/usr/lib/nexa-panel/uninstall.sh";
  "/usr/sbin/nexa-uninstall"]%string.

(** What lies outside the repository. *)
Record environment := mk_environment {
  env_semver_IsValid : string -> bool;
  env_semver_Canonical : string -> string;
  env_semver_Compare : string -> string -> Z;
  env_sha256hex : string -> string;
  env_untar : string -> option (list member * bool);
  env_follow : filesystem -> string -> option node;
  env_reports : content -> string;
  env_effect : Command -> answer -> filesystem -> filesystem;
  env_output : Command -> string;
  env_vacuum : content -> option node -> content;
  env_content_size : content -> Z;
  env_source_Latest : string -> result string Release.Release;
  env_source_ByVersion : string -> string -> result string Release.Release;
  env_fetch : string -> Z -> result string string;
  env_now : Z;
}.

Section operator.
Context (E : environment).
Local Abbreviation semver_IsValid := (env_semver_IsValid E).
Local Abbreviation semver_Canonical := (env_semver_Canonical E).
Local Abbreviation semver_Compare := (env_semver_Compare E).
Local Abbreviation sha256hex := (env_sha256hex E).
Local Abbreviation untar := (env_untar E).
Local Abbreviation follow := (env_follow E).
Local Abbreviation reports := (env_reports E).
Local Abbreviation effect := (env_effect E).
Local Abbreviation output := (env_output E).
Local Abbreviation vacuum := (env_vacuum E).
Local Abbreviation content_size := (env_content_size E).
Local Abbreviation source_Latest := (env_source_Latest E).
Local Abbreviation source_ByVersion := (env_source_ByVersion E).
Local Abbreviation fetch := (env_fetch E).
Local Abbreviation now := (env_now E).

Local Abbreviation normalizeVersion := (normalizeVersion semver_IsValid semver_Canonical).
Local Abbreviation isNewer := (isNewer semver_IsValid semver_Canonical semver_Compare).
Local Abbreviation isPlausibleVersion := (isPlausibleVersion semver_IsValid semver_Canonical).

Definition is_empty (s : string) : bool := bool_decide (s = EmptyString).
Definition or_default (s d : string) : string := if is_empty s then d else s.
Definition is_abs (p : string) : bool := has_prefix "/" p.

Definition NewHostOperator (config : HostConfig) : result string HostOperator :=
  let installed := normalizeVersion (InstalledVersion config) in
  let databasePath := or_default (ControlDatabasePath config) defaultControlDatabasePath in
  let lockPath := or_default (LockPath config) defaultLifecycleLock in
  if is_empty installed then Err "self-update requires the installed panel version"%string
  else if negb (is_ok (match assetArch (Arch config) with Some a => Ok (E := unit) a | None => Err tt end))
  then Err "self-update is unsupported on this architecture"%string
  else if negb (is_abs databasePath) then Err "self-update control database path must be absolute"%string
  else if negb (is_abs lockPath) then Err "self-update lifecycle lock path must be absolute"%string
  else Ok (mk_operator installed (or_default (BinaryPath config) defaultBinaryPath) databasePath
             (or_default (WorkRoot config) defaultWorkRoot) lockPath
             (or_default (AllowedSignersPath config) defaultAllowedSignersPath)
             (default defaultManagedPackagingPaths (cfg_managedPaths config))
             (or_default (cfg_packageStateDir config) defaultPackageStateDir) (Arch config)).

Definition Latest (o : HostOperator) : result string Availability :=
  match source_Latest (arch o) with
  | Err e => Err e
  | Ok release =>
      if is_empty (Release.Version release) then Ok (mk_availability (installed o) None false)
      else Ok (mk_availability (installed o) (Some release) (isNewer (Release.Version release) (installed o)))
  end.

(** ** Commands *)

(** systemd's part: which binary the API service runs after a command. *)
Definition api_service : string := "nexa-api.service".
Definition service_state (binaryPath : string) (c : Command) (a : answer) (fs : filesystem)
    (serving : option content) : option content :=
  if bool_decide (c_Name c = "systemctl"%string) && bool_decide (api_service ∈ c_Args c) then
    if bool_decide ("stop"%string ∈ c_Args c) then match a with Proceed => None | _ => serving end
    else if bool_decide ("restart"%string ∈ c_Args c) then
      match a with
      | Proceed => match fs !! binaryPath with Some (Reg b _ _ _) => Some b | _ => None end
      | Refuse => None
      | Die => serving
      end
    else serving
  else serving.

(** [o.runner.Run]; a command may change files whatever its end. *)
Definition run (o : HostOperator) (c : Command) : M string :=
  a ← ask;
  _ ← modify (fun h => mk_machine (effect c a (files h))
        (service_state (binaryPath o) c a (files h) (serving h)) (schedule h) ((c, a) :: ran h));
  match a with
  | Proceed => mret (output c)
  | Refuse => fail (lastLine (output c))
  | Die => fun h => (Crashed, h)
  end.

Definition run_all (o : HostOperator) (what : string) (l : list Command) : M unit :=
  for_each l (fun c => _ ← wrap (what +:+ c_Name c) (run o c); mret tt).

Definition systemctl (args : list string) : Command := command "systemctl" args.

(** ** The journal *)
Definition transactionPath (o : HostOperator) : string := path_join (workRoot o) transactionFileName.
Definition transactionRoot (o : HostOperator) : string := path_join (workRoot o) transactionDirName.
Definition transaction_dir (o : HostOperator) (id : string) : string := path_join (transactionRoot o) id.

Definition readTransaction (path : string) : M (option updateTransaction) :=
  c ← read_file follow path;
  match c with
  | None => mret None
  | Some (Journal t) =>
      if is_empty (ID t) || is_empty (TargetVersion t) then fail "update transaction is incomplete"
      else mret (Some t)
  | Some _ => fail "decode update transaction"
  end.
(** The journal must exist. *)
Definition requireTransaction (path : string) : M updateTransaction :=
  t ← readTransaction path;
  match t with Some t => mret t | None => fail system_error end.

Definition writeTransaction (path : string) (t : updateTransaction) : M unit :=
  publish path (Journal t) 384.

Definition is_terminal (p : transactionPhase) : bool :=
  match p with phaseSucceeded | phaseFailed => true | _ => false end.

Definition Transaction (o : HostOperator) : M TransactionStatus :=
  t ← readTransaction (transactionPath o);
  mret match t with
  | None => mk_status false EmptyString EmptyString EmptyString None false EmptyString zero_result
  | Some t => mk_status true (ID t) (TargetVersion t) (PreviousVersion t) (Some (Phase t))
                (is_terminal (Phase t)) (Failure t) (t_Result t)
  end.

(** The lock file is created when it is missing; a symbolic link is not followed.  The
    caller is root.  Waiting for the lock is one operation: it is refused when the
    context ends first.  While one operation holds the lock no other runs. *)
Definition acquireHostLock (o : HostOperator) : M unit :=
  _ ← wrap "create the self-update work directory" io;
  n ← lstat (lockPath o);
  match n with
  | None =>
      _ ← wrap "open the self-update lock" io;
      _ ← update_files (<[lockPath o := Reg (Bytes EmptyString) 384 0 0]>);
      wrap "lock self-update state" io
  | Some (Link _ _ _) => fail "open the self-update lock"
  | Some Special => fail "self-update lifecycle lock is not a regular file"
  | Some (Reg c _ uid gid) =>
      _ ← wrap "open the self-update lock" io;
      _ ← update_files (<[lockPath o := Reg c 384 uid gid]>);
      if negb (uid =? 0) then fail "self-update lifecycle lock is not owned by root"
      else wrap "lock self-update state" io
  end.

(** ** Snapshots *)
Definition snapshot_dir (o : HostOperator) (id : string) : string := path_join (transaction_dir o id) "snapshot".
Definition manifest_path (directory : string) : string := path_join directory "manifest.json".

Definition snapshot_path (directory : string) (index : nat) (path : string) : M snapshotEntry :=
  n ← wrap ("snapshot " +:+ path) (lstat path);
  match n with
  | None => mret (mk_entry path EmptyString 0 0 0 EmptyString false)
  | Some (Link target uid gid) => _ ← io; mret (mk_entry path EmptyString 511 uid gid target true)
  | Some (Reg _ mode uid gid) =>
      let name := itoa (Z.of_nat index) in
      _ ← wrap ("snapshot " +:+ path) (copyRegularFile follow path (path_join directory name) (perm mode));
      mret (mk_entry path name mode uid gid EmptyString true)
  | Some Special => fail ("refuse to snapshot non-regular managed path " +:+ path)
  end.

Fixpoint snapshot_paths (directory : string) (index : nat) (paths : list string) : M (list snapshotEntry) :=
  match paths with
  | [] => mret []
  | p :: rest =>
      e ← snapshot_path directory index p;
      l ← snapshot_paths directory (S index) rest;
      mret (e :: l)
  end.

(** The manifest is written in place: it is empty before it is complete. *)
Definition write_manifest (directory : string) (entries : list snapshotEntry) : M unit :=
  _ ← io; _ ← update_files (<[manifest_path directory := Reg (Bytes EmptyString) 384 0 0]>);
  _ ← io; _ ← update_files (<[manifest_path directory := Reg (Manifest entries) 384 0 0]>);
  _ ← io; io.

Definition createHostSnapshot (o : HostOperator) (id : string) : M string :=
  let directory := snapshot_dir o id in
  _ ← wrap "create packaging snapshot" io;
  entries ← snapshot_paths directory 0 (managedPaths o);
  _ ← wrap "write packaging snapshot manifest" (write_manifest directory entries);
  mret directory.

Definition preserveTransactionBinary (o : HostOperator) (id : string) : M string :=
  let destination := path_join (transaction_dir o id) "previous-nexa" in
  _ ← io;
  n ← stat follow (binaryPath o);
  match n with
  | Some (Reg _ _ _ _) =>
      _ ← wrap "preserve current binary in transaction"
            (copyRegularFile follow (binaryPath o) destination 448);
      mret destination
  | _ => fail "current nexa binary is not a regular file"
  end.

Definition wal (o : HostOperator) : string := databasePath o +:+ "-wal".
Definition shm (o : HostOperator) : string := databasePath o +:+ "-shm".

Definition createControlDatabaseSnapshot (o : HostOperator) (id : string) : M controlDatabaseSnapshot :=
  n ← wrap "inspect control database" (lstat (databasePath o));
  match n with
  | None => mret (mk_dbsnap EmptyString true false 0 0 0)
  | Some (Reg c mode uid gid) =>
      let destination := path_join (transaction_dir o id) "previous-control.db" in
      _ ← io;
      existing ← lstat destination;
      match existing with
      | Some _ => fail "control database snapshot already exists"
      | None =>
          _ ← update_files (<[destination := Reg (Bytes EmptyString) 420 0 0]>);
          r ← attempt io;
          match r with
          | inr e => _ ← attempt (remove destination); fail ("snapshot control database: " +:+ e)
          | inl _ =>
              h ← get;
              let copy := vacuum c (files h !! wal o) in
              _ ← update_files (<[destination := Reg copy 420 0 0]>);
              secured ← attempt io;
              match secured with
              | inr e => _ ← attempt (remove destination); fail ("secure control database snapshot: " +:+ e)
              | inl _ =>
                  _ ← update_files (<[destination := Reg copy 384 0 0]>);
                  _ ← wrap "flush control database snapshot" io;
                  mret (mk_dbsnap destination true true (perm mode) uid gid)
              end
          end
      end
  | Some _ => fail "control database is not a regular file"
  end.

Definition prepareTransaction (o : HostOperator) (id : string)
    : M (string * string * controlDatabaseSnapshot) :=
  snapshotDir ← createHostSnapshot o id;
  preservedBinary ← preserveTransactionBinary o id;
  databaseSnapshot ← createControlDatabaseSnapshot o id;
  mret (snapshotDir, preservedBinary, databaseSnapshot).

(** ** Restoring *)
Definition restoreControlDatabase (o : HostOperator) (snapshot : controlDatabaseSnapshot) : M unit :=
  if negb (Captured snapshot) then fail "the update transaction has no control database snapshot"
  else
    _ ← wrap "remove stale SQLite sidecar" (remove (wal o));
    _ ← wrap "remove stale SQLite sidecar" (remove (shm o));
    if negb (Existed snapshot) then
      _ ← wrap "remove newly created control database" (remove (databasePath o)); io
    else if negb (under (transactionRoot o) (Path snapshot)) then
      fail "control database snapshot is outside the managed transaction directory"
    else
      n ← lstat (Path snapshot);
      match n with
      | Some (Reg _ _ _ _) =>
          let mode := if perm (Mode snapshot) =? 0 then 384 else perm (Mode snapshot) in
          _ ← wrap "restore control database" (copyRegularFile follow (Path snapshot) (databasePath o) mode);
          wrap "restore control database ownership" (chown (databasePath o) (UID snapshot) (GID snapshot))
      | _ => fail "control database snapshot is not a regular file"
      end.

Definition restore_entry (directory : string) (entry : snapshotEntry) : M unit :=
  if negb (is_abs (e_Path entry)) then fail "snapshot contains non-absolute path"
  else
    _ ← wrap "clear managed path" (remove (e_Path entry));
    if negb (e_Existed entry) then mret tt
    else
      _ ← wrap "restore parent" io;
      if negb (is_empty (LinkTarget entry)) then
        _ ← wrap "restore symlink" (symlink (LinkTarget entry) (e_Path entry));
        wrap "restore ownership" (chown (e_Path entry) (e_UID entry) (e_GID entry))
      else
        _ ← wrap "restore" (copyRegularFile follow (path_join directory (BackupName entry)) (e_Path entry) (perm (e_Mode entry)));
        wrap "restore ownership" (chown (e_Path entry) (e_UID entry) (e_GID entry)).

Definition restoreHostSnapshot (directory : string) : M unit :=
  if is_empty directory then mret tt
  else
    c ← wrap "read packaging snapshot" (read_existing follow (manifest_path directory));
    match c with
    | Manifest entries => for_each entries (restore_entry directory)
    | _ => fail "decode packaging snapshot"
    end.

(** Running [version] on a staged copy. *)
Definition run_version (binary : content) (expectVersion : string) : M string :=
  _ ← wrap "the binary is not a runnable nexa binary" io;
  if negb (is_empty expectVersion) && negb (contains expectVersion (reports binary))
  then fail "the binary reports an unexpected version"
  else mret (firstField (reports binary)).

Definition validateBinary (binary : content) (expectVersion : string) : M string :=
  _ ← wrap "stage the new binary for validation" io;
  reported ← run_version binary expectVersion;
  if isPlausibleVersion reported then mret reported
  else fail "the binary is not a nexa binary".

Definition installStagedBinary (o : HostOperator) (binary : content) (expectVersion : string) : M string :=
  _ ← wrap "stage the new binary" io;
  reported ← run_version binary expectVersion;
  _ ← wrap "install the new binary" io;
  _ ← update_files (<[binaryPath o := Reg binary 493 0 0]>);
  _ ← wrap "flush the installed binary directory" io;
  mret reported.

Definition restorePreparedTransaction (o : HostOperator) (t : updateTransaction) : M unit :=
  previous ← wrap "read the preserved binary" (read_existing follow (PreservedBinary t));
  _ ← wrap "restore the preserved binary" (installStagedBinary o previous EmptyString);
  wrap "restore previous packaging" (restoreHostSnapshot (SnapshotDir t)).

Definition stopAPI (o : HostOperator) : M unit :=
  _ ← wrap "stop control panel before database restore" (run o (systemctl ["stop"; api_service]%string)); mret tt.

(** The version the ready control panel names is the one its binary was built as. *)
Definition waitAPIReady (expectVersion : string) : M unit :=
  _ ← io; h ← get;
  match serving h with
  | None => fail "new control panel did not become ready"
  | Some binary =>
      let expected := normalizeVersion expectVersion in
      if is_empty expected || bool_decide (normalizeVersion (firstField (reports binary)) = expected)
      then mret tt
      else fail "the ready control panel reports another version"
  end.

Definition restoreTransaction (o : HostOperator) (t : updateTransaction) : M unit :=
  _ ← stopAPI o;
  n ← stat follow (PreservedBinary t);
  match n with
  | Some (Reg _ _ _ _) =>
      binary ← read_existing follow (PreservedBinary t);
      _ ← installStagedBinary o binary EmptyString;
      _ ← restoreHostSnapshot (SnapshotDir t);
      _ ← restoreControlDatabase o (DatabaseSnapshot t);
      _ ← run_all o "restore services with "
            [systemctl ["daemon-reload"%string]; command "nginx" ["-t"%string];
             systemctl ["restart"; "nexa-agent.service"; api_service]%string];
      waitAPIReady (PreviousVersion t)
  | _ => fail "no transaction-preserved previous binary is available"
  end.

(** ** Failing and activating *)
Definition failTransaction (o : HostOperator) (t : updateTransaction) (cause : string)
    (restoreErr : option string) (appendRestore : bool) : M updateTransaction :=
  let failure := match restoreErr with
                 | Some e => if appendRestore then cause +:+ "; restore previous state: " +:+ e else cause
                 | None => cause end in
  let rolled := bool_decide (restoreErr = None) in
  let t := set_result (set_rolled_back rolled (Swapped (t_Result t)) (t_Result t))
             (set_failure failure true (set_phase phaseFailed t)) in
  _ ← attempt (writeTransaction (transactionPath o) t);
  mret t.

(** The error of an attempted restore. *)
Definition error_of {A} (r : A + string) : option string := match r with inl _ => None | inr e => Some e end.

Definition launchActivation (o : HostOperator) (id : string) : M unit :=
  _ ← wrap "launch activation helper"
        (run o (command "systemd-run" ["--unit=nexa-panel-update-" +:+ id; "--collect"; "--property=Type=exec";
           binaryPath o; "self-update"; "activate"; "--transaction"; transactionPath o]%string));
  mret tt.

Definition beginActivation (o : HostOperator) (t : updateTransaction) : M unit :=
  let t := set_phase phaseActivating t in
  written ← attempt (writeTransaction (transactionPath o) t);
  match written with
  | inr e => _ ← attempt (restorePreparedTransaction o t); fail e
  | inl _ =>
      launched ← attempt (launchActivation o (ID t));
      match launched with
      | inr e =>
          restored ← attempt (restorePreparedTransaction o t);
          _ ← failTransaction o t e (error_of restored) true;
          fail e
      | inl _ => mret tt
      end
  end.

Definition activateServices (o : HostOperator) (expectVersion : string) : M unit :=
  _ ← run_all o EmptyString
        [systemctl ["daemon-reload"%string]; command "nginx" ["-t"%string];
         systemctl ["restart"; "nexa-agent.service"]%string;
         systemctl ["is-active"; "--quiet"; "nexa-agent.service"]%string;
         systemctl ["restart"; api_service]%string];
  _ ← waitAPIReady expectVersion;
  reloaded ← attempt (run o (systemctl ["reload"; "nginx.service"]%string));
  _ ← match reloaded with
      | inl _ => mret tt
      | inr _ => _ ← wrap "restart nginx" (run o (systemctl ["restart"; "nginx.service"]%string)); mret tt
      end;
  _ ← wrap "verify nginx is active" (run o (systemctl ["is-active"; "--quiet"; "nginx.service"]%string));
  mret tt.

Definition prepareActivationDatabase (o : HostOperator) (t : updateTransaction) : M unit :=
  match ActivationDatabaseRestore t with
  | None => mret tt
  | Some snapshot =>
      _ ← stopAPI o;
      wrap "restore rollback target database" (restoreControlDatabase o snapshot)
  end.

(** [os.RemoveAll] of the other transactions' directories, file by file; errors are
    ignored. *)
Definition obsolete (o : HostOperator) (currentID : string) (p : string) : bool :=
  under (transactionRoot o) p && negb (under (transaction_dir o currentID) p).
Definition removeObsoleteTransactions (o : HostOperator) (currentID : string) : M unit :=
  h ← get;
  for_each (List.filter (obsolete o currentID) (map_to_list (files h)).*1)
    (fun p => _ ← attempt (remove p); mret tt).

(** The two halves of an activation that passes: the host lock is held over both, but
    not by [recoverStalledActivation]. *)
Definition activation_attempt (o : HostOperator) (t : updateTransaction) : M unit :=
  _ ← prepareActivationDatabase o t; activateServices o (TargetVersion t).
Definition activation_commit (o : HostOperator) (t : updateTransaction) : M unit :=
  _ ← writeTransaction (transactionPath o) (set_result (set_activated (t_Result t)) (set_phase phaseSucceeded t));
  removeObsoleteTransactions o (ID t).

Definition ActivateTransaction (o : HostOperator) (statePath : string) : M unit :=
  if negb (bool_decide (statePath = transactionPath o)) then fail "activation transaction path is not the managed self-update journal"
  else
    _ ← acquireHostLock o;
    t ← requireTransaction statePath;
    match Phase t with
    | phaseSucceeded => mret tt
    | phaseActivating | phasePrepared =>
        activated ← attempt (activation_attempt o t);
        match activated with
        | inl _ => activation_commit o t
        | inr cause =>
            restored ← attempt (restoreTransaction o t);
            let failure := "activate updated services: " +:+ cause in
            let t := set_phase phaseFailed t in
            let t := match restored with
              | inr e => set_failure (failure +:+ "; automatic rollback also failed: " +:+ e) (FailureReported t) t
              | inl _ => set_result (set_rolled_back true false (t_Result t))
                           (set_failure (failure +:+ "; the previous binary and packaging were restored") (FailureReported t) t)
              end in
            _ ← wrap (Failure t) (writeTransaction statePath t);
            fail (Failure t)
        end
    | _ => fail "update transaction is in another phase"
    end.

(** ** Package manager *)
Definition recoverPackageManager (o : HostOperator) : M unit :=
  n ← attempt (stat follow (packageStateDir o));
  match n with
  | inl (Some Special) =>
      run_all o EmptyString
        [command "dpkg" ["--configure"; "-a"]%string; command "apt-get" ["-y"; "-f"; "install"]%string]
  | _ => mret tt
  end.

Definition syncPackaging (o : HostOperator) (tree : string) : M unit :=
  let script := path_join tree releaseInstallerEntry in
  _ ← wrap "apply the release packaging"
        (run o (mk_command "/bin/bash" [script; releaseInstallerFlag; releaseInstallerNoStart] true EmptyString));
  _ ← wrap "enable interrupted-update recovery"
        (run o (systemctl ["enable"; "nexa-update-recovery.service"]%string));
  mret tt.

(** ** Recovery after a restart *)
Definition restarted_failure : string :=
  "host restarted before update activation; the previous binary and packaging were restored".

Definition RecoverTransaction (o : HostOperator) (statePath : string) : M unit :=
  if negb (bool_decide (statePath = transactionPath o)) then fail "recovery transaction path is not the managed self-update journal"
  else
    t ← readTransaction statePath;
    match t with
    | None => mret tt
    | Some t =>
        match Phase t with
        | phaseSucceeded | phaseFailed => mret tt
        | phaseActivating => ActivateTransaction o statePath
        | phasePrepared =>
            _ ← acquireHostLock o;
            packaging ← (if PackagingRunning t then
              r ← attempt (recoverPackageManager o);
              mret match r with
                   | inl _ => EmptyString
                   | inr e => "; the interrupted package manager could not be repaired: " +:+ e
                   end
              else mret EmptyString);
            _ ← restorePreparedTransaction o t;
            writeTransaction statePath
              (set_result (set_rolled_back true false (t_Result t))
                (set_failure (restarted_failure +:+ packaging) false
                  (set_phase phaseFailed (set_packaging false t))))
        | phaseUnknown s => fail ("unknown update transaction phase " +:+ go_quote s)
        end
    end.

(** ** Waiting for the helper *)
Definition newline1 : string := String newline EmptyString.

Definition recoverStalledActivation (o : HostOperator) (cause : string) : M Result :=
  state ← attempt (requireTransaction (transactionPath o));
  match state with
  | inr e => fail (cause +:+ newline1 +:+ "read update journal for recovery: " +:+ e)
  | inl t =>
      if is_terminal (Phase t) then fail cause
      else
        restored ← attempt (restoreTransaction o t);
        _ ← failTransaction o t cause (error_of restored) true;
        match restored with
        | inr e => fail (cause +:+ newline1 +:+ e)
        | inl _ => fail (cause +:+ "; the previous version was restored")
        end
  end.

Definition deadline : string := "context deadline exceeded".

(** [ticks]: what other processes do before each reading of the journal; the list
    ends when the context does. *)
Fixpoint waitForActivation (o : HostOperator) (ticks : list (machine -> machine)) : M Result :=
  t ← requireTransaction (transactionPath o);
  match Phase t with
  | phaseSucceeded => mret (t_Result t)
  | phaseFailed =>
      _ ← (if FailureReported t then mret tt
           else _ ← attempt (writeTransaction (transactionPath o) (set_failure (Failure t) true t)); mret tt);
      fail (Failure t)
  | _ =>
      match ticks with
      | [] => recoverStalledActivation o deadline
      | tick :: rest => _ ← modify tick; waitForActivation o rest
      end
  end.

(** ** Applying a release *)
Definition lift {A} (r : result string A) : M A :=
  _ ← io; match r with Ok a => mret a | Err e => fail e end.
Definition lift_release {A} (r : result Release.error A) : M A :=
  match r with Ok a => mret a | Err _ => fail "release refused" end.

Definition resolve (o : HostOperator) (change : string) : M Release.Release :=
  let requested := trim_space change in
  if is_empty requested then lift (source_Latest (arch o))
  else
    let version := normalizeVersion requested in
    if is_empty version then fail "not a valid version"
    else lift (source_ByVersion (arch o) version).

Definition expectedChecksum (release : Release.Release) : M string :=
  raw ← lift (fetch (ChecksumURL release) maxChecksumBytes); lift_release (parseChecksum raw).

Definition validateAllowedSigners (path : string) : M unit :=
  if negb (is_abs path) then fail "release allowed-signers path must be absolute"
  else
    n ← wrap "read release allowed-signers file" (lstat path);
    match n with
    | Some (Reg c mode uid _) =>
        if (content_size c <=? 0) || (maxAllowedSignerBytes <? content_size c)
        then fail "release allowed-signers file is empty or exceeds the size limit"
        else if negb (Z.land (perm mode) 18 =? 0)
        then fail "release allowed-signers file must not be group- or world-writable"
        else if negb (uid =? 0) then fail "release allowed-signers file must be owned by root"
        else
          _ ← io;
          match c with
          | Bytes b => if contains releaseSignerIdentity b then mret tt
                       else fail "release allowed-signers file has no identity"
          | _ => fail "release allowed-signers file has no identity"
          end
    | _ => fail "release allowed-signers path must be a regular file, not a symlink"
    end.

Definition verify_command (o : HostOperator) (signaturePath archive : string) : Command :=
  mk_command "ssh-keygen" ["-Y"; "verify"; "-f"; allowedSignersPath o; "-I"; releaseSignerIdentity;
    "-n"; releaseSignatureNamespace; "-s"; signaturePath]%string false archive.

(** [signature] is staged in the work root under a temporary name. *)
Definition verifyReleaseSignature (o : HostOperator) (archive signature : string) : M unit :=
  _ ← validateAllowedSigners (allowedSignersPath o);
  if (len signature =? 0) || (maxSignatureBytes <? len signature)
  then fail "release signature is empty or exceeds the size limit"
  else
    _ ← io;
    _ ← wrap "release signature verification failed"
          (run o (verify_command o (path_join (workRoot o) ".release-.sig") archive));
    mret tt.

(** The staging tree under a fresh directory of the work root; it is not tracked. *)
Definition staging_dir (o : HostOperator) : string := path_join (workRoot o) "staging-".
Definition stage (o : HostOperator) (archive : string) : M tree :=
  _ ← wrap "create the release staging directory" io;
  lift_release (extractRelease untar archive).1.

Definition readStagedBinary (t : tree) : M content :=
  match t !! releaseBinaryEntry with
  | Some (File b _) =>
      if maxBinaryBytes <? len b then fail "the release archive's binary exceeds the byte limit"
      else _ ← io; mret (Bytes b)
  | _ => fail "the release archive's binary could not be read"
  end.

Definition readReleaseManifest (t : tree) : M releaseManifest :=
  match t !! releaseManifestEntry with
  | Some (File b _) =>
      if maxManifestBytes <? len b then fail "the release archive's stamp is too large"
      else _ ← io; lift_release (parseReleaseManifest b)
  | _ => fail "the release archive's stamp could not be read"
  end.

(** The checks of [applyRelease], up to the point where the host is touched. *)
Definition verified_release (o : HostOperator) (change : string) : M (Release.Release * content) :=
  release ← resolve o change;
  if negb (isNewer (Release.Version release) (installed o)) then
    fail (if bool_decide (Release.Version release = installed o) then "this node already runs this version"
          else "downgrades are not supported")
  else
    expected ← expectedChecksum release;
    archive ← lift (fetch (AssetURL release) maxArchiveBytes);
    _ ← lift_release (verifyChecksum sha256hex archive expected);
    signature ← wrap "download release signature" (lift (fetch (SignatureURL release) maxSignatureBytes));
    _ ← verifyReleaseSignature o archive signature;
    staged ← stage o archive;
    binary ← readStagedBinary staged;
    reported ← validateBinary binary (Release.Version release);
    manifest ← readReleaseManifest staged;
    _ ← lift_release (verifyReleaseAgreement semver_IsValid semver_Canonical sha256hex release manifest
          (arch o) reported expected archive);
    mret (release, binary).

(** Whether the context is dead: it is when an operation would be refused now. *)
Definition context_dead : M bool :=
  a ← ask;
  match a with Die => fun h => (Crashed, h) | Refuse => mret true | Proceed => mret false end.

Definition applyRelease (o : HostOperator) (id change : string) : M Result :=
  verified ← verified_release o change;
  let '(release, binary) := verified in
  prepared ← prepareTransaction o id;
  let '(snapshotDir, preservedBinary, databaseSnapshot) := prepared in
  let result := mk_result (installed o) (Release.Version release) false false false false EmptyString in
  let t := mk_transaction id (Release.Version release) (installed o) phasePrepared snapshotDir
             preservedBinary databaseSnapshot None true EmptyString false result now in
  _ ← writeTransaction (transactionPath o) t;
  synced ← attempt (syncPackaging o (staging_dir o));
  let t := set_packaging false t in
  match synced with
  | inr e =>
      dead ← context_dead;
      repaired ← (if dead : bool then attempt (recoverPackageManager o) else mret (inl tt));
      let e := match repaired with
               | inl _ => e | inr r => e +:+ "; repair the interrupted package manager: " +:+ r end in
      restored ← attempt (restoreHostSnapshot snapshotDir);
      _ ← failTransaction o t e (error_of restored) false;
      fail match restored with inl _ => e | inr r => e +:+ "; restore previous packaging: " +:+ r end
  | inl _ =>
      swapped ← attempt (installStagedBinary o binary (Release.Version release));
      match swapped with
      | inr e =>
          restored ← attempt (restorePreparedTransaction o t);
          _ ← failTransaction o t e (error_of restored) false;
          fail match restored with inl _ => e | inr r => e +:+ "; restore previous packaging: " +:+ r end
      | inl _ =>
          let result := mk_result (installed o) (Release.Version release) true false false true EmptyString in
          _ ← beginActivation o (set_result result t);
          mret result
      end
  end.

(** [Apply]: an earlier transaction for the requested version is resumed or
    reported. *)
Definition Apply (o : HostOperator) (id change : string) (ticks : list (machine -> machine)) : M Result :=
  _ ← acquireHostLock o;
  let requested := normalizeVersion change in
  current ← (if is_empty requested then mret None
             else r ← attempt (requireTransaction (transactionPath o));
                  mret match r with
                       | inl t => if bool_decide (TargetVersion t = requested) then Some t else None
                       | inr _ => None
                       end);
  let fresh := _ ← applyRelease o id change; waitForActivation o ticks in
  match current with
  | None => fresh
  | Some current =>
      match Phase current with
      | phaseSucceeded => mret (t_Result current)
      | phasePrepared =>
          recovered ← attempt (restorePreparedTransaction o current);
          let failure := "an interrupted update was restored before activation"%string in
          let t := set_phase phaseFailed current in
          let t := match recovered with
            | inr e => set_failure (failure +:+ "; recovery failed: " +:+ e) true t
            | inl _ => set_result (set_rolled_back true false (t_Result t)) (set_failure failure true t)
            end in
          _ ← attempt (writeTransaction (transactionPath o) t);
          fail (Failure t)
      | phaseActivating => waitForActivation o ticks
      | phaseFailed =>
          if FailureReported current then fresh
          else
            _ ← attempt (writeTransaction (transactionPath o) (set_failure (Failure current) true current));
            fail (Failure current)
      | phaseUnknown _ => fresh
      end
  end.

(** ** A local binary *)
Definition local_note : string := "only the binary was replaced; if this build changes systemd units, tmpfiles rules or the nginx template, install the complete signed release instead".

Definition ApplyLocalBinary (o : HostOperator) (id path : string) (ticks : list (machine -> machine)) : M Result :=
  _ ← acquireHostLock o;
  if negb (is_abs path) then fail "the binary path must be absolute"
  else
    n ← stat follow path;
    match n with
    | Some (Reg c _ _ _) =>
        if maxBinaryBytes <? content_size c then fail "the binary exceeds the byte limit"
        else
          binary ← read_existing follow path;
          prepared ← prepareTransaction o id;
          let '(snapshotDir, preservedBinary, databaseSnapshot) := prepared in
          reported ← validateBinary binary EmptyString;
          let reported := or_default reported "the supplied binary" in
          let result := mk_result (installed o) reported false false false false local_note in
          let t := mk_transaction id reported (installed o) phasePrepared snapshotDir preservedBinary
                     databaseSnapshot None false EmptyString false result now in
          _ ← writeTransaction (transactionPath o) t;
          swapped ← attempt (installStagedBinary o binary EmptyString);
          match swapped with
          | inr e =>
              restored ← attempt (restorePreparedTransaction o t);
              _ ← failTransaction o t e (error_of restored) true;
              fail e
          | inl _ =>
              let result := mk_result (installed o) reported true false false false local_note in
              _ ← beginActivation o (set_result result t);
              waitForActivation o ticks
          end
    | _ => fail "the binary could not be read"
    end.

(** ** Rollback *)
Definition Rollback (o : HostOperator) (id : string) (ticks : list (machine -> machine)) : M Result :=
  _ ← acquireHostLock o;
  current ← attempt (requireTransaction (transactionPath o));
  match current with
  | inr _ => fail "no completed update transaction is available to roll back"
  | inl current =>
      if negb (match Phase current with phaseSucceeded => true | _ => false end)
      then fail "no completed update transaction is available to roll back"
      else if negb (Captured (DatabaseSnapshot current))
      then fail "this update predates rollback-safe control database snapshots and cannot be rolled back automatically"
      else
        n ← stat follow (PreservedBinary current);
        match n with
        | Some (Reg _ _ _ _) =>
            binary ← read_existing follow (PreservedBinary current);
            prepared ← prepareTransaction o id;
            let '(undoSnapshot, preservedCurrentBinary, databaseSnapshot) := prepared in
            let target := or_default (PreviousVersion current) "the previous binary" in
            let result := mk_result (TargetVersion current) target false false false true EmptyString in
            let t := mk_transaction id target (TargetVersion current) phasePrepared undoSnapshot
                       preservedCurrentBinary databaseSnapshot (Some (DatabaseSnapshot current)) false
                       EmptyString false result now in
            _ ← writeTransaction (transactionPath o) t;
            swapped ← attempt (installStagedBinary o binary EmptyString);
            match swapped with
            | inr e =>
                restored ← attempt (restorePreparedTransaction o t);
                _ ← failTransaction o t e (error_of restored) false;
                fail match restored with inl _ => e | inr r => e +:+ "; restore current state: " +:+ r end
            | inl reported =>
                packaging ← attempt (restoreHostSnapshot (SnapshotDir current));
                match packaging with
                | inr e =>
                    restored ← attempt (restorePreparedTransaction o t);
                    _ ← failTransaction o t e (error_of restored) false;
                    fail ("restore previous packaging: " +:+
                          match restored with inl _ => e | inr r => e +:+ "; restore current state: " +:+ r end)
                | inl _ =>
                    let reported := if is_empty (PreviousVersion current)
                                    then or_default reported "the previous binary" else PreviousVersion current in
                    let result := mk_result (TargetVersion current) reported true false false true EmptyString in
                    _ ← beginActivation o (set_result result (set_target reported t));
                    waitForActivation o ticks
                end
            end
        | _ => fail "no transaction-preserved previous binary is available to roll back to"
        end
  end.

(** ** The client's view *)

(** [awaitCommittedTransaction]: the successive answers of the agent ([None]: a read
    that failed); the list ends at the deadline. *)
Fixpoint awaitCommittedTransaction (before : TransactionStatus) (severed : string)
    (answers : list (option TransactionStatus)) : result string Result :=
  match answers with
  | [] => Err ("the node published no update outcome after its agent restarted: " +:+ severed)
  | answer :: rest =>
      match answer with
      | Some status =>
          if Terminal status && negb (bool_decide (s_ID status = s_ID before)) then
            match s_Phase status with
            | Some phaseSucceeded => Ok (s_Result status)
            | _ => Err (or_default (s_Failure status) "the node reported a failed update without a reason")
            end
          else awaitCommittedTransaction before severed rest
      | None => awaitCommittedTransaction before severed rest
      end
  end.
End operator.
