(* ===== verification/UpdateLogic.v ===== *)
(** * A logic for programs on the host

    [spec c P m Q F I]: from a state in [P], [m] ends in [Q] when it returns, in [F]
    when it fails and in [I] when the process dies inside it.  With [c = true] the
    statement is about runs in which every operation proceeds, and the process does
    not die; with [c = false] about all runs. *)

From S2P Require Import Prelude GoStrings Update.

(** What the specifications speak about. *)
Notation state := (filesystem * option content)%type.
Definition st (h : machine) : state := (files h, serving h).

Definition spec (c : bool) {A} (P : state -> Prop) (m : M A) (Q : A -> state -> Prop)
    (F I : state -> Prop) : Prop :=
  forall h, (c = true -> schedule h = []) -> P (st h) ->
  match m h with
  | (Done a, h') => (c = true -> schedule h' = []) /\ Q a (st h')
  | (Failed _, h') => (c = true -> schedule h' = []) /\ F (st h')
  | (Crashed, h') => c = false /\ I (st h')
  end.

(** The failures that only refused operations cause. *)
Definition must (c : bool) (I : state -> Prop) : state -> Prop := fun s => c = false /\ I s.

Section rules.
Context {A : Type} (c : bool).
Implicit Types (P I F : state -> Prop) (Q : A -> state -> Prop).

Lemma spec_conseq P P' (m : M A) Q Q' F F' I I' :
  spec c P' m Q' F' I' -> (forall s, P s -> P' s) -> (forall a s, Q' a s -> Q a s) ->
  (forall s, F' s -> F s) -> (forall s, I' s -> I s) -> spec c P m Q F I.
Proof.
  intros Hm HP HQ HF HI h Hc Hp. specialize (Hm h Hc (HP _ Hp)).
  destruct (m h) as [[a|e|] h']; destruct Hm; split; auto.
Qed.

Lemma spec_pre P P' (m : M A) Q F I :
  spec c P' m Q F I -> (forall s, P s -> P' s) -> spec c P m Q F I.
Proof. intros Hm HP. by eapply spec_conseq. Qed.

Lemma spec_ret P (a : A) Q F I : (forall s, P s -> Q a s) -> spec c P (mret a) Q F I.
Proof. intros HQ h Hc Hp. split; auto. Qed.

Lemma spec_fail P e Q F I : (forall s, P s -> F s) -> spec c P (fail e) Q F I.
Proof. intros HF h Hc Hp. split; auto. Qed.

Lemma spec_wrap P e (m : M A) Q F I : spec c P m Q F I -> spec c P (wrap e m) Q F I.
Proof.
  intros Hm h Hc Hp. specialize (Hm h Hc Hp). unfold wrap.
  by destruct (m h) as [[a|e'|] h'].
Qed.

Lemma spec_attempt P (m : M A) (Q : A -> state -> Prop) F F' I :
  spec c P m Q F I ->
  spec c P (attempt m) (fun r s => match r with inl a => Q a s | inr _ => F s end) F' I.
Proof.
  intros Hm h Hc Hp. specialize (Hm h Hc Hp). unfold attempt.
  by destruct (m h) as [[a|e'|] h'].
Qed.

(** A pure precondition. *)
Lemma spec_pure (X : Prop) P (m : M A) Q F I :
  (X -> spec c P m Q F I) -> spec c (fun s => X /\ P s) m Q F I.
Proof. intros Hm h Hc [Hx Hp]. by apply Hm. Qed.

Lemma spec_exists {B} (P : B -> state -> Prop) (m : M A) Q F I :
  (forall b, spec c (P b) m Q F I) -> spec c (fun s => exists b, P b s) m Q F I.
Proof. intros Hm h Hc [b Hp]. by eapply Hm. Qed.
End rules.

Lemma spec_bind c {A B} P (m : M A) (k : A -> M B) (Q : A -> state -> Prop) R F I :
  spec c P m Q F I -> (forall a, spec c (Q a) (k a) R F I) -> spec c P (m ≫= k) R F I.
Proof.
  intros Hm Hk h Hc Hp. specialize (Hm h Hc Hp). unfold mbind, M_bind.
  destruct (m h) as [[a|e|] h']; [|done..]. destruct Hm as [Hc' HQ]. by apply Hk.
Qed.

Lemma spec_assoc c {A B C} P (m : M A) (k : A -> M B) (l : B -> M C) Q F I :
  spec c P ((m ≫= k) ≫= l) Q F I -> spec c P (m ≫= fun a => k a ≫= l) Q F I.
Proof.
  intros H h Hc Hp. specialize (H h Hc Hp). revert H. unfold mbind, M_bind. by destruct (m h) as [[a|e|] h'].
Qed.

Lemma spec_io c P F I :
  (forall s, P s -> I s) -> (forall s, c = false -> P s -> F s) -> spec c P io (fun _ => P) F I.
Proof.
  intros HI HF h Hc Hp. unfold io, ask, mbind, M_bind. destruct (schedule h) as [|a l] eqn:Hs.
  - simpl. done.
  - assert (c = false) as -> by (destruct c; [by specialize (Hc eq_refl)|done]).
    destruct a; (split; [done|]); simpl; auto.
Qed.

Lemma spec_update c (f : filesystem -> filesystem) P Q F I :
  (forall s, P s -> Q tt (f s.1, s.2)) -> spec c P (update_files f) Q F I.
Proof. intros HQ h Hc Hp. split; [done|]. by apply (HQ (st h)). Qed.

Lemma spec_get c P F I : spec c P get (fun h s => st h = s /\ P s) F I.
Proof. intros h Hc Hp. split; [done|]. done. Qed.

(** *** Derived rules *)
Lemma spec_for_each c {A} (l : list A) (f : A -> M unit) (J : list A -> state -> Prop) F I :
  (forall before x rest, l = before ++ x :: rest -> spec c (J before) (f x) (fun _ => J (before ++ [x])) F I) ->
  spec c (J []) (for_each l f) (fun _ => J l) F I.
Proof.
  intros Hf. assert (Hgen : forall rest before, l = before ++ rest ->
    spec c (J before) (for_each rest f) (fun _ => J l) F I).
  { intros rest. induction rest as [|x rest IH]; intros before Hl; simpl.
    - apply spec_ret. intros s. by rewrite Hl, app_nil_r.
    - eapply spec_bind; [by eapply Hf|]. intros ?. apply IH. by rewrite <-app_assoc. }
  by apply (Hgen l []).
Qed.

Lemma spec_lstat c p P F I :
  (forall s, P s -> I s) -> (forall s, c = false -> P s -> F s) ->
  spec c P (lstat p) (fun n s => n = s.1 !! p /\ P s) F I.
Proof.
  intros HI HF. eapply spec_bind; [by apply spec_io|]. intros ?.
  eapply spec_bind; [apply spec_get|]. intros h. apply spec_ret. intros s [<- Hp]. done.
Qed.

Lemma spec_remove c p P Q F I :
  (forall s, P s -> I s) -> (forall s, c = false -> P s -> F s) ->
  (forall s, P s -> Q tt (delete p s.1, s.2)) -> spec c P (remove p) Q F I.
Proof. intros HI HF HQ. eapply spec_bind; [by apply spec_io|]. intros ?. by apply spec_update. Qed.

Lemma spec_chown c p uid gid P Q F I :
  (forall s, P s -> I s) -> (forall s, c = false -> P s -> F s) ->
  (forall s, P s -> Q tt (alter (set_owner uid gid) p s.1, s.2)) -> spec c P (chown p uid gid) Q F I.
Proof. intros HI HF HQ. eapply spec_bind; [by apply spec_io|]. intros ?. by apply spec_update. Qed.

Lemma spec_symlink c target p P Q F I :
  (forall s, P s -> I s) -> (forall s, c = false -> P s -> F s) -> (forall s, P s -> s.1 !! p = None) ->
  (forall s, P s -> Q tt (<[p := Link target 0 0]> s.1, s.2)) -> spec c P (symlink target p) Q F I.
Proof.
  intros HI HF Hn HQ. eapply spec_bind; [by apply spec_io|]. intros ?.
  eapply spec_bind; [apply spec_get|]. intros h h' Hc [Heq Hp].
  assert (Hfree : files h !! p = None) by (rewrite <-(Hn _ Hp), <-Heq; done). rewrite Hfree.
  split; [done|]. by apply (HQ (st h')).
Qed.

Lemma spec_publish c p x mode P Q F I :
  (forall s, P s -> I s) -> (forall s, c = false -> P s -> F s) ->
  (forall s, P s -> Q (<[p := Reg x mode 0 0]> s.1, s.2)) ->
  (forall s, Q s -> I s) -> (forall s, c = false -> Q s -> F s) ->
  spec c P (publish p x mode) (fun _ => Q) F I.
Proof.
  intros HI HF HQ HI' HF'. eapply spec_bind; [by apply spec_io|]. intros ?.
  eapply spec_bind; [by apply spec_io|]. intros ?.
  eapply spec_bind; [apply (spec_update _ _ _ (fun _ => Q)); exact HQ|]. intros ?. by apply spec_io.
Qed.

Section reading.
Context (follow : filesystem -> string -> option node).

Lemma spec_stat c p P F I :
  (forall s, P s -> I s) -> (forall s, c = false -> P s -> F s) ->
  spec c P (stat follow p)
    (fun n s => n = (match s.1 !! p with Some (Link _ _ _) => follow s.1 p | x => x end) /\ P s) F I.
Proof.
  intros HI HF. eapply spec_bind; [by apply spec_io|]. intros ?.
  eapply spec_bind; [apply spec_get|]. intros h. apply spec_ret. intros s [<- Hp]. done.
Qed.

(** Reading a regular file whose content the precondition knows. *)
Lemma spec_read_existing c p x P F I :
  (forall s, P s -> I s) -> (forall s, c = false -> P s -> F s) ->
  (forall s, P s -> exists m u g, s.1 !! p = Some (Reg x m u g)) ->
  spec c P (read_existing follow p) (fun y s => y = x /\ P s) F I.
Proof.
  intros HI HF Hx. unfold read_existing, read_file.
  apply (spec_bind c _ _ _ (fun y s => y = Some x /\ P s)).
  - eapply spec_bind; [by apply spec_stat|]. intros n h Hc [-> Hp].
    destruct (Hx _ Hp) as (m & u & g & Heq). simpl in Heq |- *. rewrite Heq. done.
  - intros y. apply spec_pure. intros ->. by apply spec_ret.
Qed.

Lemma spec_copy c src dst x mode P Q F I :
  (forall s, P s -> I s) -> (forall s, c = false -> P s -> F s) ->
  (forall s, P s -> exists m u g, s.1 !! src = Some (Reg x m u g)) ->
  (forall s, P s -> Q (<[dst := Reg x mode 0 0]> s.1, s.2)) ->
  (forall s, Q s -> I s) -> (forall s, c = false -> Q s -> F s) ->
  spec c P (copyRegularFile follow src dst mode) (fun _ => Q) F I.
Proof.
  intros HI HF Hx HQ HI' HF'. eapply spec_bind; [by eapply spec_read_existing|].
  intros y. apply spec_pure. intros ->. by apply spec_publish.
Qed.
End reading.
