(* ===== verification/UpdateRestore.v ===== *)
(** * Snapshots and restores of an update

    Specifications of the operations of [UpdateOps] that capture and restore the
    host, in the logic of [UpdateLogic]: what they leave on the host when they
    return, when they fail and when the process dies inside them. *)

From S2P Require Import Prelude GoStrings Json Release Update UpdateOps UpdateLogic.

Local Open Scope Z_scope.

(** ** Paths *)
Lemma under_join root x : under root (path_join root x) = true.
Proof. unfold under, path_join. apply has_prefix_spec. exists x. by rewrite str_app_assoc. Qed.

Lemma under_trans root x p : under (path_join root x) p = true -> under root p = true.
Proof.
  unfold under, path_join. rewrite !has_prefix_spec. intros [t ->]. exists (x +:+ "/" +:+ t).
  by rewrite !str_app_assoc.
Qed.

Lemma under_join_inv root x y : under (path_join root x) (path_join root y) = true -> has_prefix x y = true.
Proof.
  unfold under, path_join. rewrite !has_prefix_spec. intros [t Ht]. rewrite !str_app_assoc in Ht.
  apply str_app_inj_l in Ht. injection Ht as Ht. exists ("/" +:+ t). by rewrite Ht.
Qed.

Lemma path_join_inj root x y : path_join root x = path_join root y -> x = y.
Proof. unfold path_join. intros [=H]%str_app_inj_l. done. Qed.

(** How the operator's paths lie: the managed files and the binary are outside of
    the work root, and so is the database, which is neither of them. *)
Record layout (o : HostOperator) : Prop := {
  l_managed : Forall (fun p => is_abs p = true /\ under (workRoot o) p = false /\ p <> binaryPath o) (managedPaths o);
  l_nodup : NoDup (managedPaths o);
  l_binary : under (workRoot o) (binaryPath o) = false;
  l_database : Forall (fun p => under (workRoot o) p = false /\ p ∉ managedPaths o /\ p <> binaryPath o)
                 [databasePath o; wal o; shm o];
  l_lock : under (workRoot o) (lockPath o) = false /\ lockPath o ∉ managedPaths o /\ lockPath o <> binaryPath o /\
           lockPath o ∉ [databasePath o; wal o; shm o];
}.

(** A command whose work is the packaging may change managed files; no command
    touches the binary or the work root. *)
Definition packaging_command (c : Command) : bool :=
  bool_decide (c_Name c = "/bin/bash"%string) || (bool_decide (c_Name c = "systemctl"%string) && bool_decide (head (c_Args c) = Some "enable"%string)) ||
  bool_decide (c_Name c = "dpkg"%string) || bool_decide (c_Name c = "apt-get"%string).
Record commands_framed (E : environment) (o : HostOperator) : Prop := {
  f_work : forall c a fs p, under (workRoot o) p = true \/ p = binaryPath o -> env_effect E c a fs !! p = fs !! p;
  f_managed : forall c a fs p, packaging_command c = false -> p ∈ managedPaths o ->
    env_effect E c a fs !! p = fs !! p;
}.

Lemma spec_start c {A} (P : state -> Prop) (m : M A) Q F I :
  (forall s0, P s0 -> spec c (eq s0) m Q F I) -> spec c P m Q F I.
Proof. intros Hm h Hc Hp. by apply (Hm (st h)). Qed.

Section host.
Context (E : environment) (o : HostOperator).
Hypothesis (Hlay : layout o).

Local Abbreviation managed := (managedPaths o).
Local Abbreviation work p := (under (workRoot o) p = true).
Local Abbreviation journal := (transactionPath o).
Local Abbreviation restoreHostSnapshot := (UpdateOps.restoreHostSnapshot E).
Local Abbreviation restore_entry := (UpdateOps.restore_entry E).
Local Abbreviation installStagedBinary := (UpdateOps.installStagedBinary E o).

Lemma managed_facts p : p ∈ managed -> is_abs p = true /\ under (workRoot o) p = false /\ p <> binaryPath o.
Proof. intros Hp. pose proof (l_managed _ Hlay) as H. rewrite Forall_forall in H. by apply H. Qed.
Lemma managed_not_work p : p ∈ managed -> under (workRoot o) p = false.
Proof. intros Hp. by destruct (managed_facts p Hp) as (_ & ? & _). Qed.
Lemma managed_abs p : p ∈ managed -> is_abs p = true.
Proof. intros Hp. by destruct (managed_facts p Hp) as (? & _). Qed.
Lemma binary_not_managed : binaryPath o ∉ managed.
Proof. intros Hp. by destruct (managed_facts _ Hp) as (_ & _ & ?). Qed.
Lemma work_not_managed p : work p -> p ∉ managed.
Proof. intros Hw Hp. apply managed_not_work in Hp. congruence. Qed.
Lemma work_not_binary p : work p -> p <> binaryPath o.
Proof. intros Hw ->. rewrite (l_binary _ Hlay) in Hw. done. Qed.
Lemma journal_work : work journal.
Proof. apply under_join. Qed.
Lemma transaction_dir_work id p : under (transaction_dir o id) p = true -> work p.
Proof. intros H. do 2 apply under_trans in H. done. Qed.

(** ** Captured state *)
Context (orig : filesystem) (b0 : content).

Definition norm (n : node) : node :=
  match n with Reg x mode uid gid => Reg x (perm mode) uid gid | n => n end.

(** What the manifest and the copies in [directory] say of one managed path. *)
Definition entry_saved (fs : filesystem) (directory : string) (e : snapshotEntry) (p : string) : Prop :=
  e_Path e = p /\
  match orig !! p with
  | None => e_Existed e = false
  | Some (Link target uid gid) => e = mk_entry p EmptyString 511 uid gid target true /\ target <> EmptyString
  | Some (Reg x mode uid gid) =>
      exists name m u g, e = mk_entry p name mode uid gid EmptyString true /\
        fs !! path_join directory name = Some (Reg x m u g)
  | Some Special => False
  end.

Definition snapshot_saved (fs : filesystem) (directory : string) : Prop :=
  directory <> EmptyString /\ work (path_join directory EmptyString) /\
  exists entries m u g,
    fs !! manifest_path directory = Some (Reg (Manifest entries) m u g) /\
    Forall2 (entry_saved fs directory) entries managed.

Definition restored (s : state) : Prop := forall p, p ∈ managed -> s.1 !! p = norm <$> orig !! p.
Definition bin_is (b : content) (s : state) : Prop := exists m u g, s.1 !! binaryPath o = Some (Reg b m u g).

(** Everything but the managed files is as in [s0]. *)
Definition off_managed (s0 s : state) : Prop :=
  s.2 = s0.2 /\ forall p, p ∉ managed -> s.1 !! p = s0.1 !! p.

Lemma dir_work directory name : work (path_join directory EmptyString) -> work (path_join directory name).
Proof.
  unfold under, path_join. rewrite !has_prefix_spec. intros [t Ht].
  destruct (decide (t = EmptyString)) as [->|Hne].
  - exists name. rewrite str_app_nil_r in Ht. change (String slash name) with ("/" +:+ name).
    change (String slash EmptyString) with "/"%string in Ht. by rewrite <-str_app_assoc, Ht.
  - exists (t +:+ name). rewrite <-!str_app_assoc, <-Ht. rewrite !str_app_assoc. done.
Qed.

Lemma restore_entry_spec c s0 directory e p before :
  entry_saved s0.1 directory e p -> p ∈ managed -> work (path_join directory EmptyString) -> p ∉ map e_Path before ->
  let J (l : list snapshotEntry) (s : state) := off_managed s0 s /\ forall e, e ∈ l -> s.1 !! e_Path e = norm <$> orig !! e_Path e in
  spec c (J before) (restore_entry directory e) (fun _ => J (before ++ [e]))
    (must c (off_managed s0)) (off_managed s0).
Proof.
  intros [Hpath Hsaved] Hp Hdir Hnew J. unfold UpdateOps.restore_entry. rewrite Hpath, (managed_abs _ Hp). simpl.
  assert (Hoff : forall n s, off_managed s0 s -> off_managed s0 (<[p := n]> s.1, s.2)).
  { intros n s [Hs Hf]. split; [done|]. intros q Hq. simpl. rewrite lookup_insert_ne; [by apply Hf|congruence]. }
  assert (Hoffd : forall s, off_managed s0 s -> off_managed s0 (delete p s.1, s.2)).
  { intros s [Hs Hf]. split; [done|]. intros q Hq. simpl. rewrite lookup_delete_ne; [by apply Hf|congruence]. }
  assert (Hoffa : forall f s, off_managed s0 s -> off_managed s0 (alter f p s.1, s.2)).
  { intros f s [Hs Hf]. split; [done|]. intros q Hq. simpl. rewrite lookup_alter_ne; [by apply Hf|congruence]. }
  assert (Hold : forall e', e' ∈ before -> e_Path e' <> p).
  { intros e' He' Heq. apply Hnew, list_elem_of_fmap. exists e'. by rewrite Heq. }
  set (J' := fun (n : option node) s => off_managed s0 s /\ s.1 !! p = n /\
    forall e, e ∈ before -> s.1 !! e_Path e = norm <$> orig !! e_Path e).
  assert (Hend : forall n s, J' n s -> n = norm <$> orig !! p -> J (before ++ [e]) s).
  { intros n s (Hs & Hn & Hb) ->. split; [done|]. intros e' [He'|He']%elem_of_app; [by apply Hb|].
    apply list_elem_of_singleton in He' as ->. by rewrite Hpath. }
  assert (Hw : forall n s, J' n s -> off_managed s0 s) by (by intros n s [? _]).
  eapply (spec_bind c _ _ _ (fun _ => J' None)).
  { apply spec_wrap, spec_remove; [by intros s [? _]|by intros s ? [? _]; split|].
    intros s [Hs Hb]. split_and!; [by apply Hoffd|apply lookup_delete_eq|].
    intros e' He'. simpl. rewrite lookup_delete_ne by (by apply not_eq_sym, Hold). by apply Hb. }
  intros ?. destruct (orig !! p) as [[x mode uid gid|target uid gid|]|] eqn:Horig; [| |done|].
  - destruct Hsaved as (name & m & u & g & -> & Hcopy). simpl.
    eapply (spec_bind c _ _ _ (fun _ => J' None)); [apply spec_wrap, spec_io; [by apply Hw|by split; [|eapply Hw]]|].
    intros ?. eapply (spec_bind c _ _ _ (fun _ => J' (Some (Reg x (perm mode) 0 0)))).
    { apply spec_wrap. eapply spec_copy with (x := x);
        [by apply Hw|by split; [|eapply Hw]| | |by apply Hw|by split; [|eapply Hw]].
      - intros s (Hs & _ & _). exists m, u, g. destruct Hs as [_ Hf]. rewrite Hf; [done|].
        by apply work_not_managed, dir_work.
      - intros s (Hs & Hn & Hb). split_and!; [by apply Hoff|apply lookup_insert_eq|].
        intros e' He'. simpl. rewrite lookup_insert_ne by (by apply not_eq_sym, Hold). by apply Hb. }
    intros ?. apply spec_wrap, spec_chown; [by apply Hw|by split; [|eapply Hw]|].
    intros s (Hs & Hn & Hb). eapply Hend; [|done]. simpl. split_and!; [by apply Hoffa| |].
    + simpl. by rewrite lookup_alter_eq, Hn.
    + intros e' He'. simpl. rewrite lookup_alter_ne by (by apply not_eq_sym, Hold). by apply Hb.
  - destruct Hsaved as [-> Hne]. simpl.
    eapply (spec_bind c _ _ _ (fun _ => J' None)); [apply spec_wrap, spec_io; [by apply Hw|by split; [|eapply Hw]]|].
    intros ?. assert (is_empty target = false) as -> by (unfold is_empty; by rewrite bool_decide_eq_false). simpl.
    eapply (spec_bind c _ _ _ (fun _ => J' (Some (Link target 0 0)))).
    { apply spec_wrap, spec_symlink; [by apply Hw|by split; [|eapply Hw]|by intros s (_ & ? & _)|].
      intros s (Hs & Hn & Hb). split_and!; [by apply Hoff|apply lookup_insert_eq|].
      intros e' He'. simpl. rewrite lookup_insert_ne by (by apply not_eq_sym, Hold). by apply Hb. }
    intros ?. apply spec_wrap, spec_chown; [by apply Hw|by split; [|eapply Hw]|].
    intros s (Hs & Hn & Hb). eapply Hend; [|done]. simpl. split_and!; [by apply Hoffa| |].
    + simpl. by rewrite lookup_alter_eq, Hn.
    + intros e' He'. simpl. rewrite lookup_alter_ne by (by apply not_eq_sym, Hold). by apply Hb.
  - rewrite Hsaved. simpl. apply spec_ret. intros s Hs. by eapply Hend; [exact Hs|].
Qed.

Lemma restoreHostSnapshot_spec c s0 directory :
  snapshot_saved s0.1 directory ->
  spec c (eq s0) (restoreHostSnapshot directory) (fun _ s => off_managed s0 s /\ restored s)
    (must c (off_managed s0)) (off_managed s0).
Proof.
  intros (Hne & Hdir & entries & m & u & g & Hman & Hall). unfold UpdateOps.restoreHostSnapshot.
  assert (is_empty directory = false) as -> by (unfold is_empty; by rewrite bool_decide_eq_false).
  eapply spec_bind.
  { apply spec_wrap, (spec_read_existing _ c _ (Manifest entries)); [by intros s ->|by intros s ? ->|].
    intros s <-. eauto. }
  intros y. apply spec_pure. intros ->.
  set (J := fun (l : list snapshotEntry) (s : state) => off_managed s0 s /\ forall e, e ∈ l -> s.1 !! e_Path e = norm <$> orig !! e_Path e).
  eapply spec_conseq with (P' := J []) (Q' := fun _ => J entries); [apply spec_for_each| | |done..].
  - intros before e rest Hl. destruct (Forall2_lookup_l _ _ _ (length before) e Hall) as (p & Hp & Hsaved).
    { by rewrite Hl, lookup_app_r, Nat.sub_diag by done. }
    assert (Hpath : map e_Path entries = managed).
    { clear -Hall. induction Hall as [|e p l l' [He _] _ IH]; simpl; congruence. }
    eapply restore_entry_spec; [done|by eapply list_elem_of_lookup_2|done|].
    pose proof (l_nodup _ Hlay) as Hnd. rewrite <-Hpath, Hl, map_app in Hnd.
    apply NoDup_app in Hnd as (_ & Hdis & _). intros Hin. apply (Hdis _ Hin). simpl.
    destruct Hsaved as [-> _]. apply elem_of_cons. by left.
  - intros s <-. split; [done|]. by intros e He%elem_of_nil.
  - intros _ s [Hs Hr]. split; [done|]. intros p Hp.
    apply list_elem_of_lookup in Hp as [i Hi]. destruct (Forall2_lookup_r _ _ _ i p Hall Hi) as (e & He & [<- _]).
    apply Hr. by eapply list_elem_of_lookup_2.
Qed.

(** ** The binary *)
Definition with_binary (b : content) (s : state) : state := (<[binaryPath o := Reg b 493 0 0]> s.1, s.2).

Lemma with_binary_is b s : bin_is b (with_binary b s).
Proof. exists 493, 0, 0. apply lookup_insert_eq. Qed.

Lemma run_version_spec c b v P I :
  (forall s, P s -> I s) ->
  spec c P (UpdateOps.run_version E b v) (fun r s => r = firstField (env_reports E b) /\ P s)
    (fun s => (v <> EmptyString \/ c = false) /\ I s) I.
Proof.
  intros HI. unfold run_version. eapply spec_bind; [apply spec_wrap, spec_io; [done|by auto]|]. intros ?.
  destruct (negb (is_empty v) && _) eqn:Hv; [|by apply spec_ret].
  apply spec_fail. intros s Hs. split; [|by apply HI]. left. intros ->. done.
Qed.

(** Installing a binary either has not happened or is complete. *)
Lemma installStagedBinary_spec c s0 b v :
  let I s := s = s0 \/ s = with_binary b s0 in
  spec c (eq s0) (installStagedBinary b v) (fun _ s => s = with_binary b s0)
    (fun s => (v <> EmptyString \/ c = false) /\ I s) I.
Proof.
  intros I. unfold UpdateOps.installStagedBinary.
  eapply (spec_bind c _ _ _ (fun _ => eq s0)); [apply spec_wrap, spec_io; [by left|by split; [right|left]]|]. intros ?.
  eapply spec_bind; [apply (run_version_spec _ _ _ _ I); by left|]. intros r.
  apply spec_pure. intros ?.
  eapply (spec_bind c _ _ _ (fun _ => eq s0)); [apply spec_wrap, spec_io; [by left|by split; [right|left]]|]. intros ?.
  eapply (spec_bind c _ _ _ (fun _ => eq (with_binary b s0))); [apply spec_update; by intros s <-|]. intros ?.
  eapply (spec_bind c _ _ _ (fun _ => eq (with_binary b s0)));
    [apply spec_wrap, spec_io; [by right|by split; [right|right]]|]. intros ?.
  by apply spec_ret.
Qed.

Lemma install_must c s0 b :
  let I s := s = s0 \/ s = with_binary b s0 in
  spec c (eq s0) (installStagedBinary b EmptyString) (fun _ s => s = with_binary b s0) (must c I) I.
Proof.
  intros I. eapply spec_conseq; [apply installStagedBinary_spec|done|done| |done].
  intros s [[?|?] HI]; [done|by split].
Qed.

(** ** Undoing *)

(** What a transaction needs to be undone. *)
Definition backed (t : updateTransaction) (s : state) : Prop :=
  snapshot_saved s.1 (SnapshotDir t) /\ work (PreservedBinary t) /\
  exists m u g, s.1 !! PreservedBinary t = Some (Reg b0 m u g).

(** Outside of the managed files and the binary everything is as in [s0]. *)
Definition off_live (s0 s : state) : Prop :=
  s.2 = s0.2 /\ forall p, p ∉ managed -> p <> binaryPath o -> s.1 !! p = s0.1 !! p.

(** An undo that is under way: nothing has happened, or the old binary is back. *)
Definition undoing (s0 s : state) : Prop := off_live s0 s /\ (s = s0 \/ bin_is b0 s).

Lemma undoing_refl s : undoing s s.
Proof. split; [done|by left]. Qed.

Lemma saved_ext fs fs' directory :
  (forall p, work p -> fs' !! p = fs !! p) -> snapshot_saved fs directory -> snapshot_saved fs' directory.
Proof.
  intros Heq (Hne & Hdir & entries & m & u & g & Hman & Hall).
  split_and!; [done|done|]. exists entries, m, u, g. split.
  - rewrite Heq; [done|]. by apply dir_work.
  - eapply Forall2_impl; [exact Hall|]. intros e p [Hp Hs]. split; [done|].
    destruct (orig !! p) as [[]|]; try done. destruct Hs as (name & m' & u' & g' & -> & Hcopy).
    exists name, m', u', g'. split; [done|]. rewrite Heq; [done|]. by apply dir_work.
Qed.

Lemma backed_ext t (s s' : state) :
  (forall p, work p -> s'.1 !! p = s.1 !! p) -> backed t s -> backed t s'.
Proof.
  intros Heq (Hs & Hw & m & u & g & Hb). split_and!; [by eapply saved_ext|done|].
  exists m, u, g. by rewrite Heq.
Qed.

Lemma off_live_work s0 s : off_live s0 s -> forall p, work p -> s.1 !! p = s0.1 !! p.
Proof. intros [_ H] p Hp. apply H; [by apply work_not_managed|by apply work_not_binary]. Qed.

Lemma with_binary_undoing s0 : undoing s0 (with_binary b0 s0).
Proof.
  split; [split; [done|]|right; apply with_binary_is].
  intros p _ Hp. simpl. by rewrite lookup_insert_ne.
Qed.

Lemma off_managed_undoing s0 s :
  off_managed (with_binary b0 s0) s -> undoing s0 s /\ bin_is b0 s.
Proof.
  intros [Hs Hf]. assert (Hb : bin_is b0 s).
  { destruct (with_binary_is b0 s0) as (m & u & g & Hb). exists m, u, g. rewrite Hf; [done|apply binary_not_managed]. }
  split; [|done]. split; [split; [done|]|by right].
  intros p Hp Hne. rewrite Hf by done. simpl. by rewrite lookup_insert_ne.
Qed.

(** Restoring the binary, then the managed files. *)
Lemma undo_spec c s0 t :
  backed t s0 ->
  spec c (eq s0) (_ ← installStagedBinary b0 EmptyString; restoreHostSnapshot (SnapshotDir t))
    (fun _ s => undoing s0 s /\ bin_is b0 s /\ restored s) (must c (undoing s0)) (undoing s0).
Proof.
  intros Hb. eapply spec_bind.
  - eapply spec_conseq; [apply (install_must c s0 b0)|done| | |].
    + intros ? s Hs. exact Hs.
    + intros s [? [-> | ->]]; (split; [done|]); [apply undoing_refl|apply with_binary_undoing].
    + intros s [-> | ->]; [apply undoing_refl|apply with_binary_undoing].
  - intros r. eapply spec_pre with (P' := eq (with_binary b0 s0)); [|done].
    eapply spec_conseq; [apply restoreHostSnapshot_spec|done| | |].
    + eapply saved_ext; [|apply Hb]. intros p Hp. simpl. by rewrite lookup_insert_ne by (by apply not_eq_sym, work_not_binary).
    + intros _ s [Hs Hr]. by destruct (off_managed_undoing _ _ Hs).
    + intros s [? Hs]. split; [done|]. by apply off_managed_undoing.
    + intros s Hs. by apply off_managed_undoing.
Qed.

Lemma restorePreparedTransaction_spec c s0 t :
  backed t s0 ->
  spec c (eq s0) (UpdateOps.restorePreparedTransaction E o t)
    (fun _ s => undoing s0 s /\ bin_is b0 s /\ restored s) (must c (undoing s0)) (undoing s0).
Proof.
  intros Hb. unfold UpdateOps.restorePreparedTransaction. eapply spec_bind.
  { apply spec_wrap, (spec_read_existing _ c _ b0); [by intros s <-; apply undoing_refl|by intros s ? <-; split; [|apply undoing_refl]|].
    intros s <-. apply Hb. }
  intros y. apply spec_pure. intros ->.
  pose proof (undo_spec c s0 t Hb) as Hu. intros h Hc Hp. specialize (Hu h Hc Hp).
  unfold mbind, M_bind, wrap in *. destruct (installStagedBinary b0 EmptyString h) as [[]?]; [|done..].
  by destruct (restoreHostSnapshot (SnapshotDir t) _) as [[]?].
Qed.
End host.
