(* ===== verification/UpdateActivate.v ===== *)
(** * Activation and automatic rollback of an update

    Specifications of the operations of [UpdateOps] that run commands: restoring the
    control database, restarting the services, the readiness gate, and the rollback
    of a failed activation. *)

From S2P Require Import Prelude GoStrings Json Release Update UpdateOps UpdateLogic.
From S2P Require Import UpdateRestore.

Local Open Scope Z_scope.

Section host.
Context (E : environment) (o : HostOperator).
Hypothesis (Hlay : layout o) (Hframe : commands_framed E o).
Context (orig : filesystem) (b0 : content).

Local Abbreviation managed := (managedPaths o).
Local Abbreviation work p := (under (workRoot o) p = true).
Local Abbreviation normalizeVersion := (Release.normalizeVersion (env_semver_IsValid E) (env_semver_Canonical E)).
Local Abbreviation run := (UpdateOps.run E o).
Local Abbreviation backed := (backed o orig b0).
Local Abbreviation restored := (restored o orig).
Local Abbreviation bin_is := (bin_is o).

(** The version a binary was built as. *)
Definition version (b : content) : string := normalizeVersion (firstField (env_reports E b)).

(** The files an update is about are as in [s0]; the rest, and the service, may have
    changed. *)
Definition kept (s0 s : state) : Prop :=
  forall p, p ∈ managed \/ p = binaryPath o \/ work p -> s.1 !! p = s0.1 !! p.

Lemma kept_refl s : kept s s.
Proof. by intros p _. Qed.
Lemma kept_trans s1 s2 s3 : kept s1 s2 -> kept s2 s3 -> kept s1 s3.
Proof. intros H1 H2 p Hp. by rewrite H2, H1. Qed.
Lemma kept_bin b s0 s : kept s0 s -> bin_is b s0 -> bin_is b s.
Proof. intros Hk (m & u & g & Hb). exists m, u, g. rewrite Hk; [done|by right; left]. Qed.
Lemma kept_restored s0 s : kept s0 s -> restored s0 -> restored s.
Proof. intros Hk Hr p Hp. rewrite Hk by (by left). by apply Hr. Qed.
Lemma kept_backed t s0 s : kept s0 s -> backed t s0 -> backed t s.
Proof. intros Hk. apply (backed_ext o). intros p Hp. apply Hk. by right; right. Qed.

(** ** Commands *)

(** What the API service runs after a command that proceeds, if [b] is installed. *)
Definition after (b : content) (sv : option content) (c : Command) : option content :=
  service_state (binaryPath o) c Proceed {[binaryPath o := Reg b 0 0 0]} sv.

Lemma service_after b s0 c :
  bin_is b s0 -> service_state (binaryPath o) c Proceed s0.1 s0.2 = after b s0.2 c.
Proof.
  intros (m & u & g & Hb). unfold after, service_state. rewrite Hb, lookup_singleton_eq. by repeat case_match.
Qed.

Lemma run_spec c s0 b cmd :
  packaging_command cmd = false -> bin_is b s0 ->
  spec c (eq s0) (run cmd) (fun _ s => kept s0 s /\ s.2 = after b s0.2 cmd) (must c (kept s0)) (kept s0).
Proof.
  intros Hcmd Hb h Hc ->.
  assert (Hk : forall a sv, kept (st h) (env_effect E cmd a (files h), sv)).
  { intros a sv p Hp. simpl. destruct Hp as [Hp|Hp]; [by apply (f_managed _ _ Hframe)|].
    apply (f_work _ _ Hframe). destruct Hp; auto. }
  pose proof (service_after b (st h) cmd Hb) as Haf. simpl in Haf.
  unfold UpdateOps.run, ask, modify, mbind, M_bind. simpl. destruct (schedule h) as [|a l] eqn:Hsch.
  - simpl. split_and!; [done|apply Hk|done].
  - assert (c = false) as -> by (destruct c; [by specialize (Hc eq_refl)|done]).
    destruct a; simpl; (split; [done|]); [split; [apply Hk|done]|split; [done|apply Hk]|apply Hk].
Qed.

(** A command that may fail in a clean run too, for a caller that goes on. *)
Lemma run_all_spec c s0 b what l :
  Forall (fun cmd => packaging_command cmd = false) l -> bin_is b s0 ->
  spec c (eq s0) (UpdateOps.run_all E o what l)
    (fun _ s => kept s0 s /\ s.2 = foldl (after b) s0.2 l) (must c (kept s0)) (kept s0).
Proof.
  intros Hl Hb. unfold run_all.
  set (J := fun (done : list Command) (s : state) => kept s0 s /\ s.2 = foldl (after b) s0.2 done).
  eapply spec_conseq with (P' := J []) (Q' := fun _ => J l);
    [apply spec_for_each|intros s <-; split; [apply kept_refl|done]|done..].
  intros before cmd rest Heq. apply spec_start. intros s1 [Hk Hsv].
  assert (Hcmd : packaging_command cmd = false).
  { rewrite Heq in Hl. apply Forall_app in Hl as [_ Hl]. by apply Forall_cons in Hl as [? _]. }
  eapply spec_bind.
  - apply spec_wrap. eapply spec_conseq; [apply (run_spec c s1 b cmd Hcmd); by eapply kept_bin|done| | |].
    + intros a s H. exact H.
    + intros s [? ?]. split; [done|]. by eapply kept_trans.
    + intros s ?. by eapply kept_trans.
  - intros a. apply spec_ret. intros s [Hk2 Hsv2]. split; [by eapply kept_trans|].
    by rewrite foldl_app, <-Hsv.
Qed.

Lemma stopAPI_spec c s0 b :
  bin_is b s0 -> spec c (eq s0) (UpdateOps.stopAPI E o) (fun _ s => kept s0 s) (must c (kept s0)) (kept s0).
Proof.
  intros Hb. eapply spec_bind; [apply spec_wrap, (run_spec c s0 b); done|].
  intros ?. by apply spec_ret; intros s [? _].
Qed.

(** ** The host lock *)

(** The lock file is missing, or a regular file of root's. *)
Definition lock_ok (s : state) : Prop :=
  match s.1 !! lockPath o with None => True | Some (Reg _ _ uid _) => uid = 0 | _ => False end.
Definition locked (s0 s : state) : Prop := s.2 = s0.2 /\ forall p, p <> lockPath o -> s.1 !! p = s0.1 !! p.

Lemma locked_kept s0 s : locked s0 s -> kept s0 s.
Proof.
  intros [_ Hl] p Hp. apply Hl. intros ->. destruct (l_lock _ Hlay) as (Hw & Hm & Hb & _).
  destruct Hp as [?|[?|?]]; congruence.
Qed.

Lemma acquireHostLock_spec c s0 :
  (c = true -> lock_ok s0) ->
  spec c (eq s0) (acquireHostLock o) (fun _ => locked s0) (must c (locked s0)) (locked s0).
Proof.
  intros Hok. unfold acquireHostLock.
  assert (Hrefl : forall s, s0 = s -> locked s0 s) by (intros s <-; by split).
  eapply spec_bind with (Q := fun _ => eq s0).
  { apply spec_wrap, spec_io; [done|]. intros s -> Hs. split; auto. }
  intros ?. eapply spec_bind; [apply spec_lstat; [done|intros s -> Hs; split; auto]|].
  intros n. apply spec_start. intros s1 [-> <-].
  assert (Hins : forall x, spec c (eq s0)
    (_ ← wrap "open the self-update lock" io; _ ← update_files (<[lockPath o := x]>); wrap "lock self-update state" io)
    (fun _ => locked s0) (must c (locked s0)) (locked s0)).
  { intros x. eapply spec_bind with (Q := fun _ => eq s0).
    { apply spec_wrap, spec_io; [done|]. intros s -> Hs. split; auto. }
    intros ?. eapply spec_bind with (Q := fun _ => locked s0).
    - apply spec_update. intros s <-. split; [done|]. intros p Hp. by apply lookup_insert_ne.
    - intros ?. apply spec_wrap, spec_io; [done|]. intros s -> Hs. by split. }
  unfold lock_ok in Hok. destruct (s0.1 !! lockPath o) as [[x mode uid gid|t u g|]|].
  - destruct (uid =? 0) eqn:Hu; simpl; [by apply Hins|].
    assert (c = false) as -> by (destruct c; [apply Z.eqb_neq in Hu; by destruct Hu; apply Hok|done]).
    eapply spec_bind with (Q := fun _ => eq s0).
    { apply spec_wrap, spec_io; [done|]. intros s _ Hs. split; auto. }
    intros ?. eapply spec_bind with (Q := fun _ => locked s0).
    + apply spec_update. intros s <-. split; [done|]. intros p Hp. by apply lookup_insert_ne.
    + intros ?. apply spec_fail. by split.
  - assert (c = false) as -> by (destruct c; [by destruct Hok|done]). apply spec_fail. intros s Hs. split; auto.
  - assert (c = false) as -> by (destruct c; [by destruct Hok|done]). apply spec_fail. intros s Hs. split; auto.
  - by apply Hins.
Qed.

(** ** The control database *)
Definition database_ready (snapshot : controlDatabaseSnapshot) (s : state) : Prop :=
  Captured snapshot = true /\
  (Existed snapshot = true -> under (transactionRoot o) (Path snapshot) = true /\
     exists x m u g, s.1 !! Path snapshot = Some (Reg x m u g)).

Lemma database_path p : p ∈ [databasePath o; wal o; shm o] ->
  under (workRoot o) p = false /\ p ∉ managed /\ p <> binaryPath o.
Proof. intros Hp. pose proof (l_database _ Hlay) as H. rewrite Forall_forall in H. by apply H. Qed.

(** A file change outside of what an update is about. *)
Lemma kept_change (f : filesystem -> filesystem) p s0 s :
  p ∈ [databasePath o; wal o; shm o] -> (forall fs q, q <> p -> f fs !! q = fs !! q) ->
  kept s0 s -> kept s0 (f s.1, s.2).
Proof.
  intros Hp Hf Hk q Hq. destruct (database_path p Hp) as (Hw & Hm & Hb). simpl.
  rewrite Hf; [by apply Hk|]. intros ->. destruct Hq as [?|[?|?]]; congruence.
Qed.

Lemma ready_kept snapshot s0 s : kept s0 s -> database_ready snapshot s0 -> database_ready snapshot s.
Proof.
  intros Hk [Hc He]. split; [done|]. intros Hx. destruct (He Hx) as [Hu (x & m & u & g & Hp)].
  split; [done|]. exists x, m, u, g. rewrite Hk; [done|]. right; right. by eapply under_trans.
Qed.

Lemma restoreControlDatabase_spec c s0 snapshot :
  database_ready snapshot s0 ->
  spec c (eq s0) (UpdateOps.restoreControlDatabase E o snapshot)
    (fun _ s => kept s0 s /\ s.2 = s0.2) (must c (kept s0)) (kept s0).
Proof.
  intros Hr. set (K := fun s => kept s0 s /\ s.2 = s0.2).
  assert (HK : forall s, K s -> kept s0 s) by (by intros s [? _]).
  assert (HKf : forall s, c = false -> K s -> must c (kept s0) s) by (by intros s ? [? _]).
  assert (Hch : forall f p s, p ∈ [databasePath o; wal o; shm o] ->
    (forall fs q, q <> p -> f fs !! q = fs !! q) -> K s -> K (f s.1, s.2)).
  { intros f p s Hp Hf [Hk Hs]. split; [by eapply kept_change|done]. }
  unfold UpdateOps.restoreControlDatabase. destruct (Captured snapshot) eqn:Hcap; simpl; [|by destruct Hr; congruence].
  eapply spec_pre with (P' := K); [|intros s <-; split; [apply kept_refl|done]].
  eapply spec_bind with (Q := fun _ => K).
  { apply spec_wrap, spec_remove; [done|done|]. intros s Hs.
    apply (Hch (delete (wal o)) (wal o)); [set_solver|intros; by rewrite lookup_delete_ne|done]. }
  intros ?. eapply spec_bind with (Q := fun _ => K).
  { apply spec_wrap, spec_remove; [done|done|]. intros s Hs.
    apply (Hch (delete (shm o)) (shm o)); [set_solver|intros; by rewrite lookup_delete_ne|done]. }
  intros ?. destruct (Existed snapshot) eqn:Hex; simpl.
  - destruct Hr as [_ Hr]. destruct (Hr Hex) as [Hu (x & m & u & g & Hp)]. rewrite Hu. simpl.
    assert (Hpath : forall s, K s -> s.1 !! Path snapshot = Some (Reg x m u g)).
    { intros s [Hk _]. rewrite Hk; [done|]. right; right. by eapply under_trans. }
    eapply spec_bind; [by apply spec_lstat|]. intros n. apply spec_start. intros s1 [-> Hs1].
    rewrite (Hpath _ Hs1). eapply spec_pre with (P' := K); [|by intros s <-].
    eapply spec_bind with (Q := fun _ => K).
    { apply spec_wrap. eapply spec_copy with (x := x); [done|done| | |done|done].
      - intros s Hs. eauto.
      - intros s Hs. apply (Hch (<[databasePath o := _]>) (databasePath o));
          [set_solver|intros; by rewrite lookup_insert_ne|done]. }
    intros ?. apply spec_wrap, spec_chown; [done|done|]. intros s Hs.
    apply (Hch (alter _ (databasePath o)) (databasePath o)); [set_solver|intros; by rewrite lookup_alter_ne|done].
  - eapply spec_bind with (Q := fun _ => K).
    { apply spec_wrap, spec_remove; [done|done|]. intros s Hs.
      apply (Hch (delete (databasePath o)) (databasePath o)); [set_solver|intros; by rewrite lookup_delete_ne|done]. }
    intros ?. by apply spec_io.
Qed.

(** ** The readiness gate *)
Lemma waitAPIReady_spec c s0 b v :
  s0.2 = Some b ->
  spec c (eq s0) (UpdateOps.waitAPIReady E v)
    (fun _ s => s = s0 /\ (normalizeVersion v = EmptyString \/ version b = normalizeVersion v))
    (fun s => s = s0 /\ (c = true -> normalizeVersion v <> EmptyString /\ version b <> normalizeVersion v)) (eq s0).
Proof.
  intros Hsv. unfold UpdateOps.waitAPIReady.
  eapply spec_bind with (Q := fun _ => eq s0); [apply spec_io; [done|by intros s -> <-]|]. intros ?.
  eapply spec_bind; [apply spec_get|]. intros h h' Hc [Heq Hs0].
  assert (serving h = Some b) as -> by (rewrite <-Hsv, Hs0, <-Heq; done).
  destruct (is_empty (normalizeVersion v) || _) eqn:Hv; (split; [done|]); (split; [by symmetry|]).
  - apply orb_true_iff in Hv as [Hv|Hv]; apply bool_decide_eq_true in Hv; [by left|by right].
  - intros _. apply orb_false_iff in Hv as [Hv1 Hv2].
    by apply bool_decide_eq_false in Hv1, Hv2.
Qed.

(** ** Activation *)
Lemma activateServices_spec c s0 b v :
  bin_is b s0 ->
  spec c (eq s0) (UpdateOps.activateServices E o v)
    (fun _ s => kept s0 s /\ (normalizeVersion v = EmptyString \/ version b = normalizeVersion v))
    (kept s0) (kept s0).
Proof.
  intros Hb. unfold UpdateOps.activateServices.
  eapply spec_bind with (Q := fun _ s => kept s0 s /\ s.2 = Some b).
  { eapply spec_conseq; [apply (run_all_spec c s0 b); [by repeat constructor|done]|done| |by intros s [_ ?]|done].
    intros a s [Hk ->]. split; [done|]. unfold after, service_state. simpl.
    by rewrite lookup_singleton_eq. }
  intros ?. set (R := fun s => kept s0 s /\ (normalizeVersion v = EmptyString \/ version b = normalizeVersion v)).
  eapply spec_bind with (Q := fun _ => R).
  { apply spec_start. intros s1 [Hk Hs]. eapply spec_conseq; [by apply (waitAPIReady_spec c s1 b v)|done| | |].
    - intros ? s [-> Hv]. done.
    - by intros s [-> _].
    - by intros s <-. }
  assert (Hrun : forall cmd, packaging_command cmd = false ->
    spec c R (UpdateOps.run E o cmd) (fun _ => R) R (kept s0)).
  { intros cmd Hcmd. apply spec_start. intros s1 (Hk & Hv).
    eapply spec_conseq; [apply (run_spec c s1 b); [done|by eapply kept_bin]|done| | |].
    - intros ? s [Hk' _]. split; [by eapply kept_trans|done].
    - intros s [_ ?]. split; [by eapply kept_trans|done].
    - intros s ?. by eapply kept_trans. }
  assert (Hweak : forall (m : M string), spec c R m (fun _ => R) R (kept s0) ->
    spec c R m (fun _ => R) (kept s0) (kept s0)).
  { intros m Hm. eapply spec_conseq; [exact Hm|done|done| |done]. by intros s [? _]. }
  intros ?. eapply spec_bind with (Q := fun _ => R).
  { eapply spec_conseq; [apply spec_attempt, Hrun; done|done| |intros s Hs; exact Hs|done]. by intros [?|?]. }
  intros r. eapply spec_bind with (Q := fun _ => R).
  { destruct r; [by apply spec_ret|].
    eapply spec_bind with (Q := fun _ => R); [by apply spec_wrap, Hweak, Hrun|]. intros ?. by apply spec_ret. }
  intros ?. eapply spec_bind with (Q := fun _ => R); [by apply spec_wrap, Hweak, Hrun|]. intros ?.
  by apply spec_ret.
Qed.

(** ** Rollback of a failed activation *)

(** From a backed state the rollback goes through [undoing]; when it returns, the old
    binary and the managed files are back.  In a clean run it returns. *)
Definition undone_or_kept (s0 s : state) : Prop :=
  (forall p, work p -> s.1 !! p = s0.1 !! p) /\ (kept s0 s \/ bin_is b0 s).

Lemma undoing_weaken s0 s1 s :
  kept s0 s1 -> undoing o b0 s1 s -> undone_or_kept s0 s.
Proof.
  intros Hk [Hoff Hor]. split.
  - intros p Hp. rewrite (off_live_work o Hlay _ _ Hoff) by done. apply Hk. by right; right.
  - destruct Hor as [->|?]; [by left|by right].
Qed.

Lemma restoreTransaction_spec c s0 t b :
  backed t s0 -> bin_is b s0 -> database_ready (DatabaseSnapshot t) s0 ->
  (c = true -> normalizeVersion (PreviousVersion t) = EmptyString \/ version b0 = normalizeVersion (PreviousVersion t)) ->
  spec c (eq s0) (UpdateOps.restoreTransaction E o t)
    (fun _ s => undone_or_kept s0 s /\ bin_is b0 s /\ restored s)
    (must c (undone_or_kept s0)) (undone_or_kept s0).
Proof.
  intros Hb Hbin Hdb Hprev. unfold UpdateOps.restoreTransaction.
  assert (Hk0 : forall s, kept s0 s -> undone_or_kept s0 s) by (intros s Hk; split; [intros p Hp; apply Hk; auto|by left]).
  eapply spec_bind with (Q := fun _ s => kept s0 s).
  { eapply spec_conseq; [apply (stopAPI_spec c s0 b Hbin)|done|done| |done]. intros s [? ?]. split; auto. }
  intros ?. eapply spec_bind; [apply spec_stat with (I := undone_or_kept s0); [done|by split; auto]|].
  intros n. apply spec_start. intros s1 [-> Hk1].
  assert (Hb1 : backed t s1) by (by eapply kept_backed). destruct Hb1 as (Hsave & Hw & m & u & g & Hpre).
  rewrite Hpre. assert (Hu1 : forall s, undoing o b0 s1 s -> undone_or_kept s0 s) by (by intros; eapply undoing_weaken).
  eapply spec_bind.
  { apply (spec_read_existing _ c _ b0); [by intros s <-; apply Hk0|by intros s ? <-; split; auto|].
    intros s <-. eauto. }
  intros y. apply spec_pure. intros ->.
  set (U := fun s => undone_or_kept s0 s /\ bin_is b0 s /\ restored s).
  assert (Hundo : spec c (eq s1) (_ ← UpdateOps.installStagedBinary E o b0 EmptyString; UpdateOps.restoreHostSnapshot E (SnapshotDir t))
    (fun _ => U) (must c (undone_or_kept s0)) (undone_or_kept s0)).
  { eapply spec_conseq; [apply (undo_spec E o Hlay orig b0 c s1 t); by split_and!; [| |eauto]|done| | |done].
    - intros ? s (? & ? & ?). split; auto.
    - intros s [? ?]. split; auto. }
  assert (HU : forall s, U s -> undone_or_kept s0 s) by (by intros s [? _]).
  assert (HUk : forall s s', U s -> kept s s' -> U s').
  { intros s s' ((Hw1 & _) & Hb' & Hr') Hk. assert (bin_is b0 s') by (by eapply kept_bin).
    split_and!; [|done|by eapply kept_restored]. split; [|by right].
    intros p Hp. rewrite Hk by auto. by apply Hw1. }
  assert (HUw : forall s, U s -> forall p, work p -> s.1 !! p = s0.1 !! p) by (by intros s [[? _] _]).
  assert (Hrest : spec c U (_ ← UpdateOps.restoreControlDatabase E o (DatabaseSnapshot t);
      _ ← UpdateOps.run_all E o "restore services with "
            [systemctl ["daemon-reload"%string]; command "nginx" ["-t"%string];
             systemctl ["restart"; "nexa-agent.service"; api_service]%string];
      UpdateOps.waitAPIReady E (PreviousVersion t)) (fun _ => U) (must c (undone_or_kept s0)) (undone_or_kept s0)).
  { eapply spec_bind with (Q := fun _ => U).
    { apply spec_start. intros s2 HU2. eapply spec_conseq; [apply (restoreControlDatabase_spec c s2)|done| | |].
      - destruct Hdb as [Hc He]. split; [done|]. intros Hx. destruct (He Hx) as [Hun (x & m' & u' & g' & Hp)].
        split; [done|]. exists x, m', u', g'. rewrite (HUw _ HU2); [done|]. by eapply under_trans.
      - intros ? s [? _]. by eapply HUk.
      - intros s [? ?]. split; [done|]. by eapply HU, HUk.
      - intros s ?. by eapply HU, HUk. }
    intros ?. eapply spec_bind with (Q := fun _ s => U s /\ s.2 = Some b0).
    { apply spec_start. intros s2 HU2. eapply spec_conseq;
        [apply (run_all_spec c s2 b0); [by repeat constructor|by apply HU2]|done| | |].
      - intros ? s [Hk ->]. split; [by eapply HUk|]. unfold after, service_state. simpl. by rewrite lookup_singleton_eq.
      - intros s [? ?]. split; [done|]. by eapply HU, HUk.
      - intros s ?. by eapply HU, HUk. }
    intros ?. apply spec_start. intros s2 [HU2 Hsv].
    eapply spec_conseq; [apply (waitAPIReady_spec c s2 b0 _ Hsv)|done| | |].
    - by intros ? s [-> _].
    - intros s [-> Hc]. destruct c; [|by split; [|apply HU]].
      destruct (Hc eq_refl) as [? ?]. destruct (Hprev eq_refl); done.
    - intros s <-. by apply HU. }
  apply spec_assoc. eapply spec_pre with (P' := eq s1); [|by intros s <-].
  by eapply spec_bind; [exact Hundo|intros ?; exact Hrest].
Qed.
End host.
