(* ===== verification/UpdateCapture.v ===== *)
(** * Capturing the host before an update

    Specifications of [prepareTransaction]: it writes inside the directory of its
    transaction only, and when it returns, the snapshot, the preserved binary and the
    database snapshot there suffice to undo any change ([backed], [database_ready]). *)

From S2P Require Import Prelude GoStrings Json Release Update UpdateOps UpdateLogic.
From S2P Require Import UpdateRestore UpdateActivate.

Local Open Scope Z_scope.

Section host.
Context (E : environment) (o : HostOperator).
Hypothesis (Hlay : layout o).
Context (orig : filesystem) (b0 : content) (id : string).

Local Abbreviation managed := (managedPaths o).
Local Abbreviation td := (transaction_dir o id).
Local Abbreviation directory := (snapshot_dir o id).

(** Only the transaction's directory has changed. *)
Definition off_dir (s0 s : state) : Prop :=
  s.2 = s0.2 /\ forall p, under td p = false -> s.1 !! p = s0.1 !! p.

Lemma off_dir_refl s : off_dir s s.
Proof. done. Qed.
Lemma off_dir_trans s1 s2 s3 : off_dir s1 s2 -> off_dir s2 s3 -> off_dir s1 s3.
Proof. intros [H1 H2] [H3 H4]. split; [congruence|]. intros p Hp. by rewrite H4, H2. Qed.

Lemma off_dir_insert s0 s p n : under td p = true -> off_dir s0 s -> off_dir s0 (<[p := n]> s.1, s.2).
Proof.
  intros Hp [Hs Hf]. split; [done|]. intros q Hq. simpl. rewrite lookup_insert_ne; [by apply Hf|congruence].
Qed.
Lemma off_dir_delete s0 s p : under td p = true -> off_dir s0 s -> off_dir s0 (delete p s.1, s.2).
Proof.
  intros Hp [Hs Hf]. split; [done|]. intros q Hq. simpl. rewrite lookup_delete_ne; [by apply Hf|congruence].
Qed.

Lemma not_work_off p : under (workRoot o) p = false -> under td p = false.
Proof. intros Hp. destruct (under td p) eqn:Hu; [|done]. apply transaction_dir_work in Hu. congruence. Qed.

Lemma managed_off p : p ∈ managed -> under td p = false.
Proof. intros Hp. by apply not_work_off, (managed_not_work o Hlay). Qed.

Lemma in_snapshot name : under td (path_join directory name) = true.
Proof.
  unfold snapshot_dir. unfold under, path_join. apply has_prefix_spec. exists ("snapshot/" +:+ name).
  by rewrite !str_app_assoc.
Qed.

Lemma snapshot_name_inj a b : path_join directory a = path_join directory b -> a = b.
Proof. apply path_join_inj. Qed.

Lemma snapshot_not name x : has_prefix "snapshot" x = false -> path_join directory name <> path_join td x.
Proof.
  intros Hx Heq. unfold snapshot_dir, path_join in Heq. rewrite str_app_assoc in Heq.
  apply str_app_inj_l in Heq. injection Heq as Heq. rewrite <-Heq in Hx. done.
Qed.

Lemma itoa_not_manifest i : itoa (Z.of_nat i) <> "manifest.json"%string.
Proof. intros Heq. pose proof (itoa_digits (Z.of_nat i) ltac:(lia)) as H. by rewrite Heq in H. Qed.

(** As [entry_saved], with the name of the copy. *)
Definition entry_at (fs : filesystem) (i : nat) (e : snapshotEntry) (p : string) : Prop :=
  entry_saved orig fs directory e p /\
  (forall x m u g, orig !! p = Some (Reg x m u g) -> BackupName e = itoa (Z.of_nat i)).
Definition entries_at (fs : filesystem) (l : list snapshotEntry) (paths : list string) : Prop :=
  length l = length paths /\
  forall i e p, l !! i = Some e -> paths !! i = Some p -> entry_at fs i e p.

(** Writing a file of another name keeps the entries. *)
Lemma entries_insert fs l paths q n :
  (forall i, (i < length l)%nat -> path_join directory (itoa (Z.of_nat i)) <> q) ->
  entries_at fs l paths -> entries_at (<[q := n]> fs) l paths.
Proof.
  intros Hq [Hlen Hl]. split; [done|]. intros i e p He Hp. destruct (Hl i e p He Hp) as [[Hpath Hs] Hname].
  split; [split; [done|]|done]. destruct (orig !! p) as [[x m u g| |]|] eqn:Ho; try done.
  destruct Hs as (name & m' & u' & g' & -> & Hc). exists name, m', u', g'. split; [done|].
  rewrite lookup_insert_ne; [done|]. specialize (Hname x m u g eq_refl). simpl in Hname. subst name.
  apply not_eq_sym, Hq. by apply lookup_lt_Some in He.
Qed.

Lemma entries_saved fs l : entries_at fs l managed -> Forall2 (entry_saved orig fs directory) l managed.
Proof.
  intros [Hlen Hl]. apply Forall2_same_length_lookup_2; [done|]. intros i e p He Hp. by apply (Hl i e p).
Qed.

Hypothesis (Hlinks : forall p t u g, p ∈ managed -> orig !! p = Some (Link t u g) -> t <> EmptyString).

Section create.
Context (c : bool) (s0 : state).
Hypothesis (Horig : forall p, p ∈ managed -> s0.1 !! p = orig !! p).
Local Abbreviation O := (off_dir s0).
Local Abbreviation J l paths s := (O s /\ entries_at s.1 l paths).

Lemma snapshot_path_spec before paths p :
  p ∈ managed -> length before = length paths ->
  spec c (fun s => J before paths s) (snapshot_path E directory (length before) p)
    (fun e s => J (before ++ [e]) (paths ++ [p]) s) O O.
Proof.
  intros Hp Hlen. unfold snapshot_path. set (K := fun s : state => J before paths s).
  assert (HKO : forall s, K s -> O s) by (by intros s [? _]).
  assert (Hsnoc : forall s e, K s -> entry_at s.1 (length before) e p -> J (before ++ [e]) (paths ++ [p]) s).
  { intros s e [Ho [Hl He]] Hnew. split; [done|]. split; [by rewrite !length_app, Hl|].
    intros i e' p' [Hi|[Hi Hi2]]%lookup_app_Some Hp'.
    - rewrite lookup_app_l in Hp' by (rewrite <-Hlen; by apply lookup_lt_Some in Hi). by apply He.
    - apply list_lookup_singleton_Some in Hi2 as [Hi0 <-].
      rewrite lookup_app_r in Hp' by lia. apply list_lookup_singleton_Some in Hp' as [_ <-].
      by replace i with (length before) by lia. }
  eapply spec_bind; [apply spec_wrap, spec_lstat with (I := O); auto|]. intros n.
  apply spec_start. intros s1 [-> HK1].
  assert (Hlook : s1.1 !! p = orig !! p).
  { rewrite <-Horig by done. apply HK1. by apply managed_off. }
  rewrite Hlook. destruct (orig !! p) as [[x mode uid gid|target uid gid|]|] eqn:Ho.
  - set (q := path_join directory (itoa (Z.of_nat (length before)))).
    set (K2 := fun s : state => K s /\ s.1 !! q = Some (Reg x (perm mode) 0 0)).
    eapply spec_bind with (Q := fun _ => K2).
    { apply spec_wrap. eapply spec_copy with (x := x); [by intros s <-; apply HKO|by intros s _ <-; apply HKO| | | |].
      - intros s <-. eauto.
      - intros s <-. destruct HK1 as [Ho1 He1]. split; [split|apply lookup_insert_eq].
        + apply off_dir_insert; [apply in_snapshot|done].
        + apply entries_insert; [|done]. intros i Hi. unfold q. intros Heq.
          apply snapshot_name_inj, itoa_inj in Heq. lia.
      - intros s [Hs _]. by apply HKO.
      - intros s _ [Hs _]. by apply HKO. }
    intros ?. apply spec_ret. intros s [HKs Hq]. apply Hsnoc; [done|]. split; [split; [done|]|done].
    rewrite Ho. by exists (itoa (Z.of_nat (length before))), (perm mode), 0, 0.
  - eapply spec_bind with (Q := fun _ => eq s1); [apply spec_io; by intros; subst; apply HKO|].
    intros ?. apply spec_ret. intros s <-. apply Hsnoc; [done|]. split; [split; [done|]|by rewrite Ho].
    rewrite Ho. split; [done|]. by eapply Hlinks.
  - apply spec_fail. intros s <-. by apply HKO.
  - apply spec_ret. intros s <-. apply Hsnoc; [done|]. split; [split; [done|]|by rewrite Ho]. by rewrite Ho.
Qed.

Lemma snapshot_paths_spec before paths rest :
  (forall p, p ∈ rest -> p ∈ managed) -> length before = length paths ->
  spec c (fun s => J before paths s) (snapshot_paths E directory (length before) rest)
    (fun l s => J (before ++ l) (paths ++ rest) s) O O.
Proof.
  revert before paths. induction rest as [|p rest IH]; intros before paths Hrest Hlen; simpl.
  { apply spec_ret. intros s. by rewrite !app_nil_r. }
  eapply spec_bind; [apply snapshot_path_spec; [apply Hrest; set_solver|done]|]. intros e.
  eapply spec_bind.
  { specialize (IH (before ++ [e]) (paths ++ [p])). rewrite length_app, Nat.add_1_r in IH.
    apply IH; [intros q Hq; apply Hrest; set_solver|by rewrite length_app, Hlen, Nat.add_1_r]. }
  intros l. apply spec_ret. intros s. by rewrite <-!app_assoc.
Qed.

Lemma createHostSnapshot_spec :
  spec c (eq s0) (createHostSnapshot E o id)
    (fun d s => d = directory /\ O s /\ snapshot_saved o orig s.1 directory) O O.
Proof.
  unfold createHostSnapshot. eapply spec_bind with (Q := fun _ => O).
  { apply spec_wrap. eapply spec_pre with (P' := O); [by apply spec_io|intros s <-; apply off_dir_refl]. }
  intros ?. eapply spec_bind.
  { eapply spec_pre; [apply (snapshot_paths_spec [] [] managed); done|]. intros s Hs. split; [done|].
    split; [done|]. by intros i e p. }
  intros l. simpl. set (K := fun s : state => J l managed s).
  assert (Hman : forall n s, K s -> K (<[manifest_path directory := n]> s.1, s.2)).
  { intros n s [Ho He]. split; [apply off_dir_insert; [apply in_snapshot|done]|].
    apply entries_insert; [|done]. intros i _ Heq. by apply snapshot_name_inj, itoa_not_manifest in Heq. }
  assert (HKO : forall s, K s -> O s) by (by intros s [? _]).
  set (K2 := fun s : state => K s /\ s.1 !! manifest_path directory = Some (Reg (Manifest l) 384 0 0)).
  eapply spec_bind with (Q := fun _ => K2).
  { apply spec_wrap. unfold write_manifest.
    eapply spec_bind with (Q := fun _ => K); [by apply spec_io; auto|]. intros ?.
    eapply spec_bind with (Q := fun _ => K); [apply spec_update; intros s Hs; by apply Hman|]. intros ?.
    eapply spec_bind with (Q := fun _ => K); [by apply spec_io; auto|]. intros ?.
    eapply spec_bind with (Q := fun _ => K2).
    { apply spec_update. intros s Hs. split; [by apply Hman|apply lookup_insert_eq]. }
    intros ?. eapply spec_bind with (Q := fun _ => K2); [apply spec_io; [intros s [? _]|intros s ? [? _]]; by apply HKO|].
    intros ?. apply spec_io; [intros s [? _]|intros s ? [? _]]; by apply HKO. }
  intros ?. apply spec_ret. intros s [[Ho He] Hm]. split_and!; [done|done|].
  split_and!; [unfold snapshot_dir, path_join; by destruct (transaction_dir o id)|apply transaction_dir_work with (id := id), in_snapshot|].
  exists l, 384, 0, 0. split; [done|]. by apply entries_saved.
Qed.
End create.

(** Nothing else in the directory is touched by what follows the snapshot. *)
Lemma saved_insert fs x n :
  has_prefix "snapshot" x = false -> snapshot_saved o orig fs directory ->
  snapshot_saved o orig (<[path_join td x := n]> fs) directory.
Proof.
  intros Hx (Hne & Hw & l & m & u & g & Hm & Hall). split_and!; [done|done|]. exists l, m, u, g. split.
  - rewrite lookup_insert_ne; [done|]. by apply not_eq_sym, snapshot_not.
  - eapply Forall2_impl; [exact Hall|]. intros e p [Hp Hs]. split; [done|].
    destruct (orig !! p) as [[]|]; try done. destruct Hs as (name & m' & u' & g' & -> & Hc).
    exists name, m', u', g'. split; [done|]. rewrite lookup_insert_ne; [done|]. by apply not_eq_sym, snapshot_not.
Qed.

Section prepare.
Context (c : bool) (s0 : state).
Hypothesis (Horig : forall p, p ∈ managed -> s0.1 !! p = orig !! p) (Hbin : bin_is o b0 s0).
Local Abbreviation O := (off_dir s0).

Lemma in_dir x : under td (path_join td x) = true.
Proof. apply under_join. Qed.

Definition preserved_path : string := path_join td "previous-nexa".
Definition captured (s : state) : Prop :=
  O s /\ snapshot_saved o orig s.1 directory /\ exists m u g, s.1 !! preserved_path = Some (Reg b0 m u g).

Lemma preserve_spec :
  spec c (fun s => O s /\ snapshot_saved o orig s.1 directory) (preserveTransactionBinary E o id)
    (fun d s => d = preserved_path /\ captured s) O O.
Proof.
  set (K := fun s : state => O s /\ snapshot_saved o orig s.1 directory).
  assert (HKO : forall s, K s -> O s) by (by intros s [? _]).
  assert (Hb : forall s, O s -> exists m u g, s.1 !! binaryPath o = Some (Reg b0 m u g)).
  { intros s [_ Hf]. destruct Hbin as (m & u & g & Hb). exists m, u, g. rewrite Hf; [done|].
    apply not_work_off, Hlay. }
  unfold preserveTransactionBinary. eapply spec_bind with (Q := fun _ => K); [by apply spec_io; auto|].
  intros ?. eapply spec_bind; [apply spec_stat with (I := O); auto|]. intros n.
  apply spec_start. intros s1 [-> HK1]. destruct (Hb s1 (HKO _ HK1)) as (m & u & g & Hlook). rewrite Hlook.
  eapply spec_bind with (Q := fun _ s => captured s).
  { apply spec_wrap. eapply spec_copy with (x := b0); [by intros s <-; auto|by intros s ? <-; auto| | | |].
    - intros s <-. eauto.
    - intros s <-. split_and!; [apply off_dir_insert; [apply in_dir|by apply HKO]| |].
      + apply saved_insert; [done|]. apply HK1.
      + exists 448, 0, 0. apply lookup_insert_eq.
    - by intros s [? _].
    - by intros s ? [? _]. }
  intros ?. by apply spec_ret.
Qed.

Lemma captured_insert x n s :
  has_prefix "snapshot" x = false -> x <> "previous-nexa"%string -> captured s ->
  captured (<[path_join td x := n]> s.1, s.2).
Proof.
  intros Hx Hne (Ho & Hs & m & u & g & Hp). split_and!; [apply off_dir_insert; [apply in_dir|done]|by apply saved_insert|].
  exists m, u, g. simpl. rewrite lookup_insert_ne; [done|]. by intros ?%path_join_inj.
Qed.

Definition database_copy : string := path_join td "previous-control.db".

Lemma database_spec :
  spec c captured (createControlDatabaseSnapshot E o id)
    (fun snapshot s => captured s /\ database_ready o snapshot s) O O.
Proof.
  assert (HC : forall s, captured s -> O s) by (by intros s [? _]).
  assert (Hins : forall n s, captured s -> captured (<[database_copy := n]> s.1, s.2)) by (by intros; apply captured_insert).
  assert (Hdrop : forall e, spec c captured (_ ← attempt (remove database_copy); fail e : M controlDatabaseSnapshot)
      (fun snapshot s => captured s /\ database_ready o snapshot s) O O).
  { intros e. eapply spec_bind with (Q := fun _ => O).
    - eapply spec_conseq; [apply spec_attempt with (F := O) (I := O) (Q := fun _ => O)|done| |done|done].
      + eapply spec_pre with (P' := O); [|done]. apply spec_remove; [done|done|].
        intros s. apply off_dir_delete, in_dir.
      + by intros [].
    - intros ?. by apply spec_fail. }
  unfold createControlDatabaseSnapshot. eapply spec_bind; [apply spec_wrap, spec_lstat with (I := O); auto|].
  intros n. apply spec_start. intros s1 [-> H1].
  destruct (s1.1 !! databasePath o) as [[x mode uid gid| |]|].
  - eapply spec_bind with (Q := fun _ => captured); [eapply spec_pre with (P' := captured); [by apply spec_io; auto|by intros s <-]|].
    intros ?. eapply spec_bind; [apply spec_lstat with (I := O); auto|]. intros n.
    eapply spec_pre with (P' := captured); [|by intros s [_ ?]]. destruct n; [by apply spec_fail|].
    eapply spec_bind with (Q := fun _ => captured); [apply spec_update; intros s; apply Hins|]. intros ?.
    eapply spec_bind with (Q := fun _ => captured).
    { eapply spec_conseq with (P' := captured); [apply spec_attempt with (F := captured) (I := O) (Q := fun _ => captured)|done| |done|done].
      - apply spec_io; auto.
      - by intros []. }
    intros [?|e]; [|apply Hdrop].
    eapply spec_bind; [apply spec_get|]. intros h.
    eapply spec_bind with (Q := fun _ => captured); [apply spec_update; intros s [_ Hs]; by apply Hins|]. intros ?.
    eapply spec_bind with (Q := fun _ => captured).
    { eapply spec_conseq with (P' := captured); [apply spec_attempt with (F := captured) (I := O) (Q := fun _ => captured)|done| |done|done].
      - apply spec_io; auto.
      - by intros []. }
    intros [?|e]; [|apply Hdrop].
    set (D := fun s : state => captured s /\ exists y m u g, s.1 !! database_copy = Some (Reg y m u g)).
    eapply spec_bind with (Q := fun _ => D).
    { apply spec_update. intros s Hs. split; [by apply Hins|]. do 4 eexists. apply lookup_insert_eq. }
    intros ?. eapply spec_bind with (Q := fun _ => D); [apply spec_wrap, spec_io; [intros s [? _]|intros s ? [? _]]; by apply HC|].
    intros ?. apply spec_ret. intros s [Hs Hd]. split; [done|]. split; [done|]. intros _. split; [|done].
    by apply under_trans with (x := id), in_dir.
  - apply spec_fail. intros s <-. by apply HC.
  - apply spec_fail. intros s <-. by apply HC.
  - apply spec_ret. intros s <-. split; [done|]. by split.
Qed.

Lemma prepareTransaction_spec :
  spec c (eq s0) (prepareTransaction E o id)
    (fun r s => r.1.1 = directory /\ r.1.2 = preserved_path /\ captured s /\ database_ready o r.2 s) O O.
Proof.
  unfold prepareTransaction.
  eapply spec_bind; [by apply createHostSnapshot_spec|]. intros d. apply spec_pure. intros ->.
  eapply spec_bind; [apply preserve_spec|]. intros p. apply spec_pure. intros ->.
  eapply spec_bind; [apply database_spec|]. intros x. apply spec_ret. intros s [? ?]. done.
Qed.

Lemma captured_backed t s :
  SnapshotDir t = directory -> PreservedBinary t = preserved_path -> captured s -> backed o orig b0 t s.
Proof.
  intros Hd Hp (_ & Hs & Hb). unfold backed. rewrite Hd, Hp. split_and!; [done| |done].
  by apply transaction_dir_work with (id := id), in_dir.
Qed.
End prepare.
End host.
