(* ===== verification/UpdateSafety.v ===== *)
(** * The safety of host updates

    The invariant of the update journal: whatever is interrupted where, the journal
    and the files it names are enough to go on.  Each operation of [UpdateOps] that
    moves the journal keeps it, when it returns, when it fails and when the process
    dies inside it. *)

From S2P Require Import Prelude GoStrings Json Release Update UpdateOps UpdateLogic.
From S2P Require Import UpdateRestore UpdateActivate UpdateCapture.

Local Open Scope Z_scope.

Section host.
Context (E : environment) (o : HostOperator).
Hypothesis (Hlay : layout o) (Hframe : commands_framed E o).
Context (orig : filesystem) (b0 : content) (id : string).

Local Abbreviation managed := (managedPaths o).
Local Abbreviation work p := (under (workRoot o) p = true).
Local Abbreviation journal := (transactionPath o).
Local Abbreviation normalizeVersion := (Release.normalizeVersion (env_semver_IsValid E) (env_semver_Canonical E)).
Local Abbreviation backed := (backed o orig b0).
Local Abbreviation restored := (restored o orig).
Local Abbreviation bin_is := (bin_is o).
Local Abbreviation kept := (kept o).
Local Abbreviation version := (version E).

Definition journal_is (t : updateTransaction) (s : state) : Prop :=
  exists m u g, s.1 !! journal = Some (Reg (Journal t) m u g).
Definition managed_as (inst : filesystem) (s : state) : Prop := forall p, p ∈ managed -> s.1 !! p = inst !! p.

(** What holds of a transaction that is not over. *)
Record base (target : string) (t : updateTransaction) (s : state) : Prop := {
  base_previous : PreviousVersion t = installed o;
  base_restore : ActivationDatabaseRestore t = None;
  base_backed : backed t s;
  base_database : database_ready o (DatabaseSnapshot t) s;
  base_open : RolledBack (t_Result t) = false;
  base_names : SnapshotDir t = snapshot_dir o id /\ PreservedBinary t = preserved_path o id;
}.

(** The host in each phase; [b1] is the new binary, [inst] the managed files after the
    packaging was applied. *)
Definition phase_inv (b1 : content) (inst : filesystem) (target : string) (t : updateTransaction) (s : state) : Prop :=
  match Phase t with
  | phasePrepared => base target t s /\ exists b, bin_is b s
  | phaseActivating => base target t s /\ ((bin_is b1 s /\ managed_as inst s) \/ bin_is b0 s)
  | phaseSucceeded => bin_is b1 s /\ managed_as inst s
  | phaseFailed =>
      (RolledBack (t_Result t) = true -> restored s /\ bin_is b0 s) /\
      (RolledBack (t_Result t) = false -> backed t s /\ (bin_is b1 s \/ bin_is b0 s))
  | phaseUnknown _ => False
  end.
Definition inv (b1 : content) (inst : filesystem) (target : string) (s : state) : Prop :=
  exists t, journal_is t s /\ ID t = id /\ TargetVersion t = target /\ phase_inv b1 inst target t s.

Lemma base_ext target t s s' :
  (forall p, work p -> s'.1 !! p = s.1 !! p) -> base target t s -> base target t s'.
Proof.
  intros Hw [? ? Hb [Hc He] ? ?]. split; [done|done|by eapply (backed_ext o)| |done|done].
  split; [done|]. intros Hx. destruct (He Hx) as [Hu (x & m & u & g & Hp)]. split; [done|].
  exists x, m, u, g. rewrite Hw; [done|]. by eapply under_trans.
Qed.

Lemma journal_ext t s s' : (forall p, work p -> s'.1 !! p = s.1 !! p) -> journal_is t s -> journal_is t s'.
Proof. intros Hw (m & u & g & Hj). exists m, u, g. rewrite Hw; [done|apply journal_work]. Qed.

Lemma kept_work s0 s : kept s0 s -> forall p, work p -> s.1 !! p = s0.1 !! p.
Proof. intros Hk p Hp. apply Hk. by right; right. Qed.

Lemma kept_managed inst s0 s : kept s0 s -> managed_as inst s0 -> managed_as inst s.
Proof. intros Hk Hm p Hp. rewrite Hk by (by left). by apply Hm. Qed.

(** Publishing the journal. *)
Definition with_journal (t : updateTransaction) (s : state) : state :=
  (<[journal := Reg (Journal t) 384 0 0]> s.1, s.2).

Lemma journal_with t s : journal_is t (with_journal t s).
Proof. exists 384, 0, 0. apply lookup_insert_eq. Qed.

Lemma with_journal_live t s p : p ∈ managed \/ p = binaryPath o -> (with_journal t s).1 !! p = s.1 !! p.
Proof.
  intros Hp. simpl. rewrite lookup_insert_ne; [done|]. intros Heq. subst p. destruct Hp as [Hp|Hp].
  - by apply (work_not_managed o Hlay _ (journal_work o)) in Hp.
  - by apply (work_not_binary o Hlay _ (journal_work o)).
Qed.

Lemma with_journal_bin b t s : bin_is b s -> bin_is b (with_journal t s).
Proof. intros (m & u & g & Hb). exists m, u, g. rewrite with_journal_live; auto. Qed.
Lemma with_journal_restored t s : restored s -> restored (with_journal t s).
Proof. intros Hr p Hp. rewrite with_journal_live by auto. by apply Hr. Qed.
Lemma with_journal_managed inst t s : managed_as inst s -> managed_as inst (with_journal t s).
Proof. intros Hr p Hp. rewrite with_journal_live by auto. by apply Hr. Qed.

(** The journal is none of the files of a transaction. *)
Lemma journal_off : under (transactionRoot o) journal = false.
Proof.
  destruct (under (transactionRoot o) journal) eqn:Hu; [|done]. exfalso.
  apply under_join_inv in Hu. done.
Qed.

Lemma backed_with_journal t t' s :
  SnapshotDir t = snapshot_dir o id -> PreservedBinary t = preserved_path o id ->
  snapshot_saved o orig s.1 (snapshot_dir o id) -> (exists m u g, s.1 !! preserved_path o id = Some (Reg b0 m u g)) ->
  backed t (with_journal t' s).
Proof.
  intros Hd Hp (Hne & Hw & l & m & u & g & Hm & Hall) (m' & u' & g' & Hpre).
  assert (Hneq : forall q, under (transactionRoot o) q = true -> journal <> q).
  { intros q Hq <-. by rewrite journal_off in Hq. }
  assert (Hins : forall name, journal <> path_join (snapshot_dir o id) name).
  { intros name. apply Hneq. apply under_trans with (x := id), in_snapshot. }
  unfold UpdateRestore.backed. rewrite Hd, Hp. split_and!.
  - split_and!; [done|done|]. exists l, m, u, g. split; [simpl; by rewrite lookup_insert_ne by apply Hins|].
    eapply Forall2_impl; [exact Hall|]. intros e p [Hpath Hs]. split; [done|].
    destruct (orig !! p) as [[]|]; try done. destruct Hs as (name & m2 & u2 & g2 & -> & Hcopy).
    exists name, m2, u2, g2. split; [done|]. simpl. by rewrite lookup_insert_ne by apply Hins.
  - apply transaction_dir_work with (id := id), in_dir.
  - exists m', u', g'. simpl. rewrite lookup_insert_ne; [done|]. apply Hneq.
    apply under_trans with (x := id), in_dir.
Qed.

(** A transaction that is failed without a rollback keeps what it was backed by. *)
Lemma base_backed_with_journal target t t' s :
  base target t s -> SnapshotDir t' = SnapshotDir t -> PreservedBinary t' = PreservedBinary t -> backed t' (with_journal t' s).
Proof.
  intros Hb Hd Hp. destruct (base_names _ _ _ Hb) as [Hd0 Hp0]. destruct (base_backed _ _ _ Hb) as (Hs & _ & Hpre).
  rewrite Hd0 in Hs. rewrite Hp0 in Hpre. apply backed_with_journal; congruence.
Qed.

Lemma writeTransaction_spec c s0 t (I : state -> Prop) :
  I s0 -> I (with_journal t s0) ->
  spec c (eq s0) (writeTransaction journal t) (fun _ s => s = with_journal t s0) (must c I) I.
Proof.
  intros H0 H1. eapply spec_conseq; [apply (spec_publish c _ _ _ (eq s0) (eq (with_journal t s0)) (must c I) I)|done|done|done|done];
    try (by intros s <-); by intros s ? <-.
Qed.

Lemma readTransaction_spec c s0 t :
  journal_is t s0 -> ID t <> EmptyString -> TargetVersion t <> EmptyString ->
  spec c (eq s0) (readTransaction E journal) (fun y s => y = Some t /\ s = s0) (must c (eq s0)) (eq s0).
Proof.
  intros (m & u & g & Hj) Hid Htv. unfold readTransaction.
  eapply spec_bind with (Q := fun y s => y = Some (Journal t) /\ s = s0).
  - eapply spec_bind; [apply spec_stat; [by intros s <-|by intros s ? <-]|]. intros n h Hc [-> Hs0]. subst s0.
    rewrite Hj. done.
  - intros y. apply spec_pure. intros ->. unfold is_empty. rewrite !bool_decide_eq_false_2 by done.
    by apply spec_ret; intros s ->.
Qed.

Lemma requireTransaction_spec c s0 t :
  journal_is t s0 -> ID t <> EmptyString -> TargetVersion t <> EmptyString ->
  spec c (eq s0) (requireTransaction E journal) (fun y s => y = t /\ s = s0) (must c (eq s0)) (eq s0).
Proof.
  intros Hj Hid Htv. eapply spec_bind; [by apply readTransaction_spec|].
  intros y. apply spec_pure. intros ->. by apply spec_ret; intros s ->.
Qed.

(** *** Cleaning up *)
Definition off_obsolete (s0 s : state) : Prop :=
  forall p, p ∈ managed \/ p = binaryPath o \/ p = journal -> s.1 !! p = s0.1 !! p.

Lemma removeObsolete_keeps c s0 :
  spec c (eq s0) (removeObsoleteTransactions o id) (fun _ => off_obsolete s0) (fun _ => False) (off_obsolete s0).
Proof using Hlay id.
  clear Hframe.
  set (K := off_obsolete s0).
  unfold removeObsoleteTransactions. eapply spec_bind; [apply spec_get|]. intros h.
  eapply spec_conseq with (P' := K) (Q' := fun _ => K) (F' := fun _ => False) (I' := K); [|by intros s [_ <-]|done..].
  eapply spec_conseq; [apply (spec_for_each c _ _ (fun _ => K) (fun _ => False) K)|done..].
  intros before p rest Hl. eapply spec_bind with (Q := fun _ => K); [|intros ?; by apply spec_ret].
  assert (Hobs : obsolete o id p = true).
  { assert (Hin : p ∈ List.filter (obsolete o id) (map_to_list (files h)).*1) by (rewrite Hl; set_solver).
    apply list_elem_of_In, filter_In in Hin as [_ ?]. done. }
  eapply spec_conseq with (P' := K); [apply spec_attempt with (F := K) (I := K) (Q := fun _ => K)|done|by intros []|intros s H; exact H|done].
  apply spec_remove; [done|done|]. intros s Hs q Hq. simpl. rewrite lookup_delete_ne; [by apply Hs|].
  intros <-. unfold obsolete in Hobs. apply andb_true_iff in Hobs as [Hu _].
  destruct Hq as [Hq|[->| ->]].
  - apply (managed_not_work o Hlay) in Hq. apply under_trans in Hu. congruence.
  - apply under_trans in Hu. pose proof (l_binary _ Hlay). congruence.
  - by apply under_join_inv in Hu.
Qed.

(** ** Activation *)
Section fixed.
Context (b1 : content) (inst : filesystem) (target : string).
Hypothesis (Hid : id <> EmptyString) (Htarget : normalizeVersion target <> EmptyString)
  (Hnew : version b0 <> normalizeVersion target)
  (Hold : version b0 = normalizeVersion (installed o)).
Local Abbreviation Inv := (inv b1 inst target).

Lemma target_nonempty : target <> EmptyString.
Proof. intros ->. apply Htarget. unfold Release.normalizeVersion. by case_match. Qed.

(** An open transaction that activates: [s] reached from it by keeping or undoing. *)
Definition activating (t : updateTransaction) (s : state) : Prop :=
  base target t s /\ ((bin_is b1 s /\ managed_as inst s) \/ bin_is b0 s).

Lemma activating_kept t s0 s : kept s0 s -> activating t s0 -> activating t s.
Proof.
  intros Hk [Hb Hor]. split; [eapply base_ext; [by eapply kept_work|done]|].
  destruct Hor as [[? ?]|?]; [left|right; by eapply kept_bin]. split; [by eapply kept_bin|by eapply kept_managed].
Qed.

Lemma activating_undone t s0 s : undone_or_kept o b0 s0 s -> activating t s0 -> activating t s.
Proof.
  intros [Hw Hor] Ha. destruct Hor as [Hk|Hb]; [by eapply activating_kept|].
  destruct Ha as [Hb' _]. split; [by eapply base_ext|by right].
Qed.

Lemma activating_inv t s :
  journal_is t s -> ID t = id -> TargetVersion t = target -> Phase t = phaseActivating -> activating t s -> Inv s.
Proof. intros Hj Hi Ht Hp Ha. exists t. split_and!; [done..|]. unfold phase_inv. by rewrite Hp. Qed.

(** The state after an end: the journal is over, and in a clean run it is over well. *)
Definition over (s : state) : Prop :=
  exists t, journal_is t s /\
    (Phase t = phaseSucceeded \/ (Phase t = phaseFailed /\ RolledBack (t_Result t) = true)).

Lemma ends_inv t s s' :
  (forall p, p ∈ managed \/ p = binaryPath o \/ p = journal -> s'.1 !! p = s.1 !! p) ->
  journal_is t s -> ID t = id -> TargetVersion t = target -> Phase t = phaseSucceeded ->
  phase_inv b1 inst target t s -> Inv s' /\ journal_is t s'.
Proof.
  intros Hf (m & u & g & Hj) Hi Ht Hterm Hp.
  assert (Hj' : journal_is t s') by (exists m, u, g; by rewrite Hf by auto).
  assert (Hbin : forall b, bin_is b s -> bin_is b s').
  { intros b (m' & u' & g' & Hb). exists m', u', g'. by rewrite Hf by auto. }
  split; [|done]. exists t. split_and!; [done..|]. unfold phase_inv in *. rewrite Hterm in Hp |- *.
  destruct Hp as [? Hm]. split; [by apply Hbin|]. intros p Hpm. rewrite Hf by auto. by apply Hm.
Qed.

Lemma removeObsolete_spec c t s0 :
  journal_is t s0 -> ID t = id -> TargetVersion t = target -> Phase t = phaseSucceeded ->
  phase_inv b1 inst target t s0 ->
  spec c (eq s0) (removeObsoleteTransactions o id) (fun _ s => Inv s /\ over s) (fun s => Inv s /\ over s) Inv.
Proof.
  intros Hj Hi Ht Hph Hp.
  assert (HK : forall s, off_obsolete s0 s -> Inv s /\ over s).
  { intros s Hs. destruct (ends_inv t s0 s Hs Hj Hi Ht Hph) as [? ?]; [done|].
    split; [done|]. exists t. auto. }
  eapply spec_conseq; [apply (removeObsolete_keeps c s0)|done|intros ? s; apply HK|done|intros s Hs; by apply HK].
Qed.

Lemma ActivateTransaction_spec c s0 t :
  journal_is t s0 -> ID t = id -> TargetVersion t = target -> Phase t = phaseActivating -> activating t s0 ->
  (c = true -> lock_ok o s0) ->
  spec c (eq s0) (ActivateTransaction E o journal) (fun _ s => Inv s /\ over s)
    (fun s => Inv s /\ (c = true -> over s)) Inv.
Proof.
  intros Hj Hi Ht Hph Ha Hok. unfold ActivateTransaction. rewrite bool_decide_eq_true_2 by done. simpl.
  eapply spec_bind.
  { assert (HI : forall s, locked o s0 s -> Inv s).
    { intros s Hl%(locked_kept o Hlay). eapply activating_inv; try done;
        [eapply journal_ext; [|exact Hj]; by eapply kept_work|by eapply activating_kept]. }
    eapply spec_conseq; [by apply (acquireHostLock_spec o c s0)|done|intros ? s H; exact H| |done].
    intros s [-> Hs]. split; [by apply HI|done]. }
  intros ?. apply spec_start. intros s1 Hl%(locked_kept o Hlay).
  assert (Hj1 : journal_is t s1) by (eapply journal_ext; [|exact Hj]; by eapply kept_work).
  assert (Ha1 : activating t s1) by (by eapply activating_kept).
  clear s0 Hj Ha Hok Hl. rename s1 into s0, Hj1 into Hj, Ha1 into Ha.
  assert (H0 : Inv s0) by (by eapply activating_inv).
  assert (Hj' : forall s, (forall p, work p -> s.1 !! p = s0.1 !! p) -> journal_is t s).
  { intros s Hw. by eapply journal_ext. }
  assert (HIk : forall s, kept s0 s -> Inv s).
  { intros s Hk. eapply activating_inv; try done; [apply Hj'; by eapply kept_work|by eapply activating_kept]. }
  assert (HIu : forall s, undone_or_kept o b0 s0 s -> Inv s).
  { intros s Hu. eapply activating_inv; try done; [apply Hj', Hu|by eapply activating_undone]. }
  eapply spec_bind.
  { eapply spec_conseq; [apply (requireTransaction_spec c s0 t Hj)|done| | |].
    - by rewrite Hi.
    - rewrite Ht. apply target_nonempty.
    - intros y s H. exact H.
    - intros s [-> <-]. by split.
    - by intros s <-. }
  intros y. apply spec_pure. intros ->. rewrite Hph. unfold activation_attempt, activation_commit.
  assert (Hbin : exists b, bin_is b s0) by (destruct Ha as [_ [[? _]|?]]; eauto).
  eapply spec_bind with (Q := fun r s => kept s0 s /\
    match r with inl _ => bin_is b1 s0 /\ managed_as inst s0 | inr _ => True end).
  { eapply spec_pre with (P' := eq s0); [|by intros s ->].
    eapply spec_conseq with (P' := eq s0); [apply spec_attempt with (F := kept s0) (I := kept s0)
      (Q := fun _ s => kept s0 s /\ bin_is b1 s0 /\ managed_as inst s0)|done| | |].
    - unfold prepareActivationDatabase. rewrite (base_restore _ _ _ (proj1 Ha)).
      eapply spec_bind with (Q := fun _ => eq s0); [by apply spec_ret|]. intros ?.
      destruct Ha as [_ [Hn|Hb]].
      + eapply spec_conseq; [apply (activateServices_spec E o Hframe c s0 b1); apply Hn|done|by intros ? s [? _]|done..].
      + eapply spec_conseq; [apply (activateServices_spec E o Hframe c s0 b0); apply Hb|done| |done|done].
        intros ? s [_ [Hv|Hv]]; rewrite Ht in Hv; done.
    - intros r s2 H. destruct r; [by destruct H as (? & ? & ?)|done].
    - intros s H. exact H.
    - done. }
  intros [?|cause].
  - eapply spec_bind with (Q := fun _ s => Inv s /\ exists t', journal_is t' s /\ ID t' = id /\
      TargetVersion t' = target /\ Phase t' = phaseSucceeded /\ phase_inv b1 inst target t' s).
    + apply spec_start. intros s1 (Hk & Hb1 & Hm). set (t' := set_result _ _).
      assert (Hend : journal_is t' (with_journal t' s1) /\ ID t' = id /\ TargetVersion t' = target /\
        Phase t' = phaseSucceeded /\ phase_inv b1 inst target t' (with_journal t' s1)).
      { split_and!; [apply journal_with|done|done|done|]. split.
        - by apply with_journal_bin, (kept_bin o b1 s0).
        - by apply with_journal_managed, (kept_managed _ s0). }
      assert (Hinv : Inv (with_journal t' s1)) by (exists t'; by destruct Hend as (? & ? & ? & _ & ?)).
      eapply spec_conseq; [apply (writeTransaction_spec c s1 t' Inv); [by apply HIk|done]|done| | |done].
      * intros ? s ->. split; [done|]. by exists t'.
      * intros s [-> ?]. by split.
    + intros ?. rewrite Hi. apply spec_start. intros s1 [H1 (t' & ? & ? & ? & ? & ?)].
      eapply spec_conseq; [by apply (removeObsolete_spec c t' s1)|done|done| |done].
      intros s [? ?]. by split.
  - apply spec_start. intros s1 [Hk _].
    assert (Hu : forall s, undone_or_kept o b0 s1 s -> undone_or_kept o b0 s0 s).
    { intros s [Hw Hor]. split.
      - intros p Hp. rewrite Hw by done. by eapply kept_work.
      - destruct Hor as [Hk'|?]; [left; by eapply kept_trans|by right]. }
    assert (Ha1 : activating t s1) by (by eapply activating_kept).
    eapply spec_bind with (Q := fun r s => undone_or_kept o b0 s0 s /\
      match r with inl _ => bin_is b0 s /\ restored s | inr _ => c = false end).
    { destruct Hbin as [b Hbin]. eapply spec_conseq with (P' := eq s1);
        [apply spec_attempt with (F := must c (undone_or_kept o b0 s1)) (I := undone_or_kept o b0 s1)
          (Q := fun _ s => undone_or_kept o b0 s1 s /\ bin_is b0 s /\ restored s)|done| | |].
      - eapply (restoreTransaction_spec E o Hlay Hframe orig b0); [apply Ha1|by eapply kept_bin|apply Ha1|].
        intros _. right. rewrite (base_previous _ _ _ (proj1 Ha1)). done.
      - intros [xa|xe] s H; [destruct H as (H & ? & ?); split; [by apply Hu|done]|]. destruct H as [-> H].
        split; [by apply Hu|done].
      - intros s H. exact H.
      - intros s H. apply HIu, Hu, H. }
    intros r. set (failure := "activate updated services: " +:+ cause).
    set (t' := match r with inl _ => _ | inr _ => _ end).
    assert (Ht' : ID t' = id /\ TargetVersion t' = target /\ Phase t' = phaseFailed /\
      (RolledBack (t_Result t') = true <-> exists x, r = inl x) /\ SnapshotDir t' = SnapshotDir t /\ PreservedBinary t' = PreservedBinary t).
    { unfold t'. destruct r; simpl; split_and!; try done; split; [by eauto|done| |by intros [? ?]].
      by rewrite (base_open _ _ _ (proj1 Ha)). }
    assert (Hend : forall s, undone_or_kept o b0 s0 s /\
        match r with inl _ => bin_is b0 s /\ restored s | inr _ => c = false end ->
        Inv (with_journal t' s) /\ (c = true -> over (with_journal t' s))).
    { destruct Ht' as (Hi' & Htv' & Hph' & Hr' & Hdir & Hpre). intros s [Hs Hr]. split.
      - exists t'. split_and!; [apply journal_with|done|done|]. unfold phase_inv. rewrite Hph'. split.
        + intros [x Hx]%Hr'. rewrite Hx in Hr. destruct Hr as [? ?].
          split; [by apply with_journal_restored|by apply with_journal_bin].
        + intros _. destruct (activating_undone t s0 s Hs Ha) as [Hb Hor]. split; [by eapply base_backed_with_journal|].
          destruct Hor as [[? _]|?]; [left|right]; by apply with_journal_bin.
      - intros Hc. exists t'. split; [apply journal_with|]. right. split; [done|]. apply Hr'.
        destruct r; [by eexists|]. rewrite Hr in Hc. done. }
    eapply spec_bind with (Q := fun _ s => Inv s /\ (c = true -> over s)).
    + apply spec_wrap, spec_start. intros s2 Hs2. destruct (Hend s2 Hs2) as [Hi2 Ho2].
      eapply spec_conseq; [apply (writeTransaction_spec c s2 t' Inv); [apply HIu, Hs2|done]|done| | |done].
      * by intros ? s ->.
      * intros s [-> ?]. by split.
    + intros ?. by apply spec_fail.
Qed.

(** ** Recovery *)

(** The binary and the work root are as in [s0]. *)
Definition core (s0 s : state) : Prop := forall p, p = binaryPath o \/ work p -> s.1 !! p = s0.1 !! p.

Lemma core_bin b s0 s : core s0 s -> bin_is b s0 -> bin_is b s.
Proof. intros Hk (m & u & g & Hb). exists m, u, g. by rewrite Hk by auto. Qed.

Lemma run_core c s0 cmd :
  spec c (core s0) (UpdateOps.run E o cmd) (fun _ => core s0) (core s0) (core s0).
Proof.
  intros h Hc Hs.
  assert (Hk : forall a sv, core s0 (env_effect E cmd a (files h), sv)).
  { intros a sv p Hp. simpl. rewrite (f_work _ _ Hframe) by (destruct Hp; auto). by apply Hs. }
  unfold UpdateOps.run, ask, modify, mbind, M_bind. simpl. destruct (schedule h) as [|a l] eqn:Hsch; simpl.
  - split; [done|]. apply Hk.
  - assert (c = false) as -> by (destruct c; [by specialize (Hc eq_refl)|done]).
    destruct a; simpl; (split; [done|]); apply Hk.
Qed.

Lemma recoverPackageManager_core c s0 :
  spec c (core s0) (recoverPackageManager E o) (fun _ => core s0) (core s0) (core s0).
Proof.
  unfold recoverPackageManager. eapply spec_bind with (Q := fun _ => core s0).
  { eapply spec_conseq with (P' := core s0); [apply spec_attempt with (F := core s0) (I := core s0)
      (Q := fun _ => core s0)|done|by intros []|by intros s H; exact H|done].
    eapply spec_conseq; [apply spec_stat with (P := core s0) (F := core s0) (I := core s0); done|done|by intros ? s [_ ?]|done..]. }
  intros [[[| |]|]|e]; try by apply spec_ret.
  unfold run_all. apply (spec_for_each c _ _ (fun _ => core s0)). intros ? cmd ? _.
  eapply spec_bind with (Q := fun _ => core s0); [apply spec_wrap, run_core|]. intros ?. by apply spec_ret.
Qed.

Lemma prepared_inv t s0 s :
  journal_is t s0 -> ID t = id -> TargetVersion t = target -> Phase t = phasePrepared -> base target t s0 ->
  (forall p, work p -> s.1 !! p = s0.1 !! p) -> (exists b, bin_is b s) -> Inv s /\ base target t s.
Proof.
  intros Hj Hi Ht Hph Hb Hw Hbin. assert (base target t s) by (by eapply base_ext). split; [|done].
  exists t. split_and!; [by eapply journal_ext|done|done|]. unfold phase_inv. by rewrite Hph.
Qed.

(** The journal is over well, or nothing was to be done. *)
Definition settled (s0 s : state) : Prop :=
  over s \/ (s = s0 /\ exists t, journal_is t s0 /\ is_terminal (Phase t) = true).

Lemma RecoverTransaction_spec c s0 :
  Inv s0 -> (c = true -> lock_ok o s0) ->
  spec c (eq s0) (RecoverTransaction E o journal) (fun _ s => Inv s /\ settled s0 s)
    (fun s => Inv s /\ (c = true -> settled s0 s)) Inv.
Proof.
  intros H0 Hok. pose proof H0 as (t & Hj & Hi & Ht & Hp).
  unfold RecoverTransaction. rewrite bool_decide_eq_true_2 by done. simpl.
  eapply spec_bind.
  { eapply spec_conseq; [apply (readTransaction_spec c s0 t Hj)|done| | |].
    - by rewrite Hi.
    - rewrite Ht. apply target_nonempty.
    - intros y s H. exact H.
    - intros s [-> <-]. by split.
    - by intros s <-. }
  intros y. apply spec_pure. intros ->. eapply spec_pre with (P' := eq s0); [|by intros s ->].
  unfold phase_inv in Hp. destruct (Phase t) eqn:Hph; [| | | |done].
  - destruct Hp as [Hb Hbin].
    assert (HI : forall s, core s0 s -> Inv s /\ base target t s).
    { intros s Hs. apply (prepared_inv t s0 s Hj Hi Ht Hph Hb); [intros p Hw; apply Hs; auto|].
      destruct Hbin as [b Hb0]. exists b. by eapply core_bin. }
    eapply spec_bind with (Q := fun _ => core s0).
    { assert (Hcore : forall s, locked o s0 s -> core s0 s).
      { intros s Hl%(locked_kept o Hlay) p Hp. apply Hl. tauto. }
      eapply spec_conseq; [by apply (acquireHostLock_spec o c s0)|done|intros ? s; apply Hcore| |].
      - intros s [-> Hs]. split; [by apply HI, Hcore|done].
      - intros s Hs. by apply HI, Hcore. }
    intros ?. eapply spec_bind with (Q := fun _ => core s0).
    { destruct (PackagingRunning t); [|by apply spec_ret].
      eapply spec_bind with (Q := fun _ => core s0); [|by intros ?; apply spec_ret].
      eapply spec_conseq with (P' := core s0); [apply spec_attempt with (F := core s0) (I := core s0)
        (Q := fun _ => core s0), recoverPackageManager_core|done|by intros []|by intros s H; exact H|].
      intros s Hs. by apply HI. }
    intros packaging. apply spec_start. intros s1 Hs1. destruct (HI s1 Hs1) as [Hinv1 Hb1].
    assert (Hj1 : journal_is t s1) by (eapply journal_ext; [|exact Hj]; intros p Hw; apply Hs1; auto).
    assert (HIu : forall s, undoing o b0 s1 s -> Inv s).
    { intros s [Hoff Hor]. destruct Hor as [->|Hb0']; [done|].
      eapply (prepared_inv t s1 s Hj1 Hi Ht Hph Hb1); [by apply (off_live_work o Hlay)|by exists b0]. }
    eapply spec_bind with (Q := fun _ s => undoing o b0 s1 s /\ bin_is b0 s /\ restored s).
    { eapply spec_conseq; [apply (restorePreparedTransaction_spec E o Hlay orig b0 c s1 t), Hb1|done|done| |].
      - intros s [-> Hs]. split; [by apply HIu|done].
      - intros s Hs. by apply HIu. }
    intros ?. apply spec_start. intros s2 (Hu & Hb2 & Hr2). set (t' := set_result _ _).
    assert (Hend : Inv (with_journal t' s2) /\ over (with_journal t' s2)).
    { split.
      - exists t'. split_and!; [apply journal_with|done|done|]. split; [|done]. intros _.
        split; [by apply with_journal_restored|by apply with_journal_bin].
      - exists t'. split; [apply journal_with|by right]. }
    eapply spec_conseq; [apply (writeTransaction_spec c s2 t' Inv); [by apply HIu|apply Hend]|done| | |done].
    + intros ? s ->. destruct Hend. split; [done|by left].
    + intros s [-> ?]. by split.
  - eapply spec_conseq; [by apply (ActivateTransaction_spec c s0 t)|done| | |done].
    + intros ? s [? ?]. split; [done|by left].
    + intros s [? Hs]. split; [done|]. intros Hc. left. by apply Hs.
  - apply spec_ret. intros s <-. split; [done|]. right. split; [done|]. exists t. by rewrite Hph.
  - apply spec_ret. intros s <-. split; [done|]. right. split; [done|]. exists t. by rewrite Hph.
Qed.
End fixed.
End host.
