(* ===== verification/UpdateApply.v ===== *)
(** * Applying a release

    The specification of [applyRelease]: what it does to the host however far it
    gets, and what a release must have passed before its installer runs. *)

From S2P Require Import Prelude GoStrings Json Release Update UpdateOps UpdateLogic.
From S2P Require Import UpdateRestore UpdateActivate UpdateCapture UpdateSafety.

Local Open Scope Z_scope.

Section host.
Context (E : environment) (o : HostOperator).
Hypothesis (Hlay : layout o) (Hframe : commands_framed E o).
Context (orig : filesystem) (b0 : content) (id : string).

Local Abbreviation managed := (managedPaths o).
Local Abbreviation work p := (under (workRoot o) p = true).
Local Abbreviation journal := (transactionPath o).
Local Abbreviation normalizeVersion := (Release.normalizeVersion (env_semver_IsValid E) (env_semver_Canonical E)).
Local Abbreviation isNewer := (Release.isNewer (env_semver_IsValid E) (env_semver_Canonical E) (env_semver_Compare E)).
Local Abbreviation restored := (restored o orig).
Local Abbreviation bin_is := (bin_is o).
Local Abbreviation kept := (kept o).
Local Abbreviation version := (version E).

(** The managed files, the binary and the journal are as they were. *)
Definition untouched (s : state) : Prop :=
  forall p, p ∈ managed \/ p = binaryPath o \/ p = journal -> s.1 !! p = orig !! p.

(** ** The checks *)
Section checks.
Local Abbreviation calm m Q := (spec false untouched m Q untouched untouched).

Lemma io_calm : calm io (fun _ => untouched).
Proof. by apply spec_io. Qed.

Lemma lift_calm {A} (r : result string A) : calm (lift r) (fun a s => r = Ok a /\ untouched s).
Proof.
  eapply spec_bind; [apply io_calm|]. intros ?. destruct r; [by apply spec_ret|by apply spec_fail].
Qed.

Lemma lift_release_calm {A} (r : result Release.error A) : calm (lift_release r) (fun a s => r = Ok a /\ untouched s).
Proof. destruct r; [by apply spec_ret|by apply spec_fail]. Qed.

Lemma fail_calm {A} e (Q : A -> state -> Prop) : calm (fail e) Q.
Proof. by apply spec_fail. Qed.

Lemma run_calm cmd : packaging_command cmd = false -> calm (UpdateOps.run E o cmd) (fun _ => untouched).
Proof.
  intros Hcmd h _ Hs.
  assert (Hk : forall a sv, untouched (env_effect E cmd a (files h), sv)).
  { intros a sv p Hp. simpl. rewrite <-(Hs p Hp). destruct Hp as [Hp|[->| ->]].
    - by apply (f_managed _ _ Hframe).
    - apply (f_work _ _ Hframe). by right.
    - apply (f_work _ _ Hframe). left. apply journal_work. }
  unfold UpdateOps.run, ask, modify, mbind, M_bind. simpl. destruct (schedule h) as [|a l]; simpl.
  - split; [done|apply Hk].
  - destruct a; simpl; (split; [done|apply Hk]).
Qed.

Lemma resolve_calm change : calm (resolve E o change) (fun _ => untouched).
Proof.
  unfold resolve. case_match; [|case_match; [apply fail_calm|]];
    (eapply spec_conseq; [apply lift_calm|done|by intros a1 s1 [_ ?]|done..]).
Qed.

Lemma signers_calm path : calm (validateAllowedSigners E path) (fun _ => untouched).
Proof.
  unfold validateAllowedSigners. case_match; [apply fail_calm|].
  eapply spec_bind; [apply spec_wrap, spec_lstat with (I := untouched); done|]. intros n.
  eapply spec_pre with (P' := untouched); [|by intros s [_ ?]].
  destruct n as [[x mode uid gid| |]|]; try apply fail_calm.
  do 3 (case_match; [apply fail_calm|]). eapply spec_bind; [apply io_calm|]. intros ?.
  destruct x; try apply fail_calm. case_match; [by apply spec_ret|apply fail_calm].
Qed.

Lemma signature_calm archive signature : calm (verifyReleaseSignature E o archive signature) (fun _ => untouched).
Proof.
  unfold verifyReleaseSignature. eapply spec_bind; [apply signers_calm|]. intros ?.
  case_match; [apply fail_calm|]. eapply spec_bind; [apply io_calm|]. intros ?.
  eapply spec_bind; [apply spec_wrap, run_calm; done|]. intros ?. by apply spec_ret.
Qed.

Lemma stage_calm archive : calm (stage E o archive) (fun _ => untouched).
Proof.
  unfold stage. eapply spec_bind; [apply spec_wrap, io_calm|]. intros ?.
  eapply spec_conseq; [apply lift_release_calm|done|by intros a1 s1 [_ ?]|done..].
Qed.

Lemma staged_binary_calm t : calm (readStagedBinary t) (fun _ => untouched).
Proof.
  unfold readStagedBinary. case_match; [|apply fail_calm]. case_match; [apply fail_calm|].
  case_match; [apply fail_calm|]. eapply spec_bind; [apply io_calm|]. intros ?. by apply spec_ret.
Qed.

Lemma manifest_calm t : calm (readReleaseManifest t) (fun _ => untouched).
Proof.
  unfold readReleaseManifest. case_match; [|apply fail_calm]. case_match; [apply fail_calm|].
  case_match; [apply fail_calm|]. eapply spec_bind; [apply io_calm|]. intros ?.
  eapply spec_conseq; [apply lift_release_calm|done|by intros a1 s1 [_ ?]|done..].
Qed.

Lemma validate_calm b v :
  calm (validateBinary E b v) (fun r s => r = firstField (env_reports E b) /\ untouched s).
Proof.
  unfold validateBinary. eapply spec_bind; [apply spec_wrap, io_calm|]. intros ?.
  eapply spec_bind.
  { eapply spec_conseq; [apply (run_version_spec E false b v untouched untouched); done|done| | |done].
    - intros r s H. exact H.
    - by intros s [_ ?]. }
  intros r. apply spec_pure. intros ->. case_match; [by apply spec_ret|apply fail_calm].
Qed.

(** What is known of a release that passed every check. *)
Lemma verified_release_calm change :
  (* the checks leave the files alone, and the release is newer than the node *)
  calm (verified_release E o change) (fun r s =>
    (isNewer (Release.Version r.1) (installed o) = true /\ version r.2 = Release.Version r.1) /\ untouched s).
Proof.
  unfold verified_release. eapply spec_bind; [apply resolve_calm|]. intros release.
  destruct (negb (isNewer _ _)) eqn:Hnew; [apply fail_calm|]. apply negb_false_iff in Hnew.
  eapply spec_bind with (Q := fun _ => untouched).
  { unfold expectedChecksum. eapply spec_bind; [apply lift_calm|]. intros raw. apply spec_pure. intros _.
    eapply spec_conseq; [apply lift_release_calm|done|by intros a1 s1 [_ ?]|done..]. }
  intros expected.
  eapply spec_bind; [apply lift_calm|]. intros archive. apply spec_pure. intros _.
  eapply spec_bind; [apply lift_release_calm|]. intros ?. apply spec_pure. intros _.
  eapply spec_bind; [apply spec_wrap, lift_calm|]. intros signature. apply spec_pure. intros _.
  eapply spec_bind; [apply signature_calm|]. intros ?.
  eapply spec_bind; [apply stage_calm|]. intros staged.
  eapply spec_bind; [apply staged_binary_calm|]. intros binary.
  eapply spec_bind; [apply validate_calm|]. intros reported. apply spec_pure. intros ->.
  eapply spec_bind; [apply manifest_calm|]. intros manifest.
  eapply spec_bind; [apply lift_release_calm|]. intros ?. apply spec_pure. intros Hag.
  apply spec_ret. intros s Hs. split; [split; [done|]|done]. simpl.
  apply verifyReleaseAgreement_Ok in Hag. by destruct Hag as (_ & _ & _ & _ & _ & _ & _ & ? & _).
Qed.
End checks.

(** ** The host while a release is applied *)
Lemma journal_off_dir : under (transaction_dir o id) journal = false.
Proof.
  destruct (under (transaction_dir o id) journal) eqn:Hu; [|done].
  apply under_trans in Hu. by rewrite journal_off in Hu.
Qed.

Lemma untouched_off_dir s0 s : off_dir o id s0 s -> untouched s0 -> untouched s.
Proof.
  intros [_ Hf] H0 p Hp. rewrite Hf; [by apply H0|]. destruct Hp as [Hp|[->| ->]].
  - by apply managed_off.
  - apply not_work_off, Hlay.
  - apply journal_off_dir.
Qed.

(** Publishing the journal touches nothing a transaction needs. *)
Lemma base_with_journal target t t' s :
  SnapshotDir t' = snapshot_dir o id -> PreservedBinary t' = preserved_path o id ->
  PreviousVersion t' = installed o -> ActivationDatabaseRestore t' = None -> RolledBack (t_Result t') = false ->
  snapshot_saved o orig s.1 (snapshot_dir o id) -> (exists m u g, s.1 !! preserved_path o id = Some (Reg b0 m u g)) ->
  database_ready o (DatabaseSnapshot t') s ->
  base o orig b0 id target t' (with_journal o t s).
Proof.
  intros Hd Hp Hv Hr Hrb Hs Hpre [Hc He].
  split; [done|done|by apply (backed_with_journal o orig b0 id)| |done|done].
  split; [done|]. intros Hx. destruct (He Hx) as [Hu (x & m2 & u2 & g2 & Hq)]. split; [done|].
  exists x, m2, u2, g2. simpl. rewrite lookup_insert_ne; [done|]. intros Heq. rewrite <-Heq in Hu. by rewrite journal_off in Hu.
Qed.

Section release.
Context (b1 : content) (target : string).
Hypothesis (Hnewer : isNewer target (installed o) = true) (Hversion : version b1 = target).
Local Abbreviation Base t s := (base o orig b0 id target t s).

(** What [applyRelease] may leave: nothing done, or the invariant of the journal. *)
Definition applied (s : state) : Prop :=
  untouched s \/ exists b1 inst target, isNewer target (installed o) = true /\ version b1 = target /\
    inv o orig b0 id b1 inst target s.

(** The transaction is open, and one of the two binaries is installed. *)
Definition opened (t : updateTransaction) (s : state) : Prop :=
  journal_is o t s /\ ID t = id /\ TargetVersion t = target /\ is_terminal (Phase t) = false /\
  (forall x, Phase t <> phaseUnknown x) /\ Base t s /\ (bin_is b1 s \/ bin_is b0 s).

Lemma opened_inv t s : opened t s -> inv o orig b0 id b1 s.1 target s.
Proof.
  intros (Hj & Hi & Ht & Hterm & Hunk & Hb & Hbin). exists t. split_and!; [done..|]. unfold phase_inv.
  destruct (Phase t) as [| | | |x] eqn:Hp; try done.
  - split; [done|]. destruct Hbin; eauto.
  - split; [done|]. destruct Hbin; [left|by right]. split; [done|]. by intros p.
  - by apply (Hunk x).
Qed.

Lemma opened_applied t s : opened t s -> applied s.
Proof. intros H. right. exists b1, s.1, target. split_and!; [done..|]. by apply opened_inv with t. Qed.

Lemma opened_ext t s0 s :
  (forall p, work p -> s.1 !! p = s0.1 !! p) -> (bin_is b1 s \/ bin_is b0 s) -> opened t s0 -> opened t s.
Proof.
  intros Hw Hbin (Hj & Hi & Ht & Hterm & Hunk & Hb & _).
  split_and!; [by eapply journal_ext|done..|by eapply base_ext|done].
Qed.

Lemma opened_core t s0 s : core o s0 s -> opened t s0 -> opened t s.
Proof.
  intros Hc Ho. eapply opened_ext; [intros p Hp; apply Hc; by right| |exact Ho].
  destruct Ho as (_ & _ & _ & _ & _ & _ & [Hb|Hb]); [left|right]; by eapply core_bin.
Qed.

Lemma opened_undoing t s0 s : undoing o b0 s0 s -> opened t s0 -> opened t s.
Proof.
  intros [Hoff Hor] Ho. eapply opened_ext; [by apply (off_live_work o Hlay)| |exact Ho].
  destruct Hor as [->|?]; [|by right]. by destruct Ho as (_ & _ & _ & _ & _ & _ & ?).
Qed.

(** Failing the transaction. *)
Lemma failTransaction_spec t0 t s0 cause restoreErr append :
  opened t0 s0 -> ID t = id -> TargetVersion t = target ->
  SnapshotDir t = SnapshotDir t0 -> PreservedBinary t = PreservedBinary t0 ->
  (restoreErr = None -> restored s0 /\ bin_is b0 s0) ->
  spec false (eq s0) (failTransaction o t cause restoreErr append) (fun _ => applied) applied applied.
Proof.
  intros Ho Hi Ht Hdir Hpre Hr. unfold failTransaction. set (t' := set_result _ _).
  assert (H1 : applied (with_journal o t' s0)).
  { right. exists b1, s0.1, target. split_and!; [done..|]. exists t'. split_and!; [apply journal_with|done|done|].
    pose proof Ho as (_ & _ & _ & _ & _ & Hb & Hbin). unfold phase_inv. split.
    - simpl. intros Hre%bool_decide_eq_true. destruct (Hr Hre).
      split; [by apply with_journal_restored|by apply with_journal_bin].
    - intros _. split; [by eapply base_backed_with_journal|]. destruct Hbin; [left|right]; by apply with_journal_bin. }
  assert (H0 : applied s0) by (by eapply opened_applied).
  eapply spec_bind with (Q := fun _ => applied); [|intros ?; by apply spec_ret].
  eapply spec_conseq with (P' := eq s0); [apply spec_attempt with (F := must false applied) (I := applied)
    (Q := fun _ => applied)|done| |intros s H; exact H|done].
  - eapply spec_conseq; [by apply (writeTransaction_spec o false s0 t' applied)|done|by intros ? s ->|done..].
  - intros [xa|xe] s1; [done|by intros [_ ?]].
Qed.

(** Undoing an open transaction and failing it. *)
Lemma undo_and_fail {A} (Q : A -> state -> Prop) t0 t s0 cause append (after : unit + string -> string) :
  opened t0 s0 -> SnapshotDir t = SnapshotDir t0 -> PreservedBinary t = PreservedBinary t0 ->
  ID t = id -> TargetVersion t = target ->
  spec false (eq s0)
    (restored ← attempt (restorePreparedTransaction E o t);
     _ ← failTransaction o t cause (error_of restored) append;
     fail (after restored) : M A) Q applied applied.
Proof.
  intros Ho Hd Hp Hi Ht.
  assert (Hb : backed o orig b0 t s0).
  { destruct Ho as (_ & _ & _ & _ & _ & Hb & _). destruct (base_backed _ _ _ _ _ _ _ Hb) as (? & ? & ?).
    unfold backed. by rewrite Hd, Hp. }
  eapply spec_bind with (Q := fun r s => opened t0 s /\ (error_of r = None -> restored s /\ bin_is b0 s)).
  - eapply spec_conseq with (P' := eq s0); [apply spec_attempt with (F := must false (undoing o b0 s0))
      (I := undoing o b0 s0) (Q := fun _ s => undoing o b0 s0 s /\ bin_is b0 s /\ restored s),
      (restorePreparedTransaction_spec E o Hlay orig b0 false s0 t Hb)|done| |intros s H; exact H|].
    + intros [xa|xe] s H; [destruct H as (H & ? & ?)|destruct H as [_ H]]; (split; [by eapply opened_undoing|]).
      * by intros _.
      * by intros [=].
    + intros s Hs. apply opened_applied with t0. by eapply opened_undoing.
  - intros r. apply spec_start. intros s1 [Ho1 Hr1].
    eapply spec_bind; [by apply (failTransaction_spec t0 t s1)|]. intros ?. by apply spec_fail.
Qed.

(** A transaction that names the captured files. *)
Definition names_capture (t : updateTransaction) : Prop :=
  ID t = id /\ TargetVersion t = target /\ SnapshotDir t = snapshot_dir o id /\
  PreservedBinary t = preserved_path o id /\ PreviousVersion t = installed o /\
  ActivationDatabaseRestore t = None /\ RolledBack (t_Result t) = false.

(** The host from the first journal entry on: the capture is intact. *)
Definition holds (t0 t : updateTransaction) (s : state) : Prop :=
  opened t0 s /\ SnapshotDir t0 = snapshot_dir o id /\ PreservedBinary t0 = preserved_path o id /\
  names_capture t /\ database_ready o (DatabaseSnapshot t) s.

Lemma with_journal_opened t0 t s :
  holds t0 t s -> is_terminal (Phase t) = false -> (forall x, Phase t <> phaseUnknown x) ->
  holds t t (with_journal o t s).
Proof.
  intros (Ho & Hd0 & Hp0 & (Hi & Ht & Hd & Hp & Hv & Hr & Hrb) & Hdb) Hterm Hunk.
  pose proof Ho as (_ & _ & _ & _ & _ & Hb & Hbin).
  destruct (base_backed _ _ _ _ _ _ _ Hb) as (Hs & _ & Hpre). rewrite Hd0 in Hs. rewrite Hp0 in Hpre.
  assert (Hbase : Base t (with_journal o t s)) by (by apply base_with_journal).
  split_and!; try done; [|apply Hbase].
  split_and!; [apply journal_with|done..|]. destruct Hbin; [left|right]; by apply with_journal_bin.
Qed.

Lemma beginActivation_spec t0 t s0 :
  holds t0 t s0 -> bin_is b1 s0 ->
  spec false (eq s0) (beginActivation E o t)
    (fun _ s => inv o orig b0 id b1 s.1 target s /\ exists t, journal_is o t s /\ Phase t = phaseActivating)
    applied applied.
Proof.
  intros Hh Hb1. unfold beginActivation. set (t' := set_phase phaseActivating t).
  assert (Hh' : holds t0 t' s0) by (by destruct Hh as (? & ? & ? & ? & ?)).
  assert (Ho1 : holds t' t' (with_journal o t' s0)) by (by apply (with_journal_opened t0)).
  destruct Hh' as (Ho0 & Hd0 & Hp0 & (Hi & Ht & Hd & Hp & _) & _). pose proof Ho1 as (Ho1' & _).
  assert (HoA : forall t s, opened t s -> applied s) by (by intros; eapply opened_applied).
  eapply spec_bind with (Q := fun r s => match r with
    | inl _ => s = with_journal o t' s0
    | inr _ => exists t1, opened t1 s /\ SnapshotDir t1 = snapshot_dir o id /\ PreservedBinary t1 = preserved_path o id end).
  { set (I := fun s => exists t1, opened t1 s /\ SnapshotDir t1 = snapshot_dir o id /\ PreservedBinary t1 = preserved_path o id).
    eapply spec_conseq with (P' := eq s0); [apply spec_attempt with (F := must false I) (I := I)
      (Q := fun _ s => s = with_journal o t' s0), writeTransaction_spec|done| |intros s H; exact H|].
    - by exists t0.
    - by exists t'.
    - intros [xa|xe] s; [done|by intros [_ ?]].
    - intros s (t1 & ? & _). by eapply HoA. }
  intros [?|e].
  - eapply spec_pre with (P' := eq (with_journal o t' s0)); [|by intros s ->].
    set (s1 := with_journal o t' s0). fold s1 in Ho1'.
    assert (Hb1s : bin_is b1 s1) by (by apply with_journal_bin).
    assert (Hk : forall s, kept s1 s -> opened t' s).
    { intros s Hk. eapply opened_core; [|exact Ho1']. intros p Hp1. apply Hk. destruct Hp1; auto. }
    eapply spec_bind with (Q := fun r s => kept s1 s).
    { eapply spec_conseq with (P' := eq s1); [apply spec_attempt with (F := kept s1) (I := kept s1)
        (Q := fun _ s => kept s1 s)|done|by intros []|intros s H; exact H|].
      - unfold launchActivation. eapply spec_bind; [|intros ?; apply spec_ret; intros s H; exact H].
        apply spec_wrap. eapply spec_conseq; [apply (run_spec E o Hframe false s1 b1); done|done| | |done].
        + by intros ? s [? _].
        + by intros s [_ ?].
      - intros s Hs. eapply HoA, Hk, Hs. }
    intros [?|e].
    + apply spec_ret. intros s Hs. split; [by apply opened_inv with t', Hk|].
      exists t'. split; [|done]. by destruct (Hk s Hs).
    + apply spec_start. intros s2 Hs2. apply (undo_and_fail _ t' t' s2 e true (fun _ => e)); try done. by apply Hk.
  - apply spec_start. intros s1 (t1 & Ho & Hd1 & Hp1).
    assert (Hb : backed o orig b0 t' s1).
    { destruct Ho as (_ & _ & _ & _ & _ & Hb & _). destruct (base_backed _ _ _ _ _ _ _ Hb) as (? & ? & ?).
      unfold backed. rewrite Hd, Hp. rewrite <-Hd1, <-Hp1. done. }
    eapply spec_bind with (Q := fun _ => applied); [|intros ?; by apply spec_fail].
    assert (Hu : forall s, undoing o b0 s1 s -> applied s) by (by intros s ?; eapply HoA, opened_undoing).
    eapply spec_conseq with (P' := eq s1); [apply spec_attempt with (F := must false (undoing o b0 s1))
      (I := undoing o b0 s1) (Q := fun _ s => undoing o b0 s1 s /\ bin_is b0 s /\ restored s),
      (restorePreparedTransaction_spec E o Hlay orig b0 false s1 t' Hb)|done| |intros s H; exact H|done].
    intros [xa|xe] s H; [destruct H as (H & _)|destruct H as [_ H]]; by apply Hu.
Qed.

Lemma holds_core t0 t s0 s : core o s0 s -> holds t0 t s0 -> holds t0 t s.
Proof.
  intros Hc (Ho & Hd & Hp & Hn & [Hcap He]). split_and!; [by eapply opened_core|done..|].
  split; [done|]. intros Hx. destruct (He Hx) as [Hu (x & m & u & g & Hq)]. split; [done|].
  exists x, m, u, g. rewrite Hc; [done|]. right. by eapply under_trans.
Qed.

Lemma off_managed_core s0 s : off_managed o s0 s -> core o s0 s.
Proof.
  intros [_ Hf] p Hp. apply Hf. destruct Hp as [->|Hp]; [by apply binary_not_managed|by apply work_not_managed].
Qed.

(** The packaging and what follows a failure of it. *)
Lemma syncPackaging_core s0 tree :
  spec false (core o s0) (syncPackaging E o tree) (fun _ => core o s0) (core o s0) (core o s0).
Proof.
  unfold syncPackaging. eapply spec_bind; [apply spec_wrap, run_core; done|]. intros ?.
  eapply spec_bind; [apply spec_wrap, run_core; done|]. intros ?. by apply spec_ret.
Qed.

Lemma context_dead_spec P I : (forall s, P s -> I s) -> spec false P context_dead (fun _ => P) I I.
Proof.
  intros HI h _ Hp. unfold context_dead, ask, mbind, M_bind. destruct (schedule h) as [|[] l]; simpl; (split; [done|]); try done; by apply HI.
Qed.

Lemma packaging_failed {A} (Q : A -> state -> Prop) t0 t s0 e (after : string -> unit + string -> string) :
  holds t0 t s0 -> bin_is b0 s0 ->
  spec false (eq s0)
    (dead ← context_dead;
     repaired ← (if dead : bool then attempt (recoverPackageManager E o) else mret (inl tt));
     let e := match repaired with inl _ => e | inr r => e +:+ "; repair the interrupted package manager: " +:+ r end in
     restored ← attempt (restoreHostSnapshot E (snapshot_dir o id));
     _ ← failTransaction o t e (error_of restored) false;
     fail (after e restored) : M A) Q applied applied.
Proof.
  intros Hh Hb. assert (HA : forall s, core o s0 s -> applied s).
  { intros s Hs. destruct (holds_core _ _ _ _ Hs Hh) as [Ho _]. by apply opened_applied with t0. }
  eapply spec_bind with (Q := fun _ => core o s0).
  { eapply spec_pre with (P' := core o s0); [by apply context_dead_spec|by intros s <-]. }
  intros dead. eapply spec_bind with (Q := fun _ => core o s0).
  { destruct dead; [|by apply spec_ret].
    eapply spec_conseq with (P' := core o s0); [apply spec_attempt with (F := core o s0) (I := core o s0)
      (Q := fun _ => core o s0), recoverPackageManager_core; done|done|by intros []|intros s H; exact H|done]. }
  intros repaired. cbv zeta. apply spec_start. intros s1 H1.
  destruct (holds_core _ _ _ _ H1 Hh) as (Ho & Hd0 & Hp0 & (Hi & Ht & Hdir & Hpre & _) & _).
  assert (Hsaved : snapshot_saved o orig s1.1 (snapshot_dir o id)).
  { destruct Ho as (_ & _ & _ & _ & _ & Hbase & _). destruct (base_backed _ _ _ _ _ _ _ Hbase) as (Hs & _).
    by rewrite Hd0 in Hs. }
  assert (Hb1 : bin_is b0 s1) by (by eapply core_bin).
  eapply spec_bind with (Q := fun r s => core o s1 s /\ (error_of r = None -> restored s)).
  { eapply spec_conseq with (P' := eq s1); [apply spec_attempt with (F := must false (off_managed o s1))
      (I := off_managed o s1) (Q := fun _ s => off_managed o s1 s /\ restored s),
      (restoreHostSnapshot_spec E o Hlay orig false s1 _ Hsaved)|done| |intros s H; exact H|].
    - intros [xa|xe] s H; [destruct H as [H ?]|destruct H as [_ H]]; (split; [by apply off_managed_core|done]).
    - intros s Hs. apply opened_applied with t0. eapply opened_core; [by apply off_managed_core|done]. }
  intros r. apply spec_start. intros s2 [H2 Hr2].
  eapply spec_bind; [apply (failTransaction_spec t0 t s2); [by eapply opened_core|done|done|congruence|congruence|]|].
  - intros Hr. split; [by apply Hr2|by eapply core_bin].
  - intros ?. by apply spec_fail.
Qed.
End release.

Lemma applyRelease_spec change :
  bin_is b0 (orig, None) -> (forall p t u g, p ∈ managed -> orig !! p = Some (Link t u g) -> t <> EmptyString) ->
  spec false untouched (applyRelease E o id change)
    (fun _ s => exists b1 target, isNewer target (installed o) = true /\ version b1 = target /\
       inv o orig b0 id b1 s.1 target s /\ exists t, journal_is o t s /\ Phase t = phaseActivating)
    applied applied.
Proof.
  intros Hbin Hlinks. unfold applyRelease. assert (HuA : forall s, untouched s -> applied s) by (by left).
  eapply spec_bind; [eapply spec_conseq; [apply verified_release_calm|done|intros r s H; exact H|done|done]|].
  intros [release b1]. apply spec_pure. simpl. intros [Hnew Hver]. set (target := Release.Version release) in *.
  apply spec_start. intros s1 Hs1.
  assert (Horig1 : forall p, p ∈ managed -> s1.1 !! p = orig !! p) by (by intros p Hp; apply Hs1; left).
  assert (Hbin1 : bin_is b0 s1).
  { destruct Hbin as (m & u & g & Hb). exists m, u, g. rewrite Hs1; [done|by right; left]. }
  eapply spec_bind.
  { eapply spec_conseq; [apply (prepareTransaction_spec E o Hlay orig b0 id Hlinks false s1 Horig1 Hbin1)|done|
      intros r s H; exact H| |]; intros s Hs; by eapply HuA, untouched_off_dir. }
  intros [[d p] dbs]. simpl. apply spec_start. intros s2 (-> & -> & Hcap & Hdb).
  assert (Hu2 : untouched s2) by (eapply untouched_off_dir; [apply Hcap|done]).
  set (result := mk_result _ _ _ _ _ _ _). set (t := mk_transaction _ _ _ _ _ _ _ _ _ _ _ _ _).
  assert (Hbin2 : bin_is b0 s2).
  { destruct Hbin1 as (m & u & g & Hb). destruct Hcap as ([_ Hf] & _). exists m, u, g. rewrite Hf; [done|].
    apply not_work_off, Hlay. }
  assert (Hh : holds b1 target t t (with_journal o t s2)).
  { assert (Hbase : base o orig b0 id target t (with_journal o t s2)).
    { apply base_with_journal; try done; apply Hcap. }
    split_and!; try done; [|apply Hbase].
    split_and!; [apply journal_with|done..|]. right. by apply with_journal_bin. }
  assert (Hb0s : bin_is b0 (with_journal o t s2)) by (by apply with_journal_bin).
  eapply spec_bind with (Q := fun _ => eq (with_journal o t s2)).
  { eapply spec_conseq; [apply (writeTransaction_spec o false s2 t applied)|done|by intros ? s ->| |done].
    - by apply HuA.
    - apply (opened_applied b1 target Hnew Hver t), Hh.
    - by intros s [_ ?]. }
  intros ?. set (s3 := with_journal o t s2) in *.
  eapply spec_bind with (Q := fun _ => core o s3).
  { eapply spec_conseq with (P' := core o s3); [apply spec_attempt with (F := core o s3) (I := core o s3)
      (Q := fun _ => core o s3), syncPackaging_core|by intros s <-|by intros []|intros s H; exact H|].
    intros s Hs. apply (opened_applied b1 target Hnew Hver t). by eapply (holds_core b1 target). }
  set (t' := set_packaging false t).
  assert (Hh' : forall s, core o s3 s -> holds b1 target t t' s /\ bin_is b0 s).
  { intros s Hs. split; [|by eapply core_bin]. apply (holds_core b1 target t t s3 s Hs Hh). }
  intros [xb|e]; apply spec_start; intros s4 H4; destruct (Hh' s4 H4) as [Hh4 Hb4].
  2: { eapply spec_conseq; [apply (packaging_failed b1 target Hnew Hver (fun _ _ => False) t t' s4 e
         (fun e r => match r with inl _ => e | inr r => e +:+ "; restore previous packaging: " +:+ r end) Hh4 Hb4)|done|done|done|done]. }
  pose proof Hh4 as (Ho4 & _).
  assert (Hwb : core o (with_binary o b1 s4) (with_binary o b1 s4)) by done.
  assert (Hw4 : forall p, work p -> (with_binary o b1 s4).1 !! p = s4.1 !! p).
  { intros p Hp. simpl. rewrite lookup_insert_ne; [done|]. by apply not_eq_sym, (work_not_binary o Hlay). }
  assert (Ho5 : opened b1 target t (with_binary o b1 s4)).
  { eapply opened_ext; [exact Hw4|left; apply with_binary_is|done]. }
  eapply spec_bind with (Q := fun r s => (s = s4 \/ s = with_binary o b1 s4) /\
    match r with inl _ => s = with_binary o b1 s4 | inr _ => True end).
  { eapply spec_conseq with (P' := eq s4); [apply spec_attempt, (installStagedBinary_spec E o false s4 b1)|done| |
      intros s H; exact H|].
    - intros [xa|xe] s H; [by split; [right|]|by destruct H as [_ ?]].
    - intros s [-> | ->]; by apply (opened_applied b1 target Hnew Hver t). }
  intros [xc|e]; apply spec_start; intros s5 [Hor Hs5].
  - subst s5. clear Hor.
    assert (Hh5 : holds b1 target t (set_result (mk_result (installed o) target true false false true EmptyString) t')
        (with_binary o b1 s4)).
    { destruct Hh4 as (_ & ? & ? & ? & Hdb4). split_and!; [done..|].
      destruct Hdb4 as [Hc4 He4]. split; [done|]. intros Hx. destruct (He4 Hx) as [Hu4 (x & m & u & g & Hq)].
      split; [done|]. exists x, m, u, g. rewrite Hw4; [done|]. by eapply under_trans. }
    eapply spec_bind.
    + apply (beginActivation_spec b1 target Hnew Hver t _ _ Hh5). apply with_binary_is.
    + intros ?. apply spec_ret. intros s [? ?]. by exists b1, target.
  - eapply (undo_and_fail b1 target Hnew Hver _ t t' s5 e false
      (fun r => match r with inl _ => e | inr r => e +:+ "; restore previous packaging: " +:+ r end)); try done.
    by destruct Hor as [-> | ->].
Qed.
End host.
