(* ===== verification/UpdateProps.v ===== *)
(** * Properties of host updates

    What an update guarantees over its whole life, interruptions included, and the
    cases it does not cover. *)

From S2P Require Import Prelude GoStrings Json Release Update UpdateOps UpdateLogic UpdateRestore UpdateActivate UpdateCapture UpdateSafety UpdateApply.

Local Open Scope Z_scope.

(** The node an update starts on: its paths and commands are as documented, its
    binary [b0] is the installed version. *)
Record setting (E : environment) (o : HostOperator) (orig : filesystem) (b0 : content) (id : string) : Prop := {
  set_layout : layout o;
  set_framed : commands_framed E o;
  set_id : id <> EmptyString;
  set_binary : bin_is o b0 (orig, None);
  set_links : forall p t u g, p ∈ managedPaths o -> orig !! p = Some (Link t u g) -> t <> EmptyString;
  set_version : version E b0 = Release.normalizeVersion (env_semver_IsValid E) (env_semver_Canonical E) (installed o);
  set_compare : forall v, env_semver_Compare E v v = 0;
  (* no transaction is open *)
  set_journal : forall t m u g, orig !! transactionPath o = Some (Reg (Journal t) m u g) -> is_terminal (Phase t) = true;
  set_regular : match orig !! transactionPath o with None | Some (Reg _ _ _ _) => True | _ => False end;
}.

(** What can happen to the node after an update was started: recovery runs, the
    detached helper, both dying anywhere, and changes to everything that an update is
    not about (reboots, restarts of services, database writes). *)
Inductive life (E : environment) (o : HostOperator) (h : machine) : machine -> Prop :=
| life_recover s : life E o h (RecoverTransaction E o (transactionPath o) (with_schedule s h)).2
| life_activate s t : journal_is o t (st h) -> Phase t = phaseActivating ->
    life E o h (ActivateTransaction E o (transactionPath o) (with_schedule s h)).2
| life_drift h' : kept o (st h) (st h') -> life E o h h'.

Section host.
Context (E : environment) (o : HostOperator) (orig : filesystem) (b0 : content) (id : string).
Hypothesis (Hset : setting E o orig b0 id).

Local Abbreviation managed := (managedPaths o).
Local Abbreviation work p := (under (workRoot o) p = true).
Local Abbreviation journal := (transactionPath o).
Local Abbreviation normalizeVersion := (Release.normalizeVersion (env_semver_IsValid E) (env_semver_Canonical E)).
Local Abbreviation isNewer := (Release.isNewer (env_semver_IsValid E) (env_semver_Canonical E) (env_semver_Compare E)).
Local Abbreviation Inv b1 inst target := (inv o orig b0 id b1 inst target).

(** A newer version is another version. *)
Lemma newer_differs target :
  isNewer target (installed o) = true ->
  normalizeVersion target <> EmptyString /\ version E b0 <> normalizeVersion target.
Proof.
  unfold Release.isNewer. intros ((H1 & _)%andb_true_iff & H2)%andb_true_iff.
  apply negb_true_iff, bool_decide_eq_false in H1. split; [done|].
  rewrite (set_version _ _ _ _ _ Hset). intros Heq. rewrite Heq in H2.
  by rewrite (set_compare _ _ _ _ _ Hset) in H2.
Qed.

(** Specifications as facts about single runs. *)
Lemma spec_run {A} c (P : state -> Prop) (m : M A) Q (F I : state -> Prop) R s h :
  spec c P m Q F I -> (c = true -> s = []) -> P (st h) ->
  (forall a s, Q a s -> R s) -> (forall s, F s -> R s) -> (forall s, c = false -> I s -> R s) ->
  R (st (m (with_schedule s h)).2).
Proof.
  intros Hm Hs Hp HQ HF HI. specialize (Hm (with_schedule s h) Hs Hp).
  destruct (m (with_schedule s h)) as [[a|e|] h']; destruct Hm; eauto.
Qed.

Lemma untouched_recover c :
  spec c (untouched o orig) (RecoverTransaction E o journal) (fun _ => untouched o orig) (untouched o orig) (untouched o orig).
Proof.
  set (U := untouched o orig). unfold RecoverTransaction. rewrite bool_decide_eq_true_2 by done. simpl.
  eapply spec_bind with (Q := fun y s => (forall t, y = Some t -> is_terminal (Phase t) = true) /\ U s).
  - unfold readTransaction. eapply spec_bind with (Q := fun x s => (forall t, x = Some (Journal t) -> is_terminal (Phase t) = true) /\ U s).
    + eapply spec_bind; [apply spec_stat with (I := U) (F := U); done|]. intros n. apply spec_start.
      intros s1 [-> Hs1]. assert (Hj : s1.1 !! journal = orig !! journal) by (apply Hs1; auto). rewrite Hj.
      pose proof (set_journal _ _ _ _ _ Hset) as Hq. pose proof (set_regular _ _ _ _ _ Hset) as Hreg.
      destruct (orig !! journal) as [[x m u g| |]|]; try done; apply spec_ret; intros s <-.
      * split; [|done]. intros t [= ->]. by eapply Hq.
      * split; [|done]. by intros t [=].
    + intros x. apply spec_pure. intros Hx. destruct x as [[|t|]|]; try (by apply spec_fail); [|by apply spec_ret].
      case_match; [by apply spec_fail|]. apply spec_ret. intros s Hs. split; [|done]. intros t' [= <-]. by apply Hx.
  - intros y. apply spec_pure. intros Hy. destruct y as [t|]; [|by apply spec_ret].
    specialize (Hy t eq_refl). destruct (Phase t); try done; by apply spec_ret.
Qed.

Lemma untouched_life h h' : untouched o orig (st h) -> life E o h h' -> untouched o orig (st h').
Proof.
  intros Hu [s|s t (m & u & g & Hj) Hph|h'' Hk].
  - eapply spec_run; [apply (untouched_recover false)|done|done|done|done|done].
  - exfalso. rewrite Hu in Hj by auto. apply (set_journal _ _ _ _ _ Hset) in Hj. by rewrite Hph in Hj.
  - intros p Hp. rewrite Hk; [by apply Hu|]. destruct Hp as [?|[?| ->]]; auto. right; right. apply journal_work.
Qed.

(** The invariant holds for life. *)
Lemma inv_life b1 inst target h h' :
  isNewer target (installed o) = true -> Inv b1 inst target (st h) -> life E o h h' -> Inv b1 inst target (st h').
Proof.
  intros Hnew Hi Hl. destruct (newer_differs _ Hnew) as [Ht Hd]. destruct Hset as [Hlay Hfr Hid _ _ Hv _ _ _].
  destruct Hl as [s|s t Hj Hph|h'' Hk].
  - eapply spec_run; [by eapply (RecoverTransaction_spec E o Hlay Hfr orig b0 id b1 inst target Hid Ht Hd Hv false (st h))|done|done|..].
    + by intros ? s1 [? _].
    + by intros s1 [? _].
    + done.
  - destruct Hi as (t' & Hj' & Hid' & Htv & Hp). assert (t' = t) as ->.
    { destruct Hj as (? & ? & ? & Hj), Hj' as (? & ? & ? & Hj'). congruence. }
    unfold phase_inv in Hp. rewrite Hph in Hp.
    eapply spec_run; [by eapply (ActivateTransaction_spec E o Hlay Hfr orig b0 id b1 inst target Hid Ht Hd Hv false (st h) t)|done|done|..].
    + by intros ? s1 [? _].
    + by intros s1 [? _].
    + done.
  - destruct Hi as (t & Hj & Hid' & Htv & Hp). exists t.
    assert (Hw : forall p, work p -> (st h'').1 !! p = (st h).1 !! p) by (intros p Hp'; apply Hk; auto).
    split_and!; [by eapply journal_ext|done|done|]. unfold phase_inv in *. destruct (Phase t); try done.
    + destruct Hp as [Hb [b ?]]. split; [by eapply base_ext|]. exists b. by eapply kept_bin.
    + by apply (activating_kept o orig b0 id b1 inst target t (st h)).
    + destruct Hp. split; [by eapply kept_bin|by eapply kept_managed].
    + destruct Hp as [Hp Hn]. split; [intros Hr; destruct (Hp Hr); split; [by eapply kept_restored|by eapply kept_bin]|].
      intros Hr. destruct (Hn Hr) as [Hback Hbin]. split; [by eapply kept_backed|]. destruct Hbin; [left|right]; by eapply kept_bin.
Qed.

(** The result of a clean recovery, told as an outcome of the update. *)
Definition outcome_of (h2 h3 : machine) (same : Prop) : Prop :=
  exists t, journal_is o t (st h3) /\ ID t = id /\ isNewer (TargetVersion t) (installed o) = true /\
    ((Phase t = phaseSucceeded /\ (exists b, bin_is o b (st h3) /\ version E b = TargetVersion t) /\ same) \/
     (Phase t = phaseFailed /\
      (RolledBack (t_Result t) = true -> restored o orig (st h3) /\ bin_is o b0 (st h3)) /\
      (RolledBack (t_Result t) = false -> journal_is o t (st h2) /\ backed o orig b0 t (st h3) /\
         (bin_is o b0 (st h3) \/ exists b, bin_is o b (st h3) /\ version E b = TargetVersion t)))).

Lemma inv_recovered b1 inst target h2 :
  isNewer target (installed o) = true -> version E b1 = target -> Inv b1 inst target (st h2) -> lock_ok o (st h2) ->
  let h3 := (RecoverTransaction E o journal (with_schedule [] h2)).2 in
  outcome_of h2 h3 (forall p, p ∈ managed -> files h3 !! p = inst !! p).
Proof.
  intros Hnew Hb1 Hi Hok h3. destruct (newer_differs _ Hnew) as [Ht Hd].
  destruct Hset as [Hlay Hfr Hid _ _ Hv _ _ _].
  assert (H3 : Inv b1 inst target (st h3) /\ settled o (st h2) (st h3)).
  { apply (spec_run true _ _ _ _ _ (fun s => Inv b1 inst target s /\ settled o (st h2) s) [] h2
      (RecoverTransaction_spec E o Hlay Hfr orig b0 id b1 inst target Hid Ht Hd Hv true (st h2) Hi (fun _ => Hok))); try done.
    intros s [? Hs]. split; [done|]. by apply Hs. }
  destruct H3 as [(t & Hj & Hi3 & Htv & Hp) Hset3].
  exists t. split_and!; [done|done|by rewrite Htv|].
  assert (Hjt : forall t' s, journal_is o t' s -> journal_is o t s -> t' = t).
  { intros t' s (? & ? & ? & Hx) (? & ? & ? & Hy). congruence. }
  unfold phase_inv in Hp. destruct Hset3 as [(t' & Hj' & Hor)|[Heq (t' & Hj' & Hterm)]].
  - rewrite (Hjt _ _ Hj' Hj) in Hor. destruct Hor as [Hph|[Hph Hrb]]; rewrite Hph in Hp.
    + left. destruct Hp as [Hbin Hm]. split_and!; [done| |done]. exists b1. by rewrite Htv.
    + right. split_and!; [done|apply Hp|]. by rewrite Hrb.
  - rewrite <-Heq in Hj'. rewrite (Hjt _ _ Hj' Hj) in Hterm. destruct (Phase t) eqn:Hph; try done.
    + left. destruct Hp as [Hbin Hm]. split_and!; [done| |done]. exists b1. by rewrite Htv.
    + right. split_and!; [done|apply Hp|]. intros Hr. destruct (proj2 Hp Hr) as [Hback Hbin]. split_and!; [by rewrite <-Heq|done|].
      destruct Hbin as [?|?]; [right; exists b1; by rewrite Htv|by left].
Qed.

End host.

(** ** Properties *)

(** C4. An interrupted update is always recoverable.  Let [applyRelease] run on a
    node without an open transaction, with any operation refused and the process
    dying anywhere; let recovery and the helper then run any number of times, dying
    anywhere, with reboots and other changes between; and let one recovery then run
    undisturbed.  Then either the node is untouched, or the transaction is over for a
    newer version: with success, the installed binary is one of that version, and if
    [applyRelease] had handed over, the managed files are exactly the ones it handed
    over; with failure and a rollback, the managed files and the binary are exactly
    those from before the update.  A failure without a rollback had been recorded
    before, when the rollback itself failed: then the binary is one of the two, whole,
    and the preserved binary and packaging are still there, unchanged; recovery does
    nothing more.  The control database is outside of this statement. *)
Theorem update_crash_recoverable E o orig b0 id change h0 r h1 h2 :
  setting E o orig b0 id -> files h0 = orig ->
  applyRelease E o id change h0 = (r, h1) -> rtc (life E o) h1 h2 -> lock_ok o (st h2) ->
  let h3 := (RecoverTransaction E o (transactionPath o) (with_schedule [] h2)).2 in
  untouched o orig (st h3) \/
  outcome_of E o orig b0 id h2 h3
    ((exists a, r = Done a) -> forall p, p ∈ managedPaths o -> files h3 !! p = files h1 !! p).
Proof.
  intros Hset Hf Happ Hlife Hok h3. pose proof Hset as [Hlay Hfr Hid Hbin Hlinks _ _ _ _].
  pose proof (applyRelease_spec E o Hlay Hfr orig b0 id change Hbin Hlinks h0 ltac:(done)) as Hspec.
  rewrite Happ in Hspec. specialize (Hspec ltac:(intros p _; simpl; by rewrite Hf)).
  assert (Hinv : forall b1 inst target, Release.isNewer (env_semver_IsValid E) (env_semver_Canonical E) (env_semver_Compare E) target (installed o) = true ->
    version E b1 = target -> inv o orig b0 id b1 inst target (st h1) ->
    outcome_of E o orig b0 id h2 h3 (forall p, p ∈ managedPaths o -> files h3 !! p = inst !! p)).
  { intros b1 inst target Hnew Hb1 Hi. apply (inv_recovered _ _ _ _ _ Hset b1 inst target); try done.
    clear h3 Happ Hspec Hok. induction Hlife as [|h1 h2 h3 Hstep _ IH]; [done|]. apply IH.
    by apply (inv_life _ _ _ _ _ Hset b1 inst target _ _ Hnew Hi Hstep). }
  assert (Happlied : (forall a, r <> Done a) -> applied E o orig b0 id (st h1) -> untouched o orig (st h3) \/
    outcome_of E o orig b0 id h2 h3 ((exists a, r = Done a) -> forall p, p ∈ managedPaths o -> files h3 !! p = files h1 !! p)).
  { intros Hr [Hu|(b1 & inst & target & Hnew & Hv & Hi)].
    - left. apply (spec_run true _ _ _ _ _ (untouched o orig) [] h2 (untouched_recover _ _ _ _ _ Hset true)); try done.
      clear h3 Happ Hspec Hinv Hok. induction Hlife as [|h1 h2 h3 Hstep _ IH]; [done|]. apply IH.
      by apply (untouched_life _ _ _ _ _ Hset h1 h2).
    - right. destruct (Hinv b1 inst target Hnew Hv Hi) as (t & ? & ? & ? & [(? & ? & _)|?]); exists t; split_and!; try done.
      + left. split_and!; [done..|]. intros [a ->]. by destruct (Hr a).
      + by right. }
  destruct r as [a|e|].
  - destruct Hspec as [_ (b1 & target & Hnew & Hv & Hi & _)]. right.
    destruct (Hinv b1 _ target Hnew Hv Hi) as (t & ? & ? & ? & [(? & ? & Hm)|?]); exists t; split_and!; try done.
    + left. split_and!; [done..|]. by intros _.
    + by right.
  - destruct Hspec as [_ Ha]. apply Happlied; [by intros a|done].
  - destruct Hspec as [_ Ha]. apply Happlied; [by intros a|done].
Qed.

(** The packaging snapshot is exact: after [createHostSnapshot] returned, whatever
    happens outside of the work root, restoring it undisturbed gives every managed
    file its content, permissions and owner, every symbolic link its target, removes
    what was not there, and touches nothing else. *)
Theorem update_snapshot_roundtrip E o id h directory h1 h2 :
  layout o ->
  (forall p t u g, p ∈ managedPaths o -> files h !! p = Some (Link t u g) -> t <> EmptyString) ->
  createHostSnapshot E o id h = (Done directory, h1) ->
  (forall p, under (workRoot o) p = true -> files h2 !! p = files h1 !! p) -> schedule h2 = [] ->
  exists h3, restoreHostSnapshot E directory h2 = (Done tt, h3) /\
    (forall p, p ∈ managedPaths o -> files h3 !! p = norm <$> files h !! p) /\
    (forall p, p ∉ managedPaths o -> files h3 !! p = files h2 !! p).
Proof.
  intros Hlay Hlinks Hc Hw Hs.
  pose proof (createHostSnapshot_spec E o Hlay (files h) id Hlinks false (st h) ltac:(done) h ltac:(done) eq_refl) as Hspec.
  rewrite Hc in Hspec. destruct Hspec as (_ & -> & _ & Hsaved).
  apply (saved_ext o _ _ (files h2)) in Hsaved; [|done].
  pose proof (restoreHostSnapshot_spec E o Hlay (files h) true (st h2) _ Hsaved h2 ltac:(done) eq_refl) as Hr.
  destruct (restoreHostSnapshot E _ h2) as [[[]|e|] h3]; [|by destruct Hr as (_ & ? & _)|by destruct Hr].
  destruct Hr as (_ & [_ Hoff] & Hre). by exists h3.
Qed.

(** The package repair leaves the control database alone. *)
Definition repair_framed (E : environment) (o : HostOperator) : Prop :=
  forall c a fs p, c_Name c = "dpkg"%string \/ c_Name c = "apt-get"%string ->
    p ∈ [databasePath o; wal o; shm o] -> env_effect E c a fs !! p = fs !! p.

(** The binary, the work root, the service and the database are as in [s0]. *)
Definition repairing (o : HostOperator) (s0 s : state) : Prop :=
  core o s0 s /\ s.2 = s0.2 /\ forall p, p ∈ [databasePath o; wal o; shm o] -> s.1 !! p = s0.1 !! p.

Lemma repair_spec E o s0 :
  commands_framed E o -> repair_framed E o ->
  let R := repairing o s0 in spec true R (recoverPackageManager E o) (fun _ => R) R R.
Proof.
  intros Hfr Hrep R. unfold recoverPackageManager. eapply spec_bind with (Q := fun _ => R).
  { eapply spec_conseq with (P' := R); [apply spec_attempt with (F := R) (I := R) (Q := fun _ => R)|done|by intros []|intros s H; exact H|done].
    eapply spec_conseq; [apply spec_stat with (P := R) (F := R) (I := R); done|done|by intros ? s [_ ?]|done..]. }
  intros [[[| |]|]|e]; try by apply spec_ret.
  unfold run_all. apply (spec_for_each true _ _ (fun _ => R)). intros before cmd rest Hl.
  assert (Hname : c_Name cmd = "dpkg"%string \/ c_Name cmd = "apt-get"%string).
  { assert (Hin : cmd ∈ before ++ cmd :: rest) by set_solver. rewrite <-Hl in Hin.
    apply elem_of_cons in Hin as [->|[->|Hin%elem_of_nil]%elem_of_cons]; [by left|by right|done]. }
  eapply spec_bind with (Q := fun _ => R); [apply spec_wrap|intros ?; by apply spec_ret].
  intros h1 Hc (H1 & H2 & H3). specialize (Hc eq_refl).
  unfold run, ask, modify, mbind, M_bind. simpl. rewrite Hc. simpl. split; [done|]. split_and!.
  - intros p Hp. simpl. rewrite (f_work _ _ Hfr) by (destruct Hp; auto). by apply H1.
  - simpl in H2 |- *. rewrite <-H2. unfold service_state. by destruct Hname as [-> | ->].
  - intros p Hp. simpl. rewrite Hrep by done. by apply H3.
Qed.

Lemma locked_repairing o s0 s : layout o -> locked o s0 s -> repairing o s0 s.
Proof.
  intros Hlay Hl. split_and!; [|apply Hl|].
  - intros p Hp. apply (locked_kept o Hlay s0 s Hl). tauto.
  - intros p Hp. apply Hl. intros ->. by apply (l_lock _ Hlay).
Qed.

(** Recovery before activation restores the binary and the packaging, and nothing
    else: the database keeps whatever schema it has and the services are not
    restarted, although after a reboot the new binary may already have served and
    migrated it. *)
Theorem update_recovery_keeps_new_schema E o orig b0 t h :
  layout o -> commands_framed E o -> repair_framed E o ->
  journal_is o t (st h) -> ID t <> EmptyString -> TargetVersion t <> EmptyString ->
  Phase t = phasePrepared -> backed o orig b0 t (st h) -> lock_ok o (st h) -> schedule h = [] ->
  exists h' t', RecoverTransaction E o (transactionPath o) h = (Done tt, h') /\
    journal_is o t' (st h') /\ Phase t' = phaseFailed /\ RolledBack (t_Result t') = true /\
    bin_is o b0 (st h') /\ restored o orig (st h') /\
    serving h' = serving h /\
    (forall p, p ∈ [databasePath o; wal o; shm o] -> files h' !! p = files h !! p).
Proof.
  intros Hlay Hfr Hrep Hj Hid Htv Hph Hb Hok Hs.
  set (R := repairing o (st h)).
  set (Q := fun (_ : unit) s => exists t', journal_is o t' s /\ Phase t' = phaseFailed /\
    RolledBack (t_Result t') = true /\ bin_is o b0 s /\ restored o orig s /\ s.2 = (st h).2 /\
    forall p, p ∈ [databasePath o; wal o; shm o] -> s.1 !! p = (st h).1 !! p).
  pose proof (repair_spec E o (st h) Hfr Hrep) as Hrepair. cbv zeta in Hrepair. fold R in Hrepair.
  assert (Hspec : spec true (eq (st h)) (RecoverTransaction E o (transactionPath o)) Q
    (must true (fun _ => True)) (fun _ => True)).
  { unfold RecoverTransaction. rewrite bool_decide_eq_true_2 by done. simpl.
    eapply spec_bind; [eapply spec_conseq; [by apply (readTransaction_spec E o true (st h) t)|done|intros y s H; exact H|by intros s [? _]|done]|].
    intros y. apply spec_pure. intros ->. rewrite Hph.
    assert (HR0 : R (st h)) by done.
    eapply spec_bind with (Q := fun _ => R).
    { eapply spec_conseq with (P' := eq (st h)); [by apply (acquireHostLock_spec o true (st h))|by intros s ->|
        intros ? s; by apply locked_repairing|by intros s [? _]|done]. }
    intros ?.
    eapply spec_bind with (Q := fun _ => R).
    { destruct (PackagingRunning t); [|by apply spec_ret].
      eapply spec_bind with (Q := fun _ => R); [|intros ?; by apply spec_ret].
      eapply spec_conseq with (P' := R); [apply spec_attempt, Hrepair|done|by intros []|intros s H; exact H|done]. }
    intros packaging. apply spec_start. intros s0 (Hc0 & Hsv0 & Hdb0).
    assert (Hb0 : backed o orig b0 t s0) by (eapply (backed_ext o); [|exact Hb]; intros p Hp; apply Hc0; by right).
    eapply spec_bind; [eapply spec_conseq; [by apply (restorePreparedTransaction_spec E o Hlay orig b0 true s0 t)|done|intros ? s H; exact H|by intros s [? _]|done]|].
    intros ?. apply spec_start. intros s1 ([[Hsv Hoff] _] & Hbin & Hre). set (t' := set_result _ _).
    eapply spec_conseq; [by apply (writeTransaction_spec o true s1 t' (fun _ => True))|done| |by intros s [? _]|done].
    intros ? s ->. exists t'. split_and!; [apply journal_with|done|done|by apply with_journal_bin|by apply with_journal_restored| |].
    - simpl. by rewrite Hsv.
    - intros p Hp. destruct (database_path o Hlay p Hp) as (Hw & Hm & Hne). simpl.
      rewrite lookup_insert_ne; [rewrite Hoff by done; by apply Hdb0|]. intros <-. by rewrite journal_work in Hw. }
  specialize (Hspec h ltac:(done) eq_refl).
  destruct (RecoverTransaction E o (transactionPath o) h) as [[[]|e|] h']; [|by destruct Hspec as (_ & ? & _)|by destruct Hspec].
  destruct Hspec as (_ & t' & ?). exists h', t'. by split.
Qed.

(** A caller that gives up on an activation puts the host back. *)
Lemma recoverStalled_spec E o orig b0 b1 t cause s0 :
  layout o -> commands_framed E o -> journal_is o t s0 -> ID t <> EmptyString -> TargetVersion t <> EmptyString ->
  Phase t = phaseActivating -> backed o orig b0 t s0 -> database_ready o (DatabaseSnapshot t) s0 -> bin_is o b1 s0 ->
  version E b0 = Release.normalizeVersion (env_semver_IsValid E) (env_semver_Canonical E) (PreviousVersion t) ->
  spec true (eq s0) (recoverStalledActivation E o cause) (fun _ _ => False)
    (fun s => bin_is o b0 s /\ restored o orig s) (fun _ => True).
Proof.
  intros Hlay Hfr Hj Hid Htv Hph Hb Hdb Hb1 Hv. unfold recoverStalledActivation.
  eapply spec_bind with (Q := fun r s => r = inl t /\ s = s0).
  { eapply spec_conseq with (P' := eq s0); [apply spec_attempt, (requireTransaction_spec E o true s0 t); done|done| |intros s H; exact H|done].
    intros [y|e] s H; [destruct H as [-> ->]|destruct H as [? _]]; done. }
  intros r. apply spec_pure. intros ->. rewrite Hph. simpl.
  eapply spec_bind with (Q := fun r s => error_of r = None /\ bin_is o b0 s /\ restored o orig s).
  { eapply spec_pre with (P' := eq s0); [|by intros s ->].
    eapply spec_conseq with (P' := eq s0); [apply spec_attempt,
      (restoreTransaction_spec E o Hlay Hfr orig b0 true s0 t b1)|done| |intros s H; exact H|done]; try done.
    - intros _. by right.
    - intros [x|e] s H; [by destruct H as (_ & ? & ?)|by destruct H]. }
  intros r. apply spec_pure. intros Hr. rewrite Hr.
  eapply spec_bind with (Q := fun _ s => bin_is o b0 s /\ restored o orig s).
  { apply spec_start. intros s1 [Hbin Hre]. unfold failTransaction. set (t' := set_result _ _).
    eapply spec_bind with (Q := fun _ s => bin_is o b0 s /\ restored o orig s); [|intros ?; by apply spec_ret].
    eapply spec_conseq with (P' := eq s1); [apply spec_attempt, (writeTransaction_spec o true s1 t' (fun _ => True)); done|done| |intros s H; exact H|done].
    intros [x|e] s H; [subst s|by destruct H]. split; [by apply with_journal_bin|by apply with_journal_restored]. }
  intros ?. destruct r; by apply spec_fail.
Qed.

Definition succeeded (t : updateTransaction) : updateTransaction :=
  set_result (set_activated (t_Result t)) (set_phase phaseSucceeded t).

Lemma activation_commit_spec o t s0 :
  layout o ->
  spec true (eq s0) (activation_commit o t) (fun _ s => off_obsolete o (with_journal o (succeeded t) s0) s)
    (fun _ => False) (fun _ => True).
Proof.
  intros Hlay. unfold activation_commit. eapply spec_bind.
  - eapply spec_conseq; [by apply (writeTransaction_spec o true s0 (succeeded t) (fun _ => True))|done|intros ? s H; exact H|by intros s [? _]|done].
  - intros ?. eapply spec_pre with (P' := eq (with_journal o (succeeded t) s0)); [|by intros s ->].
    by eapply spec_conseq; [apply (removeObsolete_keeps o Hlay (ID t))|..].
Qed.

(** The caller that stops waiting races the helper: when the helper has proved
    readiness and is about to commit, and the caller's deadline passes, the caller
    restores the previous version without taking the host lock, and the helper then
    commits success.  The journal says that the new version is active while the old
    binary and packaging are installed. *)
Theorem update_stall_races_activation E o orig b0 b1 t cause h h1 :
  layout o -> commands_framed E o -> journal_is o t (st h) -> ID t <> EmptyString -> TargetVersion t <> EmptyString ->
  Phase t = phaseActivating -> ActivationDatabaseRestore t = None ->
  backed o orig b0 t (st h) -> database_ready o (DatabaseSnapshot t) (st h) -> bin_is o b1 (st h) ->
  version E b0 = Release.normalizeVersion (env_semver_IsValid E) (env_semver_Canonical E) (PreviousVersion t) ->
  schedule h = [] -> activation_attempt E o t h = (Done tt, h1) ->
  exists e h2 h3 t', recoverStalledActivation E o cause h1 = (Failed e, h2) /\
    activation_commit o t h2 = (Done tt, h3) /\
    journal_is o t' (st h3) /\ Phase t' = phaseSucceeded /\ Activated (t_Result t') = true /\
    bin_is o b0 (st h3) /\ restored o orig (st h3).
Proof.
  intros Hlay Hfr Hj Hid Htv Hph Hr0 Hb Hdb Hb1 Hv Hs Hatt.
  assert (Ha : spec true (eq (st h)) (activation_attempt E o t) (fun _ => kept o (st h)) (kept o (st h)) (kept o (st h))).
  { unfold activation_attempt, prepareActivationDatabase. rewrite Hr0.
    eapply spec_bind with (Q := fun _ => eq (st h)); [by apply spec_ret|]. intros ?.
    eapply spec_conseq; [by apply (activateServices_spec E o Hfr true (st h) b1)|done|by intros ? s [? _]|done..]. }
  specialize (Ha h ltac:(done) eq_refl). rewrite Hatt in Ha. destruct Ha as [Hs1 Hk]. specialize (Hs1 eq_refl).
  assert (Hw1 : forall p, under (workRoot o) p = true -> (st h1).1 !! p = (st h).1 !! p) by (intros p Hp; apply Hk; auto).
  assert (Hj1 : journal_is o t (st h1)) by (by eapply journal_ext).
  pose proof (recoverStalled_spec E o orig b0 b1 t cause (st h1) Hlay Hfr Hj1 Hid Htv Hph
    (kept_backed o orig b0 t (st h) _ Hk Hb) (ready_kept o _ (st h) _ Hk Hdb) (kept_bin o b1 (st h) _ Hk Hb1) Hv) as Hstall.
  specialize (Hstall h1 ltac:(done) eq_refl).
  destruct (recoverStalledActivation E o cause h1) as [[a|e|] h2]; [by destruct Hstall| |by destruct Hstall].
  destruct Hstall as (Hs2 & Hbin2 & Hre2). specialize (Hs2 eq_refl).
  pose proof (activation_commit_spec o t (st h2) Hlay) as Hcommit.
  specialize (Hcommit h2 ltac:(done) eq_refl).
  destruct (activation_commit o t h2) as [[[]|x|] h3] eqn:Hc; [|by destruct Hcommit|by destruct Hcommit].
  destruct Hcommit as [_ Hoff].
  exists e, h2, h3, (succeeded t). split_and!; [done|done| |done|done| |].
  - exists 384, 0, 0. rewrite Hoff by auto. apply lookup_insert_eq.
  - destruct Hbin2 as (m & u & g & Hb2). exists m, u, g. rewrite Hoff by auto. rewrite with_journal_live by (try done; by right). done.
  - intros p Hp. rewrite Hoff by auto. rewrite with_journal_live by (try done; by left). by apply Hre2.
Qed.

(** ** What a release must pass before its installer runs as root

    The commands [applyRelease] starts, and the checks behind them. *)
(** [m] starts commands of [S] only. *)
Definition runs (S : Command -> Prop) {A} (m : M A) : Prop :=
  forall h, exists l, ran (m h).2 = l ++ ran h /\ Forall (fun entry => S entry.1) l.

Section runs.
Context (S : Command -> Prop).

Lemma runs_ret {A} (a : A) : runs S (mret a : M A).
Proof. intros h. by exists []. Qed.
Lemma runs_fail {A} e : runs S (fail e : M A).
Proof. intros h. by exists []. Qed.
Lemma runs_get : runs S get.
Proof. intros h. by exists []. Qed.

Lemma runs_bind {A B} (m : M A) (k : A -> M B) : runs S m -> (forall a, runs S (k a)) -> runs S (m ≫= k).
Proof.
  intros Hm Hk h. destruct (Hm h) as (l & Hl & Hs). unfold mbind, M_bind.
  destruct (m h) as [[a|e|] h1]; simpl in *; [|by exists l..].
  destruct (Hk a h1) as (l' & Hl' & Hs'). exists (l' ++ l). rewrite Hl', Hl, app_assoc. split; [done|].
  by apply Forall_app.
Qed.

Lemma runs_wrap {A} e (m : M A) : runs S m -> runs S (wrap e m).
Proof. intros Hm h. destruct (Hm h) as (l & Hl & Hs). exists l. unfold wrap. by destruct (m h) as [[] ?]. Qed.

Lemma runs_io : runs S io.
Proof. intros h. exists []. unfold io, ask, mbind, M_bind. by destruct (schedule h) as [|[] ?]. Qed.

Lemma runs_run E o c : S c -> runs S (run E o c).
Proof.
  intros Hc h. exists [(c, default Proceed (head (schedule h)))]. split; [|by constructor].
  unfold run, ask, modify, mbind, M_bind. by destruct (schedule h) as [|[] ?].
Qed.
End runs.

#[export] Hint Resolve runs_ret runs_fail runs_get runs_io : runs.

(** Split a program into its commands. *)
Ltac runs_step :=
  repeat first
    [ progress eauto with runs
    | solve [apply runs_run; done]
    | apply runs_wrap
    | apply runs_bind; [|intros ?]
    | case_match ].

Section gate.
Context (E : environment) (o : HostOperator).

Definition checking (c : Command) : Prop := c_Name c = "ssh-keygen"%string.

Lemma signature_runs archive signature : runs checking (verifyReleaseSignature E o archive signature).
Proof.
  unfold verifyReleaseSignature, validateAllowedSigners, lstat. runs_step.
Qed.

Lemma verified_release_runs change : runs checking (verified_release E o change).
Proof.
  unfold verified_release, resolve, expectedChecksum, lift, lift_release.
  apply runs_bind; [runs_step|]. intros release. case_match; [apply runs_fail|].
  apply runs_bind; [runs_step|]. intros expected. apply runs_bind; [runs_step|]. intros archive.
  apply runs_bind; [runs_step|]. intros ?. apply runs_bind; [runs_step|]. intros signature.
  apply runs_bind; [apply signature_runs|]. intros ?.
  unfold stage, readStagedBinary, validateBinary, run_version, readReleaseManifest, lift_release. runs_step.
Qed.

(** The installer of a staged release, as root. *)
Definition installer_command : Command :=
  mk_command "/bin/bash" [path_join (staging_dir o) releaseInstallerEntry; releaseInstallerFlag;
    releaseInstallerNoStart] true EmptyString.

Lemma bind_done {A B} (m : M A) (k : A -> M B) b h h' :
  (m ≫= k) h = (Done b, h') -> exists a h1, m h = (Done a, h1) /\ k a h1 = (Done b, h').
Proof. unfold mbind, M_bind. destruct (m h) as [[a|e|] h1]; [eauto|done..]. Qed.

Lemma wrap_done {A} e (m : M A) a h h' : wrap e m h = (Done a, h') -> m h = (Done a, h').
Proof. unfold wrap. by destruct (m h) as [[] ?]. Qed.

Lemma lift_done {A} (r : result string A) a h h' : lift r h = (Done a, h') -> r = Ok a.
Proof. unfold lift. intros (? & h1 & _ & H)%bind_done. destruct r; [by injection H as <- _|done]. Qed.

Lemma lift_release_done {A} (r : result Release.error A) a h h' : lift_release r h = (Done a, h') -> r = Ok a /\ h' = h.
Proof. destruct r; [by intros [= <- <-]|done]. Qed.

Lemma run_done c a h h' : run E o c h = (Done a, h') -> (c, Proceed) ∈ ran h'.
Proof.
  unfold run. intros (x & h1 & _ & (? & h2 & Hm & H)%bind_done)%bind_done. injection Hm as _ <-.
  destruct x; [|done|done]. injection H as _ <-. simpl. apply elem_of_cons. by left.
Qed.

Lemma runs_keep (S : Command -> Prop) {A} (m : M A) h r h' entry : runs S m -> m h = (r, h') -> entry ∈ ran h -> entry ∈ ran h'.
Proof. intros Hm Heq Hc. destruct (Hm h) as (l & Hl & _). rewrite Heq in Hl. simpl in Hl. rewrite Hl. set_solver. Qed.

(** What is known when the checks passed: [h1] is the host after them. *)
Definition passed (release : Release.Release) (binary : content) (h1 : machine) : Prop :=
  isNewer (env_semver_IsValid E) (env_semver_Canonical E) (env_semver_Compare E) (Release.Version release) (installed o) = true /\
  exists raw archive signature staged disk b mode manifest,
    env_fetch E (ChecksumURL release) maxChecksumBytes = Ok raw /\
    env_fetch E (AssetURL release) maxArchiveBytes = Ok archive /\
    env_fetch E (SignatureURL release) maxSignatureBytes = Ok signature /\
    parseChecksum raw = Ok (env_sha256hex E archive) /\
    (exists path, (verify_command o path archive, Proceed) ∈ ran h1) /\
    extractRelease (env_untar E) archive = (Ok staged, disk) /\
    staged !! releaseBinaryEntry = Some (File b mode) /\ binary = Bytes b /\
    verifyReleaseAgreement (env_semver_IsValid E) (env_semver_Canonical E) (env_sha256hex E) release manifest
      (arch o) (firstField (env_reports E binary)) (env_sha256hex E archive) archive = Ok tt.

Lemma verified_release_passed change h release binary h1 :
  verified_release E o change h = (Done (release, binary), h1) -> passed release binary h1.
Proof.
  unfold verified_release. intros (rel & h2 & _ & H)%bind_done.
  destruct (negb _) eqn:Hnew in H; [done|]. apply negb_false_iff in Hnew.
  apply bind_done in H as (expected & h3 & Hexp & H).
  unfold expectedChecksum in Hexp. apply bind_done in Hexp as (raw & h4 & Hraw%lift_done & [Hsum _]%lift_release_done).
  apply bind_done in H as (archive & h5 & Harch%lift_done & H).
  apply bind_done in H as (? & h6 & [Hver _]%lift_release_done & H).
  apply bind_done in H as (signature & h7 & Hsig%wrap_done%lift_done & H).
  apply bind_done in H as (? & h8 & Hcheck & H).
  assert (Hran : exists path, (verify_command o path archive, Proceed) ∈ ran h8).
  { unfold verifyReleaseSignature in Hcheck. apply bind_done in Hcheck as (? & g1 & _ & Hcheck).
    destruct (_ || _) in Hcheck; [done|]. apply bind_done in Hcheck as (? & g2 & _ & Hcheck).
    apply bind_done in Hcheck as (? & g3 & Hrun%wrap_done%run_done & Hret). injection Hret as _ <-. eauto. }
  apply bind_done in H as (staged & h9 & Hstage & H).
  assert (Hext : extractRelease (env_untar E) archive = (Ok staged, (extractRelease (env_untar E) archive).2)).
  { unfold stage in Hstage. apply bind_done in Hstage as (? & g1 & _ & [Hx _]%lift_release_done).
    rewrite <-Hx. by destruct (extractRelease _ _). }
  apply bind_done in H as (bin & h10 & Hbin & H).
  assert (Hb : exists b mode, staged !! releaseBinaryEntry = Some (File b mode) /\ bin = Bytes b).
  { unfold readStagedBinary in Hbin. destruct (staged !! releaseBinaryEntry) as [[|b mode]|]; [done| |done].
    destruct (_ <? _) in Hbin; [done|]. apply bind_done in Hbin as (? & ? & _ & Hret). injection Hret as <- _. eauto. }
  apply bind_done in H as (reported & h11 & Hval & H).
  assert (Hrep : reported = firstField (env_reports E bin)).
  { unfold validateBinary in Hval. apply bind_done in Hval as (? & ? & _ & Hval).
    apply bind_done in Hval as (r & ? & Hrv & Hval). unfold run_version in Hrv. apply bind_done in Hrv as (? & ? & _ & Hrv).
    destruct (_ && _) in Hrv; [done|]. injection Hrv as <- _. destruct (isPlausibleVersion _ _ _) in Hval; [|done].
    by injection Hval as <- _. }
  apply bind_done in H as (manifest & h12 & Hman & H).
  apply bind_done in H as ([] & h13 & [Hag ->]%lift_release_done & Hret). injection Hret as -> -> <-.
  split; [done|]. destruct Hb as (b & mode & Hlook & Hbb).
  unfold verifyChecksum in Hver. apply guard_Ok, bool_decide_eq_true in Hver as <-.
  exists raw, archive, signature, staged, (extractRelease (env_untar E) archive).2, b, mode, manifest.
  split_and!; try done; [|by rewrite <-Hrep].
  destruct Hran as [path Hran]. exists path.
  eapply (runs_keep checking); [|exact Hman|]; [unfold readReleaseManifest, lift_release; runs_step|].
  eapply (runs_keep checking); [|exact Hval|]; [unfold validateBinary, run_version; runs_step|].
  eapply (runs_keep checking); [|exact Hbin|]; [unfold readStagedBinary; runs_step|].
  eapply (runs_keep checking); [|exact Hstage|]; [unfold stage, lift_release; runs_step|done].
Qed.
End gate.

(** ** Property *)

(** C5. The installer of a release runs as root only after every check: if
    [applyRelease] started the installer, then the release is newer than the node,
    its archive has the published digest, [ssh-keygen] was started on its detached
    signature over exactly these bytes with the pinned key and succeeded, the archive
    extracted inside the release layout, and every statement of the version and the
    architecture agrees, down to the version the extracted binary reports. *)
Theorem update_installer_gated E o id change h r h' :
  applyRelease E o id change h = (r, h') -> installer_command o ∈ (ran h').*1 -> installer_command o ∉ (ran h).*1 ->
  exists release binary h1, verified_release E o change h = (Done (release, binary), h1) /\ passed E o release binary h1.
Proof.
  intros Happ Hin Hout. unfold applyRelease in Happ.
  destruct (verified_release E o change h) as [[[release binary]|e|] h1] eqn:Hv.
  - exists release, binary, h1. split; [done|]. by eapply verified_release_passed.
  - exfalso. unfold mbind, M_bind in Happ. rewrite Hv in Happ. injection Happ as _ <-.
    destruct (verified_release_runs E o change h) as (l & Hl & Hs). rewrite Hv in Hl. simpl in Hl.
    rewrite Hl, fmap_app in Hin. apply elem_of_app in Hin as [(entry & Heq & Hin)%list_elem_of_fmap|?]; [|done].
    rewrite Forall_forall in Hs. apply Hs in Hin. by rewrite <-Heq in Hin.
  - exfalso. unfold mbind, M_bind in Happ. rewrite Hv in Happ. injection Happ as _ <-.
    destruct (verified_release_runs E o change h) as (l & Hl & Hs). rewrite Hv in Hl. simpl in Hl.
    rewrite Hl, fmap_app in Hin. apply elem_of_app in Hin as [(entry & Heq & Hin)%list_elem_of_fmap|?]; [|done].
    rewrite Forall_forall in Hs. apply Hs in Hin. by rewrite <-Heq in Hin.
Qed.
