(* ===== verification/UpdateSamples.v ===== *)
(** * A concrete node and a concrete update *)

From S2P Require Import Prelude GoStrings Json Release Update UpdateOps UpdateLogic.
From S2P Require Import UpdateRestore UpdateActivate UpdateCapture UpdateSafety UpdateApply UpdateProps.

Local Open Scope Z_scope.

#[export] Instance snapshot_eq_dec : EqDecision controlDatabaseSnapshot.
Proof. solve_decision. Defined.
#[export] Instance phase_eq_dec : EqDecision transactionPhase.
Proof. solve_decision. Defined.
#[export] Instance result_eq_dec : EqDecision Result.
Proof. solve_decision. Defined.
#[export] Instance transaction_eq_dec : EqDecision updateTransaction.
Proof. solve_decision. Defined.
#[export] Instance entry_eq_dec : EqDecision snapshotEntry.
Proof. solve_decision. Defined.
#[export] Instance content_eq_dec : EqDecision content.
Proof. solve_decision. Defined.
#[export] Instance node_eq_dec : EqDecision node.
Proof. solve_decision. Defined.

#[export] Instance command_eq_dec : EqDecision Command.
Proof. solve_decision. Defined.

Module Node.
Definition unit_path : string := "/usr/lib/systemd/system/nexa-api.service".
Definition link_path : string := "/etc/nginx/sites-enabled/nexa-panel.conf".
Definition new_path : string := "/usr/sbin/nexa-uninstall".

Definition operator : HostOperator :=
  mk_operator "0.1.0" "/usr/bin/nexa" "/var/lib/nexa-panel/control.db" "/var/lib/nexa-panel-update"
    "/run/lock/nexa-panel-lifecycle.lock" "/etc/nexa-panel/release-signers"
    [unit_path; link_path; new_path] "/var/lib/dpkg" "amd64".

Definition old_binary : content := Bytes "0.1.0 (old)".
Definition new_binary : content := Bytes "0.2.0 (new)".

Definition node_files : filesystem := list_to_map [
  (binaryPath operator, Reg old_binary 493 0 0);
  (databasePath operator, Reg (Bytes "schema 1") 384 100 100);
  (allowedSignersPath operator, Reg (Bytes "nexa-panel-release ssh-ed25519 AAAA") 420 0 0);
  (packageStateDir operator, Special);
  (unit_path, Reg (Bytes "unit 0.1.0") 420 0 0);
  (link_path, Link "/etc/nginx/sites-available/nexa-panel.conf" 0 0)].
Definition start (schedule : list answer) : machine := mk_machine node_files (Some old_binary) schedule [].

(** The installer writes the unit and a new file; a started API migrates the
    database. *)
Definition command_effect (c : Command) (a : answer) (fs : filesystem) : filesystem :=
  if bool_decide (c_Name c = "/bin/bash"%string) then
    <[unit_path := Reg (Bytes "unit 0.2.0") 420 0 0]> (<[new_path := Reg (Bytes "uninstall") 493 0 0]> fs)
  else if bool_decide (c_Name c = "systemctl"%string) && bool_decide (head (c_Args c) = Some "restart"%string) then
    <[databasePath operator := Reg (Bytes "schema 2") 384 100 100]> fs
  else fs.

Definition stamp : string :=
  "version=v0.2.0" +:+ newline1 +:+ "commit=1a2b" +:+ newline1 +:+ "arch=amd64" +:+ newline1 +:+ "built_at=now".
Definition digest : string := "aaaaaaaaaaaaaaaaaaaaaaaaaaaaaaaaaaaaaaaaaaaaaaaaaaaaaaaaaaaaaaaa".
Definition release : Release.Release :=
  Release.mk_release "0.2.0" "v0.2.0" "" "nexa-panel-linux-amd64.tar.gz" "archive" "checksum" "signature" 0.
Definition env : environment :=
  mk_environment
    (fun v => negb (bool_decide (v = "v"%string))) (fun v => v)
    (fun a b => if bool_decide (a = b) then 0 else if str_leb a b then -1 else 1)
    (fun _ => digest)
    (fun _ => Some ([mk_member "n/bin/nexa" TypeReg 11 "0.2.0 (new)" true;
                     mk_member "n/scripts/install.sh" TypeReg 2 "#!" true;
                     mk_member "n/RELEASE" TypeReg (len stamp) stamp true], true))
    (fun _ _ => None)
    (fun c => match c with Bytes b => b | _ => EmptyString end)
    command_effect (fun _ => EmptyString) (fun c _ => c)
    (fun c => match c with Bytes b => len b | _ => 0 end)
    (fun _ => Ok release) (fun _ _ => Ok release)
    (fun url _ => if bool_decide (url = "checksum"%string) then Ok (digest +:+ "  nexa.tar.gz")
                  else if bool_decide (url = "signature"%string) then Ok "sig"%string else Ok "bytes"%string) 0.

Definition apply (schedule : list answer) : outcome Result * machine :=
  applyRelease env operator "t1" EmptyString (start schedule).
Definition recover (h : machine) : machine :=
  (RecoverTransaction env operator (transactionPath operator) (with_schedule [] h)).2.
Definition journal_of (h : machine) : option updateTransaction :=
  match files h !! transactionPath operator with Some (Reg (Journal t) _ _ _) => Some t | _ => None end.

(** The host is the old one, with a record that the update was undone or without any
    record, or the new one. *)
Definition whole (h : machine) : bool :=
  let file p := files h !! p in
  let old := bool_decide (file unit_path = Some (Reg (Bytes "unit 0.1.0") 420 0 0)) &&
             bool_decide (file new_path = None) && bool_decide (file (binaryPath operator) = Some (Reg old_binary 493 0 0)) in
  let new := bool_decide (file unit_path = Some (Reg (Bytes "unit 0.2.0") 420 0 0)) &&
             bool_decide (file (binaryPath operator) = Some (Reg new_binary 493 0 0)) in
  match journal_of h with
  | None => old
  | Some t => match Phase t with
              | phaseSucceeded => new
              | phaseFailed => old && RolledBack (t_Result t)
              | _ => false
              end
  end.

Definition crashed (n : nat) : machine := (apply (replicate n Proceed ++ [Die])).2.

(** Wherever the process dies in the 51 operations of this update, one recovery
    makes the node whole. *)
Example crash_anywhere : forallb (fun n => whole (recover (crashed n))) (seq 0 51) = true.
Proof. vm_compute. reflexivity. Qed.

(** *** The assumptions hold of this node *)
Lemma sample_layout : layout operator.
Proof. split; vm_compute; repeat constructor; set_solver. Qed.

Lemma sample_framed : commands_framed env operator.
Proof.
  assert (H : forall c a fs p, p <> unit_path -> p <> new_path -> p <> databasePath operator ->
    command_effect c a fs !! p = fs !! p).
  { intros c a fs p H1 H2 H3. unfold command_effect. repeat case_match; rewrite ?lookup_insert_ne by done; done. }
  split.
  - intros c a fs p Hp. apply H; intros ->; destruct Hp as [Hp|Hp]; vm_compute in Hp; done.
  - intros c a fs p Hc Hp. apply orb_false_iff in Hc as [[[H1 _]%orb_false_iff _]%orb_false_iff _].
    apply bool_decide_eq_false in H1. cbn. unfold command_effect. rewrite bool_decide_eq_false_2 by done.
    case_match; [|done]. apply lookup_insert_ne. intros <-. revert Hp.
    apply (bool_decide_eq_false_1 (databasePath operator ∈ managedPaths operator)). reflexivity.
Qed.

Lemma sample_setting : setting env operator node_files old_binary "t1"%string.
Proof.
  split; try done.
  - apply sample_layout.
  - apply sample_framed.
  - exists 493, 0, 0. reflexivity.
  - intros p t u g Hp. cbn in Hp. repeat (apply elem_of_cons in Hp as [->|Hp]); [| | |by apply elem_of_nil in Hp];
      vm_compute; intros [=]; by subst.
  - intros v. cbn. by rewrite bool_decide_eq_true_2.
Qed.

(** What [applyRelease] left on the node, when there is an open transaction. *)
Lemma sample_open schedule t :
  journal_of (apply schedule).2 = Some t -> Phase t = phasePrepared \/ Phase t = phaseActivating ->
  journal_is operator t (st (apply schedule).2) /\ ID t = "t1"%string /\ base operator node_files old_binary "t1"%string "0.2.0"%string t (st (apply schedule).2).
Proof.
  intros Hj Hph. pose proof sample_setting as [Hlay Hfr Hid Hbin Hlinks _ _ _ _].
  pose proof (applyRelease_spec env operator Hlay Hfr node_files old_binary "t1"%string EmptyString Hbin Hlinks (start schedule)
    ltac:(done) ltac:(by intros p _)) as Hspec.
  fold (apply schedule) in Hspec. set (run := apply schedule) in *.
  assert (Hjournal : journal_is operator t (st run.2)).
  { unfold journal_of in Hj. destruct (files run.2 !! transactionPath operator) as [[[| |] m u g| |]|] eqn:Hx; try done.
    injection Hj as ->. by exists m, u, g. }
  assert (Hinv : forall b1 inst target, inv operator node_files old_binary "t1"%string b1 inst target (st run.2) ->
    journal_is operator t (st run.2) /\ ID t = "t1"%string /\ base operator node_files old_binary "t1"%string "0.2.0"%string t (st run.2)).
  { intros b1 inst target (t' & Hj' & Hi & _ & Hp). assert (t' = t) as ->.
    { destruct Hjournal as (? & ? & ? & H1), Hj' as (? & ? & ? & H2). congruence. }
    unfold phase_inv in Hp. destruct Hph as [Hph|Hph]; rewrite Hph in Hp; destruct Hp as [[? ? ? ? ? ?] _]; split_and!; [done..|by constructor]. }
  assert (Happ : applied env operator node_files old_binary "t1"%string (st run.2) ->
    journal_is operator t (st run.2) /\ ID t = "t1"%string /\ base operator node_files old_binary "t1"%string "0.2.0"%string t (st run.2)).
  { intros [Hu|(b1 & inst & target & _ & _ & Hi)]; [|by eapply Hinv].
    exfalso. destruct Hjournal as (m & u & g & Hx). rewrite (Hu (transactionPath operator)) in Hx by auto. done. }
  clearbody run. destruct run as [[a|e|] h]; destruct Hspec as [_ Hspec]; [|by apply Happ..].
  destruct Hspec as (b1 & target & _ & _ & Hi & _). by eapply Hinv.
Qed.

(** *** Witnesses *)
Lemma sample_done {A} (r : outcome A * machine) a : r.1 = Done a -> r = (Done a, r.2).
Proof. destruct r as [x h]. simpl. by intros ->. Qed.

(** The process dies between the new binary and its journal entry. *)
Definition interrupted : list answer := replicate 47 Proceed ++ [Die].
Definition interrupted_host : machine := (apply interrupted).2.
Definition handed_over : machine := (apply []).2.
Definition open_transaction (h : machine) : updateTransaction :=
  default (mk_transaction EmptyString EmptyString EmptyString phaseFailed EmptyString EmptyString
    (mk_dbsnap EmptyString false false 0 0 0) None false EmptyString false zero_result 0) (journal_of h).

(** After the reboot the API serves from the new binary and migrates the database. *)
Definition rebooted : machine :=
  mk_machine (<[databasePath operator := Reg (Bytes "schema 2") 384 100 100]> (files interrupted_host))
    (Some new_binary) [] (ran interrupted_host).

Lemma update_crash_recoverable_witness :
  let h3 := recover rebooted in
  untouched operator node_files (st h3) \/
  outcome_of env operator node_files old_binary "t1" rebooted h3
    ((exists a, (apply interrupted).1 = Done a) ->
     forall p, p ∈ managedPaths operator -> files h3 !! p = files interrupted_host !! p).
Proof.
  apply (update_crash_recoverable env operator node_files old_binary "t1" EmptyString (start interrupted)).
  - exact sample_setting.
  - reflexivity.
  - apply surjective_pairing.
  - apply rtc_once, life_drift. intros p Hp. apply lookup_insert_ne. intros <-.
    destruct Hp as [Hp|[Hp|Hp]]; [|vm_compute in Hp; discriminate..]. revert Hp.
    apply (bool_decide_eq_false_1 (databasePath operator ∈ managedPaths operator)). reflexivity.
  - exact I.
Defined.

Lemma update_snapshot_roundtrip_witness :
  exists directory h1 h3, createHostSnapshot env operator "t1" (start []) = (Done directory, h1) /\
    restoreHostSnapshot env directory h1 = (Done tt, h3) /\
    forall p, p ∈ managedPaths operator -> files h3 !! p = norm <$> node_files !! p.
Proof.
  set (run := createHostSnapshot env operator "t1" (start [])).
  assert (H : run = (Done (snapshot_dir operator "t1"), run.2)) by (apply sample_done; vm_compute; reflexivity).
  assert (Hs : schedule run.2 = []) by (vm_compute; reflexivity).
  destruct (update_snapshot_roundtrip env operator "t1" (start []) _ run.2 run.2 sample_layout
    (set_links _ _ _ _ _ sample_setting) H (fun _ _ => eq_refl) Hs) as (h3 & Hr & Hm & _).
  exists (snapshot_dir operator "t1"), run.2, h3. split; [exact H|]. split; [exact Hr|exact Hm].
Defined.

Lemma interrupted_open :
  journal_is operator (open_transaction interrupted_host) (st interrupted_host) /\
  base operator node_files old_binary "t1"%string "0.2.0" (open_transaction interrupted_host) (st interrupted_host).
Proof.
  destruct (sample_open interrupted (open_transaction interrupted_host)) as (? & _ & ?); [vm_compute; reflexivity| |done].
  left. vm_compute. reflexivity.
Qed.

Lemma handed_over_open :
  journal_is operator (open_transaction handed_over) (st handed_over) /\
  base operator node_files old_binary "t1"%string "0.2.0" (open_transaction handed_over) (st handed_over).
Proof.
  destruct (sample_open [] (open_transaction handed_over)) as (? & _ & ?); [vm_compute; reflexivity| |done].
  right. vm_compute. reflexivity.
Qed.

Lemma rebooted_work p : under (workRoot operator) p = true -> (st rebooted).1 !! p = (st interrupted_host).1 !! p.
Proof. intros Hp. apply lookup_insert_ne. intros <-. vm_compute in Hp. discriminate. Qed.

Lemma update_recovery_keeps_new_schema_witness :
  exists h', RecoverTransaction env operator (transactionPath operator) rebooted = (Done tt, h') /\
    bin_is operator old_binary (st h') /\ serving h' = Some new_binary /\
    files h' !! databasePath operator = Some (Reg (Bytes "schema 2") 384 100 100).
Proof.
  destruct (update_recovery_keeps_new_schema env operator node_files old_binary (open_transaction interrupted_host) rebooted)
    as (h' & t' & Hr & _ & _ & _ & Hb & _ & Hs & Hd).
  - exact sample_layout.
  - exact sample_framed.
  - intros c a fs p [Hc|Hc] Hp; cbn; unfold command_effect; rewrite Hc; reflexivity.
  - apply (journal_ext operator (open_transaction interrupted_host) (st interrupted_host) _ rebooted_work).
    apply interrupted_open.
  - vm_compute. discriminate.
  - vm_compute. discriminate.
  - vm_compute. reflexivity.
  - apply (backed_ext operator node_files old_binary _ (st interrupted_host) _ rebooted_work).
    exact (base_backed _ _ _ _ _ _ _ (proj2 interrupted_open)).
  - exact I.
  - reflexivity.
  - exists h'. split; [exact Hr|]. split; [exact Hb|]. split; [exact Hs|].
    rewrite Hd by (apply elem_of_cons; left; reflexivity). vm_compute. reflexivity.
Defined.

Lemma update_stall_races_activation_witness :
  exists h1 e h2 h3 t', activation_attempt env operator (open_transaction handed_over) handed_over = (Done tt, h1) /\
    recoverStalledActivation env operator deadline h1 = (Failed e, h2) /\
    activation_commit operator (open_transaction handed_over) h2 = (Done tt, h3) /\
    journal_is operator t' (st h3) /\ Phase t' = phaseSucceeded /\ bin_is operator old_binary (st h3).
Proof.
  set (run := activation_attempt env operator (open_transaction handed_over) handed_over).
  assert (H : run = (Done tt, run.2)) by (apply sample_done; vm_compute; reflexivity).
  destruct handed_over_open as [Hj Hb].
  destruct (update_stall_races_activation env operator node_files old_binary new_binary (open_transaction handed_over)
    deadline handed_over run.2) as (e & h2 & h3 & t' & H1 & H2 & H3 & H4 & _ & H6 & _).
  - exact sample_layout.
  - exact sample_framed.
  - exact Hj.
  - vm_compute. discriminate.
  - vm_compute. discriminate.
  - vm_compute. reflexivity.
  - exact (base_restore _ _ _ _ _ _ _ Hb).
  - exact (base_backed _ _ _ _ _ _ _ Hb).
  - exact (base_database _ _ _ _ _ _ _ Hb).
  - exists 493, 0, 0. vm_compute. reflexivity.
  - vm_compute. reflexivity.
  - vm_compute. reflexivity.
  - exact H.
  - exists run.2, e, h2, h3, t'. repeat (split; [assumption || reflexivity|]). exact H6.
Defined.

Lemma update_installer_gated_witness :
  exists release binary h1, verified_release env operator EmptyString (start []) = (Done (release, binary), h1) /\
    passed env operator release binary h1.
Proof.
  apply (update_installer_gated env operator "t1" EmptyString (start []) (apply []).1 (apply []).2).
  - apply surjective_pairing.
  - apply (bool_decide_eq_true_1 (installer_command operator ∈ (ran (apply []).2).*1)). vm_compute. reflexivity.
  - apply (bool_decide_eq_false_1 (installer_command operator ∈ (ran (start [])).*1)). vm_compute. reflexivity.
Defined.
End Node.
