(* ===== verification/Codec.v ===== *)
(** * Binary text encodings

    [encoding/base64] (the raw standard alphabet), [encoding/base32] (without
    padding) and [encoding/hex], as the panel uses them.  The first two are the same
    regrouping of a bit stream: bytes to groups of 6 or 5 bits, the last one padded
    with zeros, and back. *)

From Stdlib Require Import Ascii.
From S2P Require Import Prelude GoStrings.

Local Open Scope Z_scope.

(** ** Bit streams *)

(** The bits of a byte, the highest first. *)
Definition byte_bits (c : ascii) : list bool :=
  let '(Ascii b0 b1 b2 b3 b4 b5 b6 b7) := c in [b7; b6; b5; b4; b3; b2; b1; b0].
Definition bits_byte (l : list bool) : ascii :=
  match l with
  | [b7; b6; b5; b4; b3; b2; b1; b0] => Ascii b0 b1 b2 b3 b4 b5 b6 b7
  | _ => zero
  end.

Fixpoint bits_of (s : string) : list bool :=
  match s with EmptyString => [] | String c t => byte_bits c ++ bits_of t end.

(** Whole bytes; an incomplete last one is dropped. *)
Fixpoint bytes_of (fuel : nat) (l : list bool) : string :=
  match fuel with
  | O => EmptyString
  | S f => if (length l <? 8)%nat then EmptyString
           else String (bits_byte (take 8 l)) (bytes_of f (drop 8 l))
  end.

Definition bits_val (l : list bool) : nat := foldl (fun acc (b : bool) => (2 * acc + (if b then 1 else 0))%nat) 0%nat l.
Fixpoint val_bits (k v : nat) : list bool :=
  match k with O => [] | S k' => val_bits k' (Nat.div2 v) ++ [Nat.odd v] end.

(** ** Groups of [k] bits in an alphabet *)
Section alphabet.
Context (k : nat) (alphabet : string).

Definition digit (v : nat) : ascii := default zero (String.get v alphabet).
Fixpoint index_of (v : nat) (c : ascii) (s : string) : option nat :=
  match s with
  | EmptyString => None
  | String d t => if Ascii.eqb c d then Some v else index_of (S v) c t
  end.

Fixpoint encode_bits (fuel : nat) (l : list bool) : string :=
  match fuel, l with
  | S f, _ :: _ =>
      String (digit (bits_val (take k l ++ replicate (k - length l) false))) (encode_bits f (drop k l))
  | _, _ => EmptyString
  end.
Definition encode (s : string) : string := encode_bits (8 * String.length s) (bits_of s).

Fixpoint decode_bits (s : string) : option (list bool) :=
  match s with
  | EmptyString => Some []
  | String c t =>
      match index_of 0 c alphabet, decode_bits t with
      | Some v, Some l => Some (val_bits k v ++ l)
      | _, _ => None
      end
  end.
End alphabet.

(** Line breaks are skipped when decoding. *)
Fixpoint strip_newlines (s : string) : string :=
  match s with
  | EmptyString => EmptyString
  | String c t => if byte_eq 10 c || byte_eq 13 c then strip_newlines t else String c (strip_newlines t)
  end.

Definition base64_alphabet : string := "ABCDEFGHIJKLMNOPQRSTUVWXYZabcdefghijklmnopqrstuvwxyz0123456789+/".
Definition base32_alphabet : string := "ABCDEFGHIJKLMNOPQRSTUVWXYZ234567".

Definition base64url_alphabet : string := "ABCDEFGHIJKLMNOPQRSTUVWXYZabcdefghijklmnopqrstuvwxyz0123456789-_".

(** [base64.RawStdEncoding] and [base64.RawURLEncoding]: a last quantum of one character
    is an error; surplus bits are dropped. *)
Definition decode64 (alphabet s : string) : option string :=
  let s := strip_newlines s in
  if len s mod 4 =? 1 then None
  else match decode_bits 6 alphabet s with
       | Some l => Some (bytes_of (length l) l)
       | None => None
       end.
Definition base64_encode : string -> string := encode 6 base64_alphabet.
Definition base64_decode : string -> option string := decode64 base64_alphabet.
Definition base64url_encode : string -> string := encode 6 base64url_alphabet.
Definition base64url_decode : string -> option string := decode64 base64url_alphabet.

(** [base32.StdEncoding.WithPadding(NoPadding)]: a last quantum of 1, 3 or 6
    characters yields nothing. *)
Definition base32_encode : string -> string := encode 5 base32_alphabet.
Definition base32_decode (s : string) : option string :=
  let s := strip_newlines s in
  match decode_bits 5 base32_alphabet s with
  | Some l =>
      let tail := len s mod 8 in
      let keep := if (tail =? 1) || (tail =? 3) || (tail =? 6) then (String.length s - Z.to_nat tail)%nat
                  else String.length s in
      let l := take (5 * keep) l in Some (bytes_of (length l) l)
  | None => None
  end.

(** [hex.EncodeToString] *)
Definition hex_alphabet : string := "0123456789abcdef".
Definition hex_encode : string -> string := encode 4 hex_alphabet.

(** [strings.ToUpper], as far as ASCII results go: the ASCII letters, and the two other
    runes whose upper case is an ASCII letter (the dotless i, the long s). *)
Definition upper_byte (c : ascii) : ascii :=
  if is_lower c then ascii_of_N (byte_val c - 32) else c.
Fixpoint to_upper (s : string) : string :=
  match s with
  | EmptyString => EmptyString
  | String a (String b r as t) =>
      if byte_eq 196 a && byte_eq 177 b then String "I" (to_upper r)
      else if byte_eq 197 a && byte_eq 191 b then String "S" (to_upper r)
      else String (upper_byte a) (to_upper t)
  | String a EmptyString => String (upper_byte a) EmptyString
  end.

(** ** Round trips *)
Lemma bits_byte_bits c : bits_byte (byte_bits c) = c.
Proof. by destruct c. Qed.
Lemma byte_bits_length c : length (byte_bits c) = 8%nat.
Proof. by destruct c. Qed.
Lemma bits_of_length s : length (bits_of s) = (8 * String.length s)%nat.
Proof. induction s as [|c s IH]; simpl; [done|]. rewrite length_app, byte_bits_length, IH. lia. Qed.

(** A surplus of less than a byte is dropped. *)
Lemma bytes_of_bits s pad fuel :
  (length pad < 8)%nat -> (String.length s <= fuel)%nat -> bytes_of fuel (bits_of s ++ pad) = s.
Proof.
  intros Hp. revert fuel. induction s as [|c s IH]; intros [|fuel] Hf; simpl in *; try lia; try done.
  - by rewrite (proj2 (Nat.ltb_lt _ _)).
  - rewrite <-app_assoc. pose proof (byte_bits_length c) as Hc.
    rewrite (proj2 (Nat.ltb_ge _ _)) by (rewrite length_app, Hc; lia).
    rewrite take_app_length', drop_app_length' by done. rewrite bits_byte_bits, IH by lia. done.
Qed.

Lemma bits_val_snoc l b : bits_val (l ++ [b]) = (2 * bits_val l + (if b then 1 else 0))%nat.
Proof. unfold bits_val. by rewrite foldl_app. Qed.

Lemma val_bits_val l : val_bits (length l) (bits_val l) = l.
Proof.
  induction l as [|b l IH] using rev_ind; [done|].
  rewrite length_app, bits_val_snoc. cbn [length]. rewrite Nat.add_1_r. cbn [val_bits].
  assert (Nat.div2 (2 * bits_val l + (if b then 1 else 0)) = bits_val l) as ->.
  { rewrite Nat.div2_div. destruct b; [|rewrite Nat.add_0_r]; rewrite Nat.mul_comm.
    - by rewrite Nat.div_add_l.
    - by rewrite Nat.div_mul. }
  rewrite IH. do 2 f_equal. destruct b; [by rewrite Nat.odd_odd|by rewrite Nat.add_0_r, Nat.odd_even].
Qed.

Lemma bits_val_lt l : (bits_val l < 2 ^ length l)%nat.
Proof.
  induction l as [|b l IH] using rev_ind; [cbv; lia|].
  rewrite length_app, bits_val_snoc, Nat.add_1_r. simpl. destruct b; lia.
Qed.

(** An alphabet names every group once. *)
Definition alphabet_ok (k : nat) (alphabet : string) : Prop :=
  forall v, (v < 2 ^ k)%nat -> index_of 0 (digit alphabet v) alphabet = Some v.

Lemma alphabet_check k alphabet :
  forallb (fun v => bool_decide (index_of 0 (digit alphabet v) alphabet = Some v)) (seq 0 (2 ^ k)) = true ->
  alphabet_ok k alphabet.
Proof.
  intros H v Hv. rewrite forallb_forall in H. specialize (H v). rewrite in_seq in H.
  apply (bool_decide_eq_true_1 _), H. lia.
Qed.

Lemma decode_encode_bits k alphabet fuel l :
  (0 < k)%nat -> alphabet_ok k alphabet -> (length l <= fuel)%nat ->
  exists pad, (length pad < k)%nat /\ decode_bits k alphabet (encode_bits k alphabet fuel l) = Some (l ++ pad).
Proof.
  intros Hk Ha. revert l. induction fuel as [|fuel IH]; intros [|b l] Hl;
    [by exists []|simpl in Hl; lia|by exists []|].
  cbn [encode_bits decode_bits]. set (m := b :: l) in *. set (g := take k m ++ replicate (k - length m) false).
  assert (Hg : length g = k) by (unfold g; rewrite length_app, length_take, length_replicate; lia).
  rewrite Ha by (rewrite <-Hg; apply bits_val_lt).
  assert (Hval : val_bits k (bits_val g) = g) by (rewrite <-Hg; apply val_bits_val). rewrite Hval.
  destruct (decide (length m <= k)%nat) as [Hle|Hgt].
  - exists (replicate (k - length m) false). unfold g. rewrite drop_ge, take_ge by lia.
    assert (encode_bits k alphabet fuel [] = EmptyString) as -> by (by destruct fuel).
    cbn [decode_bits]. rewrite app_nil_r. split; [|done]. rewrite length_replicate. subst m. simpl in *. lia.
  - destruct (IH (drop k m)) as (pad & Hpad & ->); [rewrite length_drop; subst m; simpl in *; lia|].
    exists pad. split; [done|]. unfold g. replace (k - length m)%nat with 0%nat by lia.
    rewrite app_nil_r, app_assoc, take_drop. done.
Qed.

Lemma val_bits_length k v : length (val_bits k v) = k.
Proof. revert v. induction k as [|k IH]; intros v; simpl; [done|]. rewrite length_app, IH. simpl. lia. Qed.

Lemma decode_bits_length k alphabet s l :
  decode_bits k alphabet s = Some l -> length l = (k * String.length s)%nat.
Proof.
  revert l. induction s as [|c s IH]; simpl; [intros l [= <-]; by rewrite Nat.mul_0_r|].
  destruct (index_of _ _ _); [|done]. destruct (decode_bits _ _ s) as [l'|]; [|done].
  intros l [= <-]. rewrite length_app, val_bits_length, (IH l' eq_refl), Nat.mul_succ_r. lia.
Qed.

Lemma encode_bits_alphabet k alphabet (p : ascii -> bool) fuel l :
  (forall v, p (digit alphabet v) = true) -> all_bytes p (encode_bits k alphabet fuel l) = true.
Proof.
  intros Hp. revert l. induction fuel as [|fuel IH]; intros [|b l]; try done.
  cbn [encode_bits all_bytes]. by rewrite Hp, IH.
Qed.

(** The number of characters. *)
Lemma encode_bits_length k alphabet fuel l :
  (0 < k)%nat -> (length l <= fuel)%nat ->
  (k * String.length (encode_bits k alphabet fuel l) < length l + k)%nat /\
  (length l <= k * String.length (encode_bits k alphabet fuel l))%nat.
Proof.
  intros Hk. revert l. induction fuel as [|fuel IH]; intros [|b l] Hl; try (simpl in *; lia).
  cbn [encode_bits String.length]. specialize (IH (drop k (b :: l))). rewrite length_drop in IH.
  destruct IH as [H1 H2]; [simpl in *; lia|].
  destruct (decide (length (b :: l) <= k)%nat) as [Hle|Hgt].
  - rewrite drop_ge in * by done. assert (encode_bits k alphabet fuel [] = EmptyString) as Heq by (by destruct fuel).
    rewrite Heq in *. simpl in *. lia.
  - simpl in *. lia.
Qed.

Lemma strip_newlines_none s :
  all_bytes (fun c => negb (byte_eq 10 c || byte_eq 13 c)) s = true -> strip_newlines s = s.
Proof.
  induction s as [|c s IH]; simpl; [done|]. intros [Hc Hs]%andb_prop. apply negb_true_iff in Hc.
  by rewrite Hc, IH.
Qed.

Lemma digit_check alphabet (p : ascii -> bool) :
  p zero = true -> all_bytes p alphabet = true -> forall v, p (digit alphabet v) = true.
Proof.
  intros Hz. unfold digit. induction alphabet as [|c t IH]; simpl; [by intros|].
  intros [Hc Ht]%andb_prop [|v]; simpl; [done|]. by apply IH.
Qed.

Lemma encode_plain k alphabet s :
  all_bytes (fun c => negb (byte_eq 10 c || byte_eq 13 c)) alphabet = true ->
  strip_newlines (encode k alphabet s) = encode k alphabet s.
Proof.
  intros Ha. apply strip_newlines_none, encode_bits_alphabet. intros v.
  by apply (digit_check alphabet (fun c => negb (byte_eq 10 c || byte_eq 13 c))).
Qed.

Lemma decode64_encode alphabet s : alphabet_ok 6 alphabet ->
  all_bytes (fun c => negb (byte_eq 10 c || byte_eq 13 c)) alphabet = true ->
  decode64 alphabet (encode 6 alphabet s) = Some s.
Proof.
  intros Halpha Hplain. unfold decode64. rewrite encode_plain by done. cbv zeta.
  pose proof (bits_of_length s) as Hlen.
  destruct (encode_bits_length 6 alphabet (8 * String.length s) (bits_of s)) as [H1 H2]; [lia|lia|].
  fold (encode 6 alphabet s) in H1, H2.
  assert (len (encode 6 alphabet s) mod 4 =? 1 = false) as ->.
  { apply Z.eqb_neq. unfold len. intros Hm.
    pose proof (Z_div_mod_eq_full (Z.of_nat (String.length (encode 6 alphabet s))) 4). lia. }
  destruct (decode_encode_bits 6 alphabet (8 * String.length s) (bits_of s)) as (pad & Hpad & Hd); [lia|done|lia|].
  fold (encode 6 alphabet s) in Hd. rewrite Hd. f_equal. apply bytes_of_bits; [lia|].
  rewrite length_app, Hlen. lia.
Qed.

Lemma base64_roundtrip s : base64_decode (base64_encode s) = Some s.
Proof. apply decode64_encode; [by apply alphabet_check; vm_compute|done]. Qed.
Lemma base64url_roundtrip s : base64url_decode (base64url_encode s) = Some s.
Proof. apply decode64_encode; [by apply alphabet_check; vm_compute|done]. Qed.

Lemma base32_roundtrip s : base32_decode (base32_encode s) = Some s.
Proof.
  unfold base32_decode, base32_encode. rewrite encode_plain by done. cbv zeta.
  pose proof (bits_of_length s) as Hlen.
  destruct (encode_bits_length 5 base32_alphabet (8 * String.length s) (bits_of s)) as [H1 H2]; [lia|lia|].
  fold (encode 5 base32_alphabet s) in H1, H2. set (e := encode 5 base32_alphabet s) in *.
  assert (Htail : (len e mod 8 =? 1) || (len e mod 8 =? 3) || (len e mod 8 =? 6) = false).
  { unfold len. pose proof (Z_div_mod_eq_full (Z.of_nat (String.length e)) 8).
    rewrite !orb_false_iff, !Z.eqb_neq. lia. }
  rewrite Htail.
  destruct (decode_encode_bits 5 base32_alphabet (8 * String.length s) (bits_of s)) as (pad & Hpad & Hd);
    [lia|by apply alphabet_check; vm_compute|lia|].
  fold (encode 5 base32_alphabet s) in Hd. fold e in Hd. rewrite Hd. f_equal.
  assert (Hl : take (5 * String.length e) (bits_of s ++ pad) = bits_of s ++ pad).
  { apply take_ge. rewrite (decode_bits_length _ _ _ _ Hd). lia. }
  rewrite Hl. apply bytes_of_bits; [lia|]. rewrite length_app, Hlen. lia.
Qed.

(** ** Decimal numbers *)
Lemma digit_val_pretty n : (n < 10)%N -> is_digit (pretty_N_char n) = true /\ digit_val (pretty_N_char n) = Z.of_N n.
Proof.
  intros H. split; [apply is_digit_pretty_char|].
  destruct n as [|p]; [done|]. do 9 (destruct p as [p|p|]; try done); lia.
Qed.

Lemma digits_val_pretty_go n s : digits_val 0 (pretty_N_go n s) = digits_val (Z.of_N n) s.
Proof.
  revert s. induction (N.lt_wf_0 n) as [n _ IH]; intros s. destruct (decide (n = 0)%N) as [->|Hn].
  - by rewrite pretty_N_go_0.
  - rewrite pretty_N_go_step by lia. rewrite IH by (apply N.div_lt; lia). simpl.
    destruct (digit_val_pretty (n mod 10)) as [-> ->]; [by apply N.mod_lt|]. f_equal.
    rewrite N2Z.inj_div, N2Z.inj_mod by done. pose proof (Z_div_mod_eq_full (Z.of_N n) 10). lia.
Qed.

Lemma parse_itoa z : 0 <= z -> parse_digits (itoa z) = Some z.
Proof.
  intros Hz. assert (Hd : digits_val 0 (itoa z) = Some z).
  { unfold itoa. destruct z as [|p|p]; [done| |lia].
    change (pretty (Z.pos p)) with (pretty (N.pos p)). unfold pretty, pretty_N.
    rewrite decide_False by done. by rewrite digits_val_pretty_go. }
  unfold parse_digits. destruct (itoa z) eqn:Hi; [|done]. by destruct (itoa_nonempty z).
Qed.

Lemma atoi_itoa z : 0 <= z <= int64_max -> atoi (itoa z) = Some z.
Proof.
  intros [Hz Hmax]. pose proof (parse_itoa z Hz) as Hp. pose proof (itoa_digits z Hz) as Hd.
  assert (Hin : (if (int64_min <=? z) && (z <=? int64_max) then Some z else None) = Some z).
  { rewrite (proj2 (Z.leb_le _ _)) by (unfold int64_min; lia). by rewrite (proj2 (Z.leb_le _ _)). }
  unfold atoi. destruct (itoa z) as [|c t] eqn:Hi; [done|]. simpl in Hd. apply andb_prop in Hd as [Hc _].
  destruct (Ascii.eqb_spec c "-") as [->|_]; [done|]. destruct (Ascii.eqb_spec c "+") as [->|_]; [done|].
  by rewrite Hp, Hin.
Qed.


(** ** Hexadecimal tokens *)
Lemma hex_encode_length s : String.length (hex_encode s) = (2 * String.length s)%nat.
Proof.
  unfold hex_encode, encode. pose proof (bits_of_length s) as Hlen.
  destruct (encode_bits_length 4 hex_alphabet (8 * String.length s) (bits_of s)); lia.
Qed.

(** ASCII graphic characters. *)
Definition graphic (c : ascii) : bool := byte_between 33 126 c.

Lemma encode_bytes k alphabet p s :
  (forall v, (v < 2 ^ k)%nat -> p (digit alphabet v) = true) -> all_bytes p (encode k alphabet s) = true.
Proof.
  intros Hp. unfold encode. generalize (8 * String.length s)%nat, (bits_of s). intros fuel.
  induction fuel as [|fuel IH]; intros [|b l]; try done. cbn [encode_bits all_bytes]. rewrite IH, andb_true_r.
  apply Hp. pose proof (bits_val_lt (take k (b :: l) ++ replicate (k - length (b :: l)) false)) as Hlt.
  rewrite length_app, length_replicate, length_take in Hlt.
  by replace (k `min` length (b :: l) + (k - length (b :: l)))%nat with k in Hlt by lia.
Qed.

Lemma bytes_check k alphabet p :
  forallb (fun v => p (digit alphabet v)) (seq 0 (2 ^ k)) = true -> forall v, (v < 2 ^ k)%nat -> p (digit alphabet v) = true.
Proof. rewrite forallb_forall. intros H v Hv. apply H, in_seq. lia. Qed.

Lemma hex_encode_bytes p s : forallb (fun v => p (digit hex_alphabet v)) (seq 0 16) = true -> all_bytes p (hex_encode s) = true.
Proof. intros H. by apply encode_bytes, (bytes_check 4). Qed.
Lemma hex_encode_graphic s : all_bytes graphic (hex_encode s) = true.
Proof. by apply hex_encode_bytes. Qed.
Lemma base32_encode_bytes p s :
  forallb (fun v => p (digit base32_alphabet v)) (seq 0 32) = true -> all_bytes p (base32_encode s) = true.
Proof. intros H. by apply encode_bytes, (bytes_check 5). Qed.

(** Upper-case text stays as it is. *)
Definition capital (c : ascii) : bool := is_upper c || is_digit c.
Lemma to_upper_capital s : all_bytes capital s = true -> to_upper s = s.
Proof.
  assert (Hb : forall c, capital c = true -> upper_byte c = c /\ byte_eq 196 c = false /\ byte_eq 197 c = false).
  { intros [[] [] [] [] [] [] [] []] Hc; by try discriminate. }
  induction s as [|a t IH]; simpl; [done|]. intros [Ha Ht]%andb_prop. destruct (Hb a Ha) as (-> & -> & ->). simpl.
  destruct t; [done|]. by rewrite IH.
Qed.

(** ** Trimming *)
Lemma rev_app_bytes p s acc : all_bytes p s = true -> all_bytes p acc = true -> all_bytes p (rev_app s acc) = true.
Proof.
  revert acc. induction s as [|c s IH]; intros acc; simpl; [done|]. intros [Hc Hs]%andb_prop Hacc.
  apply IH; [done|]. simpl. by rewrite Hc, Hacc.
Qed.

Lemma rev_app_rev s acc1 acc2 : rev_app (rev_app s acc1) acc2 = rev_app acc1 (s +:+ acc2).
Proof. revert acc1. induction s as [|c s IH]; intros acc1; simpl; [done|]. by rewrite IH. Qed.

Lemma graphic_no_space a t : graphic a = true -> space_width (String a t) = 0%nat /\ space_width_rev (String a t) = 0%nat.
Proof.
  intros Ha.
  assert (H : forall d, graphic d = true -> forall u, space_width (String d u) = 0%nat /\ space_width_rev (String d u) = 0%nat).
  { intros [[] [] [] [] [] [] [] []] Hd; try discriminate; intros u; split; try reflexivity;
      destruct u as [|b [|c u]]; try reflexivity; simpl; unfold space2, space3; simpl; by rewrite ?andb_false_r. }
  by apply H.
Qed.

Lemma trim_graphic s : all_bytes graphic s = true -> trim_space s = s.
Proof.
  intros Hs. assert (forall fuel t, all_bytes graphic t = true -> trim_left_fuel fuel t = t /\ trim_rev_fuel fuel t = t) as Ht.
  { intros [|fuel] [|c t]; try done. simpl all_bytes. intros [Hc _]%andb_prop.
    destruct (graphic_no_space c t Hc) as [H1 H2]. cbn [trim_left_fuel trim_rev_fuel]. by rewrite H1, H2. }
  unfold trim_space, trim_left. destruct (Ht (String.length s) s Hs) as [-> _]. unfold trim_right.
  destruct (Ht (String.length s) (rev_string s)) as [_ ->]; [by apply rev_app_bytes|].
  unfold rev_string. rewrite rev_app_rev. simpl. apply str_app_nil_r.
Qed.
