(* ===== verification/Programs.v ===== *)
(** * Programs over a shared world

    A request handler is a sequence of atomic operations on state it shares with
    other requests: database statements and transactions, sections under a mutex,
    readings of the clock.  Between two of them other requests run.  [prog] is such a
    sequence; the Boolean an operation receives says whether the database driver fails
    in it. *)

From S2P Require Import Prelude.

Section programs.
Context {W : Type}.

Inductive prog (A : Type) : Type :=
| Ret (a : A)
| Act {B : Type} (f : bool -> W -> B * W) (k : B -> prog A).
End programs.
Arguments prog W A : clear implicits.
Arguments Ret {W A} a.
Arguments Act {W A B} f k.

Fixpoint prog_bind {W A B} (k : A -> prog W B) (p : prog W A) : prog W B :=
  match p with
  | Ret a => k a
  | Act f k' => Act f (fun b => prog_bind k (k' b))
  end.
#[export] Instance prog_ret W : MRet (prog W) := fun A a => Ret a.
#[export] Instance prog_mbind W : MBind (prog W) := fun A B k p => prog_bind k p.

Section worlds.
Context {W : Type}.
Implicit Types (w : W) (R : W -> W -> Prop).

(** One atomic operation. *)
Definition act {A} (f : bool -> W -> A * W) : prog W A := Act f Ret.
(** An operation that cannot fail. *)
Definition atomically {A} (f : W -> A * W) : prog W A := act (fun _ => f).

(** The program alone, with the faults of its operations in order; then none fails. *)
Fixpoint run_alone {A} (p : prog W A) (faults : list bool) (w : W) : A * W :=
  match p with
  | Ret a => (a, w)
  | Act f k => let '(b, w') := f (default false (head faults)) w in run_alone (k b) (tail faults) w'
  end.

(** The next operation of a program. *)
Definition next {A} (p : prog W A) (fault : bool) (w : W) : prog W A * W :=
  match p with
  | Ret a => (Ret a, w)
  | Act f k => let '(b, w') := f fault w in (k b, w')
  end.

(** Every operation of the program relates the worlds before and after it by [R],
    whatever the others did in between. *)
Fixpoint acts R {A} (p : prog W A) : Prop :=
  match p with
  | Ret _ => True
  | Act f k => forall fault w, R w (f fault w).2 /\ acts R (k (f fault w).1)
  end.

Lemma acts_bind R {A B} (p : prog W A) (k : A -> prog W B) :
  acts R p -> (forall a, acts R (k a)) -> acts R (p ≫= k).
Proof.
  intros Hp Hk. induction p as [a|C f k' IH]; [apply Hk|].
  intros fault w. destruct (Hp fault w) as [? H]. split; [done|]. by apply IH.
Qed.

Lemma acts_act R {A} (f : bool -> W -> A * W) : (forall fault w, R w (f fault w).2) -> acts R (act f).
Proof. intros Hf fault w. split; [apply Hf|exact I]. Qed.

Lemma acts_ret R {A} (a : A) : acts R (mret a : prog W A).
Proof. exact I. Qed.

Lemma acts_weaken R R' {A} (p : prog W A) : (forall w w', R w w' -> R' w w') -> acts R p -> acts R' p.
Proof.
  intros HR. induction p as [a|C f k IH]; [done|]. intros Hp fault w. destruct (Hp fault w). split; auto.
Qed.

Lemma run_alone_bind {A B} (p : prog W A) (k : A -> prog W B) w :
  run_alone (p ≫= k) [] w = let '(a, w') := run_alone p [] w in run_alone (k a) [] w'.
Proof.
  revert w. induction p as [a|C f k' IH]; intros w; [done|].
  unfold mbind, prog_mbind. simpl. destruct (f false w) as [b w']. apply (IH b w').
Qed.

(** ** Requests that interleave *)
Section system.
Context {A : Type} (serves : prog W A -> Prop) (environment : W -> W -> Prop).

(** The requests in flight: one starts, advances, or is abandoned; the environment
    moves (the clock, a restart of the process). *)
Inductive step : list (prog W A) * W -> list (prog W A) * W -> Prop :=
| step_start p l w : serves p -> step (l, w) (p :: l, w)
| step_next i p fault l w :
    l !! i = Some p -> step (l, w) (<[i := (next p fault w).1]> l, (next p fault w).2)
| step_drop i l w : step (l, w) (delete i l, w)
| step_environment l w w' : environment w w' -> step (l, w) (l, w').
End system.
End worlds.

(** ** What requests rely on and guarantee

    A history is the worlds of an execution, the latest first.  Every operation must
    guarantee [G]: how the next world may follow from the history.  In return it may
    rely on the history so far having been built that way. *)
Section guarantee.
Context {W : Type} (initial : W -> Prop) (G : list W -> W -> Prop).
Implicit Types h : list W.

Fixpoint legal h : Prop :=
  match h with
  | [] => False
  | [w] => initial w
  | w :: h' => G h' w /\ legal h'
  end.

(** From any moment at which the history ends in [h0], every operation of [p]
    guarantees [G], and when [p] ends with [a] after the history [h], [Q a h]. *)
Fixpoint ensures {A} (h0 : list W) (p : prog W A) (Q : A -> list W -> Prop) : Prop :=
  match p with
  | Ret a => Q a h0
  | Act f k => forall fault w h, h0 `suffix_of` w :: h -> legal (w :: h) ->
      G (w :: h) (f fault w).2 /\ ensures ((f fault w).2 :: w :: h) (k (f fault w).1) Q
  end.

Lemma ensures_bind {A B} h0 (p : prog W A) (k : A -> prog W B) Q :
  ensures h0 p (fun a h => ensures h (k a) Q) -> ensures h0 (p ≫= k) Q.
Proof.
  revert h0. induction p as [a|C f k' IH]; intros h0; [done|]. simpl. intros Hp fault w h Hs Hl.
  destruct (Hp fault w h Hs Hl) as [HG H]. split; [done|]. by apply IH.
Qed.

Lemma ensures_weaken {A} h0 (p : prog W A) (Q Q' : A -> list W -> Prop) :
  ensures h0 p Q -> (forall a h, h0 `suffix_of` h -> Q a h -> Q' a h) -> ensures h0 p Q'.
Proof.
  revert h0. induction p as [a|C f k IH]; intros h0 Hp HQ; simpl in *; [by apply HQ|].
  intros fault w h Hs Hl. destruct (Hp fault w h Hs Hl) as [HG H]. split; [done|].
  eapply IH; [exact H|]. intros a h' Hs' HQa. apply HQ; [|done]. etrans; [exact Hs|]. etrans; [|exact Hs'].
  by apply suffix_cons_r.
Qed.

(** Nothing is said of the end. *)
Definition keeps {A} h0 (p : prog W A) : Prop := ensures h0 p (fun _ _ => True).

Lemma keeps_bind {A B} h0 (p : prog W A) (k : A -> prog W B) :
  ensures h0 p (fun a h => keeps h (k a)) -> keeps h0 (p ≫= k).
Proof. apply ensures_bind. Qed.

(** Knowledge that later worlds do not take away. *)
Definition lasting (K : list W -> Prop) : Prop := forall h h', h `suffix_of` h' -> K h -> K h'.

(** Under the lasting knowledge [K] a program guarantees [G]. *)
Definition respects (K : list W -> Prop) {A} (p : prog W A) : Prop := forall h0, K h0 -> keeps h0 p.

Section respects.
Context (K : list W -> Prop) (K_lasting : lasting K).

Lemma respects_ret {A} (a : A) : respects K (mret a : prog W A).
Proof. done. Qed.

Lemma respects_bind {A B} (p : prog W A) (k : A -> prog W B) :
  respects K p -> (forall a, respects K (k a)) -> respects K (p ≫= k).
Proof.
  intros Hp Hk h0 HK. apply keeps_bind. eapply ensures_weaken; [by apply Hp|].
  intros a h Hs _. apply Hk. by eapply K_lasting.
Qed.

Lemma respects_act {A} (f : bool -> W -> A * W) :
  (forall fault w h, K (w :: h) -> legal (w :: h) -> G (w :: h) (f fault w).2) -> respects K (act f).
Proof. intros Hf h0 HK fault w h Hs Hl. split; [|done]. apply Hf; [|done]. by eapply K_lasting. Qed.

(** A program whose operations relate the worlds by [R] only. *)
Lemma respects_acts R {A} (p : prog W A) :
  (forall w h w', legal (w :: h) -> R w w' -> G (w :: h) w') -> acts R p -> respects K p.
Proof.
  intros HR Hp h0 _. revert h0. unfold keeps.
  induction p as [a|C f k IH]; intros h0; [done|]. intros fault w h _ Hl. destruct (Hp fault w) as [H1 H2].
  split; [by apply HR|]. by apply IH.
Qed.
End respects.

Lemma respects_weaken (K K' : list W -> Prop) {A} (p : prog W A) :
  (forall h, K' h -> K h) -> respects K p -> respects K' p.
Proof. intros HK Hp h0 H. by apply Hp, HK. Qed.

Section traces.
Context {A : Type} (serves : prog W A -> Prop) (environment : W -> W -> Prop).

(** The step relation, with the history. *)
Definition trace_step (c c' : list (prog W A) * list W) : Prop :=
  exists w h w', c.2 = w :: h /\ c'.2 = w' :: w :: h /\ step serves environment (c.1, w) (c'.1, w').

Definition in_flight h (p : prog W A) : Prop := exists h0, h0 `suffix_of` h /\ keeps h0 p.

Hypothesis serves_keeps : forall p, serves p -> keeps [] p.
Hypothesis G_stays : forall w h, legal (w :: h) -> G (w :: h) w.
Hypothesis environment_keeps : forall w h w', legal (w :: h) -> environment w w' -> G (w :: h) w'.

Lemma in_flight_next p fault w h :
  in_flight (w :: h) p -> legal (w :: h) ->
  G (w :: h) (next p fault w).2 /\ in_flight ((next p fault w).2 :: w :: h) (next p fault w).1.
Proof.
  intros (h0 & Hs & Hp) Hl. destruct p as [a|C f k]; simpl.
  - split; [by apply G_stays|]. exists h0. split; [by apply suffix_cons_r|done].
  - destruct (Hp fault w h Hs Hl) as [H1 H2]. destruct (f fault w) as [b w']. split; [done|].
    eexists. split; [reflexivity|exact H2].
Qed.

Lemma trace_step_legal c c' :
  trace_step c c' -> legal c.2 /\ Forall (in_flight c.2) c.1 -> legal c'.2 /\ Forall (in_flight c'.2) c'.1.
Proof.
  destruct c as [l h], c' as [l' h']. intros (w1 & h1 & w2 & Hh & Hh' & Hstep) [Hlegal Hall]. simpl in *. subst h h'.
  assert (forall l, Forall (in_flight (w1 :: h1)) l -> Forall (in_flight (w2 :: w1 :: h1)) l) as Hlater.
  { intros l0 H0. eapply Forall_impl; [exact H0|]. intros p (h0 & Hs0 & Hp). exists h0.
    split; [by apply suffix_cons_r|done]. }
  inversion Hstep as [p l0 w0 Hp|i p fault l0 w0 Hi|i l0 w0|l0 w0 w0' Hw0]; simplify_eq/=.
  - split; [split; [by apply G_stays|done]|]. constructor; [|by apply Hlater].
    exists []. split; [apply suffix_nil|by apply serves_keeps].
  - assert (in_flight (w1 :: h1) p) as Hfl by (by eapply Forall_lookup in Hi).
    destruct (in_flight_next p fault w1 h1 Hfl Hlegal) as [HG Hk]. split; [done|].
    apply Forall_insert; [by apply Hlater|done].
  - split; [split; [by apply G_stays|done]|]. by apply Forall_delete, Hlater.
  - split; [split; [by apply environment_keeps|done]|]. by apply Hlater.
Qed.

(** Requests that keep to [G] make legal histories together. *)
Theorem legal_traces w c : initial w -> rtc trace_step ([], [w]) c -> legal c.2.
Proof.
  intros Hw Hsteps.
  cut (legal c.2 /\ Forall (in_flight c.2) c.1); [by intros []|].
  assert (forall c0, rtc trace_step c0 c -> legal c0.2 /\ Forall (in_flight c0.2) c0.1 ->
    legal c.2 /\ Forall (in_flight c.2) c.1) as H; [|by apply (H _ Hsteps)].
  clear Hsteps. induction 1 as [|c1 c2 c3 Hstep _ IH]; [done|]. intros H1. by eapply IH, trace_step_legal.
Qed.
End traces.
End guarantee.
