(* ===== verification/Passwords.v ===== *)
(** * Passwords

    [internal/platform/identity]: the policy (credentials.go, denylist.go) and the
    stored hashes (password.go).  Argon2 and the Unicode character classes are
    parameters. *)

From Stdlib Require Import Ascii.
From S2P Require Import Prelude GoStrings Json Codec.

Local Open Scope Z_scope.

(** ** Credentials *)
Definition minimumPasswordLength : Z := 12.
Definition maximumPasswordLength : Z := 1024.
Definition requiredPasswordClasses : Z := 3.
Definition passphraseLength : Z := 20.
Definition minimumUsernameFragment : Z := 3.

Inductive policyError :=
| errUsername | errLength | errClasses | errCommon | errContainsUsername.

(** [^[A-Za-z0-9][A-Za-z0-9._-]{2,63}$] *)
Definition usernamePattern (s : string) : bool :=
  match s with
  | String c t => is_alnum c && all_bytes (fun d => is_alnum d || one_of "._-" d) t && (2 <=? len t) && (len t <=? 63)
  | EmptyString => false
  end.

Section policy.
Context (unicode_IsLower unicode_IsUpper unicode_IsDigit : string -> bool) (commonPasswordList : string).

Record classes := mk_classes { lower : bool; upper : bool; digit_class : bool; symbol : bool }.
Definition classify (c : classes) (character : string) : classes :=
  if unicode_IsLower character then mk_classes true (upper c) (digit_class c) (symbol c)
  else if unicode_IsUpper character then mk_classes (lower c) true (digit_class c) (symbol c)
  else if unicode_IsDigit character then mk_classes (lower c) (upper c) true (symbol c)
  else mk_classes (lower c) (upper c) (digit_class c) true.
Definition passwordClasses (password : string) : Z :=
  let c := foldl classify (mk_classes false false false false) (runes password).*1 in
  Z.of_nat (length (List.filter (fun present => present) [lower c; upper c; digit_class c; symbol c])).

(** The set [commonPasswords] is built from the lines of the list. *)
Definition commonPasswords : list string :=
  map to_lower (List.filter (fun e => negb (bool_decide (e = EmptyString)))
    (map trim_space (split "010" commonPasswordList))).
Definition passwordIsCommon (password : string) : bool := bool_decide (to_lower password ∈ commonPasswords).

Definition passwordContainsUsername (password username : string) : bool :=
  let name := to_lower (trim_space username) in
  if len name <? minimumUsernameFragment then false
  else let secret := to_lower password in contains name secret || contains secret name.

Definition validatePassword (password username : string) : result policyError unit :=
  if (len password <? minimumPasswordLength) || (maximumPasswordLength <? len password) then Err errLength
  else if (len password <? passphraseLength) && (passwordClasses password <? requiredPasswordClasses) then Err errClasses
  else if passwordIsCommon password then Err errCommon
  else if passwordContainsUsername password username then Err errContainsUsername
  else Ok tt.

Definition validateCredentials (username password : string) : result policyError unit :=
  if negb (usernamePattern username) then Err errUsername else validatePassword password username.
End policy.

(** ** Stored hashes *)
Record passwordParameters := mk_parameters {
  memory : Z;
  iterations : Z;
  parallelism : Z;
  saltLength : Z;
  keyLength : Z;
}.
Definition defaultPasswordParameters : passwordParameters := mk_parameters (64 * 1024) 3 2 16 32.

Inductive hashError := errFormat | errVersion | errParameters | errSalt | errKey.

(** [fmt.Sscanf] with the format [m=%d,t=%d,p=%d] into two uint32 and one uint8: a
    number may be preceded by white space, but not by a line break; what follows the
    format is ignored. *)
Fixpoint skip_spaces (fuel : nat) (s : string) : option string :=
  match fuel with
  | O => Some s
  | S f =>
      match s with
      | EmptyString => Some s
      | String c _ => if byte_eq 10 c then None
                      else match space_width s with O => Some s | w => skip_spaces f (drop_bytes w s) end
      end
  end.
Fixpoint scan_digits (s : string) : string * string :=
  match s with
  | String c t => if is_digit c then let '(d, r) := scan_digits t in (String c d, r) else (EmptyString, s)
  | EmptyString => (EmptyString, EmptyString)
  end.
Definition scan_uint (bits : Z) (s : string) : option (Z * string) :=
  match skip_spaces (String.length s) s with
  | None => None
  | Some s =>
      let '(d, rest) := scan_digits s in
      match parse_digits d with
      | Some v => if v <? 2 ^ bits then Some (v, rest) else None
      | None => None
      end
  end.
Definition scan_parameters (s : string) : option (Z * Z * Z) :=
  s ← strip_prefix "m=" s; '(m, s) ← scan_uint 32 s;
  s ← strip_prefix ",t=" s; '(t, s) ← scan_uint 32 s;
  s ← strip_prefix ",p=" s; '(p, _) ← scan_uint 8 s;
  Some (m, t, p).

Section argon2.
Context (argon2_IDKey : string -> string -> Z -> Z -> Z -> Z -> string) (argon2_Version : Z).

Definition key_of (password salt : string) (parameters : passwordParameters) (length : Z) : string :=
  argon2_IDKey password salt (iterations parameters) (memory parameters) (parallelism parameters) length.

(** [salt]: the bytes drawn. *)
Definition hashPassword (salt password : string) (parameters : passwordParameters) : string :=
  "$argon2id$v=" +:+ itoa argon2_Version +:+ "$m=" +:+ itoa (memory parameters) +:+ ",t=" +:+
  itoa (iterations parameters) +:+ ",p=" +:+ itoa (parallelism parameters) +:+ "$" +:+
  base64_encode salt +:+ "$" +:+ base64_encode (key_of password salt parameters (keyLength parameters)).

Definition parsePasswordHash (encoded : string) : result hashError (passwordParameters * string * string) :=
  match split "$" encoded with
  | [_; name; version; settings; salt; key] =>
      if negb (bool_decide (name = "argon2id"%string)) then Err errFormat
      else if negb (bool_decide (atoi (trim_prefix "v=" version) = Some argon2_Version)) then Err errVersion
      else match scan_parameters settings with
      | None => Err errParameters
      | Some (m, t, p) =>
          match base64_decode salt with
          | None => Err errSalt
          | Some salt =>
              match base64_decode key with
              | None => Err errKey
              | Some key => Ok (mk_parameters m t p 0 0, salt, key)
              end
          end
      end
  | _ => Err errFormat
  end.

(** The result when the derivation does not panic, which it does for zero iterations
    or threads. *)
Definition verifyPassword (password encoded : string) : result hashError bool :=
  '(parameters, salt, expected) ← parsePasswordHash encoded;
  Ok (bool_decide (key_of password salt parameters (len expected mod 2 ^ 32) = expected)).
End argon2.

(** ** Theory *)
(** White space starts with no digit. *)
Lemma digit_no_space c t : is_digit c = true -> space_width (String c t) = 0%nat /\ byte_eq 10 c = false.
Proof.
  intros Hc. assert (H : forall d, is_digit d = true -> forall u, space_width (String d u) = 0%nat /\ byte_eq 10 d = false).
  { intros [[] [] [] [] [] [] [] []] Hd; try discriminate; intros u; split; try reflexivity; by destruct u as [|? [|? ?]]. }
  by apply H.
Qed.

Lemma scan_digits_app d rest :
  all_bytes is_digit d = true -> match rest with String c _ => is_digit c = false | EmptyString => True end ->
  scan_digits (d +:+ rest) = (d, rest).
Proof.
  intros Hd Hr. induction d as [|c d IH]; simpl.
  - destruct rest as [|c t]; [done|]. simpl. by rewrite Hr.
  - simpl in Hd. apply andb_prop in Hd as [Hc Hd]. by rewrite Hc, IH.
Qed.

Lemma scan_uint_itoa bits z rest :
  0 <= z < 2 ^ bits -> match rest with String c _ => is_digit c = false | EmptyString => True end ->
  scan_uint bits (itoa z +:+ rest) = Some (z, rest).
Proof.
  intros [Hz Hlt] Hr. pose proof (itoa_digits z Hz) as Hd. unfold scan_uint.
  assert (skip_spaces (String.length (itoa z +:+ rest)) (itoa z +:+ rest) = Some (itoa z +:+ rest)) as ->.
  { destruct (itoa z) as [|c t] eqn:Hi; [by destruct (itoa_nonempty z)|]. simpl in Hd. apply andb_prop in Hd as [Hc _].
    destruct (digit_no_space c (t +:+ rest) Hc) as [Hw Hn]. cbn [skip_spaces String.length String.append].
    rewrite Hn. by rewrite Hw. }
  rewrite scan_digits_app by done. rewrite parse_itoa by done. by rewrite (proj2 (Z.ltb_lt _ _)).
Qed.

(** *** Splitting at the separators *)
Lemma split_cons c a rest : any_byte (Ascii.eqb c) a = false -> split c (a +:+ String c rest) = a :: split c rest.
Proof.
  induction a as [|d a IH]; intros H.
  - cbn. by rewrite Ascii.eqb_refl.
  - cbn in H. apply orb_false_iff in H as [H1 H2]. cbn [String.append split]. rewrite H1, (IH H2). done.
Qed.
Lemma split_last c a : any_byte (Ascii.eqb c) a = false -> split c a = [a].
Proof.
  induction a as [|d a IH]; [done|]. cbn. intros [H1 H2]%orb_false_iff. by rewrite H1, (IH H2).
Qed.

Lemma none_of c (p : ascii -> bool) s :
  (forall d, p d = true -> Ascii.eqb c d = false) -> all_bytes p s = true -> any_byte (Ascii.eqb c) s = false.
Proof.
  intros Hp Hs. apply any_byte_false. eapply all_bytes_impl; [|exact Hs]. intros d Hd. by rewrite Hp.
Qed.

Lemma base64_no_dollar s : any_byte (Ascii.eqb "$") (base64_encode s) = false.
Proof.
  apply (none_of _ (fun c => negb (Ascii.eqb "$" c))); [intros d; by rewrite negb_true_iff|].
  apply encode_bits_alphabet. by apply (digit_check base64_alphabet (fun c => negb (Ascii.eqb "$" c))).
Qed.
Lemma itoa_no_dollar z : 0 <= z -> any_byte (Ascii.eqb "$") (itoa z) = false.
Proof.
  intros Hz. apply (none_of _ is_digit); [|by apply itoa_digits]. intros d Hd.
  apply Ascii.eqb_neq. intros <-. done.
Qed.

(** The parameters Argon2 takes, at their widths. *)
Record parameters_ok (p : passwordParameters) : Prop := {
  ok_memory : 0 <= memory p < 2 ^ 32;
  ok_iterations : 0 <= iterations p < 2 ^ 32;
  ok_parallelism : 0 <= parallelism p < 2 ^ 8;
  ok_keyLength : 0 <= keyLength p < 2 ^ 32;
}.

Lemma strip_prefix_app p s : strip_prefix p (p +:+ s) = Some s.
Proof. by apply strip_prefix_Some. Qed.

(** What the parameters are printed as, is read back. *)
Lemma scan_parameters_printed p :
  parameters_ok p ->
  scan_parameters ("m=" +:+ itoa (memory p) +:+ ",t=" +:+ itoa (iterations p) +:+ ",p=" +:+ itoa (parallelism p)) =
  Some (memory p, iterations p, parallelism p).
Proof.
  intros [Hm Ht Hp _]. unfold scan_parameters. rewrite strip_prefix_app. cbn [mbind option_bind].
  rewrite scan_uint_itoa by done. cbn [mbind option_bind]. rewrite strip_prefix_app. cbn [mbind option_bind].
  rewrite scan_uint_itoa by done. cbn [mbind option_bind]. rewrite strip_prefix_app. cbn [mbind option_bind].
  rewrite <-(str_app_nil_r (itoa (parallelism p))), scan_uint_itoa by done. done.
Qed.

Section roundtrip.
Context (argon2_IDKey : string -> string -> Z -> Z -> Z -> Z -> string) (argon2_Version : Z).
Hypothesis (Hversion : 0 <= argon2_Version <= int64_max)
           (Hlength : forall password salt t m p l, 0 <= l -> len (argon2_IDKey password salt t m p l) = l).

Local Abbreviation key_of := (key_of argon2_IDKey).

Lemma parse_hash salt password p :
  parameters_ok p ->
  parsePasswordHash argon2_Version (hashPassword argon2_IDKey argon2_Version salt password p) =
  Ok (mk_parameters (memory p) (iterations p) (parallelism p) 0 0, salt, key_of password salt p (keyLength p)).
Proof.
  intros Hok. pose proof (ok_memory _ Hok). pose proof (ok_iterations _ Hok). pose proof (ok_parallelism _ Hok).
  unfold parsePasswordHash, hashPassword. set (key := key_of password salt p (keyLength p)).
  set (settings := "m=" +:+ itoa (memory p) +:+ ",t=" +:+ itoa (iterations p) +:+ ",p=" +:+ itoa (parallelism p)).
  assert (Hs : any_byte (Ascii.eqb "$") settings = false).
  { unfold settings. rewrite !any_byte_app, !itoa_no_dollar by lia. done. }
  assert (Hsplit : split "$" ("$argon2id$v=" +:+ itoa argon2_Version +:+ "$m=" +:+ itoa (memory p) +:+ ",t=" +:+
      itoa (iterations p) +:+ ",p=" +:+ itoa (parallelism p) +:+ "$" +:+ base64_encode salt +:+ "$" +:+ base64_encode key) =
    [EmptyString; "argon2id"; "v=" +:+ itoa argon2_Version; settings; base64_encode salt; base64_encode key]%string).
  { transitivity (split "$" (EmptyString +:+ String "$" ("argon2id" +:+ String "$" (("v=" +:+ itoa argon2_Version) +:+
      String "$" (settings +:+ String "$" (base64_encode salt +:+ String "$" (base64_encode key))))))).
    { unfold settings. by rewrite !str_app_assoc. }
    rewrite split_cons by done. rewrite split_cons by done.
    rewrite split_cons by (rewrite any_byte_app, itoa_no_dollar by lia; done).
    rewrite split_cons by done. rewrite split_cons by apply base64_no_dollar.
    by rewrite split_last by apply base64_no_dollar. }
  rewrite Hsplit. rewrite bool_decide_eq_true_2 by done. cbn [negb].
  assert (trim_prefix "v=" ("v=" +:+ itoa argon2_Version) = itoa argon2_Version) as ->
    by (unfold trim_prefix; by rewrite strip_prefix_app).
  rewrite atoi_itoa by done. rewrite bool_decide_eq_true_2 by done. cbn [negb].
  unfold settings. rewrite scan_parameters_printed by done. by rewrite !base64_roundtrip.
Qed.

(** A stored hash is read back as it was written: checking a password against the
    hash of another compares exactly the two derived keys, under the salt and the
    parameters of the hash.  So the right password is always accepted, and a wrong one
    only if Argon2 maps both to one key. *)
Theorem password_hash_roundtrip salt password p password' :
  parameters_ok p ->
  verifyPassword argon2_IDKey argon2_Version password' (hashPassword argon2_IDKey argon2_Version salt password p) =
  Ok (bool_decide (key_of password' salt p (keyLength p) = key_of password salt p (keyLength p))).
Proof.
  intros Hok. unfold verifyPassword. rewrite parse_hash by done. cbn [mbind result_bind].
  assert (Hl : len (key_of password salt p (keyLength p)) mod 2 ^ 32 = keyLength p).
  { unfold Passwords.key_of. rewrite Hlength by apply (ok_keyLength p Hok). apply Z.mod_small, Hok. }
  by rewrite Hl.
Qed.
End roundtrip.

(** ** One-time codes and recovery codes

    [internal/platform/identity/mfa.go].  HMAC-SHA-1 and SHA-256 are parameters. *)
Definition totpPeriodSeconds : Z := 30.
Definition totpDigits : nat := 6.

(** [time.Unix()]: whole seconds, towards minus infinity. *)
Definition unix (now : Z) : Z := now / second.

Definition byte_at (n : nat) (s : string) : Z := Z.of_N (byte_val (default zero (String.get n s))).

(** Eight bytes, the most significant first, of an int64. *)
Definition big_endian (counter : Z) : string :=
  String.string_of_list_ascii (map (fun i => ascii_of_N (Z.to_N (Z.shiftr (counter mod 2 ^ 64) (8 * i) mod 256))) [7; 6; 5; 4; 3; 2; 1; 0]).

(** [fmt.Sprintf("%0*d")] for a number that is not negative. *)
Fixpoint zeros (n : nat) : string := match n with O => EmptyString | S m => String "0" (zeros m) end.
Definition pad_number (digits : nat) (v : Z) : string := zeros (digits - String.length (itoa v)) +:+ itoa v.

Section codes.
Context (hmac_sha1 : string -> string -> string) (sha256 : string -> string).

Definition generateTOTP (secret : string) (counter : Z) (digits : nat) : string :=
  let digest := hmac_sha1 secret (big_endian counter) in
  let offset := Z.to_nat (Z.land (byte_at (String.length digest - 1) digest) 15) in
  let value := Z.lor (Z.lor (Z.lor (Z.shiftl (Z.land (byte_at offset digest) 127) 24)
                 (Z.shiftl (byte_at (offset + 1) digest) 16)) (Z.shiftl (byte_at (offset + 2) digest) 8))
                 (byte_at (offset + 3) digest) in
  pad_number digits (value mod 10 ^ Z.of_nat digits).

(** The step the code is accepted for. *)
Definition accept_step (secret code : string) (lastAcceptedStep step : Z) : bool :=
  (lastAcceptedStep <? step) && (0 <=? step) && bool_decide (generateTOTP secret step totpDigits = code).

Definition validateTOTP (secret code : string) (now lastAcceptedStep : Z) : option Z :=
  if negb (len code =? Z.of_nat totpDigits) || negb (all_bytes is_digit code) then None
  else match base32_decode (to_upper (trim_space secret)) with
  | None => None
  | Some decoded =>
      if bool_decide (decoded = EmptyString) then None
      else
        let currentStep := Z.quot (unix now) totpPeriodSeconds in
        List.find (accept_step decoded code lastAcceptedStep) [currentStep; currentStep - 1; currentStep + 1]
  end.

Definition hashRecoveryCode (code : string) : string :=
  hex_encode (sha256 ("nexa-recovery-v1:" +:+ to_upper (replace_byte "-" EmptyString (trim_space code)))).

(** One code from eight bytes drawn. *)
Definition recovery_code (raw : string) : string :=
  let encoded := to_upper (hex_encode raw) in
  let part i := take_bytes 4 (drop_bytes (4 * i) encoded) in
  join "-" [part 0%nat; part 1%nat; part 2%nat; part 3%nat].
Definition generateRecoveryCodes (draws : list string) : list string * list string :=
  let codes := map recovery_code draws in (codes, map hashRecoveryCode codes).

Definition generateTOTPSecret (raw : string) : string := base32_encode raw.

(** [url.URL.String] and [url.Values.Encode]: the characters that stay, and the escape
    of the others. *)
Definition unreserved (c : ascii) : bool := is_alnum c || one_of "-_.~" c.
Definition percent (c : ascii) : string :=
  String "%" (to_upper (String (hex_digit (byte_val c / 16)) (String (hex_digit (byte_val c mod 16)) EmptyString))).
Fixpoint path_escape (s : string) : string :=
  match s with
  | EmptyString => EmptyString
  | String c t => (if unreserved c || one_of "$&+,/:;=@" c then String c EmptyString else percent c) +:+ path_escape t
  end.
Fixpoint query_escape (s : string) : string :=
  match s with
  | EmptyString => EmptyString
  | String c t => (if unreserved c then String c EmptyString else if byte_eq 32 c then "+"%string else percent c) +:+ query_escape t
  end.
Definition provisioningURI (username secret : string) : string :=
  let query := map (fun '(name, value) => query_escape name +:+ "=" +:+ query_escape value)
    [("algorithm", "SHA1"); ("digits", itoa (Z.of_nat totpDigits)); ("issuer", "Nexa Panel");
     ("period", itoa totpPeriodSeconds); ("secret", secret)]%string in
  "otpauth://totp" +:+ path_escape ("/Nexa Panel:" +:+ username) +:+ "?" +:+ join "&" query.

(** ** Theory *)

(** An accepted code is for one of the three steps around now, above every step
    accepted before. *)
Lemma validateTOTP_Some secret code now last step :
  validateTOTP secret code now last = Some step ->
  last < step /\ 0 <= step /\ Z.quot (unix now) totpPeriodSeconds - 1 <= step <= Z.quot (unix now) totpPeriodSeconds + 1 /\
  exists decoded, base32_decode (to_upper (trim_space secret)) = Some decoded /\
    decoded <> EmptyString /\ generateTOTP decoded step totpDigits = code.
Proof.
  unfold validateTOTP. destruct (_ || _); [done|]. destruct (base32_decode _) as [decoded|]; [|done].
  case_bool_decide as Hne; [done|]. intros [Hin Hacc]%find_some. unfold accept_step in Hacc. split_andb.
  split_and!; try lia; [destruct Hin as [<-|[<-|[<-|[]]]]; lia..|]. by exists decoded.
Qed.
End codes.
