(* ===== verification/Identity.v ===== *)
(** * Accounts and sessions

    [internal/platform/identity]: the tables, sessions and the gate in front of every
    authenticated request (identity.go, sessions.go), as programs over the world that
    concurrent requests share.  The parameters are cryptography, randomness, URL
    parsing and Unicode classes, bundled in [crypto]. *)

From Stdlib Require Import Ascii.
From S2P Require Import Prelude GoStrings Json Sql AuditLog Limiter Codec Passwords Programs.

Local Open Scope Z_scope.

(** ** Configuration *)
Record Config := mk_config {
  SessionTTL : Z;
  IdleTimeout : Z;
  PasswordMemoryKiB : Z;
  PasswordIterations : Z;
  PasswordThreads : Z;
  AttemptLimit : Z;
  AttemptWindow : Z;
  MFALockoutLimit : Z;
  MFALockoutWindow : Z;
}.
Definition DefaultConfig : Config :=
  mk_config (24 * hour) (2 * hour) (memory defaultPasswordParameters) (iterations defaultPasswordParameters)
    (parallelism defaultPasswordParameters) 5 (5 * minute) 10 (15 * minute).

Definition or_zero (v d : Z) : Z := if v =? 0 then d else v.

(** The configuration [NewWithConfig] works with; the unsigned fields are positive
    when they are not zero. *)
Definition NewWithConfig (config : Config) : result string Config :=
  let c := mk_config (SessionTTL config) (or_zero (IdleTimeout config) (IdleTimeout DefaultConfig))
    (PasswordMemoryKiB config) (PasswordIterations config) (PasswordThreads config)
    (or_zero (AttemptLimit config) (AttemptLimit DefaultConfig))
    (or_zero (AttemptWindow config) (AttemptWindow DefaultConfig))
    (or_zero (MFALockoutLimit config) (MFALockoutLimit DefaultConfig))
    (or_zero (MFALockoutWindow config) (MFALockoutWindow DefaultConfig)) in
  if (SessionTTL c <=? 0) || (IdleTimeout c <=? 0) || (PasswordMemoryKiB c =? 0) || (PasswordIterations c =? 0) ||
     (PasswordThreads c =? 0) || (AttemptLimit c <=? 0) || (AttemptWindow c <=? 0) || (MFALockoutLimit c <=? 0) ||
     (MFALockoutWindow c <=? 0)
  then Err "identity configuration values must be positive"%string
  else Ok c.

Definition parameters_of (c : Config) : passwordParameters :=
  mk_parameters (PasswordMemoryKiB c) (PasswordIterations c) (PasswordThreads c) 16 32.

(** ** Tables *)
Record userModel := mk_user_model {
  u_ID : string;
  Username : string;
  PasswordHash : string;
  u_CreatedAt : Z;
  LastLoginAt : option Z;
  u_Role : string;
  TOTPSecretEncrypted : option string;
  TOTPConfirmedAt : option Z;
  TOTPLastStep : Z;
  RecoveryCodeHashes : string;
}.

Record sessionModel := mk_session {
  s_ID : string;
  s_UserID : string;
  TokenHash : string;
  s_CreatedAt : Z;
  ExpiresAt : Z;
  LastSeenAt : Z;
  s_RemoteAddress : string;
  UserAgent : string;
  MFAVerifiedAt : option Z;
  CSRFTokenHash : string;
}.

Record siteGrantModel := mk_grant { g_UserID : string; g_SiteID : string; g_CreatedAt : Z }.

Record db := mk_db {
  users : list userModel;
  sessions : list sessionModel;
  grants : list siteGrantModel;
}.

Record User := mk_user { ID : string; p_Username : string; Role : string }.
Definition to_user (u : userModel) : User := mk_user (u_ID u) (Username u) (u_Role u).

Record principal := mk_principal {
  p_User : User;
  SessionID : string;
  p_TokenHash : string;
  p_CSRFTokenHash : string;
  p_MFAVerifiedAt : option Z;
  p_TOTPConfirmedAt : option Z;
}.

(** The columns [username] collate without case. *)
Definition nocase (s : string) : string := String.string_of_list_ascii (map lower_byte (String.list_ascii_of_string s)).
Definition same_name (a b : string) : bool := bool_decide (nocase a = nocase b).

Definition by_user_id (id : string) (u : userModel) : bool := bool_decide (u_ID u = id).
Definition by_session_id (id : string) (s : sessionModel) : bool := bool_decide (s_ID s = id).
Definition by_owner (id : string) (s : sessionModel) : bool := bool_decide (s_UserID s = id).
Definition by_token (hash : string) (s : sessionModel) : bool := bool_decide (TokenHash s = hash).
Definition grant_of (id : string) (g : siteGrantModel) : bool := bool_decide (g_UserID g = id).

Definition with_users (l : list userModel) (d : db) : db := mk_db l (sessions d) (grants d).
Definition with_sessions (l : list sessionModel) (d : db) : db := mk_db (users d) l (grants d).
Definition with_grants (l : list siteGrantModel) (d : db) : db := mk_db (users d) (sessions d) l.

(** [INSERT]: the constraints of the migrations; [None]: a constraint fails. *)
Definition insert_user (u : userModel) (d : db) : option db :=
  if existsb (fun v => bool_decide (u_ID v = u_ID u) || same_name (Username v) (Username u)) (users d) then None
  else Some (with_users (users d ++ [u]) d).
Definition insert_session (s : sessionModel) (d : db) : option db :=
  if existsb (fun v => bool_decide (s_ID v = s_ID s) || bool_decide (TokenHash v = TokenHash s)) (sessions d) ||
     negb (existsb (by_user_id (s_UserID s)) (users d)) then None
  else Some (with_sessions (sessions d ++ [s]) d).
Definition insert_grant (g : siteGrantModel) (d : db) : option db :=
  if existsb (fun v => bool_decide (g_UserID v = g_UserID g) && bool_decide (g_SiteID v = g_SiteID g)) (grants d) ||
     negb (existsb (by_user_id (g_UserID g)) (users d)) then None
  else Some (with_grants (grants d ++ [g]) d).

Definition update_users (p : userModel -> bool) (f : userModel -> userModel) (d : db) : db :=
  with_users (update_where p f (users d)) d.
Definition update_sessions (p : sessionModel -> bool) (f : sessionModel -> sessionModel) (d : db) : db :=
  with_sessions (update_where p f (sessions d)) d.
Definition delete_sessions (p : sessionModel -> bool) (d : db) : db := with_sessions (delete_where p (sessions d)) d.
(** [ON DELETE CASCADE] *)
Definition delete_user (id : string) (d : db) : db :=
  mk_db (delete_where (by_user_id id) (users d)) (delete_where (by_owner id) (sessions d))
    (delete_where (grant_of id) (grants d)).

Definition set_seen (now : Z) (s : sessionModel) : sessionModel :=
  mk_session (s_ID s) (s_UserID s) (TokenHash s) (s_CreatedAt s) (ExpiresAt s) (sql_time now) (s_RemoteAddress s)
    (UserAgent s) (MFAVerifiedAt s) (CSRFTokenHash s).
Definition set_verified (at_ : option Z) (s : sessionModel) : sessionModel :=
  mk_session (s_ID s) (s_UserID s) (TokenHash s) (s_CreatedAt s) (ExpiresAt s) (LastSeenAt s) (s_RemoteAddress s)
    (UserAgent s) (sql_time <$> at_) (CSRFTokenHash s).
Definition set_login (now : Z) (u : userModel) : userModel :=
  mk_user_model (u_ID u) (Username u) (PasswordHash u) (u_CreatedAt u) (Some (sql_time now)) (u_Role u)
    (TOTPSecretEncrypted u) (TOTPConfirmedAt u) (TOTPLastStep u) (RecoveryCodeHashes u).
Definition set_password (hash : string) (u : userModel) : userModel :=
  mk_user_model (u_ID u) (Username u) hash (u_CreatedAt u) (LastLoginAt u) (u_Role u)
    (TOTPSecretEncrypted u) (TOTPConfirmedAt u) (TOTPLastStep u) (RecoveryCodeHashes u).
Definition set_role (role : string) (u : userModel) : userModel :=
  mk_user_model (u_ID u) (Username u) (PasswordHash u) (u_CreatedAt u) (LastLoginAt u) role
    (TOTPSecretEncrypted u) (TOTPConfirmedAt u) (TOTPLastStep u) (RecoveryCodeHashes u).
Definition set_factor (secret : option string) (confirmed : option Z) (step : Z) (hashes : string) (u : userModel) : userModel :=
  mk_user_model (u_ID u) (Username u) (PasswordHash u) (u_CreatedAt u) (LastLoginAt u) (u_Role u)
    secret confirmed step hashes.

(** ** The world of the requests *)
Record world := mk_world {
  database : db;
  attempts : attemptLimiter;
  lockouts : attemptLimiter;
  bootstrapToken : string;              (* in memory, under its mutex *)
  token_file : option string;           (* the file at [bootstrapTokenPath] *)
  clock : Z;
  drawn : nat;                          (* how often randomness was drawn *)
  entries : list Entry;                 (* the audit log *)
}.
Definition with_database (d : db) (w : world) : world :=
  mk_world d (attempts w) (lockouts w) (bootstrapToken w) (token_file w) (clock w) (drawn w) (entries w).
Definition with_attempts (l : attemptLimiter) (w : world) : world :=
  mk_world (database w) l (lockouts w) (bootstrapToken w) (token_file w) (clock w) (drawn w) (entries w).
Definition with_lockouts (l : attemptLimiter) (w : world) : world :=
  mk_world (database w) (attempts w) l (bootstrapToken w) (token_file w) (clock w) (drawn w) (entries w).
Definition with_token (t : string) (w : world) : world :=
  mk_world (database w) (attempts w) (lockouts w) t (token_file w) (clock w) (drawn w) (entries w).
Definition with_token_file (f : option string) (w : world) : world :=
  mk_world (database w) (attempts w) (lockouts w) (bootstrapToken w) f (clock w) (drawn w) (entries w).
Definition with_clock (t : Z) (w : world) : world :=
  mk_world (database w) (attempts w) (lockouts w) (bootstrapToken w) (token_file w) t (drawn w) (entries w).
Definition with_drawn (n : nat) (w : world) : world :=
  mk_world (database w) (attempts w) (lockouts w) (bootstrapToken w) (token_file w) (clock w) n (entries w).
Definition with_entries (l : list Entry) (w : world) : world :=
  mk_world (database w) (attempts w) (lockouts w) (bootstrapToken w) (token_file w) (clock w) (drawn w) l.

Record crypto := mk_crypto {
  c_sha256 : string -> string;
  c_hmac_sha1 : string -> string -> string;
  c_argon2_IDKey : string -> string -> Z -> Z -> Z -> Z -> string;
  c_argon2_Version : Z;
  (* [secrets.Cipher], with the nonce it draws *)
  c_Encrypt : string -> string -> string -> option string;
  c_Decrypt : string -> string -> option string;
  (* the n-th draw of some bytes from [crypto/rand] *)
  c_random : nat -> nat -> string;
  (* the host of a URL that parses *)
  c_url_Host : string -> option string;
  c_EqualFold : string -> string -> bool;
  c_IsLower : string -> bool;
  c_IsUpper : string -> bool;
  c_IsDigit : string -> bool;
  c_commonPasswordList : string;
  (* [json.Unmarshal] into a slice of strings *)
  c_unmarshal_strings : string -> option (list string);
  (* the order in which a map of buckets is visited *)
  c_order : buckets_map -> list string;
}.

(** ** Requests and responses *)
Record request := mk_request {
  Method : string;
  URLPath : string;
  Host : string;
  Origin : string;
  SecFetchSite : string;
  Referer : string;
  CSRFHeader : string;
  BackgroundHeader : string;
  BootstrapHeader : string;
  SessionCookie : option string;
  HasCSRFCookie : bool;
  Remote : string;                 (* [httpapi.RemoteAddress] *)
  Agent : string;
  Loopback : bool;                 (* [httpapi.IsLoopback] *)
  HTTPS : bool;                    (* [httpapi.IsHTTPS] *)
}.

Record cookie := mk_cookie { k_Name : string; k_Value : string; HttpOnly : bool; Secure : bool; Expires : Z; MaxAge : Z }.

Record response := mk_response {
  Status : Z;
  Code : string;                   (* of an error *)
  Body : json;
  Cookies : list cookie;
}.
Definition error_response (status : Z) (code : string) : response := mk_response status code JNull [].
Definition ok_response (status : Z) (body : json) : response := mk_response status EmptyString body [].
Definition set_cookies (cookies : list cookie) (r : response) : response :=
  mk_response (Status r) (Code r) (Body r) cookies.

Definition cookieName : string := "nexa_session".
Definition csrfCookieName : string := "nexa_csrf".

Definition user_json (u : User) : json :=
  JObj [("id"%string, JStr (ID u)); ("username"%string, JStr (p_Username u)); ("role"%string, JStr (Role u))].

(** ** Atomic operations *)
Section operations.
Context (C : crypto).
Local Abbreviation program := (prog world).

Definition now_ : program Z := atomically (fun w => (clock w, w)).
Definition draw (bytes : nat) : program string :=
  atomically (fun w => (c_random C (drawn w) bytes, with_drawn (S (drawn w)) w)).
Definition randomID (bytes : nat) : program string := raw ← draw bytes; mret (hex_encode raw).

(** [None]: the driver failed. *)
Definition query {A} (q : db -> A) : program (option A) :=
  act (fun fault w => (if fault : bool then None else Some (q (database w)), w)).
Definition exec (f : db -> db) : program (option unit) :=
  act (fun fault w => if fault : bool then (None, w) else (Some tt, with_database (f (database w)) w)).
(** Tells whether the driver or a constraint failed. *)
Definition insert (f : db -> option db) : program (result bool unit) :=
  act (fun fault w => if fault : bool then (Err false, w)
                      else match f (database w) with
                           | Some d => (Ok tt, with_database d w)
                           | None => (Err true, w)
                           end).
Definition transaction {E A} (driver_error : E) (body : db -> result E (A * db)) : program (result E A) :=
  act (fun fault w => let '(r, d) := run_tx fault driver_error (database w) body in (r, with_database d w)).

Definition allow_attempt (key : string) : program bool :=
  now ← now_;
  atomically (fun w => let '(ok, l) := Allow (c_order C) key now (attempts w) in (ok, with_attempts l w)).
Definition reset_attempt (key : string) : program unit :=
  atomically (fun w => (tt, with_attempts (Reset key (attempts w)) w)).

(** [recordAudit]: best effort. *)
Definition recordAudit (entry : Entry) : program unit :=
  act (fun fault w => (tt, if fault : bool then w else with_entries (entries w ++ [entry]) w)).
Definition entry (actor : option string) (action subject remote : string) (metadata : option (list (string * json))) : Entry :=
  AuditLog.mk_entry actor action subject remote metadata.

(** ** Requests that may change something *)
Definition safeMethod (method : string) : bool :=
  bool_decide (method = "GET"%string) || bool_decide (method = "HEAD"%string) || bool_decide (method = "OPTIONS"%string).

Definition same_host (url host : string) : bool :=
  match c_url_Host C url with Some h => c_EqualFold C h host | None => false end.

Definition validRequestOrigin (r : request) : bool :=
  if safeMethod (Method r) then true
  else if negb (bool_decide (Origin r = EmptyString)) && negb (bool_decide (Origin r = "null"%string))
  then same_host (Origin r) (Host r)
  else if bool_decide (SecFetchSite r = "same-origin"%string) || bool_decide (SecFetchSite r = "none"%string) then true
  else if bool_decide (SecFetchSite r = "same-site"%string) || bool_decide (SecFetchSite r = "cross-site"%string) then false
  else if negb (bool_decide (Referer r = EmptyString)) then same_host (Referer r) (Host r)
  else false.

Definition validCSRFToken (r : request) (person : principal) : bool :=
  if safeMethod (Method r) then true
  else
    let presented := trim_space (CSRFHeader r) in
    if bool_decide (presented = EmptyString) then false
    else bool_decide (c_sha256 C presented = p_CSRFTokenHash person).

Definition backgroundRequest (r : request) : bool := bool_decide (trim_space (BackgroundHeader r) = "1"%string).

(** [None]: the request may go on. *)
Definition enforceOriginAndCSRF (r : request) (person : principal) (allowToolProxy : bool) : option response :=
  if negb (validRequestOrigin r) then Some (error_response 403 "invalid_origin")
  else if allowToolProxy && has_prefix "/tools/" (URLPath r) then None
  else if negb (validCSRFToken r person) then Some (error_response 403 "invalid_csrf_token")
  else None.

Definition expired_cookie (name : string) (httpOnly : bool) (r : request) : cookie :=
  mk_cookie name EmptyString httpOnly (HTTPS r) second (-1).
Definition clearSessionCookie (r : request) : list cookie :=
  match SessionCookie r with
  | None => []
  | Some _ => expired_cookie cookieName true r ::
      (if HasCSRFCookie r then [expired_cookie csrfCookieName false r] else [])
  end.

(** ** Sessions *)
Section sessions.
Context (config : Config).

Definition startSession (r : request) (user : User) : program (option (list cookie)) :=
  token ← draw 32; csrf ← draw 32; now ← now_; id ← randomID 16;
  let rawToken := hex_encode token in
  let rawCSRF := hex_encode csrf in
  let expiresAt := now + SessionTTL config in
  stored ← insert (insert_session (mk_session id (ID user) (c_sha256 C rawToken) (sql_time now) (sql_time expiresAt)
             (sql_time now) (Remote r) (Agent r) None (c_sha256 C rawCSRF)));
  mret match stored with
       | Err _ => None
       | Ok _ =>
           let maxAge := Z.quot (SessionTTL config) second in
           Some [mk_cookie cookieName rawToken true (HTTPS r) expiresAt maxAge;
                 mk_cookie csrfCookieName rawCSRF false (HTTPS r) expiresAt maxAge]
       end.

(** The row of the join of [identity_sessions] and [identity_users]. *)
Definition session_row (hash : string) (d : db) : option (sessionModel * userModel) :=
  s ← select_first (by_token hash) (sessions d);
  u ← select_first (by_user_id (s_UserID s)) (users d);
  Some (s, u).

Definition authenticate (r : request) : program (option principal) :=
  match SessionCookie r with
  | None => mret None
  | Some value =>
      if negb (len value =? 64) then mret None
      else
        let hash := c_sha256 C value in
        row ← query (session_row hash);
        match row with
        | None | Some None => mret None
        | Some (Some (s, u)) =>
            now ← now_;
            let drop := _ ← exec (delete_sessions (by_token hash)); mret None in
            if ExpiresAt s <=? now then drop
            else if IdleTimeout config <? time_sub now (LastSeenAt s) then drop
            else if bool_decide (CSRFTokenHash s = EmptyString) then drop
            else
              let person := mk_principal (to_user u) (s_ID s) hash (CSRFTokenHash s) (MFAVerifiedAt s) (TOTPConfirmedAt u) in
              _ ← (if backgroundRequest r then mret None
                   else exec (update_sessions (by_session_id (s_ID s)) (set_seen now)));
              mret (Some person)
        end
  end.

Inductive session_error := errNoSession | errOrigin | errCSRFRejected.
Definition requireSession (r : request) : program (result session_error principal) :=
  person ← authenticate r;
  mret match person with
       | None => Err errNoSession
       | Some person =>
           if negb (validRequestOrigin r) then Err errOrigin
           else if negb (validCSRFToken r person) then Err errCSRFRejected
           else Ok person
       end.

(** The middleware in front of every authenticated operation. *)
Definition Middleware (next : principal -> program response) (r : request) : program response :=
  person ← authenticate r;
  match person with
  | None => mret (set_cookies (clearSessionCookie r) (error_response 401 "authentication_required"))
  | Some person =>
      if bool_decide (p_TOTPConfirmedAt person <> None) && bool_decide (p_MFAVerifiedAt person = None)
      then mret (error_response 401 "mfa_required")
      else match enforceOriginAndCSRF r person true with
           | Some refusal => mret refusal
           | None => next person
           end
  end.

(** The gate of the endpoints that answer a challenge. *)
Definition preAuthentication (next : principal -> program response) (r : request) : program response :=
  person ← authenticate r;
  match person with
  | None => mret (set_cookies (clearSessionCookie r) (error_response 401 "authentication_required"))
  | Some person =>
      match enforceOriginAndCSRF r person false with
      | Some refusal => mret refusal
      | None => next person
      end
  end.

(** [RecentMFA] and [MFAEnrolled] of the request's principal. *)
Definition RecentMFA (person : principal) (now maxAge : Z) : bool :=
  match p_MFAVerifiedAt person with
  | None => false
  | Some verifiedAt => if maxAge <=? 0 then false else (verifiedAt <=? now) && (time_sub now verifiedAt <=? maxAge)
  end.
Definition MFAEnrolled (person : principal) : bool := bool_decide (p_TOTPConfirmedAt person <> None).
End sessions.
End operations.
