(* ===== verification/IdentityHandlers.v ===== *)
(** * The operations of the identity module

    [internal/platform/identity]: bootstrap (bootstrap.go), sign-in and passwords
    (handlers.go) and the second factor (mfa_http.go).  A handler takes the decoded body
    of the request, [None] when it does not decode. *)

From Stdlib Require Import Ascii.
From S2P Require Import Prelude GoStrings Json Sql AuditLog Limiter Codec Passwords Programs Identity.

Local Open Scope Z_scope.

Section handlers.
Context (C : crypto) (config : Config).
Local Abbreviation program := (prog world).
Local Abbreviation validate := (validatePassword (c_IsLower C) (c_IsUpper C) (c_IsDigit C) (c_commonPasswordList C)).
Local Abbreviation validate_credentials := (validateCredentials (c_IsLower C) (c_IsUpper C) (c_IsDigit C) (c_commonPasswordList C)).
Local Abbreviation verify_password := (verifyPassword (c_argon2_IDKey C) (c_argon2_Version C)).
Local Abbreviation totp := (validateTOTP (c_hmac_sha1 C)).
Local Abbreviation hash_code := (hashRecoveryCode (c_sha256 C)).

Definition hash_password (password : string) : program string :=
  salt ← draw C 16; mret (hashPassword (c_argon2_IDKey C) (c_argon2_Version C) salt password (parameters_of config)).

(** Whether a password is known to be right. *)
Definition password_valid (password encoded : string) : bool :=
  match verify_password password encoded with Ok valid => valid | Err _ => false end.

Definition unavailable : response := error_response 500 "identity_unavailable".
Definition invalid_request : response := error_response 400 "invalid_request".
Definition user_subject (id : string) : string := "user:" +:+ id.
Definition user_named (name : string) (d : db) : option userModel :=
  select_first (fun u => same_name (Username u) name) (users d).
Definition user_by_id (id : string) (d : db) : option userModel := select_first (by_user_id id) (users d).

(** ** First run *)
Definition bootstrapRequired (d : db) : bool := negb (select_exists (fun _ => true) (users d)).

Definition clearBootstrapToken (tokenPath : string) : program unit :=
  _ ← atomically (fun w => (tt, with_token EmptyString w));
  if bool_decide (tokenPath = EmptyString) then mret tt
  else act (fun fault w => (tt, if fault : bool then w else with_token_file None w)).

(** [false]: an error.  The token file is replaced as a whole. *)
Definition EnsureBootstrapToken (tokenPath : string) : program bool :=
  if bool_decide (tokenPath = EmptyString) then mret true
  else
    required ← query bootstrapRequired;
    match required with
    | None => mret false
    | Some false => _ ← clearBootstrapToken tokenPath; mret true
    | Some true =>
        existing ← act (fun fault w => (if fault : bool then None else token_file w, w));
        let known := match (existing : option string) with Some contents => trim_space contents | None => EmptyString end in
        if negb (bool_decide (known = EmptyString)) then
          _ ← atomically (fun w => (tt, with_token known w)); mret true
        else
          raw ← draw C 32;
          let token := hex_encode raw in
          written ← act (fun fault w => if fault : bool then (false, w)
                                        else (true, with_token_file (Some (token +:+ String "010" EmptyString)) w));
          if written : bool then _ ← atomically (fun w => (tt, with_token token w)); mret true
          else mret false
    end.

Definition bootstrapRequestAllowed (r : request) (bodyToken : string) : program bool :=
  if Loopback r then mret true
  else
    expected ← atomically (fun w => (bootstrapToken w, w));
    mret (if bool_decide (expected = EmptyString) then false
          else
            let presented := trim_space (BootstrapHeader r) in
            let presented := if bool_decide (presented = EmptyString) then trim_space bodyToken else presented in
            if bool_decide (presented = EmptyString) then false else bool_decide (presented = expected)).

Record credentials := mk_credentials { i_Username : string; i_Password : string }.
Record bootstrapRequest := mk_bootstrap { b_credentials : credentials; BootstrapToken : string }.

Inductive bootstrap_error := errAlreadyBootstrapped | errBootstrapDriver.

Definition bootstrap_tx (u : userModel) (d : db) : result bootstrap_error (unit * db) :=
  if select_exists (fun _ => true) (users d) then Err errAlreadyBootstrapped
  else match insert_user u d with Some d => Ok (tt, d) | None => Err errBootstrapDriver end.

Definition bootstrapHTTP (tokenPath : string) (r : request) (input : option bootstrapRequest) : program response :=
  match input with
  | None => mret invalid_request
  | Some input =>
      allowed ← bootstrapRequestAllowed r (BootstrapToken input);
      if negb (allowed : bool) then
        _ ← recordAudit (entry None "identity.bootstrap" "user:pending" (Remote r) (Some [("result"%string, JStr "forbidden")]));
        mret (error_response 403 "bootstrap_forbidden")
      else
        let username := trim_space (i_Username (b_credentials input)) in
        let password := i_Password (b_credentials input) in
        if negb (is_ok (validate_credentials username password)) then mret (error_response 422 "invalid_credentials")
        else
          passwordHash ← hash_password password;
          id ← randomID C 16; now ← now_;
          let user := mk_user id username "admin" in
          created ← transaction errBootstrapDriver (bootstrap_tx
            (mk_user_model id username passwordHash (sql_time now) None "admin" None None 0 "[]"));
          match created with
          | Err errAlreadyBootstrapped => mret (error_response 409 "already_bootstrapped")
          | Err errBootstrapDriver => mret unavailable
          | Ok _ =>
              session ← startSession C config r user;
              match session with
              | None => mret (error_response 500 "session_unavailable")
              | Some cookies =>
                  _ ← clearBootstrapToken tokenPath;
                  _ ← recordAudit (entry (Some id) "identity.bootstrap" (user_subject id) (Remote r) None);
                  mret (set_cookies cookies (ok_response 201 (JObj [("user"%string, user_json user); ("next"%string, JStr "mfa_enrollment")])))
              end
          end
  end.

(** ** Signing in *)
Definition loginAttemptKeys (username peerAddress : string) : list string :=
  let account := to_lower (trim_space username) in
  ["password-account:" +:+ account; "password-peer-account:" +:+ peerAddress +:+ ":" +:+ account].

Fixpoint allowAttempts (keys : list string) : program bool :=
  match keys with
  | [] => mret true
  | key :: rest => ok ← allow_attempt C key; if ok : bool then allowAttempts rest else mret false
  end.
Fixpoint resetAttempts (keys : list string) : program unit :=
  match keys with [] => mret tt | key :: rest => _ ← reset_attempt key; resetAttempts rest end.

Definition invalidLogin (r : request) (username : string) : program response :=
  _ ← recordAudit (entry None "identity.login" ("username:" +:+ username) (Remote r) (Some [("result"%string, JStr "failure")]));
  mret (error_response 401 "invalid_credentials").

Definition loginHTTP (r : request) (input : option credentials) : program response :=
  match input with
  | None => mret invalid_request
  | Some input =>
      let username := trim_space (i_Username input) in
      let keys := loginAttemptKeys username (Remote r) in
      allowed ← allowAttempts keys;
      if negb (allowed : bool) then mret (error_response 429 "too_many_attempts")
      else
        row ← query (user_named username);
        match row with
        | None => mret unavailable
        | Some None => invalidLogin r username
        | Some (Some model) =>
            if negb (password_valid (i_Password input) (PasswordHash model)) then invalidLogin r username
            else
              let user := to_user model in
              session ← startSession C config r user;
              match session with
              | None => mret (error_response 500 "session_unavailable")
              | Some cookies =>
                  _ ← resetAttempts keys;
                  now ← now_;
                  _ ← exec (update_users (by_user_id (ID user)) (set_login now));
                  _ ← recordAudit (entry (Some (ID user)) "identity.password_accepted" (user_subject (ID user)) (Remote r) None);
                  let next := if bool_decide (TOTPConfirmedAt model = None) then "authenticated"%string else "mfa_challenge"%string in
                  mret (set_cookies cookies (ok_response 200 (JObj [("user"%string, user_json user); ("next"%string, JStr next)])))
              end
        end
  end.

Definition passwordPolicy : json :=
  JObj [("minLength"%string, JNum (itoa minimumPasswordLength)); ("maxLength"%string, JNum (itoa maximumPasswordLength));
        ("requiredClasses"%string, JNum (itoa requiredPasswordClasses)); ("classExemptLength"%string, JNum (itoa passphraseLength));
        ("denylistApplied"%string, JBool true); ("rejectsUsername"%string, JBool true)].

Definition statusHTTP (r : request) : program response :=
  required ← query bootstrapRequired;
  match required with
  | None => mret unavailable
  | Some required =>
      tokenRequired ← (if required : bool then allowed ← bootstrapRequestAllowed r EmptyString; mret (Some (negb allowed))
                       else mret None);
      person ← authenticate C config r;
      let '(user, enabled, challenge, authenticated, recommended) := match person with
        | None => ([], false, false, false, false)
        | Some person =>
            let user := [("user"%string, user_json (p_User person))] in
            let enrolled := MFAEnrolled person in
            if enrolled && bool_decide (p_MFAVerifiedAt person = None)
            then (user, enrolled, true, false, false)
            else (user, enrolled, false, true, negb enrolled)
        end in
      mret (ok_response 200 (JObj (
        [("bootstrapRequired"%string, JBool required); ("authenticated"%string, JBool authenticated);
         ("mfaEnabled"%string, JBool enabled); ("mfaChallengeRequired"%string, JBool challenge);
         ("mfaEnrollmentRecommended"%string, JBool recommended); ("passwordPolicy"%string, passwordPolicy)] ++
        match tokenRequired with Some b => [("bootstrapTokenRequired"%string, JBool b)] | None => [] end ++ user)))
  end.

Definition sessionHTTP (person : principal) : program response :=
  mret (ok_response 200 (JObj [("user"%string, user_json (p_User person))])).

(** [ID] of the principal's account. *)
Definition account (person : principal) : string := ID (p_User person).

Definition change_password_tx (person : principal) (newHash : string) (d : db) : result unit (unit * db) :=
  Ok (tt, delete_sessions (fun s => by_owner (account person) s && negb (by_session_id (SessionID person) s))
            (update_users (by_user_id (account person)) (set_password newHash) d)).

Record changePasswordRequest := mk_change { CurrentPassword : string; NewPassword : string }.

Definition changePasswordHTTP (r : request) (input : option changePasswordRequest) (person : principal) : program response :=
  match input with
  | None => mret invalid_request
  | Some input =>
      if bool_decide (CurrentPassword input = EmptyString) then mret invalid_request
      else if negb (is_ok (validate (NewPassword input) (p_Username (p_User person))))
      then mret (error_response 422 "invalid_credentials")
      else
        let attemptKey := "password-change:" +:+ account person in
        ok ← allow_attempt C attemptKey;
        if negb (ok : bool) then mret (error_response 429 "too_many_attempts")
        else
          row ← query (user_by_id (account person));
          match row with
          | None | Some None => mret unavailable
          | Some (Some model) =>
              if negb (password_valid (CurrentPassword input) (PasswordHash model))
              then mret (error_response 401 "invalid_credentials")
              else if password_valid (NewPassword input) (PasswordHash model)
              then mret (error_response 422 "password_unchanged")
              else
                newHash ← hash_password (NewPassword input);
                changed ← transaction tt (change_password_tx person newHash);
                match changed with
                | Err _ => mret unavailable
                | Ok _ =>
                    _ ← reset_attempt attemptKey;
                    _ ← recordAudit (entry (Some (account person)) "identity.password_changed" (user_subject (account person)) (Remote r) None);
                    mret (ok_response 204 JNull)
                end
          end
  end.

Definition logoutHTTP (r : request) : program response :=
  person ← requireSession C config r;
  match person with
  | Err errCSRFRejected => mret (error_response 403 "invalid_csrf_token")
  | Err _ => mret (error_response 401 "authentication_required")
  | Ok person =>
      ended ← exec (delete_sessions (by_session_id (SessionID person)));
      match ended with
      | None => mret (error_response 500 "session_unavailable")
      | Some _ =>
          _ ← recordAudit (entry (Some (account person)) "identity.logout" (user_subject (account person)) (Remote r) None);
          mret (set_cookies (clearSessionCookie r) (ok_response 204 JNull))
      end
  end.

(** ** The second factor *)
Definition totpSecretLabelPrefix : string := "identity.totp.".
Definition mfaAttemptKey (userID : string) : string := "mfa:" +:+ userID.
Definition mfaLockoutKey (userID : string) : string := "mfa-lockout:" +:+ userID.

(** [None]: the attempt may go on; otherwise the code of the refusal. *)
Definition allowMFAAttempt (userID : string) : program (option string) :=
  now ← now_;
  lockOK ← atomically (fun w => let '(ok, l) := Allow (c_order C) (mfaLockoutKey userID) now (lockouts w) in (ok, with_lockouts l w));
  burstOK ← atomically (fun w => let '(ok, l) := Allow (c_order C) (mfaAttemptKey userID) now (attempts w) in (ok, with_attempts l w));
  mret (if negb lockOK then Some "account_locked"%string else if negb burstOK then Some "too_many_attempts"%string else None).
Definition resetMFAAttempts (userID : string) : program unit :=
  _ ← reset_attempt (mfaAttemptKey userID);
  atomically (fun w => (tt, with_lockouts (Reset (mfaLockoutKey userID) (lockouts w)) w)).

Record mfaCodeRequest := mk_code { i_Code : string; i_RecoveryCode : string }.

(** The row and the decrypted secret; [None]: an error. *)
Definition loadMFAUser (userID : string) : program (option (userModel * string)) :=
  row ← query (user_by_id userID);
  mret match row with
  | None | Some None => None
  | Some (Some model) =>
      match TOTPSecretEncrypted model with
      | None => Some (model, EmptyString)
      | Some encrypted =>
          match c_Decrypt C (totpSecretLabelPrefix +:+ userID) encrypted with
          | Some secret => Some (model, secret)
          | None => None
          end
      end
  end.

Definition provisioning (person : principal) (secret : string) : json :=
  JObj [("secret"%string, JStr secret); ("provisioningUri"%string, JStr (provisioningURI (p_Username (p_User person)) secret))].

Definition mfaEnroll (person : principal) : program response :=
  row ← query (user_by_id (account person));
  match row with
  | None | Some None => mret unavailable
  | Some (Some model) =>
      if bool_decide (TOTPConfirmedAt model <> None) then mret (error_response 409 "mfa_already_enrolled")
      else match TOTPSecretEncrypted model with
      | None =>
          raw ← draw C 20; nonce ← draw C 12;
          let generated := generateTOTPSecret raw in
          match c_Encrypt C nonce (totpSecretLabelPrefix +:+ account person) generated with
          | None => mret unavailable
          | Some encrypted =>
              stored ← exec (update_users (by_user_id (account person))
                (fun u => set_factor (Some encrypted) (TOTPConfirmedAt u) (TOTPLastStep u) (RecoveryCodeHashes u) u));
              match stored with
              | None => mret unavailable
              | Some _ => mret (ok_response 200 (provisioning person generated))
              end
          end
      | Some encrypted =>
          match c_Decrypt C (totpSecretLabelPrefix +:+ account person) encrypted with
          | None => mret unavailable
          | Some secret => mret (ok_response 200 (provisioning person secret))
          end
      end
  end.
Definition mfaEnrollHTTP (r : request) : program response := preAuthentication C config mfaEnroll r.

Inductive tx_error := errTxDriver | errTxRejected.

(** An update that must hit exactly one row. *)
Definition update_one (p : userModel -> bool) (f : userModel -> userModel) (d : db) : result tx_error db :=
  if rows_affected p (users d) =? 1 then Ok (update_users p f d) else Err errTxRejected.

Definition mark_verified (person : principal) (now : Z) : db -> db :=
  update_sessions (by_session_id (SessionID person)) (set_verified (Some now)).

Definition confirm_tx (person : principal) (now step : Z) (hashes : string) (d : db) : result tx_error (unit * db) :=
  d ← update_one (fun u => by_user_id (account person) u && bool_decide (TOTPConfirmedAt u = None))
        (fun u => set_factor (TOTPSecretEncrypted u) (Some (sql_time now)) step hashes u) d;
  Ok (tt, mark_verified person now d).

(** [count] draws of eight bytes. *)
Fixpoint draw_codes (count : nat) : program (list string) :=
  match count with O => mret [] | S n => raw ← draw C 8; rest ← draw_codes n; mret (raw :: rest) end.

Definition mfaConfirm (r : request) (input : option mfaCodeRequest) (person : principal) : program response :=
  match input with
  | None => mret invalid_request
  | Some input =>
      if bool_decide (i_Code input = EmptyString) || negb (bool_decide (i_RecoveryCode input = EmptyString)) then mret invalid_request
      else
        refusal ← allowMFAAttempt (account person);
        match refusal with
        | Some code => mret (error_response 429 code)
        | None =>
            loaded ← loadMFAUser (account person);
            match loaded with
            | None => mret (error_response 409 "mfa_enrollment_required")
            | Some (model, secret) =>
                if bool_decide (TOTPSecretEncrypted model = None) then mret (error_response 409 "mfa_enrollment_required")
                else if bool_decide (TOTPConfirmedAt model <> None) then mret (error_response 409 "mfa_already_enrolled")
                else
                  now ← now_;
                  match totp secret (i_Code input) now (TOTPLastStep model) with
                  | None => mret (error_response 401 "invalid_mfa_code")
                  | Some step =>
                      draws ← draw_codes 10;
                      let '(codes, hashes) := generateRecoveryCodes (c_sha256 C) draws in
                      now ← now_;
                      confirmed ← transaction errTxDriver (confirm_tx person now step (marshal_strings hashes));
                      match confirmed with
                      | Err _ => mret unavailable
                      | Ok _ =>
                          _ ← resetMFAAttempts (account person);
                          _ ← recordAudit (entry (Some (account person)) "identity.mfa_enrolled" (user_subject (account person)) (Remote r) None);
                          mret (ok_response 200 (JObj [("user"%string, user_json (p_User person)); ("recoveryCodes"%string, JArr (map JStr codes))]))
                      end
                  end
            end
        end
  end.
Definition mfaConfirmHTTP (r : request) (input : option mfaCodeRequest) : program response :=
  preAuthentication C config (mfaConfirm r input) r.

Definition clear_factor : userModel -> userModel := set_factor None None 0 "[]".

Definition mfaDisableHTTP (r : request) (password : option string) (person : principal) : program response :=
  if bool_decide (p_TOTPConfirmedAt person <> None) && bool_decide (p_MFAVerifiedAt person = None)
  then mret (error_response 403 "mfa_step_up_required")
  else match password with
  | None => mret invalid_request
  | Some password =>
      if bool_decide (password = EmptyString) then mret invalid_request
      else
        let attemptKey := "mfa-disable:" +:+ account person in
        ok ← allow_attempt C attemptKey;
        if negb (ok : bool) then mret (error_response 429 "too_many_attempts")
        else
          row ← query (user_by_id (account person));
          match row with
          | None | Some None => mret unavailable
          | Some (Some model) =>
              if bool_decide (TOTPConfirmedAt model = None) then mret (error_response 409 "mfa_not_enrolled")
              else if negb (password_valid password (PasswordHash model)) then mret (error_response 401 "invalid_credentials")
              else
                cleared ← exec (update_users (by_user_id (account person)) clear_factor);
                match cleared with
                | None => mret unavailable
                | Some _ =>
                    _ ← reset_attempt attemptKey;
                    _ ← recordAudit (entry (Some (account person)) "identity.mfa_disabled" (user_subject (account person)) (Remote r)
                          (Some [("role"%string, JStr (Role (p_User person)))]));
                    mret (ok_response 200 (JObj [("user"%string, user_json (p_User person)); ("mfaEnabled"%string, JBool false)]))
                end
          end
  end.

Definition totp_tx (person : principal) (now step : Z) (d : db) : result tx_error (unit * db) :=
  d ← update_one (fun u => by_user_id (account person) u && (TOTPLastStep u <? step))
        (fun u => set_factor (TOTPSecretEncrypted u) (TOTPConfirmedAt u) step (RecoveryCodeHashes u) u) d;
  Ok (tt, mark_verified person now d).

Definition verifyTOTPChallenge (person : principal) (code : string) : program (result tx_error unit) :=
  loaded ← loadMFAUser (account person);
  match loaded with
  | None => mret (Err errTxDriver)
  | Some (model, secret) =>
      if bool_decide (TOTPConfirmedAt model = None) then mret (Err errTxRejected)
      else
        now ← now_;
        match totp secret code now (TOTPLastStep model) with
        | None => mret (Err errTxRejected)
        | Some step => now ← now_; transaction errTxDriver (totp_tx person now step)
        end
  end.

(** The hashes, and the index of the last that matches. *)
Definition recoveryCodeMatch (encoded wantedHash : string) : option (list string * option nat) :=
  match c_unmarshal_strings C encoded with
  | None => None
  | Some hashes =>
      Some (hashes, (foldl (fun '(index, matched) hash =>
        (S index, if bool_decide (hash = wantedHash) then Some index else matched)) (0%nat, None) hashes).2)
  end.

Definition recovery_tx (person : principal) (wantedHash : string) (now : Z) (d : db) : result tx_error (unit * db) :=
  match user_by_id (account person) d with
  | None => Err errTxDriver
  | Some model =>
      match recoveryCodeMatch (RecoveryCodeHashes model) wantedHash with
      | Some (hashes, Some matched) =>
          let rest := take matched hashes ++ drop (S matched) hashes in
          d ← update_one (fun u => by_user_id (account person) u && bool_decide (RecoveryCodeHashes u = RecoveryCodeHashes model))
                (fun u => set_factor (TOTPSecretEncrypted u) (TOTPConfirmedAt u) (TOTPLastStep u) (marshal_strings rest) u) d;
          Ok (tt, mark_verified person now d)
      | _ => Err errTxRejected
      end
  end.
Definition verifyRecoveryChallenge (person : principal) (code : string) : program (result tx_error unit) :=
  now ← now_; transaction errTxDriver (recovery_tx person (hash_code code) now).

Definition mfaVerify (r : request) (input : option mfaCodeRequest) (person : principal) : program response :=
  match input with
  | None => mret invalid_request
  | Some input =>
      if Bool.eqb (bool_decide (i_Code input = EmptyString)) (bool_decide (i_RecoveryCode input = EmptyString)) then mret invalid_request
      else
        refusal ← allowMFAAttempt (account person);
        match refusal with
        | Some code => mret (error_response 429 code)
        | None =>
            let by_code := negb (bool_decide (i_Code input = EmptyString)) in
            let method := if by_code then "totp"%string else "recovery_code"%string in
            verified ← (if by_code then verifyTOTPChallenge person (i_Code input)
                        else verifyRecoveryChallenge person (i_RecoveryCode input));
            match verified with
            | Err _ =>
                _ ← recordAudit (entry (Some (account person)) "identity.mfa_failed" (user_subject (account person)) (Remote r) (Some [("method"%string, JStr method)]));
                mret (error_response 401 "invalid_mfa_code")
            | Ok _ =>
                _ ← resetMFAAttempts (account person);
                _ ← recordAudit (entry (Some (account person)) "identity.login" (user_subject (account person)) (Remote r) (Some [("method"%string, JStr method)]));
                mret (ok_response 200 (JObj [("user"%string, user_json (p_User person))]))
            end
        end
  end.
Definition mfaVerifyHTTP (r : request) (input : option mfaCodeRequest) : program response :=
  preAuthentication C config (mfaVerify r input) r.

Definition replace_tx (person : principal) (wantedHash encryptedSecret : string) (d : db) : result tx_error (unit * db) :=
  match user_by_id (account person) d with
  | None => Err errTxDriver
  | Some model =>
      if bool_decide (TOTPConfirmedAt model = None) then Err errTxRejected
      else match recoveryCodeMatch (RecoveryCodeHashes model) wantedHash with
      | Some (_, Some _) =>
          d ← update_one (fun u => by_user_id (account person) u && bool_decide (RecoveryCodeHashes u = RecoveryCodeHashes model) &&
                                   bool_decide (TOTPConfirmedAt u <> None))
                (set_factor (Some encryptedSecret) None 0 "[]") d;
          Ok (tt, update_sessions (by_session_id (SessionID person)) (set_verified None)
                    (delete_sessions (fun s => by_owner (account person) s && negb (by_session_id (SessionID person) s)) d))
      | _ => Err errTxRejected
      end
  end.
Definition replaceMFAWithRecovery (person : principal) (code encryptedSecret : string) : program (result tx_error unit) :=
  transaction errTxDriver (replace_tx person (hash_code code) encryptedSecret).

Definition mfaRecover (r : request) (input : option mfaCodeRequest) (person : principal) : program response :=
  match input with
  | None => mret invalid_request
  | Some input =>
      if bool_decide (i_RecoveryCode input = EmptyString) || negb (bool_decide (i_Code input = EmptyString)) then mret invalid_request
      else
        refusal ← allowMFAAttempt (account person);
        match refusal with
        | Some code => mret (error_response 429 code)
        | None =>
            raw ← draw C 20; nonce ← draw C 12;
            let secret := generateTOTPSecret raw in
            match c_Encrypt C nonce (totpSecretLabelPrefix +:+ account person) secret with
            | None => mret unavailable
            | Some encrypted =>
                replaced ← replaceMFAWithRecovery person (i_RecoveryCode input) encrypted;
                match replaced with
                | Err _ =>
                    _ ← recordAudit (entry (Some (account person)) "identity.mfa_recovery_failed" (user_subject (account person)) (Remote r) None);
                    mret (error_response 401 "invalid_mfa_code")
                | Ok _ =>
                    _ ← resetMFAAttempts (account person);
                    _ ← recordAudit (entry (Some (account person)) "identity.mfa_recovery_started" (user_subject (account person)) (Remote r) None);
                    mret (ok_response 200 (provisioning person secret))
                end
            end
        end
  end.
Definition mfaRecoverHTTP (r : request) (input : option mfaCodeRequest) : program response :=
  preAuthentication C config (mfaRecover r input) r.
End handlers.
