(* ===== verification/IdentityUsers.v ===== *)
(** * User administration

    [internal/platform/identity]: managing accounts and site grants (users_http.go)
    and the break-glass reset of a second factor (breakglass.go).  The sites module
    answers [SiteExists] as of the moment it is asked; [rfc3339] and [rfc3339_nano]
    render an instant. *)

From Stdlib Require Import Ascii.
From S2P Require Import Prelude GoStrings Json Sql AuditLog Limiter Codec Programs Passwords Identity IdentityHandlers.

Local Open Scope Z_scope.

(** ** Managed users *)
Record ManagedUser := mk_managed {
  mu_ID : string;
  mu_Username : string;
  mu_Role : string;
  mu_CreatedAt : Z;
  mu_LastLoginAt : option Z;
  MFAConfirmed : bool;
  SiteIDs : list string;
}.
Definition toManagedUser (model : userModel) (siteIDs : list string) : ManagedUser :=
  mk_managed (u_ID model) (Username model) (u_Role model) (u_CreatedAt model) (LastLoginAt model)
    (bool_decide (TOTPConfirmedAt model <> None)) siteIDs.

Definition validManagedRole (role : string) : bool :=
  bool_decide (role ∈ ["admin"; "operator"; "developer"; "viewer"]%string).

Inductive user_error := errNoRows | errLastAdmin | errNotDeveloper | errUserDriver.

Definition is_admin (u : userModel) : bool := bool_decide (u_Role u = "admin"%string).
(** [SELECT count( * ) WHERE role = 'admin'] *)
Definition admins (d : db) : Z := rows_affected is_admin (users d).

Fixpoint dedupe (seen : gset string) (values : list string) : list string :=
  match values with
  | [] => []
  | value :: rest => if bool_decide (value ∈ seen) then dedupe seen rest else value :: dedupe ({[value]} ∪ seen) rest
  end.
Definition dedupeStrings (values : list string) : list string := dedupe ∅ values.

Fixpoint insert_grants (l : list siteGrantModel) (d : db) : option db :=
  match l with [] => Some d | g :: rest => d ← insert_grant g d; insert_grants rest d end.

(** ** The transactions *)
Definition update_user_tx (id : string) (role hash : option string) (d : db) : result user_error (userModel * db) :=
  match user_by_id id d with
  | None => Err errNoRows
  | Some model =>
      let demoted := match role with
        | Some role => is_admin model && negb (bool_decide (role = "admin"%string))
        | None => false
        end in
      if demoted && (admins d <=? 1) then Err errLastAdmin
      else
        let set_given u := let u := match role with Some role => set_role role u | None => u end in
                           match hash with Some hash => set_password hash u | None => u end in
        Ok (match role with Some role => set_role role model | None => model end,
            delete_sessions (by_owner id) (update_users (by_user_id id) set_given d))
  end.

Definition delete_user_tx (id : string) (d : db) : result user_error (userModel * db) :=
  match user_by_id id d with
  | None => Err errNoRows
  | Some model =>
      if is_admin model && (admins d <=? 1) then Err errLastAdmin
      else Ok (model, delete_user id (with_grants (delete_where (grant_of id) (grants d)) d))
  end.

Definition replace_sites_tx (id : string) (siteIDs : list string) (now : Z) (d : db) : result user_error (unit * db) :=
  match user_by_id id d with
  | None => Err errNoRows
  | Some model =>
      if negb (bool_decide (u_Role model = "developer"%string)) then Err errNotDeveloper
      else
        let d := with_grants (delete_where (grant_of id) (grants d)) d in
        match insert_grants (map (fun site => mk_grant id site (sql_time now)) siteIDs) d with
        | Some d => Ok (tt, d)
        | None => Err errUserDriver
        end
  end.

(** What the break-glass reset reports. *)
Record BreakGlassReset := mk_reset {
  r_UserID : string;
  r_Username : string;
  r_Role : string;
  WasEnrolled : bool;
  SessionsRevoked : Z;
}.
Definition no_reset : BreakGlassReset := mk_reset EmptyString EmptyString EmptyString false 0.
Inductive reset_error := errUsernameRequired | ErrUnknownAccount (username : string) | errResetDriver | errUnrecorded.

Definition reset_tx (username : string) (d : db) : result reset_error (BreakGlassReset * db) :=
  match user_named username d with
  | None => Err (ErrUnknownAccount username)
  | Some model =>
      let d := update_users (by_user_id (u_ID model)) clear_factor d in
      Ok (mk_reset (u_ID model) (Username model) (u_Role model) (bool_decide (TOTPConfirmedAt model <> None))
            (rows_affected (by_owner (u_ID model)) (sessions d)),
          delete_sessions (by_owner (u_ID model)) d)
  end.

Section users.
Context (C : crypto) (config : Config) (rfc3339 rfc3339_nano : Z -> string).
Context (siteDirectory : option (string -> world -> option bool)).
Local Abbreviation program := (prog world).
Local Abbreviation validate := (validatePassword (c_IsLower C) (c_IsUpper C) (c_IsDigit C) (c_commonPasswordList C)).
Local Abbreviation validate_credentials := (validateCredentials (c_IsLower C) (c_IsUpper C) (c_IsDigit C) (c_commonPasswordList C)).

Definition managed_json (u : ManagedUser) : json :=
  JObj ([("id"%string, JStr (mu_ID u)); ("username"%string, JStr (mu_Username u)); ("role"%string, JStr (mu_Role u));
         ("createdAt"%string, JStr (rfc3339_nano (mu_CreatedAt u)))] ++
        match mu_LastLoginAt u with Some t => [("lastLoginAt"%string, JStr (rfc3339_nano t))] | None => [] end ++
        [("mfaConfirmed"%string, JBool (MFAConfirmed u)); ("siteIds"%string, JArr (map JStr (SiteIDs u)))]).

(** ** Site scoping *)
Definition SiteAccessible (user : User) (siteID : string) : program (option bool) :=
  if negb (bool_decide (Role user = "developer"%string)) then mret (Some true)
  else query (fun d => select_exists (fun g => grant_of (ID user) g && bool_decide (g_SiteID g = siteID)) (grants d)).

Definition grantedSiteIDs_of (userID : string) (d : db) : list string :=
  sort_strings (map g_SiteID (select_where (grant_of userID) (grants d))).
Definition grantedSiteIDs (userID : string) : program (option (list string)) := query (grantedSiteIDs_of userID).

Definition AccessibleSiteIDs (user : User) : program (option (bool * list string)) :=
  if negb (bool_decide (Role user = "developer"%string)) then mret (Some (true, []))
  else ids ← grantedSiteIDs (ID user); mret (match ids with Some ids => Some (false, ids) | None => None end).

(** ** The handlers *)
Definition username_le (u v : userModel) : Prop := str_le (nocase (Username u)) (nocase (Username v)).
#[export] Instance username_le_dec : RelDecision username_le.
Proof. intros u v. unfold username_le. apply _. Defined.
Definition site_le (g h : siteGrantModel) : Prop := str_le (g_SiteID g) (g_SiteID h).
#[export] Instance site_le_dec : RelDecision site_le.
Proof. intros g h. unfold site_le. apply _. Defined.

Definition sites_by_user (l : list siteGrantModel) : gmap string (list string) :=
  foldl (fun m g => <[g_UserID g := default [] (m !! g_UserID g) ++ [g_SiteID g]]> m) ∅ l.

Definition listUsersHTTP : program response :=
  models ← query (fun d => merge_sort username_le (users d));
  match models with
  | None => mret unavailable
  | Some models =>
      grants ← query (fun d => merge_sort site_le (grants d));
      mret match grants with
           | None => unavailable
           | Some grants =>
               let siteIDs := sites_by_user grants in
               ok_response 200 (JObj [("items"%string,
                 JArr (map (fun model => managed_json (toManagedUser model (default [] (siteIDs !! u_ID model)))) models))])
           end
  end.

Record createUserRequest := mk_create { n_Username : string; n_Password : string; n_Role : string }.

Definition createUserHTTP (r : request) (input : option createUserRequest) (person : principal) : program response :=
  match input with
  | None => mret invalid_request
  | Some input =>
      let username := trim_space (n_Username input) in
      if negb (is_ok (validate_credentials username (n_Password input))) then mret (error_response 422 "invalid_credentials")
      else if negb (validManagedRole (n_Role input)) then mret (error_response 422 "invalid_role")
      else
        passwordHash ← hash_password C config (n_Password input);
        id ← randomID C 16; now ← now_;
        let model := mk_user_model id username passwordHash now None (n_Role input) None None 0 "[]" in
        stored ← insert (insert_user (mk_user_model id username passwordHash (sql_time now) None (n_Role input) None None 0 "[]"));
        match stored with
        | Err unique => mret (if unique : bool then error_response 409 "username_taken" else unavailable)
        | Ok _ =>
            _ ← recordAudit (entry (Some (account person)) "identity.user_created" (user_subject id) (Remote r)
                  (Some [("username"%string, JStr username); ("role"%string, JStr (n_Role input))]));
            mret (ok_response 201 (managed_json (toManagedUser model [])))
        end
  end.

Record updateUserRequest := mk_update { o_Role : option string; o_Password : option string }.

Definition user_failure (e : user_error) : response :=
  match e with
  | errNoRows => error_response 404 "user_not_found"
  | errLastAdmin => error_response 409 "last_admin"
  | errNotDeveloper => error_response 400 "user_not_developer"
  | errUserDriver => unavailable
  end.

(** The hash of the password the request gives, checked against the policy. *)
Definition given_hash (id : string) (password : option string) : program (result response (option string)) :=
  match password with
  | None => mret (Ok None)
  | Some password =>
      row ← query (user_by_id id);
      match row with
      | None => mret (Err unavailable)
      | Some None => mret (Err (user_failure errNoRows))
      | Some (Some model) =>
          if negb (is_ok (validate password (Username model))) then mret (Err (error_response 422 "invalid_credentials"))
          else hash ← hash_password C config password; mret (Ok (Some hash))
      end
  end.

Definition updateUserHTTP (id : string) (r : request) (input : option updateUserRequest) (person : principal) : program response :=
  match input with
  | None => mret invalid_request
  | Some input =>
      if bool_decide (o_Role input = None) && bool_decide (o_Password input = None) then mret invalid_request
      else if match o_Role input with Some role => negb (validManagedRole role) | None => false end
      then mret (error_response 422 "invalid_role")
      else
        hash ← given_hash id (o_Password input);
        match hash with
        | Err refusal => mret refusal
        | Ok hash =>
            updated ← transaction errUserDriver (update_user_tx id (o_Role input) hash);
            match updated with
            | Err e => mret (user_failure e)
            | Ok model =>
                _ ← recordAudit (entry (Some (account person)) "identity.user_updated" (user_subject id) (Remote r)
                      (Some (("passwordChanged"%string, JBool (bool_decide (o_Password input <> None))) ::
                        match o_Role input with Some role => [("role"%string, JStr role)] | None => [] end)));
                siteIDs ← grantedSiteIDs id;
                mret match siteIDs with
                     | None => unavailable
                     | Some siteIDs => ok_response 200 (managed_json (toManagedUser model siteIDs))
                     end
            end
        end
  end.

Definition deleteUserHTTP (id : string) (r : request) (person : principal) : program response :=
  if bool_decide (id = account person) then mret (error_response 409 "self_delete_forbidden")
  else
    deleted ← transaction errUserDriver (delete_user_tx id);
    match deleted with
    | Err e => mret (user_failure e)
    | Ok model =>
        _ ← recordAudit (entry (Some (account person)) "identity.user_deleted" (user_subject id) (Remote r)
              (Some [("username"%string, JStr (Username model)); ("role"%string, JStr (u_Role model))]));
        mret (ok_response 204 JNull)
    end.

(** The first refusal of the directory, if any. *)
Fixpoint unknown_site (exists_ : string -> world -> option bool) (siteIDs : list string) : program (option response) :=
  match siteIDs with
  | [] => mret None
  | siteID :: rest =>
      found ← atomically (fun w => (exists_ siteID w, w));
      match found with
      | None => mret (Some unavailable)
      | Some false => mret (Some (error_response 422 "unknown_site"))
      | Some true => unknown_site exists_ rest
      end
  end.

(** The decoded [siteIds]: [None] for a null or absent member. *)
Definition replaceUserSitesHTTP (id : string) (r : request) (input : option (option (list string))) (person : principal)
    : program response :=
  match siteDirectory with
  | None => mret (error_response 503 "sites_unavailable")
  | Some exists_ =>
      match input with
      | None | Some None => mret invalid_request
      | Some (Some values) =>
          let siteIDs := dedupeStrings values in
          refusal ← unknown_site exists_ siteIDs;
          match refusal with
          | Some refusal => mret refusal
          | None =>
              now ← now_;
              replaced ← transaction errUserDriver (replace_sites_tx id siteIDs now);
              match replaced with
              | Err e => mret (user_failure e)
              | Ok _ =>
                  let sites := JArr (map JStr siteIDs) in
                  _ ← recordAudit (entry (Some (account person)) "identity.user_site_grants_replaced" (user_subject id) (Remote r)
                        (Some [("siteIds"%string, sites)]));
                  mret (ok_response 200 (JObj [("siteIds"%string, sites)]))
              end
          end
      end
  end.

(** ** Break-glass *)
(** [recorded]: the command line gives a recorder. *)
Definition ResetSecondFactor (recorded : bool) (username : string) (now : Z) : program (BreakGlassReset * option reset_error) :=
  let username := trim_space username in
  if bool_decide (username = EmptyString) then mret (no_reset, Some errUsernameRequired)
  else
    done_ ← transaction errResetDriver (reset_tx username);
    match done_ with
    | Err e => mret (no_reset, Some e)
    | Ok reset =>
        if negb recorded then mret (reset, None)
        else
          let event := entry None "identity.mfa_break_glass_reset" (user_subject (r_UserID reset)) EmptyString
            (Some [("username"%string, JStr (r_Username reset)); ("role"%string, JStr (r_Role reset));
                   ("wasEnrolled"%string, JBool (WasEnrolled reset));
                   ("sessionsRevoked"%string, JNum (itoa (SessionsRevoked reset)));
                   ("via"%string, JStr "cli"); ("resetAt"%string, JStr (rfc3339 now))]) in
          act (fun fault w => if fault : bool then ((reset, Some errUnrecorded), w)
                              else ((reset, None), with_entries (entries w ++ [event]) w))
    end.
End users.

(** ** Permissions, and the routes of the identity module

    [internal/platform/authorization/authorization.go]: the role matrix and the
    permission middleware; [controlpanel/server.go]: how a route is put behind the
    two middlewares; [identity.Register]: the operations of the identity module,
    with the permission and the security requirement that the API contract embedded
    in the program declares for each. *)
(** ** The role matrix *)
Inductive Permission :=
| SystemRead | SystemUpdate | JobsRead | AuditRead | RuntimesRead | SitesRead | SitesWrite | DomainsRead | DomainsWrite
| CertificatesRead | CertificatesWrite | DatabasesRead | DatabasesWrite | OperationsApply | FilesRead | FilesWrite | LogsRead
| SchedulesRead | SchedulesWrite | ApplicationsRead | ApplicationsWrite | BackupsRead | BackupsWrite | ServicesRead
| ServicesWrite | FirewallRead | FirewallWrite | DeployRead | DeployWrite | UsersManage.
#[export] Instance Permission_eq_dec : EqDecision Permission.
Proof. solve_decision. Defined.

Definition permission_name (p : Permission) : string :=
  match p with
  | SystemRead => "system.read" | SystemUpdate => "system.update" | JobsRead => "jobs.read" | AuditRead => "audit.read"
  | RuntimesRead => "runtimes.read" | SitesRead => "sites.read" | SitesWrite => "sites.write"
  | DomainsRead => "domains.read" | DomainsWrite => "domains.write" | CertificatesRead => "certificates.read"
  | CertificatesWrite => "certificates.write" | DatabasesRead => "databases.read" | DatabasesWrite => "databases.write"
  | OperationsApply => "operations.apply" | FilesRead => "files.read" | FilesWrite => "files.write" | LogsRead => "logs.read"
  | SchedulesRead => "schedules.read" | SchedulesWrite => "schedules.write" | ApplicationsRead => "applications.read"
  | ApplicationsWrite => "applications.write" | BackupsRead => "backups.read" | BackupsWrite => "backups.write"
  | ServicesRead => "services.read" | ServicesWrite => "services.write" | FirewallRead => "firewall.read"
  | FirewallWrite => "firewall.write" | DeployRead => "deploy.read" | DeployWrite => "deploy.write"
  | UsersManage => "users.manage"
  end.

Definition AllPermissions : list Permission :=
  [SystemRead; SystemUpdate; JobsRead; AuditRead; RuntimesRead; SitesRead; SitesWrite; DomainsRead; DomainsWrite;
   CertificatesRead; CertificatesWrite; DatabasesRead; DatabasesWrite; OperationsApply; FilesRead; FilesWrite; LogsRead;
   SchedulesRead; SchedulesWrite; ApplicationsRead; ApplicationsWrite; BackupsRead; BackupsWrite; ServicesRead;
   ServicesWrite; FirewallRead; FirewallWrite; DeployRead; DeployWrite; UsersManage].

Definition role_grants : list (string * list Permission) :=
  [("viewer"%string, [SystemRead; JobsRead; RuntimesRead; SitesRead; DomainsRead; CertificatesRead; DatabasesRead; FilesRead;
     LogsRead; SchedulesRead; ApplicationsRead; BackupsRead; ServicesRead; FirewallRead; DeployRead]);
   ("developer"%string, [SystemRead; JobsRead; RuntimesRead; SitesRead; FilesRead; FilesWrite; LogsRead; SchedulesRead;
     SchedulesWrite; ApplicationsRead; BackupsRead; DeployRead; DeployWrite]);
   ("operator"%string, [SystemRead; JobsRead; RuntimesRead; SitesRead; SitesWrite; DomainsRead; DomainsWrite;
     CertificatesRead; CertificatesWrite; DatabasesRead; DatabasesWrite; FilesRead; FilesWrite; LogsRead; SchedulesRead;
     SchedulesWrite; ApplicationsRead; ApplicationsWrite; BackupsRead; BackupsWrite; ServicesRead; ServicesWrite;
     FirewallRead; FirewallWrite; DeployRead; DeployWrite]);
   ("admin"%string, [SystemRead; SystemUpdate; JobsRead; AuditRead; RuntimesRead; SitesRead; SitesWrite; DomainsRead;
     DomainsWrite; CertificatesRead; CertificatesWrite; DatabasesRead; DatabasesWrite; OperationsApply; FilesRead;
     FilesWrite; LogsRead; SchedulesRead; SchedulesWrite; ApplicationsRead; ApplicationsWrite; BackupsRead; BackupsWrite;
     ServicesRead; ServicesWrite; FirewallRead; FirewallWrite; DeployRead; DeployWrite; UsersManage])].

(** A permission is compared by its name. *)
Definition Allowed (role permission : string) : bool :=
  existsb (fun '(r, granted) => bool_decide (r = role) &&
             existsb (fun p => bool_decide (permission_name p = permission)) granted) role_grants.

Definition sensitivePermission (permission : string) : bool :=
  bool_decide (permission ∈ map permission_name [OperationsApply; UsersManage; SystemUpdate; FirewallWrite; DeployWrite]).

Definition stepUpTTL : Z := 10 * minute.

(** ** Routes behind the middlewares *)
Section routes.
Context (C : crypto) (config : Config).
Local Abbreviation program := (prog world).

(** [Policy.Middleware] *)
Definition authorize (permission : string) (next : principal -> program response) (person : principal) : program response :=
  if negb (Allowed (Role (p_User person)) permission) then mret (error_response 403 "permission_denied")
  else if sensitivePermission permission && MFAEnrolled person then
    now ← now_;
    if negb (RecentMFA person now stepUpTTL) then mret (error_response 403 "mfa_step_up_required")
    else next person
  else next person.

Definition HandleAuthenticated (next : principal -> program response) (r : request) : program response :=
  Middleware C config next r.
Definition HandleAuthorized (permission : string) (next : principal -> program response) (r : request) : program response :=
  Middleware C config (authorize permission next) r.

(** ** The operations of the identity module *)
Context (rfc3339_nano : Z -> string) (siteDirectory : option (string -> world -> option bool)) (tokenPath : string).

(** An operation of the contract, with the decoded body and the path value. *)
Inductive operation :=
| getIdentityStatus
| bootstrapAdministrator (input : option bootstrapRequest)
| login (input : option credentials)
| enrollMFA
| confirmMFA (input : option mfaCodeRequest)
| verifyMFA (input : option mfaCodeRequest)
| recoverMFA (input : option mfaCodeRequest)
| disableMFA (password : option string)
| changePassword (input : option changePasswordRequest)
| getSession
| logout
| listUsers
| createUser (input : option createUserRequest)
| updateUser (id : string) (input : option updateUserRequest)
| deleteUser (id : string)
| replaceUserSiteGrants (id : string) (input : option (option (list string))).

(** How [Register] binds an operation. *)
Definition Register (op : operation) (r : request) : program response :=
  let users_manage next := HandleAuthorized (permission_name UsersManage) next r in
  match op with
  | getIdentityStatus => statusHTTP C config r
  | bootstrapAdministrator input => bootstrapHTTP C config tokenPath r input
  | login input => loginHTTP C config r input
  | enrollMFA => mfaEnrollHTTP C config r
  | confirmMFA input => mfaConfirmHTTP C config r input
  | verifyMFA input => mfaVerifyHTTP C config r input
  | recoverMFA input => mfaRecoverHTTP C config r input
  | disableMFA password => HandleAuthenticated (mfaDisableHTTP C r password) r
  | changePassword input => HandleAuthenticated (changePasswordHTTP C config r input) r
  | getSession => HandleAuthenticated sessionHTTP r
  | logout => logoutHTTP C config r
  | listUsers => users_manage (fun _ => listUsersHTTP rfc3339_nano)
  | createUser input => users_manage (createUserHTTP C config rfc3339_nano r input)
  | updateUser id input => users_manage (updateUserHTTP C config rfc3339_nano id r input)
  | deleteUser id => users_manage (deleteUserHTTP id r)
  | replaceUserSiteGrants id input => users_manage (replaceUserSitesHTTP siteDirectory id r input)
  end.
End routes.
