(* ===== verification/IdentityLaws.v ===== *)
(** * What every request does to the identity tables

    The invariant of the tables, the ways a row of an account and of a session may
    change, and the lemmas that put every statement and transaction of the module
    under them. *)

From Stdlib Require Import Ascii.
From S2P Require Import Prelude GoStrings Json Sql AuditLog Limiter Codec Passwords Programs Identity IdentityHandlers IdentityUsers.

Local Open Scope Z_scope.

(** ** The invariant of the tables *)
Definition grant_key (g : siteGrantModel) : string * string := (g_UserID g, g_SiteID g).

Record db_ok (d : db) : Prop := {
  ok_ids : NoDup (map u_ID (users d));
  ok_names : NoDup (map (fun u => nocase (Username u)) (users d));
  ok_roles : Forall (fun u => validManagedRole (u_Role u) = true) (users d);
  ok_admin : users d <> [] -> 0 < admins d;
  ok_session_ids : NoDup (map s_ID (sessions d));
  ok_tokens : NoDup (map TokenHash (sessions d));
  ok_owners : Forall (fun s => s_UserID s ∈ map u_ID (users d)) (sessions d);
  ok_grants : NoDup (map grant_key (grants d));
  ok_grantees : Forall (fun g => g_UserID g ∈ map u_ID (users d)) (grants d);
}.

(** ** How rows may change *)
Definition same_factor (u u' : userModel) : Prop :=
  TOTPSecretEncrypted u' = TOTPSecretEncrypted u /\ TOTPConfirmedAt u' = TOTPConfirmedAt u /\
  TOTPLastStep u' = TOTPLastStep u /\ RecoveryCodeHashes u' = RecoveryCodeHashes u.

Section rows.
Context (C : crypto).

(** The factor answered a challenge. *)
Inductive factor_used (u u' : userModel) : Prop :=
| used_code :
    TOTPLastStep u < TOTPLastStep u' ->
    TOTPSecretEncrypted u' = TOTPSecretEncrypted u -> TOTPConfirmedAt u' = TOTPConfirmedAt u ->
    RecoveryCodeHashes u' = RecoveryCodeHashes u -> factor_used u u'
| used_recovery hashes i :
    c_unmarshal_strings C (RecoveryCodeHashes u) = Some hashes -> (i < length hashes)%nat ->
    RecoveryCodeHashes u' = marshal_strings (take i hashes ++ drop (S i) hashes) ->
    TOTPSecretEncrypted u' = TOTPSecretEncrypted u -> TOTPConfirmedAt u' = TOTPConfirmedAt u ->
    TOTPLastStep u' = TOTPLastStep u -> factor_used u u'
| used_enrollment :
    TOTPConfirmedAt u = None -> is_Some (TOTPConfirmedAt u') ->
    TOTPSecretEncrypted u' = TOTPSecretEncrypted u -> factor_used u u'.

Inductive factor_step (u u' : userModel) : Prop :=
| factor_same : same_factor u u' -> factor_step u u'
| factor_use : factor_used u u' -> factor_step u u'
(* a new secret is stored *)
| factor_enroll :
    is_Some (TOTPSecretEncrypted u') -> TOTPConfirmedAt u' = TOTPConfirmedAt u ->
    TOTPLastStep u' = TOTPLastStep u -> RecoveryCodeHashes u' = RecoveryCodeHashes u -> factor_step u u'
(* the factor is removed, or replaced by one that is not confirmed *)
| factor_reset :
    TOTPConfirmedAt u' = None -> TOTPLastStep u' = 0 -> RecoveryCodeHashes u' = "[]"%string -> factor_step u u'.

Definition same_session (s s' : sessionModel) : Prop :=
  s_ID s' = s_ID s /\ s_UserID s' = s_UserID s /\ TokenHash s' = TokenHash s /\ s_CreatedAt s' = s_CreatedAt s /\
  ExpiresAt s' = ExpiresAt s /\ CSRFTokenHash s' = CSRFTokenHash s.

(** A session row after a step in which the sessions of [V] may be marked verified. *)
Definition session_step (V : string -> Prop) (s s' : sessionModel) : Prop :=
  same_session s s' /\
  (MFAVerifiedAt s' = MFAVerifiedAt s \/ MFAVerifiedAt s' = None \/ V (s_ID s)).

(** The database after a step. *)
Record db_step (V : string -> Prop) (d d' : db) : Prop := {
  step_ok : db_ok d';
  step_accounts : users d <> [] -> users d' <> [];
  step_factors : forall u u', u ∈ users d -> u' ∈ users d' -> u_ID u = u_ID u' -> factor_step u u';
  step_sessions : forall s', s' ∈ sessions d' ->
    (exists s, s ∈ sessions d /\ session_step V s s') \/ MFAVerifiedAt s' = None;
}.

(** ** The guarantee of every request *)
(** The session [X] belonged to the account [U] at some moment. *)
Definition owned_before (h : list world) (X U : string) : Prop :=
  exists w s, w ∈ h /\ s ∈ sessions (database w) /\ s_ID s = X /\ s_UserID s = U.

(** The accounts whose factor answered a challenge in a step. *)
Definition answered (d d' : db) (U : string) : Prop :=
  exists u u', u ∈ users d /\ u' ∈ users d' /\ u_ID u = U /\ u_ID u' = U /\ factor_used u u'.

Definition guarantee (h : list world) (w' : world) : Prop :=
  match h with
  | [] => True
  | w :: _ => db_step (fun X => exists U, owned_before h X U /\ answered (database w) (database w') U)
                (database w) (database w')
  end.

Definition tables_ok (w : world) : Prop := db_ok (database w).

Lemma legal_ok w h : legal tables_ok guarantee (w :: h) -> db_ok (database w).
Proof. destruct h as [|w0 h]; [done|]. intros [HG _]. apply HG. Qed.

(** ** Lemmas on tables *)
Lemma update_where_map {A B} (g : A -> B) p f l : (forall x, g (f x) = g x) -> map g (update_where p f l) = map g l.
Proof. apply map_update_where. Qed.

Lemma sublist_delete_where {A} (p : A -> bool) l : delete_where p l `sublist_of` l.
Proof.
  unfold delete_where. induction l as [|x l IH]; simpl; [constructor|].
  destruct (p x); simpl; [by apply sublist_cons|by apply sublist_skip].
Qed.

Lemma NoDup_delete_where {A B} (g : A -> B) p l : NoDup (map g l) -> NoDup (map g (delete_where p l)).
Proof.
  intros H. eapply sublist_NoDup; [exact H|].
  change (g <$> delete_where p l `sublist_of` g <$> l). apply fmap_sublist, sublist_delete_where.
Qed.

Lemma NoDup_same_key {A} (g : A -> string) l x y : NoDup (map g l) -> x ∈ l -> y ∈ l -> g x = g y -> x = y.
Proof.
  intros H Hx Hy Heq. apply list_elem_of_lookup in Hx as [i Hi], Hy as [j Hj].
  assert (i = j) as ->; [|congruence].
  eapply (NoDup_lookup (map g l) i j (g x)); [done| |]; change (map g l) with (g <$> l);
    rewrite list_lookup_fmap; [by rewrite Hi|]. rewrite Hj. simpl. by rewrite Heq.
Qed.
Lemma Forall2_update_where {A} (R : A -> A -> Prop) p f l :
  (forall x, x ∈ l -> p x = false -> R x x) -> (forall x, x ∈ l -> p x = true -> R x (f x)) -> Forall2 R l (update_where p f l).
Proof.
  unfold update_where. induction l as [|x l IH]; intros H0 H1; [constructor|]. simpl. constructor.
  - destruct (p x) eqn:Hp; [apply H1|apply H0]; set_solver.
  - apply IH; intros y Hy; [apply H0|apply H1]; set_solver.
Qed.

Lemma existsb_false {A} (p : A -> bool) l : existsb p l = false <-> forall x, x ∈ l -> p x = false.
Proof.
  rewrite <-not_true_iff_false, existsb_exists. setoid_rewrite <-list_elem_of_In. split.
  - intros H x Hx. destruct (p x) eqn:Hp; [|done]. destruct H. eauto.
  - intros H (x & Hx & Hp). by rewrite (H x Hx) in Hp.
Qed.

Lemma NoDup_map_snoc {A B} (g : A -> B) l x : NoDup (map g l) -> g x ∉ map g l -> NoDup (map g (l ++ [x])).
Proof.
  intros H Hx. rewrite map_app. apply NoDup_app. split; [done|]. split; [|apply NoDup_singleton].
  intros y Hy ->%list_elem_of_singleton. done.
Qed.

Lemma elem_of_map {A B} (g : A -> B) l y : y ∈ map g l <-> exists x, x ∈ l /\ g x = y.
Proof. rewrite list_elem_of_In, in_map_iff. setoid_rewrite list_elem_of_In. naive_solver. Qed.

(** ** The sessions of a step *)
Lemma same_session_refl s : same_session s s.
Proof. by repeat split. Qed.
Lemma session_step_refl V s : session_step V s s.
Proof. split; [apply same_session_refl|by left]. Qed.
Lemma same_factor_refl u : same_factor u u.
Proof. by repeat split. Qed.

(** The sessions afterwards are some of those before. *)
Definition sessions_step (V : string -> Prop) (l l' : list sessionModel) : Prop :=
  exists l1, l1 `sublist_of` l /\ Forall2 (session_step V) l1 l'.

Lemma sessions_step_delete V p l : sessions_step V l (delete_where p l).
Proof.
  exists (delete_where p l). split; [apply sublist_delete_where|].
  apply Forall2_same_length_lookup_2; [done|]. intros i x y Hx Hy. simplify_eq. apply session_step_refl.
Qed.

Lemma sessions_step_refl V l : sessions_step V l l.
Proof.
  exists l. split; [done|]. apply Forall2_same_length_lookup_2; [done|]. intros i x y Hx Hy. simplify_eq. apply session_step_refl.
Qed.

Lemma sessions_step_update V p f l1 l :
  l1 `sublist_of` l -> (forall s, p s = true -> session_step V s (f s)) -> sessions_step V l (update_where p f l1).
Proof.
  intros Hs Hf. exists l1. split; [done|]. apply Forall2_update_where; intros s _ Hp; [apply session_step_refl|by apply Hf].
Qed.

Lemma sessions_step_key {B} V (g : sessionModel -> B) l l' :
  (forall s s', same_session s s' -> g s' = g s) -> sessions_step V l l' ->
  (NoDup (map g l) -> NoDup (map g l')) /\ (forall y, y ∈ map g l' -> y ∈ map g l).
Proof.
  intros Hg (l1 & Hs & Hall).
  assert (map g l' = map g l1) as ->.
  { induction Hall as [|s s' l1 l' [Hss _] _ IH]; simpl; [done|]. rewrite (Hg _ _ Hss), IH; [done|].
    etrans; [|exact Hs]. by apply sublist_cons. }
  assert (map g l1 `sublist_of` map g l) as Hm by (change (g <$> l1 `sublist_of` g <$> l); by apply fmap_sublist).
  split; [intros HN; by eapply sublist_NoDup|]. intros y Hy. by eapply elem_of_sublist.
Qed.

Lemma sessions_step_old V l l' s' :
  sessions_step V l l' -> s' ∈ l' -> exists s, s ∈ l /\ session_step V s s'.
Proof.
  intros (l1 & Hs & Hall) Hin. apply list_elem_of_lookup in Hin as [i Hi].
  destruct (Forall2_lookup_r _ _ _ _ _ Hall Hi) as (s & Hs1 & Hss). exists s. split; [|done].
  eapply elem_of_sublist; [|exact Hs]. by apply list_elem_of_lookup_2 in Hs1.
Qed.

(** ** The accounts of a step *)
Record row_step (u u' : userModel) : Prop := {
  row_id : u_ID u' = u_ID u;
  row_name : Username u' = Username u;
  row_role : u_Role u' = u_Role u \/ validManagedRole (u_Role u') = true;
  row_factor : factor_step u u';
}.
Definition row_same_role (u u' : userModel) : Prop := row_step u u' /\ u_Role u' = u_Role u.

Lemma row_same_role_refl u : row_same_role u u.
Proof. split; [|done]. split; [done|done|by left|]. apply factor_same, same_factor_refl. Qed.

Lemma rows_keys {B} (g : userModel -> B) l l' :
  (forall u u', row_step u u' -> g u' = g u) -> Forall2 row_step l l' -> map g l' = map g l.
Proof. intros Hg. induction 1 as [|u u' l l' Hr _ IH]; simpl; [done|]. by rewrite (Hg _ _ Hr), IH. Qed.

Lemma rows_ids l l' : Forall2 row_step l l' -> map u_ID l' = map u_ID l.
Proof. apply rows_keys. intros u u' H. apply H. Qed.

Lemma rows_admins l l' : Forall2 row_same_role l l' -> rows_affected is_admin l' = rows_affected is_admin l.
Proof.
  unfold rows_affected. induction 1 as [|u u' l l' [_ Hr] _ IH]; simpl; [done|].
  assert (is_admin u' = is_admin u) as -> by (unfold is_admin; by rewrite Hr).
  destruct (is_admin u); simpl; [|done]. lia.
Qed.

(** The step of statements that update accounts and update or delete sessions. *)
Lemma db_step_update V d users' sessions' :
  db_ok d -> Forall2 row_step (users d) users' -> sessions_step V (sessions d) sessions' ->
  (users' <> [] -> 0 < rows_affected is_admin users') ->
  db_step V d (mk_db users' sessions' (grants d)).
Proof.
  intros Hok Hrows Hsess Hadm. pose proof (rows_ids _ _ Hrows) as Hids.
  assert (NoDup (map u_ID users')) as HNids by (rewrite Hids; apply Hok). split; [split|..]; simpl; auto.
  - rewrite (rows_keys (fun u => nocase (Username u)) (users d) users'); [apply Hok| |exact Hrows]. intros u u' H. by rewrite (row_name _ _ H).
  - pose proof (ok_roles _ Hok) as Hroles. clear -Hrows Hroles. induction Hrows as [|u u' l l' Hr _ IH]; [constructor|].
    inversion Hroles; subst. constructor; [|auto]. destruct (row_role _ _ Hr) as [->|?]; done.
  - apply (sessions_step_key V s_ID _ _) in Hsess as [H _]; [apply H, Hok|by intros ?? [? ?]].
  - apply (sessions_step_key V TokenHash _ _) in Hsess as [H _]; [apply H, Hok|by intros ?? (_ & _ & ? & _)].
  - apply (sessions_step_key V s_UserID _ _) in Hsess as [_ H]; [|by intros ?? (_ & ? & _)].
    apply Forall_forall. intros s Hs. rewrite Hids. assert (s_UserID s ∈ map s_UserID (sessions d)) as Hin by (apply H, elem_of_map; eauto).
    apply elem_of_map in Hin as (s0 & Hs0 & <-). pose proof (ok_owners _ Hok) as Ho. rewrite Forall_forall in Ho. by apply Ho.
  - apply Hok.
  - rewrite Hids. apply Hok.
  - intros Hne ->. by inversion Hrows.
  - intros u u' Hu Hu' Heq. apply list_elem_of_lookup in Hu' as [i Hi].
    destruct (Forall2_lookup_r _ _ _ _ _ Hrows Hi) as (u0 & Hu0 & Hr).
    assert (u = u0) as ->; [|apply Hr]. apply (NoDup_same_key u_ID (users d)); [apply Hok|done|by apply list_elem_of_lookup_2 in Hu0|].
    rewrite Heq. apply Hr.
  - intros s' Hs'. left. by eapply sessions_step_old.
Qed.

Lemma db_step_weaken (V V' : string -> Prop) d d' : (forall X, V X -> V' X) -> db_step V d d' -> db_step V' d d'.
Proof.
  intros HV [H1 H2 H3 H4]. split; [done|done|done|]. intros s' Hs'.
  destruct (H4 s' Hs') as [(s & Hs & Hss & Hm)|H]; [left|by right]. exists s. split; [done|]. split; [done|]. naive_solver.
Qed.

(** Updates that keep the roles. *)
Lemma db_step_rows V d p f sessions' :
  db_ok d -> (forall u, p u = true -> row_same_role u (f u)) -> sessions_step V (sessions d) sessions' ->
  db_step V d (mk_db (update_where p f (users d)) sessions' (grants d)).
Proof.
  intros Hok Hf Hsess.
  assert (Forall2 row_same_role (users d) (update_where p f (users d))) as Hrows.
  { apply Forall2_update_where; intros u _ Hp; [apply row_same_role_refl|by apply Hf]. }
  apply db_step_update; [done| |done|].
  - eapply Forall2_impl; [exact Hrows|]. by intros u u' [H _].
  - intros Hne. rewrite (rows_admins _ _ Hrows). apply (ok_admin _ Hok). intros Hnil. apply Hne.
    by rewrite Hnil.
Qed.

Lemma db_step_sessions V d sessions' :
  db_ok d -> sessions_step V (sessions d) sessions' -> db_step V d (with_sessions sessions' d).
Proof.
  intros Hok Hsess. replace (with_sessions sessions' d) with (mk_db (update_where (fun _ => false) id (users d)) sessions' (grants d)).
  - by apply db_step_rows.
  - unfold with_sessions. f_equal. by apply update_where_none.
Qed.

Lemma db_step_refl V d : db_ok d -> db_step V d d.
Proof. intros Hok. replace d with (with_sessions (sessions d) d) at 2 by (by destruct d). apply db_step_sessions; [done|apply sessions_step_refl]. Qed.

(** ** Insertions *)
Lemma insert_session_step V s d d' :
  db_ok d -> MFAVerifiedAt s = None -> insert_session s d = Some d' -> db_step V d d'.
Proof.
  unfold insert_session. intros Hok Hs. case_match eqn:Hc; [done|]. intros [= <-].
  apply orb_false_iff in Hc as [Hnew Howner]. rewrite existsb_false in Hnew. apply negb_false_iff in Howner.
  apply existsb_exists in Howner as (u & Hu & Hid). apply list_elem_of_In in Hu. unfold by_user_id in Hid. apply bool_decide_eq_true in Hid.
  assert (forall v, v ∈ sessions d -> s_ID v <> s_ID s /\ TokenHash v <> TokenHash s) as Hfresh.
  { intros v Hv. specialize (Hnew v Hv). apply orb_false_iff in Hnew as [H1%bool_decide_eq_false H2%bool_decide_eq_false]. done. }
  split; [split|..]; simpl; try apply Hok; try done.
  - apply NoDup_map_snoc; [apply Hok|]. intros (v & Hv & Heq)%elem_of_map. by destruct (Hfresh v Hv).
  - apply NoDup_map_snoc; [apply Hok|]. intros (v & Hv & Heq)%elem_of_map. by destruct (Hfresh v Hv).
  - apply Forall_app. split; [apply Hok|]. constructor; [|constructor]. rewrite <-Hid. apply elem_of_map. eauto.
  - intros u0 u1 H0 H1 Heq. rewrite (NoDup_same_key u_ID (users d) u0 u1); [|apply Hok|done|done|done].
    apply factor_same, same_factor_refl.
  - intros s' [Hs'|Hs'%list_elem_of_singleton]%elem_of_app; [left|right; by subst]. exists s'. split; [done|apply session_step_refl].
Qed.

Lemma insert_user_step V u d d' :
  db_ok d -> validManagedRole (u_Role u) = true -> (users d <> [] \/ is_admin u = true) ->
  insert_user u d = Some d' -> db_step V d d'.
Proof.
  unfold insert_user. intros Hok Hrole Hadm. case_match eqn:Hc; [done|]. intros [= <-]. rewrite existsb_false in Hc.
  assert (forall v, v ∈ users d -> u_ID v <> u_ID u /\ nocase (Username v) <> nocase (Username u)) as Hfresh.
  { intros v Hv. specialize (Hc v Hv). apply orb_false_iff in Hc as [H1%bool_decide_eq_false H2%bool_decide_eq_false]. done. }
  split; [split|..]; simpl; try apply Hok.
  - apply NoDup_map_snoc; [apply Hok|]. intros (v & Hv & Heq)%elem_of_map. by destruct (Hfresh v Hv).
  - apply NoDup_map_snoc; [apply Hok|]. intros (v & Hv & Heq)%elem_of_map. by destruct (Hfresh v Hv).
  - apply Forall_app. split; [apply Hok|]. by constructor.
  - intros _. unfold admins. simpl. rewrite rows_affected_app. destruct Hadm as [Hne|Hadm].
    + pose proof (ok_admin _ Hok Hne) as Ha. unfold admins in Ha. unfold rows_affected at 2. lia.
    + unfold rows_affected. simpl. rewrite Hadm. simpl. lia.
  - eapply Forall_impl; [apply Hok|]. intros s. rewrite map_app. set_solver.
  - eapply Forall_impl; [apply Hok|]. intros g. rewrite map_app. set_solver.
  - intros _. by destruct (users d).
  - intros u0 u1 H0 [H1|H1%list_elem_of_singleton]%elem_of_app Heq.
    + rewrite (NoDup_same_key u_ID (users d) u0 u1); [|apply Hok|done|done|done]. apply factor_same, same_factor_refl.
    + subst u1. by destruct (Hfresh u0 H0).
  - intros s' Hs'. left. exists s'. split; [done|apply session_step_refl].
Qed.

(** ** Grants *)
Lemma db_step_grants V d grants' :
  db_ok d -> NoDup (map grant_key grants') -> Forall (fun g => g_UserID g ∈ map u_ID (users d)) grants' ->
  db_step V d (with_grants grants' d).
Proof.
  intros Hok Hkeys Hown. split; [split|..]; simpl; try apply Hok; try done.
  - intros u0 u1 H0 H1 Heq. rewrite (NoDup_same_key u_ID (users d) u0 u1); [|apply Hok|done|done|done].
    apply factor_same, same_factor_refl.
  - intros s' Hs'. left. exists s'. split; [done|apply session_step_refl].
Qed.

Lemma insert_grants_inv l d d' :
  insert_grants l d = Some d' -> NoDup (map grant_key (grants d)) -> Forall (fun g => g_UserID g ∈ map u_ID (users d)) (grants d) ->
  exists grants', d' = with_grants grants' d /\ NoDup (map grant_key grants') /\ Forall (fun g => g_UserID g ∈ map u_ID (users d)) grants'.
Proof.
  revert d. induction l as [|g l IH]; intros d; simpl.
  - intros [= <-] H1 H2. exists (grants d). split; [by destruct d|done].
  - intros (d1 & Hg & Hl)%bind_Some H1 H2. unfold insert_grant in Hg. case_match eqn:Hc; [done|]. injection Hg as <-.
    apply orb_false_iff in Hc as [Hnew Howner]. rewrite existsb_false in Hnew. apply negb_false_iff in Howner.
    apply existsb_exists in Howner as (u & Hu & Hid). apply list_elem_of_In in Hu. unfold by_user_id in Hid. apply bool_decide_eq_true in Hid.
    destruct (IH _ Hl) as (grants' & -> & H3 & H4); simpl.
    + apply NoDup_map_snoc; [done|]. intros (v & Hv & Heq)%elem_of_map. unfold grant_key in Heq. injection Heq as Hu' Hs'.
      specialize (Hnew v Hv). apply andb_false_iff in Hnew as [H%bool_decide_eq_false|H%bool_decide_eq_false]; done.
    + apply Forall_app. split; [done|]. constructor; [|constructor]. rewrite <-Hid. apply elem_of_map. eauto.
    + exists grants'. done.
Qed.
End rows.
