(* ===== verification/IdentitySteps.v ===== *)
(** * The transactions of the identity module keep to the guarantee *)

From Stdlib Require Import Ascii.
From S2P Require Import Prelude GoStrings Json Sql AuditLog Limiter Codec Passwords Programs Identity IdentityHandlers IdentityUsers IdentityLaws.

Local Open Scope Z_scope.

Section steps.
Context (C : crypto).
Implicit Types (d : db) (V : string -> Prop) (u : userModel).
Local Abbreviation db_step := (db_step C).
Local Abbreviation factor_step := (factor_step C).

Lemma by_user_id_true id u : by_user_id id u = true <-> u_ID u = id.
Proof. apply bool_decide_eq_true. Qed.

Lemma user_by_id_Some id d u : user_by_id id d = Some u -> u ∈ users d /\ u_ID u = id.
Proof. intros [H1 H2]%select_first_Some. by rewrite by_user_id_true in H2. Qed.

(** ** Functions on rows *)
Lemma keeps_row u u' :
  u_ID u' = u_ID u -> Username u' = Username u -> u_Role u' = u_Role u -> same_factor u u' -> row_same_role C u u'.
Proof. intros H1 H2 H3 H4. split; [|done]. split; [done|done|by left|by apply factor_same]. Qed.

Lemma factor_row u u' :
  u_ID u' = u_ID u -> Username u' = Username u -> u_Role u' = u_Role u -> factor_step u u' -> row_same_role C u u'.
Proof. intros H1 H2 H3 H4. split; [|done]. split; [done|done|by left|done]. Qed.

Lemma set_seen_step V now s : session_step V s (set_seen now s).
Proof. split; [by repeat split|by left]. Qed.

Lemma seen_step V p now d : db_ok d -> db_step V d (update_sessions p (set_seen now) d).
Proof. intros Hok. apply db_step_sessions; [done|]. apply sessions_step_update; [done|]. intros s _. apply set_seen_step. Qed.

Lemma delete_sessions_step V p d : db_ok d -> db_step V d (delete_sessions p d).
Proof. intros Hok. apply db_step_sessions; [done|]. apply sessions_step_delete. Qed.

Lemma update_users_step V p f d :
  db_ok d -> (forall u, p u = true -> row_same_role C u (f u)) -> db_step V d (update_users p f d).
Proof. intros Hok Hf. unfold update_users, with_users. apply db_step_rows; [done|done|apply sessions_step_refl]. Qed.

Lemma login_step V id now d : db_ok d -> db_step V d (update_users (by_user_id id) (set_login now) d).
Proof. intros Hok. apply update_users_step; [done|]. intros u _. by apply keeps_row. Qed.

Lemma secret_step V id encrypted d :
  db_ok d ->
  db_step V d (update_users (by_user_id id)
    (fun u => set_factor (Some encrypted) (TOTPConfirmedAt u) (TOTPLastStep u) (RecoveryCodeHashes u) u) d).
Proof. intros Hok. apply update_users_step; [done|]. intros u _. apply factor_row; try done. by apply factor_enroll. Qed.

Lemma clear_row u : row_same_role C u (clear_factor u).
Proof. apply factor_row; try done. by apply factor_reset. Qed.

Lemma clear_step V id d : db_ok d -> db_step V d (update_users (by_user_id id) clear_factor d).
Proof. intros Hok. apply update_users_step; [done|]. intros u _. apply clear_row. Qed.

(** ** Transactions without the second factor *)
Lemma change_password_step V person hash d d' x :
  db_ok d -> change_password_tx person hash d = Ok (x, d') -> db_step V d d'.
Proof.
  intros Hok [= _ <-]. unfold delete_sessions, update_users, with_users, with_sessions. simpl.
  apply db_step_rows; [done| |apply sessions_step_delete]. intros u _. by apply keeps_row.
Qed.

Lemma reset_step V username d d' x : db_ok d -> reset_tx username d = Ok (x, d') -> db_step V d d'.
Proof.
  unfold reset_tx. intros Hok. case_match; [|done]. intros [= _ <-].
  unfold delete_sessions, update_users, with_users, with_sessions. simpl.
  apply db_step_rows; [done| |apply sessions_step_delete]. intros v _. apply clear_row.
Qed.

Lemma bootstrap_step V u d d' x :
  db_ok d -> u_Role u = "admin"%string -> bootstrap_tx u d = Ok (x, d') -> db_step V d d' /\ users d = [].
Proof.
  unfold bootstrap_tx. intros Hok Hrole. case_match eqn:Hex; [done|]. case_match eqn:Hi; [|done]. intros [= _ <-].
  split; [|by destruct (users d)]. eapply insert_user_step; [done| | |exact Hi]; [by rewrite Hrole|].
  right. unfold is_admin. by apply bool_decide_eq_true.
Qed.

Lemma replace_sites_step V id sites now d d' x :
  db_ok d -> replace_sites_tx id sites now d = Ok (x, d') -> db_step V d d'.
Proof.
  unfold replace_sites_tx. intros Hok. case_match; [|done]. case_match; [done|]. case_match eqn:Hi; [|done]. intros [= _ <-].
  apply insert_grants_inv in Hi as (grants' & -> & H1 & H2); simpl.
  - by apply (db_step_grants C V d grants').
  - apply NoDup_delete_where, Hok.
  - apply Forall_forall. intros g [Hg _]%elem_of_delete_where. pose proof (ok_grantees _ Hok) as Hall.
    rewrite Forall_forall in Hall. by apply Hall.
Qed.

(** ** The last administrator *)
Lemma admins_update p f l :
  (forall u, u ∈ l -> p u = true -> is_admin u = true -> is_admin (f u) = true) ->
  rows_affected is_admin l <= rows_affected is_admin (update_where p f l).
Proof.
  unfold rows_affected, update_where. induction l as [|u l IH]; simpl; intros Hf; [done|].
  assert (forall v, v ∈ l -> p v = true -> is_admin v = true -> is_admin (f v) = true) as Hl by (intros v Hv; apply Hf; set_solver).
  specialize (IH Hl). assert (u ∈ u :: l) as Hu by set_solver. specialize (Hf u Hu). clear Hl Hu. destruct (p u), (is_admin u) eqn:Ha; simpl; rewrite ?Ha; simpl; try lia;
    [rewrite Hf by done; simpl; lia|]. destruct (is_admin (f u)); simpl; lia.
Qed.

(** One row at most loses the role. *)
Lemma admins_update_one id f l :
  NoDup (map u_ID l) -> rows_affected is_admin l - 1 <= rows_affected is_admin (update_where (by_user_id id) f l).
Proof.
  unfold rows_affected, update_where. induction l as [|u l IH]; simpl; intros HN; [lia|].
  inversion HN as [|? ? Hnin HN']; subst. destruct (by_user_id id u) eqn:Hu.
  - rewrite by_user_id_true in Hu. assert (map (fun r => if by_user_id id r then f r else r) l = l) as ->.
    { apply (update_where_none (by_user_id id) f l). intros v Hv. apply bool_decide_eq_false. intros Hid. apply Hnin.
      apply elem_of_map. exists v. split; [done|congruence]. }
    destruct (is_admin u), (is_admin (f u)); simpl; lia.
  - specialize (IH HN'). destruct (is_admin u); simpl; lia.
Qed.

Lemma admins_delete id l :
  NoDup (map u_ID l) -> rows_affected is_admin l - 1 <= rows_affected is_admin (delete_where (by_user_id id) l).
Proof.
  unfold rows_affected, delete_where. induction l as [|u l IH]; simpl; intros HN; [lia|].
  inversion HN as [|? ? Hnin HN']; subst. destruct (by_user_id id u) eqn:Hu; simpl.
  - rewrite by_user_id_true in Hu. assert (List.filter (fun r => negb (by_user_id id r)) l = l) as ->.
    { apply (select_where_all (fun r => negb (by_user_id id r)) l). intros v Hv. apply negb_true_iff, bool_decide_eq_false.
      intros Hid. apply Hnin. apply elem_of_map. exists v. split; [done|congruence]. }
    destruct (is_admin u); simpl; lia.
  - specialize (IH HN'). destruct (is_admin u); simpl; lia.
Qed.

(** What [updateUser] writes to the row. *)
Definition given (role hash : option string) u : userModel :=
  let u := match role with Some role => set_role role u | None => u end in
  match hash with Some hash => set_password hash u | None => u end.

Lemma given_row role hash u :
  (forall r, role = Some r -> validManagedRole r = true) -> row_step C u (given role hash u).
Proof.
  intros Hrole. split; [by destruct role, hash|by destruct role, hash| |].
  - destruct role as [r|]; [right|left; by destruct hash]. specialize (Hrole r eq_refl). by destruct hash.
  - apply factor_same. by destruct role, hash.
Qed.

Lemma given_admin role hash u :
  is_admin u = true -> match role with Some r => r = "admin"%string | None => True end -> is_admin (given role hash u) = true.
Proof. intros Ha Hr. destruct role as [r|], hash; simpl; [subst r| |..]; try done; by rewrite ?Hr. Qed.

Lemma update_user_step V id role hash d d' x :
  db_ok d -> (forall r, role = Some r -> validManagedRole r = true) ->
  update_user_tx id role hash d = Ok (x, d') -> db_step V d d'.
Proof.
  unfold update_user_tx. intros Hok Hrole. destruct (user_by_id id d) as [model|] eqn:Hm; [|done].
  apply user_by_id_Some in Hm as [Hin Hid]. case_match eqn:Hlast; [done|]. intros [= _ <-].
  change (fun u => _) with (given role hash). unfold delete_sessions, update_users, with_users, with_sessions. simpl.
  apply db_step_update; [done| |apply sessions_step_delete|].
  - apply Forall2_update_where; intros u _ _; [apply (row_same_role_refl C u)|by apply given_row].
  - intros _. assert (users d <> []) as Hne by (intros Hnil; rewrite Hnil in Hin; set_solver).
    pose proof (ok_admin _ Hok Hne) as Hpos. unfold admins in *.
    assert (forall u, u ∈ users d -> by_user_id id u = true -> u = model) as Hone.
    { intros u Hu Hu'%by_user_id_true. apply (NoDup_same_key u_ID (users d)); [apply Hok|done..|congruence]. }
    destruct (is_admin model && match role with Some r => negb (bool_decide (r = "admin"%string)) | None => false end) eqn:Hd.
    + assert (match role with Some r => is_admin model && negb (bool_decide (r = "admin"%string)) | None => false end = true) as Hd'
        by (by destruct role; [|rewrite andb_false_r in Hd]).
      rewrite Hd' in Hlast. simpl in Hlast. apply Z.leb_gt in Hlast. pose proof (ok_ids _ Hok) as Hids.
      pose proof (admins_update_one id (given role hash) _ Hids). lia.
    + eapply Z.lt_le_trans; [exact Hpos|]. apply admins_update. intros u Hu Hp Ha. apply given_admin; [done|].
      rewrite (Hone u Hu Hp) in Ha. rewrite Ha in Hd. simpl in Hd. destruct role; [|done].
      by apply negb_false_iff, bool_decide_eq_true in Hd.
Qed.

Lemma admins_delete_other p l :
  (forall u, u ∈ l -> p u = true -> is_admin u = false) -> rows_affected is_admin (delete_where p l) = rows_affected is_admin l.
Proof.
  unfold rows_affected, delete_where. induction l as [|u l IH]; simpl; intros Hp; [done|].
  assert (forall v, v ∈ l -> p v = true -> is_admin v = false) as Hl by (intros v Hv; apply Hp; set_solver). specialize (IH Hl).
  assert (u ∈ u :: l) as Hu by set_solver. specialize (Hp u Hu).
  destruct (p u); simpl; [by rewrite Hp|]. destruct (is_admin u); simpl; lia.
Qed.

Lemma kept_id id l x : x ∈ map u_ID l -> x <> id -> x ∈ map u_ID (delete_where (by_user_id id) l).
Proof.
  intros (u & Hu & <-)%elem_of_map Hne. apply elem_of_map. exists u. split; [|done].
  apply elem_of_delete_where. split; [done|]. by apply bool_decide_eq_false.
Qed.

(** Deleting an account that is not the last administrator's. *)
Lemma delete_ok V id d :
  db_ok d -> 0 < rows_affected is_admin (delete_where (by_user_id id) (users d)) ->
  db_step V d (delete_user id (with_grants (delete_where (grant_of id) (grants d)) d)).
Proof.
  intros Hok Hpos. split; [split|..]; simpl; try (apply NoDup_delete_where, Hok).
  - apply Forall_forall. intros u [Hu _]%elem_of_delete_where. pose proof (ok_roles _ Hok) as Hr. rewrite Forall_forall in Hr. by apply Hr.
  - done.
  - apply Forall_forall. intros s [Hs Hp%bool_decide_eq_false]%elem_of_delete_where. apply kept_id; [|done].
    pose proof (ok_owners _ Hok) as Ho. rewrite Forall_forall in Ho. by apply Ho.
  - apply NoDup_delete_where, NoDup_delete_where, Hok.
  - apply Forall_forall. intros g [[Hg _]%elem_of_delete_where Hp%bool_decide_eq_false]%elem_of_delete_where. apply kept_id; [|done].
    pose proof (ok_grantees _ Hok) as Ho. rewrite Forall_forall in Ho. by apply Ho.
  - intros _ Hnil. rewrite Hnil in Hpos. done.
  - intros u u' Hu [Hu' _]%elem_of_delete_where Heq. rewrite (NoDup_same_key u_ID (users d) u u'); [|apply Hok|done|done|done].
    apply factor_same, same_factor_refl.
  - intros s' [Hs' _]%elem_of_delete_where. left. exists s'. split; [done|apply session_step_refl].
Qed.

Lemma delete_user_step V id d d' x : db_ok d -> delete_user_tx id d = Ok (x, d') -> db_step V d d'.
Proof.
  unfold delete_user_tx. intros Hok. destruct (user_by_id id d) as [model|] eqn:Hm; [|done].
  apply user_by_id_Some in Hm as [Hin Hid]. case_match eqn:Hlast; [done|]. intros [= _ <-]. apply delete_ok; [done|].
  assert (users d <> []) as Hne by (intros Hnil; rewrite Hnil in Hin; set_solver).
  pose proof (ok_admin _ Hok Hne) as Hpos. unfold admins in *. destruct (is_admin model) eqn:Ha; simpl in Hlast.
  - apply Z.leb_gt in Hlast. pose proof (admins_delete id _ (ok_ids _ Hok)). lia.
  - rewrite admins_delete_other; [done|]. intros u Hu Hp%by_user_id_true.
    by rewrite (NoDup_same_key u_ID (users d) u model); [|apply Hok|..|congruence].
Qed.

(** ** The second factor *)
Lemma update_one_Ok p f d d' :
  update_one p f d = Ok d' -> d' = update_users p f d /\ exists u, u ∈ users d /\ p u = true.
Proof.
  unfold update_one. case_match eqn:Hn; [|done]. intros [= <-]. split; [done|]. apply Z.eqb_eq in Hn.
  apply rows_affected_pos. lia.
Qed.

(** The session of [person], if its account answered a challenge. *)
Definition verifies (person : principal) d d' (X : string) : Prop :=
  X = SessionID person /\ answered C d d' (account person).

(** A challenge answered: one account is updated, and the session marked. *)
Lemma answered_step person at_ p f d d' :
  db_ok d -> (forall u, u ∈ users d -> p u = true -> by_user_id (account person) u = true) ->
  (forall u, p u = true -> row_same_role C u (f u) /\ factor_used C u (f u)) ->
  update_one p f d = Ok d' ->
  db_step (verifies person d (mark_verified person at_ d')) d (mark_verified person at_ d').
Proof.
  intros Hok Hp Hf (-> & u & Hu & Hpu)%update_one_Ok.
  unfold mark_verified, update_sessions, update_users, with_users, with_sessions. simpl.
  apply db_step_rows; [done| |].
  - intros v Hv. by apply Hf.
  - apply sessions_step_update; [done|]. intros s Hs%bool_decide_eq_true. split; [by repeat split|].
    right. right. split; [done|]. destruct (Hf u Hpu) as [Hrow Hused]. specialize (Hp u Hu Hpu). apply by_user_id_true in Hp.
    exists u, (f u). simpl. split; [done|]. split; [|split; [done|]].
    + apply elem_of_update_where. exists u. by rewrite Hpu.
    + split; [|done]. destruct Hrow as [Hrow _]. rewrite (row_id _ _ _ Hrow). done.
Qed.

Lemma confirm_step person now step hashes d d' x :
  db_ok d -> confirm_tx person now step hashes d = Ok (x, d') -> db_step (verifies person d d') d d'.
Proof.
  unfold confirm_tx. intros Hok (d1 & Hup & [= _ <-])%bind_Ok. eapply answered_step; [done| | |exact Hup].
  - by intros u _ [H _]%andb_prop.
  - intros u [_ Hn%bool_decide_eq_true]%andb_prop. assert (factor_used C u (set_factor (TOTPSecretEncrypted u) (Some (sql_time now)) step hashes u)) as Hused.
    { apply used_enrollment; [done|by eexists|done]. }
    split; [|done]. apply factor_row; try done. by apply factor_use.
Qed.

Lemma totp_step person now step d d' x :
  db_ok d -> totp_tx person now step d = Ok (x, d') -> db_step (verifies person d d') d d'.
Proof.
  unfold totp_tx. intros Hok (d1 & Hup & [= _ <-])%bind_Ok. eapply answered_step; [done| | |exact Hup].
  - by intros u _ [H _]%andb_prop.
  - intros u [_ Hn%Z.ltb_lt]%andb_prop.
    assert (factor_used C u (set_factor (TOTPSecretEncrypted u) (TOTPConfirmedAt u) step (RecoveryCodeHashes u) u)) as Hused by (by apply used_code).
    split; [|done]. apply factor_row; try done. by apply factor_use.
Qed.

(** A match is an index of the stored hashes. *)
Lemma match_scan wanted l h m i :
  (forall j, m = Some j -> (h ++ l) !! j = Some wanted) ->
  (foldl (fun '(index, matched) hash => (S index, if bool_decide (hash = wanted) then Some index else matched))
     (length h, m) l).2 = Some i -> (h ++ l) !! i = Some (wanted : string).
Proof.
  revert h m. induction l as [|x l IH]; intros h m Hm; simpl; [apply Hm|].
  replace (S (length h)) with (length (h ++ [x])) by (rewrite length_app; simpl; lia).
  replace (h ++ x :: l) with ((h ++ [x]) ++ l) in * by (by rewrite <-app_assoc).
  apply IH. intros j. case_bool_decide as Hx; [|apply Hm]. intros [= <-]. subst.
  by rewrite <-app_assoc, lookup_app_r, Nat.sub_diag by lia.
Qed.

Lemma recoveryCodeMatch_Some encoded wanted hashes i :
  recoveryCodeMatch C encoded wanted = Some (hashes, Some i) ->
  c_unmarshal_strings C encoded = Some hashes /\ hashes !! i = Some wanted.
Proof.
  unfold recoveryCodeMatch. case_match eqn:Hu; [|done]. intros [= -> Hi]. split; [done|].
  by apply (match_scan wanted hashes [] None i).
Qed.

Lemma recovery_step person wanted now d d' x :
  db_ok d -> recovery_tx C person wanted now d = Ok (x, d') -> db_step (verifies person d d') d d'.
Proof.
  unfold recovery_tx. intros Hok. destruct (user_by_id (account person) d) as [model|]; [|done].
  destruct (recoveryCodeMatch C (RecoveryCodeHashes model) wanted) as [[hashes [i|]]|] eqn:Hm; [|done|done].
  apply recoveryCodeMatch_Some in Hm as [Hun Hi]. intros (d1 & Hup & [= _ <-])%bind_Ok.
  eapply answered_step; [done| | |exact Hup].
  - by intros u _ [H _]%andb_prop.
  - intros u [_ Hh%bool_decide_eq_true]%andb_prop.
    assert (factor_used C u (set_factor (TOTPSecretEncrypted u) (TOTPConfirmedAt u) (TOTPLastStep u)
              (marshal_strings (take i hashes ++ drop (S i) hashes)) u)) as Hused.
    { eapply used_recovery; [by rewrite Hh| |reflexivity|done..]. by eapply lookup_lt_Some. }
    split; [|done]. apply factor_row; try done. by apply factor_use.
Qed.

Lemma replace_step V person wanted encrypted d d' x :
  db_ok d -> replace_tx C person wanted encrypted d = Ok (x, d') -> db_step V d d'.
Proof.
  unfold replace_tx. intros Hok. destruct (user_by_id (account person) d) as [model|]; [|done]. case_match; [done|].
  case_match; [|done]. case_match. case_match; [|done]. intros (d1 & (-> & _)%update_one_Ok & [= _ <-])%bind_Ok.
  unfold update_sessions, delete_sessions, update_users, with_users, with_sessions. simpl. apply db_step_rows; [done| |].
  - intros u _. apply factor_row; try done. by apply factor_reset.
  - apply sessions_step_update; [apply sublist_delete_where|]. intros s' _. split; [by repeat split|]. right. by left.
Qed.
End steps.
