(* ===== verification/IdentityRequests.v ===== *)
(** * Every request of the identity module keeps to the guarantee

    Operation by operation: the quiet ones leave the database alone, the others are
    the statements and transactions of [IdentitySteps]. *)

From Stdlib Require Import Ascii.
From S2P Require Import Prelude GoStrings Json Sql AuditLog Limiter Codec Passwords.
From S2P Require Import Programs Identity IdentityHandlers IdentityUsers IdentityLaws IdentitySteps.

Local Open Scope Z_scope.

Create HintDb identity.

Section requests.
Context (C : crypto) (config : Config) (rfc3339 rfc3339_nano : Z -> string).
Context (siteDirectory : option (string -> world -> option bool)) (tokenPath : string).
Local Abbreviation program := (prog world).
Local Abbreviation legal := (legal tables_ok (guarantee C)).
Local Abbreviation ensures := (ensures tables_ok (guarantee C)).
Local Abbreviation respects := (respects tables_ok (guarantee C)).
Local Abbreviation keeps := (keeps tables_ok (guarantee C)).
Implicit Types (h : list world) (w : world) (K : list world -> Prop).

(** ** Quiet programs *)
Definition same_database (w w' : world) : Prop := database w' = database w.
Definition undisturbed (w w' : world) : Prop := same_database w w' /\ clock w' = clock w.
Definition quiet {A} (p : program A) : Prop := acts undisturbed p.

Lemma same_database_guarantee w h w' : legal (w :: h) -> same_database w w' -> guarantee C (w :: h) w'.
Proof. intros Hl Hd. simpl. rewrite Hd. apply db_step_refl. by apply (legal_ok C w h). Qed.

Lemma quiet_ret {A} (a : A) : quiet (mret a).
Proof. done. Qed.
Lemma quiet_bind {A B} (p : program A) (k : A -> program B) : quiet p -> (forall a, quiet (k a)) -> quiet (p ≫= k).
Proof. apply acts_bind. Qed.
Lemma quiet_act {A} (f : bool -> world -> A * world) : (forall fault w, undisturbed w (f fault w).2) -> quiet (act f).
Proof. apply acts_act. Qed.
Lemma quiet_atomically {A} (f : world -> A * world) : (forall w, undisturbed w (f w).2) -> quiet (atomically f).
Proof. intros Hf. by apply quiet_act. Qed.

Lemma respects_quiet K {A} (p : program A) : quiet p -> respects K p.
Proof. apply respects_acts. intros w h w' Hl [Hd _]. by apply same_database_guarantee. Qed.

Lemma quiet_now : quiet now_.
Proof. by apply quiet_atomically. Qed.
Lemma quiet_draw n : quiet (draw C n).
Proof. by apply quiet_atomically. Qed.
Lemma quiet_query {A} (q : db -> A) : quiet (query q).
Proof. by apply quiet_act. Qed.
Lemma quiet_audit e : quiet (recordAudit e).
Proof. apply quiet_act. by intros [] w. Qed.
(** The program alone keeps the database and the clock. *)
Lemma quiet_run {A} (p : program A) faults w :
  quiet p -> database (run_alone p faults w).2 = database w /\ clock (run_alone p faults w).2 = clock w.
Proof.
  revert faults w. induction p as [a|B f k IH]; intros faults w Hp; [done|]. simpl.
  destruct (Hp (default false (head faults)) w) as [[Hd Hc] Hk]. destruct (f _ w) as [b w']. simpl in *.
  destruct (IH b (tail faults) w' Hk) as [-> ->]. done.
Qed.

Lemma quiet_allow key : quiet (allow_attempt C key).
Proof. apply quiet_bind; [apply quiet_now|]. intros now. apply quiet_atomically. intros w. by case_match. Qed.
Lemma quiet_reset key : quiet (reset_attempt key).
Proof. by apply quiet_atomically. Qed.
Hint Resolve quiet_ret quiet_now quiet_draw quiet_query quiet_audit quiet_allow quiet_reset : identity.

(** Splits a quiet program into its operations. *)
Local Ltac calm := repeat first
  [ apply quiet_ret | solve [auto with identity] | apply quiet_bind; [|intros ?]
  | apply quiet_atomically; intros ?; solve [done | by case_match]
  | apply quiet_act; intros [] ?; solve [done | by case_match]
  | lazymatch goal with |- quiet (match ?x with _ => _ end) => destruct x eqn:? end ].

Lemma quiet_randomID n : quiet (randomID C n).
Proof. unfold randomID. calm. Qed.
Lemma quiet_hash password : quiet (hash_password C config password).
Proof. unfold hash_password. calm. Qed.
Lemma quiet_allowAttempts keys : quiet (allowAttempts C keys).
Proof. induction keys as [|key keys IH]; cbn [allowAttempts]; calm. Qed.
Lemma quiet_resetAttempts keys : quiet (resetAttempts keys).
Proof. induction keys as [|key keys IH]; cbn [resetAttempts]; calm. Qed.
Lemma quiet_invalidLogin r username : quiet (invalidLogin r username).
Proof. unfold invalidLogin. calm. Qed.
Lemma quiet_clearToken path : quiet (clearBootstrapToken path).
Proof. unfold clearBootstrapToken. calm. Qed.
Lemma quiet_allowed r token : quiet (bootstrapRequestAllowed r token).
Proof. unfold bootstrapRequestAllowed. calm. Qed.
Lemma quiet_allowMFA id : quiet (allowMFAAttempt C id).
Proof. unfold allowMFAAttempt. calm. Qed.
Lemma quiet_resetMFA id : quiet (resetMFAAttempts id).
Proof. unfold resetMFAAttempts. calm. Qed.
Lemma quiet_loadMFA id : quiet (loadMFAUser C id).
Proof. unfold loadMFAUser. calm. Qed.
Lemma quiet_codes n : quiet (draw_codes C n).
Proof. induction n as [|n IH]; cbn [draw_codes]; calm. Qed.
Lemma quiet_granted id : quiet (grantedSiteIDs id).
Proof. unfold grantedSiteIDs. calm. Qed.
Hint Resolve quiet_randomID quiet_hash quiet_allowAttempts quiet_resetAttempts quiet_invalidLogin quiet_clearToken
  quiet_allowed quiet_allowMFA quiet_resetMFA quiet_loadMFA quiet_codes quiet_granted : identity.
Lemma quiet_given id password : quiet (given_hash C config id password).
Proof. unfold given_hash. calm. Qed.
Lemma quiet_unknown exists_ sites : quiet (unknown_site exists_ sites).
Proof. induction sites as [|site sites IH]; cbn [unknown_site]; calm. Qed.
Lemma quiet_ensure path : quiet (EnsureBootstrapToken C path).
Proof. unfold EnsureBootstrapToken. cbv zeta. calm. Qed.
Lemma quiet_list : quiet (listUsersHTTP rfc3339_nano).
Proof. unfold listUsersHTTP. calm. Qed.
Hint Resolve quiet_given quiet_unknown quiet_ensure quiet_list : identity.

(** ** Statements and transactions *)
Lemma respects_exec K f : lasting K -> (forall V d, db_ok d -> db_step C V d (f d)) -> respects K (exec f).
Proof.
  intros HK Hf. apply respects_act; [done|]. intros [] w h _ Hl; [by apply same_database_guarantee|]. simpl.
  apply Hf. by apply (legal_ok C w h).
Qed.

Lemma respects_insert K (f : db -> option db) :
  lasting K ->
  (forall V w h d', K (w :: h) -> legal (w :: h) -> db_ok (database w) -> f (database w) = Some d' -> db_step C V (database w) d') ->
  respects K (insert f).
Proof.
  intros HKl Hf. apply respects_act; [done|]. intros [] w h HK Hl; simpl; [by apply same_database_guarantee|].
  pose proof (legal_ok C w h Hl) as Hok. case_match eqn:Hd; simpl; [by eapply Hf|by apply db_step_refl].
Qed.

(** The sessions a step may mark, seen from the history. *)
Definition marked h d d' (X : string) : Prop := exists U, owned_before h X U /\ answered C d d' U.

Lemma respects_tx K {E A} (e : E) (body : db -> result E (A * db)) :
  lasting K ->
  (forall w h x d', K (w :: h) -> db_ok (database w) -> body (database w) = Ok (x, d') ->
     db_step C (marked (w :: h) (database w) d') (database w) d') ->
  respects K (transaction e body).
Proof.
  intros HKl Hf. apply respects_act; [done|]. intros fault w h HK Hl. pose proof (legal_ok C w h Hl) as Hok.
  destruct (run_tx fault e (database w) body) as [r d'] eqn:Htx. apply run_tx_inv in Htx as [(a & -> & -> & Hb)|[_ ->]]; simpl.
  - by eapply Hf.
  - by apply db_step_refl.
Qed.

Lemma respects_plain_tx K {E A} (e : E) (body : db -> result E (A * db)) :
  lasting K -> (forall V d x d', db_ok d -> body d = Ok (x, d') -> db_step C V d d') -> respects K (transaction e body).
Proof. intros HK Hf. apply respects_tx; [done|]. intros w h x d' _ Hok Hb. by eapply Hf. Qed.

(** ** What a request knows of its principal *)
Definition known (person : principal) h : Prop := owned_before h (SessionID person) (account person).

Lemma owned_lasting X U : lasting (fun h => owned_before h X U).
Proof.
  intros h h' [k ->] (w & s & Hw & Hrest). exists w, s. split; [|done]. apply elem_of_app. by right.
Qed.
Lemma known_lasting person : lasting (known person).
Proof. apply owned_lasting. Qed.
Lemma nothing_lasting : lasting (fun _ : list world => True).
Proof. done. Qed.

Lemma respects_marking_tx person {E A} (e : E) (body : db -> result E (A * db)) :
  (forall d x d', db_ok d -> body d = Ok (x, d') -> db_step C (verifies C person d d') d d') ->
  respects (known person) (transaction e body).
Proof.
  intros Hf. apply respects_tx; [apply known_lasting|]. intros w h x d' HK Hok Hb. eapply db_step_weaken; [|by eapply Hf].
  intros X [-> Ha]. by exists (account person).
Qed.

(** Accounts stay once there are any. *)
Lemma accounts_stay w h w0 : legal (w :: h) -> w0 ∈ w :: h -> users (database w0) <> [] -> users (database w) <> [].
Proof.
  revert w. induction h as [|w1 h IH]; intros w Hl Hin Hne.
  - by apply list_elem_of_singleton in Hin as ->.
  - apply elem_of_cons in Hin as [->|Hin]; [done|]. destruct Hl as [HG Hl]. apply (step_accounts _ _ _ _ HG). by apply IH.
Qed.

Lemma legal_all w h w0 : legal (w :: h) -> w0 ∈ w :: h -> db_ok (database w0).
Proof.
  revert w. induction h as [|w1 h IH]; intros w Hl Hin.
  - apply list_elem_of_singleton in Hin as ->. by apply (legal_ok C w []).
  - apply elem_of_cons in Hin as [->|Hin]; [by apply (legal_ok C w (w1 :: h))|]. destruct Hl as [_ Hl]. by apply (IH w1).
Qed.

Lemma known_accounts person w h : legal (w :: h) -> known person (w :: h) -> users (database w) <> [].
Proof.
  intros Hl (w0 & s & Hw & Hs & _). apply (accounts_stay w h w0 Hl Hw).
  pose proof (ok_owners _ (legal_all w h w0 Hl Hw)) as Ho. rewrite Forall_forall in Ho. specialize (Ho s Hs).
  apply elem_of_map in Ho as (u & Hu & _). intros Hnil. rewrite Hnil in Hu. by apply elem_of_nil in Hu.
Qed.

(** ** Sessions *)
Lemma session_row_Some hash d s u :
  session_row hash d = Some (s, u) -> s ∈ sessions d /\ TokenHash s = hash /\ u ∈ users d /\ u_ID u = s_UserID s.
Proof.
  unfold session_row. intros (s0 & Hs & (u0 & Hu & [= <- <-])%bind_Some)%bind_Some.
  apply select_first_Some in Hs as [Hs Ht%bool_decide_eq_true], Hu as [Hu Hid%bool_decide_eq_true]. done.
Qed.

Lemma respects_touch K p now : lasting K -> respects K (exec (update_sessions p (set_seen now))).
Proof. intros HK. apply respects_exec; [done|]. intros V d. apply seen_step. Qed.
Lemma respects_drop K p : lasting K -> respects K (exec (delete_sessions p)).
Proof. intros HK. apply respects_exec; [done|]. intros V d. apply delete_sessions_step. Qed.

Lemma ensures_respects {A B} K h (p : program A) (k : A -> program B) (Q : B -> list world -> Prop) :
  respects K p -> K h -> (forall a h', h `suffix_of` h' -> ensures h' (k a) Q) -> ensures h (p ≫= k) Q.
Proof.
  intros Hp HK Hk. apply ensures_bind. eapply ensures_weaken; [by apply Hp|]. intros a h' Hs _. by apply Hk.
Qed.

(** What a read finds held at that moment. *)
Lemma ensures_query {A B} h (q : db -> A) (k : option A -> program B) Q :
  (forall w h', h `suffix_of` w :: h' -> legal (w :: h') -> ensures (w :: w :: h') (k (Some (q (database w)))) Q) ->
  (forall h', h `suffix_of` h' -> ensures h' (k None) Q) -> ensures h (query q ≫= k) Q.
Proof.
  intros HS HN fault w h' Hs Hl. split; [by apply same_database_guarantee|]. destruct fault; simpl; [|by apply HS].
  apply HN. etrans; [exact Hs|]. by apply suffix_cons_r.
Qed.

(** [w1] is in the history, and [w0] not after it. *)
Definition then_at h w0 w1 : Prop := exists h1, w1 :: h1 `suffix_of` h /\ w0 ∈ w1 :: h1.

Lemma then_at_later h h' w0 w1 : h `suffix_of` h' -> then_at h w0 w1 -> then_at h' w0 w1.
Proof. intros Hs (h1 & H1 & H2). exists h1. split; [by etrans|done]. Qed.

(** The cookie of [r] names the session [s] of the account [u], as [person] says,
    and at a later moment the session had neither expired nor been idle too long. *)
Definition authenticated (r : request) (person : principal) h : Prop :=
  exists cookie w0 w1 s u,
    SessionCookie r = Some cookie /\ TokenHash s = c_sha256 C cookie /\ then_at h w0 w1 /\
    s ∈ sessions (database w0) /\ u ∈ users (database w0) /\ u_ID u = s_UserID s /\
    clock w1 < ExpiresAt s /\ time_sub (clock w1) (LastSeenAt s) <= IdleTimeout config /\ CSRFTokenHash s <> EmptyString /\
    person = mk_principal (to_user u) (s_ID s) (TokenHash s) (CSRFTokenHash s) (MFAVerifiedAt s) (TOTPConfirmedAt u).

Lemma authenticated_lasting r person : lasting (authenticated r person).
Proof.
  intros h h' Hs (cookie & w0 & w1 & s & u & H1 & H2 & H3 & H4). exists cookie, w0, w1, s, u.
  repeat split; try apply H4; try done. by eapply then_at_later.
Qed.

Lemma authenticated_known r person h : authenticated r person h -> known person h.
Proof.
  intros (cookie & w0 & w1 & s & u & _ & _ & (h1 & Hs & Hin) & Hrow & _ & Hid & _ & _ & _ & ->).
  exists w0, s. split; [|split; [done|split; [done|by symmetry]]]. destruct Hs as [k ->]. apply elem_of_app. by right.
Qed.

Lemma ensures_now {B} h (k : Z -> program B) Q :
  (forall w h', h `suffix_of` w :: h' -> ensures (w :: w :: h') (k (clock w)) Q) -> ensures h (now_ ≫= k) Q.
Proof. intros H fault w h' Hs Hl. split; [by apply same_database_guarantee|]. by apply H. Qed.

Lemma authenticate_spec h0 r :
  ensures h0 (authenticate C config r) (fun found h => forall person, found = Some person -> authenticated r person h).
Proof.
  unfold authenticate. destruct (SessionCookie r) as [value|] eqn:Hc; [|done]. case_match; [done|].
  apply ensures_query; [|done]. intros w h _ _.
  destruct (session_row _ (database w)) as [[s u]|] eqn:Hrow; [|done].
  apply session_row_Some in Hrow as (Hs & Ht & Hu & Hid).
  apply ensures_now. intros w1 h1 Hs1. cbv zeta.
  repeat case_match; try (apply (ensures_respects (fun _ => True)); [by apply respects_drop|done|done]);
    match goal with H : (ExpiresAt s <=? _) = false, H' : (_ <? time_sub _ _) = false, H'' : bool_decide _ = false |- _ =>
      apply Z.leb_gt in H; apply Z.ltb_ge in H'; apply bool_decide_eq_false in H'' end.
  all: assert (authenticated r (mk_principal (to_user u) (s_ID s) (c_sha256 C value) (CSRFTokenHash s) (MFAVerifiedAt s) (TOTPConfirmedAt u))
    (w1 :: w1 :: h1)) as Hauth by (exists value, w, w1, s, u; rewrite Ht; repeat split; try done;
      exists h1; split; [by apply suffix_cons_r|]; eapply elem_of_suffix; [|exact Hs1]; set_solver).
  - by intros person [= <-].
  - apply (ensures_respects (fun _ => True)); [by apply respects_touch|done|].
    intros _ h' Hs' person [= <-]. by eapply authenticated_lasting.
Qed.

(** ** The gates *)
Local Abbreviation anybody := (fun _ : list world => True).

Lemma respects_authenticated {A} r (k : option principal -> program A) :
  respects anybody (k None) -> (forall person, respects (known person) (k (Some person))) ->
  respects anybody (authenticate C config r ≫= k).
Proof.
  intros HN HS h0 _. apply keeps_bind. eapply ensures_weaken; [apply authenticate_spec|].
  intros [person|] h _ Hk; [|by apply HN]. by eapply HS, authenticated_known, Hk.
Qed.

Lemma respects_Middleware next r :
  (forall person, respects (known person) (next person)) -> respects anybody (Middleware C config next r).
Proof.
  intros Hn. apply respects_authenticated; [done|]. intros person. case_match; [done|]. case_match; [done|apply Hn].
Qed.

Lemma respects_preAuthentication next r :
  (forall person, respects (known person) (next person)) -> respects anybody (preAuthentication C config next r).
Proof. intros Hn. apply respects_authenticated; [done|]. intros person. case_match; [done|apply Hn]. Qed.

(** ** The handlers *)
Hint Resolve known_lasting nothing_lasting respects_touch respects_drop : identity.

Lemma respects_startSession K r user : lasting K -> respects K (startSession C config r user).
Proof.
  intros HK. unfold startSession. do 4 (apply respects_bind; [done|apply respects_quiet; auto with identity|intros ?]).
  cbv zeta. apply respects_bind; [done| |done]. apply respects_insert; [done|].
  intros V w h d' _ _ Hok Hi. by eapply insert_session_step in Hi.
Qed.

Lemma respects_login_time K id now : lasting K -> respects K (exec (update_users (by_user_id id) (set_login now))).
Proof. intros HK. apply respects_exec; [done|]. intros V d. apply login_step. Qed.
Lemma respects_secret K id encrypted : lasting K ->
  respects K (exec (update_users (by_user_id id)
    (fun u => set_factor (Some encrypted) (TOTPConfirmedAt u) (TOTPLastStep u) (RecoveryCodeHashes u) u))).
Proof. intros HK. apply respects_exec; [done|]. intros V d. apply secret_step. Qed.
Lemma respects_clear K id : lasting K -> respects K (exec (update_users (by_user_id id) clear_factor)).
Proof. intros HK. apply respects_exec; [done|]. intros V d. apply clear_step. Qed.
Lemma respects_change K person hash : lasting K -> respects K (transaction tt (change_password_tx person hash)).
Proof. intros HK. apply respects_plain_tx; [done|]. intros V d x d' Hok. by eapply change_password_step. Qed.
Lemma respects_replace K person wanted encrypted :
  lasting K -> respects K (transaction errTxDriver (replace_tx C person wanted encrypted)).
Proof. intros HK. apply respects_plain_tx; [done|]. intros V d x d' Hok. by eapply replace_step. Qed.
Lemma respects_delete K id : lasting K -> respects K (transaction errUserDriver (delete_user_tx id)).
Proof. intros HK. apply respects_plain_tx; [done|]. intros V d x d' Hok. by eapply delete_user_step. Qed.
Lemma respects_sites K id sites now : lasting K -> respects K (transaction errUserDriver (replace_sites_tx id sites now)).
Proof. intros HK. apply respects_plain_tx; [done|]. intros V d x d' Hok. by eapply replace_sites_step. Qed.
Lemma respects_reset K username : lasting K -> respects K (transaction errResetDriver (reset_tx username)).
Proof. intros HK. apply respects_plain_tx; [done|]. intros V d x d' Hok. by eapply reset_step. Qed.
Lemma respects_bootstrap K u : lasting K -> u_Role u = "admin"%string -> respects K (transaction errBootstrapDriver (bootstrap_tx u)).
Proof. intros HK Hu. apply respects_plain_tx; [done|]. intros V d x d' Hok Hb. by eapply bootstrap_step in Hb as [? _]. Qed.
Lemma respects_update K id role hash : lasting K ->
  (forall r, role = Some r -> validManagedRole r = true) -> respects K (transaction errUserDriver (update_user_tx id role hash)).
Proof. intros HK Hr. apply respects_plain_tx; [done|]. intros V d x d' Hok. by eapply update_user_step. Qed.
Lemma respects_confirm person now step hashes :
  respects (known person) (transaction errTxDriver (confirm_tx person now step hashes)).
Proof. apply respects_marking_tx. intros d x d' Hok. by eapply confirm_step. Qed.
Lemma respects_totp person now step : respects (known person) (transaction errTxDriver (totp_tx person now step)).
Proof. apply respects_marking_tx. intros d x d' Hok. by eapply totp_step. Qed.
Lemma respects_recovery person wanted now : respects (known person) (transaction errTxDriver (recovery_tx C person wanted now)).
Proof. apply respects_marking_tx. intros d x d' Hok. by eapply recovery_step. Qed.
Lemma respects_create person u :
  validManagedRole (u_Role u) = true -> respects (known person) (insert (insert_user u)).
Proof.
  intros Hrole. apply respects_insert; [apply known_lasting|]. intros V w h d' HK Hl Hok Hi.
  eapply insert_user_step in Hi; [exact Hi|done|done|]. left. by eapply known_accounts.
Qed.
Hint Resolve respects_startSession respects_login_time respects_secret respects_clear respects_change respects_replace
  respects_delete respects_sites respects_reset respects_update respects_confirm respects_totp respects_recovery : identity.

(** Walks through a handler, operation by operation. *)
Local Ltac walk := cbv zeta; repeat first
  [ apply respects_ret
  | solve [apply respects_quiet; auto with identity]
  | solve [auto with identity]
  | apply respects_bind; [auto with identity| |intros ?]
  | lazymatch goal with |- respects _ (match ?x with _ => _ end) => destruct x eqn:? end ].

Lemma respects_bootstrapHTTP r input : respects anybody (bootstrapHTTP C config tokenPath r input).
Proof. unfold bootstrapHTTP. walk. by apply respects_bootstrap. Qed.
Lemma respects_loginHTTP r input : respects anybody (loginHTTP C config r input).
Proof. unfold loginHTTP. walk. Qed.
Lemma respects_statusHTTP r : respects anybody (statusHTTP C config r).
Proof.
  unfold statusHTTP. apply respects_bind; [done|apply respects_quiet; auto with identity|]. intros [required|]; [|done].
  apply respects_bind; [done|apply respects_quiet; destruct required; calm|]. intros ?.
  apply respects_authenticated; [done|]. intros person. case_match. repeat case_match; done.
Qed.
Lemma respects_logoutHTTP r : respects anybody (logoutHTTP C config r).
Proof.
  unfold logoutHTTP, requireSession. apply respects_bind; [done| |].
  - apply respects_authenticated; [done|]. intros person. done.
  - intros [person|[]]; walk.
Qed.
Lemma respects_change_passwordHTTP r input person : respects (known person) (changePasswordHTTP C config r input person).
Proof. unfold changePasswordHTTP. walk. Qed.
Lemma respects_mfaEnroll person : respects (known person) (mfaEnroll C person).
Proof. unfold mfaEnroll. walk. Qed.
Lemma respects_mfaConfirm r input person : respects (known person) (mfaConfirm C r input person).
Proof. unfold mfaConfirm. walk. Qed.
Lemma respects_mfaDisable r password person : respects (known person) (mfaDisableHTTP C r password person).
Proof. unfold mfaDisableHTTP. walk. Qed.
Lemma respects_verifyTOTP person code : respects (known person) (verifyTOTPChallenge C person code).
Proof. unfold verifyTOTPChallenge. walk. Qed.
Lemma respects_verifyRecovery person code : respects (known person) (verifyRecoveryChallenge C person code).
Proof. unfold verifyRecoveryChallenge. walk. Qed.
Hint Resolve respects_verifyTOTP respects_verifyRecovery : identity.
Lemma respects_mfaVerify r input person : respects (known person) (mfaVerify C r input person).
Proof. unfold mfaVerify. walk. Qed.
Lemma respects_mfaRecover r input person : respects (known person) (mfaRecover C r input person).
Proof. unfold mfaRecover, replaceMFAWithRecovery. walk. Qed.

(** *** Administration *)
Lemma respects_createUserHTTP r input person : respects (known person) (createUserHTTP C config rfc3339_nano r input person).
Proof.
  unfold createUserHTTP. walk. apply respects_create. simpl.
  by match goal with H : negb (validManagedRole _) = false |- _ => apply negb_false_iff in H end.
Qed.
Lemma respects_updateUserHTTP id r input person : respects (known person) (updateUserHTTP C config rfc3339_nano id r input person).
Proof.
  unfold updateUserHTTP. walk. apply respects_update; [auto with identity|]. intros role Hrole.
  match goal with H : match o_Role _ with _ => _ end = false |- _ => rewrite Hrole in H; by apply negb_false_iff in H end.
Qed.
Lemma respects_deleteUserHTTP id r person : respects (known person) (deleteUserHTTP id r person).
Proof. unfold deleteUserHTTP. walk. Qed.
Lemma respects_replaceUserSitesHTTP id r input person :
  respects (known person) (replaceUserSitesHTTP siteDirectory id r input person).
Proof. unfold replaceUserSitesHTTP. walk. Qed.

Lemma respects_ResetSecondFactor recorded username now :
  respects anybody (ResetSecondFactor rfc3339 recorded username now).
Proof. unfold ResetSecondFactor. walk. apply respects_quiet. calm. Qed.

Lemma respects_authorize permission next person :
  respects (known person) (next person) -> respects (known person) (authorize permission next person).
Proof. intros Hn. unfold authorize. walk; done. Qed.
Lemma respects_HandleAuthenticated next r :
  (forall person, respects (known person) (next person)) -> respects anybody (HandleAuthenticated C config next r).
Proof. apply respects_Middleware. Qed.
Lemma respects_HandleAuthorized permission next r :
  (forall person, respects (known person) (next person)) -> respects anybody (HandleAuthorized C config permission next r).
Proof. intros Hn. apply respects_Middleware. intros person. by apply respects_authorize. Qed.

(** Every route. *)
Lemma respects_Register op r : respects anybody (Register C config rfc3339_nano siteDirectory tokenPath op r).
Proof.
  destruct op; simpl.
  - apply respects_statusHTTP.
  - apply respects_bootstrapHTTP.
  - apply respects_loginHTTP.
  - apply respects_preAuthentication, respects_mfaEnroll.
  - apply respects_preAuthentication, respects_mfaConfirm.
  - apply respects_preAuthentication, respects_mfaVerify.
  - apply respects_preAuthentication, respects_mfaRecover.
  - apply respects_HandleAuthenticated, respects_mfaDisable.
  - apply respects_HandleAuthenticated, respects_change_passwordHTTP.
  - by apply respects_HandleAuthenticated.
  - apply respects_logoutHTTP.
  - apply respects_HandleAuthorized. intros person. apply respects_quiet, quiet_list.
  - apply respects_HandleAuthorized, respects_createUserHTTP.
  - apply respects_HandleAuthorized, respects_updateUserHTTP.
  - apply respects_HandleAuthorized, respects_deleteUserHTTP.
  - apply respects_HandleAuthorized, respects_replaceUserSitesHTTP.
Qed.
End requests.

#[export] Hint Resolve quiet_ret quiet_now quiet_draw quiet_query quiet_audit quiet_allow quiet_reset quiet_randomID quiet_hash
  quiet_allowAttempts quiet_resetAttempts quiet_invalidLogin quiet_clearToken quiet_allowed quiet_allowMFA quiet_resetMFA
  quiet_loadMFA quiet_codes quiet_granted quiet_given quiet_unknown quiet_ensure quiet_list : identity.
