(* ===== verification/IdentityProps.v ===== *)
(** * Properties of the identity module

    Any number of requests interleave with the command line, the other modules'
    requests, restarts and the clock; every history that arises is legal
    ([IdentityRequests]), and the properties follow. *)

From Stdlib Require Import Ascii.
From S2P Require Import Prelude GoStrings Json Sql AuditLog Limiter Codec Passwords.
From S2P Require Import Programs Identity IdentityHandlers IdentityUsers IdentityLaws IdentitySteps IdentityRequests.

Local Open Scope Z_scope.

Section props.
Context (C : crypto) (config : Config) (rfc3339 rfc3339_nano : Z -> string).
Context (siteDirectory : option (string -> world -> option bool)) (tokenPath : string).
Local Abbreviation program := (prog world).
Local Abbreviation legal := (legal tables_ok (guarantee C)).
Local Abbreviation ensures := (ensures tables_ok (guarantee C)).
Implicit Types (h : list world) (w : world).

(** ** Executions *)
(** What runs: a route of the module, an operation of another module behind the
    gates, the break-glass command, and the start of the process. *)
Inductive serves : program response -> Prop :=
| serves_route op r : serves (Register C config rfc3339_nano siteDirectory tokenPath op r)
| serves_module permission next r :
    (forall person, quiet (next person)) -> serves (HandleAuthorized C config permission next r)
| serves_reset recorded username now :
    serves (_ ← ResetSecondFactor rfc3339 recorded username now; mret (ok_response 200 JNull))
| serves_start : serves (_ ← EnsureBootstrapToken C tokenPath; mret (ok_response 200 JNull)).

(** Time passes; the process restarts and loses its memory. *)
Inductive environment : world -> world -> Prop :=
| time_passes t w : environment w (with_clock t w)
| restart w :
    environment w (with_token EmptyString
      (with_attempts (newAttemptLimiter (AttemptLimit config) (AttemptWindow config))
        (with_lockouts (newAttemptLimiter (MFALockoutLimit config) (MFALockoutWindow config)) w))).

Definition execution (w : world) (h : list world) : Prop :=
  exists l, rtc (trace_step serves environment) ([], [w]) (l, h).

Lemma serves_keeps p : serves p -> keeps tables_ok (guarantee C) [] p.
Proof.
  intros [op r|permission next r Hq|recorded username now|].
  - by apply respects_Register.
  - apply (respects_HandleAuthorized C config permission next r); [|done]. intros person. by apply respects_quiet.
  - apply (respects_bind _ _ (fun _ => True)); [done|apply respects_ResetSecondFactor|done|done].
  - apply (respects_bind _ _ (fun _ => True)); [done|apply respects_quiet, quiet_ensure|done|done].
Qed.

Lemma execution_legal w h : db_ok (database w) -> execution w h -> legal h /\ [w] `suffix_of` h.
Proof.
  intros Hw [l Hsteps]. split.
  - apply (legal_traces tables_ok (guarantee C) serves environment serves_keeps) in Hsteps; [done| | |done].
    + intros w0 h0 Hl. by apply (same_database_guarantee C w0 h0 w0).
    + intros w0 h0 w1 Hl He. apply (same_database_guarantee C w0 h0 w1 Hl). by destruct He.
  - change ([w] `suffix_of` (l, h).2). change ([w]) with (([] : list (program response), [w]).2).
    induction Hsteps as [|c1 c2 c3 (w1 & h1 & w2 & Hh & Hh' & _) _ IH]; [done|].
    etrans; [|exact IH]. rewrite Hh, Hh'. by apply suffix_cons_r.
Qed.

Lemma legal_tail k w h : legal (k ++ w :: h) -> legal (w :: h).
Proof. induction k as [|w1 k IH]; [done|]. simpl. destruct (k ++ w :: h) eqn:Hk; [by destruct k|]. intros [_ H]. by apply IH. Qed.

(** C3. The identity tables keep their invariant in every execution: identifiers,
    names (without case), tokens and grants are unique, sessions and grants belong to
    an account, roles are known ones.  And once there is an account there is always an
    administrator: neither demotions and deletions that race, nor a bootstrap that
    races, can leave the panel without one. *)
Theorem identity_tables_invariant w h w' :
  db_ok (database w) -> execution w h -> w' ∈ h ->
  db_ok (database w') /\
  (users (database w) <> [] -> exists u, u ∈ users (database w') /\ u_Role u = "admin"%string).
Proof.
  intros Hw Hex Hin. destruct (execution_legal w h Hw Hex) as [Hl Hs].
  apply list_elem_of_split in Hin as (k & h' & ->). apply legal_tail in Hl as Hl'.
  pose proof (legal_ok C w' h' Hl') as Hok. split; [done|]. intros Hne.
  assert (w ∈ w' :: h') as Hin.
  { destruct Hs as [k' Hk]. assert (last (k ++ w' :: h') = Some w) as Hlast by (rewrite Hk; apply last_snoc).
rewrite last_app in Hlast. destruct (last (w' :: h')) as [x|] eqn:Hx; [|by apply last_None in Hx].
    simplify_eq. by apply last_Some_elem_of. }
  pose proof (accounts_stay C w' h' w Hl' Hin Hne) as Hne'. pose proof (ok_admin _ Hok Hne') as Hpos.
  apply rows_affected_pos in Hpos as (u & Hu & Ha%bool_decide_eq_true). eauto.
Qed.

(** ** The second factor *)
(** C6. In every step of every execution, a session that is verified afterwards was
    verified at the same time before, or the step itself made an account to which
    that session belonged answer a challenge: its last accepted code step went up, or
    one of its recovery codes was spent, or its enrollment was confirmed.  No crash,
    fault or race marks a session verified otherwise, and marking it and spending the
    code are one step. *)
Theorem identity_mfa_answered w h k w2 w1 h1 s' :
  db_ok (database w) -> execution w h -> h = k ++ w2 :: w1 :: h1 ->
  s' ∈ sessions (database w2) -> MFAVerifiedAt s' <> None ->
  (exists s, s ∈ sessions (database w1) /\ same_session s s' /\ MFAVerifiedAt s' = MFAVerifiedAt s) \/
  (exists U, owned_before (w1 :: h1) (s_ID s') U /\ answered C (database w1) (database w2) U).
Proof.
  intros Hw Hex -> Hs' Hv. destruct (execution_legal w _ Hw Hex) as [Hl _]. apply legal_tail in Hl as [HG _].
  destruct (step_sessions _ _ _ _ HG s' Hs') as [(s & Hs & Hss & Hm)|Hn]; [|done].
  destruct Hm as [Hm|[Hm|HV]]; [left; eauto|done|right]. destruct Hss as (Hid & _). by rewrite Hid.
Qed.

(** The account [U] has a confirmed factor. *)
Definition enrolled (U : string) w (u : userModel) : Prop :=
  u ∈ users (database w) /\ u_ID u = U /\ TOTPConfirmedAt u <> None.

Lemma enrolled_one U w u u' : db_ok (database w) -> enrolled U w u -> enrolled U w u' -> u = u'.
Proof. intros Hok (H1 & H2 & _) (H3 & H4 & _). apply (NoDup_same_key u_ID (users (database w))); [apply Hok|done|done|congruence]. Qed.

Lemma factor_step_monotone u u' :
  factor_step C u u' -> TOTPConfirmedAt u <> None -> TOTPConfirmedAt u' <> None -> TOTPLastStep u <= TOTPLastStep u'.
Proof.
  intros [(_ & _ & -> & _)|[Hs _ _ _|hashes i _ _ _ _ _ ->|Hn _ _]|_ _ -> _|Hn _ _] H H'; try done; lia.
Qed.

(** While an account stays enrolled its last accepted step does not go down. *)
Lemma enrolled_monotone U k w1 h1 w2 u1 u2 :
  legal (k ++ w1 :: h1) -> Forall (fun w => exists u, enrolled U w u) k ->
  head (k ++ w1 :: h1) = Some w2 -> enrolled U w1 u1 -> enrolled U w2 u2 -> TOTPLastStep u1 <= TOTPLastStep u2.
Proof.
  revert w2 u2. induction k as [|w3 k IH]; intros w2 u2 Hl Hall Hh H1 H2; simpl in Hh; injection Hh as <-.
  - by rewrite (enrolled_one U w1 u1 u2 (legal_ok C w1 h1 Hl) H1 H2).
  - apply Forall_cons in Hall as [_ Hall]. assert (exists w4 h4, k ++ w1 :: h1 = w4 :: h4 /\ exists u4, enrolled U w4 u4) as (w4 & h4 & Hk & u4 & H4).
    { destruct k as [|w4 k]; [by exists w1, h1; eauto|]. exists w4, (k ++ w1 :: h1). apply Forall_cons in Hall as [? _]. done. }
    simpl in Hl. rewrite Hk in *. destruct Hl as [HG Hl]. etrans; [by apply (IH w4 u4)|].
    destruct H4 as (Hu4 & Hid4 & Hc4), H2 as (Hu2 & Hid2 & Hc2).
    apply factor_step_monotone; [|done|done]. apply (step_factors _ _ _ _ HG); [done|done|congruence].
Qed.

(** The transaction that accepts the code of the step [n] for the account [U], in a
    challenge or to confirm an enrollment, committed between the worlds [w] and [w']. *)
Definition accepted (U : string) (n : Z) w w' : Prop :=
  exists person now, account person = U /\
    (totp_tx person now n (database w) = Ok (tt, database w') \/
     exists hashes, confirm_tx person now n hashes (database w) = Ok (tt, database w')).

(** A challenge is answered with a code only by such a transaction, for a step whose
    code it is. *)
Lemma challenge_accepts h0 person code :
  known person h0 ->
  ensures h0 (verifyTOTPChallenge C person code) (fun r h => r = Ok tt ->
    exists n w w' h', w' :: w :: h' `suffix_of` h /\ accepted (account person) n w w' /\
      exists secret now lastStep, validateTOTP (c_hmac_sha1 C) secret code now lastStep = Some n).
Proof.
  intros Hk. unfold verifyTOTPChallenge.
  apply (ensures_respects C (fun _ => True)); [apply respects_quiet; auto with identity|done|].
  intros [[model secret]|] h1 Hs1; [|done]. case_match; [done|]. apply ensures_now. intros w1 h2 Hs2.
  case_match eqn:Hv; [|done]. apply ensures_now. intros w3 h3 Hs3.
  assert (known person (w3 :: w3 :: h3)) as Hk3.
  { eapply known_lasting; [|exact Hk]. etrans; [exact Hs1|]. etrans; [exact Hs2|]. apply suffix_cons_r.
    etrans; [|exact Hs3]. by apply suffix_cons_r. }
  intros fault w h Hs Hl. split; [by apply (respects_totp C person (clock w3) z _ Hk3 fault w h Hs Hl)|]. simpl.
  destruct (run_tx fault errTxDriver (database w) _) as [r d'] eqn:Htx.
  apply run_tx_inv in Htx as [([] & -> & _ & Hb)|[[e ->] ->]]; [|intros [=]].
  intros _. exists z, w, (with_database d' w), h. split; [done|]. split; [by exists person, (clock w3); auto|eauto].
Qed.

Lemma accepted_row U n w w' u' :
  db_ok (database w') -> accepted U n w w' -> u' ∈ users (database w') -> u_ID u' = U -> TOTPLastStep u' = n.
Proof.
  intros Hok (person & now & <- & Hacc) Hu' Hid'.
  assert (exists p f, update_one p f (database w) = Ok (update_users p f (database w)) /\
    database w' = mark_verified person now (update_users p f (database w)) /\
    (forall u, p u = true -> u_ID u = account person) /\ (forall u, u_ID (f u) = u_ID u /\ TOTPLastStep (f u) = n))
    as (p & f & (_ & u & Hu & Hp)%update_one_Ok & Hd & Hpid & Hf).
  { unfold totp_tx, confirm_tx in Hacc. destruct Hacc as [(d1 & Hup & [= <-])%bind_Ok|(hashes & (d1 & Hup & [= <-])%bind_Ok)];
      pose proof Hup as [-> _]%update_one_Ok; do 2 eexists; (split; [exact Hup|]); split_and!; try done;
      by intros u [Hp%by_user_id_true _]%andb_prop. }
  assert (u' = f u) as ->; [|by apply Hf].
  apply (NoDup_same_key u_ID (users (database w'))); [apply Hok|done| |].
  - rewrite Hd. apply elem_of_update_where. exists u. by rewrite Hp.
  - rewrite (proj1 (Hf u)), (Hpid u Hp). done.
Qed.

(** A code is accepted for a step above the last only. *)
Lemma accepted_above U n w w' u :
  db_ok (database w) -> accepted U n w w' -> enrolled U w u -> TOTPLastStep u < n.
Proof.
  intros Hok (person & now & <- & Hacc) (Hu & Hid & Hc).
  assert (forall p f d, update_one p f (database w) = Ok d -> (forall v, p v = true -> u_ID v = account person) -> p u = true)
    as Hrow.
  { intros p f d (_ & v & Hv & Hp)%update_one_Ok Hpid. assert (u = v) as ->; [|done].
    apply (NoDup_same_key u_ID (users (database w))); [apply Hok|done|done|]. by rewrite (Hpid v Hp). }
  destruct Hacc as [(d1 & Hup & _)%bind_Ok|(hashes & (d1 & Hup & _)%bind_Ok)]; apply Hrow in Hup.
  - by apply andb_prop in Hup as [_ ?%Z.ltb_lt].
  - by intros v [Hp%by_user_id_true _]%andb_prop.
  - by apply andb_prop in Hup as [_ ?%bool_decide_eq_true].
  - by intros v [Hp%by_user_id_true _]%andb_prop.
Qed.

(** C34. A code is accepted once: when a transaction has accepted the code of a step
    for an account, in a challenge or at enrollment, and the account stays enrolled,
    then every later one, in whatever session and request, accepts a later step; and
    the check of a challenge no longer finds that step in any code. *)
Theorem identity_code_single_use U w h k w4 w3 m w2 w1 h1 n1 n2 :
  db_ok (database w) -> execution w h ->
  h = k ++ w4 :: m ++ w2 :: w1 :: h1 -> head (m ++ w2 :: w1 :: h1) = Some w3 ->
  Forall (fun w => exists u, enrolled U w u) (m ++ [w2]) ->
  accepted U n1 w1 w2 -> accepted U n2 w3 w4 ->
  n1 < n2 /\
  forall u3 secret code now, enrolled U w3 u3 ->
    validateTOTP (c_hmac_sha1 C) secret code now (TOTPLastStep u3) <> Some n1.
Proof.
  intros Hw Hex -> Hh Hall Ha1 Ha2. destruct (execution_legal w _ Hw Hex) as [Hl _].
  apply legal_tail in Hl. assert (legal (m ++ w2 :: w1 :: h1)) as Hm.
  { destruct (m ++ w2 :: w1 :: h1) eqn:Hm; [by destruct m|]. apply Hl. }
  apply Forall_app in Hall as [Hall [(u2 & H2) _]%Forall_cons].
  assert (Hok3 : db_ok (database w3)).
  { destruct (m ++ w2 :: w1 :: h1) as [|w0 h0] eqn:Hm0; [done|]. injection Hh as ->. by apply (legal_ok C w3 h0). }
  assert (Hlast : TOTPLastStep u2 = n1).
  { destruct H2 as (Hu2 & Hid2 & _). eapply accepted_row; [|exact Ha1|done..]. apply (legal_ok C w2 (w1 :: h1)). by eapply legal_tail. }
  assert (Hge : forall u3, enrolled U w3 u3 -> n1 <= TOTPLastStep u3).
  { intros u3 H3. rewrite <-Hlast. by apply (enrolled_monotone U m w2 (w1 :: h1) w3). }
  assert (exists u3, enrolled U w3 u3) as [u3 H3].
  { destruct m as [|w0 m]; simpl in Hh; injection Hh as <-; [by exists u2|]. by apply Forall_cons in Hall as [? _]. }
  split.
  - pose proof (accepted_above U n2 w3 w4 u3 Hok3 Ha2 H3). specialize (Hge u3 H3). lia.
  - intros u secret code now Hu Hv%validateTOTP_Some. specialize (Hge u Hu). lia.
Qed.

(** ** The gates *)
(** What the gate of an operation with [permission] has established. *)
Definition admitted (permission : string) (r : request) (person : principal) h : Prop :=
  authenticated C config r person h /\
  (p_TOTPConfirmedAt person <> None -> p_MFAVerifiedAt person <> None) /\
  (safeMethod (Method r) = true \/
   validRequestOrigin C r = true /\
   (has_prefix "/tools/" (URLPath r) = true \/ c_sha256 C (trim_space (CSRFHeader r)) = p_CSRFTokenHash person)) /\
  Allowed (Role (p_User person)) permission = true /\
  (sensitivePermission permission = true -> p_TOTPConfirmedAt person <> None ->
   exists w t, w ∈ h /\ p_MFAVerifiedAt person = Some t /\ t <= clock w /\ time_sub (clock w) t <= stepUpTTL).

Lemma enforced_None r person :
  enforceOriginAndCSRF C r person true = None ->
  safeMethod (Method r) = true \/
  validRequestOrigin C r = true /\
  (has_prefix "/tools/" (URLPath r) = true \/ c_sha256 C (trim_space (CSRFHeader r)) = p_CSRFTokenHash person).
Proof.
  unfold enforceOriginAndCSRF. case_match eqn:Ho; [done|]. apply negb_false_iff in Ho. simpl. case_match eqn:Ht; [by right; auto|].
  case_match eqn:Hc; [done|]. apply negb_false_iff in Hc. unfold validCSRFToken in Hc. case_match eqn:Hs; [by left|].
  case_bool_decide; [done|]. apply bool_decide_eq_true in Hc. by right; auto.
Qed.

Lemma RecentMFA_true person now maxAge :
  RecentMFA person now maxAge = true -> exists t, p_MFAVerifiedAt person = Some t /\ t <= now /\ time_sub now t <= maxAge.
Proof. unfold RecentMFA. case_match; [|done]. case_match; [done|]. intros Hrecent. split_andb. eexists. split; [done|lia]. Qed.

(** C7. The gate of an operation.  Behind [HandleAuthorized] an operation starts only for a
    principal whose session the cookie named, unexpired and not idle, in the past of
    this request; with its second factor answered if the account has one; from the
    panel's own origin with the session's CSRF token, unless the method is a safe one
    (the proxied tools bring their own token); whose role has the permission; and, for
    a sensitive permission, with a factor answered within ten minutes.  Whatever else
    runs in between, every other request is answered 401 or 403 instead. *)
Theorem identity_gate_sound (permission : string) (next : principal -> program response) (r : request) h0
    (Q : response -> list world -> Prop) :
  (forall person h, admitted permission r person h -> ensures h (next person) Q) ->
  (forall refusal h, Status refusal = 401 \/ Status refusal = 403 -> Q refusal h) ->
  ensures h0 (HandleAuthorized C config permission next r) Q.
Proof.
  intros Hnext Hrefuse. unfold HandleAuthorized, Middleware. apply ensures_bind.
  eapply ensures_weaken; [apply authenticate_spec|]. intros [person|] h _ Hauth; [|by apply Hrefuse; left].
  specialize (Hauth person eq_refl). case_match eqn:Hmfa; [by apply Hrefuse; left|].
  assert (p_TOTPConfirmedAt person <> None -> p_MFAVerifiedAt person <> None) as Hanswered.
  { intros H1 H2. rewrite !bool_decide_eq_true_2 in Hmfa by done. done. }
  destruct (enforceOriginAndCSRF C r person true) as [refusal|] eqn:Hcsrf.
  { apply Hrefuse. right. unfold enforceOriginAndCSRF in Hcsrf. repeat (case_match; try done); by simplify_eq. }
  apply enforced_None in Hcsrf. unfold authorize. case_match eqn:Hrole; [by apply Hrefuse; right|]. apply negb_false_iff in Hrole.
  destruct (sensitivePermission permission && MFAEnrolled person) eqn:Hsens.
  - apply ensures_now. intros w h1 Hs. case_match eqn:Hrecent; [by apply Hrefuse; right|]. apply negb_false_iff, RecentMFA_true in Hrecent.
    apply Hnext. split_and!; try done.
    + eapply authenticated_lasting; [|exact Hauth]. by apply suffix_cons_r.
    + intros _ _. exists w. destruct Hrecent as (t & Ht). exists t. split; [by apply elem_of_cons; left|done].
  - apply Hnext. split_and!; try done. intros H1 H2. rewrite H1 in Hsens. unfold MFAEnrolled in Hsens.
    by rewrite bool_decide_eq_true_2 in Hsens.
Qed.
End props.
