(* ===== verification/IdentitySessions.v ===== *)
(** * Sign-in opens a session that works, and revocation ends it

    Requests that run alone: the round trip from [loginHTTP] to the gate, and what
    password changes, administration and break-glass do to the sessions. *)

From Stdlib Require Import Ascii.
From S2P Require Import Prelude GoStrings Json Sql AuditLog Limiter Codec Passwords.
From S2P Require Import Programs Identity IdentityHandlers IdentityUsers IdentityLaws IdentitySteps IdentityRequests.

Local Open Scope Z_scope.

Section sessions.
Context (C : crypto) (config : Config).
Local Abbreviation program := (prog world).
Implicit Types (w : world) (d : db).

(** ** Running operations *)
Lemma run_quiet_bind {A B} (p : program A) (k : A -> program B) w :
  quiet p -> exists a w', run_alone (p ≫= k) [] w = run_alone (k a) [] w' /\ run_alone p [] w = (a, w') /\
    database w' = database w /\ clock w' = clock w.
Proof.
  intros Hp. rewrite run_alone_bind. destruct (quiet_run p [] w Hp) as [Hd Hc].
  destruct (run_alone p [] w) as [a w']. by exists a, w'.
Qed.

Local Ltac step_quiet a w' Hd Hc :=
  match goal with |- context [run_alone (?p ≫= ?k) [] ?w] =>
    destruct (run_quiet_bind p k w) as (a & w' & -> & _ & Hd & Hc); [by auto with identity|] end.

Lemma run_query_bind {A B} (q : db -> A) (k : option A -> program B) w :
  run_alone (query q ≫= k) [] w = run_alone (k (Some (q (database w)))) [] w.
Proof. by rewrite run_alone_bind. Qed.

Lemma run_now_bind {B} (k : Z -> program B) w : run_alone (now_ ≫= k) [] w = run_alone (k (clock w)) [] w.
Proof. by rewrite run_alone_bind. Qed.

Lemma run_draw_bind {B} n (k : string -> program B) w :
  run_alone (draw C n ≫= k) [] w = run_alone (k (c_random C (drawn w) n)) [] (with_drawn (S (drawn w)) w).
Proof. by rewrite run_alone_bind. Qed.

Lemma run_insert_bind {B} f (k : result bool unit -> program B) w :
  run_alone (insert f ≫= k) [] w =
  match f (database w) with
  | Some d => run_alone (k (Ok tt)) [] (with_database d w)
  | None => run_alone (k (Err true)) [] w
  end.
Proof. rewrite run_alone_bind. simpl. by destruct (f (database w)). Qed.

Lemma run_exec_bind {B} f (k : option unit -> program B) w :
  run_alone (exec f ≫= k) [] w = run_alone (k (Some tt)) [] (with_database (f (database w)) w).
Proof. by rewrite run_alone_bind. Qed.

Lemma run_tx_bind {E A B} (e : E) (body : db -> result E (A * db)) (k : result E A -> program B) w :
  run_alone (transaction e body ≫= k) [] w =
  match body (database w) with
  | Ok (a, d) => run_alone (k (Ok a)) [] (with_database d w)
  | Err err => run_alone (k (Err err)) [] (with_database (database w) w)
  end.
Proof. rewrite run_alone_bind. simpl. unfold run_tx. simpl. by destruct (body (database w)) as [[a d]|err]. Qed.

(** ** Opening a session *)
(** The row [startSession] inserts, from the tokens drawn. *)
Definition new_session (r : request) (user : User) (id token csrf : string) (now : Z) : sessionModel :=
  mk_session id (ID user) (c_sha256 C token) (sql_time now) (sql_time (now + SessionTTL config)) (sql_time now)
    (Remote r) (Agent r) None (c_sha256 C csrf).
Definition session_cookies (r : request) (token csrf : string) (now : Z) : list cookie :=
  [mk_cookie cookieName token true (HTTPS r) (now + SessionTTL config) (Z.quot (SessionTTL config) second);
   mk_cookie csrfCookieName csrf false (HTTPS r) (now + SessionTTL config) (Z.quot (SessionTTL config) second)].

Lemma startSession_run r user w cookies w' :
  run_alone (startSession C config r user) [] w = (Some cookies, w') ->
  exists n m k d, let token := hex_encode (c_random C n 32) in let csrf := hex_encode (c_random C m 32) in
    insert_session (new_session r user (hex_encode (c_random C k 16)) token csrf (clock w)) (database w) = Some d /\
    database w' = d /\ clock w' = clock w /\ cookies = session_cookies r token csrf (clock w).
Proof.
  unfold startSession. rewrite !run_draw_bind, run_now_bind. unfold randomID.
  rewrite run_alone_bind, run_draw_bind. cbv zeta. cbn [run_alone mret prog_ret].
  rewrite run_insert_bind. case_match eqn:Hi; [|done]. intros [= <- <-].
  eexists _, _, _, _. split; [exact Hi|]. done.
Qed.

(** A request that presents the cookies of a sign-in from the panel itself. *)
Definition presents (cookies : list cookie) (r : request) : Prop :=
  exists session csrf, cookies = [session; csrf] /\ SessionCookie r = Some (k_Value session) /\
    CSRFHeader r = k_Value csrf /\ validRequestOrigin C r = true.

(** ** Finding rows *)
Lemma session_row_of hash s u d :
  db_ok d -> s ∈ sessions d -> TokenHash s = hash -> u ∈ users d -> u_ID u = s_UserID s ->
  session_row hash d = Some (s, u).
Proof.
  intros Hok Hs Ht Hu Hid. unfold session_row. rewrite (find_unique _ _ s); [simpl; rewrite (find_unique _ _ u); [done|..]|..]; try done.
  - by apply bool_decide_eq_true.
  - intros v Hv Hp%bool_decide_eq_true. apply (NoDup_same_key u_ID (users d)); [apply Hok|done..|congruence].
  - by apply bool_decide_eq_true.
  - intros v Hv Hp%bool_decide_eq_true. apply (NoDup_same_key TokenHash (sessions d)); [apply Hok|done..|congruence].
Qed.

Definition principal_of (s : sessionModel) (u : userModel) : principal :=
  mk_principal (to_user u) (s_ID s) (TokenHash s) (CSRFTokenHash s) (MFAVerifiedAt s) (TOTPConfirmedAt u).

(** A live session of an account authenticates. *)
Lemma authenticate_run r token s u w :
  db_ok (database w) -> SessionCookie r = Some token -> len token = 64 ->
  s ∈ sessions (database w) -> TokenHash s = c_sha256 C token -> u ∈ users (database w) -> u_ID u = s_UserID s ->
  clock w < ExpiresAt s -> time_sub (clock w) (LastSeenAt s) <= IdleTimeout config -> CSRFTokenHash s <> EmptyString ->
  exists w', run_alone (authenticate C config r) [] w = (Some (principal_of s u), w').
Proof.
  intros Hok Hc Hlen Hs Ht Hu Hid Hexp Hidle Hcsrf. unfold authenticate. rewrite Hc, Hlen. simpl negb. cbv iota zeta.
  rewrite run_query_bind, (session_row_of _ s u) by done. rewrite run_now_bind.
  rewrite (proj2 (Z.leb_gt _ _) Hexp), (proj2 (Z.ltb_ge _ _) Hidle). rewrite bool_decide_eq_false_2 by done.
  case_match; [|rewrite run_exec_bind]; eexists; by rewrite <-Ht.
Qed.

(** ** Time as the database keeps it *)
Lemma sql_time_bounds t : sql_time t <= t < sql_time t + microsecond.
Proof. unfold sql_time, time_truncate, microsecond. pose proof (Z.mod_pos_bound t 1000). lia. Qed.

Lemma time_sub_bounded a b bound : 0 <= a - b <= bound -> time_sub a b <= bound.
Proof. unfold time_sub, int64_min, int64_max. lia. Qed.

(** ** From a sign-in to the gate *)
Section roundtrip.
Context (random_32 : forall n, String.length (c_random C n 32) = 32%nat).
Context (sha256_some : forall s, c_sha256 C s <> EmptyString).

(** What a sign-in that succeeds has done. *)
Lemma loginHTTP_run r input w resp w1 :
  run_alone (loginHTTP C config r (Some input)) [] w = (resp, w1) -> Status resp = 200 ->
  exists u n m k d, let token := hex_encode (c_random C n 32) in let csrf := hex_encode (c_random C m 32) in
    user_named (trim_space (i_Username input)) (database w) = Some u /\ password_valid C (i_Password input) (PasswordHash u) = true /\
    insert_session (new_session r (to_user u) (hex_encode (c_random C k 16)) token csrf (clock w)) (database w) = Some d /\
    database w1 = update_users (by_user_id (u_ID u)) (set_login (clock w)) d /\ clock w1 = clock w /\
    Cookies resp = session_cookies r token csrf (clock w).
Proof.
  unfold loginHTTP. cbv zeta. step_quiet ok w2 Hd2 Hc2. destruct ok; [|intros [= <- _]; by cbn]. cbn [negb].
  rewrite run_query_bind, Hd2. destruct (user_named _ (database w)) as [u|] eqn:Hu; [|by intros [= <- _]].
  case_match eqn:Hp; [by intros [= <- _]|]. apply negb_false_iff in Hp.
  rewrite run_alone_bind. destruct (run_alone (startSession _ _ _ _) [] w2) as [[cookies|] w3] eqn:Hs; [|intros [= <- _]; by cbn].
  apply startSession_run in Hs as (n & m & k & d & Hi & Hd3 & Hc3 & ->). rewrite Hd2, Hc2 in *.
  step_quiet x w4 Hd4 Hc4. rewrite run_now_bind, run_exec_bind. step_quiet y w5 Hd5 Hc5.
  intros [= <- <-] _. exists u, n, m, k, d. cbn in *. rewrite Hd5, Hc5, Hd4, Hc4, Hd3, Hc3. done.
Qed.

Lemma len_token n : len (hex_encode (c_random C n 32)) = 64.
Proof. unfold len. by rewrite hex_encode_length, random_32. Qed.

(** A request that presents the pair of cookies passes origin and CSRF. *)
Lemma presents_enforced s u r now token csrf r' :
  CSRFTokenHash s = c_sha256 C (hex_encode (c_random C csrf 32)) ->
  presents (session_cookies r token (hex_encode (c_random C csrf 32)) now) r' ->
  enforceOriginAndCSRF C r' (principal_of s u) true = None.
Proof.
  intros Hs (c1 & c2 & [= <- <-] & _ & Hh & Ho). unfold enforceOriginAndCSRF. rewrite Ho. simpl negb. cbv iota.
  case_match; [done|]. unfold validCSRFToken. destruct (safeMethod (Method r')); [done|]. rewrite Hh. simpl k_Value.
  rewrite trim_graphic by apply hex_encode_graphic. rewrite bool_decide_eq_false_2.
  - cbn. by rewrite bool_decide_eq_true_2.
  - intros Hnil. pose proof (len_token csrf) as Hl. by rewrite Hnil in Hl.
Qed.

(** C38. Signing in opens a session that works.  When [loginHTTP] answers 200, the account
    exists and the password is its own; and a later request from the panel that
    presents the two cookies, within the idle timeout and the lifetime, is passed on
    by the gate as that account, or answered [mfa_required] exactly when the account
    has a confirmed second factor. *)
Theorem identity_login_roundtrip (r : request) input w resp w1 r' later next :
  db_ok (database w) -> run_alone (loginHTTP C config r (Some input)) [] w = (resp, w1) -> Status resp = 200 ->
  presents (Cookies resp) r' -> clock w <= later ->
  later - clock w + microsecond <= IdleTimeout config -> later - clock w + microsecond <= SessionTTL config ->
  exists u, user_named (trim_space (i_Username input)) (database w) = Some u /\
    password_valid C (i_Password input) (PasswordHash u) = true /\
    match TOTPConfirmedAt u with
    | None => exists person w2, p_User person = to_user u /\
        run_alone (HandleAuthenticated C config next r') [] (with_clock later w1) = run_alone (next person) [] w2
    | Some _ => (run_alone (HandleAuthenticated C config next r') [] (with_clock later w1)).1 = error_response 401 "mfa_required"
    end.
Proof using random_32 sha256_some.
  intros Hok Hrun H200 Hpres Hlater Hidle Httl. apply loginHTTP_run in Hrun as (u & n & m & k & d & Hu & Hp & Hi & Hd & Hc & Hcook); [|done].
  exists u. split; [done|]. split; [done|]. cbv zeta in Hi. rewrite Hcook in Hpres.
  apply select_first_Some in Hu as [Hu _].
  assert (db_ok d) as Hok1 by (by eapply (insert_session_step C (fun _ => False)) in Hi as [? _ _ _]).
  assert (db_ok (database w1)) as Hok2 by (rewrite Hd; by apply (login_step C (fun _ => False))).
  unfold insert_session in Hi. case_match; [done|]. injection Hi as <-.
  set (s := new_session r (to_user u) _ _ _ _) in *. set (u' := set_login (clock w) u).
  assert (s ∈ sessions (database w1)) as Hs by (rewrite Hd; apply elem_of_app; right; by apply list_elem_of_singleton).
  assert (u' ∈ users (database w1)) as Hu'.
  { rewrite Hd. apply elem_of_update_where. exists u. split; [done|]. unfold by_user_id. by rewrite bool_decide_eq_true_2. }
  pose proof (sql_time_bounds (clock w)). pose proof (sql_time_bounds (clock w + SessionTTL config)).
  destruct (authenticate_run r' (hex_encode (c_random C n 32)) s u' (with_clock later w1)) as [w2 Hauth]; try done.
  - by destruct Hpres as (c1 & c2 & [= <- <-] & -> & _).
  - apply len_token.
  - simpl. lia.
  - apply time_sub_bounded. simpl. lia.
  - by apply sha256_some.
  - unfold HandleAuthenticated, Middleware. rewrite run_alone_bind, Hauth.
    rewrite (presents_enforced s u' r (clock w) (hex_encode (c_random C n 32)) m r'); [|done|done].
    simpl. destruct (TOTPConfirmedAt u); simpl; [done|]. by exists (principal_of s u'), w2.
Qed.
End roundtrip.

(** ** Revocation *)
Section revocation.
Context (rfc3339 rfc3339_nano : Z -> string).

(** The operations that end the session [s], when they succeed. *)
Inductive revoked (w w' : world) (s : sessionModel) : Prop :=
| by_update r input person resp :
    run_alone (updateUserHTTP C config rfc3339_nano (s_UserID s) r input person) [] w = (resp, w') -> Status resp = 200 ->
    revoked w w' s
| by_deletion r person resp :
    run_alone (deleteUserHTTP (s_UserID s) r person) [] w = (resp, w') -> Status resp = 204 -> revoked w w' s
| by_break_glass recorded username now reset :
    run_alone (ResetSecondFactor rfc3339 recorded username now) [] w = ((reset, None), w') -> r_UserID reset = s_UserID s ->
    revoked w w' s
| by_password r input person resp :
    run_alone (changePasswordHTTP C config r input person) [] w = (resp, w') -> Status resp = 204 ->
    account person = s_UserID s -> SessionID person <> s_ID s -> revoked w w' s.

Definition session_gone (s : sessionModel) d d' : Prop :=
  s ∉ sessions d' /\ forall s', s' ∈ sessions d' -> s' ∈ sessions d.

Lemma gone_where p s d d' : p s = true -> sessions d' = delete_where p (sessions d) -> session_gone s d d'.
Proof.
  intros Hp Hd. unfold session_gone. rewrite Hd. split.
  - intros [_ Hn]%elem_of_delete_where. congruence.
  - by intros s' [Hs' _]%elem_of_delete_where.
Qed.

Lemma given_hash_refusal id password w refusal w' :
  run_alone (given_hash C config id password) [] w = (Err refusal, w') -> Status refusal <> 200.
Proof.
  unfold given_hash. destruct password as [password|]; [|by intros [=]]. rewrite run_query_bind.
  destruct (user_by_id id (database w)) as [u|]; [|by intros [= <- _]]. case_match; [by intros [= <- _]|].
  rewrite run_alone_bind. by destruct (run_alone (hash_password _ _ _) [] w).
Qed.

Lemma update_gone r input person resp s w w' :
  run_alone (updateUserHTTP C config rfc3339_nano (s_UserID s) r input person) [] w = (resp, w') -> Status resp = 200 ->
  session_gone s (database w) (database w').
Proof.
  unfold updateUserHTTP. destruct input as [input|]; [|by intros [= <- _]]. do 2 (case_match; [by intros [= <- _]|]).
  rewrite run_alone_bind. pose proof (quiet_run _ [] w (quiet_given C config (s_UserID s) (o_Password input))) as [Hd _].
  destruct (run_alone (given_hash _ _ _ _) [] w) as [[hash|refusal] w2] eqn:Hg; simpl in Hd;
    [|by apply given_hash_refusal in Hg; intros [= <- _]].
  rewrite run_tx_bind, Hd. destruct (update_user_tx _ _ _ _) as [[model d]|e] eqn:Htx; [|by destruct e; intros [= <- _]].
  step_quiet x w3 Hd3 Hc3. rewrite run_alone_bind. pose proof (quiet_run _ [] w3 (quiet_granted (s_UserID s))) as [Hd4 _].
  destruct (run_alone (grantedSiteIDs _) [] w3) as [sites w4]. simpl in *. intros [= _ <-] _. rewrite Hd4, Hd3. clear Hd3 Hd4.
  unfold update_user_tx in Htx. repeat (case_match; try done); simplify_eq;
    by apply (gone_where (by_owner (s_UserID s))); [apply bool_decide_eq_true|].
Qed.

Lemma deletion_gone r person resp s w w' :
  run_alone (deleteUserHTTP (s_UserID s) r person) [] w = (resp, w') -> Status resp = 204 ->
  session_gone s (database w) (database w').
Proof.
  unfold deleteUserHTTP. case_match; [by intros [= <- _]|]. rewrite run_tx_bind.
  destruct (delete_user_tx _ _) as [[model d]|e] eqn:Htx; [|by destruct e; intros [= <- _]].
  step_quiet x w2 Hd2 Hc2. intros [= _ <-] _. rewrite Hd2. clear Hd2. unfold delete_user_tx in Htx. repeat (case_match; try done); simplify_eq;
    by apply (gone_where (by_owner (s_UserID s))); [apply bool_decide_eq_true|].
Qed.

Lemma break_glass_gone recorded username now reset s w w' :
  run_alone (ResetSecondFactor rfc3339 recorded username now) [] w = ((reset, None), w') -> r_UserID reset = s_UserID s ->
  session_gone s (database w) (database w').
Proof.
  unfold ResetSecondFactor. case_match; [done|]. rewrite run_tx_bind.
  destruct (reset_tx _ _) as [[found d]|e] eqn:Htx; [|done].
  intros Hrun Hid. assert (database w' = d /\ reset = found) as [-> ->] by (destruct recorded; cbn in Hrun; by simplify_eq).
  clear Hrun. unfold reset_tx in Htx. case_match; [|done]. injection Htx as <- <-.
  by apply (gone_where (by_owner (s_UserID s))); [apply bool_decide_eq_true|rewrite <-Hid].
Qed.

Lemma password_gone r input person resp s w w' :
  run_alone (changePasswordHTTP C config r input person) [] w = (resp, w') -> Status resp = 204 ->
  account person = s_UserID s -> SessionID person <> s_ID s -> session_gone s (database w) (database w').
Proof.
  unfold changePasswordHTTP. destruct input as [input|]; [|by intros [= <- _]]. do 2 (case_match; [by intros [= <- _]|]).
  cbv zeta. step_quiet ok w2 Hd2 Hc2. case_match; [by intros [= <- _]|]. rewrite run_query_bind.
  destruct (user_by_id _ _); [|by intros [= <- _]]. do 2 (case_match; [by intros [= <- _]|]).
  step_quiet hash w3 Hd3 Hc3. rewrite run_tx_bind. unfold change_password_tx. cbv beta iota. step_quiet x w4 Hd4 Hc4. step_quiet y w5 Hd5 Hc5.
  intros [= _ <-] _ Hacc Hid. rewrite Hd5, Hd4. simpl. rewrite Hd3, Hd2.
  apply (gone_where (fun s => by_owner (account person) s && negb (by_session_id (SessionID person) s))); [|done].
  unfold by_owner, by_session_id. by rewrite bool_decide_eq_true_2, bool_decide_eq_false_2.
Qed.

(** What ends a session ends it at once.  After a role or password given by an
    administrator, a deletion or a break-glass reset, every session of the account,
    and after a change of one's own password every other session, is refused by
    [authenticate] from then on: the cookie that named it names nothing. *)
Theorem identity_revocation w w' s r token :
  db_ok (database w) -> s ∈ sessions (database w) -> revoked w w' s ->
  SessionCookie r = Some token -> TokenHash s = c_sha256 C token ->
  (run_alone (authenticate C config r) [] w').1 = None.
Proof.
  intros Hok Hs Hrev Hc Ht.
  assert (session_gone s (database w) (database w')) as [Hgone Hold].
  { destruct Hrev; [by eapply update_gone|by eapply deletion_gone|by eapply break_glass_gone|by eapply password_gone]. }
  assert (session_row (c_sha256 C token) (database w') = None) as Hnone.
  { unfold session_row. destruct (select_first _ _) as [s'|] eqn:Hf; [|done].
    apply select_first_Some in Hf as [Hs' Hp%bool_decide_eq_true]. destruct Hgone.
    by rewrite (NoDup_same_key TokenHash (sessions (database w)) s s'); [|apply Hok|done|apply Hold|congruence]. }
  unfold authenticate. rewrite Hc. case_match; [done|]. cbv zeta. by rewrite run_query_bind, Hnone.
Qed.
End revocation.
End sessions.
