(* ===== verification/IdentityFactor.v ===== *)
(** * One-time codes and recovery codes work, once

    [internal/platform/identity/mfa.go] and the transactions of mfa_http.go on them. *)

From Stdlib Require Import Ascii.
From S2P Require Import Prelude GoStrings Json Sql AuditLog Limiter Codec Passwords.
From S2P Require Import Programs Identity IdentityHandlers IdentityUsers IdentityLaws IdentitySteps.

Local Open Scope Z_scope.

(** ** Codes are six digits *)
Lemma zeros_length n : String.length (zeros n) = n.
Proof. induction n as [|n IH]; simpl; [done|]. by rewrite IH. Qed.

Lemma zeros_digits n : all_bytes is_digit (zeros n) = true.
Proof. induction n as [|n IH]; simpl; [done|]. by rewrite IH. Qed.

(** A number below [10 ^ n] has at most [n] digits. *)
Lemma pretty_N_go_length n x s :
  (x < 10 ^ N.of_nat n)%N -> (String.length (pretty_N_go x s) <= n + String.length s)%nat.
Proof.
  revert x s. induction n as [|n IH]; intros x s Hx.
  - assert (x = 0%N) as -> by (simpl in Hx; lia). by rewrite pretty_N_go_0.
  - destruct (decide (x = 0%N)) as [->|Hne]; [rewrite pretty_N_go_0; lia|].
    rewrite pretty_N_go_step by lia. etrans; [apply IH|simpl; lia].
    apply N.Div0.div_lt_upper_bound. rewrite Nat2N.inj_succ, N.pow_succ_r' in Hx. lia.
Qed.

Lemma itoa_length n z : (0 < n)%nat -> 0 <= z < 10 ^ Z.of_nat n -> (String.length (itoa z) <= n)%nat.
Proof.
  intros Hn Hz. unfold itoa, pretty, pretty_Z. destruct z as [|p|p]; [simpl; lia| |lia].
  cbn.
  pose proof (pretty_N_go_length n (N.pos p) EmptyString) as H. simpl in H. rewrite Nat.add_0_r in H. apply H.
  assert (Z.of_N (N.pos p) < Z.of_N (10 ^ N.of_nat n)); [|lia]. rewrite N2Z.inj_pow, nat_N_Z. simpl. lia.
Qed.

Lemma pad_number_digits n v :
  (0 < n)%nat -> 0 <= v < 10 ^ Z.of_nat n ->
  len (pad_number n v) = Z.of_nat n /\ all_bytes is_digit (pad_number n v) = true.
Proof.
  intros Hn Hv. pose proof (itoa_length n v Hn Hv). unfold pad_number, len.
  rewrite str_length_app, zeros_length, all_bytes_app, zeros_digits, itoa_digits by lia. split; [lia|done].
Qed.

Section factor.
Context (C : crypto).
Implicit Types (d : db).

(** ** Codes from the authenticator *)
Lemma secret_plain raw : to_upper (trim_space (generateTOTPSecret raw)) = generateTOTPSecret raw.
Proof.
  unfold generateTOTPSecret. rewrite trim_graphic by (by apply base32_encode_bytes).
  apply to_upper_capital. by apply base32_encode_bytes.
Qed.

Lemma code_digits raw step :
  len (generateTOTP (c_hmac_sha1 C) raw step totpDigits) = Z.of_nat totpDigits /\
  all_bytes is_digit (generateTOTP (c_hmac_sha1 C) raw step totpDigits) = true.
Proof. unfold generateTOTP. cbv zeta. apply pad_number_digits; [unfold totpDigits; lia|]. apply Z.mod_pos_bound. done. Qed.

(** A code is accepted exactly when it is the code of the account's secret for the
    current thirty-second step or one of its two neighbours, and that step lies above
    the last one accepted.  The secret is the one [generateTOTPSecret] wrote out for
    the authenticator; in particular the authenticator's current code always works
    once. *)
Theorem identity_totp_window raw code now last :
  raw <> EmptyString ->
  is_Some (validateTOTP (c_hmac_sha1 C) (generateTOTPSecret raw) code now last) <->
  exists step, last < step /\ 0 <= step /\ Z.abs (step - Z.quot (unix now) totpPeriodSeconds) <= 1 /\
    code = generateTOTP (c_hmac_sha1 C) raw step totpDigits.
Proof.
  intros Hraw. split.
  - intros [step H]. apply validateTOTP_Some in H as (H1 & H2 & H3 & decoded & Hd & _ & <-).
    rewrite secret_plain in Hd. unfold generateTOTPSecret in Hd. rewrite base32_roundtrip in Hd. injection Hd as <-.
    exists step. split_and!; [done|done|lia|done].
  - intros (step & H1 & H2 & H3 & ->). unfold validateTOTP. destruct (code_digits raw step) as [-> ->].
    rewrite Z.eqb_refl. cbn [negb orb]. rewrite secret_plain. unfold generateTOTPSecret. rewrite base32_roundtrip.
    rewrite bool_decide_eq_false_2 by done. cbv zeta.
    destruct (List.find _ _) as [found|] eqn:Hf; [done|]. exfalso.
    assert (accept_step (c_hmac_sha1 C) raw (generateTOTP (c_hmac_sha1 C) raw step totpDigits) last step = true) as Ha.
    { unfold accept_step. rewrite (proj2 (Z.ltb_lt _ _) H1), (proj2 (Z.leb_le _ _) H2). by apply bool_decide_eq_true. }
    eapply find_none in Hf; [by rewrite Hf in Ha|]. simpl. lia.
Qed.

(** ** Recovery codes *)
Section recovery.
(** [json.Unmarshal] reads back the arrays the module writes. *)
Context (unmarshal_marshal : forall l, Forall (fun s => all_bytes plain_byte s = true) l ->
  c_unmarshal_strings C (marshal_strings l) = Some l).

Lemma code_hash_plain code : all_bytes plain_byte (hashRecoveryCode (c_sha256 C) code) = true.
Proof. unfold hashRecoveryCode. by apply hex_encode_bytes. Qed.

Lemma hashes_plain codes : Forall (fun s => all_bytes plain_byte s = true) (map (hashRecoveryCode (c_sha256 C)) codes).
Proof. apply Forall_forall. intros s (code & _ & <-)%elem_of_map. apply code_hash_plain. Qed.

Lemma scan_other (wanted : string) l n m :
  wanted ∉ l ->
  (foldl (fun '(index, matched) hash => (S index, if bool_decide (hash = wanted) then Some index else matched))
     (n, m) l).2 = (m : option nat).
Proof.
  revert n m. induction l as [|x l IH]; intros n m Hn; simpl; [done|].
  rewrite bool_decide_eq_false_2 by set_solver. apply IH. set_solver.
Qed.

Lemma scan_found (wanted : string) l n m i :
  NoDup l -> l !! i = Some wanted ->
  (foldl (fun '(index, matched) hash => (S index, if bool_decide (hash = wanted) then Some index else matched))
     (n, m) l).2 = Some (n + i)%nat.
Proof.
  revert n m i. induction l as [|x l IH]; intros n m i HN Hi; [done|]. apply NoDup_cons in HN as [Hx HN]. simpl.
  destruct i as [|i]; simpl in Hi.
  - injection Hi as ->. rewrite bool_decide_eq_true_2 by done. rewrite scan_other by done. f_equal. lia.
  - rewrite bool_decide_eq_false_2; [rewrite (IH _ _ i) by done; f_equal; lia|].
    intros ->. apply Hx. by eapply list_elem_of_lookup_2.
Qed.

Lemma match_found encoded l wanted i :
  c_unmarshal_strings C encoded = Some l -> NoDup l -> l !! i = Some wanted -> recoveryCodeMatch C encoded wanted = Some (l, Some i).
Proof. intros Hu HN Hi. unfold recoveryCodeMatch. rewrite Hu. by rewrite (scan_found wanted l 0 None i). Qed.

Lemma match_none encoded l wanted :
  c_unmarshal_strings C encoded = Some l -> wanted ∉ l -> recoveryCodeMatch C encoded wanted = Some (l, None).
Proof. intros Hu Hn. unfold recoveryCodeMatch. rewrite Hu. by rewrite scan_other. Qed.

(** The row of an account, before and after an update of it. *)
Lemma user_by_id_of id d u : db_ok d -> u ∈ users d -> u_ID u = id -> user_by_id id d = Some u.
Proof.
  intros Hok Hu Hid. apply find_unique; [done|by apply bool_decide_eq_true|].
  intros v Hv Hp%bool_decide_eq_true. apply (NoDup_same_key u_ID (users d)); [apply Hok|done..|congruence].
Qed.

(** A code whose hash is stored is accepted, and its hash is removed. *)
Lemma recovery_accepts person u l wanted i now d :
  db_ok d -> user_by_id (account person) d = Some u -> RecoveryCodeHashes u = marshal_strings l ->
  Forall (fun s => all_bytes plain_byte s = true) l -> NoDup l -> l !! i = Some wanted ->
  exists d', recovery_tx C person wanted now d = Ok (tt, d') /\ db_ok d' /\
    exists u', user_by_id (account person) d' = Some u' /\ RecoveryCodeHashes u' = marshal_strings (take i l ++ drop (S i) l).
Proof.
  intros Hok Hu Hl Hplain HN Hi. pose proof Hu as Hu0. apply user_by_id_Some in Hu as [Hu Hid].
  assert (exists d', recovery_tx C person wanted now d = Ok (tt, d') /\
    d' = mark_verified person now (update_users (fun v => by_user_id (account person) v && bool_decide (RecoveryCodeHashes v = RecoveryCodeHashes u))
      (fun v => set_factor (TOTPSecretEncrypted v) (TOTPConfirmedAt v) (TOTPLastStep v) (marshal_strings (take i l ++ drop (S i) l)) v) d)) as (d' & Htx & Hd').
  { unfold recovery_tx. rewrite Hu0. rewrite (match_found _ l wanted i); [|by rewrite Hl, unmarshal_marshal|done|done].
    unfold update_one. rewrite (one_row_affected _ _ u); [eexists; split; [reflexivity|done]| |done| |].
    - eapply NoDup_fmap_1. apply (ok_ids d Hok).
    - unfold by_user_id. by rewrite !bool_decide_eq_true_2.
    - intros v Hv [Hp%bool_decide_eq_true _]%andb_prop. apply (NoDup_same_key u_ID (users d)); [apply Hok|done..|congruence]. }
  exists d'. split; [done|]. assert (db_ok d') as Hok' by (by eapply (recovery_step C person wanted now d d') in Htx as [? _ _ _]). split; [done|].
  eexists. split; [apply user_by_id_of; [done|rewrite Hd'; apply elem_of_update_where; exists u; split; [done|]|]|].
  - unfold by_user_id. rewrite !bool_decide_eq_true_2 by done. simpl. reflexivity.
  - done.
  - done.
Qed.

Lemma recovery_refuses person u l wanted now d :
  user_by_id (account person) d = Some u -> RecoveryCodeHashes u = marshal_strings l ->
  Forall (fun s => all_bytes plain_byte s = true) l -> wanted ∉ l -> recovery_tx C person wanted now d = Err errTxRejected.
Proof.
  intros Hu Hl Hplain Hn. unfold recovery_tx. rewrite Hu, (match_none _ l); [done|by rewrite Hl, unmarshal_marshal|done].
Qed.

(** Recovery codes are single use and independent.  Of the codes shown at enrollment,
    any one is accepted by the challenge exactly once: the same code is then refused,
    and every other code still works. *)
Theorem identity_recovery_codes (draws : list string) codes hashes i code person u now now' d :
  generateRecoveryCodes (c_sha256 C) draws = (codes, hashes) -> NoDup hashes -> codes !! i = Some code ->
  db_ok d -> user_by_id (account person) d = Some u -> RecoveryCodeHashes u = marshal_strings hashes ->
  exists d', recovery_tx C person (hashRecoveryCode (c_sha256 C) code) now d = Ok (tt, d') /\
    recovery_tx C person (hashRecoveryCode (c_sha256 C) code) now' d' = Err errTxRejected /\
    forall j other, j <> i -> codes !! j = Some other ->
      is_ok (recovery_tx C person (hashRecoveryCode (c_sha256 C) other) now' d') = true.
Proof using unmarshal_marshal.
  unfold generateRecoveryCodes. intros [= Hcodes Hhashes] HN Hi Hok Hu Hl. rewrite Hcodes in Hhashes. clear Hcodes draws.
  assert (forall j c, codes !! j = Some c -> hashes !! j = Some (hashRecoveryCode (c_sha256 C) c)) as Hlook.
  { intros j c Hj. rewrite <-Hhashes. change (map ?f codes) with (f <$> codes). by rewrite list_lookup_fmap, Hj. }
  assert (Forall (fun s => all_bytes plain_byte s = true) hashes) as Hplain by (rewrite <-Hhashes; apply hashes_plain).
  destruct (recovery_accepts person u hashes _ i now d Hok Hu Hl Hplain HN (Hlook i code Hi)) as (d' & Htx & Hok' & u' & Hu' & Hl').
  assert (Hrest : Forall (fun s => all_bytes plain_byte s = true) (take i hashes ++ drop (S i) hashes)).
  { apply Forall_app. split; [by apply Forall_take|by apply Forall_drop]. }
  assert (hashes = take i hashes ++ hashRecoveryCode (c_sha256 C) code :: drop (S i) hashes) as Hsplit.
  { symmetry. apply take_drop_middle. by apply Hlook. }
  exists d'. split; [done|]. rewrite Hsplit in HN. apply NoDup_app in HN as (HN1 & Hd & [Hx HN2]%NoDup_cons). split.
  - eapply recovery_refuses; [exact Hu'|exact Hl'|done|]. rewrite elem_of_app. intros [H|H]; [|done]. apply (Hd _ H). set_solver.
  - intros j other Hne Hj. assert (exists j', (take i hashes ++ drop (S i) hashes) !! j' = Some (hashRecoveryCode (c_sha256 C) other)) as [j' Hj'].
    { apply Hlook in Hj. apply list_elem_of_lookup_1. rewrite elem_of_app. rewrite Hsplit in Hj. apply lookup_app_Some in Hj as [Hj|[Hge Hj]].
      - left. by eapply list_elem_of_lookup_2.
      - right. destruct (j - length (take i hashes))%nat as [|k] eqn:Hk; [|by eapply list_elem_of_lookup_2]. exfalso.
        rewrite length_take in *. assert (i < length hashes)%nat by (by eapply lookup_lt_Some, Hlook). lia. }
    assert (NoDup (take i hashes ++ drop (S i) hashes)) as HNr.
    { apply NoDup_app. split_and!; [done| |done]. intros x Hx1 Hx2. apply (Hd x Hx1). set_solver. }
    by destruct (recovery_accepts person u' _ _ j' now' d' Hok' Hu' Hl' Hrest HNr Hj') as (d2 & -> & _).
Qed.
End recovery.
End factor.
