(* ===== verification/IdentitySites.v ===== *)
(** * Site grants

    What replacing the grants of a developer changes, and what the readers of the
    grants then answer, the job queue's scoped reads among them. *)

From Stdlib Require Import Ascii.
From S2P Require Import Prelude GoStrings Json Sql AuditLog Jobs JobViews Limiter Codec Passwords Programs Identity IdentityHandlers IdentityUsers IdentityLaws IdentitySteps IdentityRequests IdentitySessions.

Local Open Scope Z_scope.

Section sites.
Context (C : crypto).
Implicit Types (d : db) (w : world).

(** ** Duplicates *)
Lemma dedupe_elem seen l x : x ∈ dedupe seen l <-> x ∈ l /\ x ∉ seen.
Proof.
  revert seen. induction l as [|y l IH]; intros seen; simpl; [set_solver|].
  case_bool_decide as Hy; [rewrite IH; set_solver|]. rewrite elem_of_cons, IH. destruct (decide (x = y)); set_solver.
Qed.

Lemma dedupeStrings_elem l x : x ∈ dedupeStrings l <-> x ∈ l.
Proof. unfold dedupeStrings. rewrite dedupe_elem. set_solver. Qed.

Lemma dedupe_NoDup seen l : NoDup (dedupe seen l).
Proof.
  revert seen. induction l as [|y l IH]; intros seen; simpl; [constructor|]. case_bool_decide; [done|].
  constructor; [|done]. rewrite dedupe_elem. set_solver.
Qed.

(** ** The grants of an account *)
Lemma insert_grants_app l d d' : insert_grants l d = Some d' -> d' = with_grants (grants d ++ l) d.
Proof.
  revert d. induction l as [|g l IH]; intros d; simpl.
  - intros [= <-]. rewrite app_nil_r. by destruct d.
  - intros (d1 & Hg & Hl)%bind_Some. apply IH in Hl as ->. unfold insert_grant in Hg. case_match; [done|]. injection Hg as <-.
    unfold with_grants. simpl. by rewrite <-app_assoc.
Qed.

Lemma select_delete {R} (p : R -> bool) l : select_where p (delete_where p l) = [].
Proof.
  unfold select_where, delete_where. induction l as [|x l IH]; simpl; [done|]. destruct (p x) eqn:Hp; simpl; [done|]. by rewrite Hp.
Qed.

Lemma replace_sites_run id sites now d x d' :
  replace_sites_tx id sites now d = Ok (x, d') ->
  grants d' = delete_where (grant_of id) (grants d) ++ map (fun site => mk_grant id site (sql_time now)) sites /\
  users d' = users d /\ sessions d' = sessions d /\ exists u, user_by_id id d = Some u /\ u_Role u = "developer"%string.
Proof.
  unfold replace_sites_tx. destruct (user_by_id id d) as [u|] eqn:Hu; [|done]. case_match eqn:Hr; [done|].
  case_match eqn:Hi; [|done]. intros [= <- <-]. apply insert_grants_app in Hi as ->. simpl.
  apply negb_false_iff, bool_decide_eq_true in Hr. split_and!; [done..|]. by exists u.
Qed.

Lemma granted_after id sites now l other :
  map g_SiteID (select_where (grant_of other) (delete_where (grant_of id) l ++ map (fun site => mk_grant id site now) sites)) =
  if bool_decide (other = id) then sites else map g_SiteID (select_where (grant_of other) l).
Proof.
  rewrite select_where_app, map_app. case_bool_decide as Ho.
  - subst other. rewrite select_delete. simpl. rewrite select_where_all.
    + rewrite map_map. simpl. apply map_id.
    + intros g (site & _ & <-)%elem_of_map. by apply bool_decide_eq_true.
  - assert (select_where (grant_of other) (map (fun site => mk_grant id site now) sites) = []) as ->.
    { unfold select_where. induction sites as [|site sites IH]; simpl; [done|]. unfold grant_of at 1. simpl. by rewrite bool_decide_eq_false_2. }
    rewrite app_nil_r. f_equal. unfold select_where, delete_where. induction l as [|g l IH]; simpl; [done|].
    unfold grant_of in *. destruct (bool_decide_reflect (g_UserID g = id)) as [Hg|Hg]; simpl.
    + rewrite bool_decide_eq_false_2 by congruence. done.
    + by destruct (bool_decide (g_UserID g = other)); rewrite IH.
Qed.

(** ** Reading and replacing *)
Lemma AccessibleSiteIDs_run user w :
  (run_alone (AccessibleSiteIDs user) [] w).1 =
  Some (if bool_decide (Role user = "developer"%string) then (false, grantedSiteIDs_of (ID user) (database w)) else (true, [])).
Proof. unfold AccessibleSiteIDs. by case_bool_decide. Qed.

Lemma SiteAccessible_run user site w :
  (run_alone (SiteAccessible user site) [] w).1 =
  Some (negb (bool_decide (Role user = "developer"%string)) || bool_decide (site ∈ grantedSiteIDs_of (ID user) (database w))).
Proof.
  unfold SiteAccessible. case_bool_decide; simpl; [|done]. f_equal. unfold select_exists. apply eq_true_iff_eq.
  rewrite bool_decide_eq_true, existsb_exists. unfold grantedSiteIDs_of. rewrite sort_strings_perm, elem_of_map.
  setoid_rewrite elem_of_select_where. setoid_rewrite <-list_elem_of_In. setoid_rewrite andb_true_iff.
  setoid_rewrite bool_decide_eq_true. naive_solver.
Qed.

(** Replacing the grants of a developer and reading them.  When the request answers 200
    the account is a developer, [AccessibleSiteIDs] reads back exactly the sites given, sorted
    and without duplicates, [SiteAccessible] accepts exactly those, and nothing else
    in the database has changed: no other account's grants, no account, no session. *)
Theorem identity_site_grants_roundtrip exists_ id r values person w resp w' other username role :
  run_alone (replaceUserSitesHTTP (Some exists_) id r (Some (Some values)) person) [] w = (resp, w') -> Status resp = 200 ->
  let scope account := mk_user account username "developer" in
  (exists u, user_by_id id (database w) = Some u /\ u_Role u = "developer"%string) /\
  (run_alone (AccessibleSiteIDs (scope id)) [] w').1 = Some (false, sort_strings (dedupeStrings values)) /\
  (forall site, (run_alone (SiteAccessible (scope id) site) [] w').1 = Some (bool_decide (site ∈ values))) /\
  (other <> id -> (run_alone (AccessibleSiteIDs (mk_user other username role)) [] w').1 =
     (run_alone (AccessibleSiteIDs (mk_user other username role)) [] w).1) /\
  users (database w') = users (database w) /\ sessions (database w') = sessions (database w).
Proof.
  unfold replaceUserSitesHTTP. cbv zeta. rewrite run_alone_bind.
  pose proof (quiet_run _ [] w (quiet_unknown exists_ (dedupeStrings values))) as [Hd _].
  destruct (run_alone (unknown_site _ _) [] w) as [[refusal|] w1] eqn:Hun; simpl in Hd.
  { intros [= <- _] H200. exfalso. clear Hd. revert w w1 Hun.
    induction (dedupeStrings values) as [|site sites IH]; intros w w1; [done|]. cbn [unknown_site]. rewrite run_alone_bind. simpl.
    destruct (exists_ site w) as [[]|]; [apply IH| |]; by intros [= <- _]. }
  rewrite run_now_bind, run_tx_bind, Hd. destruct (replace_sites_tx _ _ _ _) as [[x d]|e] eqn:Htx; [|by destruct e; intros [= <- _]].
  apply replace_sites_run in Htx as (Hg & Hu & Hs & Hdev).
  rewrite run_alone_bind. pose proof (quiet_run _ [] (with_database d w1) (quiet_audit (entry (Some (account person))
    "identity.user_site_grants_replaced" (user_subject id) (Remote r) (Some [("siteIds"%string, JArr (map JStr (dedupeStrings values)))])))) as [Hd2 _].
  destruct (run_alone (recordAudit _) [] (with_database d w1)) as [y w2]. simpl in Hd2. intros [= _ <-] _. clear y.
  assert (forall account, grantedSiteIDs_of account (database w2) =
    if bool_decide (account = id) then sort_strings (dedupeStrings values) else grantedSiteIDs_of account (database w)) as Hread.
  { intros a. unfold grantedSiteIDs_of. rewrite Hd2, Hg, granted_after. by case_bool_decide. }
  split_and!; [done| | | |by rewrite Hd2|by rewrite Hd2].
  - rewrite AccessibleSiteIDs_run. simpl. by rewrite Hread, bool_decide_eq_true_2.
  - intros site. rewrite SiteAccessible_run. cbn [Role ID]. rewrite Hread, (bool_decide_eq_true_2 (id = id)) by done.
    rewrite (bool_decide_eq_true_2 ("developer"%string = _)) by done. cbn [negb orb]. f_equal. apply bool_decide_ext.
    by rewrite sort_strings_perm, dedupeStrings_elem.
  - intros Hne. rewrite !AccessibleSiteIDs_run. cbn [Role ID]. by rewrite Hread, (bool_decide_eq_false_2 (other = id)) by done.
Qed.
End sites.

(** ** Properties of the role matrix *)
(** The permissions a role has, by name. *)
Definition granted (role : string) : list string :=
  concat (map (fun '(r, l) => if bool_decide (r = role) then map permission_name l else []) role_grants).

Lemma Allowed_granted role permission : Allowed role permission = true <-> permission ∈ granted role.
Proof.
  unfold Allowed, granted. induction role_grants as [|[r l] rest IH]; simpl; [split; [done|by intros ?%elem_of_nil]|].
  rewrite orb_true_iff, IH, elem_of_app. apply or_iff_compat_r. case_bool_decide; simpl; [|split; [done|by intros ?%elem_of_nil]].
  rewrite existsb_exists, list_elem_of_In, in_map_iff. setoid_rewrite bool_decide_eq_true. naive_solver.
Qed.

Definition roles : list string := ["admin"; "operator"; "developer"; "viewer"]%string.

Lemma granted_role role permission : permission ∈ granted role -> role ∈ roles.
Proof.
  unfold granted. simpl. repeat case_bool_decide; subst; intros Hin; set_solver.
Qed.

(** A property of all a role's permissions, checked one by one. *)
Lemma granted_check (p : string -> bool) role : forallb p (granted role) = true -> forall x, x ∈ granted role -> p x = true.
Proof. rewrite forallb_forall. intros H x Hx. by apply H, list_elem_of_In. Qed.

Definition administrative : list string := map permission_name [AuditRead; OperationsApply; SystemUpdate; UsersManage].

(** The role matrix.  Permissions are granted to the four roles only, and all are
    known ones, which have distinct names; an administrator has them all; operator
    contains developer and viewer; a viewer can only read; and reading the audit log,
    applying operations, updating the panel and managing users are the administrator's
    alone. *)
Theorem authorization_role_matrix :
  NoDup (map permission_name AllPermissions) /\
  (forall role permission, Allowed role permission = true ->
     role ∈ roles /\ permission ∈ map permission_name AllPermissions) /\
  (forall permission, permission ∈ map permission_name AllPermissions -> Allowed "admin" permission = true) /\
  (forall permission, Allowed "viewer" permission = true \/ Allowed "developer" permission = true -> Allowed "operator" permission = true) /\
  (forall permission, Allowed "viewer" permission = true -> has_suffix ".read" permission = true) /\
  (forall role permission, Allowed role permission = true -> permission ∈ administrative -> role = "admin"%string).
Proof.
  split_and!.
  - by apply (bool_decide_unpack _); vm_compute.
  - intros role permission H%Allowed_granted. split; [by eapply granted_role|].
    apply granted_role in H as Hr. revert permission H.
    assert (forall p, p ∈ granted role -> bool_decide (p ∈ map permission_name AllPermissions) = true) as Hall.
    { apply granted_check. unfold roles in Hr. set_unfold in Hr. by destruct_or! Hr; subst role; vm_compute. }
    intros permission H. by eapply bool_decide_eq_true_1, Hall.
  - intros permission H. apply Allowed_granted. revert permission H. apply Forall_forall.
    apply (bool_decide_unpack (Forall (fun p => p ∈ granted "admin") (map permission_name AllPermissions))). by vm_compute.
  - intros permission. rewrite !Allowed_granted. intros [H|H]; revert permission H; apply Forall_forall.
    + apply (bool_decide_unpack (Forall (fun p => p ∈ granted "operator") (granted "viewer"))). by vm_compute.
    + apply (bool_decide_unpack (Forall (fun p => p ∈ granted "operator") (granted "developer"))). by vm_compute.
  - intros permission. rewrite Allowed_granted. revert permission. apply granted_check. by vm_compute.
  - intros role permission H%Allowed_granted Ha. apply granted_role in H as Hr. destruct (decide (role = "admin"%string)); [done|]. exfalso.
    assert (forall p, p ∈ granted role -> bool_decide (p ∉ administrative) = true) as Hall.
    { apply granted_check. unfold roles in Hr. set_unfold in Hr. by destruct_or! Hr; subst role; vm_compute. }
    specialize (Hall permission H). by apply bool_decide_eq_true_1 in Hall.
Qed.
