(* ===== verification/IdentitySamples.v ===== *)
(** * Concrete accounts and requests

    An instance of the parameters and worlds in which the theorems on the identity
    module apply, and three races the module allows. *)

From Stdlib Require Import Ascii.
From S2P Require Import Prelude GoStrings Json Sql AuditLog Limiter Codec Passwords.
From S2P Require Import Programs Identity IdentityHandlers IdentityUsers IdentityLaws IdentitySteps IdentityRequests IdentitySites.
From S2P Require Import IdentityProps IdentitySessions IdentityFactor IdentitySites.

Local Open Scope Z_scope.

(** ** An instance of the parameters *)
Fixpoint padding (n : nat) : string := match n with O => EmptyString | S m => String zero (padding m) end.
Definition exactly (n : nat) (s : string) : string := take_bytes n (s +:+ padding n).
Definition one_char (p : ascii -> bool) (s : string) : bool := match s with String c EmptyString => p c | _ => false end.

Definition sample_crypto : crypto := {|
  c_sha256 := fun s => "h" +:+ s;
  c_hmac_sha1 := fun key message => drop_bytes 4 message +:+ padding 16;
  c_argon2_IDKey := fun password salt t m p l => exactly (Z.to_nat l) password;
  c_argon2_Version := 19;
  c_Encrypt := fun nonce label s => Some (label +:+ s);
  c_Decrypt := strip_prefix;
  c_random := fun n bytes => String.string_of_list_ascii (replicate bytes (ascii_of_nat n));
  c_url_Host := strip_prefix "https://";
  c_EqualFold := fun a b => bool_decide (a = b);
  c_IsLower := one_char is_lower;
  c_IsUpper := one_char is_upper;
  c_IsDigit := one_char is_digit;
  c_commonPasswordList := EmptyString;
  c_unmarshal_strings := fun s => Some (plain_items s None);
  c_order := fun m => (map_to_list m).*1;
|}.
Definition sample_config : Config := mk_config (24 * hour) (2 * hour) 64 1 1 5 (5 * minute) 10 (15 * minute).
Local Abbreviation C := sample_crypto.
Local Abbreviation config := sample_config.

Definition sample_time (t : Z) : string := itoa t.

(** ** Accounts *)
Definition password : string := "Str0ng-Console-Pass".
Definition hash_of (p : string) : string :=
  hashPassword (c_argon2_IDKey C) (c_argon2_Version C) "0123456789abcdef" p (parameters_of config).
Definition raw_secret : string := "0123456789ABCDEFGHIJ".
Definition sealed (id : string) : string := totpSecretLabelPrefix +:+ id +:+ generateTOTPSecret raw_secret.

Definition root : userModel := mk_user_model "u1" "Root" (hash_of password) 0 None "admin" None None 0 "[]".
Definition dev : userModel := mk_user_model "u2" "dev" (hash_of password) 0 None "developer" None None 0 "[]".
Definition root_enrolled : userModel := set_factor (Some (sealed "u1")) (Some 0) 0 "[]" root.

(** A session whose cookie is [token] and whose CSRF token is [csrf]. *)
Definition token (c : ascii) : string := String.string_of_list_ascii (replicate 64 c).
Definition session (id user : string) (c : ascii) (verified : option Z) : sessionModel :=
  mk_session id user ("h" +:+ token c) 0 (24 * hour) 0 "10.0.0.1" "browser" verified ("h" +:+ "csrf").

Definition sample_world (d : db) : world :=
  mk_world d (newAttemptLimiter 5 (5 * minute)) (newAttemptLimiter 10 (15 * minute)) EmptyString None minute 10 [].

(** A request of the panel that presents the session [c]. *)
Definition from_panel (c : ascii) : request :=
  mk_request "POST" "/api/v1/x" "panel" "https://panel" EmptyString EmptyString "csrf" EmptyString EmptyString
    (Some (token c)) true "10.0.0.1" "browser" false true.
Definition anonymous : request :=
  mk_request "POST" "/api/v1/auth/login" "panel" "https://panel" EmptyString EmptyString EmptyString EmptyString EmptyString
    None false "10.0.0.1" "browser" false true.

(** [db_ok] as a check. *)
Definition db_check (d : db) : bool :=
  bool_decide (NoDup (map u_ID (users d))) && bool_decide (NoDup (map (fun u => nocase (Username u)) (users d))) &&
  forallb (fun u => validManagedRole (u_Role u)) (users d) && existsb is_admin (users d) &&
  bool_decide (NoDup (map s_ID (sessions d))) && bool_decide (NoDup (map TokenHash (sessions d))) &&
  forallb (fun s => bool_decide (s_UserID s ∈ map u_ID (users d))) (sessions d) &&
  bool_decide (NoDup (map grant_key (grants d))) && forallb (fun g => bool_decide (g_UserID g ∈ map u_ID (users d))) (grants d).

Lemma forallb_elem {A} (f : A -> string) (ids : list string) l :
  forallb (fun x => bool_decide (f x ∈ ids)) l = true -> Forall (fun x => f x ∈ ids) l.
Proof. rewrite forallb_Forall, !Forall_forall. intros H x Hx. by eapply bool_decide_eq_true_1, H. Qed.

Lemma db_check_ok d : db_check d = true -> db_ok d.
Proof.
  unfold db_check. rewrite !andb_true_iff, !bool_decide_eq_true. intros ((((((((H1 & H2) & H3) & H4) & H5) & H6) & H7) & H8) & H9).
  split; [done|done|by apply forallb_Forall| |done|done|by apply forallb_elem|done|by apply forallb_elem].
  intros _. apply rows_affected_pos. apply existsb_exists in H4 as (u & Hu & Ha). exists u. by rewrite list_elem_of_In.
Qed.

(** ** Playing requests one after the other *)
Fixpoint drive {A} (n : nat) (p : prog world A) (h : list world) : list world :=
  match n, h with
  | S m, w :: _ => let '(p', w') := next p false w in drive m p' (w' :: h)
  | _, _ => h
  end.

(** A request served in [n] operations, or the clock set. *)
Inductive event := Serve (n : nat) (op : operation) (r : request) | Clock (t : Z).
Local Abbreviation route := (Register C config sample_time None EmptyString).
Definition again (h : list world) : list world := match h with w :: _ => w :: h | [] => [] end.
Definition play_one (h : list world) (e : event) : list world :=
  match e with
  | Serve n op r => again (drive n (route op r) (again h))
  | Clock t => match h with w :: _ => with_clock t w :: h | [] => [] end
  end.
Definition play (events : list event) (w : world) : list world := foldl play_one [w] events.

Local Abbreviation moves := (trace_step (serves C config sample_time sample_time None EmptyString) (environment config)).

Lemma drive_moves n p w h : exists p', rtc moves ([p], w :: h) ([p'], drive n p (w :: h)).
Proof.
  revert p w h. induction n as [|n IH]; intros p w h; [by exists p|]. simpl.
  destruct (next p false w) as [p1 w1] eqn:Hn. destruct (IH p1 w1 (w :: h)) as [p' Hp]. exists p'.
  eapply rtc_l; [|exact Hp]. exists w, h, w1. split_and!; [done|done|]. simpl.
  replace ([p1], w1) with (<[0%nat := (next p false w).1]> [p], (next p false w).2) by (by rewrite Hn). by apply step_next.
Qed.

Lemma drive_cons {A} n (p : prog world A) w h : exists w' h', drive n p (w :: h) = w' :: h'.
Proof. revert p w h. induction n as [|n IH]; intros p w h; simpl; [by eexists _, _|]. destruct (next p false w). apply IH. Qed.

Lemma play_one_moves e w h : exists w' h', play_one (w :: h) e = w' :: h' /\ rtc moves ([], w :: h) ([], w' :: h').
Proof.
  destruct e as [n op r|t]; simpl.
  - destruct (drive_cons n (route op r) w (w :: h)) as (w' & h' & Hd). rewrite Hd. exists w', (w' :: h'). split; [done|].
    destruct (drive_moves n (route op r) w (w :: h)) as [p' Hp]. rewrite Hd in Hp.
    eapply rtc_l; [|eapply rtc_r; [exact Hp|]].
    + exists w, h, w. split_and!; [done|done|]. apply (step_start _ _ (route op r) []). apply serves_route.
    + exists w', h', w'. split_and!; [done|done|]. apply (step_drop _ _ 0 [p']).
  - eexists _, _. split; [done|]. apply rtc_once. exists w, h, (with_clock t w). split_and!; [done|done|].
    apply step_environment, time_passes.
Qed.

Lemma play_moves events w : execution C config sample_time sample_time None EmptyString w (play events w).
Proof.
  exists []. unfold play.
  assert (forall w h, rtc moves ([], w :: h) ([], foldl play_one (w :: h) events)) as H; [|by apply H].
  induction events as [|e events IH]; intros w0 h0; simpl; [done|].
  destruct (play_one_moves e w0 h0) as (w' & h' & -> & Hm). etrans; [exact Hm|apply IH].
Qed.

(** ** Two sign-ins with a second factor *)
Module Challenges.
Definition tables : db :=
  mk_db [root_enrolled; dev] [session "s1" "u1" "a"%char None; session "s2" "u1" "b"%char None] [].
Definition start : world := sample_world tables.
Definition code (step : Z) : string := generateTOTP (c_hmac_sha1 C) raw_secret step totpDigits.
(** Both browsers answer the challenge, in the second and in the third period. *)
Definition story : list event :=
  [Serve 14 (verifyMFA (Some (mk_code (code 2) EmptyString))) (from_panel "a"%char); Clock (100 * second);
   Serve 14 (verifyMFA (Some (mk_code (code 3) EmptyString))) (from_panel "b"%char)].
Definition history : list world := play story start.
Definition at_ (i : nat) : world := default start (history !! i).
Definition row (i : nat) : userModel := default root (head (users (database (at_ i)))).

Lemma tables_fine : db_ok (database start).
Proof. apply db_check_ok. vm_compute. reflexivity. Qed.

Definition enrolled_check (U : string) (w : world) : bool :=
  existsb (fun u => bool_decide (u_ID u = U) && bool_decide (TOTPConfirmedAt u <> None)) (users (database w)).
Lemma enrolled_checks U l :
  forallb (enrolled_check U) l = true -> Forall (fun w => exists u, enrolled U w u) l.
Proof.
  rewrite forallb_Forall, !Forall_forall. intros H w Hw. specialize (H w Hw). apply existsb_exists in H as (u & Hu & Hp).
  rewrite andb_true_iff, !bool_decide_eq_true in Hp. exists u. split; [by apply list_elem_of_In|done].
Qed.

Lemma row_enrolled w u l :
  users (database w) = u :: l -> u_ID u = "u1"%string -> TOTPConfirmedAt u <> None -> enrolled "u1" w u.
Proof. intros Hl Hid Hc. split; [rewrite Hl; by apply elem_of_cons; left|done]. Qed.

Local Ltac shown := vm_compute; reflexivity.

Lemma identity_tables_invariant_witness :
  length history = 34%nat /\ exists u, u ∈ users (database (at_ 0)) /\ u_Role u = "admin"%string.
Proof.
  split; [shown|]. assert (at_ 0 ∈ history) as Hin.
  { apply (list_elem_of_lookup_2 history 0). shown. }
  pose proof (identity_tables_invariant C config sample_time sample_time None EmptyString start history (at_ 0)
    tables_fine (play_moves story start) Hin) as [_ H].
  apply H. intros Hnil. discriminate Hnil.
Defined.

Lemma identity_mfa_answered_witness :
  exists U, owned_before (at_ 23 :: drop 24 history) "s1" U /\ answered C (database (at_ 23)) (database (at_ 22)) U.
Proof.
  pose proof (identity_mfa_answered C config sample_time sample_time None EmptyString start history (take 22 history)
    (at_ 22) (at_ 23) (drop 24 history) (default (session "s1" "u1" "a"%char None) (head (sessions (database (at_ 22)))))
    tables_fine (play_moves story start)) as H.
  destruct H as [(s & Hs & Hsame & Hv)|H].
  - shown.
  - apply (list_elem_of_lookup_2 _ 0%nat). shown.
  - vm_compute. discriminate.
  - exfalso. assert (forallb (fun s => bool_decide (MFAVerifiedAt s = None)) (sessions (database (at_ 23))) = true) as Hn by shown.
    rewrite forallb_forall in Hn. apply list_elem_of_In in Hs. specialize (Hn s Hs). apply bool_decide_eq_true in Hn.
    rewrite Hn in Hv. vm_compute in Hv. discriminate Hv.
  - exact H.
Defined.

(** The principal of a session of the account. *)
Definition browser (id : string) : principal := mk_principal (to_user root_enrolled) id EmptyString EmptyString None None.

Lemma identity_code_single_use_witness :
  2 < 3 /\ forall now, validateTOTP (c_hmac_sha1 C) (generateTOTPSecret raw_secret) (code 2) now (TOTPLastStep (row 6)) <> Some 2.
Proof.
  pose proof (identity_code_single_use C config sample_time sample_time None EmptyString "u1" start history (take 5 history)
    (at_ 5) (at_ 6) (take 16 (drop 6 history)) (at_ 22) (at_ 23) (drop 24 history) 2 3
    tables_fine (play_moves story start)) as H.
  destruct H as [H1 H2].
  - shown.
  - shown.
  - apply enrolled_checks. shown.
  - exists (browser "s1"), (clock (at_ 23)). split; [shown|left; shown].
  - exists (browser "s2"), (clock (at_ 6)). split; [shown|left; shown].
  - split; [exact H1|]. intros now. apply H2. eapply row_enrolled; [shown|shown|vm_compute; discriminate].
Defined.
End Challenges.

(** ** Requests one at a time *)
Module Requests.
Local Ltac shown := vm_compute; reflexivity.

(** Nobody has a second factor. *)
Definition tables : db :=
  mk_db [root; dev] [session "s1" "u1" "a"%char None; session "s2" "u2" "b"%char None] [mk_grant "u2" "old" 0].
Definition start : world := sample_world tables.
Lemma tables_hold : db_ok (database start).
Proof. apply db_check_ok. vm_compute. reflexivity. Qed.

(** *** The gate *)
Definition deletes (person : principal) : prog world response := mret (ok_response 204 JNull).
Lemma identity_gate_sound_witness :
  Status (run_alone (HandleAuthorized C config "users.manage" deletes (from_panel "a"%char)) [] start).1 = 204 /\
  ensures tables_ok (guarantee C) [start] (HandleAuthorized C config "users.manage" deletes (from_panel "a"%char))
    (fun resp h => Status resp = 204 -> exists person, admitted C config "users.manage" (from_panel "a"%char) person h).
Proof.
  split; [shown|]. apply (identity_gate_sound C config "users.manage" deletes (from_panel "a"%char) [start]).
  - intros person h Ha _. by exists person.
  - intros refusal h [-> | ->]; discriminate.
Defined.

(** *** Signing in *)
Definition sign_in : response * world :=
  run_alone (loginHTTP C config anonymous (Some (mk_credentials " root" password))) [] start.
Definition cookie_value (i : nat) : string := default EmptyString (k_Value <$> Cookies sign_in.1 !! i).
Definition signed_in : request :=
  mk_request "POST" "/api/v1/x" "panel" "https://panel" EmptyString EmptyString (cookie_value 1) EmptyString EmptyString
    (Some (cookie_value 0)) true "10.0.0.1" "browser" false true.

Lemma random_length n k : String.length (c_random C n k) = k.
Proof. simpl. induction k as [|k IH]; simpl; [done|]. by rewrite IH. Qed.
Lemma sha256_some s : c_sha256 C s <> EmptyString.
Proof. discriminate. Qed.

Lemma identity_login_roundtrip_witness :
  Status sign_in.1 = 200 /\ exists u person w2, p_User person = to_user u /\
    run_alone (HandleAuthenticated C config deletes signed_in) [] (with_clock hour sign_in.2) = run_alone (deletes person) [] w2.
Proof.
  assert (Status sign_in.1 = 200) as H200 by shown. split; [exact H200|].
  pose proof (identity_login_roundtrip C config (fun n => random_length n 32) sha256_some anonymous (mk_credentials " root" password)
    start sign_in.1 sign_in.2 signed_in hour deletes tables_hold) as H.
  destruct H as (u & Hu & _ & Hcase).
  - exact (surjective_pairing sign_in).
  - exact H200.
  - exists (default (mk_cookie EmptyString EmptyString false false 0 0) (Cookies sign_in.1 !! 0%nat)),
      (default (mk_cookie EmptyString EmptyString false false 0 0) (Cookies sign_in.1 !! 1%nat)). split; [shown|]. split; [shown|]. split; shown.
  - vm_compute. discriminate.
  - vm_compute. discriminate.
  - vm_compute. discriminate.
  - assert (user_named (trim_space " root") (database start) = Some root) as Hroot by shown.
    change (i_Username (mk_credentials " root" password)) with " root"%string in Hu. rewrite Hroot in Hu. injection Hu as <-.
    change (TOTPConfirmedAt root) with (@None Z) in Hcase. destruct Hcase as (person & w2 & Hp & Hrun).
    exists root, person, w2. split; [exact Hp|exact Hrun].
Defined.

(** *** Revocation *)
Definition reset_run : (BreakGlassReset * option reset_error) * world :=
  run_alone (ResetSecondFactor sample_time true "ROOT" minute) [] start.
Lemma identity_revocation_witness :
  length (sessions (database reset_run.2)) = 1%nat /\
  (run_alone (authenticate C config (from_panel "a"%char)) [] reset_run.2).1 = None.
Proof.
  split; [shown|].
  apply (identity_revocation C config sample_time sample_time start reset_run.2 (session "s1" "u1" "a"%char None) (from_panel "a"%char) (token "a"%char)).
  - exact tables_hold.
  - apply (list_elem_of_lookup_2 _ 0%nat). shown.
  - apply (by_break_glass _ _ _ _ _ _ _ true "ROOT" minute reset_run.1.1); shown.
  - shown.
  - shown.
Defined.

(** *** Codes *)
Lemma identity_totp_window_witness :
  is_Some (validateTOTP (c_hmac_sha1 C) (generateTOTPSecret raw_secret) "000002" minute 1).
Proof.
  apply (identity_totp_window C raw_secret "000002" minute 1); [discriminate|]. exists 2. vm_compute. repeat split; discriminate.
Defined.

Definition draws : list string := ["abcdefgh"; "ijklmnop"; "qrstuvwx"]%string.
Definition codes : list string := (generateRecoveryCodes (c_sha256 C) draws).1.
Definition hashes : list string := (generateRecoveryCodes (c_sha256 C) draws).2.
Definition enrolled_root : userModel := set_factor (Some (sealed "u1")) (Some 0) 0 (marshal_strings hashes) root.
Definition recovering : db := mk_db [enrolled_root; dev] [session "s1" "u1" "a"%char None] [].
Definition owner : principal := principal_of (session "s1" "u1" "a"%char None) enrolled_root.

Lemma identity_recovery_codes_witness :
  codes !! 1%nat = Some "696A-6B6C-6D6E-6F70"%string /\
  exists d', recovery_tx C owner (hashRecoveryCode (c_sha256 C) "696A-6B6C-6D6E-6F70") minute recovering = Ok (tt, d') /\
    recovery_tx C owner (hashRecoveryCode (c_sha256 C) "696A-6B6C-6D6E-6F70") hour d' = Err errTxRejected.
Proof.
  assert (codes !! 1%nat = Some "696A-6B6C-6D6E-6F70"%string) as Hcode by shown. split; [exact Hcode|].
  pose proof (identity_recovery_codes C (fun l Hl => f_equal Some (plain_items_marshal l Hl)) draws codes hashes 1
    "696A-6B6C-6D6E-6F70" owner enrolled_root minute hour recovering) as H.
  destruct H as (d' & H1 & H2 & _).
  - shown.
  - apply (bool_decide_unpack _). shown.
  - exact Hcode.
  - apply db_check_ok. shown.
  - shown.
  - reflexivity.
  - exists d'. split; [exact H1|exact H2].
Defined.

(** *** Grants *)
Definition granting : response * world :=
  run_alone (replaceUserSitesHTTP (Some (fun _ _ => Some true)) "u2" (from_panel "a"%char) (Some (Some ["b"; "a"; "b"]%string)) owner) [] start.
Lemma identity_site_grants_roundtrip_witness :
  Status granting.1 = 200 /\
  (run_alone (AccessibleSiteIDs (mk_user "u2" "dev" "developer")) [] granting.2).1 = Some (false, sort_strings (dedupeStrings ["b"; "a"; "b"]%string)).
Proof.
  assert (Status granting.1 = 200) as H200 by shown. split; [exact H200|].
  pose proof (identity_site_grants_roundtrip (fun _ _ => Some true) "u2" (from_panel "a"%char) ["b"; "a"; "b"]%string owner
    start granting.1 granting.2 "u1" "dev" "viewer") as H.
  destruct H as (_ & H & _); [exact (surjective_pairing granting)|exact H200|]. exact H.
Defined.

(** *** Stored passwords *)
Lemma password_hash_roundtrip_witness :
  verifyPassword (c_argon2_IDKey C) 19 password (hashPassword (c_argon2_IDKey C) 19 "0123456789abcdef" password (parameters_of config)) = Ok true.
Proof.
  assert (forall n, String.length (padding n) = n) as Hpad by (induction n as [|n IH]; simpl; [done|by rewrite IH]).
  assert (forall n s, (n <= String.length s)%nat -> String.length (take_bytes n s) = n) as Htake.
  { induction n as [|n IH]; intros [|c s] Hn; simpl in *; [done|done|lia|]. rewrite IH; [done|lia]. }
  rewrite (password_hash_roundtrip (c_argon2_IDKey C) 19).
  - shown.
  - vm_compute. split; discriminate.
  - intros p salt t m k l Hl. unfold len. simpl. unfold exactly. rewrite Htake; [lia|]. rewrite str_length_app, Hpad. lia.
  - split; vm_compute; repeat split; discriminate.
Defined.
End Requests.

(** ** Requests that race *)
Module Races.
Local Ltac shown := vm_compute; reflexivity.

(** The first operations of a program, and what is left of it. *)
Fixpoint advance {A} (n : nat) (p : prog world A) (w : world) : prog world A * world :=
  match n with O => (p, w) | S m => let '(p', w') := next p false w in advance m p' w' end.

Definition root_of (s : sessionModel) (u : userModel) : principal := principal_of s u.
Definition s1 : sessionModel := session "s1" "u1" "a"%char None.
Definition s2 : sessionModel := session "s2" "u1" "b"%char None.
Definition admits (c : ascii) (w : world) : bool :=
  bool_decide (Status (run_alone (HandleAuthenticated C config Requests.deletes (from_panel c)) [] w).1 = 204).

(** *** A sign-in overtaken by a password change *)
Definition before : world := sample_world (mk_db [root] [s1] []).
Definition slow : prog world response * world :=
  advance 5 (loginHTTP C config anonymous (Some (mk_credentials "root" password))) before.
Definition changed : response * world :=
  run_alone (changePasswordHTTP C config (from_panel "a"%char) (Some (mk_change password "An0ther-Console-Pass"))
    (root_of s1 root)) [] slow.2.
Definition finished : response * world := run_alone slow.1 [] changed.2.

(** A sign-in that read the stored hash before the password was changed, and compares it
    afterwards, opens a session on the old password, which the change does not end. *)
Theorem stale_login_outlives_password_change :
  Status changed.1 = 204 /\ Status finished.1 = 200 /\
  (exists u, user_by_id "u1" (database finished.2) = Some u /\ password_valid C password (PasswordHash u) = false) /\
  map s_UserID (sessions (database changed.2)) = ["u1"%string] /\
  map s_UserID (sessions (database finished.2)) = ["u1"%string; "u1"%string].
Proof.
  split; [shown|]. split; [shown|]. split; [|split; shown].
  exists (default root (user_by_id "u1" (database finished.2))). split; shown.
Qed.

(** *** An enrollment overtaken by another *)
Definition two : world := sample_world (mk_db [root] [s1; s2] []).
Definition slow_enroll : prog world response * world := advance 1 (mfaEnroll C (root_of s2 root)) two.
Definition enrolls : response * world := run_alone (mfaEnroll C (root_of s1 root)) [] slow_enroll.2.
Definition confirms : response * world :=
  run_alone (mfaConfirm C (from_panel "a"%char) (Some (mk_code "000002" EmptyString)) (root_of s1 root)) [] enrolls.2.
Definition overwrites : response * world := run_alone slow_enroll.1 [] confirms.2.
Definition stored (w : world) : option (option string * option Z) :=
  (fun u => (TOTPSecretEncrypted u, TOTPConfirmedAt u)) <$> user_by_id "u1" (database w).

(** [mfaEnroll] stores its secret without looking again whether a factor was confirmed
    meanwhile: the confirmed secret is replaced, and the factor stays confirmed. *)
Theorem enrollment_replaces_confirmed_secret :
  Status confirms.1 = 200 /\ Status overwrites.1 = 200 /\
  exists old new at_, stored confirms.2 = Some (Some old, Some at_) /\ stored overwrites.2 = Some (Some new, Some at_) /\ old <> new.
Proof.
  split; [shown|]. split; [shown|].
  exists (default EmptyString (stored confirms.2 ≫= fst)), (default EmptyString (stored overwrites.2 ≫= fst)), minute.
  split; [shown|]. split; [shown|]. vm_compute. discriminate.
Qed.

(** *** A session verified under a factor that is gone *)
Definition verified (s : sessionModel) : sessionModel := set_verified (Some minute) s.
Definition enrolled_world : world := sample_world (mk_db [root_enrolled] [verified s1; verified s2] []).
Definition disables : response * world :=
  run_alone (mfaDisableHTTP C (from_panel "a"%char) (Some password) (root_of (verified s1) root_enrolled)) [] enrolled_world.
Definition enrolls_again : response * world := run_alone (mfaEnroll C (root_of (verified s1) root)) [] disables.2.
Definition confirms_again : response * world :=
  run_alone (mfaConfirm C (from_panel "a"%char) (Some (mk_code "000002" EmptyString)) (root_of (verified s1) root)) [] enrolls_again.2.

(** Removing the factor keeps the mark of every session that answered it: after a new
    one is confirmed, the other browser is admitted without having answered it. *)
Theorem disabled_factor_leaves_sessions_verified :
  Status disables.1 = 200 /\ Status confirms_again.1 = 200 /\
  (exists u, user_by_id "u1" (database confirms_again.2) = Some u /\ TOTPConfirmedAt u <> None) /\
  admits "b"%char confirms_again.2 = true.
Proof.
  split; [shown|]. split; [shown|]. split; [|shown].
  exists (default root (user_by_id "u1" (database confirms_again.2))). split; [shown|]. vm_compute. discriminate.
Qed.
End Races.
