(* ===== verification/Paths.v ===== *)
(** * Absolute paths

    Clean absolute paths as lists of components, and how [filepath.Clean] and
    [filepath.Join] act on them. *)

From Stdlib Require Import Ascii.
From S2P Require Import Prelude GoStrings.

Local Open Scope Z_scope.

#[local] Arguments Ascii.eqb : simpl never.

(** The absolute path with the given components. *)
Definition abs (l : list string) : string := String slash (join "/" l).

Lemma split_app_any c a b : split c (a +:+ String c b) = split c a ++ split c b.
Proof.
  induction a as [|d a IH]; simpl; [by rewrite Ascii.eqb_refl|]. destruct (Ascii.eqb c d); [by rewrite IH|].
  rewrite IH. destruct (split c a) as [|h r] eqn:Hs; [|done]. exfalso. revert Hs. clear.
  destruct a as [|d a]; simpl; [done|]. destruct (Ascii.eqb c d); [done|]. by destruct (split c a).
Qed.

Lemma split_cases c s : split c s = [s] \/ exists a b, s = a +:+ String c b /\ split c s = a :: split c b.
Proof.
  destruct (cut c s) as [[a b]|] eqn:Hc.
  - right. apply cut_Some in Hc as [-> Ha]. exists a, b. by rewrite split_app.
  - left. by apply split_one, cut_None.
Qed.

(** Components that are plain or empty are kept or skipped. *)
Definition plain_or_empty (c : string) : Prop := c = EmptyString \/ plain c.
Lemma clean_components_plain rooted comps : forall stack, Forall plain_or_empty comps ->
  clean_components rooted stack comps = rev stack ++ filter (fun c => c <> EmptyString) comps.
Proof.
  induction comps as [|c comps IH]; intros stack H; cbn [clean_components]; [by rewrite app_nil_r|].
  apply Forall_cons in H as [Hc H]. rewrite filter_cons. destruct Hc as [->|(Hne & Hd & Hu & _)].
  - rewrite IH by done. by rewrite decide_False by auto.
  - rewrite !bool_decide_eq_false_2 by done. simpl. rewrite IH, decide_True by done. simpl. by rewrite <-(assoc_L (++)).
Qed.

Lemma plain_components l : Forall plain l -> Forall plain_or_empty l.
Proof. intros H. eapply Forall_impl; [exact H|]. by right. Qed.

Lemma filter_plain l : Forall plain l -> filter (fun c => c <> EmptyString) l = l.
Proof. induction 1 as [|c l (Hc & _) _ IH]; [done|]. by rewrite filter_cons, decide_True, IH. Qed.

Lemma split_join_plain l : Forall plain l ->
  Forall plain_or_empty (split slash (join "/" l)) /\ filter (fun c => c <> EmptyString) (split slash (join "/" l)) = l.
Proof.
  intros Hl. destruct (decide (l = [])) as [->|Hne]; [by repeat constructor; left|].
  rewrite plain_join_contained by done. split; [by apply plain_components|by apply filter_plain].
Qed.

Lemma has_prefix_slash s : has_prefix "/" (String slash s) = true.
Proof. apply has_prefix_spec. by exists s. Qed.

(** The rooted case of [filepath.Clean]. *)
Lemma path_clean_rooted s : path_clean (String slash s) = abs (clean_components true [] (split slash s)).
Proof. unfold path_clean. rewrite has_prefix_slash. reflexivity. Qed.

(** [filepath.Clean] of components, some of them empty. *)
Lemma clean_plain s : Forall plain_or_empty (split slash s) ->
  path_clean (String slash s) = abs (filter (fun c => c <> EmptyString) (split slash s)).
Proof.
  intros H. rewrite path_clean_rooted. by rewrite clean_components_plain.
Qed.

Lemma clean_abs l : Forall plain l -> path_clean (abs l) = abs l.
Proof. intros Hl. destruct (split_join_plain l Hl) as [H1 H2]. unfold abs at 1. by rewrite clean_plain, H2. Qed.

Lemma filepath_join_cons x l : x <> EmptyString -> filepath_join (x :: l) = path_clean (join "/" (x :: l)).
Proof. by destruct x. Qed.

(** Appending plain components below an absolute path. *)
Lemma join_abs l q : Forall plain l -> Forall plain q -> filepath_join (abs l :: q) = abs (l ++ q).
Proof.
  intros Hl Hq. destruct (split_join_plain l Hl) as [H1 H2].
  rewrite filepath_join_cons by done. destruct q as [|a q].
  - rewrite app_nil_r. by apply clean_abs.
  - change (join "/" (abs l :: a :: q)) with
      (String slash (join "/" l +:+ String slash (join "/" (a :: q)))).
    rewrite clean_plain; rewrite split_app_any, (plain_join_contained (a :: q)) by done.
    + by rewrite filter_app, H2, filter_plain.
    + apply Forall_app. split; [done|by apply plain_components].
Qed.

(** Appending a relative path made of plain components. *)
Lemma join_abs_relative l q :
  Forall plain l -> Forall plain q -> q <> [] -> filepath_join [abs l; join "/" q] = abs (l ++ q).
Proof.
  intros Hl Hq Hne. destruct (split_join_plain l Hl) as [H1 H2]. rewrite filepath_join_cons by done.
  change (join "/" [abs l; join "/" q]) with
    (String slash (join "/" l +:+ String slash (join "/" q))).
  rewrite clean_plain; rewrite split_app_any, (plain_join_contained q) by done.
  - by rewrite filter_app, H2, filter_plain.
  - apply Forall_app. split; [done|by apply plain_components].
Qed.

(** A cleaned absolute path has plain components. *)
Lemma clean_components_rooted comps : forall stack,
  Forall (fun x => any_byte (Ascii.eqb slash) x = false) comps -> Forall plain stack ->
  Forall plain (clean_components true stack comps).
Proof.
  induction comps as [|c comps IH]; intros stack Hc Hs; cbn [clean_components]; [by apply Forall_rev|].
  apply Forall_cons in Hc as [Hcc Hc].
  destruct (bool_decide (c = EmptyString) || bool_decide (c = "."%string)) eqn:Hskip; [by apply IH|].
  apply orb_false_iff in Hskip as [?%bool_decide_eq_false ?%bool_decide_eq_false].
  destruct (bool_decide (c = ".."%string)) eqn:Hup.
  - destruct Hs as [|top below (? & ? & ? & ?) Hb]; [by apply IH|].
    rewrite bool_decide_eq_false_2 by done. by apply IH.
  - apply bool_decide_eq_false in Hup. apply IH; [done|]. by constructor.
Qed.

Lemma clean_is_abs s : has_prefix "/" s = true -> exists l, Forall plain l /\ path_clean s = abs l.
Proof.
  intros (t & ->)%has_prefix_spec. eexists. split; [|apply path_clean_rooted].
  apply clean_components_rooted; [apply split_no_slash|constructor].
Qed.

Lemma abs_inj l m : Forall plain l -> Forall plain m -> abs l = abs m -> l = m.
Proof.
  intros Hl Hm [= H]. rewrite <-(proj2 (split_join_plain l Hl)), <-(proj2 (split_join_plain m Hm)). by rewrite H.
Qed.

(** [filepath.Join] below an absolute directory that need not be clean. *)
Lemma join_below x q :
  has_prefix "/" x = true -> Forall plain q ->
  exists l, Forall plain l /\ path_clean x = abs l /\ filepath_join (x :: q) = abs (l ++ q).
Proof.
  intros Hx Hq. apply has_prefix_spec in Hx as (t & ->). exists (clean_components true [] (split slash t)).
  assert (Hc : forall comps stack more, Forall plain more ->
    clean_components true stack (comps ++ more) = clean_components true stack comps ++ more).
  { intros comps. induction comps as [|c comps IH]; intros stack more Hm; simpl.
    - rewrite clean_components_plain by (by apply plain_components). by rewrite filter_plain.
    - repeat case_match; auto. }
  split_and!.
  - apply clean_components_rooted; [apply split_no_slash|constructor].
  - apply path_clean_rooted.
  - change ("/" +:+ t) with (String slash t). rewrite filepath_join_cons by done. destruct q as [|a q].
    + rewrite app_nil_r. apply path_clean_rooted.
    + change (join "/" (String slash t :: a :: q)) with (String slash (t +:+ String slash (join "/" (a :: q)))).
      by rewrite path_clean_rooted, split_app_any, plain_join_contained, Hc.
Qed.

(** Cleaning a relative path gives a relative path. *)
Lemma path_clean_relative s : has_prefix "/" s = false -> has_prefix "/" (path_clean s) = false.
Proof.
  intros Hs. unfold path_clean. rewrite Hs.
  destruct (clean_components_shape false [] (split slash s) [] []) as (ups & downs & -> & Hu & Hd);
    [apply split_no_slash|done..|constructor|].
  assert (Hall : Forall (fun c => c <> EmptyString /\ any_byte (Ascii.eqb slash) c = false) (ups ++ downs)).
  { apply Forall_app. split; [eapply Forall_impl; [exact Hu|]; by intros c <-|].
    eapply Forall_impl; [exact Hd|]. by intros c (? & _ & _ & ?). }
  case_bool_decide; [done|]. destruct Hall as [|c l [Hc Hn] _]; [done|]. destruct c as [|d c]; [done|].
  simpl in Hn. apply orb_false_iff in Hn as [Hn _]. destruct (has_prefix "/" (join "/" (String d c :: l))) eqn:Hp; [|done].
  apply has_prefix_spec in Hp as (t & Ht). exfalso. change (join "/" (String d c :: l)) with
    (match l with [] => String d c | _ => String d (c +:+ "/" +:+ join "/" l) end) in Ht.
  destruct l; injection Ht as -> _; by rewrite Ascii.eqb_refl in Hn.
Qed.

Lemma clean_abs_inv s l : path_clean s = abs l -> has_prefix "/" s = true.
Proof.
  intros H. destruct (has_prefix "/" s) eqn:Hs; [done|]. apply path_clean_relative in Hs. rewrite H in Hs.
  unfold abs in Hs. by rewrite has_prefix_slash in Hs.
Qed.

(** [filepath.Join] below a directory, whatever the form of its path. *)
Lemma join_clean s l q :
  path_clean s = abs l -> Forall plain l -> Forall plain q -> filepath_join (s :: q) = abs (l ++ q).
Proof.
  intros Hs Hl Hq. destruct (join_below s q (clean_abs_inv s l Hs) Hq) as (l' & Hl' & Hs' & ->).
  rewrite Hs in Hs'. by apply abs_inj in Hs' as ->.
Qed.

Lemma abs_nonempty s l : path_clean s = abs l -> s <> EmptyString.
Proof. intros H%clean_abs_inv ->. done. Qed.

(** A directory below [s] chosen by a setting: [s] itself when the setting is empty. *)
Definition below (s value : string) : string :=
  if String.eqb value EmptyString then s else filepath_join [s; value].

Lemma below_clean s l q value :
  path_clean s = abs l -> Forall plain l -> Forall plain q -> join "/" q = value -> (value = EmptyString <-> q = []) ->
  path_clean (below s value) = abs (l ++ q) /\ (s = abs l -> below s value = abs (l ++ q)).
Proof.
  intros Hs Hl Hq Hv Hiff. unfold below. destruct (String.eqb_spec value EmptyString) as [He|Hne].
  - rewrite (proj1 Hiff He), app_nil_r. done.
  - destruct q as [|a q]; [naive_solver|]. subst value.
    assert (filepath_join [s; join "/" (a :: q)] = abs (l ++ a :: q)) as ->.
    { rewrite <-(join_clean s l (a :: q)) by done. by rewrite !filepath_join_cons by (by eapply abs_nonempty). }
    split; [|done]. apply clean_abs, Forall_app. done.
Qed.
