(* ===== verification/Regex.v ===== *)
(** * Regular expressions

    The fragment of the package [regexp] the panel's patterns use: byte classes,
    concatenation, alternation, bounded and unbounded repetition, anchored at both
    ends.  A pattern is data; [matches] decides it with derivatives, and
    (matches_spec) relates it to the language the pattern denotes. *)

From Stdlib Require Import Ascii.
From S2P Require Import Prelude GoStrings.

Local Open Scope Z_scope.

Inductive regex :=
| Empty                                  (* matches nothing *)
| Eps                                    (* the empty string *)
| Class (p : ascii -> bool)              (* one byte of a class *)
| Cat (r s : regex)
| Alt (r s : regex)
| Star (r : regex)
| Upto (r : regex) (n : nat).            (* r{0,n} *)

Inductive in_re : regex -> string -> Prop :=
| in_eps : in_re Eps EmptyString
| in_class p c : p c = true -> in_re (Class p) (String c EmptyString)
| in_cat r s a b : in_re r a -> in_re s b -> in_re (Cat r s) (a +:+ b)
| in_alt_l r s a : in_re r a -> in_re (Alt r s) a
| in_alt_r r s a : in_re s a -> in_re (Alt r s) a
| in_star_nil r : in_re (Star r) EmptyString
| in_star_cons r a b : in_re r a -> in_re (Star r) b -> in_re (Star r) (a +:+ b)
| in_upto_nil r n : in_re (Upto r n) EmptyString
| in_upto_cons r n a b : in_re r a -> in_re (Upto r n) b -> in_re (Upto r (S n)) (a +:+ b).

(** ** Matching *)
Fixpoint nullable (r : regex) : bool :=
  match r with
  | Empty | Class _ => false
  | Eps | Star _ | Upto _ _ => true
  | Cat r s => nullable r && nullable s
  | Alt r s => nullable r || nullable s
  end.

(** Constructors that keep derivatives small. *)
Definition cat (r s : regex) : regex :=
  match r, s with
  | Empty, _ | _, Empty => Empty
  | Eps, s => s
  | r, s => Cat r s
  end.
Definition alt (r s : regex) : regex :=
  match r, s with
  | Empty, s => s
  | r, Empty => r
  | r, s => Alt r s
  end.

Fixpoint der (c : ascii) (r : regex) : regex :=
  match r with
  | Empty | Eps => Empty
  | Class p => if p c then Eps else Empty
  | Cat r s => if nullable r then alt (cat (der c r) s) (der c s) else cat (der c r) s
  | Alt r s => alt (der c r) (der c s)
  | Star r => cat (der c r) (Star r)
  | Upto r O => Empty
  | Upto r (S n) => cat (der c r) (Upto r n)
  end.

(** [MatchString] of a pattern [^...$]. *)
Fixpoint matches (r : regex) (s : string) : bool :=
  match s with
  | EmptyString => nullable r
  | String c t => matches (der c r) t
  end.

(** Notation of the patterns. *)
Definition lit (c : ascii) : regex := Class (Ascii.eqb c).
Definition plus (r : regex) : regex := Cat r (Star r).
Definition opt (r : regex) : regex := Upto r 1.
Fixpoint times (n : nat) (r : regex) : regex :=
  match n with O => Eps | S n => Cat r (times n r) end.
Definition between (lo hi : nat) (r : regex) : regex := Cat (times lo r) (Upto r (hi - lo)).
Fixpoint literal (s : string) : regex :=
  match s with EmptyString => Eps | String c t => Cat (lit c) (literal t) end.
Fixpoint any_of (l : list regex) : regex :=
  match l with [] => Empty | r :: l => Alt r (any_of l) end.

(** The bytes a pattern can match. *)
Fixpoint alphabet (r : regex) (c : ascii) : bool :=
  match r with
  | Empty | Eps => false
  | Class p => p c
  | Cat r s | Alt r s => alphabet r c || alphabet s c
  | Star r | Upto r _ => alphabet r c
  end.

(** ** The matcher decides the language *)
Lemma in_cat_eq r s a b x : x = a +:+ b -> in_re r a -> in_re s b -> in_re (Cat r s) x.
Proof. intros ->. by constructor. Qed.

Lemma in_cat_inv r s x : in_re (Cat r s) x -> exists a b, x = a +:+ b /\ in_re r a /\ in_re s b.
Proof. inversion 1; subst; eauto. Qed.

Lemma cat_in r s x : in_re (cat r s) x <-> in_re (Cat r s) x.
Proof.
  assert (Hl : in_re (Cat Eps s) x <-> in_re s x).
  { split; [|intros H; by apply (in_cat_eq _ _ EmptyString x); [|constructor|]].
    intros (a & b & -> & Ha & Hb)%in_cat_inv. by inversion Ha; subst. }
  assert (Hr : in_re (Cat r Empty) x <-> in_re Empty x).
  { split; [|by inversion 1]. intros (a & b & _ & _ & Hb)%in_cat_inv. by inversion Hb. }
  assert (Hr' : in_re (Cat Empty s) x <-> in_re Empty x).
  { split; [|by inversion 1]. intros (a & b & _ & Ha & _)%in_cat_inv. by inversion Ha. }
  destruct r; simpl; [by rewrite Hr'|destruct s; by rewrite ?Hl| | | | | ];
    destruct s; by rewrite ?Hr.
Qed.

Lemma in_alt_inv r s x : in_re (Alt r s) x <-> in_re r x \/ in_re s x.
Proof. split; [by inversion 1; subst; auto|]. intros [H|H]; by constructor. Qed.

Lemma alt_in r s x : in_re (alt r s) x <-> in_re r x \/ in_re s x.
Proof.
  assert (He : in_re Empty x <-> False) by (split; [by inversion 1|done]).
  unfold alt. destruct r, s; rewrite ?in_alt_inv, ?He; tauto.
Qed.

Lemma app_empty a b : a +:+ b = EmptyString -> a = EmptyString /\ b = EmptyString.
Proof. by destruct a, b. Qed.

Lemma nullable_spec r : nullable r = true <-> in_re r EmptyString.
Proof.
  induction r as [| |p|r IHr s IHs|r IHr s IHs|r _|r _ n]; simpl.
  - split; [done|by inversion 1].
  - split; [constructor|done].
  - split; [done|by inversion 1].
  - rewrite andb_true_iff, IHr, IHs. split.
    + intros [??]. by apply (in_cat_eq _ _ EmptyString EmptyString).
    + intros (a & b & [-> ->]%eq_sym%app_empty & ? & ?)%in_cat_inv. done.
  - by rewrite orb_true_iff, IHr, IHs, in_alt_inv.
  - split; [constructor|done].
  - split; [constructor|done].
Qed.

(** A repetition that matches [String c x] begins with a round that matches [c]. *)
Lemma in_star_first r c x :
  in_re (Star r) (String c x) -> exists a b, x = a +:+ b /\ in_re r (String c a) /\ in_re (Star r) b.
Proof.
  intros H. remember (Star r) as q eqn:Hq. remember (String c x) as y eqn:Hy. revert x Hy.
  induction H as [| | | | | |r' a b Ha _ Hb IH| |]; intros x Hy; try done. injection Hq as ->.
  destruct a as [|d a]; [by apply IH|]. injection Hy as -> <-. by exists a, b.
Qed.

Lemma upto_mono r n x : in_re (Upto r n) x -> in_re (Upto r (S n)) x.
Proof.
  intros H. remember (Upto r n) as q eqn:Hq. revert n Hq.
  induction H as [| | | | | | |r' n'|r' n' a b Ha _ Hb IH]; intros n Hq; try done;
    injection Hq as -> <-; constructor; auto.
Qed.

Lemma in_upto_inv r n y :
  in_re (Upto r (S n)) y -> y = EmptyString \/ exists a b, y = a +:+ b /\ in_re r a /\ in_re (Upto r n) b.
Proof. inversion 1; subst; eauto 6. Qed.

Lemma in_upto_first r n c x :
  in_re (Upto r (S n)) (String c x) ->
  exists a b, x = a +:+ b /\ in_re r (String c a) /\ in_re (Upto r n) b.
Proof.
  revert x. induction n as [|n IH]; intros x [?|([|d a] & b & Hr & Ha & Hb)]%in_upto_inv; try done; simpl in Hr.
  - subst b. inversion Hb.
  - injection Hr as -> ->. eauto.
  - subst b. destruct (IH x Hb) as (a & b' & -> & Ha' & Hb'). exists a, b'. auto using upto_mono.
  - injection Hr as -> ->. eauto.
Qed.

Lemma der_spec c r x : in_re (der c r) x <-> in_re r (String c x).
Proof.
  revert x. induction r as [| |p|r IHr s IHs|r IHr s IHs|r IHr|r IHr n]; intros x; simpl.
  - split; by inversion 1.
  - split; by inversion 1.
  - destruct (p c) eqn:Hp; split.
    + inversion 1. by constructor.
    + inversion 1; subst. constructor.
    + by inversion 1.
    + inversion 1; subst. congruence.
  - assert (Hcat : in_re (cat (der c r) s) x <-> exists a b, x = a +:+ b /\ in_re r (String c a) /\ in_re s b).
    { rewrite cat_in. split.
      - intros (a & b & -> & Ha%IHr & Hb)%in_cat_inv. eauto.
      - intros (a & b & -> & Ha%IHr & Hb). by constructor. }
    assert (Hiff : in_re (Cat r s) (String c x) <->
      (exists a b, x = a +:+ b /\ in_re r (String c a) /\ in_re s b) \/ (nullable r = true /\ in_re s (String c x))).
    { rewrite nullable_spec. split.
      - intros ([|d a] & b & Heq & Ha & Hb)%in_cat_inv; simpl in Heq.
        + right. by subst.
        + injection Heq as -> ->. left. eauto.
      - intros [(a & b & -> & Ha & Hb)|[Hn Hs]]; [by apply (in_cat_eq _ _ (String c a) b)|].
        by apply (in_cat_eq _ _ EmptyString (String c x)). }
    destruct (nullable r); rewrite ?alt_in, ?IHs, Hcat, Hiff; naive_solver.
  - by rewrite alt_in, IHr, IHs, in_alt_inv.
  - rewrite cat_in. split.
    + intros (a & b & -> & Ha%IHr & Hb)%in_cat_inv. by apply (in_star_cons r (String c a) b).
    + intros (a & b & -> & Ha%IHr & Hb)%in_star_first. by constructor.
  - destruct n as [|n]; [split; by inversion 1|]. rewrite cat_in. split.
    + intros (a & b & -> & Ha%IHr & Hb)%in_cat_inv. by apply (in_upto_cons r n (String c a) b).
    + intros (a & b & -> & Ha%IHr & Hb)%in_upto_first. by constructor.
Qed.

Lemma matches_spec r s : matches r s = true <-> in_re r s.
Proof.
  revert r. induction s as [|c s IH]; intros r; simpl; [apply nullable_spec|]. by rewrite IH, der_spec.
Qed.

(** ** What a match says *)
Lemma in_re_alphabet r s : in_re r s -> all_bytes (alphabet r) s = true.
Proof.
  induction 1 as [|p c Hp|r s a b _ Ha _ Hb|r s a _ Ha|r s a _ Ha| |r a b _ Ha _ Hb| |r n a b _ Ha _ Hb];
    simpl in *; rewrite ?all_bytes_app, ?Hp, ?Ha, ?Hb; try done;
    rewrite ?andb_true_iff; repeat split; (eapply all_bytes_impl; [|eassumption]); simpl;
    intros c; rewrite ?orb_true_iff; auto.
Qed.

(** The bytes of a matched string satisfy every predicate the classes satisfy. *)
Lemma matches_bytes (p : ascii -> bool) r s :
  (forall c, alphabet r c = true -> p c = true) -> matches r s = true -> all_bytes p s = true.
Proof. intros Hp Hm%matches_spec%in_re_alphabet. by eapply all_bytes_impl. Qed.

(** A property of bytes checked on all 256 of them. *)
Definition all_ascii : list ascii := (fun n => ascii_of_nat n) <$> seq 0 256.
Lemma elem_of_all_ascii c : c ∈ all_ascii.
Proof.
  apply list_elem_of_fmap. exists (nat_of_ascii c). split; [by rewrite ascii_nat_embedding|].
  apply elem_of_seq. pose proof (nat_ascii_bounded c). lia.
Qed.
Lemma forall_ascii (p q : ascii -> bool) :
  forallb (fun c => negb (p c) || q c) all_ascii = true -> forall c, p c = true -> q c = true.
Proof.
  rewrite forallb_forall. intros H c Hp. specialize (H c).
  rewrite Hp in H. apply H, list_elem_of_In, elem_of_all_ascii.
Qed.

Lemma matches_nonempty r s : nullable r = false -> matches r s = true -> s <> EmptyString.
Proof. intros Hn Hm ->. simpl in Hm. congruence. Qed.

(** The lengths a pattern without [Star] matches. *)
Fixpoint longest (r : regex) : nat :=
  match r with
  | Empty | Eps => 0
  | Class _ => 1
  | Cat r s => longest r + longest s
  | Alt r s => Nat.max (longest r) (longest s)
  | Star r => 0
  | Upto r n => longest r * n
  end.
Fixpoint star_free (r : regex) : bool :=
  match r with
  | Star _ => false
  | Cat r s | Alt r s => star_free r && star_free s
  | Upto r _ => star_free r
  | _ => true
  end.
Lemma in_re_length r s : star_free r = true -> in_re r s -> (String.length s <= longest r)%nat.
Proof.
  intros Hf H. induction H as [|p c Hp|r s a b _ Ha _ Hb|r s a _ Ha|r s a _ Ha| |r a b _ Ha _ Hb| |r n a b _ Ha _ Hb];
    simpl in *; rewrite ?str_length_app; try done; try lia;
    try (apply andb_prop in Hf as [Hf1 Hf2]; specialize (Ha ltac:(done)); try specialize (Hb ltac:(done)); lia).
  specialize (Ha Hf). specialize (Hb Hf). lia.
Qed.

(** ** Inversion, as equivalences *)
Lemma in_class_iff p s : in_re (Class p) s <-> exists c, s = String c EmptyString /\ p c = true.
Proof. split; [inversion 1; eauto|]. intros (c & -> & Hp). by constructor. Qed.

Lemma in_cat_iff r s x : in_re (Cat r s) x <-> exists a b, x = a +:+ b /\ in_re r a /\ in_re s b.
Proof. split; [apply in_cat_inv|]. intros (a & b & -> & Ha & Hb). by constructor. Qed.

Lemma in_head p r s : in_re (Cat (Class p) r) s <-> exists c t, s = String c t /\ p c = true /\ in_re r t.
Proof.
  rewrite in_cat_iff. setoid_rewrite in_class_iff. split.
  - intros (a & b & -> & (c & -> & Hp) & Hb). eauto.
  - intros (c & t & -> & Hp & Ht). exists (String c EmptyString), t. eauto.
Qed.

Lemma in_opt r s : in_re (opt r) s <-> s = EmptyString \/ in_re r s.
Proof.
  unfold opt. split.
  - intros [?|(a & b & -> & Ha & Hb)]%in_upto_inv; [by left|]. inversion Hb; subst. rewrite str_app_nil_r. by right.
  - intros [->|H]; [constructor|]. rewrite <-(str_app_nil_r s). by repeat constructor.
Qed.

Lemma in_upto_class p n s :
  in_re (Upto (Class p) n) s <-> all_bytes p s = true /\ (String.length s <= n)%nat.
Proof.
  revert s. induction n as [|n IH]; intros s.
  - split; [inversion 1; subst; simpl; auto|]. intros [_ Hl]. destruct s; [constructor|simpl in Hl; lia].
  - split.
    + intros [->|(a & b & -> & (c & -> & Hp)%in_class_iff & [Hb Hl]%IH)]%in_upto_inv; simpl; [auto with lia|].
      rewrite Hp, Hb. auto with lia.
    + intros [Ha Hl]. destruct s as [|c s]; [constructor|]. apply andb_prop in Ha as [Hc Hs].
      apply (in_upto_cons _ _ (String c EmptyString) s); [by constructor|]. apply IH. simpl in Hl. auto with lia.
Qed.

Lemma in_star_class p s : in_re (Star (Class p)) s <-> all_bytes p s = true.
Proof.
  split.
  - by intros H%in_re_alphabet.
  - induction s as [|c s IH]; intros H; [constructor|]. apply andb_prop in H as [Hc Hs].
    apply (in_star_cons _ (String c EmptyString) s); [by constructor|auto].
Qed.

Lemma in_plus_class p s : in_re (plus (Class p)) s <-> s <> EmptyString /\ all_bytes p s = true.
Proof.
  unfold plus. rewrite in_head. setoid_rewrite in_star_class. split.
  - intros (c & t & -> & Hp & Ht). simpl. by rewrite Hp, Ht.
  - intros [Hne Hs]. destruct s as [|c t]; [done|]. apply andb_prop in Hs as [Hc Ht]. eauto.
Qed.
