(* ===== verification/Naming.v ===== *)
(** * Identifier shapes

    [internal/platform/naming]: the patterns of site slugs, host names and PHP
    branches, and the account name a slug implies. *)

From Stdlib Require Import Ascii.
From S2P Require Import Prelude GoStrings Regex.

Local Open Scope Z_scope.

Definition alnum_lower (c : ascii) : bool := is_lower c || is_digit c.
Definition slug_byte (c : ascii) : bool := is_lower c || is_digit c || Ascii.eqb "-" c.

(** [^[a-z][a-z0-9-]{1,31}$] *)
Definition siteSlugPattern : regex := Cat (Class is_lower) (between 1 31 (Class slug_byte)).

Definition ValidSiteSlug (slug : string) : bool := matches siteSlugPattern slug.

Definition SiteUnixUser (slug : string) : string := "nexa_" +:+ replace_byte "-" "_" slug.

(** [[a-z0-9](?:[a-z0-9-]{0,61}[a-z0-9])?], one label of a host name. *)
Definition label_pattern : regex :=
  Cat (Class alnum_lower) (opt (Cat (Upto (Class slug_byte) 61) (Class alnum_lower))).
Definition hostnamePattern : regex := Cat label_pattern (plus (Cat (lit ".") label_pattern)).

Definition ValidHostname (host : string) : bool := matches hostnamePattern host.

(** [^[0-9]{1,2}\.[0-9]{1,2}$] *)
Definition phpVersionShapePattern : regex :=
  Cat (between 1 2 (Class is_digit)) (Cat (lit ".") (between 1 2 (Class is_digit))).

Definition ValidPHPVersionShape (version : string) : bool := matches phpVersionShapePattern version.

(** ** What the shapes mean *)
#[local] Arguments Ascii.eqb : simpl never.

(** Bytes that are ordinary in every file and path the panel derives from them. *)
Definition word_byte (c : ascii) : bool :=
  is_alnum c || Ascii.eqb "-" c || Ascii.eqb "_" c || Ascii.eqb "." c.

Lemma slug_bytes s : ValidSiteSlug s = true -> all_bytes slug_byte s = true.
Proof. apply matches_bytes, forall_ascii. by vm_compute. Qed.

Lemma slug_nonempty s : ValidSiteSlug s = true -> s <> EmptyString.
Proof. by apply matches_nonempty. Qed.

Lemma slug_length s : ValidSiteSlug s = true -> (String.length s <= 32)%nat.
Proof. intros H%matches_spec. by apply in_re_length in H. Qed.

Lemma hostname_bytes s : ValidHostname s = true -> all_bytes (fun c => slug_byte c || Ascii.eqb "." c) s = true.
Proof. apply matches_bytes, forall_ascii. by vm_compute. Qed.

Lemma hostname_nonempty s : ValidHostname s = true -> s <> EmptyString.
Proof. by apply matches_nonempty. Qed.

Lemma php_version_bytes s : ValidPHPVersionShape s = true -> all_bytes (fun c => is_digit c || Ascii.eqb "." c) s = true.
Proof. apply matches_bytes, forall_ascii. by vm_compute. Qed.

(** *** A reference definition of host names: two labels or more, each of 1 to 63
    letters, digits and hyphens with no hyphen at either end. *)
Fixpoint last_byte (p : ascii -> bool) (s : string) : bool :=
  match s with
  | EmptyString => false
  | String c EmptyString => p c
  | String _ t => last_byte p t
  end.
Definition first_byte (p : ascii -> bool) (s : string) : bool :=
  match s with String c _ => p c | EmptyString => false end.
Definition host_label (l : string) : bool :=
  (String.length l <=? 63)%nat && all_bytes slug_byte l &&
  first_byte (fun c => negb (Ascii.eqb "-" c)) l && last_byte (fun c => negb (Ascii.eqb "-" c)) l.
Definition host_labels (h : string) : bool :=
  let labels := split "." h in (2 <=? length labels)%nat && forallb host_label labels.

Lemma last_byte_app p a c : last_byte p (a +:+ String c EmptyString) = p c.
Proof. induction a as [|d a IH]; simpl; [done|]. destruct (a +:+ String c EmptyString) eqn:E; [by destruct a|done]. Qed.

Lemma last_byte_split s : s <> EmptyString -> exists a c, s = a +:+ String c EmptyString.
Proof.
  induction s as [|c s IH]; [done|]. intros _. destruct s as [|d s]; [by exists EmptyString, c|].
  destruct IH as (a & e & ->); [done|]. by exists (String c a), e.
Qed.

Lemma slug_byte_split c : slug_byte c = alnum_lower c || Ascii.eqb "-" c.
Proof. done. Qed.

Lemma alnum_no_hyphen c : alnum_lower c = slug_byte c && negb (Ascii.eqb "-" c).
Proof.
  rewrite slug_byte_split. destruct (Ascii.eqb_spec "-" c) as [<-|]; [done|].
  cbn [negb]. by rewrite orb_false_r, andb_true_r.
Qed.

Lemma label_spec l : in_re label_pattern l <-> host_label l = true.
Proof.
  unfold label_pattern, host_label. rewrite in_head. setoid_rewrite in_opt. setoid_rewrite in_cat_iff.
  setoid_rewrite in_upto_class. setoid_rewrite in_class_iff. rewrite !andb_true_iff, Nat.leb_le. split.
  - intros (c & t & -> & Hc & [->|(a & b & -> & [Ha Hl] & d & -> & Hd)]);
      rewrite alnum_no_hyphen in *; rewrite !andb_true_iff in *.
    + destruct Hc. simpl. rewrite !andb_true_iff. auto with lia.
    + destruct Hc as [Hc Hc'], Hd as [Hd Hd']. change (String c (a +:+ ?x)) with (String c a +:+ x).
      rewrite last_byte_app, all_bytes_app, str_length_app. simpl. rewrite Ha, Hc, Hd. simpl. auto with lia.
  - intros [[[Hl Ha] Hf] He]. destruct l as [|c l]; [done|]. simpl in Ha, Hf. apply andb_prop in Ha as [Hc Ha].
    exists c, l. rewrite alnum_no_hyphen, Hc, Hf. split_and!; [done..|].
    destruct (decide (l = EmptyString)) as [->|Hne]; [by left|right].
    destruct (last_byte_split l Hne) as (a & d & ->). rewrite all_bytes_app in Ha. apply andb_prop in Ha as [Ha Hd].
    change (String c (a +:+ ?x)) with (String c a +:+ x) in He, Hl. rewrite last_byte_app in He.
    rewrite str_length_app in Hl. simpl in Hl, Hd. rewrite andb_true_r in Hd.
    exists a, (String d EmptyString). split_and!; [done|done|lia|]. exists d. by rewrite alnum_no_hyphen, Hd, He.
Qed.

Lemma host_label_no_dot l : host_label l = true -> any_byte (Ascii.eqb ".") l = false.
Proof.
  unfold host_label. rewrite !andb_true_iff, any_byte_false. intros [[[_ Ha] _] _].
  eapply all_bytes_impl; [|done]. apply forall_ascii. by vm_compute.
Qed.

(** The tail of a host name: labels, each after a dot. *)
Lemma dotted_labels_spec t :
  in_re (Star (Cat (lit ".") label_pattern)) t <->
  t = EmptyString \/ exists u, t = String "." u /\ forallb host_label (split "." u) = true.
Proof.
  split.
  - intros H. remember (Star _) as r eqn:Hr. induction H as [| | | | |r'|r' a b Ha _ Hb IH| |]; try done; [by left|].
    injection Hr as ->. right. specialize (IH eq_refl).
    apply in_head in Ha as (c & l & -> & <-%Ascii.eqb_eq & Hl%label_spec).
    exists (l +:+ b). split; [done|]. destruct IH as [->|(u & -> & Hu)].
    + rewrite str_app_nil_r, split_one by (by apply host_label_no_dot). simpl. by rewrite Hl.
    + rewrite split_app by (by apply host_label_no_dot). simpl. by rewrite Hl.
  - intros [->|(u & -> & Hu)]; [constructor|].
    remember (split "." u) as ls eqn:Hls. revert u Hls Hu.
    induction ls as [|l ls IH]; intros u Hls Hu; [by destruct u as [|d u]; simpl in Hls; [|case_match; [|destruct (split "." u)]]|].
    simpl in Hu. apply andb_prop in Hu as [Hl Hu].
    assert (Hcat : forall b, in_re (Star (Cat (lit ".") label_pattern)) b ->
      in_re (Star (Cat (lit ".") label_pattern)) (String "." l +:+ b)).
    { intros b Hb. apply in_star_cons; [|done]. apply in_head. exists "."%char, l. by rewrite label_spec. }
    destruct (cut "." u) as [[a b]|] eqn:Hc.
    + apply cut_Some in Hc as [-> Ha]. rewrite split_app in Hls by done. injection Hls as -> Hb.
      apply (Hcat (String "." b)). by apply IH.
    + apply cut_None in Hc. rewrite split_one in Hls by done. injection Hls as -> ->.
      rewrite <-(str_app_nil_r (String "." u)). apply Hcat. constructor.
Qed.

(** Host names as a list of labels: what the pattern [hostnamePattern] decides. *)
Lemma hostname_labels h : ValidHostname h = host_labels h.
Proof.
  apply eq_true_iff_eq. unfold ValidHostname, host_labels, hostnamePattern. rewrite matches_spec, in_cat_iff.
  rewrite andb_true_iff, Nat.leb_le. split.
  - intros (l & t & -> & Hl%label_spec & Ht).
    apply in_cat_inv in Ht as (a & b & -> & (c & m & -> & <-%Ascii.eqb_eq & Hm%label_spec)%in_head & Hb).
    change (String "." m +:+ b) with (String "." (m +:+ b)).
    rewrite split_app by (by apply host_label_no_dot). simpl.
    apply dotted_labels_spec in Hb as [->|(u & -> & Hu)].
    + rewrite str_app_nil_r, split_one by (by apply host_label_no_dot). simpl. by rewrite Hl, Hm.
    + rewrite split_app by (by apply host_label_no_dot). simpl. rewrite Hl, Hm. split; [lia|done].
  - intros [Hn Hf]. destruct (cut "." h) as [[l u]|] eqn:Hc.
    2: { apply cut_None in Hc. rewrite split_one in Hn by done. simpl in Hn. lia. }
    apply cut_Some in Hc as [-> Hl]. rewrite split_app in Hf by done. simpl in Hf. apply andb_prop in Hf as [Hf Hu].
    exists l, (String "." u). rewrite label_spec. split_and!; [done..|].
    assert (Hs : in_re (Star (Cat (lit ".") label_pattern)) (String "." u)) by (apply dotted_labels_spec; eauto).
    apply in_star_first in Hs as (a & b & -> & Ha & Hb). by apply (in_cat_eq _ _ (String "." a) b).
Qed.
