(* ===== verification/Sites.v ===== *)
(** * Site configuration

    [internal/platform/operators/sites/render.go] and [render_support.go]: the sites
    the agent activates, the checks a site passes before anything is rendered, and
    the files rendered for it.  A template is the string it produces; the texts
    agree byte for byte with the digests of render_golden_test.go. *)

From Stdlib Require Import Ascii.
From S2P Require Import Prelude GoStrings Regex Naming.

Local Open Scope Z_scope.

(** ** Data *)
Record BasicAuth := mk_basic_auth {
  ba_Enabled : bool;
  Realm : string;
  Username : string;
  PasswordHash : string;
}.
Record RateLimit := mk_rate_limit {
  rl_Enabled : bool;
  RequestsPerSecond : Z;
  Burst : Z;
}.
Record LogRotation := mk_log_rotation {
  lr_Enabled : bool;
  KeepFiles : Z;
  Frequency : string;
}.

(** A pointer field is an [option]. *)
Record Settings := mk_settings {
  HSTS : bool;
  HSTSMaxAge : Z;
  HTTP2 : option bool;
  HTTP3 : bool;
  HTTPSRedirect : option bool;
  Subdirectory : string;
  Charset : string;
  Gzip : option bool;
  GzipLevel : Z;
  StaticCacheDays : option Z;
  ClientMaxBodyMB : option Z;
  PMMode : string;
  PMMaxChildren : Z;
  PMMaxRequests : option Z;
  AccessLog : option bool;
  ErrorLog : option bool;
  s_BasicAuth : BasicAuth;
  s_RateLimit : RateLimit;
  IndexFiles : list string;
  WorkingDirectory : string;
  s_LogRotation : LogRotation;
}.

Record Route := mk_route { Hostname : string; Kind : string; RedirectTarget : string }.
Record TLS := mk_tls { CertificatePath : string; PrivateKeyPath : string }.

Record Site := mk_site {
  SiteID : string;
  Slug : string;
  PrimaryDomain : string;
  PHPVersion : string;
  UnixUser : string;
  RootPath : string;
  SocketPath : string;
  Routes : list Route;
  s_TLS : option TLS;
  TLSDomains : list string;
  s_Settings : Settings;
  DeploymentMode : string;
  RetiredPHPVersion : string;
}.

Record Artifact := mk_artifact { a_Kind : string; a_Path : string; a_Mode : Z; a_Content : string }.
#[export] Instance Artifact_eq_dec : EqDecision Artifact.
Proof. solve_decision. Defined.

(** The roots an agent is configured with; an empty one stands for the default. *)
Record Renderer := mk_renderer {
  NginxAvailableRoot : string;
  PHPConfigRoot : string;
  SiteRoot : string;
  SocketRoot : string;
  NginxConfDRoot : string;
  NginxIncludesRoot : string;
  LogrotateRoot : string;
}.

(** ** Patterns *)
Definition segment_byte (c : ascii) : bool := is_alnum c || Ascii.eqb "." c || Ascii.eqb "_" c || Ascii.eqb "-" c.
(** [^[A-Za-z0-9._-]+$] *)
Definition subdirectorySegment : regex := plus (Class segment_byte).
(** [^[A-Za-z0-9_-][A-Za-z0-9._-]*$] *)
Definition indexFileName : regex :=
  Cat (Class (fun c => is_alnum c || Ascii.eqb "_" c || Ascii.eqb "-" c)) (Star (Class segment_byte)).
(** [^[a-z0-9_-]{1,32}$] *)
Definition usernamePattern : regex := between 1 32 (Class (fun c => slug_byte c || Ascii.eqb "_" c)).
(** [^[A-Za-z0-9._@-]+:\$(?:2[aby]|apr1|5|6)\$[./A-Za-z0-9$]+$] *)
Definition htpasswdLine : regex :=
  Cat (plus (Class (fun c => segment_byte c || Ascii.eqb "@" c)))
  (Cat (literal ":$")
  (Cat (any_of [Cat (lit "2") (Class (one_of "aby")); literal "apr1"; lit "5"; lit "6"])
  (Cat (lit "$")
       (plus (Class (fun c => is_alnum c || one_of "./$" c)))))).

Definition phpFloor : string := "7.4".
Definition maxIndexFiles : Z := 8.

(** [first, _ = strconv.Atoi(s)], on fields of a version that has the shape; an
    absent field is 0. *)
Definition version_field (s : string) : Z := default 0 (atoi s).

(** The loop over the fields, first while only [b] has some left. *)
Fixpoint compare_right (r : list string) : Z :=
  match r with
  | [] => 0
  | b :: r' => if 0 =? version_field b then compare_right r' else 0 - version_field b
  end.
Fixpoint compare_fields (l r : list string) : Z :=
  match l with
  | [] => compare_right r
  | a :: l' =>
      let second := match r with [] => 0 | b :: _ => version_field b end in
      if version_field a =? second then compare_fields l' (tail r) else version_field a - second
  end.
Definition comparePHPVersions (a b : string) : Z := compare_fields (split "." a) (split "." b).

Definition phpVersionSupported (version : string) : bool :=
  ValidPHPVersionShape version && (0 <=? comparePHPVersions version phpFloor).

Definition standardMode : string := "standard".
Definition deployerMode : string := "deployer".
Definition deployerLayout (site : Site) : bool := String.eqb (DeploymentMode site) deployerMode.

Notation filepath_clean := path_clean.

(** ** Checks *)
Definition error := result string unit.
Definition fail_if (b : bool) (e : string) : error := if b then Err e else Ok tt.
Notation "c ;;; k" := (match c with Err e => Err e | Ok _ => k end)
  (at level 60, right associativity).

Definition relativePath (label value relativeTo : string) : error :=
  if String.eqb value EmptyString then Ok tt
  else fail_if (128 <? len value) (label +:+ " must be 128 characters or fewer") ;;;
  fail_if (any_byte (one_of "\:") value || any_byte (byte_eq 0) value)
    (label +:+ " may not contain backslashes, colons, or null bytes") ;;;
  fail_if (has_prefix "/" value) (label +:+ " must be relative to " +:+ relativeTo) ;;;
  fail_if (negb (String.eqb (filepath_clean value) value))
    (label +:+ " must be a canonical relative path without redundant or trailing separators") ;;;
  let segments := split "/" value in
  fail_if (8 <? Z.of_nat (length segments)) (label +:+ " may be at most 8 levels deep") ;;;
  (fix loop (segments : list string) : error :=
     match segments with
     | [] => Ok tt
     | segment :: rest =>
         fail_if (String.eqb segment "." || String.eqb segment "..")
           (label +:+ " may not contain relative path segments") ;;;
         fail_if (negb (matches subdirectorySegment segment))
           (label +:+ " segments may use only letters, digits, dot, hyphen, and underscore") ;;;
         loop rest
     end) segments.

Definition validateSubdirectory (subdirectory : string) : error :=
  relativePath "subdirectory" subdirectory "the site's public directory".

Fixpoint index_file_names (seen : gset string) (files : list string) : error :=
  match files with
  | [] => Ok tt
  | name :: rest =>
      fail_if (String.eqb name EmptyString) "application file names may not be empty" ;;;
      fail_if (64 <? len name) "application file names must be 64 characters or fewer" ;;;
      fail_if (negb (matches indexFileName name))
        "application file names must be plain filenames using letters, digits, dot, hyphen, and underscore, with no directory separators and no leading dot" ;;;
      fail_if (bool_decide (name ∈ seen)) "application file names must be unique" ;;;
      index_file_names ({[name]} ∪ seen) rest
  end.
Definition validateIndexFiles (files : list string) : error :=
  match files with
  | [] => Ok tt
  | _ => fail_if (maxIndexFiles <? Z.of_nat (length files))
           ("application files may list at most " +:+ itoa maxIndexFiles +:+ " filenames") ;;;
         index_file_names ∅ files
  end.

Definition charsetAllowlist : list string :=
  ["off"; "utf-8"; "iso-8859-1"; "iso-8859-2"; "iso-8859-15"; "windows-1251"; "windows-1252"; "koi8-r"; "koi8-u";
   "big5"; "euc-jp"; "euc-kr"; "gb2312"; "shift_jis"]%string.
Definition charsetSupported (charset : string) : bool :=
  String.eqb charset EmptyString || existsb (String.eqb charset) charsetAllowlist.

(** A rune of the realm is a printable ASCII byte other than a quote or a backslash;
    what is not ASCII is above U+007E, and an invalid byte reads as U+FFFD. *)
Definition double_quote : ascii := "034".
Definition realm_byte (c : ascii) : bool :=
  byte_between 32 126 c && negb (Ascii.eqb double_quote c) && negb (Ascii.eqb "\" c).
Definition isPrintableRealm (realm : string) : bool := (len realm <=? 64) && all_bytes realm_byte realm.

Definition member (s : string) (l : list string) : bool := existsb (String.eqb s) l.
Definition outside (lo hi z : Z) : bool := (z <? lo) || (hi <? z).
Definition set_outside (lo hi : Z) (z : option Z) : bool :=
  match z with Some z => outside lo hi z | None => false end.

Definition validateSettings (s : Settings) : error :=
  validateSubdirectory (Subdirectory s) ;;;
  validateIndexFiles (IndexFiles s) ;;;
  relativePath "working subdirectory" (WorkingDirectory s) "the site root" ;;;
  fail_if (negb (charsetSupported (Charset s)))
    ("character set must be empty or one of: " +:+ join ", " charsetAllowlist) ;;;
  fail_if (negb (GzipLevel s =? 0) && outside 1 9 (GzipLevel s)) "gzip level must be between 1 and 9" ;;;
  fail_if (set_outside 0 3650 (StaticCacheDays s)) "static cache expiry days must be between 0 and 3650" ;;;
  fail_if (set_outside 1 2048 (ClientMaxBodyMB s)) "client_max_body_size must be between 1 and 2048 MB" ;;;
  fail_if (negb (HSTSMaxAge s =? 0) && outside 0 63072000 (HSTSMaxAge s))
    "HSTS max-age must be between 0 and 63072000 seconds" ;;;
  fail_if (negb (member (PMMode s) [EmptyString; "ondemand"; "dynamic"; "static"]%string))
    "PHP-FPM process manager must be ondemand, dynamic, or static" ;;;
  fail_if (negb (PMMaxChildren s =? 0) && outside 1 1024 (PMMaxChildren s))
    "PHP-FPM max_children must be between 1 and 1024" ;;;
  fail_if (set_outside 0 100000 (PMMaxRequests s)) "PHP-FPM max_requests must be between 0 and 100000" ;;;
  fail_if (negb (isPrintableRealm (Realm (s_BasicAuth s)))) "basic-auth realm contains invalid characters" ;;;
  (if ba_Enabled (s_BasicAuth s) then
     fail_if (negb (matches usernamePattern (Username (s_BasicAuth s))))
       "basic-auth username must be 1-32 lowercase letters, digits, hyphen, or underscore" ;;;
     fail_if (negb (matches htpasswdLine (Username (s_BasicAuth s) +:+ ":" +:+ PasswordHash (s_BasicAuth s))))
       "basic-auth secret must be a hashed credential, never plaintext"
   else Ok tt) ;;;
  (if rl_Enabled (s_RateLimit s) then
     fail_if (negb (RequestsPerSecond (s_RateLimit s) =? 0) && outside 1 10000 (RequestsPerSecond (s_RateLimit s)))
       "rate limit requests/sec must be between 1 and 10000" ;;;
     fail_if (negb (Burst (s_RateLimit s) =? 0) && outside 0 10000 (Burst (s_RateLimit s)))
       "rate limit burst must be between 0 and 10000"
   else Ok tt) ;;;
  fail_if (negb (member (Frequency (s_LogRotation s)) [EmptyString; "hourly"; "daily"; "weekly"]%string))
    "log rotation frequency must be hourly, daily, or weekly" ;;;
  fail_if (negb (KeepFiles (s_LogRotation s) =? 0) && outside 1 365 (KeepFiles (s_LogRotation s)))
    "log rotation must keep between 1 and 365 stored files".

Definition or_default (s d : string) : string := if String.eqb s EmptyString then d else s.

(** [Renderer.validate] *)
Fixpoint validate_routes (seen : gset string) (routes : list Route) : error :=
  match routes with
  | [] => Ok tt
  | route :: rest =>
      fail_if (negb (ValidHostname (Hostname route))) "site route hostname is invalid" ;;;
      fail_if (bool_decide (Hostname route ∈ seen)) "site route hostnames must be unique" ;;;
      fail_if (negb (member (Kind route) ["alias"; "subdomain"; "redirect"]%string)) "site route kind is invalid" ;;;
      (if String.eqb (Kind route) "redirect" then
         fail_if (negb (ValidHostname (RedirectTarget route))) "redirect target must be a hostname"
       else fail_if (negb (String.eqb (RedirectTarget route) EmptyString)) "only redirect routes may have a target") ;;;
      validate_routes ({[Hostname route]} ∪ seen) rest
  end.

(** The host names served by the site itself. *)
Definition served_routes (site : Site) : list string :=
  Hostname <$> filter (fun r => Kind r <> "redirect"%string) (Routes site).

Definition validate_tls (site : Site) : error :=
  match s_TLS site with
  | Some tls =>
      let certificateRoot := filepath_join ["/etc/letsencrypt/live"%string; PrimaryDomain site] in
      fail_if (negb (String.eqb (filepath_clean (CertificatePath tls)) (filepath_join [certificateRoot; "fullchain.pem"%string]) &&
                     String.eqb (filepath_clean (PrivateKeyPath tls)) (filepath_join [certificateRoot; "privkey.pem"%string])))
        "TLS paths must use the primary domain certificate directory" ;;;
      fail_if (negb (forallb (fun h => member h (PrimaryDomain site :: served_routes site)) (TLSDomains site)))
        "TLS domain is not attached to the site"
  | None => fail_if (0 <? Z.of_nat (length (TLSDomains site))) "TLS domains require certificate paths"
  end.

Definition validate (r : Renderer) (site : Site) : error :=
  fail_if (String.eqb (SiteID site) EmptyString || negb (ValidSiteSlug (Slug site)) ||
           negb (ValidHostname (PrimaryDomain site)) || negb (phpVersionSupported (PHPVersion site)))
    ("site identity, slug, primary domain, and a PHP " +:+ phpFloor +:+ " or newer runtime are required") ;;;
  fail_if (negb (member (DeploymentMode site) [EmptyString; standardMode; deployerMode]))
    "site deployment mode must be standard or deployer" ;;;
  fail_if (negb (String.eqb (RetiredPHPVersion site) EmptyString) && negb (phpVersionSupported (RetiredPHPVersion site)))
    "site retired PHP version is malformed" ;;;
  fail_if (negb (String.eqb (UnixUser site) (SiteUnixUser (Slug site)))) "site Unix owner must be derived from its slug" ;;;
  let expectedRoot := filepath_join [or_default (SiteRoot r) "/srv/nexa/sites"; Slug site] in
  let expectedSocket := filepath_join [or_default (SocketRoot r) "/run/php"; "nexa-" +:+ Slug site +:+ ".sock"] in
  fail_if (negb (String.eqb (filepath_clean (RootPath site)) expectedRoot &&
                 String.eqb (filepath_clean (SocketPath site)) expectedSocket))
    "site root and socket paths must be derived from its slug" ;;;
  validate_routes {[PrimaryDomain site]} (Routes site) ;;;
  validate_tls site ;;;
  validateSettings (s_Settings site).

(** ** Effective settings *)
Definition defaultGzipLevel : Z := 5.
Definition defaultExpiresDays : Z := 30.
Definition defaultClientMaxBodyMB : Z := 64.
Definition defaultHSTSMaxAge : Z := 15552000.
Definition defaultRateReqPerSec : Z := 10.
Definition defaultRateBurst : Z := 20.
Definition defaultFPMMaxChildren : Z := 3.
Definition defaultFPMMaxRequests : Z := 500.
Definition basicAuthDefaultRealm : string := "Restricted".
Definition defaultLogRotateKeep : Z := 14.
Definition defaultLogRotateFrequency : string := "daily".

Definition intOr (p : option Z) (fallback : Z) : Z := default fallback p.
Definition boolOr (p : option bool) (fallback : bool) : bool := default fallback p.
Definition zeroOr (value fallback : Z) : Z := if value =? 0 then fallback else value.
Definition rateZone (slug : string) : string := "nexa_" +:+ replace_byte "-" "_" slug.

Record effectiveSettings := mk_effective {
  DocRoot : string;
  SymlinkFrom : string;
  e_IndexFiles : string;
  FrontController : string;
  e_Gzip : bool;
  e_GzipLevel : Z;
  StaticCache : bool;
  ExpiresDays : Z;
  e_ClientMaxBodyMB : Z;
  e_Charset : string;
  e_AccessLog : bool;
  e_ErrorLog : bool;
  e_HTTP2 : bool;
  e_HTTP3 : bool;
  e_HTTPSRedirect : bool;
  e_HSTS : bool;
  HSTSHeaderValue : string;
  OverrideGlob : string;
  e_BasicAuth : bool;
  BasicAuthRealm : string;
  HtpasswdPath : string;
  e_RateLimit : bool;
  RateZone : string;
  RateBurst : Z;
}.

Definition releaseRoot (site : Site) : string := filepath_join [RootPath site; "app"%string].

Definition documentRoot (site : Site) : string :=
  let root := if deployerLayout site then filepath_join [releaseRoot site; "current"; "public"]%string
              else filepath_join [RootPath site; "public"%string] in
  if String.eqb (Subdirectory (s_Settings site)) EmptyString then root
  else filepath_join [root; Subdirectory (s_Settings site)].

Definition symlinkFrom (site : Site) : string :=
  if deployerLayout site then releaseRoot site else documentRoot site.

Definition defaultIndexFiles : list string := ["index.php"; "index.html"]%string.
Definition indexFilesOr (files : list string) : list string :=
  match files with [] => defaultIndexFiles | _ => files end.
Definition frontController (files : list string) : string :=
  default "index.php"%string (List.find (has_suffix ".php") (indexFilesOr files)).

Definition site_file (root : string) (site : Site) (suffix : string) : string :=
  filepath_join [root; "nexa-" +:+ Slug site +:+ suffix].

Definition effective (site : Site) (includesRoot : string) : effectiveSettings :=
  let s := s_Settings site in
  let basic := ba_Enabled (s_BasicAuth s) in
  let rate := rl_Enabled (s_RateLimit s) in
  {| DocRoot := documentRoot site;
     SymlinkFrom := symlinkFrom site;
     e_IndexFiles := join " " (indexFilesOr (IndexFiles s));
     FrontController := frontController (IndexFiles s);
     e_Gzip := boolOr (Gzip s) true;
     e_GzipLevel := zeroOr (GzipLevel s) defaultGzipLevel;
     StaticCache := match StaticCacheDays s with None => true | Some d => 0 <? d end;
     ExpiresDays := match StaticCacheDays s with
                    | None => defaultExpiresDays
                    | Some d => if 0 <? d then d else 0
                    end;
     e_ClientMaxBodyMB := intOr (ClientMaxBodyMB s) defaultClientMaxBodyMB;
     e_Charset := Charset s;
     e_AccessLog := boolOr (AccessLog s) true;
     e_ErrorLog := boolOr (ErrorLog s) true;
     e_HTTP2 := boolOr (HTTP2 s) true;
     e_HTTP3 := HTTP3 s;
     e_HTTPSRedirect := boolOr (HTTPSRedirect s) true;
     e_HSTS := HSTS s;
     HSTSHeaderValue := if HSTS s
       then "max-age=" +:+ itoa (zeroOr (HSTSMaxAge s) defaultHSTSMaxAge) +:+ "; includeSubDomains"
       else EmptyString;
     OverrideGlob := filepath_join [includesRoot; "nexa-" +:+ Slug site +:+ ".d"; "*.conf"%string];
     e_BasicAuth := basic;
     BasicAuthRealm := if basic then or_default (Realm (s_BasicAuth s)) basicAuthDefaultRealm else EmptyString;
     HtpasswdPath := if basic then site_file includesRoot site ".htpasswd" else EmptyString;
     e_RateLimit := rate;
     RateZone := if rate then rateZone (Slug site) else EmptyString;
     RateBurst := if rate then zeroOr (Burst (s_RateLimit s)) defaultRateBurst else 0 |}.

(** ** Templates *)
Definition line (s : string) : string := s +:+ String newline EmptyString.
Definition lines (l : list string) : string := String.concat EmptyString (line <$> l).
Definition quoted (s : string) : string := String double_quote (s +:+ String double_quote EmptyString).
Definition when {A} (b : bool) (l : list A) : list A := if b then l else [].

(** [nginxTemplate]: the block [vhostBody], and the text around it.  [vhostBody]
    starts with a newline and does not end with one. *)
Definition vhost_body (site : Site) (e : effectiveSettings) : string :=
  String newline EmptyString +:+
  lines (
    ["    root " +:+ DocRoot e +:+ ";";
     "    index " +:+ e_IndexFiles e +:+ ";";
     "    disable_symlinks if_not_owner from=" +:+ SymlinkFrom e +:+ ";";
     "    client_max_body_size " +:+ itoa (e_ClientMaxBodyMB e) +:+ "m;";
     "    add_header X-Content-Type-Options nosniff always;"%string;
     "    add_header X-Frame-Options SAMEORIGIN always;"%string;
     "    add_header Referrer-Policy strict-origin-when-cross-origin always;"%string] ++
    when (negb (String.eqb (e_Charset e) EmptyString)) ["    charset " +:+ e_Charset e +:+ ";"] ++
    (if e_AccessLog e then ["    access_log " +:+ RootPath site +:+ "/logs/access.log;"]
     else ["    access_log off;"%string]) ++
    when (e_ErrorLog e) ["    error_log " +:+ RootPath site +:+ "/logs/error.log;"] ++
    when (e_Gzip e)
      ["    gzip on;"%string;
       "    gzip_vary on;"%string;
       "    gzip_proxied any;"%string;
       "    gzip_comp_level " +:+ itoa (e_GzipLevel e) +:+ ";";
       "    gzip_min_length 256;"%string;
       "    gzip_types text/plain text/css application/json application/javascript text/xml application/xml application/xml+rss text/javascript image/svg+xml;"%string] ++
    when (e_BasicAuth e)
      ["    auth_basic " +:+ quoted (BasicAuthRealm e) +:+ ";";
       "    auth_basic_user_file " +:+ HtpasswdPath e +:+ ";"] ++
    when (e_RateLimit e)
      ["    limit_req zone=" +:+ RateZone e +:+ " burst=" +:+ itoa (RateBurst e) +:+ " nodelay;"] ++
    ["    include " +:+ OverrideGlob e +:+ ";";
     EmptyString;
     "    location ~* \.(?:css|js|mjs|jpg|jpeg|png|gif|ico|svg|webp|avif|woff2?|ttf|eot|map)$ {"%string] ++
    when (StaticCache e) ["        expires " +:+ itoa (ExpiresDays e) +:+ "d;"] ++
    ["        access_log off;"%string;
     "        try_files $uri =404;"%string;
     "    }"%string;
     EmptyString;
     "    location / {"%string;
     "        try_files $uri $uri/ /" +:+ FrontController e +:+ "?$query_string;";
     "    }"%string;
     EmptyString;
     "    location ~ \.php$ {"%string;
     "        try_files $uri =404;"%string;
     "        include fastcgi_params;"%string;
     "        fastcgi_param SCRIPT_FILENAME $document_root$fastcgi_script_name;"%string;
     "        fastcgi_pass unix:" +:+ SocketPath site +:+ ";";
     "    }"%string;
     EmptyString;
     "    location ~ /\. {"%string;
     "        deny all;"%string]) +:+
  "    }".

Definition acme_location : string :=
  "    location ^~ /.well-known/acme-challenge/ { root /srv/nexa/acme; auth_basic off; }".

Definition redirect_server (route : Route) : string :=
  lines
    ["server {"%string;
     "    listen 80;"%string;
     "    listen [::]:80;"%string;
     "    server_name " +:+ Hostname route +:+ ";";
     acme_location;
     "    location / { return 301 https://" +:+ RedirectTarget route +:+ "$request_uri; }";
     "}"%string].

Definition is_some {A} (o : option A) : bool := match o with Some _ => true | None => false end.

Definition http_server (site : Site) (names : string) (e : effectiveSettings) : string :=
  lines
    ["server {"%string;
     "    listen 80;"%string;
     "    listen [::]:80;"%string;
     "    server_name " +:+ names +:+ ";";
     "    add_header X-Nexa-Site " +:+ Slug site +:+ " always;";
     acme_location] +:+
  (if is_some (s_TLS site) && e_HTTPSRedirect e
   then line ("    location / { return 301 https://" +:+ PrimaryDomain site +:+ "$request_uri; }")
   else vhost_body site e +:+ String newline EmptyString) +:+
  line "}".

Definition https_server (site : Site) (tls : TLS) (tlsNames : string) (e : effectiveSettings) : string :=
  lines (
    [EmptyString;
     "server {"%string;
     "    listen 443 ssl;"%string;
     "    listen [::]:443 ssl;"%string] ++
    when (e_HTTP2 e) ["    http2 on;"%string] ++
    when (e_HTTP3 e) ["    listen 443 quic;"; "    listen [::]:443 quic;"; "    http3 on;"]%string ++
    ["    server_name " +:+ tlsNames +:+ ";";
     "    add_header X-Nexa-Site " +:+ Slug site +:+ " always;";
     "    ssl_certificate " +:+ CertificatePath tls +:+ ";";
     "    ssl_certificate_key " +:+ PrivateKeyPath tls +:+ ";";
     "    ssl_protocols TLSv1.2 TLSv1.3;"%string] ++
    when (e_HSTS e)
      ["    add_header Strict-Transport-Security " +:+ quoted (HSTSHeaderValue e) +:+ " always;"] ++
    when (e_HTTP3 e)
      ["    add_header Alt-Svc 'h3=" +:+ quoted ":443" +:+ "; ma=86400' always;"]) +:+
  lines [vhost_body site e; "}"%string].

Definition renderNginx (site : Site) (includesRoot : string) : string :=
  let redirects := filter (fun r => Kind r = "redirect"%string) (Routes site) in
  let names := PrimaryDomain site :: served_routes site in
  let tlsNames := match TLSDomains site with [] => [PrimaryDomain site] | l => l end in
  let e := effective site includesRoot in
  line "# Managed by Nexa Panel." +:+
  String.concat EmptyString (redirect_server <$> redirects) +:+
  http_server site (join " " names) e +:+
  match s_TLS site with
  | Some tls => https_server site tls (join " " tlsNames) e
  | None => EmptyString
  end +:+
  String newline EmptyString.

(** [fpmDataFor] and [fpmTemplate] *)
Record fpmData := mk_fpm_data {
  PM : string;
  ChdirPath : string;
  MaxChildren : Z;
  MaxRequests : Z;
  StartServers : Z;
  MinSpareServers : Z;
  MaxSpareServers : Z;
  f_ErrorLog : bool;
}.
Definition fpmDataFor (site : Site) : fpmData :=
  let f := s_Settings site in
  let pm := or_default (PMMode f) "ondemand" in
  let children := zeroOr (PMMaxChildren f) defaultFPMMaxChildren in
  let base := if deployerLayout site then filepath_join [releaseRoot site; "current"%string] else RootPath site in
  let chdir := if String.eqb (WorkingDirectory f) EmptyString then base
               else filepath_join [base; WorkingDirectory f] in
  let start := Z.quot children 2 in
  {| PM := pm; ChdirPath := chdir; MaxChildren := children;
     MaxRequests := intOr (PMMaxRequests f) defaultFPMMaxRequests;
     StartServers := if start <? 1 then 1 else start;
     MinSpareServers := 1; MaxSpareServers := children;
     f_ErrorLog := boolOr (ErrorLog f) true |}.

Definition fpmTemplate (site : Site) (d : fpmData) : string :=
  lines (
    ["; Managed by Nexa Panel."%string;
     "[nexa-" +:+ Slug site +:+ "]";
     "user = " +:+ UnixUser site;
     "group = " +:+ UnixUser site;
     "listen = " +:+ SocketPath site;
     "listen.owner = www-data"%string;
     "listen.group = www-data"%string;
     "listen.mode = 0660"%string;
     "pm = " +:+ PM d;
     "pm.max_children = " +:+ itoa (MaxChildren d)] ++
    when (String.eqb (PM d) "ondemand") ["pm.process_idle_timeout = 10s"%string] ++
    when (String.eqb (PM d) "dynamic")
      ["pm.start_servers = " +:+ itoa (StartServers d);
       "pm.min_spare_servers = " +:+ itoa (MinSpareServers d);
       "pm.max_spare_servers = " +:+ itoa (MaxSpareServers d)] ++
    ["pm.max_requests = " +:+ itoa (MaxRequests d);
     "chdir = " +:+ ChdirPath d;
     "catch_workers_output = yes"%string;
     "clear_env = yes"%string;
     "security.limit_extensions = .php"%string;
     "php_admin_value[error_log] = " +:+ RootPath site +:+ "/logs/php-error.log";
     "php_admin_flag[log_errors] = " +:+ (if f_ErrorLog d then "on" else "off")]).

Definition indexTemplate (site : Site) : string :=
  lines
    ["<?php"%string;
     "header('Content-Type: text/plain; charset=utf-8');"%string;
     "echo " +:+ String double_quote ("Nexa Panel site " +:+ Slug site +:+ " is ready on PHP ") +:+
       String double_quote (" . PHP_VERSION . " +:+ quoted "\n") +:+ ";"].

Definition managed_line : string := "# Managed by Nexa Panel.".

Definition rateZoneArtifact (site : Site) : string :=
  lines
    [managed_line;
     "limit_req_zone $binary_remote_addr zone=" +:+ rateZone (Slug site) +:+ ":10m rate=" +:+
       itoa (zeroOr (RequestsPerSecond (s_RateLimit (s_Settings site))) defaultRateReqPerSec) +:+ "r/s;"].

Definition htpasswdArtifact (site : Site) : string :=
  line (Username (s_BasicAuth (s_Settings site)) +:+ ":" +:+ PasswordHash (s_BasicAuth (s_Settings site))).

Definition logrotateFrequency (frequency : string) : string := or_default frequency defaultLogRotateFrequency.

Definition logrotateArtifact (site : Site) : string :=
  let logs := filepath_join [RootPath site; "logs"%string] in
  let s := s_LogRotation (s_Settings site) in
  lines (
    [managed_line] ++
    ((fun name => filepath_join [logs; name]) <$> ["access.log"; "error.log"; "php-error.log"]%string) ++
    ["{"%string;
     "    " +:+ logrotateFrequency (Frequency s);
     "    rotate " +:+ itoa (zeroOr (KeepFiles s) defaultLogRotateKeep);
     "    missingok"%string;
     "    notifempty"%string;
     "    compress"%string;
     "    delaycompress"%string;
     "    copytruncate"%string;
     "    su " +:+ UnixUser site +:+ " www-data";
     "}"%string]).

(** ** [Renderer.Render]: the artifacts a site has, and the managed paths it must not
    have. *)
Definition artifact_roots (r : Renderer) : string * string * string * string * string :=
  (or_default (NginxAvailableRoot r) "/etc/nginx/sites-available",
   or_default (PHPConfigRoot r) "/etc/php",
   or_default (NginxConfDRoot r) "/etc/nginx/conf.d",
   or_default (NginxIncludesRoot r) "/etc/nginx/nexa-includes",
   or_default (LogrotateRoot r) "/etc/logrotate.d").

Definition pool_path (phpRoot : string) (site : Site) (version : string) : string :=
  filepath_join [phpRoot; version; "fpm"; "pool.d"; "nexa-" +:+ Slug site +:+ ".conf"]%string.

Definition conditionals (confdRoot includesRoot logrotateRoot : string) (site : Site) : list (bool * Artifact) :=
  let s := s_Settings site in
  [(rl_Enabled (s_RateLimit s),
    mk_artifact "nginx-ratelimit" (site_file confdRoot site "-ratelimit.conf") 420 (rateZoneArtifact site));
   (ba_Enabled (s_BasicAuth s),
    mk_artifact "nginx-htpasswd" (site_file includesRoot site ".htpasswd") 416 (htpasswdArtifact site));
   (lr_Enabled (s_LogRotation s),
    mk_artifact "logrotate" (site_file logrotateRoot site EmptyString) 420 (logrotateArtifact site))].

Definition rendered_artifacts (r : Renderer) (site : Site) : list Artifact :=
  let '(nginxRoot, phpRoot, confdRoot, includesRoot, logrotateRoot) := artifact_roots r in
  let index := mk_artifact "site-root" (filepath_join [RootPath site; "public"; "index.php"]%string) 416 (indexTemplate site) in
  let pool := mk_artifact "php-fpm-pool" (pool_path phpRoot site (PHPVersion site)) 416 (fpmTemplate site (fpmDataFor site)) in
  let vhost := mk_artifact "nginx-site" (site_file nginxRoot site ".conf") 416 (renderNginx site includesRoot) in
  when (negb (deployerLayout site)) [index] ++ [pool; vhost] ++
  (snd <$> filter (fun c => c.1 = true) (conditionals confdRoot includesRoot logrotateRoot site)).

Definition retired_paths (r : Renderer) (site : Site) : list string :=
  let '(_, phpRoot, confdRoot, includesRoot, logrotateRoot) := artifact_roots r in
  let outgoing := negb (String.eqb (RetiredPHPVersion site) EmptyString) &&
                  negb (String.eqb (RetiredPHPVersion site) (PHPVersion site)) in
  (a_Path ∘ snd <$> filter (fun c => c.1 = false) (conditionals confdRoot includesRoot logrotateRoot site)) ++
  (if outgoing then [pool_path phpRoot site (RetiredPHPVersion site)] else []).

Definition Render (r : Renderer) (site : Site) : result string (list Artifact * list string) :=
  match validate r site with
  | Err e => Err e
  | Ok _ => Ok (rendered_artifacts r site, retired_paths r site)
  end.
