(* ===== verification/SiteText.v ===== *)
(** * Reading a rendered configuration back

    The configuration syntax the vhost template is written in, as a reader of our
    own: words, quoted words, comments, directives [words;] and blocks
    [words { ... }].  It is the specification the renderer is measured against: what
    a rendered file says is the tree [read_config] finds in it. *)

From Stdlib Require Import Ascii.
From S2P Require Import Prelude GoStrings Regex Naming Sites.

Local Open Scope Z_scope.

(** ** The tree of a configuration file *)
Inductive item :=
| Directive (words : list string)
| Block (words : list string) (body : list item).

Inductive token := Word (s : string) | Semicolon | OpenBrace | CloseBrace.

Fixpoint item_tokens (i : item) : list token :=
  match i with
  | Directive ws => (Word <$> ws) ++ [Semicolon]
  | Block ws body => (Word <$> ws) ++ OpenBrace :: (flat_map item_tokens body ++ [CloseBrace])
  end.
Definition tokens (l : list item) : list token := flat_map item_tokens l.

(** ** Scanning

    A scanner with one byte of look-behind; its output are the bytes of words and
    what delimits them. *)
Inductive event := Byte (c : ascii) | EndWord | Mark (t : token).

Inductive mode :=
| Gap                    (* between words *)
| InWord
| InVar                  (* after a dollar sign: a brace belongs to the word *)
| Escape
| Quoted (q : ascii)     (* inside a quoted word *)
| QuotedEscape (q : ascii)
| Closed                 (* after the closing quote *)
| Comment.

Definition blank (c : ascii) : bool := byte_eq 32 c || byte_eq 9 c || byte_eq 13 c || byte_eq 10 c.
Definition single_quote : ascii := "'".
Definition is_quote (c : ascii) : bool := Ascii.eqb double_quote c || Ascii.eqb single_quote c.
Definition escaped (c : ascii) : list event :=
  if is_quote c || Ascii.eqb "\" c then [Byte c]
  else if Ascii.eqb "t" c then [Byte "009"]
  else if Ascii.eqb "r" c then [Byte "013"]
  else if Ascii.eqb "n" c then [Byte "010"]
  else [Byte "\"; Byte c].

(** What ends a word, and what it ends with. *)
Definition delimiter (c : ascii) : option (list event) :=
  if blank c then Some [EndWord]
  else if Ascii.eqb ";" c then Some [EndWord; Mark Semicolon]
  else if Ascii.eqb "{" c then Some [EndWord; Mark OpenBrace]
  else None.

Definition in_word (c : ascii) : mode * list event :=
  match delimiter c with
  | Some es => (Gap, es)
  | None => if Ascii.eqb "\" c then (Escape, [])
            else if Ascii.eqb "$" c then (InVar, [Byte c])
            else (InWord, [Byte c])
  end.

Definition step (m : mode) (c : ascii) : option (mode * list event) :=
  match m with
  | Gap =>
      if blank c then Some (Gap, [])
      else if Ascii.eqb ";" c then Some (Gap, [Mark Semicolon])
      else if Ascii.eqb "{" c then Some (Gap, [Mark OpenBrace])
      else if Ascii.eqb "}" c then Some (Gap, [Mark CloseBrace])
      else if Ascii.eqb "#" c then Some (Comment, [])
      else if is_quote c then Some (Quoted c, [])
      else Some (in_word c)
  | InWord => Some (in_word c)
  | InVar => if Ascii.eqb "{" c then Some (InWord, [Byte c]) else Some (in_word c)
  | Escape => Some (InWord, escaped c)
  | Quoted q => if Ascii.eqb q c then Some (Closed, [])
                else if Ascii.eqb "\" c then Some (QuotedEscape q, [])
                else Some (Quoted q, [Byte c])
  | QuotedEscape q => Some (Quoted q, escaped c)
  | Closed => match delimiter c with Some es => Some (Gap, es) | None => None end
  | Comment => Some (if byte_eq 10 c then Gap else Comment, [])
  end.

Fixpoint scan (m : mode) (s : string) : option (mode * list event) :=
  match s with
  | EmptyString => Some (m, [])
  | String c t =>
      match step m c with
      | Some (m', es) => match scan m' t with Some (m'', es') => Some (m'', es ++ es') | None => None end
      | None => None
      end
  end.

Fixpoint assemble (cur : string) (es : list event) : list token :=
  match es with
  | [] => []
  | Byte c :: es => assemble (cur +:+ String c EmptyString) es
  | EndWord :: es => Word cur :: assemble EmptyString es
  | Mark t :: es => t :: assemble EmptyString es
  end.

(** ** Parsing, with the enclosing blocks on a stack *)
Fixpoint parse (stack : list (list string * list item)) (cur : list string) (acc : list item)
    (ts : list token) : option (list item) :=
  match ts with
  | [] => match stack, cur with [], [] => Some acc | _, _ => None end
  | Word w :: ts => parse stack (cur ++ [w]) acc ts
  | Semicolon :: ts => match cur with [] => None | _ => parse stack [] (acc ++ [Directive cur]) ts end
  | OpenBrace :: ts => match cur with [] => None | _ => parse ((cur, acc) :: stack) [] [] ts end
  | CloseBrace :: ts =>
      match cur, stack with
      | [], (words, outer) :: stack => parse stack [] (outer ++ [Block words acc]) ts
      | _, _ => None
      end
  end.

Definition read_config (s : string) : option (list item) :=
  match scan Gap s with
  | Some (Gap, es) | Some (Comment, es) => parse [] [] [] (assemble EmptyString es)
  | _ => None
  end.

(** ** The reader inverts the tokens of a tree *)
Fixpoint bytes_of (s : string) : list event :=
  match s with EmptyString => [] | String c t => Byte c :: bytes_of t end.
Definition token_events (t : token) : list event :=
  match t with Word s => bytes_of s ++ [EndWord] | t => [Mark t] end.
Definition events (ts : list token) : list event := flat_map token_events ts.

Fixpoint titled (i : item) : bool :=
  match i with
  | Directive ws => negb (bool_decide (ws = []))
  | Block ws body => negb (bool_decide (ws = [])) && forallb titled body
  end.

Lemma bytes_of_app a b : bytes_of (a +:+ b) = bytes_of a ++ bytes_of b.
Proof. induction a as [|c a IH]; simpl; [done|]. by rewrite IH. Qed.

Lemma events_app a b : events (a ++ b) = events a ++ events b.
Proof. apply flat_map_app. Qed.

Lemma tokens_app a b : tokens (a ++ b) = tokens a ++ tokens b.
Proof. apply flat_map_app. Qed.

Lemma tokens_cons i l : tokens (i :: l) = item_tokens i ++ tokens l.
Proof. done. Qed.

Lemma assemble_bytes cur s es : assemble cur (bytes_of s ++ es) = assemble (cur +:+ s) es.
Proof.
  revert cur. induction s as [|c s IH]; intros cur; simpl; [by rewrite str_app_nil_r|].
  by rewrite IH, str_app_assoc.
Qed.

Lemma assemble_events ts es : assemble EmptyString (events ts ++ es) = ts ++ assemble EmptyString es.
Proof.
  induction ts as [|t ts IH]; simpl; [done|]. rewrite <-(assoc_L (++)).
  destruct t; simpl; rewrite ?IH; try done.
  rewrite <-(assoc_L (++)), assemble_bytes. simpl. by rewrite IH.
Qed.

Lemma parse_words stack cur acc ws ts : parse stack cur acc ((Word <$> ws) ++ ts) = parse stack (cur ++ ws) acc ts.
Proof.
  revert cur. induction ws as [|w ws IH]; intros cur; simpl; [by rewrite app_nil_r|].
  by rewrite IH, <-(assoc_L (++)).
Qed.

Section item_induction.
Context (P : item -> Prop) (Hd : forall ws, P (Directive ws)) (Hb : forall ws body, Forall P body -> P (Block ws body)).
Fixpoint item_ind' (i : item) : P i :=
  match i with
  | Directive ws => Hd ws
  | Block ws body =>
      Hb ws body ((fix go l : Forall P l :=
        match l with [] => Forall_nil_2 _ | x :: l => Forall_cons_2 _ x l (item_ind' x) (go l) end) body)
  end.
End item_induction.

Lemma parse_item i : forall stack acc ts, titled i = true ->
  parse stack [] acc (item_tokens i ++ ts) = parse stack [] (acc ++ [i]) ts.
Proof.
  induction i as [ws|ws body IH] using item_ind'; intros stack acc ts Ht; simpl in Ht.
  - simpl. rewrite <-(assoc_L (++)), parse_words. simpl. by destruct ws.
  - apply andb_prop in Ht as [Hw Hb]. simpl. rewrite <-(assoc_L (++)), parse_words. simpl.
    destruct ws as [|w ws]; [done|]. rewrite <-(assoc_L (++)).
    assert (Hgen : forall inner st, parse st [] inner (flat_map item_tokens body ++ CloseBrace :: ts) =
      parse st [] (inner ++ body) (CloseBrace :: ts)).
    { clear Hw w ws acc stack. induction IH as [|i body Hi _ IHb]; intros inner st; simpl; [by rewrite app_nil_r|].
      simpl in Hb. apply andb_prop in Hb as [Hi' Hb]. rewrite <-(assoc_L (++)), Hi by done.
      specialize (IHb Hb (inner ++ [i]) st). simpl in IHb. rewrite IHb. by rewrite <-(assoc_L (++)). }
    simpl. by rewrite Hgen.
Qed.

Lemma parse_items l : forall acc, forallb titled l = true -> parse [] [] acc (tokens l) = Some (acc ++ l).
Proof.
  induction l as [|i l IH]; intros acc Ht; simpl; [by rewrite app_nil_r|].
  apply andb_prop in Ht as [Hi Hl]. unfold tokens in *. simpl. rewrite parse_item by done.
  by rewrite IH, <-(assoc_L (++)).
Qed.

(** [reads s ts]: scanning [s] gives exactly the words and marks [ts]. *)
Definition reads (s : string) (ts : list token) : Prop := scan Gap s = Some (Gap, events ts).

Lemma reads_config s l : reads s (tokens l) -> forallb titled l = true -> read_config s = Some l.
Proof.
  intros Hs Ht. unfold read_config. rewrite Hs. rewrite <-(app_nil_r (events _)), assemble_events, app_nil_r.
  by apply (parse_items l []).
Qed.

Lemma scan_app m a b m' es m'' es' :
  scan m a = Some (m', es) -> scan m' b = Some (m'', es') -> scan m (a +:+ b) = Some (m'', es ++ es').
Proof.
  revert m es. induction a as [|c a IH]; intros m es; simpl; [by intros [= -> <-] ->|].
  destruct (step m c) as [[m1 e1]|]; [|done]. destruct (scan m1 a) as [[m2 e2]|] eqn:Ha; [|done].
  intros [= -> <-] Hb. rewrite (IH _ _ Ha Hb). by rewrite (assoc_L (++)).
Qed.

Lemma reads_app a b ts us : reads a ts -> reads b us -> reads (a +:+ b) (ts ++ us).
Proof. intros Ha Hb. unfold reads. rewrite events_app. by eapply scan_app. Qed.

Lemma reads_nil : reads EmptyString [].
Proof. done. Qed.

(** ** Words without a special byte *)
Definition plain_byte (c : ascii) : bool :=
  negb (blank c) && negb (is_quote c) &&
  negb (Ascii.eqb ";" c) && negb (Ascii.eqb "{" c) && negb (Ascii.eqb "}" c) &&
  negb (Ascii.eqb "#" c) && negb (Ascii.eqb "\" c) && negb (Ascii.eqb "$" c).
Definition plain_text (s : string) : Prop := all_bytes plain_byte s = true.
Definition plain_word (s : string) : Prop := plain_text s /\ s <> EmptyString.

Lemma step_plain m c : m = Gap \/ m = InWord \/ m = InVar -> plain_byte c = true -> step m c = Some (InWord, [Byte c]).
Proof.
  unfold plain_byte. rewrite !andb_true_iff, !negb_true_iff. intros Hm [[[[[[[H1 H2] H3] H4] H5] H6] H7] H8].
  assert (Hw : in_word c = (InWord, [Byte c])) by (unfold in_word, delimiter; by rewrite H1, H3, H4, H7, H8).
  destruct Hm as [-> | [-> | ->] ]; cbn [step]; by rewrite ?H1, ?H3, ?H4, ?H5, ?H6, ?H2, Hw.
Qed.

Lemma scan_plain_text s : plain_text s -> scan InWord s = Some (InWord, bytes_of s).
Proof.
  unfold plain_text. induction s as [|c s IH]; intros H; [done|].
  apply andb_prop in H as [Hc Hs]. cbn [scan]. by rewrite step_plain, IH by auto.
Qed.

Lemma scan_plain_word m s : m = Gap \/ m = InWord \/ m = InVar -> plain_word s -> scan m s = Some (InWord, bytes_of s).
Proof.
  intros Hm [Hp Hne]. destruct s as [|c s]; [done|]. apply andb_prop in Hp as [Hc Hs]. cbn [scan].
  by rewrite step_plain, scan_plain_text.
Qed.

(** Several words, one blank between each two. *)
Lemma scan_words ws :
  ws <> [] -> Forall plain_word ws ->
  scan Gap (join " " ws +:+ ";") = Some (Gap, events ((Word <$> ws) ++ [Semicolon])).
Proof.
  intros Hne Hws. induction Hws as [|w ws Hw Hws IH]; [done| ].
  destruct ws as [|w' ws].
  - simpl. rewrite <-(assoc_L (++)).
    apply (scan_app Gap w ";" InWord (bytes_of w)); [apply scan_plain_word; auto|done].
  - change (join " " (w :: w' :: ws)) with (w +:+ String " " (join " " (w' :: ws))).
    rewrite str_app_assoc. change (String " " ?a +:+ ?b) with (" " +:+ (a +:+ b)).
    simpl fmap. simpl app. cbn [events flat_map token_events]. rewrite <-(assoc_L (++)).
    eapply scan_app; [apply scan_plain_word; [auto|done]|].
    apply (scan_app InWord " " _ Gap [EndWord]); [done|]. by apply IH.
Qed.

(** The text of a quoted word. *)
Definition quotable (s : string) : Prop := all_bytes realm_byte s = true.
Lemma scan_quoted s : quotable s -> scan (Quoted double_quote) s = Some (Quoted double_quote, bytes_of s).
Proof.
  unfold quotable. induction s as [|c s IH]; intros H; [done|].
  apply andb_prop in H as [Hc Hs]. cbn [scan step].
  unfold realm_byte in Hc. rewrite !andb_true_iff, !negb_true_iff in Hc. destruct Hc as [[_ ->] ->].
  by rewrite IH.
Qed.
Lemma scan_quoted_word s :
  quotable s -> scan Gap (quoted s) = Some (Closed, bytes_of s).
Proof.
  intros Hs. pose proof (scan_app _ _ (String double_quote EmptyString) _ _ Closed [] (scan_quoted s Hs) eq_refl) as H.
  rewrite app_nil_r in H. unfold quoted.
  change (scan Gap (String double_quote ?x)) with
    (match scan (Quoted double_quote) x with Some (m, es) => Some (m, es) | None => None end).
  by rewrite H.
Qed.
