(* ===== verification/SiteRender.v ===== *)
(** * What the rendered files say

    The vhost as a tree of directives, and the proof that the text [renderNginx]
    produces reads back as that tree when the values it is filled with are plain
    words. *)

From Stdlib Require Import Ascii.
From S2P Require Import Prelude GoStrings Regex Naming Sites SiteText.

Local Open Scope Z_scope.

(** ** The tree of a vhost *)
Notation "<< w ; .. ; v >>" := (@cons string w%string .. (@cons string v%string (@nil string)) ..) (only parsing).
Notation dir := Directive.

Definition body_items (site : Site) (e : effectiveSettings) : list item :=
  ([dir << "root"; DocRoot e >>;
    dir ("index"%string :: indexFilesOr (IndexFiles (s_Settings site)));
    dir << "disable_symlinks"; "if_not_owner"; "from=" +:+ SymlinkFrom e >>;
    dir << "client_max_body_size"; itoa (e_ClientMaxBodyMB e) +:+ "m" >>;
    dir << "add_header"; "X-Content-Type-Options"; "nosniff"; "always" >>;
    dir << "add_header"; "X-Frame-Options"; "SAMEORIGIN"; "always" >>;
    dir << "add_header"; "Referrer-Policy"; "strict-origin-when-cross-origin"; "always" >>] ++
  when (negb (String.eqb (e_Charset e) EmptyString)) [dir << "charset"; e_Charset e >>] ++
  [dir << "access_log"; if e_AccessLog e then RootPath site +:+ "/logs/access.log" else "off" >>] ++
  when (e_ErrorLog e) [dir << "error_log"; RootPath site +:+ "/logs/error.log" >>] ++
  when (e_Gzip e)
    [dir << "gzip"; "on" >>; dir << "gzip_vary"; "on" >>; dir << "gzip_proxied"; "any" >>;
     dir << "gzip_comp_level"; itoa (e_GzipLevel e) >>; dir << "gzip_min_length"; "256" >>;
     dir << "gzip_types"; "text/plain"; "text/css"; "application/json"; "application/javascript"; "text/xml";
          "application/xml"; "application/xml+rss"; "text/javascript"; "image/svg+xml" >>] ++
  when (e_BasicAuth e)
    [dir << "auth_basic"; BasicAuthRealm e >>; dir << "auth_basic_user_file"; HtpasswdPath e >>] ++
  when (e_RateLimit e)
    [dir << "limit_req"; "zone=" +:+ RateZone e; "burst=" +:+ itoa (RateBurst e); "nodelay" >>] ++
  [dir << "include"; OverrideGlob e >>;
   Block << "location"; "~*"; "\.(?:css|js|mjs|jpg|jpeg|png|gif|ico|svg|webp|avif|woff2?|ttf|eot|map)$" >>
     (when (StaticCache e) [dir << "expires"; itoa (ExpiresDays e) +:+ "d" >>] ++
      [dir << "access_log"; "off" >>; dir << "try_files"; "$uri"; "=404" >>]);
   Block << "location"; "/" >>
     [dir << "try_files"; "$uri"; "$uri/"; "/" +:+ FrontController e +:+ "?$query_string" >>];
   Block << "location"; "~"; "\.php$" >>
     [dir << "try_files"; "$uri"; "=404" >>; dir << "include"; "fastcgi_params" >>;
      dir << "fastcgi_param"; "SCRIPT_FILENAME"; "$document_root$fastcgi_script_name" >>;
      dir << "fastcgi_pass"; "unix:" +:+ SocketPath site >>];
   Block << "location"; "~"; "/\." >> [dir << "deny"; "all" >>]]).

Definition acme_item : item :=
  Block << "location"; "^~"; "/.well-known/acme-challenge/" >>
    [dir << "root"; "/srv/nexa/acme" >>; dir << "auth_basic"; "off" >>].
Definition return_item (host : string) : item :=
  Block << "location"; "/" >> [dir << "return"; "301"; "https://" +:+ host +:+ "$request_uri" >>].

Definition redirect_item (route : Route) : item :=
  Block << "server" >>
    [dir << "listen"; "80" >>; dir << "listen"; "[::]:80" >>; dir << "server_name"; Hostname route >>;
     acme_item; return_item (RedirectTarget route)].

Definition http_item (site : Site) (names : list string) (e : effectiveSettings) : item :=
  Block << "server" >>
    ([dir << "listen"; "80" >>; dir << "listen"; "[::]:80" >>; dir ("server_name"%string :: names);
      dir << "add_header"; "X-Nexa-Site"; Slug site; "always" >>; acme_item] ++
     (if is_some (s_TLS site) && e_HTTPSRedirect e then [return_item (PrimaryDomain site)] else body_items site e)).

Definition https_item (site : Site) (tls : TLS) (names : list string) (e : effectiveSettings) : item :=
  Block << "server" >>
    ([dir << "listen"; "443"; "ssl" >>; dir << "listen"; "[::]:443"; "ssl" >>] ++
     when (e_HTTP2 e) [dir << "http2"; "on" >>] ++
     when (e_HTTP3 e) [dir << "listen"; "443"; "quic" >>; dir << "listen"; "[::]:443"; "quic" >>; dir << "http3"; "on" >>]%list ++
     [dir ("server_name"%string :: names);
      dir << "add_header"; "X-Nexa-Site"; Slug site; "always" >>;
      dir << "ssl_certificate"; CertificatePath tls >>;
      dir << "ssl_certificate_key"; PrivateKeyPath tls >>;
      dir << "ssl_protocols"; "TLSv1.2"; "TLSv1.3" >>] ++
     when (e_HSTS e) [dir << "add_header"; "Strict-Transport-Security"; HSTSHeaderValue e; "always" >>] ++
     when (e_HTTP3 e)
       [dir << "add_header"; "Alt-Svc"; "h3=" +:+ quoted ":443" +:+ "; ma=86400"; "always" >>] ++
     body_items site e).

Definition vhost_items (site : Site) (includesRoot : string) : list item :=
  let e := effective site includesRoot in
  (redirect_item <$> filter (fun r => Kind r = "redirect"%string) (Routes site)) ++
  [http_item site (PrimaryDomain site :: served_routes site) e] ++
  match s_TLS site with
  | Some tls => [https_item site tls (match TLSDomains site with [] => [PrimaryDomain site] | l => l end) e]
  | None => []
  end.

(** ** Lines *)
Lemma lines_cons x l : lines (x :: l) = line x +:+ lines l.
Proof.
  unfold lines. rewrite fmap_cons. destruct (line <$> l) as [|y r]; cbn [String.concat]; [by rewrite str_app_nil_r|done].
Qed.
Lemma lines_app a b : lines (a ++ b) = lines a +:+ lines b.
Proof. induction a as [|x a IH]; simpl; [done|]. by rewrite !lines_cons, IH, str_app_assoc. Qed.

Lemma reads_lines_app a b ts us : reads (lines a) ts -> reads (lines b) us -> reads (lines (a ++ b)) (ts ++ us).
Proof. rewrite lines_app. apply reads_app. Qed.
Lemma reads_lines_cons x l ts us : reads (line x) ts -> reads (lines l) us -> reads (lines (x :: l)) (ts ++ us).
Proof. rewrite lines_cons. apply reads_app. Qed.
Lemma reads_lines_last x ts : reads (line x) ts -> reads (lines [x]) ts.
Proof. rewrite lines_cons, str_app_nil_r. done. Qed.
Lemma reads_when b l items :
  reads (lines l) (tokens items) -> reads (lines (when b l)) (tokens (when b items)).
Proof. by destruct b. Qed.
Lemma reads_blank l ts : reads (lines l) ts -> reads (lines (EmptyString :: l)) ts.
Proof. rewrite lines_cons. apply (reads_app _ _ [] ts). done. Qed.

Lemma scan_result m s m' es es' : scan m s = Some (m', es) -> es = es' -> scan m s = Some (m', es').
Proof. by intros ? <-. Qed.

(** Scan a line: its literal parts by computation, its holes by hypothesis. *)
Ltac scan_hole :=
  first [ apply scan_plain_word; [by auto|by auto with sites]
        | apply scan_plain_text; by auto with sites
        | apply scan_quoted_word; by auto with sites ].
Ltac scan_segments :=
  lazymatch goal with
  | |- scan _ (_ +:+ _) = _ => eapply scan_app; [first [scan_hole | reflexivity] | scan_segments]
  | |- _ => first [scan_hole | reflexivity]
  end.
Ltac read_line :=
  unfold reads, line; rewrite ?str_app_assoc;
  eapply scan_result; [scan_segments|];
  unfold events; simpl; rewrite ?bytes_of_app, ?app_nil_r, <-?(assoc_L (++)); simpl; reflexivity.

Ltac read_lines :=
  unfold reads; rewrite ?lines_cons; unfold line; rewrite ?str_app_assoc;
  eapply scan_result; [scan_segments|];
  unfold events; simpl; rewrite ?bytes_of_app, ?app_nil_r, <-?(assoc_L (++)); simpl; reflexivity.

Create HintDb sites discriminated.

(** ** The parts of the template *)
Section vhost.
Context (site : Site) (e : effectiveSettings).

(** The values are plain words. *)
Record fillings := mk_fillings {
  fill_root : plain_word (DocRoot e);
  fill_symlink : plain_text (SymlinkFrom e);
  fill_index_eq : e_IndexFiles e = join " " (indexFilesOr (IndexFiles (s_Settings site)));
  fill_index : Forall plain_word (indexFilesOr (IndexFiles (s_Settings site)));
  fill_charset : plain_text (e_Charset e);
  fill_site_root : plain_word (RootPath site);
  fill_realm : quotable (BasicAuthRealm e);
  fill_htpasswd : e_BasicAuth e = true -> plain_word (HtpasswdPath e);
  fill_zone : plain_text (RateZone e);
  fill_override : plain_word (OverrideGlob e);
  fill_front : plain_text (FrontController e);
  fill_socket : plain_text (SocketPath site);
  fill_slug : plain_word (Slug site);
  fill_domain : plain_text (PrimaryDomain site);
  fill_hsts : quotable (HSTSHeaderValue e);
}.
End vhost.

Lemma itoa_bytes (p : ascii -> bool) z :
  (forall c, is_digit c = true -> p c = true) -> p "-"%char = true -> all_bytes p (itoa z) = true.
Proof.
  intros Hd Hm. assert (Hp : forall n, all_bytes p (pretty_N_go n EmptyString) = true).
  { intros n. eapply all_bytes_impl; [exact Hd|]. by apply pretty_N_go_digits. }
  unfold itoa. destruct z as [|q|q]; [simpl; by rewrite Hd|by apply (Hp (Npos q))|].
  change (pretty (Zneg q)) with (String "-" (pretty_N_go (Npos q) EmptyString)). cbn [all_bytes]. by rewrite Hm, Hp.
Qed.

Lemma plain_itoa z : plain_word (itoa z).
Proof.
  split; [|apply itoa_nonempty]. apply itoa_bytes; [|done]. apply forall_ascii. by vm_compute.
Qed.
#[export] Hint Resolve plain_itoa : sites.
Lemma plain_word_text s : plain_word s -> plain_text s.
Proof. by intros [? _]. Qed.
#[export] Hint Resolve plain_word_text | 5 : sites.

Section body.
Context (site : Site) (e : effectiveSettings) (F : fillings site e).

Let Hroot := fill_root _ _ F.
Let Hsym := fill_symlink _ _ F.
Let Hcharset := fill_charset _ _ F.
Let Hsite := fill_site_root _ _ F.
Let Hrealm := fill_realm _ _ F.
Let Hzone := fill_zone _ _ F.
Let Hover := fill_override _ _ F.
Let Hfront := fill_front _ _ F.
Let Hsock := fill_socket _ _ F.

Lemma reads_words head ws :
  plain_word head -> Forall plain_word ws -> ws <> [] ->
  reads (line ("    " +:+ head +:+ " " +:+ join " " ws +:+ ";")) (tokens [dir (head :: ws)]).
Proof.
  intros Hh Hws Hne. unfold reads, line. rewrite !str_app_assoc.
  eapply scan_result.
  - eapply scan_app; [reflexivity|]. eapply scan_app; [apply scan_plain_word; [by left|done]|].
    eapply scan_app; [reflexivity|]. rewrite <-str_app_assoc. eapply scan_app; [by apply scan_words|reflexivity].
  - unfold events, tokens. cbn. by rewrite !app_nil_r, <-!(assoc_L (++)).
Qed.

Lemma reads_body_head :
  reads (lines ["    root " +:+ DocRoot e +:+ ";"; "    index " +:+ e_IndexFiles e +:+ ";"])
        (tokens [dir << "root"; DocRoot e >>; dir ("index"%string :: indexFilesOr (IndexFiles (s_Settings site)))]).
Proof.
  rewrite tokens_cons. apply reads_lines_cons; [read_line|]. apply reads_lines_last.
  rewrite (fill_index_eq _ _ F). apply (reads_words "index"); [done|by apply fill_index with e|].
  unfold indexFilesOr. by destruct (IndexFiles _).
Qed.

Lemma reads_body_fixed :
  reads (lines ["    disable_symlinks if_not_owner from=" +:+ SymlinkFrom e +:+ ";";
     "    client_max_body_size " +:+ itoa (e_ClientMaxBodyMB e) +:+ "m;";
     "    add_header X-Content-Type-Options nosniff always;"%string;
     "    add_header X-Frame-Options SAMEORIGIN always;"%string;
     "    add_header Referrer-Policy strict-origin-when-cross-origin always;"%string])
  (tokens [dir << "disable_symlinks"; "if_not_owner"; "from=" +:+ SymlinkFrom e >>;
    dir << "client_max_body_size"; itoa (e_ClientMaxBodyMB e) +:+ "m" >>;
    dir << "add_header"; "X-Content-Type-Options"; "nosniff"; "always" >>;
    dir << "add_header"; "X-Frame-Options"; "SAMEORIGIN"; "always" >>;
    dir << "add_header"; "Referrer-Policy"; "strict-origin-when-cross-origin"; "always" >>]).
Proof. read_lines. Qed.

Lemma reads_charset :
  reads (lines (when (negb (String.eqb (e_Charset e) EmptyString)) ["    charset " +:+ e_Charset e +:+ ";"]))
    (tokens (when (negb (String.eqb (e_Charset e) EmptyString)) [dir << "charset"; e_Charset e >>])).
Proof.
  destruct (String.eqb_spec (e_Charset e) EmptyString) as [_|Hne]; [done|].
  assert (plain_word (e_Charset e)) by by split. cbn [negb when]. read_lines.
Qed.

Lemma reads_logs :
  reads (lines ((if e_AccessLog e then ["    access_log " +:+ RootPath site +:+ "/logs/access.log;"]
                 else ["    access_log off;"%string]) ++
                when (e_ErrorLog e) ["    error_log " +:+ RootPath site +:+ "/logs/error.log;"]))
    (tokens ([dir << "access_log"; if e_AccessLog e then RootPath site +:+ "/logs/access.log" else "off" >>] ++
             when (e_ErrorLog e) [dir << "error_log"; RootPath site +:+ "/logs/error.log" >>])).
Proof.
  rewrite tokens_app. apply reads_lines_app; [destruct (e_AccessLog e); read_lines|].
  apply reads_when. read_lines.
Qed.

Lemma reads_gzip :
  reads (lines
      ["    gzip on;"%string;
       "    gzip_vary on;"%string;
       "    gzip_proxied any;"%string;
       "    gzip_comp_level " +:+ itoa (e_GzipLevel e) +:+ ";";
       "    gzip_min_length 256;"%string;
       "    gzip_types text/plain text/css application/json application/javascript text/xml application/xml application/xml+rss text/javascript image/svg+xml;"%string])
    (tokens
    [dir << "gzip"; "on" >>; dir << "gzip_vary"; "on" >>; dir << "gzip_proxied"; "any" >>;
     dir << "gzip_comp_level"; itoa (e_GzipLevel e) >>; dir << "gzip_min_length"; "256" >>;
     dir << "gzip_types"; "text/plain"; "text/css"; "application/json"; "application/javascript"; "text/xml";
          "application/xml"; "application/xml+rss"; "text/javascript"; "image/svg+xml" >>]).
Proof. read_lines. Qed.

Lemma reads_protection :
  reads (lines (when (e_BasicAuth e)
      ["    auth_basic " +:+ quoted (BasicAuthRealm e) +:+ ";";
       "    auth_basic_user_file " +:+ HtpasswdPath e +:+ ";"] ++
    when (e_RateLimit e)
      ["    limit_req zone=" +:+ RateZone e +:+ " burst=" +:+ itoa (RateBurst e) +:+ " nodelay;"]))
   (tokens (when (e_BasicAuth e)
    [dir << "auth_basic"; BasicAuthRealm e >>; dir << "auth_basic_user_file"; HtpasswdPath e >>] ++
  when (e_RateLimit e)
    [dir << "limit_req"; "zone=" +:+ RateZone e; "burst=" +:+ itoa (RateBurst e); "nodelay" >>])).
Proof.
  rewrite tokens_app. apply reads_lines_app; [|apply reads_when; read_lines].
  destruct (e_BasicAuth e) eqn:Hb; [|done]. pose proof (fill_htpasswd _ _ F Hb). cbn [when]. read_lines.
Qed.

Lemma reads_locations :
  reads (lines (
    ["    include " +:+ OverrideGlob e +:+ ";";
     EmptyString;
     "    location ~* \.(?:css|js|mjs|jpg|jpeg|png|gif|ico|svg|webp|avif|woff2?|ttf|eot|map)$ {"%string] ++
    when (StaticCache e) ["        expires " +:+ itoa (ExpiresDays e) +:+ "d;"] ++
    ["        access_log off;"%string;
     "        try_files $uri =404;"%string;
     "    }"%string;
     EmptyString;
     "    location / {"%string;
     "        try_files $uri $uri/ /" +:+ FrontController e +:+ "?$query_string;";
     "    }"%string;
     EmptyString;
     "    location ~ \.php$ {"%string;
     "        try_files $uri =404;"%string;
     "        include fastcgi_params;"%string;
     "        fastcgi_param SCRIPT_FILENAME $document_root$fastcgi_script_name;"%string;
     "        fastcgi_pass unix:" +:+ SocketPath site +:+ ";";
     "    }"%string;
     EmptyString;
     "    location ~ /\. {"%string;
     "        deny all;"%string]) +:+ "    }")
  (tokens
  [dir << "include"; OverrideGlob e >>;
   Block << "location"; "~*"; "\.(?:css|js|mjs|jpg|jpeg|png|gif|ico|svg|webp|avif|woff2?|ttf|eot|map)$" >>
     (when (StaticCache e) [dir << "expires"; itoa (ExpiresDays e) +:+ "d" >>] ++
      [dir << "access_log"; "off" >>; dir << "try_files"; "$uri"; "=404" >>]);
   Block << "location"; "/" >>
     [dir << "try_files"; "$uri"; "$uri/"; "/" +:+ FrontController e +:+ "?$query_string" >>];
   Block << "location"; "~"; "\.php$" >>
     [dir << "try_files"; "$uri"; "=404" >>; dir << "include"; "fastcgi_params" >>;
      dir << "fastcgi_param"; "SCRIPT_FILENAME"; "$document_root$fastcgi_script_name" >>;
      dir << "fastcgi_pass"; "unix:" +:+ SocketPath site >>];
   Block << "location"; "~"; "/\." >> [dir << "deny"; "all" >>]]).
Proof. destruct (StaticCache e); cbn [when app]; read_lines. Qed.

Lemma reads_vhost_body : reads (vhost_body site e) (tokens (body_items site e)).
Proof.
  unfold vhost_body. apply (reads_app (String newline EmptyString) _ [] (tokens (body_items site e))); [done|].
  assert (Hcut : forall A B : list string, forall s I J,
    reads (lines A) (tokens I) -> reads (lines B +:+ s) (tokens J) -> reads (lines (A ++ B) +:+ s) (tokens (I ++ J))).
  { intros A B s I J HA HB. rewrite lines_app, str_app_assoc, tokens_app. by apply reads_app. }
  unfold body_items. apply Hcut.
  { match goal with |- reads (lines (?a :: ?b :: ?l)) (tokens (?i :: ?j :: ?m)) =>
      change (reads (lines ([a; b] ++ l)) (tokens ([i; j] ++ m))) end.
    rewrite tokens_app. apply reads_lines_app; [apply reads_body_head|apply reads_body_fixed]. }
  apply Hcut; [apply reads_charset|].
  rewrite (assoc_L (++) (if e_AccessLog e then _ else _)), (assoc_L (++) [dir << "access_log"; _ >>]).
  apply Hcut; [apply reads_logs|].
  apply Hcut; [apply reads_when, reads_gzip|].
  rewrite !(assoc_L (++) (when (e_BasicAuth e) _)).
  apply Hcut; [apply reads_protection|]. apply reads_locations.
Qed.
End body.

(** ** Servers *)
Lemma tokens_block ws body :
  tokens [Block ws body] = ((Word <$> ws) ++ [OpenBrace]) ++ tokens body ++ [CloseBrace].
Proof. unfold tokens. simpl. by rewrite app_nil_r, <-(assoc_L (++)). Qed.

Lemma reads_redirect_server route :
  plain_word (Hostname route) -> plain_text (RedirectTarget route) ->
  reads (redirect_server route) (tokens [redirect_item route]).
Proof. intros Hh Ht. unfold redirect_server, acme_location. read_lines. Qed.

Section servers.
Context (site : Site) (e : effectiveSettings) (F : fillings site e).
Context (names : list string) (Hnames : Forall plain_word names) (Hnonempty : names <> []).

Let Hslug := fill_slug _ _ F.
Let Hdomain := fill_domain _ _ F.
Let Hhsts := fill_hsts _ _ F.

Lemma reads_names : reads (line ("    server_name " +:+ join " " names +:+ ";")) (tokens [dir ("server_name"%string :: names)]).
Proof. by apply (reads_words "server_name"). Qed.

Lemma reads_slug_header :
  reads (line ("    add_header X-Nexa-Site " +:+ Slug site +:+ " always;"))
    (tokens [dir << "add_header"; "X-Nexa-Site"; Slug site; "always" >>]).
Proof. read_line. Qed.

Lemma reads_http_server : reads (http_server site (join " " names) e) (tokens [http_item site names e]).
Proof.
  unfold http_server, http_item. rewrite tokens_block, !lines_cons.
  rewrite !str_app_assoc. apply reads_app; [by vm_compute|].
  rewrite <-(app_nil_l (tokens _ ++ _)).
  change (dir << "listen"; "80" >> :: dir << "listen"; "[::]:80" >> :: dir (?h :: names) :: ?s :: ?l) with
    ([dir << "listen"; "80" >>; dir << "listen"; "[::]:80" >>] ++ [dir (h :: names)] ++ [s] ++ l).
  rewrite <-!(assoc_L (++)), !tokens_app, <-!(assoc_L (++)), app_nil_l.
  rewrite <-(str_app_assoc (line _)). apply reads_app; [by vm_compute|].
  apply reads_app; [apply reads_names|]. apply reads_app; [apply reads_slug_header|].
  apply reads_app; [by vm_compute|]. apply (reads_app (lines []) _ [] (tokens _ ++ _)); [done|].
  apply reads_app; [|by vm_compute]. destruct (is_some (s_TLS site) && e_HTTPSRedirect e).
  - unfold return_item. read_line.
  - rewrite <-(app_nil_r (tokens _)). apply reads_app; [by apply reads_vhost_body|done].
Qed.

Lemma reads_https_server tls :
  plain_word (CertificatePath tls) -> plain_word (PrivateKeyPath tls) ->
  reads (https_server site tls (join " " names) e) (tokens [https_item site tls names e]).
Proof.
  intros Hc Hk. unfold https_server, https_item.
  rewrite tokens_block, !lines_app, !str_app_assoc.
  rewrite !tokens_app, <-!(assoc_L (++)).
  rewrite (assoc_L (++) [OpenBrace]), (assoc_L (++) (Word <$> _)).
  apply reads_app; [by vm_compute|].
  apply reads_app; [by apply reads_when; vm_compute|].
  apply reads_app; [by apply reads_when; vm_compute|].
  apply reads_app.
  { rewrite !tokens_cons. rewrite lines_cons. apply (reads_app _ _ (item_tokens _)).
    - pose proof reads_names as H. unfold tokens in H. simpl flat_map in H. by rewrite app_nil_r in H.
    - read_lines. }
  apply reads_app; [apply reads_when; read_lines|].
  apply reads_app; [by apply reads_when; vm_compute|].
  rewrite lines_cons. unfold line. rewrite str_app_assoc.
  apply reads_app; [by apply reads_vhost_body|]. by vm_compute.
Qed.
End servers.
