(* ===== verification/SiteChecks.v ===== *)
(** * What validation establishes

    Inversion of [validate] and [validateSettings], the confinement of relative
    paths, and the bytes of every value a template is filled with. *)

From Stdlib Require Import Ascii.
From S2P Require Import Prelude GoStrings Regex Naming Sites SiteText SiteRender.

Local Open Scope Z_scope.

(** ** Sequences of checks *)
Lemma fail_if_ok b e : fail_if b e = Ok tt <-> b = false.
Proof. by destruct b. Qed.
Lemma seq_ok (c k : error) : (c ;;; k) = Ok tt <-> c = Ok tt /\ k = Ok tt.
Proof. destruct c as [[]|]; naive_solver. Qed.

Ltac checks H :=
  repeat rewrite seq_ok in H; repeat rewrite fail_if_ok in H;
  repeat rewrite ?orb_false_iff, ?negb_false_iff, ?andb_true_iff in H; destruct_and? H.

Lemma member_true s l : member s l = true <-> s ∈ l.
Proof.
  unfold member. rewrite existsb_exists. split.
  - by intros (x & Hx%list_elem_of_In & ->%String.eqb_eq).
  - intros Hs. exists s. by rewrite <-list_elem_of_In, String.eqb_refl.
Qed.

(** ** Bytes of paths *)
Section bytes.
Context (p : ascii -> bool) (Hslash : p "/"%char = true) (Hdot : p "."%char = true).
Let ok s := all_bytes p s = true.

Lemma split_bytes c s : ok s -> Forall ok (split c s).
Proof.
  unfold ok. induction s as [|d s IH]; simpl; [by repeat constructor|].
  intros [Hd Hs]%andb_prop. specialize (IH Hs). destruct (Ascii.eqb c d); [by constructor|].
  destruct IH as [|h r Hh Hr]; constructor; simpl; rewrite ?Hd, ?Hh; auto.
Qed.

Lemma join_words sep l : ok sep -> Forall ok l -> ok (join sep l).
Proof.
  intros Hsep. induction 1 as [|x l Hx Hl IH]; [done|]. unfold ok in *. destruct l as [|y l]; [done|].
  change (join sep (x :: y :: l)) with (x +:+ sep +:+ join sep (y :: l)).
  by rewrite !all_bytes_app, Hx, Hsep, IH.
Qed.

Lemma join_bytes l : Forall ok l -> ok (join "/" l).
Proof. apply join_words. unfold ok. simpl. by rewrite Hslash. Qed.

Lemma clean_components_bytes rooted comps : forall stack, Forall ok stack -> Forall ok comps ->
  Forall ok (clean_components rooted stack comps).
Proof.
  induction comps as [|c comps IH]; intros stack Hs Hc; cbn [clean_components].
  - by apply Forall_rev.
  - inversion Hc; subst. repeat case_match; try (by apply IH; [|done]; repeat constructor); inversion Hs; subst; auto.
Qed.

Lemma path_clean_bytes s : ok s -> ok (path_clean s).
Proof.
  intros Hs. unfold path_clean.
  assert (Hj : ok (join "/" (clean_components (has_prefix "/" s) [] (split slash s)))).
  { by apply join_bytes, clean_components_bytes, split_bytes. }
  unfold ok in *. destruct (has_prefix "/" s); simpl; [unfold slash; by rewrite Hslash|].
  case_bool_decide; [|done]. simpl. by rewrite Hdot.
Qed.

Lemma filepath_join_bytes l : Forall ok l -> ok (filepath_join l).
Proof.
  induction 1 as [|x l Hx Hl IH]; [done|]. destruct x as [|c x]; [done|].
  apply path_clean_bytes, join_bytes. by constructor.
Qed.

Lemma replace_byte_bytes c r s : ok r -> ok s -> ok (replace_byte c r s).
Proof.
  unfold ok. intros Hr. induction s as [|d s IH]; [done|]. simpl. intros [Hd Hs]%andb_prop.
  destruct (Ascii.eqb c d); [by rewrite all_bytes_app, Hr, IH|]. simpl. by rewrite Hd, IH.
Qed.
End bytes.

Lemma path_clean_nonempty s : path_clean s <> EmptyString.
Proof. unfold path_clean. destruct (has_prefix "/" s); [done|]. by case_bool_decide. Qed.

Lemma filepath_join_nonempty l : Exists (fun x => x <> EmptyString) l -> filepath_join l <> EmptyString.
Proof.
  induction l as [|x l IH]; intros H; [by inversion H|]. destruct x as [|c x].
  - inversion H; subst; [done|auto].
  - apply path_clean_nonempty.
Qed.

Lemma filepath_join_word x l :
  x <> EmptyString -> plain_text x -> Forall plain_text l -> plain_word (filepath_join (x :: l)).
Proof.
  intros Hne Hx Hl. split.
  - apply filepath_join_bytes; [done..|]. by constructor.
  - apply filepath_join_nonempty. by constructor.
Qed.

Lemma plain_app a b : plain_text a -> plain_text b -> plain_text (a +:+ b).
Proof. unfold plain_text. rewrite all_bytes_app. by intros -> ->. Qed.
#[export] Hint Resolve plain_app : sites.

(** ** Values that pass a pattern *)
Lemma plain_slug s : ValidSiteSlug s = true -> plain_word s.
Proof.
  intros H. split; [|by apply slug_nonempty]. eapply all_bytes_impl; [|by apply slug_bytes].
  apply forall_ascii. by vm_compute.
Qed.
Lemma plain_hostname s : ValidHostname s = true -> plain_word s.
Proof.
  intros H. split; [|by apply hostname_nonempty]. eapply all_bytes_impl; [|by apply hostname_bytes].
  apply forall_ascii. by vm_compute.
Qed.
Lemma plain_version s : phpVersionSupported s = true -> plain_text s.
Proof.
  unfold phpVersionSupported. intros [H _]%andb_prop. eapply all_bytes_impl; [|by apply php_version_bytes].
  apply forall_ascii. by vm_compute.
Qed.
Lemma plain_index_name s : matches indexFileName s = true -> plain_word s.
Proof.
  intros H. split; [|by eapply matches_nonempty in H].
  revert H. apply matches_bytes, forall_ascii. by vm_compute.
Qed.
Lemma plain_charset s : charsetSupported s = true -> plain_text s.
Proof.
  unfold charsetSupported. rewrite orb_true_iff, String.eqb_eq. intros [->|H]; [done|].
  apply existsb_exists in H as (x & Hx%list_elem_of_In & ->%String.eqb_eq). revert x Hx.
  apply Forall_forall. by repeat constructor.
Qed.

(** ** Relative paths

    An accepted value is empty or a sequence of plain segments. *)
Definition segment_ok (s : string) : Prop :=
  s <> "."%string /\ s <> ".."%string /\ matches subdirectorySegment s = true.

Lemma segment_bytes s : matches subdirectorySegment s = true -> s <> EmptyString /\ all_bytes segment_byte s = true.
Proof. unfold subdirectorySegment. by rewrite matches_spec, in_plus_class. Qed.

Lemma relativePath_ok label value base :
  relativePath label value base = Ok tt ->
  value = EmptyString \/
  (Forall segment_ok (split "/" value) /\ (length (split "/" value) <= 8)%nat /\ len value <= 128 /\
   has_prefix "/" value = false).
Proof.
  unfold relativePath. destruct (String.eqb_spec value EmptyString) as [->|Hne]; [by left|]. intros H. right.
  rewrite !seq_ok, !fail_if_ok in H. destruct H as (Hlen & _ & Hrel & _ & Hn & Hloop).
  split_and!; [|lia..|done]. revert Hloop. clear. induction (split "/" value) as [|s l IH]; intros H; [constructor|].
  rewrite !seq_ok, !fail_if_ok in H. destruct H as (Hdots & Hseg & Hrest).
  apply orb_false_iff in Hdots as [H1%String.eqb_neq H2%String.eqb_neq]. constructor; [|auto].
  split_and!; [done..|by destruct (matches _ s)].
Qed.

Lemma split_bytes_inv p c s : p c = true -> Forall (fun x => all_bytes p x = true) (split c s) -> all_bytes p s = true.
Proof.
  intros Hc. induction s as [|d s IH]; [done|]. cbn [split all_bytes].
  destruct (Ascii.eqb_spec c d) as [->|Hne]; [intros H; inversion H; subst; rewrite Hc; auto|].
  destruct (split c s) as [|h r]; intros H; inversion H as [|? ? Hh Hr]; subst.
  - simpl in Hh. rewrite andb_true_r in Hh. rewrite Hh. by apply IH.
  - cbn [all_bytes] in Hh. apply andb_prop in Hh as [-> Hh]. apply IH. by constructor.
Qed.

Lemma plain_relative label value base : relativePath label value base = Ok tt -> plain_text value.
Proof.
  intros [->|(H & _)]%relativePath_ok; [done|]. apply (split_bytes_inv _ "/"); [done|].
  eapply Forall_impl; [exact H|]. intros x (_ & _ & Hx). apply segment_bytes in Hx as [_ Hx].
  eapply all_bytes_impl; [|exact Hx]. apply forall_ascii. by vm_compute.
Qed.

(** ** Settings *)
Lemma index_names_ok seen files :
  index_file_names seen files = Ok tt ->
  Forall (fun n => matches indexFileName n = true /\ len n <= 64) files /\ NoDup files /\ Forall (fun n => n ∉ seen) files.
Proof.
  revert seen. induction files as [|n files IH]; intros seen; [repeat constructor|]. cbn [index_file_names].
  rewrite !seq_ok, !fail_if_ok. intros (_ & Hl & Hm & Hs & (Hf & Hn & Hd)%IH).
  apply bool_decide_eq_false in Hs. apply negb_false_iff in Hm. split_and!.
  - constructor; [|done]. split; [done|lia].
  - constructor; [|done]. intros Hin. rewrite Forall_forall in Hd. specialize (Hd n Hin). set_solver.
  - constructor; [done|]. eapply Forall_impl; [exact Hd|]. set_solver.
Qed.

Record settings_fine (s : Settings) : Prop := mk_settings_fine {
  sf_subdirectory : relativePath "subdirectory" (Subdirectory s) "the site's public directory" = Ok tt;
  sf_working : relativePath "working subdirectory" (WorkingDirectory s) "the site root" = Ok tt;
  sf_index : Forall (fun n => matches indexFileName n = true /\ len n <= 64) (IndexFiles s) /\ NoDup (IndexFiles s);
  sf_index_count : Z.of_nat (length (IndexFiles s)) <= maxIndexFiles;
  sf_charset : charsetSupported (Charset s) = true;
  sf_realm : quotable (Realm (s_BasicAuth s));
  sf_mode : PMMode s ∈ [EmptyString; "ondemand"; "dynamic"; "static"]%string;
  sf_children : PMMaxChildren s = 0 \/ 1 <= PMMaxChildren s <= 1024;
  sf_requests : 0 <= intOr (PMMaxRequests s) defaultFPMMaxRequests <= 100000;
  sf_secret : ba_Enabled (s_BasicAuth s) = true ->
    matches htpasswdLine (Username (s_BasicAuth s) +:+ ":" +:+ PasswordHash (s_BasicAuth s)) = true;
  sf_username : ba_Enabled (s_BasicAuth s) = true -> matches usernamePattern (Username (s_BasicAuth s)) = true;
  sf_frequency : Frequency (s_LogRotation s) ∈ [EmptyString; "hourly"; "daily"; "weekly"]%string;
}.

Lemma unset_or lo hi z : negb (z =? 0) && outside lo hi z = false -> z = 0 \/ lo <= z <= hi.
Proof. unfold outside. destruct (Z.eqb_spec z 0), (Z.ltb_spec z lo), (Z.ltb_spec hi z); simpl; try done; lia. Qed.

Lemma validateSettings_fine s : validateSettings s = Ok tt -> settings_fine s.
Proof.
  unfold validateSettings. rewrite !seq_ok, !fail_if_ok.
  intros (Hsub & Hidx & Hwork & Hcs & _ & _ & _ & _ & Hpm & Hch & Hreq & Hrealm & Hba & _ & Hfreq & _).
  rewrite !negb_false_iff in *. split; try done.
  - unfold validateIndexFiles in Hidx. destruct (IndexFiles s) as [|n l]; [by repeat constructor|].
    rewrite seq_ok in Hidx. destruct Hidx as [_ (Hf & Hn & _)%index_names_ok]. done.
  - unfold validateIndexFiles in Hidx. destruct (IndexFiles s) as [|n l]; [done|].
    rewrite seq_ok, fail_if_ok in Hidx. destruct Hidx as [Hl _]. lia.
  - unfold isPrintableRealm in Hrealm. by apply andb_prop in Hrealm as [_ Hrealm].
  - by apply member_true.
  - by apply unset_or.
  - unfold set_outside, outside in Hreq. unfold intOr, defaultFPMMaxRequests.
    destruct (PMMaxRequests s) as [n|]; simpl; [|lia]. apply orb_false_iff in Hreq. lia.
  - intros Hb. rewrite Hb, seq_ok, !fail_if_ok, !negb_false_iff in Hba. by destruct Hba.
  - intros Hb. rewrite Hb, seq_ok, !fail_if_ok, !negb_false_iff in Hba. by destruct Hba.
  - by apply member_true.
Qed.

(** ** Sites *)
Definition route_fine (r : Route) : Prop :=
  ValidHostname (Hostname r) = true /\
  Kind r ∈ ["alias"; "subdomain"; "redirect"]%string /\
  (Kind r = "redirect"%string -> ValidHostname (RedirectTarget r) = true).

Lemma routes_fine seen routes : validate_routes seen routes = Ok tt ->
  Forall route_fine routes /\ NoDup (Hostname <$> routes) /\ Forall (fun h => h ∉ seen) (Hostname <$> routes).
Proof.
  revert seen. induction routes as [|r routes IH]; intros seen; [repeat constructor|]. cbn [validate_routes].
  rewrite !seq_ok, !fail_if_ok, !negb_false_iff. intros (Hh & Hs & Hk & Ht & (Hf & Hn & Hd)%IH).
  apply bool_decide_eq_false in Hs. apply member_true in Hk. rewrite fmap_cons. split_and!.
  - constructor; [|done]. split_and!; [done..|]. intros Hr. rewrite Hr in Ht. simpl in Ht.
    by rewrite fail_if_ok, negb_false_iff in Ht.
  - constructor; [|done]. intros Hin. rewrite Forall_forall in Hd. specialize (Hd _ Hin). set_solver.
  - constructor; [done|]. eapply Forall_impl; [exact Hd|]. set_solver.
Qed.

Record site_fine (r : Renderer) (site : Site) : Prop := mk_site_fine {
  f_id : SiteID site <> EmptyString;
  f_slug : ValidSiteSlug (Slug site) = true;
  f_domain : ValidHostname (PrimaryDomain site) = true;
  f_version : phpVersionSupported (PHPVersion site) = true;
  f_mode : DeploymentMode site ∈ [EmptyString; standardMode; deployerMode];
  f_retired : RetiredPHPVersion site = EmptyString \/ phpVersionSupported (RetiredPHPVersion site) = true;
  f_user : UnixUser site = SiteUnixUser (Slug site);
  f_root : path_clean (RootPath site) = filepath_join [or_default (SiteRoot r) "/srv/nexa/sites"; Slug site];
  f_socket : path_clean (SocketPath site) =
    filepath_join [or_default (SocketRoot r) "/run/php"; "nexa-" +:+ Slug site +:+ ".sock"];
  f_routes : Forall route_fine (Routes site) /\ NoDup (PrimaryDomain site :: (Hostname <$> Routes site));
  f_tls : validate_tls site = Ok tt;
  f_settings : settings_fine (s_Settings site);
}.

Lemma validate_fine r site : validate r site = Ok tt -> site_fine r site.
Proof.
  unfold validate. rewrite !seq_ok, !fail_if_ok, !negb_false_iff, !orb_false_iff, !negb_false_iff.
  intros ((((Hid & Hslug) & Hdom) & Hver) & Hmode & Hret & Huser & Hpaths & Hroutes & Htls & Hset).
  apply andb_prop in Hpaths as [Hroot%String.eqb_eq Hsock%String.eqb_eq].
  apply routes_fine in Hroutes as (Hf & Hn & Hd). split; try done.
  - by apply String.eqb_neq.
  - by apply member_true.
  - destruct (String.eqb_spec (RetiredPHPVersion site) EmptyString); [by left|right]. simpl in Hret. by apply negb_false_iff.
  - by apply String.eqb_eq.
  - split; [done|]. constructor; [|done]. intros Hin. rewrite Forall_forall in Hd. specialize (Hd _ Hin). set_solver.
  - by apply validateSettings_fine.
Qed.

Lemma Render_fine r site artifacts retired :
  Render r site = Ok (artifacts, retired) ->
  site_fine r site /\ artifacts = rendered_artifacts r site /\ retired = retired_paths r site.
Proof.
  unfold Render. destruct (validate r site) as [[]|] eqn:Hv; [|done]. intros H.
  injection H as <- <-. auto using validate_fine.
Qed.
