(* ===== verification/SiteProps.v ===== *)
(** * Properties of rendered sites

    What a valid site renders to: a vhost that says exactly what the template means
    it to say, a pool file likewise, a document root inside the site, and paths
    that belong to the site's slug alone. *)

From Stdlib Require Import Ascii.
From S2P Require Import Prelude GoStrings Paths Regex Naming Sites SiteText SiteRender SiteChecks.

Local Open Scope Z_scope.

(** The roots an agent is configured with contain no special byte. *)
Definition plain_roots (r : Renderer) : Prop :=
  plain_text (NginxAvailableRoot r) /\ plain_text (PHPConfigRoot r) /\ plain_text (SiteRoot r) /\
  plain_text (SocketRoot r) /\ plain_text (NginxConfDRoot r) /\ plain_text (NginxIncludesRoot r) /\
  plain_text (LogrotateRoot r).

(** The paths a site carries are clean, as the control panel derives them. *)
Definition canonical (site : Site) : Prop :=
  path_clean (RootPath site) = RootPath site /\ path_clean (SocketPath site) = SocketPath site /\
  (forall tls, s_TLS site = Some tls ->
     path_clean (CertificatePath tls) = CertificatePath tls /\ path_clean (PrivateKeyPath tls) = PrivateKeyPath tls).

Definition includes_root (r : Renderer) : string := or_default (NginxIncludesRoot r) "/etc/nginx/nexa-includes".

Lemma plain_default s d : plain_text s -> plain_word d -> plain_word (or_default s d).
Proof. unfold or_default. destruct (String.eqb_spec s EmptyString); [done|]. by split. Qed.

Section fine.
Context (r : Renderer) (site : Site) (Hroots : plain_roots r) (Hcan : canonical site) (Hfine : site_fine r site).

Let Hslug := plain_slug _ (f_slug _ _ Hfine).
Let Hset := f_settings _ _ Hfine.

Lemma plain_named suffix : plain_text suffix -> plain_text ("nexa-" +:+ Slug site +:+ suffix).
Proof. intros Hs. apply plain_app; [done|]. apply plain_app; [by apply Hslug|done]. Qed.

Lemma plain_root : plain_word (RootPath site).
Proof.
  destruct Hcan as [<- _]. rewrite (f_root _ _ Hfine). destruct Hroots as (_ & _ & H & _).
  destruct (plain_default (SiteRoot r) "/srv/nexa/sites" H) as [Hp Hn]; [by split|].
  apply filepath_join_word; [done..|]. repeat constructor. by apply plain_word_text.
Qed.

Lemma plain_socket : plain_text (SocketPath site).
Proof.
  destruct Hcan as (_ & <- & _). rewrite (f_socket _ _ Hfine). destruct Hroots as (_ & _ & _ & H & _).
  destruct (plain_default (SocketRoot r) "/run/php" H) as [Hp Hn]; [by split|].
  apply plain_word_text, filepath_join_word; [done..|]. repeat constructor. by apply plain_named.
Qed.

Lemma plain_document_root : plain_word (documentRoot site) /\ plain_word (symlinkFrom site).
Proof.
  destruct plain_root as [Hp Hn].
  assert (Hrel : plain_word (releaseRoot site)) by (apply filepath_join_word; [done..|by repeat constructor]).
  assert (Hdoc : plain_word (documentRoot site)).
  { unfold documentRoot.
    assert (Hbase : plain_word (if deployerLayout site then filepath_join [releaseRoot site; "current"; "public"]%string
      else filepath_join [RootPath site; "public"%string])).
    { destruct Hrel. destruct (deployerLayout site); apply filepath_join_word; try done; by repeat constructor. }
    destruct (String.eqb_spec (Subdirectory (s_Settings site)) EmptyString); [done|].
    destruct Hbase. apply filepath_join_word; [done..|]. repeat constructor.
    by eapply plain_relative, sf_subdirectory. }
  split; [done|]. unfold symlinkFrom. by destruct (deployerLayout site).
Qed.

Lemma plain_indexes : Forall plain_word (indexFilesOr (IndexFiles (s_Settings site))).
Proof.
  pose proof (proj1 (sf_index _ Hset)) as H. unfold indexFilesOr.
  destruct (IndexFiles _) as [|n l]; [by repeat constructor|].
  eapply Forall_impl; [exact H|]. intros x [Hx _]. by apply plain_index_name.
Qed.

Lemma plain_front : plain_text (frontController (IndexFiles (s_Settings site))).
Proof.
  unfold frontController. destruct (List.find _ _) as [n|] eqn:Hf; [|done].
  apply List.find_some in Hf as [Hn%list_elem_of_In _]. simpl.
  pose proof plain_indexes as H. rewrite Forall_forall in H. by apply H.
Qed.

Lemma plain_zone : plain_text (rateZone (Slug site)).
Proof.
  apply plain_app; [done|]. apply replace_byte_bytes; [done|by apply Hslug].
Qed.

Lemma plain_site_file root suffix :
  plain_word root -> plain_text suffix -> plain_word (site_file root site suffix).
Proof.
  intros [Hp Hn] Hs. apply filepath_join_word; [done..|]. repeat constructor.
  by apply plain_named.
Qed.

Lemma site_fillings : fillings site (effective site (includes_root r)).
Proof.
  destruct Hroots as (_ & _ & _ & _ & _ & Hinc & _).
  assert (Hi : plain_word (includes_root r)) by (apply plain_default; [done|by split]).
  destruct plain_document_root as [Hdoc Hsym].
  split; cbn [DocRoot SymlinkFrom e_IndexFiles e_Charset BasicAuthRealm HtpasswdPath e_BasicAuth RateZone OverrideGlob
    FrontController HSTSHeaderValue effective].
  - done.
  - by apply plain_word_text.
  - done.
  - apply plain_indexes.
  - by apply plain_charset, sf_charset.
  - apply plain_root.
  - destruct (ba_Enabled _); [|done]. unfold or_default. destruct (String.eqb _ _); [done|]. by apply sf_realm.
  - intros ->. by apply plain_site_file.
  - destruct (rl_Enabled _); [apply plain_zone|done].
  - destruct Hi. apply filepath_join_word; [done..|]. repeat constructor. by apply plain_named.
  - apply plain_front.
  - apply plain_socket.
  - done.
  - apply plain_word_text, plain_hostname, Hfine.
  - destruct (HSTS _); [|done]. unfold quotable. rewrite !all_bytes_app.
    rewrite itoa_bytes; [done| |done]. apply forall_ascii. by vm_compute.
Qed.

Lemma served_plain : Forall plain_word (PrimaryDomain site :: served_routes site).
Proof.
  constructor; [by apply plain_hostname, Hfine|]. unfold served_routes. rewrite Forall_fmap, Forall_forall.
  intros x [_ Hx]%list_elem_of_filter. destruct (f_routes _ _ Hfine) as [Hr _]. rewrite Forall_forall in Hr.
  destruct (Hr x Hx) as [Hh _]. by apply plain_hostname.
Qed.

Lemma tls_fine tls : s_TLS site = Some tls ->
  plain_word (CertificatePath tls) /\ plain_word (PrivateKeyPath tls) /\ Forall plain_word (TLSDomains site).
Proof.
  intros Ht. pose proof (f_tls _ _ Hfine) as H. unfold validate_tls in H. rewrite Ht, seq_ok, !fail_if_ok in H.
  destruct H as [Hp%negb_false_iff Hd%negb_false_iff].
  apply andb_prop in Hp as [Hc%String.eqb_eq Hk%String.eqb_eq].
  destruct Hcan as (_ & _ & Hct). destruct (Hct tls Ht) as [Hc' Hk']. rewrite <-Hc', <-Hk', Hc, Hk.
  destruct (filepath_join_word "/etc/letsencrypt/live" [PrimaryDomain site]) as [Hl Hn]; [done..| |].
  { repeat constructor. by apply plain_word_text, plain_hostname, Hfine. }
  split_and!; [by apply filepath_join_word; [| |repeat constructor]..|].
  rewrite Forall_forall. intros h Hh. rewrite List.forallb_forall in Hd.
  apply list_elem_of_In in Hh. specialize (Hd h Hh). apply member_true in Hd.
  pose proof served_plain as Hs. rewrite Forall_forall in Hs. by apply Hs.
Qed.

Lemma reads_redirects routes : Forall route_fine routes ->
  reads (String.concat EmptyString (redirect_server <$> filter (fun x => Kind x = "redirect"%string) routes))
    (tokens (redirect_item <$> filter (fun x => Kind x = "redirect"%string) routes)).
Proof.
  assert (Hcons : forall x l, String.concat EmptyString (x :: l) = x +:+ String.concat EmptyString l).
  { intros x [|y l]; cbn [String.concat]; [by rewrite str_app_nil_r|done]. }
  induction 1 as [|x l (Hh & _ & Ht) Hl IH]; [done|]. rewrite filter_cons. case_decide as Hk; [|done].
  rewrite !fmap_cons, Hcons. rewrite tokens_cons. apply reads_app; [|done].
  rewrite <-(app_nil_r (item_tokens _)). apply reads_redirect_server.
  - by apply plain_hostname.
  - by apply plain_word_text, plain_hostname, Ht.
Qed.

Lemma reads_vhost : reads (renderNginx site (includes_root r)) (tokens (vhost_items site (includes_root r))).
Proof.
  unfold renderNginx, vhost_items. pose proof site_fillings as F.
  apply (reads_app _ _ [] (tokens _)); [done|].
  rewrite !tokens_app. apply reads_app; [apply reads_redirects, (f_routes _ _ Hfine)|].
  apply reads_app; [apply reads_http_server; [done|apply served_plain|done]|].
  rewrite <-(app_nil_r (tokens (match s_TLS site with Some _ => _ | None => _ end))). apply reads_app; [|done].
  destruct (s_TLS site) as [tls|] eqn:Ht; [|done]. destruct (tls_fine tls Ht) as (Hc & Hk & Hd).
  apply reads_https_server; [done| | |done..].
  - destruct (TLSDomains site); [|done]. repeat constructor; apply plain_hostname, Hfine.
  - by destruct (TLSDomains site).
Qed.
End fine.

Lemma titled_when b l : forallb titled l = true -> forallb titled (when b l) = true.
Proof. by destruct b. Qed.
Lemma titled_body site e : forallb titled (body_items site e) = true.
Proof. unfold body_items. rewrite !forallb_app, !titled_when by done. simpl. by destruct (StaticCache e). Qed.
Lemma titled_vhost site root : forallb titled (vhost_items site root) = true.
Proof.
  unfold vhost_items. rewrite !forallb_app. apply andb_true_iff. split.
  - apply forallb_forall. intros x (y & <- & _)%List.in_map_iff. done.
  - apply andb_true_iff. split.
    + unfold http_item. cbn [forallb titled]. rewrite !andb_true_r. apply andb_true_iff. split; [done|].
      rewrite forallb_app. apply andb_true_iff. split; [done|].
      destruct (is_some _ && _); [done|apply titled_body].
    + destruct (s_TLS site); [|done]. unfold https_item. cbn [forallb titled].
      rewrite !andb_true_r. apply andb_true_iff. split; [done|].
      rewrite !forallb_app, titled_body. by destruct (e_HTTP2 _), (e_HTTP3 _), (e_HSTS _).
Qed.

(** ** The vhost *)

(** C19. A vhost says what it is meant to say.  The file rendered for a valid site reads
    back as the tree [vhost_items]: the template's directives in its blocks, each value
    one whole word.  No host name, path, index file, character set or realm such a site
    carries opens, closes, ends or adds a directive.  The renderer's roots are plain text
    and the site's root, socket and certificate paths are clean, as the panel derives
    them: for other paths the site can add a directive
    (site_root_check_admits_directives). *)
Theorem site_vhost_reads_back r site artifacts retired a :
  plain_roots r -> canonical site ->
  Render r site = Ok (artifacts, retired) -> a ∈ artifacts -> a_Kind a = "nginx-site"%string ->
  read_config (a_Content a) = Some (vhost_items site (includes_root r)).
Proof.
  intros Hroots Hcan (Hv & -> & _)%Render_fine Ha Hk.
  assert (a_Content a = renderNginx site (includes_root r)) as ->.
  { unfold rendered_artifacts, artifact_roots, conditionals in Ha. destruct (deployerLayout site), (rl_Enabled _), (ba_Enabled _), (lr_Enabled _);
      simpl in Ha; repeat (apply elem_of_cons in Ha as [->|Ha]; [done|]); by apply elem_of_nil in Ha. }
  apply reads_config; [by apply reads_vhost|apply titled_vhost].
Qed.

(** ** The pool file *)

(** The syntax of a pool file: comments, one section header, settings [key = value]. *)
Inductive pool_line := Section_header (name : string) | Setting (key value : string).

Definition read_pool_line (l : string) : option (list pool_line) :=
  let l := match cut ";" l with Some (a, _) => a | None => l end in
  match l with
  | EmptyString => Some []
  | String c t =>
      if Ascii.eqb "[" c then match cut "]" t with Some (name, EmptyString) => Some [Section_header name] | _ => None end
      else match cut_str " = " l with Some (k, v) => Some [Setting k v] | None => None end
  end.
Definition read_pool (s : string) : option (list pool_line) :=
  @concat _ <$> mapM read_pool_line (split newline s).

Definition pool_settings (site : Site) (d : fpmData) : list (string * string) :=
  [("user"%string, UnixUser site); ("group"%string, UnixUser site); ("listen"%string, SocketPath site);
   ("listen.owner", "www-data")%string; ("listen.group", "www-data")%string; ("listen.mode", "0660")%string;
   ("pm"%string, PM d); ("pm.max_children"%string, itoa (MaxChildren d))] ++
  when (String.eqb (PM d) "ondemand") [("pm.process_idle_timeout", "10s")%string] ++
  when (String.eqb (PM d) "dynamic")
    [("pm.start_servers"%string, itoa (StartServers d)); ("pm.min_spare_servers"%string, itoa (MinSpareServers d));
     ("pm.max_spare_servers"%string, itoa (MaxSpareServers d))] ++
  [("pm.max_requests"%string, itoa (MaxRequests d)); ("chdir"%string, ChdirPath d);
   ("catch_workers_output", "yes")%string; ("clear_env", "yes")%string;
   ("security.limit_extensions", ".php")%string;
   ("php_admin_value[error_log]"%string, RootPath site +:+ "/logs/php-error.log");
   ("php_admin_flag[log_errors]"%string, if f_ErrorLog d then "on"%string else "off"%string)].
Definition pool_items (site : Site) (d : fpmData) : list pool_line :=
  Section_header ("nexa-" +:+ Slug site) :: ((fun kv => Setting kv.1 kv.2) <$> pool_settings site d).

Definition key_byte (c : ascii) : bool := plain_byte c && negb (Ascii.eqb " " c).

Lemma cut_str_key k v : all_bytes key_byte k = true -> cut_str " = " (k +:+ " = " +:+ v) = Some (k, v).
Proof.
  induction k as [|c k IH]; [done|]. intros [Hc Hk]%andb_prop. change (String c k +:+ ?x) with (String c (k +:+ x)).
  cbn [cut_str]. rewrite IH by done. cbn [strip_prefix].
  destruct (Ascii.eqb_spec " " c) as [<-|]; [done|]. done.
Qed.

Lemma plain_no_byte c s : plain_byte c = false -> plain_text s -> any_byte (Ascii.eqb c) s = false.
Proof.
  intros Hc Hs. apply any_byte_false. eapply all_bytes_impl; [|exact Hs]. simpl. intros d Hd.
  apply negb_true_iff. destruct (Ascii.eqb_spec c d) as [->|]; [congruence|done].
Qed.

Lemma read_setting k v :
  all_bytes key_byte k = true -> first_byte (fun c => negb (Ascii.eqb "[" c)) k = true -> plain_text v ->
  read_pool_line (k +:+ " = " +:+ v) = Some [Setting k v].
Proof.
  intros Hk Hf Hv. unfold read_pool_line.
  assert (Hc : cut ";" (k +:+ " = " +:+ v) = None).
  { apply cut_None. rewrite !any_byte_app. rewrite (plain_no_byte ";" v) by done.
    rewrite (plain_no_byte ";" k); [done|done|]. eapply all_bytes_impl; [|exact Hk].
    apply forall_ascii. by vm_compute. }
  rewrite Hc. destruct k as [|c k]; [done|]. cbn [first_byte] in Hf. apply negb_true_iff in Hf.
  change (String c k +:+ " = " +:+ v) with (String c (k +:+ " = " +:+ v)). cbv iota. rewrite Hf.
  change (String c (k +:+ " = " +:+ v)) with (String c k +:+ " = " +:+ v). by rewrite cut_str_key.
Qed.

Lemma read_pool_lines l items :
  Forall2 (fun s i => read_pool_line s = Some i) l items ->
  Forall (fun s => any_byte (Ascii.eqb newline) s = false) l ->
  read_pool (lines l) = Some (concat items).
Proof.
  intros H Hn. unfold read_pool. assert (Hs : split newline (lines l) = l ++ [EmptyString]).
  { clear H. induction Hn as [|s l Hs _ IH]; [done|]. rewrite lines_cons. unfold line. rewrite str_app_assoc.
    change (String newline EmptyString +:+ ?x) with (String newline x). by rewrite split_app, IH. }
  assert (Hm : mapM read_pool_line (l ++ [EmptyString]) = Some (items ++ [[]])).
  { apply mapM_Some, Forall2_app; [done|]. by repeat constructor. }
  rewrite Hs, Hm. simpl. by rewrite concat_app, app_nil_r.
Qed.

Definition setting_text (kv : string * string) : string := kv.1 +:+ " = " +:+ kv.2.
Definition setting_ok (kv : string * string) : Prop :=
  all_bytes key_byte kv.1 = true /\ first_byte (fun c => negb (Ascii.eqb "[" c)) kv.1 = true /\ plain_text kv.2.

Lemma pool_text site d :
  fpmTemplate site d =
  lines ("; Managed by Nexa Panel."%string :: ("[nexa-" +:+ Slug site +:+ "]") :: (setting_text <$> pool_settings site d)).
Proof.
  unfold fpmTemplate, pool_settings.
  by destruct (String.eqb (PM d) "ondemand"), (String.eqb (PM d) "dynamic"), (f_ErrorLog d).
Qed.

Lemma pool_reads site d :
  plain_text (Slug site) -> any_byte (Ascii.eqb "]") (Slug site) = false ->
  Forall setting_ok (pool_settings site d) ->
  read_pool (fpmTemplate site d) = Some (pool_items site d).
Proof.
  intros Hs Hb Hk. rewrite pool_text.
  assert (Hp : plain_text ("nexa-" +:+ Slug site)) by (by apply plain_app).
  rewrite (read_pool_lines _ ([] :: [Section_header ("nexa-" +:+ Slug site)] ::
    ((fun kv => [Setting kv.1 kv.2]) <$> pool_settings site d))).
  - unfold pool_items. generalize (pool_settings site d). intros l. cbn [concat app]. do 2 f_equal.
    induction l as [|kv l IH]; [done|]. rewrite !fmap_cons. cbn [concat app]. by rewrite IH.
  - constructor; [done|]. constructor.
    + unfold read_pool_line. change ("[nexa-" +:+ Slug site +:+ "]") with (String "[" (("nexa-" +:+ Slug site) +:+ "]")).
      assert (cut ";" (String "[" (("nexa-" +:+ Slug site) +:+ "]")) = None) as ->.
      { apply cut_None. change (String "[" ?x) with ("[" +:+ x). rewrite !any_byte_app.
        by rewrite (plain_no_byte ";" (Slug site)). }
      cbv iota. rewrite Ascii.eqb_refl. change ("]"%string) with (String "]" EmptyString).
      by rewrite cut_app by (by rewrite any_byte_app, Hb).
    + apply Forall2_fmap. induction Hk as [|kv l (H1 & H2 & H3) _ IH]; constructor; [|done].
      by apply read_setting.
  - constructor; [done|]. constructor.
    + rewrite !any_byte_app. by rewrite (plain_no_byte newline (Slug site)).
    + apply Forall_fmap. eapply Forall_impl; [exact Hk|]. intros kv (H1 & _ & H3). change (any_byte (Ascii.eqb newline) (kv.1 +:+ " = " +:+ kv.2) = false).
      rewrite !any_byte_app, (plain_no_byte newline kv.2) by done.
      rewrite (plain_no_byte newline kv.1); [done|done|]. eapply all_bytes_impl; [|exact H1].
      apply forall_ascii. by vm_compute.
Qed.

Lemma pool_values r site : plain_roots r -> canonical site -> site_fine r site ->
  plain_text (UnixUser site) /\ plain_text (SocketPath site) /\ plain_text (PM (fpmDataFor site)) /\
  plain_text (ChdirPath (fpmDataFor site)) /\ plain_text (RootPath site +:+ "/logs/php-error.log").
Proof.
  intros Hroots Hcan Hv. destruct (plain_root r site Hroots Hcan Hv) as [Hr Hn]. split_and!.
  - rewrite (f_user _ _ Hv). by apply (plain_zone r).
  - by apply (plain_socket r).
  - unfold fpmDataFor, or_default. simpl. destruct (String.eqb_spec (PMMode (s_Settings site)) EmptyString); [done|].
    pose proof (sf_mode _ (f_settings _ _ Hv)) as Hm. revert Hm. generalize (PMMode (s_Settings site)).
    apply Forall_forall. by repeat constructor.
  - unfold fpmDataFor. cbn [ChdirPath].
    assert (Hb : plain_word (if deployerLayout site then filepath_join [releaseRoot site; "current"%string] else RootPath site)).
    { destruct (deployerLayout site); [|done].
      destruct (filepath_join_word (RootPath site) ["app"%string]) as [H1 H2]; [done..|by repeat constructor|].
      apply filepath_join_word; [done..|by repeat constructor]. }
    destruct Hb as [Hb1 Hb2]. destruct (String.eqb_spec (WorkingDirectory (s_Settings site)) EmptyString); [done|].
    apply plain_word_text, filepath_join_word; [done..|]. repeat constructor.
    eapply plain_relative, sf_working, Hv.
  - by apply plain_app.
Qed.

(** A pool file configures what it is meant to configure.  The file rendered for a
    valid site reads back as the pool [nexa-<slug>] and its settings: workers run as the
    site's own account, in the chosen directory, listen on the site's own socket, and no
    value adds a setting or a section. *)
Theorem site_pool_reads_back r site artifacts retired a :
  plain_roots r -> canonical site ->
  Render r site = Ok (artifacts, retired) -> a ∈ artifacts -> a_Kind a = "php-fpm-pool"%string ->
  read_pool (a_Content a) = Some (pool_items site (fpmDataFor site)).
Proof.
  intros Hroots Hcan (Hv & -> & _)%Render_fine Ha Hk.
  assert (a_Content a = fpmTemplate site (fpmDataFor site)) as ->.
  { unfold rendered_artifacts, artifact_roots, conditionals in Ha. destruct (deployerLayout site), (rl_Enabled _), (ba_Enabled _), (lr_Enabled _);
      simpl in Ha; repeat (apply elem_of_cons in Ha as [->|Ha]; [done|]); by apply elem_of_nil in Ha. }
  pose proof (plain_slug _ (f_slug _ _ Hv)) as [Hs _]. apply pool_reads; [done| |].
  - apply any_byte_false. eapply all_bytes_impl; [|apply slug_bytes, Hv]. apply forall_ascii. by vm_compute.
  - unfold pool_settings. pose proof (pool_values r site Hroots Hcan Hv) as (Hu & Hso & Hpm & Hch & Hl).
    repeat (apply Forall_app; split); repeat constructor; simpl; auto using plain_word_text, plain_itoa;
      try (by destruct (String.eqb _ _); repeat constructor; simpl; auto using plain_word_text, plain_itoa).
    by destruct (boolOr _ _).
Qed.

(** ** Confinement of the served directories *)
Ltac plain_list :=
  repeat first [apply Forall_app; split | apply Forall_nil_2 | apply Forall_cons_2];
  first [done | by split_and!].
Lemma segment_plain s : segment_ok s -> plain s.
Proof.
  intros (H1 & H2 & [H3 H4]%segment_bytes). split_and!; [done..|]. apply any_byte_false.
  eapply all_bytes_impl; [|exact H4]. apply forall_ascii. by vm_compute.
Qed.

Lemma slug_plain s : ValidSiteSlug s = true -> plain s.
Proof.
  intros H. pose proof (slug_bytes s H) as Hb. split_and!.
  - by apply slug_nonempty.
  - by intros ->.
  - by intros ->.
  - apply any_byte_false. eapply all_bytes_impl; [|exact Hb]. apply forall_ascii. by vm_compute.
Qed.

(** A setting accepted by [relativePath], as components. *)
Lemma relative_components label value base :
  relativePath label value base = Ok tt ->
  exists q, Forall plain q /\ (value = EmptyString <-> q = []) /\ join "/" q = value.
Proof.
  intros [->|(H & _)]%relativePath_ok; [by exists []|]. exists (split slash value). split_and!.
  - eapply Forall_impl; [exact H|]. apply segment_plain.
  - split; [intros ->|by intros ?%split_not_nil]. apply Forall_cons in H as [(_ & _ & H) _]. done.
  - apply join_split.
Qed.

Definition absolute_root (r : Renderer) : Prop := SiteRoot r = EmptyString \/ has_prefix "/" (SiteRoot r) = true.

Lemma site_root_components r site : absolute_root r -> site_fine r site ->
  exists top, Forall plain top /\ abs top = path_clean (or_default (SiteRoot r) "/srv/nexa/sites") /\
    path_clean (RootPath site) = abs (top ++ [Slug site]).
Proof.
  intros Habs Hv. rewrite (f_root _ _ Hv).
  destruct (join_below (or_default (SiteRoot r) "/srv/nexa/sites") [Slug site]) as (top & Hp & Hc & Hj).
  - unfold or_default. destruct (String.eqb_spec (SiteRoot r) EmptyString); [done|]. by destruct Habs.
  - pose proof (slug_plain _ (f_slug _ _ Hv)); plain_list.
  - eauto.
Qed.

(** The components served below the site root, and those of a worker's directory. *)
Definition release_part (site : Site) : list string :=
  if deployerLayout site then ["app"; "current"]%string else [].

Lemma release_part_plain site : Forall plain (release_part site).
Proof. unfold release_part. destruct (deployerLayout site); plain_list. Qed.

(** A site serves and runs in directories of its own.  For a valid site the document
    root is [public] of the site root, of the current release in deployer mode, or a
    directory below it, and workers start in the site root (the current release) or a
    directory below it: the subdirectory settings contribute plain components only. *)
Theorem site_directories_confined r site :
  absolute_root r -> validate r site = Ok tt ->
  exists top sub work,
    Forall plain (top ++ [Slug site] ++ sub ++ work) /\
    abs top = path_clean (or_default (SiteRoot r) "/srv/nexa/sites") /\
    join "/" sub = Subdirectory (s_Settings site) /\ join "/" work = WorkingDirectory (s_Settings site) /\
    documentRoot site = abs (top ++ [Slug site] ++ release_part site ++ ["public"%string] ++ sub) /\
    path_clean (ChdirPath (fpmDataFor site)) = abs (top ++ [Slug site] ++ release_part site ++ work).
Proof.
  intros Habs Hv%validate_fine. destruct (site_root_components r site Habs Hv) as (top & Htop & Hc & Hroot).
  destruct (relative_components _ _ _ (sf_subdirectory _ (f_settings _ _ Hv))) as (sub & Hsub & Hse & Hsj).
  destruct (relative_components _ _ _ (sf_working _ (f_settings _ _ Hv))) as (work & Hwork & Hwe & Hwj).
  pose proof (slug_plain _ (f_slug _ _ Hv)) as Hslug.
  assert (Hl : Forall plain (top ++ [Slug site])) by plain_list.
  assert (Hrel : releaseRoot site = abs ((top ++ [Slug site]) ++ ["app"%string])) by (apply join_clean; [done|done|plain_list]).
  pose proof (release_part_plain site) as Hrp.
  assert (Hl' : Forall plain ((top ++ [Slug site]) ++ release_part site)) by plain_list.
  exists top, sub, work. split_and!; try done; [plain_list| |].
  - set (base := if deployerLayout site then filepath_join [releaseRoot site; "current"; "public"]%string
      else filepath_join [RootPath site; "public"%string]).
    assert (Hbase : base = abs (((top ++ [Slug site]) ++ release_part site) ++ ["public"%string])).
    { unfold base, release_part in *. destruct (deployerLayout site).
      - rewrite Hrel, join_abs, <-!(assoc_L (++)); [done| |plain_list].
        plain_list.
      - rewrite app_nil_r. apply join_clean; [done..|plain_list]. }
    destruct (below_clean base (((top ++ [Slug site]) ++ release_part site) ++ ["public"%string]) sub
      (Subdirectory (s_Settings site))) as [_ H]; try done.
    + rewrite Hbase. apply clean_abs. plain_list.
    + plain_list.
    + change (documentRoot site) with (below base (Subdirectory (s_Settings site))). rewrite (H Hbase).
      by rewrite <-!(assoc_L (++)).
  - set (base := if deployerLayout site then filepath_join [releaseRoot site; "current"%string] else RootPath site).
    assert (Hbase : path_clean base = abs ((top ++ [Slug site]) ++ release_part site)).
    { unfold base, release_part in *. destruct (deployerLayout site).
      - rewrite Hrel, join_abs, <-!(assoc_L (++)); [|plain_list|plain_list].
        apply clean_abs. by rewrite <-!(assoc_L (++)) in Hl'.
      - by rewrite app_nil_r. }
    destruct (below_clean base _ work (WorkingDirectory (s_Settings site)) Hbase Hl' Hwork Hwj Hwe) as [H _].
    change (ChdirPath (fpmDataFor site)) with (below base (WorkingDirectory (s_Settings site))). rewrite H.
    by rewrite <-!(assoc_L (++)).
Qed.

(** ** Sites are apart *)

(** The agent's own configuration: [siteoperator.Renderer{}] in cmd/nexa/agent.go. *)
Definition default_renderer : Renderer :=
  mk_renderer EmptyString EmptyString EmptyString EmptyString EmptyString EmptyString EmptyString.

(** The components of the paths that belong to a slug. *)
Definition named (slug suffix : string) : string := "nexa-" +:+ slug +:+ suffix.
Inductive owned (slug : string) : list string -> Prop :=
| owned_tree rest : owned slug (("srv" :: "nexa" :: "sites" :: slug :: rest)%string)
| owned_pool v : owned slug ["etc"; "php"; v; "fpm"; "pool.d"; named slug ".conf"]%string
| owned_vhost : owned slug ["etc"; "nginx"; "sites-available"; named slug ".conf"]%string
| owned_zone : owned slug ["etc"; "nginx"; "conf.d"; named slug "-ratelimit.conf"]%string
| owned_secret : owned slug ["etc"; "nginx"; "nexa-includes"; named slug ".htpasswd"]%string
| owned_rotation : owned slug ["etc"; "logrotate.d"; named slug EmptyString]%string.

Lemma str_app_inj_r s t u : s +:+ u = t +:+ u -> s = t.
Proof.
  intros H. assert (String.length s = String.length t) as Hl.
  { apply (f_equal String.length) in H. rewrite !str_length_app in H. lia. }
  by destruct (str_app_inj_length _ _ _ _ Hl H).
Qed.

Lemma named_inj s t u : named s u = named t u -> s = t.
Proof. unfold named. intros [= H]. by apply str_app_inj_r in H. Qed.

Lemma owned_inj s t l : owned s l -> owned t l -> s = t.
Proof. intros H1 H2. destruct H1; inversion H2 as [| | | | |]; subst; try done;
    match goal with H : _ +:+ _ = _ +:+ _ |- _ => by apply str_app_inj_r in H end. Qed.

Lemma named_plain slug suffix : ValidSiteSlug slug = true -> all_bytes segment_byte suffix = true -> plain (named slug suffix).
Proof.
  intros Hs Hx. unfold named. split_and!; [done..|]. rewrite !any_byte_app.
  assert (any_byte (Ascii.eqb slash) slug = false) as -> by (by apply slug_plain).
  simpl. apply any_byte_false. eapply all_bytes_impl; [|exact Hx]. apply forall_ascii. by vm_compute.
Qed.

Lemma version_plain v : phpVersionSupported v = true -> plain v.
Proof.
  unfold phpVersionSupported. intros [H _]%andb_prop. pose proof (php_version_bytes v H) as Hb. split_and!.
  - by intros ->.
  - by intros ->.
  - by intros ->.
  - apply any_byte_false. eapply all_bytes_impl; [|exact Hb]. apply forall_ascii. by vm_compute.
Qed.

(** The components of a literal directory. *)
Lemma join_literal dir l q :
  dir = abs l -> Forall plain l -> Forall plain q -> filepath_join (dir :: q) = abs (l ++ q).
Proof. intros -> Hl Hq. by apply join_abs. Qed.

Definition site_owns (site : Site) (p : string) : Prop :=
  exists l, Forall plain l /\ p = abs l /\ owned (Slug site) l.

Lemma owns_pool site v : site_fine default_renderer site -> phpVersionSupported v = true ->
  site_owns site (pool_path "/etc/php" site v).
Proof.
  intros Hv Hver. exists ["etc"; "php"; v; "fpm"; "pool.d"; named (Slug site) ".conf"]%string.
  pose proof (version_plain _ Hver). pose proof (named_plain _ ".conf" (f_slug _ _ Hv) eq_refl).
  split_and!; [plain_list| |constructor]. unfold pool_path.
  rewrite (join_literal "/etc/php" ["etc"; "php"]%string); [done|done|plain_list|plain_list].
Qed.

Lemma owns_file site dir l suffix :
  site_fine default_renderer site -> dir = abs l -> Forall plain l -> all_bytes segment_byte suffix = true ->
  owned (Slug site) (l ++ [named (Slug site) suffix]) -> site_owns site (site_file dir site suffix).
Proof.
  intros Hv Hd Hl Hs Ho. pose proof (named_plain _ suffix (f_slug _ _ Hv) Hs).
  exists (l ++ [named (Slug site) suffix]). split_and!; [plain_list| |done].
  unfold site_file. apply join_literal; [done|done|plain_list].
Qed.

Lemma owns_index site : site_fine default_renderer site ->
  site_owns site (filepath_join [RootPath site; "public"; "index.php"]%string).
Proof.
  intros Hv. pose proof (slug_plain _ (f_slug _ _ Hv)) as Hs.
  exists ("srv" :: "nexa" :: "sites" :: Slug site :: ["public"; "index.php"])%string.
  split_and!; [plain_list| |constructor].
  rewrite (join_clean _ ["srv"; "nexa"; "sites"; Slug site]%string); [done| |plain_list|plain_list].
  rewrite (f_root _ _ Hv). change (or_default (SiteRoot default_renderer) "/srv/nexa/sites") with "/srv/nexa/sites"%string.
  apply (join_literal _ ["srv"; "nexa"; "sites"]%string); [done|plain_list|plain_list].
Qed.

Lemma rendered_paths_owned site artifacts retired p :
  Render default_renderer site = Ok (artifacts, retired) -> p ∈ (a_Path <$> artifacts) ++ retired -> site_owns site p.
Proof.
  intros (Hv & -> & ->)%Render_fine Hp. unfold rendered_artifacts, retired_paths, artifact_roots in Hp.
  assert (Hcond : forall q, q ∈ a_Path ∘ snd <$> conditionals "/etc/nginx/conf.d" "/etc/nginx/nexa-includes" "/etc/logrotate.d" site ->
    site_owns site q).
  { intros q (c & -> & Hc)%list_elem_of_fmap. unfold conditionals in Hc. rewrite !elem_of_cons, elem_of_nil in Hc.
    destruct Hc as [->|[->|[->|[]]]]; unfold compose; cbn [snd a_Path].
    - apply (owns_file _ _ ["etc"; "nginx"; "conf.d"]%string); [done|done|plain_list|done|constructor].
    - apply (owns_file _ _ ["etc"; "nginx"; "nexa-includes"]%string); [done|done|plain_list|done|constructor].
    - apply (owns_file _ _ ["etc"; "logrotate.d"]%string); [done|done|plain_list|done|constructor]. }
  rewrite elem_of_app, list_elem_of_fmap in Hp. destruct Hp as [(a & -> & Ha)|Hp].
  - rewrite !elem_of_app in Ha. destruct Ha as [Ha|[Ha|Ha]].
    + destruct (deployerLayout site); [by apply elem_of_nil in Ha|]. apply list_elem_of_singleton in Ha as ->.
      by apply owns_index.
    + rewrite !elem_of_cons, elem_of_nil in Ha. destruct Ha as [->|[->|[]]].
      * by apply owns_pool, Hv.
      * apply (owns_file _ _ ["etc"; "nginx"; "sites-available"]%string); [done|done|plain_list|done|constructor].
    + apply list_elem_of_fmap in Ha as (c & -> & [_ Hc]%list_elem_of_filter). apply Hcond.
      apply list_elem_of_fmap. by exists c.
  - apply elem_of_app in Hp as [Hp|Hp].
    + apply list_elem_of_fmap in Hp as (c & -> & [_ Hc]%list_elem_of_filter). apply Hcond.
      apply list_elem_of_fmap. by exists c.
    + destruct (negb (String.eqb (RetiredPHPVersion site) EmptyString)) eqn:He; simpl in Hp;
        [|by apply elem_of_nil in Hp].
      destruct (negb (String.eqb (RetiredPHPVersion site) (PHPVersion site))); [|by apply elem_of_nil in Hp].
      apply list_elem_of_singleton in Hp as ->. apply owns_pool; [done|].
      destruct (f_retired _ _ Hv) as [H|H]; [|done]. by rewrite H in He.
Qed.

Lemma replace_hyphen_inj s t :
  all_bytes slug_byte s = true -> all_bytes slug_byte t = true ->
  replace_byte "-" "_" s = replace_byte "-" "_" t -> s = t.
Proof.
  revert t. induction s as [|c s IH]; intros [|d t] Hs Ht H; [done| | |].
  - exfalso. cbn [replace_byte] in H. by destruct (Ascii.eqb "-" d).
  - exfalso. cbn [replace_byte] in H. by destruct (Ascii.eqb "-" c).
  - apply andb_prop in Hs as [Hc Hs], Ht as [Hd Ht].
    cbn [replace_byte] in H.
    destruct (Ascii.eqb_spec "-" c) as [<-|Hc'], (Ascii.eqb_spec "-" d) as [<-|Hd'].
    + injection H as H. f_equal. by apply IH.
    + injection H as <- H. done.
    + injection H as -> H. done.
    + injection H as -> H. f_equal. by apply IH.
Qed.

(** C20. Two sites share nothing on the host.  For sites with different slugs no file the
    agent writes, and none it removes because a setting is off or a runtime was
    replaced, belongs to both, and neither do the accounts their workers run as, their
    roots and their sockets. *)
Theorem sites_are_apart s1 s2 a1 r1 a2 r2 :
  Render default_renderer s1 = Ok (a1, r1) -> Render default_renderer s2 = Ok (a2, r2) -> Slug s1 <> Slug s2 ->
  (forall p, p ∈ (a_Path <$> a1) ++ r1 -> p ∉ (a_Path <$> a2) ++ r2) /\
  UnixUser s1 <> UnixUser s2 /\ path_clean (RootPath s1) <> path_clean (RootPath s2) /\
  path_clean (SocketPath s1) <> path_clean (SocketPath s2).
Proof.
  intros H1 H2 Hne. destruct (Render_fine _ _ _ _ H1) as (V1 & _), (Render_fine _ _ _ _ H2) as (V2 & _).
  pose proof (slug_plain _ (f_slug _ _ V1)) as P1. pose proof (slug_plain _ (f_slug _ _ V2)) as P2.
  split_and!.
  - intros p Hp1 Hp2. destruct (rendered_paths_owned _ _ _ _ H1 Hp1) as (l & Hl & -> & Ho).
    destruct (rendered_paths_owned _ _ _ _ H2 Hp2) as (m & Hm & He & Ho2).
    apply abs_inj in He as <-; [|done..]. apply Hne. by eapply owned_inj.
  - rewrite (f_user _ _ V1), (f_user _ _ V2). unfold SiteUnixUser. intros H%str_app_inj_l.
    apply Hne, replace_hyphen_inj; [by apply slug_bytes, V1|by apply slug_bytes, V2|done].
  - rewrite (f_root _ _ V1), (f_root _ _ V2). change (or_default (SiteRoot default_renderer) "/srv/nexa/sites") with "/srv/nexa/sites"%string.
    rewrite !(join_literal "/srv/nexa/sites" ["srv"; "nexa"; "sites"]%string) by (first [done|plain_list]).
    intros H%abs_inj; [|plain_list..]. injection H as H. done.
  - rewrite (f_socket _ _ V1), (f_socket _ _ V2). change (or_default (SocketRoot default_renderer) "/run/php") with "/run/php"%string.
    pose proof (named_plain _ ".sock" (f_slug _ _ V1) eq_refl) as N1. pose proof (named_plain _ ".sock" (f_slug _ _ V2) eq_refl) as N2.
    rewrite !(join_literal "/run/php" ["run"; "php"]%string) by (first [done|plain_list]).
    intros H%abs_inj; [|plain_list..]. apply Hne. apply (named_inj _ _ ".sock").
    exact (f_equal (fun l => List.nth 2 l EmptyString) H).
Qed.
