(* ===== verification/SiteHost.v ===== *)
(** * Activating a site

    [internal/platform/operators/sites/activation.go] and [artifacts.go]: the plans the
    agent issues, and how it applies them, rolls them back and tears a site down, on
    the host of [Update] (files, symbolic links, system calls that may be refused or
    at which the process dies).  What the node itself does (accounts, nginx, PHP-FPM)
    is the interface [NodeSystem]. *)

From S2P Require Import Prelude GoStrings Naming Sites Update.

Local Open Scope Z_scope.

(** ** Data *)
Record Snapshot := mk_snapshot {
  sn_Path : string;
  Exists : bool;
  sn_Mode : Z;
  Digest : string;
  Content : string;
  sn_UID : Z;
  sn_GID : Z;
}.

#[export] Instance Snapshot_eq_dec : EqDecision Snapshot.
Proof. solve_decision. Defined.

Record Plan := mk_plan {
  PlanID : string;
  plan_Kind : string;
  p_Site : Site;
  Artifacts : list Artifact;
  Before : list Snapshot;
  Retired : list string;
  RetiredBefore : list Snapshot;
  EnabledBefore : bool;
  Teardown : bool;
  Warnings : list string;
  PlannedAt : Z;
  ExpiresAt : Z;
}.
Definition PlanKind : string := "nexa.site.activation.v1".

Record Observation := mk_observation {
  ob_SiteID : string;
  ob_Active : bool;
  ob_Artifacts : list Snapshot;
}.

(** The interface [NodeSystem]. *)
Class NodeSystem := {
  PrepareSite : Site -> M unit;
  SecureArtifacts : Site -> list Artifact -> M unit;
  VerifyDocumentRoot : Site -> M unit;
  ValidatePHP : string -> M unit;
  ValidateNginx : M unit;
  ReloadPHP : string -> M unit;
  ReloadNginx : M unit;
  VerifyHost : Site -> M unit;
  RemoveSite : Site -> M unit;
}.

Record HostOperator := mk_host_operator { renderer : Renderer; enabledRoot : string }.

(** [NewHostOperator] *)
Definition is_abs (p : string) : bool := has_prefix "/" p.
Definition NewHostOperator (r : Renderer) (enabled : string) : result string HostOperator :=
  let enabled := or_default enabled "/etc/nginx/sites-enabled" in
  if negb (is_abs enabled) then Err "Nginx enabled root must be absolute"%string
  else if existsb (fun root => negb (String.eqb root EmptyString) && negb (is_abs root))
            [NginxAvailableRoot r; PHPConfigRoot r; SiteRoot r; SocketRoot r]
  then Err "root must be absolute"%string
  else Ok (mk_host_operator r (path_clean enabled)).

Section operator.
Context {node : NodeSystem}.
(** The bytes of a file that holds a document, and SHA-256 in hexadecimal. *)
Context (text_of : content -> string) (digestBytes : string -> string).
Context (o : HostOperator).

(** ** Files *)

(** [fsutil.Write]: a temporary file, renamed over the path; the flush of the
    directory afterwards may fail unnoticed. *)
Definition atomicWriteOwned (path text : string) (mode uid gid : Z) : M unit :=
  let owned := (0 <=? uid) && (0 <=? gid) in
  _ ← io;
  _ ← io;
  h ← get;
  match files h !! path with
  | Some Special => fail system_error
  | _ =>
      _ ← update_files (<[path := Reg (Bytes text) mode (if owned then uid else 0) (if owned then gid else 0)]>);
      _ ← attempt io;
      mret tt
  end.
Definition atomicWrite (path text : string) (mode : Z) : M unit := atomicWriteOwned path text mode (-1) (-1).

Definition no_file (path : string) : Snapshot := mk_snapshot path false 0 EmptyString EmptyString 0 0.
Definition snapshot_of (path : string) (c : content) (mode uid gid : Z) : Snapshot :=
  mk_snapshot path true (perm mode) (digestBytes (text_of c)) (text_of c) uid gid.

Definition unsafe_artifact : string := "managed site artifact is unsafe or too large".
Definition readSnapshot (path : string) : M Snapshot :=
  n ← lstat path;
  match n with
  | None => mret (no_file path)
  | Some (Reg c mode uid gid) =>
      if 524288 <? len (text_of c) then fail unsafe_artifact
      else _ ← io; mret (snapshot_of path c mode uid gid)
  | Some _ => fail unsafe_artifact
  end.

Definition writeSnapshot (s : Snapshot) : M unit :=
  if Exists s then atomicWriteOwned (sn_Path s) (Content s) (sn_Mode s) (sn_UID s) (sn_GID s)
  else remove (sn_Path s).

Fixpoint map_M {A B} (f : A -> M B) (l : list A) : M (list B) :=
  match l with
  | [] => mret []
  | x :: l => y ← f x; ys ← map_M f l; mret (y :: ys)
  end.

(** ** The enabled link *)
Definition available_root : string := or_default (NginxAvailableRoot (renderer o)) "/etc/nginx/sites-available".
Definition enabled_path (slug : string) : string := filepath_join [enabledRoot o; "nexa-" +:+ slug +:+ ".conf"].
Definition definition_path (slug : string) : string := filepath_join [available_root; "nexa-" +:+ slug +:+ ".conf"].

Definition enabled (slug : string) : M bool :=
  n ← lstat (enabled_path slug);
  match n with
  | None => mret false
  | Some (Link target _ _) =>
      _ ← io;
      let target := if is_abs target then target else filepath_join [enabledRoot o; target] in
      if String.eqb (path_clean target) (path_clean (definition_path slug)) then mret true
      else fail "Nginx enabled site symlink points outside its managed definition"
  | Some _ => fail "Nginx enabled site path is not a symlink"
  end.

Definition setEnabled (slug : string) (on : bool) : M unit :=
  if on then
    _ ← io;
    exists_ ← enabled slug;
    if exists_ : bool then mret tt else symlink (definition_path slug) (enabled_path slug)
  else remove (enabled_path slug).

(** ** Plans *)
Definition keep_artifact (a : Artifact) (before : Snapshot) : bool :=
  negb (String.eqb (a_Kind a) "site-root" && Exists before).

Fixpoint plan_artifacts (l : list Artifact) : M (list (Artifact * Snapshot)) :=
  match l with
  | [] => mret []
  | a :: l =>
      before ← readSnapshot (a_Path a);
      rest ← plan_artifacts l;
      mret (if keep_artifact a before then (a, before) :: rest else rest)
  end.

Definition half_hour : Z := 30 * minute.
Definition activation_warning : string := "Activation requires PHP-FPM and Nginx validation on the managed node.".

(** [HostOperator.Plan]; [id] is the random identifier, [now] the clock. *)
Definition MakePlan (id : string) (now : Z) (site : Site) : M Plan :=
  match Render (renderer o) site with
  | Err e => fail e
  | Ok (artifacts, retired) =>
      pairs ← plan_artifacts artifacts;
      retiredBefore ← map_M readSnapshot retired;
      on ← enabled (Slug site);
      mret (mk_plan id PlanKind site (fst <$> pairs) (snd <$> pairs) retired retiredBefore on false
              [activation_warning] now (now + half_hour))
  end.

Definition PlanTeardown (id : string) (now : Z) (site : Site) : M Plan :=
  plan ← MakePlan id now site;
  mret (mk_plan (PlanID plan) (plan_Kind plan) (p_Site plan) (Artifacts plan) ((no_file ∘ a_Path) <$> Artifacts plan)
          (Retired plan) (no_file <$> Retired plan) false true (Warnings plan) (PlannedAt plan) (ExpiresAt plan)).

(** A plan is accepted when its artifacts are ones the renderer produces for its site
    now, and its removals are exactly the renderer's.  [byKind] keeps the last artifact
    of a kind. *)
Definition by_kind (kind : string) (l : list Artifact) : option Artifact :=
  List.find (fun a => String.eqb (a_Kind a) kind) (rev l).

Definition artifact_matches (expected : list Artifact) (a : Artifact) (before : Snapshot) : bool :=
  match by_kind (a_Kind a) expected with
  | Some exact => String.eqb (a_Path exact) (a_Path a) && (a_Mode exact =? a_Mode a) &&
                  String.eqb (a_Content exact) (a_Content a) && String.eqb (sn_Path before) (a_Path a)
  | None => false
  end.

Definition validatePlan (plan : Plan) : error :=
  fail_if (String.eqb (PlanID plan) EmptyString || negb (String.eqb (plan_Kind plan) PlanKind) ||
           negb (length (Artifacts plan) =? length (Before plan))%nat) "site activation plan is invalid" ;;;
  match Render (renderer o) (p_Site plan) with
  | Err e => Err e
  | Ok (artifacts, retired) =>
      fail_if (negb (forallb (fun ab => artifact_matches artifacts ab.1 ab.2) (zip (Artifacts plan) (Before plan))))
        "site activation plan contains an unmanaged artifact" ;;;
      fail_if (negb ((length (Retired plan) =? length retired)%nat &&
                     (length (RetiredBefore plan) =? length (Retired plan))%nat))
        "site activation plan contains an unmanaged removal" ;;;
      fail_if (negb (forallb (fun pe => String.eqb pe.1 pe.2) (zip (Retired plan) retired) &&
                     forallb (fun pb => String.eqb pb.1 (sn_Path pb.2)) (zip (Retired plan) (RetiredBefore plan))))
        "site activation plan contains an unmanaged removal"
  end.

Definition check (e : error) : M unit := match e with Ok _ => mret tt | Err e => fail e end.

Definition same_state (current expected : Snapshot) : bool :=
  Bool.eqb (Exists current) (Exists expected) && String.eqb (Digest current) (Digest expected).
Definition check_snapshot (expected : Snapshot) : M unit :=
  current ← readSnapshot (sn_Path expected);
  if same_state current expected then mret tt
  else fail "site state changed after planning; create a new plan".

Definition checkBefore (plan : Plan) : M unit :=
  _ ← for_each (Before plan) check_snapshot;
  _ ← for_each (RetiredBefore plan) check_snapshot;
  on ← enabled (Slug (p_Site plan));
  if Bool.eqb on (EnabledBefore plan) then mret tt
  else fail "Nginx site activation changed after planning; create a new plan".

Definition writeArtifacts (l : list Artifact) : M unit :=
  for_each l (fun a => atomicWrite (a_Path a) (a_Content a) (a_Mode a)).
Definition removeRetired (plan : Plan) : M unit := for_each (Retired plan) remove.

(** ** Restoring *)

(** Run every step, collecting the errors. *)
Fixpoint collect (l : list (M unit)) : M (list string) :=
  match l with
  | [] => mret []
  | m :: l =>
      r ← attempt m;
      failures ← collect l;
      mret (match r with inl _ => failures | inr e => e :: failures end)
  end.

Definition restore (plan : Plan) : M unit :=
  failures ← collect ((writeSnapshot <$> rev (RetiredBefore plan)) ++ (writeSnapshot <$> rev (Before plan)) ++
                      [setEnabled (Slug (p_Site plan)) (EnabledBefore plan)]);
  match failures with [] => mret tt | _ => fail (join "; " failures) end.

Definition retiredPHP (plan : Plan) : string :=
  let old := RetiredPHPVersion (p_Site plan) in
  if negb (String.eqb old EmptyString) && negb (String.eqb old (PHPVersion (p_Site plan))) then old else EmptyString.

(** Reload the runtime a plan replaces, if there is one. *)
Definition reload_retired (plan : Plan) : M unit :=
  if String.eqb (retiredPHP plan) EmptyString then mret tt else ReloadPHP (retiredPHP plan).

Definition rollbackFailure {A} (plan : Plan) (cause : string) : M A :=
  failures ← collect [wrap "restore" (restore plan);
                      wrap "restore PHP-FPM reload" (ReloadPHP (PHPVersion (p_Site plan)));
                      wrap "restore previous PHP-FPM reload" (reload_retired plan);
                      wrap "restore Nginx reload" ReloadNginx];
  fail (join "; " (cause :: failures)).

(** [if err := m; err != nil { return o.rollbackFailure(...) }] *)
Definition or_rollback (plan : Plan) (m : M unit) : M unit :=
  r ← attempt m;
  match r with inl _ => mret tt | inr e => rollbackFailure plan e end.

Definition observe (plan : Plan) : M Observation :=
  items ← map_M (fun a => readSnapshot (a_Path a)) (Artifacts plan);
  on ← enabled (Slug (p_Site plan));
  mret (mk_observation (SiteID (p_Site plan)) on items).

(** ** Operations *)
Definition Apply (now : Z) (plan : Plan) : M Observation :=
  let site := p_Site plan in
  _ ← check (validatePlan plan);
  _ ← (if ExpiresAt plan <? now then fail "site activation plan has expired" else mret tt);
  _ ← checkBefore plan;
  _ ← wrap "prepare site identity and directories" (PrepareSite site);
  _ ← or_rollback plan (writeArtifacts (Artifacts plan));
  _ ← or_rollback plan (removeRetired plan);
  _ ← or_rollback plan (wrap "secure site artifacts" (SecureArtifacts site (Artifacts plan)));
  _ ← or_rollback plan (setEnabled (Slug site) true);
  _ ← or_rollback plan (wrap "verify site document root" (VerifyDocumentRoot site));
  _ ← or_rollback plan (wrap "validate PHP-FPM configuration" (ValidatePHP (PHPVersion site)));
  _ ← or_rollback plan (wrap "validate Nginx configuration" ValidateNginx);
  _ ← attempt (reload_retired plan);
  _ ← or_rollback plan (wrap "reload PHP-FPM" (ReloadPHP (PHPVersion site)));
  _ ← or_rollback plan (wrap "reload Nginx" ReloadNginx);
  _ ← or_rollback plan (wrap "verify site response" (VerifyHost site));
  observe plan.

Definition changed_after_activation : string := "managed site changed after activation; automatic rollback is unsafe".
Definition check_applied (plan : Plan) (a : Artifact) : M unit :=
  current ← readSnapshot (a_Path a);
  if negb (Exists current) then (if Teardown plan then mret tt else fail changed_after_activation)
  else if String.eqb (Digest current) (digestBytes (a_Content a)) then mret tt
  else fail changed_after_activation.

Definition Rollback (plan : Plan) : M Observation :=
  _ ← check (validatePlan plan);
  _ ← for_each (Artifacts plan) (check_applied plan);
  _ ← restore plan;
  _ ← ValidateNginx;
  _ ← ReloadPHP (PHPVersion (p_Site plan));
  _ ← reload_retired plan;
  _ ← ReloadNginx;
  observe plan.

Definition Purge (site : Site) : M unit :=
  _ ← check (validate (renderer o) site);
  RemoveSite site.
End operator.
