(* ===== verification/SiteActivation.v ===== *)
(** * What activation does to the managed files

    Specifications of the operations of [SiteHost] in the logic of [UpdateLogic]:
    reading and restoring snapshots, the enabled link, and the steps of [Apply]. *)

From S2P Require Import Prelude GoStrings Naming Sites SiteChecks Update UpdateLogic SiteHost.

Local Open Scope Z_scope.

(** ** The interface's promises

    [PrepareSite] leaves the files a plan manages alone; [SecureArtifacts] changes no
    more than the owner of artifacts, whose mode it sets again; the other operations
    change no file. *)
Definition agree (paths : list string) (fs fs' : filesystem) : Prop := forall p, p ∈ paths -> fs !! p = fs' !! p.

Definition managed_by (o : HostOperator) (site : Site) : list string :=
  (a_Path <$> rendered_artifacts (renderer o) site) ++ retired_paths (renderer o) site ++ [enabled_path o (Slug site)].

Definition secured (l : list Artifact) (fs fs' : filesystem) : Prop :=
  forall p, fs' !! p = fs !! p \/
    exists a c m u g u' g', a ∈ l /\ p = a_Path a /\ fs !! p = Some (Reg c m u g) /\ fs' !! p = Some (Reg c (a_Mode a) u' g').

Definition leaves (m : M unit) (R : filesystem -> filesystem -> Prop) : Prop :=
  forall c fs, spec c (fun s => s.1 = fs) m (fun _ s => R fs s.1) (fun s => R fs s.1) (fun s => R fs s.1).
Definition quiet (m : M unit) : Prop := leaves m (fun fs fs' => fs' = fs).

Class NodeSystemLaws {node : NodeSystem} (o : HostOperator) : Prop := {
  law_prepare site : leaves (PrepareSite site) (agree (managed_by o site));
  law_secure site l : leaves (SecureArtifacts site l) (secured l);
  law_document_root site : quiet (VerifyDocumentRoot site);
  law_validate_php v : quiet (ValidatePHP v);
  law_validate_nginx : quiet ValidateNginx;
  law_reload_php v : quiet (ReloadPHP v);
  law_reload_nginx : quiet ReloadNginx;
  law_verify site : quiet (VerifyHost site);
}.

(** ** Assertions on the files *)
Definition on_files (P : filesystem -> Prop) : state -> Prop := fun s => P s.1.

Lemma spec_leaves c m R (P Q F I : filesystem -> Prop) :
  leaves m R -> (forall fs fs', P fs -> R fs fs' -> Q fs' /\ F fs' /\ I fs') ->
  spec c (on_files P) m (fun _ => on_files Q) (on_files F) (on_files I).
Proof.
  intros Hm HR h Hc HP. specialize (Hm c (files h) h Hc eq_refl).
  destruct (m h) as [[a|e|] h']; destruct Hm as [Hs Hr]; destruct (HR _ _ HP Hr) as (?&?&?); done.
Qed.

Lemma spec_quiet c m (P F I : filesystem -> Prop) :
  quiet m -> (forall fs, P fs -> F fs) -> (forall fs, P fs -> I fs) ->
  spec c (on_files P) m (fun _ => on_files P) (on_files F) (on_files I).
Proof. intros Hm HF HI. eapply spec_leaves; [exact Hm|]. intros fs fs' HP ->. auto. Qed.

Section specs.
Context (text_of : content -> string) (digestBytes : string -> string).
Context (text_bytes : forall b, text_of (Bytes b) = b).
Notation readSnapshot := (readSnapshot text_of digestBytes).

(** The snapshot of a path, when it can be taken. *)
Definition snapshot_at (fs : filesystem) (p : string) : option Snapshot :=
  match fs !! p with
  | None => Some (no_file p)
  | Some (Reg c mode uid gid) =>
      if 524288 <? len (text_of c) then None else Some (snapshot_of text_of digestBytes p c mode uid gid)
  | Some _ => None
  end.

Lemma spec_readSnapshot c p (P F I : filesystem -> Prop) :
  (forall fs, P fs -> I fs) -> (forall fs, c = false -> P fs -> F fs) ->
  (forall fs, P fs -> snapshot_at fs p = None -> F fs) ->
  spec c (on_files P) (readSnapshot p) (fun b s => P s.1 /\ snapshot_at s.1 p = Some b) (on_files F) (on_files I).
Proof.
  intros HI HF HN. unfold SiteHost.readSnapshot. eapply spec_bind; [apply spec_lstat; unfold on_files; eauto|].
  intros n. unfold snapshot_at. destruct n as [[x mode uid gid| |]|].
  - destruct (524288 <? len (text_of x)) eqn:Hl.
    + apply spec_fail. intros s [Hn HP]. apply HN; [done|]. unfold snapshot_at. by rewrite <-Hn, Hl.
    + eapply spec_bind; [apply spec_io|intros ?; apply spec_ret].
      * intros s [_ HP]. by apply HI.
      * intros s ? [_ HP]. by apply HF.
      * intros s [Hn HP]. by rewrite <-Hn, Hl.
  - apply spec_fail. intros s [Hn HP]. apply HN; [done|]. unfold snapshot_at. by rewrite <-Hn.
  - apply spec_fail. intros s [Hn HP]. apply HN; [done|]. unfold snapshot_at. by rewrite <-Hn.
  - apply spec_ret. intros s [Hn HP]. by rewrite <-Hn.
Qed.

(** ** Writing *)
Definition is_special (n : option node) : Prop := n = Some Special.

Lemma spec_write c p text mode uid gid (P Q F I : filesystem -> Prop) :
  (forall fs, P fs -> I fs) -> (forall fs, Q fs -> I fs) ->
  (forall fs, c = false -> P fs -> F fs) ->
  (forall fs, P fs -> is_special (fs !! p) -> F fs) ->
  (forall fs, P fs -> Q (<[p := Reg (Bytes text) mode (if (0 <=? uid) && (0 <=? gid) then uid else 0)
                                            (if (0 <=? uid) && (0 <=? gid) then gid else 0)]> fs)) ->
  spec c (on_files P) (atomicWriteOwned p text mode uid gid) (fun _ => on_files Q) (on_files F) (on_files I).
Proof.
  intros HI HIQ HF HS HQ. unfold atomicWriteOwned.
  eapply spec_bind; [by apply spec_io; unfold on_files; eauto|]. intros ?.
  eapply spec_bind; [by apply spec_io; unfold on_files; eauto|]. intros ?.
  eapply spec_bind; [apply spec_get|]. intros h.
  assert (Hw : spec c (fun s => st h = s /\ on_files P s)
    (_ ← update_files (<[p := Reg (Bytes text) mode (if (0 <=? uid) && (0 <=? gid) then uid else 0)
                                            (if (0 <=? uid) && (0 <=? gid) then gid else 0)]>);
     _ ← attempt io; mret tt) (fun _ => on_files Q) (on_files F) (on_files I)).
  { eapply spec_bind; [apply (spec_update _ _ _ (fun _ => on_files Q)); intros s [_ HP]; by apply HQ|]. intros ?.
    eapply spec_bind; [eapply spec_attempt, (spec_io c (on_files Q) (on_files Q)); unfold on_files; eauto|].
    intros r. apply spec_ret. by destruct r. }
  destruct (files h !! p) as [[| |]|] eqn:Hn; [exact Hw|exact Hw| |exact Hw].
  apply spec_fail. intros s [<- HP]. by apply HS.
Qed.
End specs.

(** ** Collecting errors

    Steps indexed by [x]; [J] says which of them have been carried out, [W] holds
    throughout, [E] says whether a step can fail at all. *)
Section collecting.
Context {X : Type} (step : X -> M unit) (c : bool) (J : list X -> filesystem -> Prop) (W : filesystem -> Prop) (E : Prop).
Implicit Type F : state -> Prop.

Lemma spec_collect_weak F l :
  (forall x, x ∈ l -> spec c (on_files W) (step x) (fun _ => on_files W) (fun s => E /\ W s.1) (on_files W)) ->
  spec c (on_files W) (collect (step <$> l)) (fun _ => on_files W) F (on_files W).
Proof.
  induction l as [|x l IH]; intros H; simpl; [by apply spec_ret|].
  eapply spec_bind; [apply spec_attempt, H; by left|]. intros r. simpl.
  apply (spec_bind _ _ _ _ (fun _ => on_files W)); [|intros fl; by apply spec_ret].
  eapply spec_pre; [apply IH; intros y Hy; apply H; by right|]. intros s Hs. destruct r; [done|by destruct Hs].
Qed.

Lemma spec_collect F before l :
  (forall before x rest, l = before ++ x :: rest ->
     spec c (fun s => J before s.1 /\ W s.1) (step x) (fun _ s => J (before ++ [x]) s.1 /\ W s.1) (fun s => E /\ W s.1) (on_files W)) ->
  (forall x, x ∈ l -> spec c (on_files W) (step x) (fun _ => on_files W) (fun s => E /\ W s.1) (on_files W)) ->
  forall rest, l = before ++ rest ->
  spec c (fun s => J before s.1 /\ W s.1) (collect (step <$> rest))
    (fun fl s => W s.1 /\ (fl = [] -> J l s.1) /\ (fl <> [] -> E)) F (on_files W).
Proof.
  intros H1 H2 rest. revert before. induction rest as [|x rest IH]; intros before Hl; simpl.
  { apply spec_ret. rewrite app_nil_r in Hl. subst before. naive_solver. }
  eapply spec_bind; [eapply spec_attempt, H1; done|]. intros [[]|e]; simpl.
  - eapply spec_bind; [apply (IH (before ++ [x])); by rewrite <-(assoc_L (++))|]. intros fl. by apply spec_ret.
  - apply spec_pure. intros HE.
    eapply spec_bind; [apply (spec_collect_weak F rest); intros y Hy; apply H2; set_solver|].
    intros fl. apply spec_ret. intros s Hs. split_and!; [done|by intros ?|done].
Qed.
End collecting.

(** ** The enabled link *)
Section link.
Context (o : HostOperator) (slug : string).

Definition link_state (fs : filesystem) : option bool :=
  match fs !! enabled_path o slug with
  | None => Some false
  | Some (Link target _ _) =>
      if String.eqb (path_clean (if is_abs target then target else filepath_join [enabledRoot o; target]))
           (path_clean (definition_path o slug)) then Some true else None
  | Some _ => None
  end.

Lemma spec_enabled c (P F I : filesystem -> Prop) :
  (forall fs, P fs -> I fs) -> (forall fs, c = false -> P fs -> F fs) ->
  (forall fs, P fs -> link_state fs = None -> F fs) ->
  spec c (on_files P) (enabled o slug) (fun b s => P s.1 /\ link_state s.1 = Some b) (on_files F) (on_files I).
Proof.
  intros HI HF HN. unfold enabled. eapply spec_bind; [apply spec_lstat; unfold on_files; eauto|]. intros n.
  unfold link_state. destruct n as [[| target u g|]|].
  - apply spec_fail. intros s [Hn HP]. apply HN; [done|]. unfold link_state. by rewrite <-Hn.
  - eapply spec_bind; [apply spec_io|intros ?].
    + intros s [_ HP]. by apply HI.
    + intros s ? [_ HP]. by apply HF.
    + destruct (String.eqb _ _) eqn:He.
      * apply spec_ret. intros s [Hn HP]. by rewrite <-Hn, He.
      * apply spec_fail. intros s [Hn HP]. apply HN; [done|]. unfold link_state. by rewrite <-Hn, He.
  - apply spec_fail. intros s [Hn HP]. apply HN; [done|]. unfold link_state. by rewrite <-Hn.
  - apply spec_ret. intros s [Hn HP]. by rewrite <-Hn.
Qed.

Lemma link_state_local fs fs' : fs !! enabled_path o slug = fs' !! enabled_path o slug -> link_state fs = link_state fs'.
Proof. intros H. unfold link_state. by rewrite H. Qed.

Lemma link_state_new fs :
  is_abs (definition_path o slug) = true -> link_state (<[enabled_path o slug := Link (definition_path o slug) 0 0]> fs) = Some true.
Proof. intros Ha. unfold link_state. by rewrite lookup_insert_eq, Ha, String.eqb_refl. Qed.

(** Nothing but one path differs. *)
Definition touches (p : string) (fs fs' : filesystem) : Prop := forall q, q <> p -> fs' !! q = fs !! q.

Lemma spec_setEnabled c on fs :
  is_abs (definition_path o slug) = true -> (on = true -> link_state fs <> None) ->
  spec c (fun s => s.1 = fs) (setEnabled o slug on)
    (fun _ s => touches (enabled_path o slug) fs s.1 /\ link_state s.1 = Some on)
    (fun s => c = false /\ s.1 = fs) (fun s => s.1 = fs \/ (touches (enabled_path o slug) fs s.1 /\ link_state s.1 = Some on)).
Proof.
  intros Habs Hn. unfold setEnabled. destruct on.
  - eapply spec_bind; [by apply spec_io; auto|]. intros ?.
    eapply spec_bind; [apply (spec_enabled c (fun fs' => fs' = fs) (fun fs' => c = false /\ fs' = fs)
      (fun fs' => fs' = fs \/ (touches (enabled_path o slug) fs fs' /\ link_state fs' = Some true)))|].
    + intros ? ->. by left.
    + by intros ? ? ->.
    + intros ? -> HN. by destruct (Hn eq_refl).
    + intros b. destruct b.
      * apply spec_ret. intros s [-> Hb]. done.
      * eapply spec_symlink.
        -- intros s [-> _]. by left.
        -- intros s -> [-> _]. done.
        -- intros s [-> Hb]. unfold link_state in Hb. by repeat case_match.
        -- intros s [-> Hb]. simpl. split; [intros q Hq; by rewrite lookup_insert_ne|by apply link_state_new].
  - apply spec_remove.
    + intros s ->. by left.
    + intros s -> ->. done.
    + intros s ->. simpl. split; [intros q Hq; by rewrite lookup_delete_ne|].
      unfold link_state. by rewrite lookup_delete_eq.
Qed.
End link.

(** ** Restoring the state a plan recorded *)
Section restoring.
Context (o : HostOperator) (plan : Plan).
Let slug := Slug (p_Site plan).

(** The steps of [restore]: a snapshot to write, or the link. *)
Definition step_path (x : option Snapshot) : string :=
  match x with Some b => sn_Path b | None => enabled_path o slug end.
Definition restore_step (x : option Snapshot) : M unit :=
  match x with Some b => writeSnapshot b | None => setEnabled o slug (EnabledBefore plan) end.
Definition snapshots (p : Plan) : list Snapshot := rev (RetiredBefore p) ++ rev (Before p).
Definition restore_steps : list (option Snapshot) := (Some <$> snapshots plan) ++ [None].

Definition realises (b : Snapshot) (n : option node) : Prop :=
  n = if Exists b then Some (Reg (Bytes (Content b)) (sn_Mode b) (sn_UID b) (sn_GID b)) else None.
Definition restored_step (x : option Snapshot) (fs : filesystem) : Prop :=
  match x with
  | Some b => realises b (fs !! sn_Path b)
  | None => link_state o slug fs = Some (EnabledBefore plan)
  end.

(** Writing is possible: nothing but files and links stand at the paths. *)
Definition ready (fs : filesystem) : Prop :=
  (forall b, b ∈ snapshots plan -> Exists b = true -> fs !! sn_Path b <> Some Special) /\
  (EnabledBefore plan = true -> link_state o slug fs <> None).

Lemma restore_unfold :
  restore o plan = (failures ← collect (restore_step <$> restore_steps);
                    match failures with [] => mret tt | _ => fail (join "; " failures) end).
Proof. unfold restore, restore_steps, snapshots. by rewrite !fmap_app, <-!list_fmap_compose, <-(assoc_L (++)). Qed.

Context (Habs : is_abs (definition_path o slug) = true).
Context (Hdist : NoDup (step_path <$> restore_steps)).
Context (Howner : forall b, b ∈ snapshots plan -> Exists b = true -> 0 <= sn_UID b /\ 0 <= sn_GID b).
(** What else holds, and every step preserves. *)
Context (Inv : filesystem -> Prop).
Context (HInv : forall x fs fs', x ∈ restore_steps -> Inv fs -> touches (step_path x) fs fs' -> restored_step x fs' -> Inv fs').

Lemma step_path_inj x y : x ∈ restore_steps -> y ∈ restore_steps -> step_path x = step_path y -> x = y.
Proof.
  clear Habs Howner HInv. revert Hdist. induction restore_steps as [|z l IH]; [by intros _ ?%elem_of_nil|].
  rewrite fmap_cons, NoDup_cons. intros [Hz Hl]. rewrite !elem_of_cons.
  intros [->|Hx] [->|Hy] He; [done| | |by apply IH].
  - exfalso. apply Hz. rewrite He. by apply list_elem_of_fmap_2.
  - exfalso. apply Hz. rewrite <-He. by apply list_elem_of_fmap_2.
Qed.

Lemma in_steps b : Some b ∈ restore_steps -> b ∈ snapshots plan.
Proof.
  unfold restore_steps. rewrite elem_of_app, list_elem_of_fmap, list_elem_of_singleton.
  by intros [(x & [= ->] & Hx)|?].
Qed.
Lemma steps_in b : b ∈ snapshots plan -> Some b ∈ restore_steps.
Proof. unfold restore_steps. rewrite elem_of_app, list_elem_of_fmap. eauto. Qed.
Lemma link_in : None ∈ restore_steps.
Proof. unfold restore_steps. apply elem_of_app. right. by apply list_elem_of_singleton. Qed.

Lemma spec_restore_step c x fs :
  x ∈ restore_steps -> ready fs ->
  spec c (fun s => s.1 = fs) (restore_step x)
    (fun _ s => touches (step_path x) fs s.1 /\ restored_step x s.1)
    (fun s => c = false /\ s.1 = fs)
    (fun s => s.1 = fs \/ (touches (step_path x) fs s.1 /\ restored_step x s.1)).
Proof.
  intros Hx [Hs Hl]. destruct x as [b|]; simpl.
  - apply in_steps in Hx. unfold writeSnapshot, restored_step, realises. destruct (Exists b) eqn:He.
    + destruct (Howner b Hx He) as [Hu Hg].
      set (Q := fun fs' => touches (sn_Path b) fs fs' /\
        fs' !! sn_Path b = Some (Reg (Bytes (Content b)) (sn_Mode b) (sn_UID b) (sn_GID b))).
      apply (spec_write c _ _ _ _ _ (fun fs' => fs' = fs) Q (fun fs' => c = false /\ fs' = fs) (fun fs' => fs' = fs \/ Q fs')).
      * auto.
      * auto.
      * auto.
      * intros fs' -> H. by destruct (Hs b Hx He).
      * intros fs' ->. rewrite (proj2 (Z.leb_le 0 (sn_UID b))), (proj2 (Z.leb_le 0 (sn_GID b))) by done. simpl.
        split; [intros q Hq; by rewrite lookup_insert_ne|by rewrite lookup_insert_eq].
    + apply spec_remove; [auto|auto|]. intros s ->. simpl.
      split; [intros q Hq; by rewrite lookup_delete_ne|by rewrite lookup_delete_eq].
  - eapply spec_conseq; [by apply (spec_setEnabled o slug c (EnabledBefore plan) fs Habs)|auto..].
Qed.

Lemma restored_frame x y fs fs' :
  x ∈ restore_steps -> y ∈ restore_steps -> x <> y -> touches (step_path x) fs fs' ->
  restored_step y fs -> restored_step y fs'.
Proof.
  intros Hx Hy Hne Ht. assert (Hp : fs' !! step_path y = fs !! step_path y).
  { apply Ht. intros He. apply Hne. symmetry. by apply step_path_inj. }
  destruct y as [b|]; simpl in *; [by rewrite Hp|]. intros <-. by apply link_state_local.
Qed.

Lemma ready_step x fs fs' : x ∈ restore_steps -> ready fs -> touches (step_path x) fs fs' -> restored_step x fs' -> ready fs'.
Proof.
  intros Hx [Hs Hl] Ht Hd. split.
  - intros b Hb He. destruct (decide (step_path x = sn_Path b)) as [Hp|Hp].
    + assert (x = Some b) as -> by (apply step_path_inj; [done|by apply steps_in|done]).
      simpl in Hd. unfold realises in Hd. rewrite He in Hd. by rewrite Hd.
    + rewrite Ht by done. by apply Hs.
  - intros He. destruct x as [b|].
    + specialize (Hl He). rewrite (link_state_local o slug fs' fs); [done|]. apply Ht. intros Hp.
      assert (Some b = None) by (apply step_path_inj; [done|apply link_in|exact (eq_sym Hp)]). done.
    + simpl in Hd. by rewrite Hd.
Qed.

Definition restored (fs : filesystem) : Prop := forall x, x ∈ restore_steps -> restored_step x fs.

Lemma spec_restore c :
  spec c (on_files (fun fs => ready fs /\ Inv fs)) (restore o plan)
    (fun _ => on_files (fun fs => restored fs /\ ready fs /\ Inv fs))
    (fun s => c = false /\ ready s.1 /\ Inv s.1) (on_files (fun fs => ready fs /\ Inv fs)).
Proof.
  rewrite restore_unfold.
  set (J := fun (before : list (option Snapshot)) fs => forall x, x ∈ before -> restored_step x fs).
  set (W := fun fs => ready fs /\ Inv fs).
  assert (Hstep : forall x, x ∈ restore_steps -> forall fs, W fs ->
    spec c (fun s => s.1 = fs) (restore_step x)
      (fun _ s => touches (step_path x) fs s.1 /\ restored_step x s.1 /\ W s.1)
      (fun s => c = false /\ W s.1) (on_files W)).
  { intros x Hx fs [Hr Hi]. eapply spec_conseq; [by apply (spec_restore_step c x fs)|auto|..].
    - intros _ s [Ht Hd]. split_and!; [done..|]. split; [by eapply ready_step|by eapply HInv].
    - intros s [Hc Hs]. split; [done|]. by rewrite Hs.
    - intros s [Hs|[Ht Hd]]; unfold on_files; [by rewrite Hs|]. split; [by eapply ready_step|by eapply HInv]. }
  eapply spec_bind.
  - eapply spec_pre; [apply (spec_collect restore_step c J W (c = false) _ [] restore_steps)|].
    + intros before x rest Hl h Hc [HJ HW]. assert (Hx : x ∈ restore_steps) by (rewrite Hl; set_solver).
      pose proof (Hstep x Hx _ HW h Hc eq_refl) as H. destruct (restore_step x h) as [[a|e|] h']; [|done..].
      destruct H as (Hc' & Ht & Hd & HW'). split; [done|]. split; [|done]. intros y [Hy| ->%list_elem_of_singleton]%elem_of_app; [|done].
      destruct (decide (x = y)) as [->|Hne]; [done|].
      assert (y ∈ restore_steps) by (rewrite Hl; set_solver). eapply restored_frame; [exact Hx| |done|exact Ht|]; [done|by apply HJ].
    + intros x Hx h Hc HW. pose proof (Hstep x Hx _ HW h Hc eq_refl) as H.
      destruct (restore_step x h) as [[a|e|] h']; [|done..]. by destruct H as (? & _ & _ & ?).
    + done.
    + intros s HW. split; [|done]. intros x ?%elem_of_nil. done.
  - intros fl. destruct fl as [|e fl].
    + apply spec_ret. intros s (HW & HJ & _). split; [by apply HJ|done].
    + apply spec_fail. intros s (HW & _ & HE). split; [by apply HE|done].
Qed.
End restoring.
