(* ===== verification/SitePlans.v ===== *)
(** * Plans and their application

    What [Plan] records, what each stage of [Apply] has established, and the
    specifications of [Apply] and [Rollback] for a plan that is current. *)

From S2P Require Import Prelude GoStrings Naming Sites SiteChecks Update UpdateLogic SiteHost SiteActivation.

Local Open Scope Z_scope.

Section plans.
Context {node : NodeSystem} (text_of : content -> string) (digestBytes : string -> string).
Context (text_bytes : forall b, text_of (Bytes b) = b).
Context (o : HostOperator).
Notation snapshot_at := (snapshot_at text_of digestBytes).
Notation readSnapshot := (readSnapshot text_of digestBytes).
Notation MakePlan := (MakePlan text_of digestBytes o).

(** ** What a plan records *)
Record planned (fs : filesystem) (plan : Plan) : Prop := mk_planned {
  pl_valid : validatePlan o plan = Ok tt;
  pl_artifacts : Artifacts plan `sublist_of` rendered_artifacts (renderer o) (p_Site plan);
  pl_retired : Retired plan = retired_paths (renderer o) (p_Site plan);
  pl_before : Forall2 (fun a b => snapshot_at fs (a_Path a) = Some b) (Artifacts plan) (Before plan);
  pl_retired_before : Forall2 (fun p b => snapshot_at fs p = Some b) (Retired plan) (RetiredBefore plan);
  pl_link : link_state o (Slug (p_Site plan)) fs = Some (EnabledBefore plan);
}.

Lemma snapshot_path fs p b : snapshot_at fs p = Some b -> sn_Path b = p.
Proof. unfold snapshot_at. repeat case_match; by intros [= <-]. Qed.

Lemma spec_plan_artifacts c l fs :
  spec c (on_files (eq fs)) (plan_artifacts text_of digestBytes l)
    (fun ps s => s.1 = fs /\ (fst <$> ps) `sublist_of` l /\ Forall (fun ab => snapshot_at fs (a_Path ab.1) = Some ab.2) ps)
    (on_files (eq fs)) (on_files (eq fs)).
Proof.
  induction l as [|a l IH]; simpl.
  { apply spec_ret. unfold on_files. intros s <-. done. }
  eapply spec_bind; [by apply spec_readSnapshot|]. intros b.
  apply (spec_bind c _ _ _ (fun rest s => snapshot_at fs (a_Path a) = Some b /\ s.1 = fs /\ (fst <$> rest) `sublist_of` l /\
    Forall (fun ab => snapshot_at fs (a_Path ab.1) = Some ab.2) rest)).
  - intros h Hc [Hs Hb]. pose proof (IH h Hc Hs) as H. rewrite <-Hs in Hb.
    destruct (plan_artifacts text_of digestBytes l h) as [[r|e|] h']; [|done..]. destruct H as (? & ? & ? & ?). done.
  - intros rest. apply spec_ret. intros s (Hb & Hs & Hsub & Hall). split; [done|].
    destruct (keep_artifact a b); simpl.
    + split; [by constructor|]. by constructor.
    + split; [by constructor|done].
Qed.

Lemma spec_map_snapshots c l fs :
  spec c (on_files (eq fs)) (map_M readSnapshot l)
    (fun bs s => s.1 = fs /\ Forall2 (fun p b => snapshot_at fs p = Some b) l bs)
    (on_files (eq fs)) (on_files (eq fs)).
Proof.
  induction l as [|p l IH]; simpl; [by apply spec_ret; unfold on_files; intros s <-|].
  eapply spec_bind; [by apply spec_readSnapshot|]. intros b.
  apply (spec_bind c _ _ _ (fun bs s => snapshot_at fs p = Some b /\ s.1 = fs /\ Forall2 (fun p b => snapshot_at fs p = Some b) l bs)).
  - intros h Hc [Hs Hb]. pose proof (IH h Hc Hs) as H. rewrite <-Hs in Hb.
    destruct (map_M _ l h) as [[r|e|] h']; [|done..]. destruct H as (? & ? & ?). done.
  - intros bs. apply spec_ret. intros s (Hb & Hs & Hall). auto.
Qed.

(** The rendered artifacts have different kinds. *)
Lemma by_kind_rendered r site a : a ∈ rendered_artifacts r site -> by_kind (a_Kind a) (rendered_artifacts r site) = Some a.
Proof.
  unfold rendered_artifacts, artifact_roots, conditionals.
  destruct (deployerLayout site), (rl_Enabled _), (ba_Enabled _), (lr_Enabled _);
    simpl; intros Ha; repeat (apply elem_of_cons in Ha as [->|Ha]; [done|]); by apply elem_of_nil in Ha.
Qed.

Lemma matches_rendered fs l bs r site :
  Forall2 (fun a b => snapshot_at fs (a_Path a) = Some b) l bs -> l `sublist_of` rendered_artifacts r site ->
  forallb (fun ab => artifact_matches (rendered_artifacts r site) ab.1 ab.2) (zip l bs) = true.
Proof.
  intros H Hl. apply List.forallb_forall. intros [a b] Hin%list_elem_of_In. simpl.
  assert (Hab : a ∈ l /\ snapshot_at fs (a_Path a) = Some b).
  { clear Hl. induction H as [|x y l bs Hxy _ IH]; [by apply elem_of_nil in Hin|].
    simpl in Hin. apply elem_of_cons in Hin as [[= -> ->]|Hin]; [split; [by left|done]|].
    destruct (IH Hin) as [? ?]. split; [by right|done]. }
  destruct Hab as [Ha Hb]. unfold artifact_matches. rewrite by_kind_rendered by (by eapply elem_of_sublist).
  apply snapshot_path in Hb as ->. by rewrite !String.eqb_refl, Z.eqb_refl.
Qed.

Lemma forallb_eqb_refl l : forallb (fun pe => String.eqb pe.1 pe.2) (zip l l) = true.
Proof. induction l as [|x l IH]; [done|]. simpl. by rewrite String.eqb_refl. Qed.

Lemma forallb_paths fs l bs : Forall2 (fun p b => snapshot_at fs p = Some b) l bs ->
  forallb (fun pb => String.eqb pb.1 (sn_Path pb.2)) (zip l bs) = true.
Proof. induction 1 as [|p b l bs Hb _ IH]; [done|]. simpl. apply snapshot_path in Hb as ->. by rewrite String.eqb_refl. Qed.

Lemma spec_MakePlan c id now site fs : id <> EmptyString ->
  spec c (on_files (eq fs)) (MakePlan id now site)
    (fun plan s => s.1 = fs /\ planned fs plan /\ p_Site plan = site /\ Teardown plan = false /\
                   ExpiresAt plan = now + half_hour)
    (on_files (eq fs)) (on_files (eq fs)).
Proof.
  intros Hid. unfold SiteHost.MakePlan. destruct (Render (renderer o) site) as [[arts ret]|e] eqn:Hr; [|by apply spec_fail].
  destruct (Render_fine _ _ _ _ Hr) as (_ & -> & ->).
  eapply spec_bind; [apply spec_plan_artifacts|]. intros ps. simpl.
  apply (spec_bind c _ _ _ (fun rb s => s.1 = fs /\ ((fst <$> ps) `sublist_of` rendered_artifacts (renderer o) site /\
    Forall (fun ab => snapshot_at fs (a_Path ab.1) = Some ab.2) ps) /\
    Forall2 (fun p b => snapshot_at fs p = Some b) (retired_paths (renderer o) site) rb)).
  { intros h Hc (Hs & H). pose proof (spec_map_snapshots c (retired_paths (renderer o) site) fs h Hc (eq_sym Hs)) as Hm.
    destruct (map_M _ _ h) as [[rb|e|] h']; [|done..]. destruct Hm as (? & ? & ?). done. }
  intros rb.
  eapply (spec_bind c _ _ _ (fun b s => (s.1 = fs /\ ((fst <$> ps) `sublist_of` rendered_artifacts (renderer o) site /\
    Forall (fun ab => snapshot_at fs (a_Path ab.1) = Some ab.2) ps) /\
    Forall2 (fun p b => snapshot_at fs p = Some b) (retired_paths (renderer o) site) rb) /\ link_state o (Slug site) s.1 = Some b)).
  { apply (spec_enabled o (Slug site) c (fun fs' => fs' = fs /\ _ /\ _)); unfold on_files; naive_solver. }
  intros b. apply spec_ret. intros s ((Hs & (Hsub & Hall) & Hret) & Hlink). split_and!; try done.
  assert (Hbefore : Forall2 (fun a b => snapshot_at fs (a_Path a) = Some b) (fst <$> ps) (snd <$> ps)).
  { clear Hsub. induction Hall; constructor; auto. }
  split; simpl; try done; [|by rewrite <-Hs].
  unfold validatePlan. simpl. rewrite Hr.
  rewrite !seq_ok, !fail_if_ok. rewrite (matches_rendered fs), forallb_eqb_refl, (forallb_paths fs) by done.
  rewrite !length_fmap, !Nat.eqb_refl, (Forall2_length _ _ _ Hret), Nat.eqb_refl.
  apply String.eqb_neq in Hid. rewrite Hid. done.
Qed.

(** ** Plans over distinct paths *)
Definition file_paths (plan : Plan) : list string := (a_Path <$> Artifacts plan) ++ Retired plan.
Definition link_path (plan : Plan) : string := enabled_path o (Slug (p_Site plan)).
Definition apart (plan : Plan) : Prop := NoDup (file_paths plan ++ [link_path plan]).

Lemma planned_apart fs plan : planned fs plan -> NoDup (managed_by o (p_Site plan)) -> apart plan.
Proof.
  intros Hp Hn. unfold apart, file_paths, link_path. unfold managed_by in Hn. rewrite (pl_retired _ _ Hp).
  rewrite <-(assoc_L (++)). eapply sublist_NoDup; [exact Hn|].
  apply sublist_app; [|done]. apply fmap_sublist, Hp.
Qed.

(** A regular file as the agent writes it: bytes, permission bits, an owner. *)
Definition tidy (paths : list string) (fs : filesystem) : Prop :=
  forall p c m u g, p ∈ paths -> fs !! p = Some (Reg c m u g) -> (exists b, c = Bytes b) /\ perm m = m /\ 0 <= u /\ 0 <= g.

(** The state a plan recorded, as far as it manages it. *)
Definition same (plan : Plan) (fs fs' : filesystem) : Prop :=
  agree (file_paths plan) fs fs' /\
  link_state o (Slug (p_Site plan)) fs' = link_state o (Slug (p_Site plan)) fs.

Section current.
Context (plan : Plan) (fs0 : filesystem).
Context (Hplan : planned fs0 plan) (Hapart : apart plan) (Htidy : tidy (file_paths plan) fs0).
Let slug := Slug (p_Site plan).

Lemma snapshot_of_path p : p ∈ file_paths plan -> exists b, b ∈ snapshots plan /\ snapshot_at fs0 p = Some b /\ sn_Path b = p.
Proof.
  intros Hp. assert (Hb : exists b, b ∈ snapshots plan /\ snapshot_at fs0 p = Some b).
  { unfold file_paths in Hp. apply elem_of_app in Hp as [Hp|Hp].
    - apply list_elem_of_fmap in Hp as (a & -> & Ha). apply list_elem_of_lookup_1 in Ha as (i & Hi).
      destruct (Forall2_lookup_l _ _ _ _ _ (pl_before _ _ Hplan) Hi) as (b & Hb & Hs).
      exists b. split; [|done]. unfold snapshots.
      apply elem_of_app. right. apply list_elem_of_In, in_rev. rewrite rev_involutive.
      apply list_elem_of_In. by eapply list_elem_of_lookup_2.
    - apply list_elem_of_lookup_1 in Hp as (i & Hi).
      destruct (Forall2_lookup_l _ _ _ _ _ (pl_retired_before _ _ Hplan) Hi) as (b & Hb & Hs).
      exists b. split; [|done]. unfold snapshots. apply elem_of_app. left. apply list_elem_of_In, in_rev.
      rewrite rev_involutive. apply list_elem_of_In. by eapply list_elem_of_lookup_2. }
  destruct Hb as (b & Hb & Hs). exists b. split_and!; [done..|]. by eapply snapshot_path.
Qed.

Lemma path_of_snapshot b : b ∈ snapshots plan -> sn_Path b ∈ file_paths plan /\ snapshot_at fs0 (sn_Path b) = Some b.
Proof.
  unfold snapshots. rewrite elem_of_app, !list_elem_of_In, <-!in_rev, <-!list_elem_of_In. unfold file_paths.
  intros [Hb|Hb]; apply list_elem_of_lookup_1 in Hb as (i & Hi).
  - destruct (Forall2_lookup_r _ _ _ _ _ (pl_retired_before _ _ Hplan) Hi) as (p & Hp & Hs).
    pose proof (snapshot_path _ _ _ Hs) as He. rewrite He. split; [|done]. apply elem_of_app. right. by eapply list_elem_of_lookup_2.
  - destruct (Forall2_lookup_r _ _ _ _ _ (pl_before _ _ Hplan) Hi) as (a & Ha & Hs).
    pose proof (snapshot_path _ _ _ Hs) as He. rewrite He. split; [|done]. apply elem_of_app. left.
    apply list_elem_of_fmap. exists a. split; [done|]. by eapply list_elem_of_lookup_2.
Qed.

Lemma snapshot_realises p b : p ∈ file_paths plan -> snapshot_at fs0 p = Some b -> realises b (fs0 !! p) /\
  (Exists b = true -> 0 <= sn_UID b /\ 0 <= sn_GID b).
Proof.
  intros Hp. unfold SiteActivation.snapshot_at, realises. destruct (fs0 !! p) as [[x m u g| |]|] eqn:Hn; [|done..|].
  - destruct (Htidy p x m u g Hp Hn) as ((y & ->) & Hm & Hu & Hg). rewrite text_bytes.
    case_match; [done|]. intros [= <-]. simpl. by rewrite text_bytes, Hm.
  - by intros [= <-].
Qed.

Lemma restored_same fs : restored o plan fs -> same plan fs0 fs.
Proof.
  intros H. split.
  - intros p Hp. destruct (snapshot_of_path p Hp) as (b & Hb & Hs & He).
    destruct (snapshot_realises p b Hp Hs) as [Hr _]. specialize (H (Some b) (steps_in plan b Hb)). simpl in H.
    rewrite He in H. unfold realises in *. congruence.
  - specialize (H None (link_in plan)). simpl in H. rewrite H. symmetry. apply (pl_link _ _ Hplan).
Qed.

Lemma steps_apart : NoDup (step_path o plan <$> restore_steps plan).
Proof.
  assert (Hp : step_path o plan <$> restore_steps plan ≡ₚ file_paths plan ++ [link_path plan]); [|by rewrite Hp].
  unfold restore_steps. rewrite fmap_app. apply Permutation_app; [|done].
  rewrite <-list_fmap_compose. unfold snapshots, file_paths. rewrite fmap_app.
  rewrite (Permutation_app_comm (_ <$> rev (RetiredBefore plan))). apply Permutation_app.
  - rewrite <-Permutation_rev. pose proof (pl_before _ _ Hplan) as H. induction H as [|a b l bs Hb _ IH]; [done|].
    rewrite !fmap_cons. apply snapshot_path in Hb. unfold compose at 1. simpl. rewrite Hb. by constructor.
  - rewrite <-Permutation_rev. pose proof (pl_retired_before _ _ Hplan) as H.
    induction H as [|a b l bs Hb _ IH]; [done|].
    rewrite !fmap_cons. apply snapshot_path in Hb. unfold compose at 1. simpl. rewrite Hb. by constructor.
Qed.

Lemma snapshots_owned b : b ∈ snapshots plan -> Exists b = true -> 0 <= sn_UID b /\ 0 <= sn_GID b.
Proof. intros Hb. destruct (path_of_snapshot b Hb) as [Hp Hs]. by apply (snapshot_realises _ _ Hp Hs). Qed.

Context (Habs : is_abs (definition_path o slug) = true).

(** From any state in which the recorded files can be written, restoring succeeds. *)
Lemma spec_restore_same c :
  spec c (on_files (ready o plan)) (restore o plan) (fun _ => on_files (same plan fs0))
    (fun s => c = false /\ True) (on_files (fun _ => True)).
Proof.
  eapply spec_conseq; [apply (spec_restore o plan Habs steps_apart snapshots_owned (fun _ => True)); done| |..].
  - by intros s Hs.
  - intros _ s (H & _). by apply restored_same.
  - intros s (? & _). done.
  - done.
Qed.
(** ** The stages of [Apply], when no system call is refused *)
Notation any := (on_files (fun _ => True)).
Context {laws : NodeSystemLaws o}.

Definition written (l : list Artifact) (fs : filesystem) : Prop :=
  forall a, a ∈ l -> exists u g, fs !! a_Path a = Some (Reg (Bytes (a_Content a)) (a_Mode a) u g).
Definition removed (l : list string) (fs : filesystem) : Prop := forall p, p ∈ l -> fs !! p = None.
Definition activated (fs : filesystem) : Prop :=
  written (Artifacts plan) fs /\ removed (Retired plan) fs /\ link_state o slug fs = Some true.
Definition oversize : Prop := exists a, a ∈ Artifacts plan /\ 524288 < len (a_Content a).

Lemma recorded_no_special p : p ∈ file_paths plan -> fs0 !! p <> Some Special.
Proof.
  intros Hp Hn. destruct (snapshot_of_path p Hp) as (b & _ & Hs & _). unfold SiteActivation.snapshot_at in Hs.
  by rewrite Hn in Hs.
Qed.

(** Restoring is possible when nothing but files stands at the paths. *)
Lemma ready_files fs :
  (forall p, p ∈ file_paths plan -> fs !! p <> Some Special) -> link_state o slug fs <> None -> ready o plan fs.
Proof. intros Hf Hl. split; [|done]. intros b Hb _. apply Hf, path_of_snapshot, Hb. Qed.

Lemma same_ready fs : same plan fs0 fs -> ready o plan fs.
Proof.
  intros [Ha Hl]. apply ready_files.
  - intros p Hp. rewrite <-(Ha p Hp). by apply recorded_no_special.
  - fold slug in Hl. rewrite Hl. subst slug. by rewrite (pl_link _ _ Hplan).
Qed.

Lemma written_retired_ready fs :
  written (Artifacts plan) fs -> (forall p, p ∈ Retired plan -> fs !! p <> Some Special) -> link_state o slug fs <> None ->
  ready o plan fs.
Proof.
  intros Hw Hr Hl. apply ready_files; [|done]. intros p Hp. unfold file_paths in Hp.
  apply elem_of_app in Hp as [Hp|Hp]; [|by apply Hr]. apply list_elem_of_fmap in Hp as (a & -> & Ha).
  destruct (Hw a Ha) as (u & g & ->). done.
Qed.

Lemma spec_rollbackFailure {A} cause (Q : A -> state -> Prop) :
  spec true (on_files (ready o plan)) (rollbackFailure o plan cause) Q (on_files (same plan fs0)) any.
Proof.
  unfold rollbackFailure.
  apply (spec_bind _ _ _ _ (fun _ => on_files (same plan fs0))); [|intros fl; by apply spec_fail].
  simpl collect. apply (spec_bind _ _ _ _ (fun _ => on_files (same plan fs0))).
  - eapply spec_conseq; [apply spec_attempt, spec_wrap, (spec_restore_same true)|..]; [done| |intros ? H; exact H|done].
    intros [[]|e] s Hs; [done|by destruct Hs].
  - intros r. apply (spec_bind _ _ _ _ (fun _ => on_files (same plan fs0))); [|intros fl; by apply spec_ret].
    assert (Hq : forall m what, quiet m -> spec true (on_files (same plan fs0)) (wrap what m)
      (fun _ => on_files (same plan fs0)) (fun s => True /\ same plan fs0 s.1) (on_files (same plan fs0))).
    { intros m what Hm. apply spec_wrap. eapply spec_conseq; [by apply (spec_quiet _ m (same plan fs0) (same plan fs0) (same plan fs0))|done..]. }
    eapply spec_conseq; [apply (spec_collect_weak id true (same plan fs0) True (on_files (same plan fs0)) [_; _; _])|done..].
    intros m. rewrite !elem_of_cons, elem_of_nil. intros [->|[->|[->|[]]]]; apply Hq.
    + apply law_reload_php.
    + unfold reload_retired. destruct (String.eqb _ _); [|apply law_reload_php].
      intros c fs h Hc Hs. done.
    + apply law_reload_nginx.
Qed.

Lemma spec_or_rollback (P Q : filesystem -> Prop) m :
  spec true (on_files P) m (fun _ => on_files Q) (on_files (ready o plan)) any ->
  spec true (on_files P) (or_rollback o plan m) (fun _ => on_files Q) (on_files (same plan fs0)) any.
Proof.
  intros Hm. unfold or_rollback. eapply spec_bind; [by apply spec_attempt|].
  intros [[]|e]; [by apply spec_ret|]. apply spec_rollbackFailure.
Qed.

Lemma apart_artifact before a rest : Artifacts plan = before ++ a :: rest ->
  a_Path a ∉ a_Path <$> before /\ a_Path a ∉ Retired plan /\ a_Path a <> link_path plan /\ a_Path a ∈ file_paths plan.
Proof.
  intros Hl. unfold apart, file_paths in Hapart. rewrite Hl, fmap_app, fmap_cons, <-!(assoc_L (++)) in Hapart.
  apply NoDup_app in Hapart as (_ & Hb & Hr). cbn [app] in Hb, Hr. apply NoDup_cons in Hr as [Hn _].
  unfold file_paths. rewrite Hl, fmap_app, fmap_cons. rewrite !elem_of_app, list_elem_of_singleton in Hn. split_and!.
  - intros Hin. apply (Hb _ Hin). by left.
  - naive_solver.
  - naive_solver.
  - rewrite !elem_of_app, elem_of_cons. auto.
Qed.

Lemma apart_retired before p rest : Retired plan = before ++ p :: rest ->
  p ∉ before /\ p ∉ a_Path <$> Artifacts plan /\ p <> link_path plan /\ p ∈ file_paths plan.
Proof.
  intros Hl. unfold apart, file_paths in Hapart. rewrite Hl, <-!(assoc_L (++)) in Hapart.
  apply NoDup_app in Hapart as (_ & Ha & Hr). apply NoDup_app in Hr as (_ & Hb & Hr).
  cbn [app] in Hb, Hr. apply NoDup_cons in Hr as [Hn _].
  unfold file_paths. rewrite Hl. rewrite elem_of_app, list_elem_of_singleton in Hn. split_and!.
  - intros Hin. apply (Hb _ Hin). by left.
  - intros Hin. apply (Ha _ Hin). rewrite elem_of_app. right. by left.
  - naive_solver.
  - rewrite !elem_of_app, elem_of_cons. auto.
Qed.

Lemma recorded_link : link_state o slug fs0 <> None.
Proof. subst slug. by rewrite (pl_link _ _ Hplan). Qed.

(** *** Writing the artifacts *)
Definition writing (before : list Artifact) (fs : filesystem) : Prop :=
  written before fs /\
  (forall p, p ∈ file_paths plan -> p ∉ a_Path <$> before -> fs !! p = fs0 !! p) /\
  link_state o slug fs = link_state o slug fs0.

Lemma writing_ready before fs : writing before fs -> ready o plan fs.
Proof.
  intros (Hw & Hr & Hl). apply ready_files; [|rewrite Hl; apply recorded_link].
  intros p Hp. destruct (decide (p ∈ a_Path <$> before)) as [Hin|Hout].
  - apply list_elem_of_fmap in Hin as (a & -> & Ha). by destruct (Hw a Ha) as (u & g & ->).
  - rewrite (Hr p Hp Hout). by apply recorded_no_special.
Qed.

Lemma writing_step before a rest fs : Artifacts plan = before ++ a :: rest -> writing before fs ->
  writing (before ++ [a]) (<[a_Path a := Reg (Bytes (a_Content a)) (a_Mode a) 0 0]> fs).
Proof.
  intros Hl (Hw & Hr & Hlink). destruct (apart_artifact _ _ _ Hl) as (Hb & _ & Hne & _). split_and!.
  - intros x [Hx| ->%list_elem_of_singleton]%elem_of_app; [|rewrite lookup_insert_eq; eauto].
    destruct (Hw x Hx) as (u & g & Heq). exists u, g. rewrite lookup_insert_ne; [done|].
    intros He. apply Hb. rewrite He. by apply list_elem_of_fmap_2.
  - intros p Hp Hn. rewrite fmap_app, elem_of_app in Hn. rewrite lookup_insert_ne; [apply Hr; tauto|].
    intros <-. apply Hn. right. by apply list_elem_of_singleton.
  - rewrite <-Hlink. apply link_state_local. by rewrite lookup_insert_ne.
Qed.

Lemma spec_writeArtifacts :
  spec true (on_files (same plan fs0)) (writeArtifacts (Artifacts plan)) (fun _ => on_files (writing (Artifacts plan)))
    (on_files (ready o plan)) any.
Proof.
  eapply spec_pre; [apply (spec_for_each true (Artifacts plan) _ (fun before => on_files (writing before)))|].
  - intros before a rest Hl.
    apply (spec_write true (a_Path a) (a_Content a) (a_Mode a) (-1) (-1) (writing before) (writing (before ++ [a]))
      (ready o plan) (fun _ => True)); [done|done|done| |].
    + intros fs Hw _. by eapply writing_ready.
    + intros fs Hw. by eapply writing_step.
  - intros s [Ha Hl]. split_and!; [by intros a ?%elem_of_nil| |done].
    intros p Hp _. symmetry. by apply Ha.
Qed.

(** *** Removing what a setting no longer asks for *)
Definition removing (before : list string) (fs : filesystem) : Prop :=
  written (Artifacts plan) fs /\ removed before fs /\
  (forall p, p ∈ Retired plan -> p ∉ before -> fs !! p = fs0 !! p) /\
  link_state o slug fs = link_state o slug fs0.

Lemma removing_ready before fs : removing before fs -> ready o plan fs.
Proof.
  intros (Hw & Hr & Ho & Hl). apply written_retired_ready; [done| |rewrite Hl; apply recorded_link].
  intros p Hp. destruct (decide (p ∈ before)) as [Hin|Hout]; [by rewrite (Hr p Hin)|].
  rewrite (Ho p Hp Hout). apply recorded_no_special. unfold file_paths. apply elem_of_app. by right.
Qed.

Lemma spec_removeRetired :
  spec true (on_files (writing (Artifacts plan))) (removeRetired plan) (fun _ => on_files (removing (Retired plan)))
    (on_files (ready o plan)) any.
Proof.
  eapply spec_pre; [apply (spec_for_each true (Retired plan) _ (fun before => on_files (removing before)))|].
  - intros before p rest Hl. destruct (apart_retired _ _ _ Hl) as (Hb & Ha & Hne & _).
    apply spec_remove; [done|done|]. intros s (Hw & Hr & Ho & Hlink). split_and!; simpl.
    + intros a Hin. destruct (Hw a Hin) as (u & g & Heq). exists u, g. rewrite lookup_delete_ne; [done|].
      intros He. apply Ha. rewrite He. by apply list_elem_of_fmap_2.
    + intros q [Hq| ->%list_elem_of_singleton]%elem_of_app; [|by rewrite lookup_delete_eq].
      rewrite lookup_delete_None. right. by apply Hr.
    + intros q Hq Hn. rewrite elem_of_app, list_elem_of_singleton in Hn. rewrite lookup_delete_ne; [apply Ho; tauto|].
      intros <-. tauto.
    + rewrite <-Hlink. apply link_state_local. by rewrite lookup_delete_ne.
  - intros s (Hw & Hr & Hl). split_and!; [done|by intros p ?%elem_of_nil| |done].
    intros p Hp _. apply Hr; [unfold file_paths; apply elem_of_app; by right|].
    intros Hin. apply list_elem_of_lookup_1 in Hp as (i & Hi).
    destruct (apart_retired (take i (Retired plan)) p (drop (S i) (Retired plan))) as (_ & Hn & _); [|done].
    by rewrite take_drop_middle.
Qed.

(** *** Ownership and the link *)
Definition applied (on : option bool) (fs : filesystem) : Prop :=
  written (Artifacts plan) fs /\ removed (Retired plan) fs /\ link_state o slug fs = on /\ on <> None.

Lemma applied_ready on fs : applied on fs -> ready o plan fs.
Proof.
  intros (Hw & Hr & Hl & Hn). apply written_retired_ready; [done| |by rewrite Hl].
  intros p Hp. by rewrite (Hr p Hp).
Qed.

Lemma removing_applied fs : removing (Retired plan) fs -> applied (link_state o slug fs0) fs.
Proof. intros (Hw & Hr & _ & Hl). split_and!; [done..|apply recorded_link]. Qed.

Lemma secured_applied on fs fs' : applied on fs -> secured (Artifacts plan) fs fs' -> applied on fs'.
Proof.
  intros (Hw & Hr & Hl & Hn) Hs. split_and!; [| | |done].
  - intros a Ha. destruct (Hw a Ha) as (u & g & Hreg).
    destruct (Hs (a_Path a)) as [->|(b & c & m & u0 & g0 & u' & g' & Hb & He & Hold & Hnew)]; [eauto|].
    exists u', g'. rewrite Hreg in Hold. injection Hold as <- <- _ _. rewrite Hnew. do 2 f_equal.
    destruct (Hw b Hb) as (u1 & g1 & Hb1). rewrite <-He, Hreg in Hb1. by injection Hb1 as _ <- _ _.
  - intros p Hp. destruct (Hs p) as [->|(b & c & m & u0 & g0 & u' & g' & _ & _ & Hold & _)]; [by apply Hr|].
    by rewrite (Hr p Hp) in Hold.
  - rewrite <-Hl. apply link_state_local.
    destruct (Hs (enabled_path o slug)) as [->|(b & c & m & u0 & g0 & u' & g' & _ & _ & Hold & _)]; [done|].
    exfalso. apply Hn. rewrite <-Hl. unfold link_state. by rewrite Hold.
Qed.

Lemma linked_applied on fs fs' : applied on fs ->
  touches (enabled_path o slug) fs fs' -> link_state o slug fs' = Some true -> applied (Some true) fs'.
Proof.
  intros (Hw & Hr & _ & _) Ht Hl. split_and!; [| |done|done].
  - intros a Ha. destruct (Hw a Ha) as (u & g & Hreg). exists u, g. rewrite Ht; [done|].
    apply list_elem_of_lookup_1 in Ha as (i & Hi).
    destruct (apart_artifact (take i (Artifacts plan)) a (drop (S i) (Artifacts plan))) as (_ & _ & Hn & _); [|done].
    by rewrite take_drop_middle.
  - intros p Hp. rewrite Ht; [by apply Hr|].
    apply list_elem_of_lookup_1 in Hp as (i & Hi).
    destruct (apart_retired (take i (Retired plan)) p (drop (S i) (Retired plan))) as (_ & _ & Hn & _); [|done].
    by rewrite take_drop_middle.
Qed.

(** *** The whole of [Apply] *)
Lemma spec_setEnabled_applied on :
  spec true (on_files (applied on)) (setEnabled o slug true) (fun _ => on_files (applied (Some true)))
    (on_files (ready o plan)) any.
Proof.
  intros h Hc Ha. assert (Hn : true = true -> link_state o slug (files h) <> None).
  { intros _. destruct Ha as (_ & _ & Hl & Hne). simpl in Hl. by rewrite Hl. }
  pose proof (spec_setEnabled o slug true true (files h) Habs Hn h Hc eq_refl) as H.
  destruct (setEnabled o slug true h) as [[[]|e|] h']; destruct H as (Hc' & H); [|by destruct H|done].
  split; [done|]. destruct H as [Ht Hl]. by apply (linked_applied on (files h)).
Qed.

Lemma spec_applied_quiet what m on : quiet m ->
  spec true (on_files (applied on)) (wrap what m) (fun _ => on_files (applied on)) (on_files (ready o plan)) any.
Proof.
  intros Hm. apply spec_wrap. eapply spec_conseq; [by apply (spec_quiet true m (applied on) (applied on) (fun _ => True))|done|done| |done].
  intros s Hs. by eapply applied_ready.
Qed.

Lemma spec_observe :
  spec true (on_files (applied (Some true))) (observe text_of digestBytes o plan)
    (fun ob s => applied (Some true) s.1 /\ ob_Active ob = true) (fun s => applied (Some true) s.1 /\ oversize) any.
Proof.
  unfold observe.
  assert (Hmap : forall l, (forall a, a ∈ l -> a ∈ Artifacts plan) ->
    spec true (on_files (applied (Some true))) (map_M (fun a => readSnapshot (a_Path a)) l)
      (fun _ => on_files (applied (Some true))) (fun s => applied (Some true) s.1 /\ oversize) any).
  { intros l. induction l as [|a l IH]; intros Hin; simpl; [by apply spec_ret|].
    apply (spec_bind _ _ _ _ (fun _ => on_files (applied (Some true)))).
    - eapply spec_conseq; [apply (spec_readSnapshot text_of digestBytes true (a_Path a) (applied (Some true))
        (fun fs => applied (Some true) fs /\ oversize) (fun _ => True))|done| |done|done]; [done|done| |by intros b s [? _]].
      intros fs Ha Hs. split; [done|]. exists a. split; [apply Hin; by left|].
      destruct Ha as (Hw & _). destruct (Hw a ltac:(apply Hin; by left)) as (u & g & Hreg).
      unfold SiteActivation.snapshot_at in Hs. rewrite Hreg, text_bytes in Hs. case_match eqn:Hlen; [lia|done].
    - intros b. apply (spec_bind _ _ _ _ (fun _ => on_files (applied (Some true)))); [apply IH; intros x Hx; apply Hin; by right|].
      intros bs. by apply spec_ret. }
  eapply spec_bind; [by apply Hmap|]. intros items.
  eapply spec_bind; [apply (spec_enabled o slug true (applied (Some true)) (fun fs => applied (Some true) fs /\ oversize) (fun _ => True))|].
  - done.
  - done.
  - intros fs (_ & _ & Hl & _) Hn. congruence.
  - intros b. apply spec_ret. intros s [(Hw & Hr & Hl & Hn) Hb]. split; [done|]. simpl. congruence.
Qed.

Lemma spec_prepare :
  spec true (on_files (same plan fs0)) (PrepareSite (p_Site plan)) (fun _ => on_files (same plan fs0))
    (on_files (same plan fs0)) any.
Proof.
  apply (spec_leaves true _ _ _ (same plan fs0) (same plan fs0) (fun _ => True) (law_prepare (p_Site plan))).
  intros fs fs' [Ha Hl] Hk.
  assert (Hs : same plan fs0 fs').
  { split.
    - intros p Hp. rewrite (Ha p Hp). apply Hk. unfold managed_by. unfold file_paths in Hp.
      rewrite (pl_retired _ _ Hplan) in Hp. rewrite !elem_of_app. apply elem_of_app in Hp as [Hp|Hp]; [left|auto].
      eapply elem_of_sublist; [exact Hp|]. apply fmap_sublist, Hplan.
    - rewrite <-Hl. apply link_state_local. symmetry. apply Hk. unfold managed_by. rewrite !elem_of_app, list_elem_of_singleton. auto. }
  done.
Qed.

Lemma spec_checkBefore :
  spec true (on_files (same plan fs0)) (checkBefore text_of digestBytes o plan) (fun _ => on_files (same plan fs0))
    (on_files (same plan fs0)) any.
Proof.
  assert (Hcheck : forall l, spec true (on_files (same plan fs0)) (for_each l (check_snapshot text_of digestBytes))
    (fun _ => on_files (same plan fs0)) (on_files (same plan fs0)) any).
  { intros l. apply (spec_for_each true l _ (fun _ => on_files (same plan fs0))). intros before b rest _.
    eapply spec_bind; [by apply (spec_readSnapshot text_of digestBytes true _ (same plan fs0) (same plan fs0) (fun _ => True))|].
    intros x. destruct (same_state x b); [apply spec_ret|apply spec_fail]; by intros s [? _]. }
  unfold checkBefore. eapply spec_bind; [apply Hcheck|]. intros ?. eapply spec_bind; [apply Hcheck|]. intros ?.
  eapply spec_bind; [by apply (spec_enabled o slug true (same plan fs0) (same plan fs0) (fun _ => True))|].
  intros b. destruct (Bool.eqb b (EnabledBefore plan)); [apply spec_ret|apply spec_fail]; by intros s [? _].
Qed.

Lemma spec_Apply now :
  spec true (on_files (same plan fs0)) (Apply text_of digestBytes o now plan)
    (fun ob s => activated s.1 /\ ob_Active ob = true)
    (fun s => same plan fs0 s.1 \/ (activated s.1 /\ oversize)) any.
Proof.
  assert (Hweak : forall {A} P (m : M A) Q, spec true P m Q (on_files (same plan fs0)) any ->
    spec true P m Q (fun s => same plan fs0 s.1 \/ (activated s.1 /\ oversize)) any).
  { intros A P m Q Hm. eapply spec_conseq; [exact Hm|done|done|by left|done]. }
  unfold Apply. rewrite (pl_valid _ _ Hplan).
  apply (spec_bind _ _ _ _ (fun _ => on_files (same plan fs0))); [by apply spec_ret|intros ?].
  apply (spec_bind _ _ _ _ (fun _ => on_files (same plan fs0))).
  { destruct (ExpiresAt plan <? now); [apply spec_fail; by left|by apply spec_ret]. }
  intros ?. eapply spec_bind; [apply Hweak, spec_checkBefore|intros ?].
  eapply spec_bind; [apply Hweak, spec_wrap, spec_prepare|intros ?].
  eapply spec_bind; [apply Hweak, spec_or_rollback, spec_writeArtifacts|intros ?].
  eapply spec_bind; [apply Hweak, spec_or_rollback, spec_removeRetired|intros ?].
  apply (spec_bind _ _ _ _ (fun _ => on_files (applied (link_state o slug fs0)))).
  { apply Hweak, spec_or_rollback, spec_wrap.
    apply (spec_leaves true _ _ _ _ (ready o plan) (fun _ => True) (law_secure (p_Site plan) (Artifacts plan))).
    intros fs fs' Hr%removing_applied Hs. assert (Ha : applied (link_state o slug fs0) fs') by (by eapply secured_applied).
    split_and!; [done|by eapply applied_ready|done]. }
  intros ?. eapply spec_bind; [apply Hweak, spec_or_rollback, spec_setEnabled_applied|intros ?].
  eapply spec_bind; [apply Hweak, spec_or_rollback, spec_applied_quiet, law_document_root|intros ?].
  eapply spec_bind; [apply Hweak, spec_or_rollback, spec_applied_quiet, law_validate_php|intros ?].
  eapply spec_bind; [apply Hweak, spec_or_rollback, spec_applied_quiet, law_validate_nginx|intros ?].
  apply (spec_bind _ _ _ _ (fun _ => on_files (applied (Some true)))).
  { pose proof (spec_quiet true (reload_retired plan) (applied (Some true)) (applied (Some true)) (fun _ => True)) as Hq.
    intros h Hc Hs. unfold attempt.
    assert (Hr : quiet (reload_retired plan)).
    { unfold reload_retired. destruct (String.eqb _ _); [by intros c fs h' Hc' Hs'|apply law_reload_php]. }
    specialize (Hq Hr ltac:(done) ltac:(done) h Hc Hs). by destruct (reload_retired plan h) as [[[]|e|] h']. }
  intros ?. eapply spec_bind; [apply Hweak, spec_or_rollback, spec_applied_quiet, law_reload_php|intros ?].
  eapply spec_bind; [apply Hweak, spec_or_rollback, spec_applied_quiet, law_reload_nginx|intros ?].
  eapply spec_bind; [apply Hweak, spec_or_rollback, spec_applied_quiet, law_verify|intros ?].
  eapply spec_conseq; [apply spec_observe|done| | |done].
  - intros ob s [(Hw & Hr & Hl & _) Ha]. done.
  - intros s [(Hw & Hr & Hl & _) Ho]. by right.
Qed.

(** *** The whole of [Rollback] *)
Lemma spec_check_applied a : a ∈ Artifacts plan ->
  spec true (on_files activated) (check_applied text_of digestBytes plan a) (fun _ => on_files activated)
    (fun s => activated s.1 /\ oversize) any.
Proof.
  intros Ha. unfold check_applied.
  eapply spec_bind; [apply (spec_readSnapshot text_of digestBytes true _ activated (fun fs => activated fs /\ oversize) (fun _ => True))|].
  - done.
  - done.
  - intros fs Hact Hs. split; [done|]. exists a. split; [done|]. destruct Hact as (Hw & _).
    destruct (Hw a Ha) as (u & g & Hreg). unfold SiteActivation.snapshot_at in Hs.
    rewrite Hreg, text_bytes in Hs. case_match eqn:Hlen; [lia|done].
  - intros b h Hc [Hact Hs]. destruct Hact as (Hw & Hr & Hl). destruct (Hw a Ha) as (u & g & Hreg).
    unfold SiteActivation.snapshot_at in Hs. rewrite Hreg, text_bytes in Hs. case_match; [done|].
    injection Hs as <-. simpl. rewrite text_bytes, String.eqb_refl. split; [done|]. done.
Qed.

Lemma spec_same_quiet m : quiet m ->
  spec true (on_files (same plan fs0)) m (fun _ => on_files (same plan fs0))
    (fun s => same plan fs0 s.1 \/ (activated s.1 /\ oversize)) any.
Proof.
  intros Hm. eapply spec_conseq; [by apply (spec_quiet true m (same plan fs0) (same plan fs0) (fun _ => True))|done|done|by left|done].
Qed.

Lemma same_snapshot fs p : same plan fs0 fs -> p ∈ file_paths plan -> snapshot_at fs p <> None.
Proof.
  intros [Ha _] Hp. destruct (snapshot_of_path p Hp) as (b & _ & Hs & _).
  unfold SiteActivation.snapshot_at in *. rewrite <-(Ha p Hp). by rewrite Hs.
Qed.

Lemma spec_observe_same :
  spec true (on_files (same plan fs0)) (observe text_of digestBytes o plan) (fun _ => on_files (same plan fs0))
    (fun s => same plan fs0 s.1 \/ (activated s.1 /\ oversize)) any.
Proof.
  unfold observe.
  assert (Hmap : forall l, spec true (on_files (same plan fs0)) (map_M (fun a => readSnapshot (a_Path a)) l)
    (fun _ => on_files (same plan fs0)) (on_files (same plan fs0)) any).
  { intros l. induction l as [|a l IH]; simpl; [by apply spec_ret|].
    apply (spec_bind _ _ _ _ (fun _ => on_files (same plan fs0))).
    - eapply spec_conseq; [by apply (spec_readSnapshot text_of digestBytes true (a_Path a) (same plan fs0) (same plan fs0) (fun _ => True))|done| |done|done].
      by intros b s [? _].
    - intros b. apply (spec_bind _ _ _ _ (fun _ => on_files (same plan fs0))); [apply IH|]. intros bs. by apply spec_ret. }
  eapply spec_conseq; [eapply spec_bind; [apply Hmap|]|done|intros ob s H; exact H|by left|done].
  intros items. eapply spec_bind; [by apply (spec_enabled o slug true (same plan fs0) (same plan fs0) (fun _ => True))|].
  intros b. apply spec_ret. by intros s [? _].
Qed.

Lemma activated_ready fs : activated fs -> ready o plan fs.
Proof. intros (Hw & Hr & Hl). by apply (applied_ready (Some true)). Qed.

Lemma spec_Rollback :
  spec true (on_files activated) (Rollback text_of digestBytes o plan) (fun _ => on_files (same plan fs0))
    (fun s => same plan fs0 s.1 \/ (activated s.1 /\ oversize)) any.
Proof.
  unfold Rollback. rewrite (pl_valid _ _ Hplan).
  apply (spec_bind _ _ _ _ (fun _ => on_files activated)); [by apply spec_ret|intros ?].
  apply (spec_bind _ _ _ _ (fun _ => on_files activated)).
  { apply (spec_conseq true _ (on_files activated) _ _ (fun _ => on_files activated) _ (fun s => activated s.1 /\ oversize) _ any);
      [|done|done|by right|done].
    apply (spec_for_each true (Artifacts plan) _ (fun _ => on_files activated)).
    intros before x rest Hl. apply spec_check_applied. rewrite Hl. apply elem_of_app. right. by left. }
  intros ?. apply (spec_bind _ _ _ _ (fun _ => on_files (same plan fs0))).
  { eapply spec_conseq; [apply (spec_restore_same true)| |done| |done]; [by intros s ?%activated_ready|by intros s [? _]]. }
  intros ?. eapply spec_bind; [apply spec_same_quiet, law_validate_nginx|intros ?].
  eapply spec_bind; [apply spec_same_quiet, law_reload_php|intros ?].
  eapply spec_bind; [apply spec_same_quiet; unfold reload_retired|intros ?].
  { destruct (String.eqb _ _); [by intros c fs h Hc Hs|apply law_reload_php]. }
  eapply spec_bind; [apply spec_same_quiet, law_reload_nginx|intros ?]. apply spec_observe_same.
Qed.

End current.

(** ** Drift *)

(** A check that leaves the files alone and cannot succeed. *)
Lemma spec_for_each_never {A} c (l : list A) (f : A -> M unit) fs x :
  (forall y, spec c (on_files (eq fs)) (f y) (fun _ => on_files (eq fs)) (on_files (eq fs)) (on_files (eq fs))) ->
  x ∈ l -> spec c (on_files (eq fs)) (f x) (fun _ _ => False) (on_files (eq fs)) (on_files (eq fs)) ->
  spec c (on_files (eq fs)) (for_each l f) (fun _ _ => False) (on_files (eq fs)) (on_files (eq fs)).
Proof.
  intros Hf Hx Hn. induction l as [|y l IH]; [by apply elem_of_nil in Hx|]. simpl.
  apply elem_of_cons in Hx as [<-|Hx].
  - eapply spec_bind; [exact Hn|]. intros u h Hc [].
  - eapply spec_bind; [apply Hf|]. intros u. by apply IH.
Qed.

Lemma spec_never_bind {A B} c (m : M A) (k : A -> M B) P F I Q :
  spec c P m (fun _ _ => False) F I -> spec c P (m ≫= k) Q F I.
Proof. intros H. eapply spec_bind; [exact H|]. intros x h Hc []. Qed.

(** The recorded state of a path is not the present one. *)
Definition drifted (fs : filesystem) (b : Snapshot) : Prop :=
  forall s, snapshot_at fs (sn_Path b) = Some s -> same_state s b = false.

Lemma spec_check_snapshot_drift c fs b : drifted fs b ->
  spec c (on_files (eq fs)) (check_snapshot text_of digestBytes b) (fun _ _ => False) (on_files (eq fs)) (on_files (eq fs)).
Proof.
  intros Hd. eapply spec_bind; [by apply (spec_readSnapshot text_of digestBytes c _ (eq fs) (eq fs) (eq fs))|].
  intros s. destruct (same_state s b) eqn:Hs; [|by apply spec_fail; intros x [? _]].
  apply spec_ret. intros x [He Hsn]. rewrite <-He in Hsn. by rewrite (Hd s Hsn) in Hs.
Qed.

Lemma spec_check_snapshot_any c fs b :
  spec c (on_files (eq fs)) (check_snapshot text_of digestBytes b) (fun _ => on_files (eq fs)) (on_files (eq fs)) (on_files (eq fs)).
Proof.
  eapply spec_bind; [by apply (spec_readSnapshot text_of digestBytes c _ (eq fs) (eq fs) (eq fs))|].
  intros s. destruct (same_state s b); [apply spec_ret|apply spec_fail]; by intros x [? _].
Qed.

Lemma spec_Apply_drift c now plan fs b : b ∈ Before plan ++ RetiredBefore plan -> drifted fs b ->
  spec c (on_files (eq fs)) (Apply text_of digestBytes o now plan) (fun _ _ => False) (on_files (eq fs)) (on_files (eq fs)).
Proof.
  intros Hb Hd. unfold Apply.
  apply (spec_bind _ _ _ _ (fun _ => on_files (eq fs))); [destruct (validatePlan o plan); [by apply spec_ret|by apply spec_fail]|intros ?].
  apply (spec_bind _ _ _ _ (fun _ => on_files (eq fs))); [destruct (ExpiresAt plan <? now); [by apply spec_fail|by apply spec_ret]|intros ?].
  apply spec_never_bind. unfold checkBefore. apply elem_of_app in Hb as [Hb|Hb].
  - apply spec_never_bind. apply (spec_for_each_never c _ _ fs b); [apply spec_check_snapshot_any|done|by apply spec_check_snapshot_drift].
  - apply (spec_bind _ _ _ _ (fun _ => on_files (eq fs))).
    { apply (spec_for_each c _ _ (fun _ => on_files (eq fs))). intros. apply spec_check_snapshot_any. }
    intros ?. apply spec_never_bind.
    apply (spec_for_each_never c _ _ fs b); [apply spec_check_snapshot_any|done|by apply spec_check_snapshot_drift].
Qed.

(** An artifact whose content is not the rendered one. *)
Definition changed (plan : Plan) (fs : filesystem) (a : Artifact) : Prop :=
  forall s, snapshot_at fs (a_Path a) = Some s ->
    if Exists s then Digest s <> digestBytes (a_Content a) else Teardown plan = false.

Lemma spec_check_applied_any c plan fs a :
  spec c (on_files (eq fs)) (check_applied text_of digestBytes plan a) (fun _ => on_files (eq fs)) (on_files (eq fs)) (on_files (eq fs)).
Proof.
  eapply spec_bind; [by apply (spec_readSnapshot text_of digestBytes c _ (eq fs) (eq fs) (eq fs))|]. intros s.
  destruct (negb (Exists s)); [destruct (Teardown plan)|destruct (String.eqb _ _)];
    first [apply spec_ret; by intros x [? _]|apply spec_fail; by intros x [? _]].
Qed.

Lemma spec_Rollback_changed c plan fs a : a ∈ Artifacts plan -> changed plan fs a ->
  spec c (on_files (eq fs)) (Rollback text_of digestBytes o plan) (fun _ _ => False) (on_files (eq fs)) (on_files (eq fs)).
Proof.
  intros Ha Hch. unfold Rollback.
  apply (spec_bind _ _ _ _ (fun _ => on_files (eq fs))); [destruct (validatePlan o plan); [by apply spec_ret|by apply spec_fail]|intros ?].
  apply spec_never_bind. apply (spec_for_each_never c _ _ fs a); [apply spec_check_applied_any|done|].
  eapply spec_bind; [by apply (spec_readSnapshot text_of digestBytes c _ (eq fs) (eq fs) (eq fs))|]. intros s h Hc [He Hs].
  rewrite <-He in Hs. specialize (Hch s Hs). destruct (Exists s); simpl.
  - apply String.eqb_neq in Hch. rewrite Hch. done.
  - rewrite Hch. done.
Qed.
End plans.
