(* ===== verification/SiteHostProps.v ===== *)
(** * Activation, rollback and teardown

    What the agent's operator promises about the files of a site: an activation
    happens or is undone, a rollback puts back what stood before, neither touches files
    that changed in the meantime, and a teardown can be repeated until it is done. *)

From S2P Require Import Prelude GoStrings Update UpdateLogic Paths Naming Sites SiteChecks SiteProps SiteHost SiteActivation SitePlans.

Local Open Scope Z_scope.

(** ** The agent's operator, and the paths it manages for a site *)
Definition default_operator : HostOperator := mk_host_operator default_renderer "/etc/nginx/sites-enabled".

Definition site_components (site : Site) : list (list string) :=
  let named := named (Slug site) in
  let s := s_Settings site in
  let root := ["srv"; "nexa"; "sites"; Slug site]%string in
  when (negb (deployerLayout site)) [root ++ ["public"; "index.php"]%string] ++
  [["etc"; "php"; PHPVersion site; "fpm"; "pool.d"; named ".conf"];
   ["etc"; "nginx"; "sites-available"; named ".conf"]]%string ++
  [["etc"; "nginx"; "conf.d"; named "-ratelimit.conf"];
   ["etc"; "nginx"; "nexa-includes"; named ".htpasswd"];
   ["etc"; "logrotate.d"; named EmptyString]]%string ++
  when (negb (String.eqb (RetiredPHPVersion site) EmptyString) && negb (String.eqb (RetiredPHPVersion site) (PHPVersion site)))
    [["etc"; "php"; RetiredPHPVersion site; "fpm"; "pool.d"; named ".conf"]]%string ++
  [["etc"; "nginx"; "sites-enabled"; named ".conf"]]%string.

Lemma site_components_distinct site : NoDup (site_components site).
Proof.
  unfold site_components, when. destruct (negb (deployerLayout site)),
    (String.eqb (RetiredPHPVersion site) EmptyString), (String.eqb_spec (RetiredPHPVersion site) (PHPVersion site));
    simpl; repeat (apply NoDup_cons_2; [rewrite ?elem_of_cons, elem_of_nil; intros Hin; decompose [or] Hin; congruence|]);
    apply NoDup_nil_2.
Qed.

Lemma site_components_plain site : site_fine default_renderer site -> Forall (Forall plain) (site_components site).
Proof.
  intros Hv. pose proof (slug_plain _ (f_slug _ _ Hv)) as Hs.
  assert (Hn : forall x, all_bytes segment_byte x = true -> plain (named (Slug site) x)) by (intros x Hx; apply named_plain; [apply Hv|done]).
  pose proof (Hn EmptyString eq_refl). pose proof (Hn ".conf"%string eq_refl).
  pose proof (Hn ".htpasswd"%string eq_refl). pose proof (Hn "-ratelimit.conf"%string eq_refl).
  pose proof (version_plain _ (f_version _ _ Hv)).
  unfold site_components, when. destruct (negb (deployerLayout site)),
    (String.eqb_spec (RetiredPHPVersion site) EmptyString), (String.eqb (RetiredPHPVersion site) (PHPVersion site)); simpl;
  try (assert (plain (RetiredPHPVersion site)) by (destruct (f_retired _ _ Hv); [done|by apply version_plain]));
  repeat (constructor; [plain_list|]); constructor.
Qed.

Lemma site_file_path dir l site suffix :
  site_fine default_renderer site -> dir = abs l -> Forall plain l -> all_bytes segment_byte suffix = true ->
  filepath_join [dir; "nexa-" +:+ Slug site +:+ suffix] = abs (l ++ [named (Slug site) suffix]).
Proof. intros Hv -> Hl Hs. apply join_literal; [done|done|]. pose proof (named_plain _ _ (f_slug _ _ Hv) Hs). plain_list. Qed.

Lemma site_pool_path site v : site_fine default_renderer site -> phpVersionSupported v = true ->
  pool_path "/etc/php" site v = abs ["etc"; "php"; v; "fpm"; "pool.d"; named (Slug site) ".conf"]%string.
Proof.
  intros Hv Hver. pose proof (version_plain _ Hver). pose proof (named_plain _ ".conf" (f_slug _ _ Hv) eq_refl).
  apply (join_literal "/etc/php" ["etc"; "php"]%string); [done|plain_list|plain_list].
Qed.

Lemma site_index_path site : site_fine default_renderer site ->
  filepath_join [RootPath site; "public"; "index.php"]%string = abs ["srv"; "nexa"; "sites"; Slug site; "public"; "index.php"]%string.
Proof.
  intros Hv. pose proof (slug_plain _ (f_slug _ _ Hv)) as Hs.
  apply (join_clean _ ["srv"; "nexa"; "sites"; Slug site]%string); [|plain_list|plain_list].
  rewrite (f_root _ _ Hv). apply (join_literal _ ["srv"; "nexa"; "sites"]%string); [done|plain_list|plain_list].
Qed.

Lemma site_components_paths site : site_fine default_renderer site ->
  managed_by default_operator site ≡ₚ abs <$> site_components site.
Proof.
  intros Hv.
  unfold managed_by, rendered_artifacts, retired_paths, artifact_roots, conditionals, site_components, site_file,
    enabled_path, default_operator, default_renderer.
  cbn [renderer enabledRoot or_default NginxAvailableRoot PHPConfigRoot NginxConfDRoot NginxIncludesRoot LogrotateRoot String.eqb].
  rewrite (site_index_path _ Hv), (site_pool_path _ _ Hv (f_version _ _ Hv)).
  rewrite (site_file_path "/etc/nginx/sites-available" ["etc"; "nginx"; "sites-available"]%string) by (first [done|plain_list]).
  rewrite (site_file_path "/etc/nginx/conf.d" ["etc"; "nginx"; "conf.d"]%string) by (first [done|plain_list]).
  rewrite (site_file_path "/etc/nginx/nexa-includes" ["etc"; "nginx"; "nexa-includes"]%string) by (first [done|plain_list]).
  rewrite (site_file_path "/etc/nginx/sites-enabled" ["etc"; "nginx"; "sites-enabled"]%string) by (first [done|plain_list]).
  rewrite (site_file_path "/etc/logrotate.d" ["etc"; "logrotate.d"]%string) by (first [done|plain_list]).
  destruct (f_retired _ _ Hv) as [He|He]; [rewrite He|rewrite (site_pool_path _ _ Hv He)].
  all: unfold when; destruct (negb (deployerLayout site)), (rl_Enabled _), (ba_Enabled _), (lr_Enabled _); simpl;
    try destruct (negb _ && negb _); simpl; solve_Permutation.
Qed.

Lemma managed_distinct site : site_fine default_renderer site -> NoDup (managed_by default_operator site).
Proof.
  intros Hv. rewrite (site_components_paths site Hv).
  pose proof (site_components_plain site Hv) as Hp. pose proof (site_components_distinct site) as Hn.
  induction Hn as [|l ls Hl _ IH]; [apply NoDup_nil_2|]. inversion Hp; subst. rewrite fmap_cons. apply NoDup_cons_2; [|by apply IH].
  intros (m & He & Hm)%list_elem_of_fmap. apply abs_inj in He as <-; [done|done|].
  match goal with H : Forall (Forall plain) ls |- _ => rewrite Forall_forall in H; by apply H end.
Qed.

(** ** Plans of the agent's operator *)
Section promises.
Context {node : NodeSystem} {laws : NodeSystemLaws default_operator}.
Context (text_of : content -> string) (digestBytes : string -> string).
Context (text_bytes : forall b, text_of (Bytes b) = b).
Notation o := default_operator.
Notation MakePlan := (MakePlan text_of digestBytes o).
Notation PlanTeardown := (PlanTeardown text_of digestBytes o).
Notation Apply := (Apply text_of digestBytes o).
Notation Rollback := (Rollback text_of digestBytes o).

(** Making a plan changes no file and records what is there. *)
Lemma made_plan id now site h plan h' : id <> EmptyString -> MakePlan id now site h = (Done plan, h') ->
  files h' = files h /\ planned text_of digestBytes o (files h) plan /\ p_Site plan = site /\ site_fine default_renderer site /\ apart o plan.
Proof.
  intros Hid Hm. assert (Hf : false = true -> schedule h = []) by done.
  pose proof (spec_MakePlan text_of digestBytes o false id now site (files h) Hid h Hf eq_refl) as H.
  rewrite Hm in H. destruct H as (_ & Hfs & Hp & Hs & _).
  assert (Hv : site_fine default_renderer (p_Site plan)).
  { pose proof (pl_valid _ _ _ _ _ Hp) as Hv. unfold validatePlan in Hv. rewrite seq_ok in Hv. destruct Hv as [_ Hv].
    change (renderer o) with default_renderer in Hv. destruct (Render _ _) as [[arts ret]|e] eqn:Hr; [|done].
    by apply Render_fine in Hr as [? _]. }
  split_and!; try done; [by rewrite <-Hs|]. eapply planned_apart; [exact Hp|by apply managed_distinct].
Qed.

Lemma definition_abs site : site_fine default_renderer site -> is_abs (definition_path o (Slug site)) = true.
Proof.
  intros Hv. unfold definition_path.
  by rewrite (site_file_path _ ["etc"; "nginx"; "sites-available"]%string _ ".conf" Hv) by (first [done|plain_list]).
Qed.

(** C8. An activation happens or is undone.  The plan is made on a node whose managed
    files are as the agent writes them (document, permission bits, an owner), and
    nothing has changed since; system calls are answered, while preparing the site,
    checking the configuration, reloading the services and the request that verifies
    the site may each fail.  When [Apply] succeeds, every artifact holds its rendered
    text with its mode, every retired file is gone, the vhost is linked and the
    observation says so.  When it fails, every managed file and the link are as they
    were when the plan was made; the one exception is an artifact of more than 512 KiB,
    which is activated and then cannot be read back. *)
Theorem site_activation_atomic id now site h0 plan h1 later h :
  id <> EmptyString -> MakePlan id now site h0 = (Done plan, h1) -> tidy (file_paths plan) (files h0) ->
  schedule h = [] -> same o plan (files h0) (files h) ->
  match Apply later plan h with
  | (Done ob, h') => activated o plan (files h') /\ ob_Active ob = true
  | (Failed _, h') => same o plan (files h0) (files h') \/ (activated o plan (files h') /\ oversize plan)
  | (Crashed, _) => False
  end.
Proof.
  intros Hid Hm Ht Hs Hsame. destruct (made_plan _ _ _ _ _ _ Hid Hm) as (_ & Hp & <- & Hv & Ha).
  pose proof (spec_Apply text_of digestBytes text_bytes o plan (files h0) Hp Ha Ht (definition_abs _ Hv) later h (fun _ => Hs) Hsame) as H.
  destruct (Apply later plan h) as [[ob|e|] h']; [apply H|apply H|]. by destruct H.
Qed.

(** C9. Rolling an activation back restores the node.  From a state in which a plan's
    artifacts are active, with every system call answered, [Rollback] leaves each
    managed file with the content, mode and owner it had when the plan was made, each
    file that did not exist absent, the retired files back, and the link as it was,
    also when checking or reloading a service fails on the way. *)
Theorem site_rollback_roundtrip id now site h0 plan h1 h :
  id <> EmptyString -> MakePlan id now site h0 = (Done plan, h1) -> tidy (file_paths plan) (files h0) ->
  ~ oversize plan -> schedule h = [] -> activated o plan (files h) ->
  match Rollback plan h with
  | (Done _, h') | (Failed _, h') => same o plan (files h0) (files h')
  | (Crashed, _) => False
  end.
Proof.
  intros Hid Hm Ht Hno Hs Hact. destruct (made_plan _ _ _ _ _ _ Hid Hm) as (_ & Hp & <- & Hv & Ha).
  pose proof (spec_Rollback text_of digestBytes text_bytes o plan (files h0) Hp Ha Ht (definition_abs _ Hv) h (fun _ => Hs) Hact) as H.
  destruct (Rollback plan h) as [[ob|e|] h']; [apply H| |by destruct H]. by destruct H as [_ [H|[_ H]]].
Qed.

(** C11. Drift is refused.  Whatever the plan, its age and the answers of the node, and
    wherever the process dies: when a file it recorded is no longer in the recorded
    state, [Apply] does not succeed and leaves every file of the node as it found it;
    when an artifact does not hold its rendered text (or is missing, except in a
    teardown), neither does [Rollback]. *)
Theorem site_drift_refused plan later h :
  (forall b, b ∈ Before plan ++ RetiredBefore plan -> drifted text_of digestBytes (files h) b ->
     (forall ob, (Apply later plan h).1 <> Done ob) /\ files (Apply later plan h).2 = files h) /\
  (forall a, a ∈ Artifacts plan -> changed text_of digestBytes plan (files h) a ->
     (forall ob, (Rollback plan h).1 <> Done ob) /\ files (Rollback plan h).2 = files h).
Proof.
  assert (Hf : false = true -> schedule h = []) by done. split.
  - intros b Hb Hd. pose proof (spec_Apply_drift text_of digestBytes o false later plan (files h) b Hb Hd h Hf eq_refl) as H.
    destruct (Apply later plan h) as [[ob|e|] h']; destruct H as [_ H]; [done|split; [done|by symmetry]..].
  - intros a Ha Hc. pose proof (spec_Rollback_changed text_of digestBytes o false plan (files h) a Ha Hc h Hf eq_refl) as H.
    destruct (Rollback plan h) as [[ob|e|] h']; destruct H as [_ H]; [done|split; [done|by symmetry]..].
Qed.
End promises.

(** ** Tearing a site down

    A teardown is the rollback of a plan that records every managed path as absent
    ([PlanTeardown], then [Rollback]).  It may be refused, fail or die at any point,
    and be tried again: what is gone stays gone, what is left is as it was, and an
    undisturbed attempt finishes. *)
Section teardown.
Context {node : NodeSystem} {laws : NodeSystemLaws default_operator}.
Context (text_of : content -> string) (digestBytes : string -> string).
Notation o := default_operator.
Notation snapshot_at := (snapshot_at text_of digestBytes).
Notation readSnapshot := (readSnapshot text_of digestBytes).
Notation MakePlan := (MakePlan text_of digestBytes o).
Notation PlanTeardown := (PlanTeardown text_of digestBytes o).
Notation Rollback := (Rollback text_of digestBytes o).

(** ** What a teardown plan is *)
Record teardown_plan (plan : Plan) : Prop := mk_teardown_plan {
  td_valid : validatePlan o plan = Ok tt;
  td_teardown : Teardown plan = true;
  td_before : Before plan = (no_file ∘ a_Path) <$> Artifacts plan;
  td_retired : RetiredBefore plan = no_file <$> Retired plan;
  td_enabled : EnabledBefore plan = false;
  td_apart : apart o plan;
}.

Lemma matches_no_file l expected l' :
  forallb (fun ab => artifact_matches expected ab.1 ab.2) (zip l l') = true -> length l = length l' ->
  forallb (fun ab => artifact_matches expected ab.1 ab.2) (zip l ((no_file ∘ a_Path) <$> l)) = true.
Proof.
  revert l'. induction l as [|a l IH]; intros [|b l'] H Hl; [done..|].
  cbn [length] in Hl. injection Hl as Hl.
  change (artifact_matches expected a b && forallb (fun ab => artifact_matches expected ab.1 ab.2) (zip l l') = true) in H.
  apply andb_true_iff in H as [H1 H2]. specialize (IH l' H2 Hl).
  change (artifact_matches expected a (no_file (a_Path a)) &&
          forallb (fun ab => artifact_matches expected ab.1 ab.2) (zip l ((no_file ∘ a_Path) <$> l)) = true).
  rewrite IH, andb_true_r. unfold artifact_matches in *. cbn [no_file sn_Path]. destruct (by_kind _ _); [|done].
  rewrite String.eqb_refl, andb_true_r. by apply andb_true_iff in H1 as [H1 _].
Qed.

Lemma retired_no_file l : forallb (fun pb => String.eqb pb.1 (sn_Path pb.2)) (zip l (no_file <$> l)) = true.
Proof. induction l as [|p l IH]; [done|]. simpl. by rewrite String.eqb_refl. Qed.

Lemma made_teardown id now site h plan h' : id <> EmptyString -> PlanTeardown id now site h = (Done plan, h') ->
  files h' = files h /\ p_Site plan = site /\ site_fine default_renderer (p_Site plan) /\ teardown_plan plan.
Proof.
  intros Hid Ht. unfold SiteHost.PlanTeardown, mbind, M_bind in Ht.
  destruct (MakePlan id now site h) as [[base|e|] h1] eqn:Hm; [|done..]. injection Ht as <- <-.
  destruct (made_plan _ _ _ _ _ _ _ _ Hid Hm) as (Hfs & Hp & Hs & Hv & Ha). split_and!; [done|done|by simpl; rewrite Hs|].
  pose proof (pl_valid _ _ _ _ _ Hp) as Hok. split; simpl; try done.
  unfold validatePlan in *. simpl. revert Hok. rewrite !seq_ok, !fail_if_ok. intros [Hk Hok].
  split; [by rewrite !orb_false_iff in Hk |- *; rewrite length_fmap, Nat.eqb_refl; naive_solver|].
  destruct (Render _ _) as [[arts ret]|e]; [|done]. revert Hok. rewrite !seq_ok, !fail_if_ok, !negb_false_iff, !andb_true_iff.
  intros (Hm1 & (Hl1 & _) & Hr1 & _). split_and!; [|done|by rewrite length_fmap, Nat.eqb_refl|done|apply retired_no_file].
  apply (matches_no_file _ _ (Before base)); [done|].
  rewrite !orb_false_iff, !negb_false_iff in Hk. by apply Nat.eqb_eq, Hk.
Qed.

(** ** Attempts *)
Definition managed (plan : Plan) : list string := file_paths plan ++ [link_path o plan].

(** Managed paths may have gone, nothing else is different. *)
Definition partly (plan : Plan) (fs fs' : filesystem) : Prop :=
  forall p, fs' !! p = fs !! p \/ (p ∈ managed plan /\ fs' !! p = None).
(** The managed paths are gone, nothing else is different. *)
Definition cleared (plan : Plan) (fs fs' : filesystem) : Prop :=
  forall p, fs' !! p = if decide (p ∈ managed plan) then None else fs !! p.

Section rollback.
Context (plan : Plan) (fs0 : filesystem) (Hplan : teardown_plan plan).

Lemma teardown_steps :
  step_path o plan <$> restore_steps plan ≡ₚ managed plan /\
  (forall x, x ∈ restore_steps plan -> x = None \/ exists p, x = Some (no_file p)).
Proof.
  unfold restore_steps, snapshots, managed, file_paths, link_path.
  rewrite (td_before _ Hplan), (td_retired _ Hplan). split.
  - rewrite fmap_app. apply Permutation_app; [|done]. rewrite <-list_fmap_compose, fmap_app.
    rewrite (Permutation_app_comm (_ <$> rev (no_file <$> _))). apply Permutation_app; rewrite <-Permutation_rev;
      rewrite <-!list_fmap_compose; [done|].
    assert (Hid : forall l, step_path o plan ∘ Some ∘ no_file <$> l = l) by (intros l; apply list_fmap_id). by rewrite Hid.
  - intros x [(b & -> & Hb)%list_elem_of_fmap| ->%list_elem_of_singleton]%elem_of_app; [right|by left].
    rewrite elem_of_app, !list_elem_of_In, <-!in_rev, <-!list_elem_of_In in Hb.
    destruct Hb as [(p & -> & _)%list_elem_of_fmap|(a & -> & _)%list_elem_of_fmap]; eauto.
Qed.

Lemma teardown_ready fs : ready o plan fs.
Proof.
  split; [|by rewrite (td_enabled _ Hplan)]. intros b Hb He.
  destruct teardown_steps as [_ Hs]. destruct (Hs (Some b) (steps_in plan b Hb)) as [?|(p & [= ->])]; done.
Qed.

(** Carrying a step out removes its path. *)
Lemma teardown_step x fs : x ∈ restore_steps plan -> restored_step o plan x fs -> fs !! step_path o plan x = None.
Proof.
  intros Hx Hd. destruct teardown_steps as [_ Hs]. destruct (Hs x Hx) as [->|(p & ->)]; simpl in *; [|done].
  rewrite (td_enabled _ Hplan) in Hd. unfold link_state in Hd. by repeat case_match.
Qed.

Lemma step_managed x : x ∈ restore_steps plan -> step_path o plan x ∈ managed plan.
Proof. intros Hx. destruct teardown_steps as [<- _]. by apply list_elem_of_fmap_2. Qed.

Lemma restored_cleared fs : restored o plan fs -> partly plan fs0 fs -> cleared plan fs0 fs.
Proof.
  intros Hr Hp p. destruct (decide (p ∈ managed plan)) as [Hin|Hin].
  - destruct teardown_steps as [Hperm _]. rewrite <-Hperm in Hin. apply list_elem_of_fmap in Hin as (x & -> & Hx).
    apply teardown_step; [done|by apply Hr].
  - by destruct (Hp p) as [|[??]].
Qed.

Lemma partly_refl fs : partly plan fs fs.
Proof. intros p. by left. Qed.
Lemma cleared_partly fs fs' : cleared plan fs fs' -> partly plan fs fs'.
Proof. intros H p. specialize (H p). case_decide; [right|left]; done. Qed.

Lemma partly_step x fs fs' : x ∈ restore_steps plan -> partly plan fs0 fs ->
  touches (step_path o plan x) fs fs' -> restored_step o plan x fs' -> partly plan fs0 fs'.
Proof.
  intros Hx Hp Ht Hd p. destruct (decide (p = step_path o plan x)) as [->|Hne].
  - right. split; [by apply step_managed|by apply teardown_step].
  - rewrite Ht by done. apply Hp.
Qed.

(** What is left of each artifact may be removed. *)
Definition removable (fs : filesystem) : Prop :=
  forall a, a ∈ Artifacts plan -> exists s, snapshot_at fs (a_Path a) = Some s /\
    (Exists s = true -> Digest s = digestBytes (a_Content a)).

Lemma partly_removable fs fs' : partly plan fs fs' -> removable fs -> removable fs'.
Proof.
  intros Hp Hr a Ha. destruct (Hr a Ha) as (s & Hs & Hd). unfold SiteActivation.snapshot_at in *.
  destruct (Hp (a_Path a)) as [->|[_ ->]]; [by exists s|by exists (no_file (a_Path a))].
Qed.

Context (Habs : is_abs (definition_path o (Slug (p_Site plan))) = true) (Hrem : removable fs0).
Notation P := (on_files (partly plan fs0)).
Notation C := (on_files (cleared plan fs0)).
Definition teardown_failed (c : bool) (s : state) : Prop := cleared plan fs0 s.1 \/ (c = false /\ partly plan fs0 s.1).

Lemma spec_teardown_check c a : a ∈ Artifacts plan ->
  spec c P (check_applied text_of digestBytes plan a) (fun _ => P) (teardown_failed c) P.
Proof.
  intros Ha. unfold check_applied. eapply spec_bind.
  - apply (spec_readSnapshot text_of digestBytes c _ (partly plan fs0)
      (fun fs => cleared plan fs0 fs \/ (c = false /\ partly plan fs0 fs)) (partly plan fs0)); [done|by right|].
    intros fs Hp Hn. destruct (partly_removable _ _ Hp Hrem a Ha) as (s & Hs & _). congruence.
  - intros s h Hc [Hp Hs]. destruct (partly_removable _ _ Hp Hrem a Ha) as (s' & Hs' & Hd).
    assert (s' = s) as -> by congruence. rewrite (td_teardown _ Hplan). destruct (Exists s); simpl; [|done].
    by rewrite (Hd eq_refl), String.eqb_refl.
Qed.

Lemma spec_teardown_restore c : spec c P (restore o plan) (fun _ => C) (teardown_failed c) P.
Proof.
  assert (Hdist : NoDup (step_path o plan <$> restore_steps plan)).
  { destruct teardown_steps as [-> _]. apply Hplan. }
  assert (Howner : forall b, b ∈ snapshots plan -> Exists b = true -> 0 <= sn_UID b /\ 0 <= sn_GID b).
  { intros b Hb. destruct teardown_steps as [_ Hs]. by destruct (Hs (Some b) (steps_in plan b Hb)) as [?|(p & [= ->])]. }
  eapply spec_conseq; [apply (spec_restore o plan Habs Hdist Howner (partly plan fs0) partly_step c)|..].
  - intros s Hp. split; [apply teardown_ready|done].
  - intros _ s (Hr & _ & Hp). by apply restored_cleared.
  - intros s (Hc & _ & Hp). by right.
  - by intros s [_ Hp].
Qed.

Lemma spec_teardown_quiet c m : quiet m -> spec c C m (fun _ => C) (teardown_failed c) P.
Proof.
  intros Hm. eapply spec_conseq; [by apply (spec_quiet c m (cleared plan fs0) (cleared plan fs0) (cleared plan fs0))|done|done| |].
  - intros s Hs. by left.
  - intros s Hs. by apply cleared_partly.
Qed.

Lemma spec_teardown_observe c :
  spec c C (observe text_of digestBytes o plan) (fun _ => C) (teardown_failed c) P.
Proof.
  eapply (spec_conseq c _ C _ _ (fun _ => C) _ C _ C); [|done|done|intros s Hs; by left|intros s Hs; by apply cleared_partly].
  unfold observe. apply (spec_bind _ _ _ _ (fun _ => C)).
  - induction (Artifacts plan) as [|a l IH]; simpl; [by apply spec_ret|].
    apply (spec_bind _ _ _ _ (fun _ => C)).
    + eapply spec_conseq; [by apply (spec_readSnapshot text_of digestBytes c (a_Path a) (cleared plan fs0) (cleared plan fs0) (cleared plan fs0))|done| |done|done].
      by intros b s [? _].
    + intros b. apply (spec_bind _ _ _ _ (fun _ => C)); [apply IH|intros bs; by apply spec_ret].
  - intros items. eapply spec_bind; [by apply (spec_enabled o _ c (cleared plan fs0) (cleared plan fs0) (cleared plan fs0))|].
    intros b. apply spec_ret. by intros s [? _].
Qed.

Lemma spec_teardown c : spec c P (Rollback plan) (fun _ => C) (teardown_failed c) P.
Proof.
  unfold SiteHost.Rollback. rewrite (td_valid _ Hplan).
  apply (spec_bind _ _ _ _ (fun _ => P)); [by apply spec_ret|intros ?].
  apply (spec_bind _ _ _ _ (fun _ => P)).
  { apply (spec_for_each c (Artifacts plan) _ (fun _ => P)). intros before x rest Hl.
    apply spec_teardown_check. rewrite Hl. apply elem_of_app. right. by left. }
  intros ?. eapply spec_bind; [apply spec_teardown_restore|intros ?].
  eapply spec_bind; [apply spec_teardown_quiet, law_validate_nginx|intros ?].
  eapply spec_bind; [apply spec_teardown_quiet, law_reload_php|intros ?].
  eapply spec_bind; [apply spec_teardown_quiet; unfold reload_retired|intros ?].
  { destruct (String.eqb _ _); [by intros c' fs h Hc Hs|apply law_reload_php]. }
  eapply spec_bind; [apply spec_teardown_quiet, law_reload_nginx|intros ?]. apply spec_teardown_observe.
Qed.
End rollback.

(** One attempt, under whatever answers, and whether or not the process survives it. *)
Definition attempt_teardown (plan : Plan) (fs fs' : filesystem) : Prop :=
  exists h, files h = fs /\ files (Rollback plan h).2 = fs'.

Lemma partly_trans plan fs fs' fs'' : partly plan fs fs' -> partly plan fs' fs'' -> partly plan fs fs''.
Proof. intros H1 H2 p. destruct (H2 p) as [->|]; [apply H1|by right]. Qed.

Section attempts.
Context (plan : Plan) (fs0 : filesystem) (Hplan : teardown_plan plan).
Context (Habs : is_abs (definition_path o (Slug (p_Site plan))) = true) (Hrem : removable plan fs0).

Lemma attempt_partly fs fs' : partly plan fs0 fs -> attempt_teardown plan fs fs' -> partly plan fs0 fs'.
Proof.
  intros Hp (h & <- & <-). pose proof (spec_teardown plan fs0 Hplan Habs Hrem false h ltac:(done) Hp) as H.
  destruct (Rollback plan h) as [[ob|e|] h']; destruct H as [_ H]; simpl.
  - by apply cleared_partly.
  - by destruct H as [?%cleared_partly|[_ ?]].
  - done.
Qed.

Lemma attempts_partly fs : rtc (attempt_teardown plan) fs0 fs -> partly plan fs0 fs.
Proof.
  assert (H : forall fs1 fs2, rtc (attempt_teardown plan) fs1 fs2 -> partly plan fs0 fs1 -> partly plan fs0 fs2).
  { induction 1; eauto using attempt_partly. }
  intros Hr. by apply (H fs0), partly_refl.
Qed.
End attempts.

(** C10. A teardown converges.  The plan is made for a site whose artifacts, as far as
    they are there, hold their rendered text (a drifted one is refused, C11); then any number of attempts follow,
    under any answers of the node, each of which may fail or die anywhere.  After
    them every managed path (artifacts, retired files, the link) is gone or as it
    was, and every other file is as it was.  The next attempt that returns has removed
    all of them, and one during which the system calls are answered removes them even
    if it then reports that a service could not be checked or reloaded. *)
Theorem site_teardown_converges id now site h0 plan h1 fs h :
  id <> EmptyString -> PlanTeardown id now site h0 = (Done plan, h1) -> removable plan (files h0) ->
  rtc (attempt_teardown plan) (files h0) fs -> files h = fs ->
  partly plan (files h0) fs /\
  match Rollback plan h with
  | (Done _, h') => cleared plan (files h0) (files h')
  | (Failed _, h') => schedule h = [] -> cleared plan (files h0) (files h')
  | (Crashed, _) => schedule h <> []
  end.
Proof.
  intros Hid Hm Hrem Hr <-. destruct (made_teardown _ _ _ _ _ _ Hid Hm) as (_ & Hs & Hv & Hplan).
  pose proof (definition_abs _ Hv) as Habs.
  pose proof (attempts_partly plan (files h0) Hplan Habs Hrem _ Hr) as Hp. split; [done|].
  pose proof (spec_teardown plan (files h0) Hplan Habs Hrem) as H.
  pose proof (H false h ltac:(done) Hp) as Hany.
  destruct (decide (schedule h = [])) as [He|He].
  - pose proof (H true h (fun _ => He) Hp) as Hall.
    destruct (Rollback plan h) as [[ob|e|] h']; [apply Hall| |by destruct Hall].
    by destruct Hall as [_ [?|[? _]]].
  - destruct (Rollback plan h) as [[ob|e|] h']; [apply Hany|done|done].
Qed.
End teardown.
