(* ===== verification/SiteSamples.v ===== *)
(** * Concrete sites on a concrete node

    Sites as the golden files of the renderer have them, a node whose services answer,
    and the flaw of the checks that evaluating them shows. *)

From S2P Require Import Prelude GoStrings Paths Naming Sites SiteText SiteRender SiteChecks SiteProps Update UpdateLogic SiteHost.
From S2P Require Import SiteActivation SitePlans SiteHostProps UpdateSamples.

Local Open Scope Z_scope.

Module Samples.
Definition no_auth : BasicAuth := mk_basic_auth false EmptyString EmptyString EmptyString.
Definition no_settings : Settings :=
  mk_settings false 0 None false None EmptyString EmptyString None 0 None None EmptyString 0 None None None no_auth
    (mk_rate_limit false 0 0) [] EmptyString (mk_log_rotation false 0 EmptyString).
Definition tuned : Settings :=
  mk_settings true 63072000 (Some false) true (Some false) "web" "utf-8" (Some true) 9 (Some 7) (Some 128) "dynamic" 12
    (Some 1000) (Some false) (Some true) (mk_basic_auth true "Staging" "deployer" "$2y$10$abcdefghijklmnopqrstuv")
    (mk_rate_limit true 25 50) ["app.php"; "index.html"]%string "private" (mk_log_rotation true 30 "weekly").
Definition demo_tls : TLS :=
  mk_tls "/etc/letsencrypt/live/demo.example.com/fullchain.pem" "/etc/letsencrypt/live/demo.example.com/privkey.pem".
Definition demo_routes : list Route :=
  [mk_route "alias.example.com" "alias" EmptyString; mk_route "app.demo.example.com" "subdomain" EmptyString;
   mk_route "old.example.com" "redirect" "demo.example.com"].
Definition demo_at (root : string) (routes : list Route) : Site :=
  mk_site "site-1" "demo-site" "demo.example.com" "8.4" "nexa_demo_site" root "/run/php/nexa-demo-site.sock"
    routes None [] no_settings EmptyString EmptyString.
Definition demo_root : string := "/srv/nexa/sites/demo-site".
Definition demo : Site := demo_at demo_root [].
Definition demo_tuned : Site :=
  mk_site "site-1" "demo-site" "demo.example.com" "8.4" "nexa_demo_site" demo_root "/run/php/nexa-demo-site.sock"
    demo_routes (Some demo_tls) ["demo.example.com"; "alias.example.com"; "app.demo.example.com"]%string tuned EmptyString "8.3".
Definition shop : Site :=
  mk_site "site-2" "shop" "shop.example.com" "8.3" "nexa_shop" "/srv/nexa/sites/shop" "/run/php/nexa-shop.sock"
    [] None [] no_settings EmptyString EmptyString.

Definition rendered (site : Site) : list Artifact * list string :=
  match Render default_renderer site with Ok x => x | Err _ => ([], []) end.
Definition artifact (kind : string) (site : Site) : Artifact :=
  default (mk_artifact kind EmptyString 0 EmptyString) (by_kind kind (rendered site).1).

Lemma default_plain : plain_roots default_renderer.
Proof. by repeat split. Qed.

Lemma demo_tuned_canonical : canonical demo_tuned.
Proof. split_and!; [by vm_compute|by vm_compute|]. intros tls [= <-]. split; by vm_compute. Qed.

Lemma in_rendered kind site : (if by_kind kind (rendered site).1 then true else false) = true -> artifact kind site ∈ (rendered site).1.
Proof.
  destruct (by_kind _ _) as [a|] eqn:Ha; [intros _|done]. unfold artifact. rewrite Ha. apply find_some in Ha as [Ha _].
  by apply in_rev, list_elem_of_In in Ha.
Qed.

(** The tuned sample site: its vhost and its pool read back. *)
Lemma site_vhost_reads_back_witness :
  read_config (a_Content (artifact "nginx-site" demo_tuned)) = Some (vhost_items demo_tuned (includes_root default_renderer)).
Proof.
  apply (site_vhost_reads_back default_renderer demo_tuned (rendered demo_tuned).1 (rendered demo_tuned).2).
  - apply default_plain.
  - apply demo_tuned_canonical.
  - by vm_compute.
  - apply in_rendered. by vm_compute.
  - by vm_compute.
Defined.

Lemma site_pool_reads_back_witness :
  read_pool (a_Content (artifact "php-fpm-pool" demo_tuned)) = Some (pool_items demo_tuned (fpmDataFor demo_tuned)).
Proof.
  apply (site_pool_reads_back default_renderer demo_tuned (rendered demo_tuned).1 (rendered demo_tuned).2).
  - apply default_plain.
  - apply demo_tuned_canonical.
  - by vm_compute.
  - apply in_rendered. by vm_compute.
  - by vm_compute.
Defined.

Lemma site_directories_confined_witness :
  exists top sub work,
    Forall plain (top ++ [Slug demo_tuned] ++ sub ++ work) /\
    abs top = path_clean (or_default (SiteRoot default_renderer) "/srv/nexa/sites") /\
    join "/" sub = Subdirectory (s_Settings demo_tuned) /\ join "/" work = WorkingDirectory (s_Settings demo_tuned) /\
    documentRoot demo_tuned = abs (top ++ [Slug demo_tuned] ++ release_part demo_tuned ++ ["public"%string] ++ sub) /\
    path_clean (ChdirPath (fpmDataFor demo_tuned)) = abs (top ++ [Slug demo_tuned] ++ release_part demo_tuned ++ work).
Proof. apply (site_directories_confined default_renderer demo_tuned); [by left|by vm_compute]. Defined.

Lemma sites_are_apart_witness :
  (forall p, p ∈ (a_Path <$> (rendered demo_tuned).1) ++ (rendered demo_tuned).2 ->
     p ∉ (a_Path <$> (rendered shop).1) ++ (rendered shop).2) /\
  UnixUser demo_tuned <> UnixUser shop /\ path_clean (RootPath demo_tuned) <> path_clean (RootPath shop) /\
  path_clean (SocketPath demo_tuned) <> path_clean (SocketPath shop).
Proof. apply (sites_are_apart demo_tuned shop); [by vm_compute|by vm_compute|done]. Defined.

(** ** A path the check accepts and the template does not survive

    [validate] compares the cleaned root with the one derived from the slug, and the
    templates print the root as it came: a directive hidden in a component that
    cleaning removes reaches the vhost. *)
Definition smuggling_root : string := "/srv/nexa/sites/x; include /tmp/evil.conf; y/../../../demo-site".
Definition smuggled : Site := demo_at smuggling_root [].

(** The directives of a configuration, at any depth. *)
Fixpoint directives (i : item) : list (list string) :=
  match i with
  | Directive words => [words]
  | Block _ body => List.concat (directives <$> body)
  end.
Definition directives_of (content : string) : option (list (list string)) :=
  (fun items => List.concat (directives <$> items)) <$> read_config content.
Definition planted (words : list string) (content : string) : bool :=
  match directives_of content with Some l => existsb (fun d => bool_decide (d = words)) l | None => false end.

Lemma site_root_check_admits_directives :
  validate default_renderer smuggled = Ok tt /\
  planted ["include"; "/tmp/evil.conf"]%string (a_Content (artifact "nginx-site" smuggled)) = true /\
  planted ["include"; "/tmp/evil.conf"]%string (a_Content (artifact "nginx-site" demo)) = false.
Proof. by vm_compute. Qed.

(** ** A node whose services answer *)
#[export] Instance calm_node : NodeSystem := {
  PrepareSite _ := mret tt;
  SecureArtifacts _ _ := mret tt;
  VerifyDocumentRoot _ := mret tt;
  ValidatePHP _ := mret tt;
  ValidateNginx := mret tt;
  ReloadPHP _ := mret tt;
  ReloadNginx := mret tt;
  VerifyHost _ := mret tt;
  RemoveSite _ := mret tt;
}.

#[export] Instance calm_laws : NodeSystemLaws default_operator.
Proof.
  split; intros; intros c fs; apply spec_ret; intros s ->; try done. intros p. by left.
Qed.

Definition text_of (c : content) : string := match c with Bytes b => b | _ => EmptyString end.
Definition digest_of (text : string) : string := text.
Definition fresh (schedule : list answer) (fs : filesystem) : machine := mk_machine fs None schedule [].
Notation make_plan := (MakePlan text_of digest_of default_operator "p" 0).
Notation make_teardown := (PlanTeardown text_of digest_of default_operator "p" 0).
Notation apply_plan := (Apply text_of digest_of default_operator 0).
Notation rollback_plan := (Rollback text_of digest_of default_operator).

Definition no_plan : Plan := mk_plan EmptyString EmptyString demo [] [] [] [] false false [] 0 0.
Definition done_with {A} (d : A) (r : outcome A * machine) : A := match r with (Done a, _) => a | _ => d end.

(** The node before, with an older vhost of the site, linked. *)
Definition vhost_path : string := "/etc/nginx/sites-available/nexa-demo-site.conf".
Definition link : string := "/etc/nginx/sites-enabled/nexa-demo-site.conf".
Definition older : filesystem :=
  list_to_map [(vhost_path, Reg (Bytes "server { }") 420 0 0); (link, Link vhost_path 0 0);
               ("/etc/nginx/conf.d/nexa-demo-site-ratelimit.conf"%string, Reg (Bytes "old zone") 420 0 0)].
Definition older_plan : Plan := done_with no_plan (make_plan demo (fresh [] older)).
Definition applied_node : machine := (apply_plan older_plan (fresh [] older)).2.

Lemma older_tidy : tidy (file_paths older_plan) older.
Proof.
  intros p c m u g Hp Hf. assert (Hin : (p, Reg c m u g) ∈ map_to_list older) by (by apply elem_of_map_to_list).
  clear Hf Hp. assert (Hl : exists l, map_to_list older = l /\ forall q c m u g, (q, Reg c m u g) ∈ l ->
    (exists b, c = Bytes b) /\ perm m = m /\ 0 <= u /\ 0 <= g); [|destruct Hl as (l & <- & Hl); by eapply Hl].
  eexists. split; [by vm_compute|]. clear. intros q c m u g Hin.
  rewrite !elem_of_cons, elem_of_nil in Hin. destruct Hin as [Hin|[Hin|[Hin|[]]]]; try done;
    injection Hin as -> -> -> -> ->; split_and!; try lia; try done; by eexists.
Qed.

Lemma site_activation_atomic_witness :
  match apply_plan older_plan (fresh [] older) with
  | (Done ob, h') => activated default_operator older_plan (files h') /\ ob_Active ob = true
  | (Failed _, h') => same default_operator older_plan older (files h') \/
                      (activated default_operator older_plan (files h') /\ oversize older_plan)
  | (Crashed, _) => False
  end.
Proof.
  apply (site_activation_atomic text_of digest_of (fun _ => eq_refl) "p" 0 demo (fresh [] older) older_plan (fresh [] older)).
  - done.
  - by vm_compute.
  - apply older_tidy.
  - done.
  - by split.
Defined.

Lemma older_planned : planned text_of digest_of default_operator older older_plan /\
  site_fine default_renderer (p_Site older_plan) /\ apart default_operator older_plan.
Proof.
  destruct (made_plan text_of digest_of "p" 0 demo (fresh [] older) older_plan (fresh [] older))
    as (_ & Hp & Hs & Hv & Ha); [done|by vm_compute|]. by rewrite Hs.
Qed.

Lemma applied_activated : activated default_operator older_plan (files applied_node).
Proof.
  destruct older_planned as (Hp & Hv & Ha).
  pose proof (spec_Apply text_of digest_of (fun _ => eq_refl) default_operator older_plan older Hp Ha older_tidy
    (definition_abs _ Hv) 0 (fresh [] older) (fun _ => eq_refl) (conj (fun _ _ => eq_refl) eq_refl)) as H.
  unfold applied_node. assert (Hd : exists ob, (apply_plan older_plan (fresh [] older)).1 = Done ob)
    by (eexists; by vm_compute).
  destruct Hd as [ob Hd]. destruct (apply_plan older_plan (fresh [] older)) as [r h']. simpl in Hd. subst r.
  apply H.
Qed.

Lemma older_small : ~ oversize older_plan.
Proof.
  intros (a & Ha & Hl). assert (H : forallb (fun a => len (a_Content a) <=? 524288) (Artifacts older_plan) = true) by (by vm_compute).
  rewrite forallb_forall in H. apply list_elem_of_In, H in Ha. lia.
Qed.

(** Rolled back, the node has its older vhost and its rate limit again. *)
Lemma site_rollback_roundtrip_witness :
  match rollback_plan older_plan applied_node with
  | (Done _, h') | (Failed _, h') => same default_operator older_plan older (files h')
  | (Crashed, _) => False
  end.
Proof.
  apply (site_rollback_roundtrip text_of digest_of (fun _ => eq_refl) "p" 0 demo (fresh [] older) older_plan (fresh [] older)).
  - done.
  - by vm_compute.
  - apply older_tidy.
  - apply older_small.
  - by vm_compute.
  - apply applied_activated.
Defined.

(** Edited after the activation, the vhost is left alone. *)
Definition edited_node : machine := with_files (<[vhost_path := Reg (Bytes "edited") 416 0 0]> (files applied_node)) applied_node.
Lemma site_drift_refused_witness :
  ((forall ob, (apply_plan older_plan edited_node).1 <> Done ob) /\ files (apply_plan older_plan edited_node).2 = files edited_node) /\
  ((forall ob, (rollback_plan older_plan edited_node).1 <> Done ob) /\ files (rollback_plan older_plan edited_node).2 = files edited_node).
Proof.
  destruct (site_drift_refused text_of digest_of older_plan 0 edited_node) as [H1 H2]. split.
  - apply (H1 (done_with (no_file vhost_path) (readSnapshot text_of digest_of vhost_path (fresh [] older)))).
    + apply list_elem_of_In. vm_compute. tauto.
    + intros s Hs. assert (Hv : Some s = snapshot_at text_of digest_of (files edited_node) vhost_path) by (by rewrite <-Hs).
      vm_compute in Hv. injection Hv as ->. by vm_compute.
  - apply (H2 (artifact "nginx-site" demo)).
    + apply list_elem_of_In. vm_compute. tauto.
    + intros s Hs. assert (Hv : Some s = snapshot_at text_of digest_of (files edited_node) vhost_path) by (rewrite <-Hs; by vm_compute).
      vm_compute in Hv. injection Hv as ->. by vm_compute.
Defined.

(** A teardown that dies after removing the vhost, and the next attempt. *)
Definition down_plan : Plan := done_with no_plan (make_teardown demo applied_node).
Definition torn : machine :=
  (rollback_plan down_plan (fresh (replicate 8 Proceed ++ [Die]) (files applied_node))).2.

Lemma down_removable : removable text_of digest_of down_plan (files applied_node).
Proof.
  intros a Ha%list_elem_of_In. vm_compute in Ha.
  destruct Ha as [<-|[<-|[]]]; eexists; (split; [by vm_compute|]); by vm_compute.
Qed.

Lemma site_teardown_converges_witness :
  partly down_plan (files applied_node) (files torn) /\
  match rollback_plan down_plan torn with
  | (Done _, h') => cleared down_plan (files applied_node) (files h')
  | (Failed _, h') => schedule torn = [] -> cleared down_plan (files applied_node) (files h')
  | (Crashed, _) => schedule torn <> []
  end.
Proof.
  apply (site_teardown_converges text_of digest_of "p" 0 demo applied_node down_plan applied_node).
  - done.
  - by vm_compute.
  - apply down_removable.
  - apply rtc_once. exists (fresh (replicate 8 Proceed ++ [Die]) (files applied_node)). by split.
  - done.
Defined.

(** The attempt did die half-way: the pool is there, the vhost is not. *)
Example torn_half_way :
  (rollback_plan down_plan (fresh (replicate 8 Proceed ++ [Die]) (files applied_node))).1 = Crashed /\
  files torn !! vhost_path = None /\ files torn !! "/etc/php/8.4/fpm/pool.d/nexa-demo-site.conf"%string <> None.
Proof. by vm_compute. Qed.
End Samples.
