(* ===== verification/Cron.v ===== *)
(** * Times: crontab fields and systemd calendar expressions

    Reference readers of the two notations the panel writes schedules in, as crontab(5)
    and systemd.time(7) describe them.  A component is a list of progressions
    [(first, last, step)]; an expression selects moments. *)

From Stdlib Require Import Ascii.
From S2P Require Import Prelude GoStrings.

Local Open Scope Z_scope.

(** ** Progressions *)
Notation progression := (Z * Z * Z)%type.
Definition in_progression (v : Z) (p : progression) : bool :=
  let '(first, last, step) := p in (first <=? v) && (v <=? last) && ((v - first) mod step =? 0).
Definition selects (l : list progression) (v : Z) : bool := existsb (in_progression v) l.

Definition well_bounded (lo hi : Z) (p : progression) : Prop :=
  let '(first, last, step) := p in lo <= first /\ first <= last /\ last <= hi /\ 1 <= step.

(** ** A moment, as far as a schedule looks at it; Sunday is day 0 *)
Record moment := mk_moment { at_minute : Z; at_hour : Z; at_day : Z; at_month : Z; at_weekday : Z }.
Definition in_range (t : moment) : Prop :=
  0 <= at_minute t <= 59 /\ 0 <= at_hour t <= 23 /\ 1 <= at_day t <= 31 /\ 1 <= at_month t <= 12 /\ 0 <= at_weekday t <= 6.

(** The Gregorian calendar; the first day of the year 1 is a Monday. *)
Definition leap (year : Z) : bool :=
  (year mod 4 =? 0) && (negb (year mod 100 =? 0) || (year mod 400 =? 0)).
Definition longest_month (month : Z) : Z :=
  if month =? 2 then 29 else if bool_decide (month ∈ [4; 6; 9; 11]) then 30 else 31.
Definition month_length (year month : Z) : Z :=
  if (month =? 2) && negb (leap year) then 28 else longest_month month.
Definition weekday_of (year month day : Z) : Z :=
  let years := year - 1 in
  (365 * years + years / 4 - years / 100 + years / 400 +
   foldr Z.add 0 (month_length year <$> seqZ 1 (month - 1)) + day) mod 7.

(** A moment of some year: its date exists and falls on its weekday. *)
Definition real_moment (t : moment) : Prop :=
  in_range t /\ exists year, 1 <= year /\ at_day t <= month_length year (at_month t) /\
    weekday_of year (at_month t) (at_day t) = at_weekday t.

(** What all readers share: a progression inside the bounds. *)
Definition in_bounds (lo hi : Z) (p : progression) : bool :=
  let '(x, y, n) := p in (lo <=? x) && (x <=? y) && (y <=? hi) && (1 <=? n).
Definition checked (lo hi : Z) (p : progression) : option progression := if in_bounds lo hi p then Some p else None.

(** ** crontab *)

(** The names of months and days of the week, without regard to case; a field that has
    none of them has the empty list. *)
Definition month_names : list (string * Z) :=
  [("jan", 1); ("feb", 2); ("mar", 3); ("apr", 4); ("may", 5); ("jun", 6); ("jul", 7); ("aug", 8); ("sep", 9);
   ("oct", 10); ("nov", 11); ("dec", 12)]%string.
Definition day_names : list (string * Z) :=
  [("sun", 0); ("mon", 1); ("tue", 2); ("wed", 3); ("thu", 4); ("fri", 5); ("sat", 6)]%string.
Fixpoint lower_ascii (s : string) : string :=
  match s with EmptyString => EmptyString | String c s => String (lower_byte c) (lower_ascii s) end.

Definition cron_number (names : list (string * Z)) (s : string) : option Z :=
  match parse_digits s with
  | Some z => Some z
  | None => snd <$> List.find (fun p => String.eqb p.1 (lower_ascii s)) names
  end.

(** [*], a value or a range, with a step of any size from 1; a step on a value runs to
    the end.  Names may stand wherever numbers may. *)
Definition cron_base (names : list (string * Z)) (lo hi : Z) (s : string) : option (Z * Z * bool) :=
  if String.eqb s "*" then Some (lo, hi, false)
  else match cut "-" s with
       | Some (a, b) => x ← cron_number names a; y ← cron_number names b; Some (x, y, false)
       | None => x ← cron_number names s; Some (x, x, true)
       end.
Definition cron_item (names : list (string * Z)) (lo hi : Z) (s : string) : option progression :=
  match cut "/" s with
  | None => '(x, y, _) ← cron_base names lo hi s; checked lo hi (x, y, 1)
  | Some (b, n) =>
      '(x, y, single) ← cron_base names lo hi b; n ← parse_digits n; checked lo hi (x, if single : bool then hi else y, n)
  end.
Definition cron_field (names : list (string * Z)) (lo hi : Z) (s : string) : option (list progression) :=
  mapM (cron_item names lo hi) (split "," s).

Definition starred (s : string) : bool := has_prefix "*" s.

(** A day matches both day fields, or, when both are restricted, either of them. *)
Definition cron_selects (fs : list string) (t : moment) : option bool :=
  match fs with
  | [mi; h; d; mo; w] =>
      mi' ← cron_field [] 0 59 mi; h' ← cron_field [] 0 23 h; d' ← cron_field [] 1 31 d;
      mo' ← cron_field month_names 1 12 mo; w' ← cron_field day_names 0 7 w;
      let on_day := selects d' (at_day t) in
      let on_weekday := selects w' (at_weekday t) || ((at_weekday t =? 0) && selects w' 7) in
      Some (selects mi' (at_minute t) && selects h' (at_hour t) && selects mo' (at_month t) &&
            (if starred d || starred w then on_day && on_weekday else on_day || on_weekday))
  | _ => None
  end.

(** ** systemd calendar expressions *)
Definition calendar_base (s : string) : option (Z * Z * bool) :=
  match cut_str ".." s with
  | Some (a, b) => x ← parse_digits a; y ← parse_digits b; Some (x, y, false)
  | None => x ← parse_digits s; Some (x, x, true)
  end.
Definition calendar_item (lo hi : Z) (s : string) : option progression :=
  match cut "/" s with
  | None => '(x, y, _) ← calendar_base s; checked lo hi (x, y, 1)
  | Some (b, n) => '(x, y, single) ← calendar_base b; n ← parse_digits n; checked lo hi (x, if single : bool then hi else y, n)
  end.
(** [*] stands alone. *)
Definition calendar_component (lo hi : Z) (s : string) : option (list progression) :=
  if String.eqb s "*" then Some [(lo, hi, 1)] else mapM (calendar_item lo hi) (split "," s).

(** The days of the week run from Monday (0) to Sunday (6); a range goes forwards. *)
Definition calendar_weekdays : list string := ["Mon"; "Tue"; "Wed"; "Thu"; "Fri"; "Sat"; "Sun"]%string.
Definition calendar_weekday (s : string) : option Z :=
  (fun i => Z.of_nat i.1) <$> list_find (fun name => name = s) calendar_weekdays.
Definition calendar_days (s : string) : option progression :=
  match cut_str ".." s with
  | Some (a, b) => x ← calendar_weekday a; y ← calendar_weekday b; checked 0 6 (x, y, 1)
  | None => x ← calendar_weekday s; Some (x, x, 1)
  end.

Record calendar := mk_calendar {
  c_weekdays : list progression;
  c_month : list progression;
  c_day : list progression;
  c_hour : list progression;
  c_minute : list progression;
}.

Definition read_clock (weekdays : list progression) (date clock : string) : option calendar :=
  match split "-" date, split ":" clock with
  | [year; mo; d], [h; mi; s] =>
      if String.eqb year "*" && String.eqb s "00" then
        mo' ← calendar_component 1 12 mo; d' ← calendar_component 1 31 d;
        h' ← calendar_component 0 23 h; mi' ← calendar_component 0 59 mi;
        Some (mk_calendar weekdays mo' d' h' mi')
      else None
  | _, _ => None
  end.
(** [[weekdays ]year-month-day hour:minute:second], every year, second 00. *)
Definition read_calendar (s : string) : option calendar :=
  match split " " s with
  | [date; clock] => read_clock [(0, 6, 1)] date clock
  | [days; date; clock] => w ← mapM calendar_days (split "," days); read_clock w date clock
  | _ => None
  end.

Definition calendar_selects (c : calendar) (t : moment) : bool :=
  selects (c_minute c) (at_minute t) && selects (c_hour c) (at_hour t) && selects (c_month c) (at_month t) &&
  (selects (c_day c) (at_day t) && selects (c_weekdays c) ((at_weekday t + 6) mod 7)).

(** ** Lemmas *)
Lemma in_bounds_spec lo hi p : in_bounds lo hi p = true <-> well_bounded lo hi p.
Proof. destruct p as [[x y] n]. unfold in_bounds, well_bounded. rewrite !andb_true_iff, !Z.leb_le. tauto. Qed.

Lemma checked_ok lo hi p : well_bounded lo hi p -> checked lo hi p = Some p.
Proof. intros H%in_bounds_spec. unfold checked. by rewrite H. Qed.

Lemma checked_inv lo hi p q : checked lo hi p = Some q -> p = q /\ well_bounded lo hi p.
Proof. unfold checked. destruct (in_bounds lo hi p) eqn:Hb; [|done]. intros [= <-]. by rewrite <-in_bounds_spec. Qed.

(** Every date that exists in some year falls on every day of the week in some year. *)
Definition dates_checked : bool :=
  forallb (fun m => forallb (fun d => (longest_month m <? d) || forallb (fun w =>
    existsb (fun y => (d <=? month_length y m) && (weekday_of y m d =? w)) (seqZ 2000 28)) (seqZ 0 7)) (seqZ 1 31)) (seqZ 1 12).
Lemma dates_ok : dates_checked = true.
Proof. by vm_compute. Qed.

Lemma every_date month day weekday : 1 <= month <= 12 -> 1 <= day <= longest_month month -> 0 <= weekday <= 6 ->
  exists year, 1 <= year /\ day <= month_length year month /\ weekday_of year month day = weekday.
Proof.
  intros Hm Hd Hw. assert (Hd31 : day <= 31) by (revert Hd; unfold longest_month; repeat case_match; lia).
  pose proof dates_ok as H. unfold dates_checked in H. rewrite forallb_forall in H.
  specialize (H month (proj1 (list_elem_of_In _ _) (proj2 (elem_of_seqZ 1 12 month) ltac:(lia)))). rewrite forallb_forall in H.
  specialize (H day (proj1 (list_elem_of_In _ _) (proj2 (elem_of_seqZ 1 31 day) ltac:(lia)))).
  rewrite (proj2 (Z.ltb_ge _ _)) in H by lia. cbn [orb] in H. rewrite forallb_forall in H.
  specialize (H weekday (proj1 (list_elem_of_In _ _) (proj2 (elem_of_seqZ 0 7 weekday) ltac:(lia)))).
  apply existsb_exists in H as (year & Hin%list_elem_of_In%elem_of_seqZ & Hy). apply andb_prop in Hy as [?%Z.leb_le ?%Z.eqb_eq].
  exists year. split_and!; [lia|done..].
Qed.

Lemma month_length_longest year month : month_length year month <= longest_month month.
Proof. unfold month_length, longest_month. destruct (Z.eqb_spec month 2); [destruct (leap year); simpl; lia|done]. Qed.

Lemma selects_bounded lo hi ps v : Forall (well_bounded lo hi) ps -> selects ps v = true -> lo <= v <= hi.
Proof.
  unfold selects. intros Hf ([[x y] n] & Hin%list_elem_of_In & Hv)%existsb_exists. rewrite Forall_forall in Hf.
  specialize (Hf _ Hin). cbn in Hf, Hv. rewrite !andb_true_iff, !Z.leb_le in Hv. lia.
Qed.

(** Without letters, a value is a number. *)
Lemma parsed_number names s z : parse_digits s = Some z -> cron_number names s = Some z.
Proof. unfold cron_number. by intros ->. Qed.

Lemma digits_val_digits acc s z : digits_val acc s = Some z -> all_bytes is_digit s = true.
Proof.
  revert acc. induction s as [|c s IH]; intros acc; simpl; [done|]. destruct (is_digit c) eqn:Hc; [|done].
  intros H. rewrite andb_true_iff. split; [done|by eapply IH].
Qed.
Lemma parse_digits_digits s z : parse_digits s = Some z -> s <> EmptyString /\ all_bytes is_digit s = true.
Proof. destruct s as [|c s]; [done|]. intros H. split; [done|]. by eapply digits_val_digits. Qed.

Lemma digits_no_byte c s : is_digit c = false -> all_bytes is_digit s = true -> any_byte (Ascii.eqb c) s = false.
Proof.
  intros Hc Hs. apply any_byte_false. eapply all_bytes_impl; [|exact Hs]. simpl. intros d Hd.
  apply negb_true_iff. destruct (Ascii.eqb_spec c d) as [->|]; [congruence|done].
Qed.

(** An unsigned number read by [strconv.Atoi]. *)
Lemma atoi_digits s z : any_byte (Ascii.eqb "+") s = false -> any_byte (Ascii.eqb "-") s = false -> atoi s = Some z ->
  parse_digits s = Some z.
Proof.
  destruct s as [|c s]; [done|]. cbn [any_byte]. rewrite !orb_false_iff. intros [Hp _] [Hm _]. unfold atoi.
  rewrite (Ascii.eqb_sym c "-"), (Ascii.eqb_sym c "+"), Hp, Hm.
  destruct (parse_digits (String c s)) as [v|]; [|done]. destruct (_ && _); [|done]. by intros [= ->].
Qed.

Lemma atoi_parsed s x : parse_digits s = Some x -> 0 <= x <= int64_max -> atoi s = Some x.
Proof.
  intros Hs Hx. pose proof (parse_digits_digits _ _ Hs) as [Hne Hd]. destruct s as [|c s]; [done|].
  apply andb_prop in Hd as [Hc _]. unfold atoi.
  destruct (Ascii.eqb_spec c "-") as [->|_]; [done|]. destruct (Ascii.eqb_spec c "+") as [->|_]; [done|].
  rewrite Hs. unfold int64_min, int64_max in *. by rewrite (proj2 (Z.leb_le _ _)), (proj2 (Z.leb_le _ _)) by lia.
Qed.
