(* ===== verification/BackupSchedule.v ===== *)
(** * The schedule of a backup plan

    [internal/platform/operators/backups/schedule.go]: the conversion of a crontab
    expression to a systemd calendar expression, the checks of a plan's timer, its two
    unit files, and how they are installed and removed. *)

From Stdlib Require Import Ascii.
From S2P Require Import Prelude GoStrings Regex Sites Update SiteHost.

Local Open Scope Z_scope.

(** ** The fields of a crontab expression *)
Definition parseCronNumber (token : string) (minimum maximum : Z) : result string Z :=
  match atoi token with
  | Some value => if (value <? minimum) || (maximum <? value) then Err "value is out of range"%string else Ok value
  | None => Err "value is out of range"%string
  end.

(** One item of a list, after its step was taken off. *)
Definition validate_base (base : string) (minimum maximum : Z) : error :=
  if String.eqb base "*" then Ok tt
  else fail_if (1 <? Z.of_nat (count_byte "-" base)) "range contains too many separators" ;;;
  match cut "-" base with
  | Some (lowToken, highToken) =>
      match parseCronNumber lowToken minimum maximum, parseCronNumber highToken minimum maximum with
      | Ok low, Ok high => fail_if (high <? low) "range is invalid or reversed"
      | _, _ => Err "range is invalid or reversed"%string
      end
  | None => match parseCronNumber base minimum maximum with Ok _ => Ok tt | Err e => Err e end
  end.

Definition validate_item (minimum maximum : Z) (allowSteps : bool) (item : string) : error :=
  fail_if (String.eqb item EmptyString) "list contains an empty item" ;;;
  fail_if (1 <? Z.of_nat (count_byte "/" item)) "step contains too many separators" ;;;
  match cut "/" item with
  | Some (before, after) =>
      fail_if (negb allowSteps) "steps are not supported" ;;;
      fail_if (match atoi after with Some step => (step <? 1) || (maximum - minimum + 1 <? step) | None => true end)
        "step is outside the allowed range" ;;;
      validate_base before minimum maximum
  | None => validate_base item minimum maximum
  end.

Fixpoint validate_items (minimum maximum : Z) (allowSteps : bool) (items : list string) : error :=
  match items with
  | [] => Ok tt
  | item :: rest => validate_item minimum maximum allowSteps item ;;; validate_items minimum maximum allowSteps rest
  end.

Definition validateCronField (field : string) (minimum maximum : Z) (allowSteps : bool) : error :=
  fail_if (String.eqb field EmptyString) "field is empty" ;;;
  validate_items minimum maximum allowSteps (split "," field).

(** ** Conversion *)
Definition convert_item (minimum : Z) (part : string) : string :=
  match strip_prefix "*/" part with
  | Some step => itoa minimum +:+ "/" +:+ step
  | None => replace_byte "-" ".." part
  end.
Definition convertNumericField (field : string) (minimum : Z) : string :=
  if String.eqb field "*" then "*" else join "," (convert_item minimum <$> split "," field).

Definition weekdayNames : list string := ["Sun"; "Mon"; "Tue"; "Wed"; "Thu"; "Fri"; "Sat"]%string.
Definition weekdayName (token : string) : result string string :=
  match atoi token with
  | Some value =>
      if (value <? 0) || (7 <? value) then Err "invalid day-of-week"%string
      else match weekdayNames !! Z.to_nat (value mod 7) with Some name => Ok name | None => Err "index out of range"%string end
  | None => Err "invalid day-of-week"%string
  end.

Definition convert_weekdays (part : string) : result string string :=
  match cut "-" part with
  | Some (a, b) => low ← weekdayName a; high ← weekdayName b; Ok (low +:+ ".." +:+ high)
  | None => weekdayName part
  end.
Fixpoint convert_weekday_items (parts : list string) : result string (list string) :=
  match parts with
  | [] => Ok []
  | part :: rest => x ← convert_weekdays part; xs ← convert_weekday_items rest; Ok (x :: xs)
  end.
Definition convertWeekdayField (field : string) : result string string :=
  xs ← convert_weekday_items (split "," field); Ok (join "," xs).

Definition in_field (name : string) (e : error) : error :=
  match e with Ok _ => Ok tt | Err m => Err ("invalid " +:+ name +:+ " field: " +:+ m) end.

Definition validate_fields (mi h d mo w : string) : error :=
  in_field "minute" (validateCronField mi 0 59 true) ;;;
  in_field "hour" (validateCronField h 0 23 true) ;;;
  in_field "day of month" (validateCronField d 1 31 true) ;;;
  in_field "month" (validateCronField mo 1 12 true) ;;;
  in_field "day of week" (validateCronField w 0 7 false) ;;;
  fail_if (negb (String.eqb d "*") && negb (String.eqb w "*"))
    "day-of-month and day-of-week cannot both be restricted".

Definition ValidateSchedule (expression : string) : result string string :=
  match fields (trim_space expression) with
  | [mi; h; d; mo; w] =>
      match validate_fields mi h d mo w with
      | Err e => Err e
      | Ok _ =>
          let minute := convertNumericField mi 0 in
          let hour := convertNumericField h 0 in
          let dayOfMonth := convertNumericField d 1 in
          let month := convertNumericField mo 1 in
          let date := "*-" +:+ month +:+ "-" +:+ dayOfMonth in
          let clock := hour +:+ ":" +:+ minute +:+ ":00" in
          if String.eqb w "*" then Ok (date +:+ " " +:+ clock)
          else weekdays ← convertWeekdayField w; Ok (weekdays +:+ " " +:+ date +:+ " " +:+ clock)
      end
  | _ => Err "schedule must be a 5-field cron expression"%string
  end.

(** ** Units *)
Record ScheduleSpec := mk_schedule_spec { PlanID : string; PlanName : string; sp_Cron : string; StateDBPath : string }.

Definition systemdRoot : string := "/etc/systemd/system".
Definition unitBase (planID : string) : string := "nexa-backup-" +:+ planID.

Definition id_byte (c : ascii) : bool := is_alnum c || Ascii.eqb "_" c || Ascii.eqb "-" c.
(** [^[A-Za-z0-9][A-Za-z0-9_-]{0,127}$] *)
Definition safePlanIDPattern : regex := Cat (Class is_alnum) (Upto (Class id_byte) 127).
Definition unit_path_byte (c : ascii) : bool := is_alnum c || one_of "_./:@+-" c.
(** [^/[A-Za-z0-9_./:@+\-]+$] *)
Definition safeUnitPathPattern : regex := Cat (lit "/") (plus (Class unit_path_byte)).

(** Percent introduces specifiers in a unit. *)
Definition unitDescription (value : string) : string := replace_byte "%" "%%" (trim_space value).

Definition renderService (nexaBinary : string) (spec : ScheduleSpec) : string :=
  lines
    ["[Unit]"%string;
     "Description=Nexa Panel backup plan " +:+ unitDescription (PlanName spec) +:+ " (" +:+ PlanID spec +:+ ")";
     "After=nexa-api.service"%string; EmptyString;
     "[Service]"%string;
     "Type=oneshot"%string;
     "User=nexa"%string;
     "Group=nexa"%string;
     "ExecStart=" +:+ nexaBinary +:+ " backup trigger --plan " +:+ PlanID spec +:+ " --state " +:+ StateDBPath spec].

Definition renderTimer (spec : ScheduleSpec) (onCalendar : string) : string :=
  lines
    ["[Unit]"%string;
     "Description=Schedule for Nexa Panel backup plan " +:+ unitDescription (PlanName spec) +:+ " (" +:+ PlanID spec +:+ ")";
     EmptyString;
     "[Timer]"%string;
     "OnCalendar=" +:+ onCalendar;
     "Persistent=true"%string; EmptyString;
     "[Install]"%string;
     "WantedBy=timers.target"%string].

Definition safe_unit_path (path : string) : bool :=
  matches safeUnitPathPattern path && String.eqb (path_clean path) path.
Definition validateScheduleSpec (spec : ScheduleSpec) (binary : string) : result string string :=
  let name := trim_space (PlanName spec) in
  match fail_if (negb (matches safePlanIDPattern (PlanID spec))) "backup plan ID contains unsafe characters" ;;;
        fail_if (String.eqb name EmptyString || (80 <? len name) || has_control name)
          "backup plan name must contain 1-80 printable characters" ;;;
        fail_if (negb (safe_unit_path (StateDBPath spec) && safe_unit_path binary)) "path is not safe for a systemd unit" with
  | Err e => Err e
  | Ok _ => ValidateSchedule (sp_Cron spec)
  end.

(** ** The host *)
Section host.
Context (root nexaBinary : string).

Definition hostSystemdRoot : string := if String.eqb root EmptyString then systemdRoot else root.
Definition timer_path (planID : string) : string := filepath_join [hostSystemdRoot; unitBase planID +:+ ".timer"].
Definition service_path (planID : string) : string := filepath_join [hostSystemdRoot; unitBase planID +:+ ".service"].

(** A command without effect on the tracked files. *)
Definition run_command (c : Command) : M unit :=
  a ← ask;
  _ ← modify (fun h => mk_machine (files h) (serving h) (schedule h) ((c, a) :: ran h));
  match a with
  | Proceed => mret tt
  | Refuse => fail system_error
  | Die => fun h => (Crashed, h)
  end.
Definition systemctl (args : list string) : M unit := run_command (command "systemctl" args).

Definition writeUnitAtomically (path text : string) : M unit := atomicWrite path text 420.

Definition InstallSchedule (spec : ScheduleSpec) : M unit :=
  match validateScheduleSpec spec nexaBinary with
  | Err e => fail e
  | Ok onCalendar =>
      _ ← wrap "write backup service unit" (writeUnitAtomically (service_path (PlanID spec)) (renderService nexaBinary spec));
      _ ← wrap "write backup timer unit" (writeUnitAtomically (timer_path (PlanID spec)) (renderTimer spec onCalendar));
      _ ← wrap "reload systemd" (systemctl ["daemon-reload"%string]);
      wrap "enable backup timer" (systemctl ["enable"; "--now"; unitBase (PlanID spec) +:+ ".timer"]%string)
  end.

(** [os.Stat] answers [None] for a missing file; another error is a failure. *)
Definition inspect (follow : filesystem -> string -> option node) (path : string) : M (bool + string) :=
  r ← attempt (stat follow path); mret (match r with inl n => inl (bool_decide (is_Some n)) | inr e => inr e end).

Definition RemoveSchedule (follow : filesystem -> string -> option node) (planID : string) : M unit :=
  if negb (matches safePlanIDPattern planID) then fail "backup plan ID contains unsafe characters" else
  timer ← inspect follow (timer_path planID);
  service ← inspect follow (service_path planID);
  match timer, service with
  | inl false, inl false => mret tt
  | inr e, _ => fail ("inspect backup timer unit: " +:+ e)
  | _, inr e => fail ("inspect backup service unit: " +:+ e)
  | inl installed, inl _ =>
      _ ← (if installed : bool then
             wrap "disable backup timer" (systemctl ["disable"; "--now"; unitBase planID +:+ ".timer"]%string)
           else mret tt);
      _ ← wrap "remove backup schedule unit" (for_each [timer_path planID; service_path planID] remove);
      wrap "reload systemd" (systemctl ["daemon-reload"%string])
  end.
End host.
