(* ===== verification/BackupScheduleProps.v ===== *)
(** * What a backup schedule means

    The conversion of [BackupSchedule] against the readers of [Cron]: on expressions
    the calendar notation can carry, the timer fires exactly when the crontab
    expression says. *)

From Stdlib Require Import Ascii.
From S2P Require Import Prelude GoStrings Regex Cron Sites SiteChecks Update SiteHost BackupSchedule.

Local Open Scope Z_scope.

(** ** Numbers *)
Lemma digit_val_nonneg c : is_digit c = true -> 0 <= digit_val c.
Proof.
  intros Hc. apply Z.leb_le. revert c Hc. apply (forall_ascii is_digit (fun c => 0 <=? digit_val c)). by vm_compute.
Qed.

Lemma atoi_positive s z : any_byte (Ascii.eqb "+") s = false -> atoi s = Some z -> 1 <= z -> parse_digits s = Some z.
Proof.
  destruct s as [|c s]; [done|]. cbn [any_byte]. rewrite orb_false_iff. intros [Hp Hs] Ha Hz.
  destruct (Ascii.eqb_spec "-" c) as [<-|Hm].
  - exfalso. unfold atoi in Ha. change (Ascii.eqb "-" "-") with true in Ha. cbn iota in Ha.
    destruct (parse_digits s) as [v|] eqn:Hv; [|done]. destruct (_ && _); [|done]. injection Ha as <-.
    assert (0 <= v); [|lia]. clear - Hv. unfold parse_digits in Hv. destruct s as [|d s]; [done|].
    revert Hv. generalize (String d s). intros t. assert (H : forall acc, 0 <= acc -> forall v, digits_val acc t = Some v -> 0 <= v).
    { induction t as [|e t IH]; simpl; intros acc Hacc w; [intros [= <-]; done|].
      destruct (is_digit e) eqn:He; [|done]. apply IH. pose proof (digit_val_nonneg e He). lia. }
    by apply H.
  - unfold atoi in Ha. rewrite (Ascii.eqb_sym c "-"), (Ascii.eqb_sym c "+"), Hp in Ha.
    rewrite (proj2 (Ascii.eqb_neq "-" c)) in Ha by done.
    destruct (parse_digits (String c s)) as [v|]; [|done]. destruct (_ && _); [|done]. by injection Ha as ->.
Qed.

Lemma number_ok token lo hi x : parseCronNumber token lo hi = Ok x -> atoi token = Some x /\ lo <= x <= hi.
Proof.
  unfold parseCronNumber. destruct (atoi token) as [v|]; [|done]. destruct (_ || _) eqn:H; [done|].
  intros [= ->]. apply orb_false_iff in H as [? ?]. split; [done|lia].
Qed.

Lemma count_byte_app c a b : count_byte c (a +:+ b) = (count_byte c a + count_byte c b)%nat.
Proof. induction a as [|d a IH]; simpl; [done|]. rewrite IH. lia. Qed.

Lemma count_none c s : count_byte c s = 0%nat -> any_byte (Ascii.eqb c) s = false.
Proof. induction s as [|d s IH]; simpl; [done|]. destruct (Ascii.eqb c d); [lia|]. intros H. apply IH. lia. Qed.

(** ** The shapes of an accepted item *)
Definition no_plus (s : string) : Prop := any_byte (Ascii.eqb "+") s = false.

Inductive shape (lo hi : Z) : string -> Z -> Z -> bool -> Prop :=
| shape_number s x : parse_digits s = Some x -> lo <= x <= hi -> shape lo hi s x x true
| shape_range s t x y : parse_digits s = Some x -> parse_digits t = Some y -> lo <= x -> x <= y -> y <= hi ->
    shape lo hi (s +:+ "-" +:+ t) x y false.

Lemma base_shape lo hi b : validate_base b lo hi = Ok tt -> no_plus b -> b = "*"%string \/ exists x y single, shape lo hi b x y single.
Proof.
  unfold validate_base, no_plus. destruct (String.eqb_spec b "*") as [->|Hb]; [by left|]. intros [Hc%fail_if_ok H]%seq_ok Hp. right.
  destruct (cut "-" b) as [[s t]|] eqn:Hcut.
  - apply cut_Some in Hcut as [-> Hs]. rewrite count_byte_app in Hc.
    change (count_byte "-" (String "-" t)) with (S (count_byte "-" t)) in Hc.
    change (s +:+ String "-" t) with (s +:+ "-" +:+ t) in *. rewrite !any_byte_app in Hp. apply orb_false_iff in Hp as [Hps Hpt].
    destruct (parseCronNumber s lo hi) as [x|] eqn:Hx; [|done]. destruct (parseCronNumber t lo hi) as [y|] eqn:Hy; [|done].
    apply fail_if_ok in H. apply number_ok in Hx as [Hx ?], Hy as [Hy ?].
    exists x, y, false. constructor; [by apply atoi_digits| |lia..]. apply atoi_digits; [done| |done].
    apply count_none. apply Z.ltb_ge in Hc. lia.
  - apply cut_None in Hcut. destruct (parseCronNumber b lo hi) as [x|] eqn:Hx; [|done]. apply number_ok in Hx as [Hx ?].
    exists x, x, true. constructor; [by apply atoi_digits|done].
Qed.

Lemma shape_bytes lo hi s x y single : shape lo hi s x y single ->
  all_bytes (fun c => is_digit c || Ascii.eqb "-" c) s = true /\ s <> "*"%string /\ lo <= x /\ x <= y /\ y <= hi.
Proof.
  intros H. assert (Hd : forall t, all_bytes is_digit t = true -> all_bytes (fun c => is_digit c || Ascii.eqb "-" c) t = true).
  { intros t. apply all_bytes_impl. intros c ->. done. }
  destruct H as [s x Hx ?|s t x y Hx Hy ? ? ?].
  - apply parse_digits_digits in Hx as [_ Hx]. split_and!; [by apply Hd|by intros ->|lia..].
  - apply parse_digits_digits in Hx as [Hne Hx], Hy as [_ Hy]. rewrite !all_bytes_app, (Hd s), (Hd t) by done.
    split_and!; [done| |lia..]. destruct s as [|c s]; [done|]. intros He. injection He as -> _. done.
Qed.

Lemma cron_base_shape names lo hi s x y single : shape lo hi s x y single -> cron_base names lo hi s = Some (x, y, single).
Proof.
  intros H. destruct (shape_bytes _ _ _ _ _ _ H) as (_ & Hne & _). unfold cron_base. apply String.eqb_neq in Hne as ->.
  destruct H as [s x Hx ?|s t x y Hx Hy ? ? ?].
  - rewrite (proj2 (cut_None _ _)); [by rewrite (parsed_number _ _ _ Hx)|]. apply digits_no_byte; [done|]. by apply parse_digits_digits in Hx as [_ ?].
  - change (s +:+ "-" +:+ t) with (s +:+ String "-" t). rewrite cut_app; [by rewrite (parsed_number _ _ _ Hx), (parsed_number _ _ _ Hy)|].
    apply digits_no_byte; [done|]. by apply parse_digits_digits in Hx as [_ ?].
Qed.

Lemma replace_byte_app c r a b : replace_byte c r (a +:+ b) = replace_byte c r a +:+ replace_byte c r b.
Proof. induction a as [|d a IH]; simpl; [done|]. rewrite IH. destruct (Ascii.eqb c d); [by rewrite str_app_assoc|done]. Qed.
Lemma replace_byte_none c r s : any_byte (Ascii.eqb c) s = false -> replace_byte c r s = s.
Proof. induction s as [|d s IH]; simpl; [done|]. intros [-> H]%orb_false_iff. by rewrite IH. Qed.

(** What a converted item is made of. *)
Definition calendar_byte (c : ascii) : bool := is_digit c || one_of "./" c.
Lemma calendar_digits s : all_bytes is_digit s = true -> all_bytes calendar_byte s = true.
Proof. apply all_bytes_impl. intros c Hc. unfold calendar_byte. by rewrite Hc. Qed.

Lemma calendar_base_shape lo hi s x y single : shape lo hi s x y single ->
  calendar_base (replace_byte "-" ".." s) = Some (x, y, single) /\ all_bytes calendar_byte (replace_byte "-" ".." s) = true.
Proof.
  intros H. destruct H as [s x Hx ?|s t x y Hx Hy ? ? ?].
  - pose proof (parse_digits_digits _ _ Hx) as [_ Hd]. rewrite replace_byte_none by (by apply digits_no_byte).
    split; [|by apply calendar_digits]. unfold calendar_base. rewrite (cut_str_none "." ".") by (by apply digits_no_byte). by rewrite Hx.
  - pose proof (parse_digits_digits _ _ Hx) as [_ Hs]. pose proof (parse_digits_digits _ _ Hy) as [_ Ht].
    rewrite !replace_byte_app, (replace_byte_none "-" ".." s) by (by apply digits_no_byte).
    rewrite (replace_byte_none "-" ".." t) by (by apply digits_no_byte).
    change (replace_byte "-" ".." "-") with ".."%string. split.
    + unfold calendar_base. rewrite (cut_str_first "." "." s t) by (by apply digits_no_byte). by rewrite Hx, Hy.
    + rewrite !all_bytes_app. by rewrite (calendar_digits s), (calendar_digits t).
Qed.

(** ** Items and fields *)
Lemma no_calendar_byte c s : calendar_byte c = false -> all_bytes calendar_byte s = true -> any_byte (Ascii.eqb c) s = false.
Proof.
  intros Hc Hs. apply any_byte_false. eapply all_bytes_impl; [|exact Hs]. simpl. intros d Hd.
  apply negb_true_iff. destruct (Ascii.eqb_spec c d) as [->|]; [congruence|done].
Qed.

Lemma shape_no_slash lo hi s x y single : shape lo hi s x y single -> any_byte (Ascii.eqb "/") s = false.
Proof.
  intros (Hs & _)%shape_bytes. apply any_byte_false. eapply all_bytes_impl; [|exact Hs].
  apply forall_ascii. by vm_compute.
Qed.

Lemma shape_unstarred lo hi s t x y single : shape lo hi s x y single -> strip_prefix "*/" (s +:+ t) = None.
Proof.
  intros H. destruct (strip_prefix "*/" (s +:+ t)) as [r|] eqn:Hr; [|done]. apply strip_prefix_Some in Hr.
  exfalso. assert (Hd : exists c u, s = String c u /\ is_digit c = true).
  { destruct H as [s x Hx ?|s u x y Hx Hy ? ? ?]; apply parse_digits_digits in Hx as [Hne Hx];
      (destruct s as [|c s]; [done|]); apply andb_prop in Hx as [Hc _]; by eexists c, _. }
  destruct Hd as (c & u & -> & Hc). injection Hr as -> _. done.
Qed.

Lemma replace_no_slash s : any_byte (Ascii.eqb "/") s = false -> any_byte (Ascii.eqb "/") (replace_byte "-" ".." s) = false.
Proof.
  induction s as [|c s IH]; [done|]. cbn [any_byte]. intros [Hc Hs]%orb_false_iff.
  cbn [replace_byte]. destruct (Ascii.eqb "-" c); [by rewrite any_byte_app, IH|]. cbn [any_byte]. by rewrite Hc, IH.
Qed.

Lemma item_bare names lo hi s x y single : shape lo hi s x y single ->
  cron_item names lo hi s = Some (x, y, 1) /\ calendar_item lo hi (convert_item lo s) = Some (x, y, 1) /\
  all_bytes calendar_byte (convert_item lo s) = true.
Proof.
  intros H. pose proof (shape_no_slash _ _ _ _ _ _ H) as Hs. destruct (calendar_base_shape _ _ _ _ _ _ H) as [Hb Hbytes].
  pose proof (shape_unstarred _ _ _ EmptyString _ _ _ H) as Hp. rewrite str_app_nil_r in Hp.
  unfold cron_item, convert_item. rewrite Hp, (proj2 (cut_None _ _) Hs), (cron_base_shape _ _ _ _ _ _ _ H).
  assert (Hc : checked lo hi (x, y, 1) = Some (x, y, 1)).
  { apply checked_ok. destruct (shape_bytes _ _ _ _ _ _ H) as (_ & _ & ? & ? & ?). unfold well_bounded. lia. }
  split_and!; [done| |done]. unfold calendar_item.
  assert (cut "/" (replace_byte "-" ".." s) = None) as ->.
  { by apply cut_None, replace_no_slash. }
  rewrite Hb. exact Hc.
Qed.

Lemma item_stepped names lo hi s n k x y single : shape lo hi s x y single -> parse_digits n = Some k -> 1 <= k ->
  cron_item names lo hi (s +:+ "/" +:+ n) = Some (x, if single then hi else y, k) /\
  calendar_item lo hi (convert_item lo (s +:+ "/" +:+ n)) = Some (x, if single then hi else y, k) /\
  all_bytes calendar_byte (convert_item lo (s +:+ "/" +:+ n)) = true.
Proof.
  intros H Hn Hk. pose proof (shape_no_slash _ _ _ _ _ _ H) as Hs. destruct (calendar_base_shape _ _ _ _ _ _ H) as [Hb Hbytes].
  pose proof (shape_unstarred _ _ _ ("/" +:+ n) _ _ _ H) as Hp. pose proof (parse_digits_digits _ _ Hn) as [_ Hd].
  unfold cron_item, convert_item. rewrite Hp.
  change (s +:+ "/" +:+ n) with (s +:+ String "/" n). rewrite cut_app by done. rewrite (cron_base_shape _ _ _ _ _ _ _ H). simpl.
  rewrite Hn. cbn [mbind option_bind].
  assert (Hc : checked lo hi (x, if single then hi else y, k) = Some (x, if single then hi else y, k)).
  { apply checked_ok. destruct (shape_bytes _ _ _ _ _ _ H) as (_ & _ & ? & ? & ?). unfold well_bounded. destruct single; lia. }
  change (s +:+ String "/" n) with (s +:+ "/" +:+ n).
  rewrite !replace_byte_app, (replace_byte_none "-" ".." n) by (by apply digits_no_byte).
  change (replace_byte "-" ".." "/") with "/"%string. split_and!; [done| |].
  - unfold calendar_item. change (?a +:+ "/" +:+ n) with (a +:+ String "/" n). rewrite cut_app.
    + rewrite Hb. simpl. rewrite Hn. exact Hc.
    + by apply replace_no_slash.
  - rewrite !all_bytes_app, Hbytes. by rewrite (calendar_digits n).
Qed.

(** What the calendar notation can carry: no sign on a number, [*] alone. *)
Definition item_fits (item : string) : bool := negb (String.eqb item "*") && negb (any_byte (Ascii.eqb "+") item).
Definition field_fits (f : string) : bool := String.eqb f "*" || forallb item_fits (split "," f).

Lemma item_converts names lo hi steps item : (lo = 0 \/ lo = 1) -> lo <= hi ->
  validate_item lo hi steps item = Ok tt -> item_fits item = true ->
  exists p, cron_item names lo hi item = Some p /\ calendar_item lo hi (convert_item lo item) = Some p /\
    all_bytes calendar_byte (convert_item lo item) = true.
Proof.
  intros Hlo Hhi Hv Hf. unfold item_fits in Hf. rewrite andb_true_iff, !negb_true_iff, String.eqb_neq in Hf. destruct Hf as [Hstar Hplus].
  unfold validate_item in Hv. rewrite !seq_ok, !fail_if_ok in Hv. destruct Hv as (_ & Hcount & Hv).
  destruct (cut "/" item) as [[b n]|] eqn:Hcut.
  - apply cut_Some in Hcut as [-> Hb]. change (b +:+ String "/" n) with (b +:+ "/" +:+ n) in *.
    rewrite !any_byte_app in Hplus. apply orb_false_iff in Hplus as [Hpb Hpn].
    rewrite !seq_ok, !fail_if_ok in Hv. destruct Hv as (_ & Hstep & Hv).
    destruct (atoi n) as [k|] eqn:Hk; [|done]. apply orb_false_iff in Hstep as [Hk1 Hk2].
    pose proof (atoi_positive n k Hpn Hk ltac:(lia)) as Hn.
    destruct (base_shape lo hi b Hv Hpb) as [->|(x & y & single & Hsh)].
    + exists (lo, hi, k). pose proof (parse_digits_digits _ _ Hn) as [_ Hd].
      unfold cron_item, convert_item. change ("*" +:+ "/" +:+ n) with (String "*" (String "/" n)).
      assert (cut "/" (String "*" (String "/" n)) = Some ("*"%string, n)) as -> by done.
      assert (strip_prefix "*/" (String "*" (String "/" n)) = Some n) as -> by done.
      assert (Hc : checked lo hi (lo, hi, k) = Some (lo, hi, k)) by (apply checked_ok; unfold well_bounded; lia).
      cbn [cron_base String.eqb]. rewrite Hn. cbn [mbind option_bind]. split_and!; [done| |].
      * unfold calendar_item. destruct Hlo as [-> | ->].
        -- change (itoa 0 +:+ "/" +:+ n) with ("0" +:+ String "/" n). rewrite cut_app by done. simpl. rewrite Hn. simpl.
           apply checked_ok. unfold well_bounded. lia.
        -- change (itoa 1 +:+ "/" +:+ n) with ("1" +:+ String "/" n). rewrite cut_app by done. simpl. rewrite Hn. simpl.
           apply checked_ok. unfold well_bounded. lia.
      * rewrite !all_bytes_app, (calendar_digits n), (calendar_digits (itoa lo)) by (first [done|apply itoa_digits; lia]). done.
    + eexists. apply (item_stepped names lo hi b n k x y single); [done|done|lia].
  - destruct (base_shape lo hi item Hv Hplus) as [->|(x & y & single & Hsh)]; [done|].
    exists (x, y, 1). by apply (item_bare names lo hi item x y single).
Qed.

Lemma validate_items_ok lo hi steps items :
  validate_items lo hi steps items = Ok tt <-> Forall (fun item => validate_item lo hi steps item = Ok tt) items.
Proof.
  induction items as [|item items IH]; simpl; [by split|]. rewrite seq_ok, IH, Forall_cons. done.
Qed.

Definition field_byte (c : ascii) : bool := calendar_byte c || one_of "*," c.
Lemma field_bytes_join l : Forall (fun s => all_bytes calendar_byte s = true) l -> all_bytes field_byte (join "," l) = true.
Proof.
  intros H. apply join_words; [done|]. eapply Forall_impl; [exact H|]. intros s. apply all_bytes_impl.
  intros c Hc. unfold field_byte. by rewrite Hc.
Qed.

Lemma mapM_items {A B} (f : A -> option B) (g : A -> option B) (l : list A) :
  Forall (fun x => exists p, f x = Some p /\ g x = Some p) l -> exists ps, mapM f l = Some ps /\ mapM g l = Some ps.
Proof.
  induction 1 as [|x l (p & Hf & Hg) _ (ps & IHf & IHg)]; [by exists []|].
  exists (p :: ps). simpl. by rewrite Hf, Hg, IHf, IHg.
Qed.

Lemma mapM_map {A B C} (f : A -> B) (g : B -> option C) (l : list A) : mapM g (f <$> l) = mapM (g ∘ f) l.
Proof. induction l as [|x l IH]; [done|]. rewrite fmap_cons. cbn [mapM]. by rewrite IH. Qed.

(** A numeric field and its conversion select the same values. *)
Lemma field_converts names lo hi f : (lo = 0 \/ lo = 1) -> lo <= hi ->
  validateCronField f lo hi true = Ok tt -> field_fits f = true ->
  exists ps, cron_field names lo hi f = Some ps /\ calendar_component lo hi (convertNumericField f lo) = Some ps /\
    all_bytes field_byte (convertNumericField f lo) = true.
Proof.
  intros Hlo Hhi Hv Hf. unfold convertNumericField. destruct (String.eqb_spec f "*") as [->|Hne].
  { exists [(lo, hi, 1)]. split_and!; [|done..]. unfold cron_field, cron_item. cbn. unfold checked.
    by rewrite (proj2 (in_bounds_spec lo hi (lo, hi, 1))) by (unfold well_bounded; lia). }
  unfold validateCronField in Hv. rewrite seq_ok, validate_items_ok in Hv. destruct Hv as [_ Hv].
  unfold field_fits in Hf. rewrite (proj2 (String.eqb_neq _ _) Hne) in Hf. simpl in Hf. rewrite forallb_forall in Hf.
  assert (Hitems : Forall (fun item => exists p, cron_item names lo hi item = Some p /\
    calendar_item lo hi (convert_item lo item) = Some p /\ all_bytes calendar_byte (convert_item lo item) = true) (split "," f)).
  { apply Forall_forall. intros item Hin. rewrite Forall_forall in Hv. apply (item_converts names lo hi true); [done|done|by apply Hv|].
    apply Hf. by apply list_elem_of_In. }
  assert (Hbytes : Forall (fun s => all_bytes calendar_byte s = true) (convert_item lo <$> split "," f)).
  { apply Forall_fmap. eapply Forall_impl; [exact Hitems|]. by intros item (p & _ & _ & ?). }
  destruct (mapM_items (cron_item names lo hi) (calendar_item lo hi ∘ convert_item lo) (split "," f)) as (ps & Hc & Hg).
  { eapply Forall_impl; [exact Hitems|]. intros item (p & ? & ? & _). by exists p. }
  exists ps. split_and!; [done| |by apply field_bytes_join].
  unfold calendar_component. assert (Hsplit : split "," (join "," (convert_item lo <$> split "," f)) = convert_item lo <$> split "," f).
  { apply split_joined; [by intros ?%fmap_nil_inv%split_not_nil|]. eapply Forall_impl; [exact Hbytes|]. intros s. by apply no_calendar_byte. }
  destruct (String.eqb_spec (join "," (convert_item lo <$> split "," f)) "*") as [He|_].
  - exfalso. rewrite He in Hsplit. change (split "," "*") with ["*"%string] in Hsplit. rewrite <-Hsplit in Hbytes.
    apply Forall_cons in Hbytes as [H _]. done.
  - rewrite Hsplit, mapM_map. exact Hg.
Qed.

(** ** Days of the week *)
Definition day_index (v : Z) : Z := (v + 6) mod 7.
Lemma day_index_pos a : 1 <= a <= 7 -> day_index a = a - 1.
Proof. intros Ha. unfold day_index. replace (a + 6) with (a - 1 + 1 * 7) by lia. rewrite Z.mod_add by lia. apply Z.mod_small. lia. Qed.

Lemma weekday_named token x : parse_digits token = Some x -> 0 <= x <= 7 ->
  exists name, weekdayName token = Ok name /\ calendar_weekday name = Some (day_index x) /\
    all_bytes is_alpha name = true.
Proof.
  intros Hp Hx. unfold weekdayName. rewrite (atoi_parsed token x) by (unfold int64_max; first [done|lia]).
  rewrite (proj2 (Z.ltb_ge x 0)), (proj2 (Z.ltb_ge 7 x)) by lia. simpl orb. cbn iota.
  assert (x = 0 \/ x = 1 \/ x = 2 \/ x = 3 \/ x = 4 \/ x = 5 \/ x = 6 \/ x = 7) as H by lia.
  destruct H as [->|[->|[->|[->|[->|[->|[->| ->]]]]]]]; eexists; split_and!; by vm_compute.
Qed.

(** A range that starts on a Sunday has no counterpart. *)
Definition weekdays_fit (w : string) : bool :=
  forallb (fun part => match cut "-" part with Some (a, _) => negb (bool_decide (parse_digits a = Some 0)) | None => true end) (split "," w).

(** One item, before and after: what they select on day [v]. *)
Definition same_day (c d : progression) : Prop :=
  forall v, 0 <= v <= 6 -> in_progression (day_index v) d = in_progression v c || ((v =? 0) && in_progression 7 c).

Lemma in_unit_progression v x y : in_progression v (x, y, 1) = ((x <=? v) && (v <=? y)).
Proof. unfold in_progression. by rewrite Z.mod_1_r, andb_true_r. Qed.

Lemma same_day_range x y : 1 <= x -> x <= y -> y <= 7 -> same_day (x, y, 1) (day_index x, day_index y, 1).
Proof.
  intros Hx Hxy Hy v Hv. rewrite !in_unit_progression, (day_index_pos x), (day_index_pos y) by lia.
  destruct (Z.eqb_spec v 0) as [->|Hne].
  - change (day_index 0) with 6. lia.
  - rewrite day_index_pos by lia. lia.
Qed.
Lemma same_day_number x : 0 <= x <= 7 -> same_day (x, x, 1) (day_index x, day_index x, 1).
Proof.
  intros Hx. destruct (decide (x = 0)) as [->|]; [|apply same_day_range; lia].
  intros v Hv. rewrite !in_unit_progression. change (day_index 0) with 6.
  destruct (Z.eqb_spec v 0) as [->|Hne]; [done|]. rewrite day_index_pos by lia. lia.
Qed.

Definition weekday_byte (c : ascii) : bool := is_alpha c || Ascii.eqb "." c.
Lemma alpha_no_dot name : all_bytes is_alpha name = true ->
  any_byte (Ascii.eqb ".") name = false /\ all_bytes weekday_byte name = true.
Proof.
  intros H. split; [apply any_byte_false|]; (eapply all_bytes_impl; [|exact H]); apply forall_ascii; by vm_compute.
Qed.

Lemma weekday_converts part : validate_item 0 7 false part = Ok tt -> item_fits part = true ->
  match cut "-" part with Some (a, _) => negb (bool_decide (parse_digits a = Some 0)) | None => true end = true ->
  exists c d text, cron_item day_names 0 7 part = Some c /\ convert_weekdays part = Ok text /\ calendar_days text = Some d /\
    same_day c d /\ all_bytes weekday_byte text = true.
Proof.
  intros Hv Hf Hz. unfold item_fits in Hf. rewrite andb_true_iff, !negb_true_iff, String.eqb_neq in Hf. destruct Hf as [Hstar Hplus].
  unfold validate_item in Hv. rewrite !seq_ok, !fail_if_ok in Hv. destruct Hv as (_ & _ & Hv).
  destruct (cut "/" part) as [[b n]|]; [rewrite seq_ok in Hv; by destruct Hv|].
  destruct (base_shape 0 7 part Hv Hplus) as [->|(x & y & single & Hsh)]; [done|].
  destruct (item_bare day_names _ _ _ _ _ _ Hsh) as (Hc & _ & _). destruct Hsh as [s x Hx ?|s t x y Hx Hy ? ? ?].
  - destruct (weekday_named s x Hx) as (name & Hn & Hcal & Ha); [lia|]. apply alpha_no_dot in Ha as [Hdot Hb].
    exists (x, x, 1), (day_index x, day_index x, 1), name. unfold convert_weekdays, calendar_days.
    rewrite (proj2 (cut_None _ _)) by (apply digits_no_byte; [done|]; by apply parse_digits_digits in Hx as [_ ?]).
    rewrite (cut_str_none "." ".") by done. rewrite Hcal. split_and!; [done..|by apply same_day_number|done].
  - change (s +:+ "-" +:+ t) with (s +:+ String "-" t) in *.
    rewrite cut_app in Hz by (apply digits_no_byte; [done|]; by apply parse_digits_digits in Hx as [_ ?]).
    apply negb_true_iff, bool_decide_eq_false in Hz.
    destruct (weekday_named s x Hx) as (n1 & Hn1 & Hc1 & Ha1); [lia|]. destruct (weekday_named t y Hy) as (n2 & Hn2 & Hc2 & Ha2); [lia|].
    apply alpha_no_dot in Ha1 as [Hd1 Hb1], Ha2 as [Hd2 Hb2].
    assert (x <> 0) by congruence.
    assert (Hconv : convert_weekdays (s +:+ String "-" t) = Ok (n1 +:+ ".." +:+ n2)).
    { unfold convert_weekdays. rewrite cut_app by (apply digits_no_byte; [done|]; by apply parse_digits_digits in Hx as [_ ?]).
      unfold mbind, result_bind. by rewrite Hn1, Hn2. }
    assert (Hcal : calendar_days (n1 +:+ ".." +:+ n2) = Some (day_index x, day_index y, 1)).
    { unfold calendar_days. rewrite (cut_str_first "." "." n1 n2) by done. unfold mbind, option_bind. rewrite Hc1, Hc2.
      apply checked_ok. unfold well_bounded. rewrite !day_index_pos by lia. lia. }
    exists (x, y, 1), (day_index x, day_index y, 1), (n1 +:+ ".." +:+ n2).
    split_and!; [done|done|done|apply same_day_range; lia|by rewrite !all_bytes_app, Hb1, Hb2].
Qed.

Lemma weekdays_convert w : validateCronField w 0 7 false = Ok tt -> field_fits w = true -> weekdays_fit w = true -> w <> "*"%string ->
  exists cs ds text, cron_field day_names 0 7 w = Some cs /\ convertWeekdayField w = Ok text /\ mapM calendar_days (split "," text) = Some ds /\
    (forall v, 0 <= v <= 6 -> selects ds (day_index v) = selects cs v || ((v =? 0) && selects cs 7)) /\
    all_bytes (fun c => weekday_byte c || Ascii.eqb "," c) text = true.
Proof.
  intros Hv Hf Hz Hne. unfold validateCronField in Hv. rewrite seq_ok, validate_items_ok in Hv. destruct Hv as [_ Hv].
  unfold field_fits in Hf. rewrite (proj2 (String.eqb_neq _ _) Hne) in Hf. simpl in Hf. rewrite forallb_forall in Hf.
  unfold weekdays_fit in Hz. rewrite forallb_forall in Hz. unfold cron_field, convertWeekdayField.
  assert (H : exists cs ds texts, mapM (cron_item day_names 0 7) (split "," w) = Some cs /\ convert_weekday_items (split "," w) = Ok texts /\
    mapM calendar_days texts = Some ds /\ Forall2 same_day cs ds /\ Forall (fun t => all_bytes weekday_byte t = true) texts /\
    length texts = length (split "," w)).
  { revert Hv Hf Hz. generalize (split "," w). intros l. induction l as [|part l IH]; intros Hv Hf Hz; [by exists [], [], []|].
    apply Forall_cons in Hv as [Hp Hv].
    destruct (weekday_converts part Hp) as (c & d & text & Hc & Ht & Hd & Hs & Hb); [apply Hf; by left|apply Hz; by left|].
    destruct IH as (cs & ds & texts & Hcs & Hts & Hds & Hss & Hbs & Hlen); [done|intros; apply Hf; by right|intros; apply Hz; by right|].
    exists (c :: cs), (d :: ds), (text :: texts).
    split_and!; [by simpl; rewrite Hc, Hcs|by simpl; rewrite Ht; simpl; rewrite Hts|by simpl; rewrite Hd, Hds
      |by constructor|by constructor|by simpl; rewrite Hlen]. }
  destruct H as (cs & ds & texts & Hcs & Hts & Hds & Hss & Hbs & Hlen). exists cs, ds, (join "," texts).
  assert (Hsplit : split "," (join "," texts) = texts).
  { apply split_joined.
    - intros ->. symmetry in Hlen. by apply length_zero_iff_nil, split_not_nil in Hlen.
    - eapply Forall_impl; [exact Hbs|]. intros t Ht. apply any_byte_false. eapply all_bytes_impl; [|exact Ht].
      apply forall_ascii. by vm_compute. }
  split_and!; [done|by rewrite Hts|by rewrite Hsplit| |].
  - intros v Hr. clear - Hss Hr. induction Hss as [|c d cs ds Hcd _ IH]; [simpl; by destruct (v =? 0)|].
    unfold selects in *. cbn [existsb]. rewrite IH, (Hcd v Hr). destruct (v =? 0), (in_progression v c), (in_progression 7 c); simpl; try done.
    by destruct (existsb (in_progression v) cs).
  - apply join_words; [done|]. eapply Forall_impl; [exact Hbs|]. intros t. apply all_bytes_impl. by intros c ->.
Qed.

(** ** The whole expression *)
Definition schedule_fits (expression : string) : bool :=
  match fields (trim_space expression) with
  | [mi; h; d; mo; w] => forallb field_fits [mi; h; d; mo; w] && (String.eqb w "*" || weekdays_fit w)
  | _ => false
  end.

Lemma field_no_byte c s : field_byte c = false -> all_bytes field_byte s = true -> any_byte (Ascii.eqb c) s = false.
Proof.
  intros Hc Hs. apply any_byte_false. eapply all_bytes_impl; [|exact Hs]. simpl. intros d Hd.
  apply negb_true_iff. destruct (Ascii.eqb_spec c d) as [->|]; [congruence|done].
Qed.

Lemma read_date_clock wd mi h d mo mi' h' d' mo' :
  calendar_component 0 59 mi = Some mi' -> calendar_component 0 23 h = Some h' -> calendar_component 1 31 d = Some d' ->
  calendar_component 1 12 mo = Some mo' -> Forall (fun s => all_bytes field_byte s = true) [mi; h; d; mo] ->
  let date := "*-" +:+ mo +:+ "-" +:+ d in
  let clock := h +:+ ":" +:+ mi +:+ ":00" in
  read_clock wd date clock = Some (mk_calendar wd mo' d' h' mi') /\
  any_byte (Ascii.eqb " ") date = false /\ any_byte (Ascii.eqb " ") clock = false.
Proof.
  intros Hmi Hh Hd Hmo HB. cbv zeta. rewrite !Forall_cons in HB. destruct HB as (Bmi & Bh & Bd & Bmo & _).
  assert (Hsp : forall s, all_bytes field_byte s = true -> any_byte (Ascii.eqb " ") s = false) by (intros; by apply field_no_byte).
  assert (Hda : forall s, all_bytes field_byte s = true -> any_byte (Ascii.eqb "-") s = false) by (intros; by apply field_no_byte).
  assert (Hco : forall s, all_bytes field_byte s = true -> any_byte (Ascii.eqb ":") s = false) by (intros; by apply field_no_byte).
  split_and!; [|by rewrite !any_byte_app, (Hsp mo), (Hsp d) by done|by rewrite !any_byte_app, (Hsp h), (Hsp mi) by done].
  unfold read_clock. change ("*-" +:+ mo +:+ "-" +:+ d) with ("*" +:+ String "-" (mo +:+ String "-" d)).
  change (h +:+ ":" +:+ mi +:+ ":00") with (h +:+ String ":" (mi +:+ String ":" "00")).
  rewrite !split_app by auto. rewrite (split_one "-" d), (split_one ":" "00") by auto.
  rewrite !String.eqb_refl. cbn [andb]. unfold mbind, option_bind. by rewrite Hmo, Hd, Hh, Hmi.
Qed.

Lemma in_field_ok name e : in_field name e = Ok tt <-> e = Ok tt.
Proof. destruct e as [[]|m]; split; done. Qed.

Lemma every_weekday v : 0 <= v <= 6 -> selects [(0, 7, 1)] v = true /\ selects [(0, 6, 1)] ((v + 6) mod 7) = true.
Proof.
  intros Hv. assert (0 <= (v + 6) mod 7 < 7) by (apply Z.mod_pos_bound; lia).
  unfold selects. cbn [existsb]. rewrite !in_unit_progression. lia.
Qed.

(** C28. A timer fires when its schedule says.  For every accepted crontab expression
    whose numbers carry no sign, in which [*] stands alone and no range of weekdays
    starts on Sunday as 0, the calendar expression the timer gets is well formed, and
    of all moments it selects exactly those the crontab expression selects, under the
    rule of crontab for the two day fields. *)
Theorem backup_schedule_exact expression text :
  ValidateSchedule expression = Ok text -> schedule_fits expression = true ->
  exists c, read_calendar text = Some c /\
    forall t, in_range t -> cron_selects (fields (trim_space expression)) t = Some (calendar_selects c t).
Proof.
  unfold ValidateSchedule, schedule_fits. destruct (fields (trim_space expression)) as [|mi [|h [|d [|mo [|w [|? ?]]]]]]; try done.
  destruct (validate_fields mi h d mo w) as [[]|] eqn:Hok; [|done]. unfold validate_fields in Hok.
  rewrite !seq_ok, !in_field_ok, fail_if_ok in Hok.
  destruct Hok as (Vmi & Vh & Vd & Vmo & Vw & Hdays). intros Htext Hfit. cbn [forallb] in Hfit. rewrite !andb_true_iff in Hfit.
  destruct Hfit as ((Fmi & Fh & Fd & Fmo & Fw & _) & Hw).
  destruct (field_converts [] 0 59 mi) as (pmi & Cmi & Kmi & Bmi); [by left|lia|done..|].
  destruct (field_converts [] 0 23 h) as (ph & Ch & Kh & Bh); [by left|lia|done..|].
  destruct (field_converts [] 1 31 d) as (pd & Cd & Kd & Bd); [by right|lia|done..|].
  destruct (field_converts month_names 1 12 mo) as (pmo & Cmo & Kmo & Bmo); [by right|lia|done..|].
  pose proof (fun wd => read_date_clock wd _ _ _ _ _ _ _ _ Kmi Kh Kd Kmo (Forall_cons_2 _ _ _ Bmi (Forall_cons_2 _ _ _ Bh
    (Forall_cons_2 _ _ _ Bd (Forall_cons_2 _ _ _ Bmo (Forall_nil_2 _)))))) as Hread. cbv zeta in Hread, Htext.
  set (date := "*-" +:+ _) in *. set (clock := convertNumericField h 0 +:+ _) in *.
  destruct (Hread []) as (_ & Hdate & Hclock). unfold cron_selects. rewrite Cmi, Ch, Cd, Cmo. unfold mbind, option_bind.
  destruct (String.eqb_spec w "*") as [->|Hne].
  - assert (text = date +:+ " " +:+ clock) as -> by congruence. exists (mk_calendar [(0, 6, 1)] pmo pd ph pmi). split.
    + unfold read_calendar. change (date +:+ " " +:+ clock) with (date +:+ String " " clock).
      rewrite split_app, split_one by done. by destruct (Hread [(0, 6, 1)]) as (-> & _).
    + intros t Ht. change (cron_field day_names 0 7 "*") with (Some [(0, 7, 1)]). unfold calendar_selects. cbn [c_minute c_hour c_month c_day c_weekdays].
      change (starred "*") with true. rewrite orb_true_r. destruct Ht as (_ & _ & _ & _ & Hwd).
      by destruct (every_weekday (at_weekday t) Hwd) as [-> ->].
  - apply andb_false_iff in Hdays. rewrite !negb_false_iff, !String.eqb_eq in Hdays. destruct Hdays as [->|?]; [|done].
    cbn [orb] in Hw. destruct (weekdays_convert w) as (cs & ds & names & Ccs & Ct & Cds & Hsel & Bt); [done..|].
    rewrite Ct in Htext. change (@Ok string _ (names +:+ " " +:+ date +:+ " " +:+ clock) = Ok text) in Htext.
    assert (text = names +:+ " " +:+ date +:+ " " +:+ clock) as -> by congruence. exists (mk_calendar ds pmo pd ph pmi). split.
    + unfold read_calendar. change (names +:+ " " +:+ date +:+ " " +:+ clock) with (names +:+ String " " (date +:+ String " " clock)).
      rewrite !split_app, split_one; [|done|done|].
      * rewrite Cds. cbn [mbind option_bind]. by destruct (Hread ds) as (-> & _).
      * apply any_byte_false. eapply all_bytes_impl; [|exact Bt]. apply forall_ascii. by vm_compute.
    + intros t Ht. rewrite Ccs. change (starred "*") with true. cbn [orb]. unfold calendar_selects. cbn [c_minute c_hour c_month c_day c_weekdays].
      destruct Ht as (_ & _ & _ & _ & Hwd). change ((at_weekday t + 6) mod 7) with (day_index (at_weekday t)). by rewrite Hsel.
Qed.

(** A witness, and what the two restrictions are for: a week written as [0-7] becomes
    Sunday alone; a range from Sunday, and a signed number, become expressions that
    cannot be read. *)
Lemma backup_schedule_exact_witness :
  exists c, read_calendar "Mon..Fri *-1..6,12-* 3:0/15:00" = Some c /\
    forall t, in_range t -> cron_selects (fields (trim_space "*/15 3 * 1-6,12 1-5")) t = Some (calendar_selects c t).
Proof. apply (backup_schedule_exact "*/15 3 * 1-6,12 1-5" "Mon..Fri *-1..6,12-* 3:0/15:00"); by vm_compute. Defined.

Definition monday_at_three : moment := mk_moment 0 3 15 6 1.
Lemma backup_schedule_week_from_zero :
  ValidateSchedule "0 3 * * 0-7" = Ok "Sun..Sun *-*-* 3:0:00"%string /\
  cron_selects (fields "0 3 * * 0-7") monday_at_three = Some true /\
  (fun c => calendar_selects c monday_at_three) <$> read_calendar "Sun..Sun *-*-* 3:0:00" = Some false /\
  ValidateSchedule "0 3 * * 0-3" = Ok "Sun..Wed *-*-* 3:0:00"%string /\ read_calendar "Sun..Wed *-*-* 3:0:00" = None.
Proof. by vm_compute. Qed.

Lemma backup_schedule_signed_number :
  ValidateSchedule "+5 3 * * *" = Ok "*-*-* 3:+5:00"%string /\ read_calendar "*-*-* 3:+5:00" = None.
Proof. by vm_compute. Qed.
