(* ===== verification/BackupUnits.v ===== *)
(** * The units of a backup plan

    A reader of systemd unit files, and what it finds in the two units of a plan whose
    specification passes its checks. *)

From Stdlib Require Import Ascii.
From S2P Require Import Prelude GoStrings Regex Naming Sites SiteRender SiteChecks Cron BackupSchedule BackupScheduleProps.

Local Open Scope Z_scope.

(** ** Unit files: sections, settings, comments; no continued lines *)
Inductive unit_line := Unit_section (name : string) | Unit_setting (key value : string).
Definition backslash : ascii := "\".

Definition read_unit_line (l : string) : option (list unit_line) :=
  match l with
  | EmptyString => Some []
  | String c t =>
      if last_byte (Ascii.eqb backslash) l then None
      else if one_of "#;" c then Some []
      else if Ascii.eqb "[" c then match cut "]" t with Some (name, EmptyString) => Some [Unit_section name] | _ => None end
      else match cut "=" l with Some (k, v) => Some [Unit_setting k v] | None => None end
  end.
Definition read_unit (s : string) : option (list unit_line) := @concat _ <$> mapM read_unit_line (split newline s).

Lemma split_lines l : Forall (fun x => any_byte (Ascii.eqb newline) x = false) l -> split newline (lines l) = l ++ [EmptyString].
Proof.
  induction 1 as [|x l Hx _ IH]; [done|]. rewrite lines_cons. unfold line. rewrite str_app_assoc.
  change (String newline EmptyString +:+ ?x) with (String newline x). rewrite split_app by done. by rewrite IH.
Qed.

Lemma read_unit_lines l items :
  Forall2 (fun x i => any_byte (Ascii.eqb newline) x = false /\ read_unit_line x = Some i) l items ->
  read_unit (lines l) = Some (concat items).
Proof.
  intros H. unfold read_unit. rewrite split_lines.
  - assert (Hm : mapM read_unit_line (l ++ [EmptyString]) = Some (items ++ [[]])).
    { induction H as [|x i l items [_ Hx] _ IH]; [done|]. simpl. rewrite Hx. simpl. by rewrite IH. }
    rewrite Hm. simpl. f_equal. rewrite concat_app. simpl. by rewrite app_nil_r.
  - induction H as [|x i l items [Hx _] _ IH]; by constructor.
Qed.

(** A setting: a key that starts a setting, a value that does not end in a backslash. *)
Definition key_text (k : string) : bool :=
  first_byte (fun c => negb (one_of "#;[" c)) k && negb (any_byte (Ascii.eqb "=") k) && negb (any_byte (Ascii.eqb newline) k).

Lemma read_unit_setting k v : key_text k = true -> last_byte (Ascii.eqb backslash) (k +:+ String "=" v) = false ->
  read_unit_line (k +:+ String "=" v) = Some [Unit_setting k v].
Proof.
  unfold key_text. rewrite !andb_true_iff, !negb_true_iff. intros [[Hf He] _] Hl. destruct k as [|c k]; [done|].
  change (String c k +:+ ?x) with (String c (k +:+ x)) in *. unfold read_unit_line. rewrite Hl.
  cbn [first_byte] in Hf. unfold one_of in *. cbn [any_byte] in Hf |- *. apply negb_true_iff in Hf. rewrite !orb_false_iff in Hf.
  destruct Hf as (H1 & H2 & H3 & _). rewrite H1, H2. rewrite (Ascii.eqb_sym "[" c), H3. cbn [orb].
  change (String c (k +:+ String "=" v)) with (String c k +:+ String "=" v). by rewrite cut_app.
Qed.

(** ** The two units *)
Definition description (prefix : string) (spec : ScheduleSpec) : string :=
  prefix +:+ unitDescription (PlanName spec) +:+ " (" +:+ PlanID spec +:+ ")".
Definition service_unit (binary : string) (spec : ScheduleSpec) : list unit_line :=
  [Unit_section "Unit"; Unit_setting "Description" (description "Nexa Panel backup plan " spec);
   Unit_setting "After" "nexa-api.service"; Unit_section "Service"; Unit_setting "Type" "oneshot";
   Unit_setting "User" "nexa"; Unit_setting "Group" "nexa";
   Unit_setting "ExecStart" (join " " [binary; "backup"; "trigger"; "--plan"; PlanID spec; "--state"; StateDBPath spec]%string)].
Definition timer_unit (spec : ScheduleSpec) (onCalendar : string) : list unit_line :=
  [Unit_section "Unit"; Unit_setting "Description" (description "Schedule for Nexa Panel backup plan " spec);
   Unit_section "Timer"; Unit_setting "OnCalendar" onCalendar; Unit_setting "Persistent" "true";
   Unit_section "Install"; Unit_setting "WantedBy" "timers.target"].

(** Bytes without a meaning to a unit or to the line of a command. *)
Definition word_byte (c : ascii) : bool := is_alnum c || one_of "_./:@+-" c.

Definition fine_name (spec : ScheduleSpec) : Prop :=
  all_bytes word_byte (PlanID spec) = true /\ any_byte (Ascii.eqb newline) (unitDescription (PlanName spec)) = false.
Record fine_spec (binary : string) (spec : ScheduleSpec) : Prop := mk_fine_spec {
  sf_name : fine_name spec;
  sf_state : StateDBPath spec <> EmptyString /\ all_bytes word_byte (StateDBPath spec) = true;
  sf_binary : all_bytes word_byte binary = true;
}.

Lemma control_no_newline s : has_control s = false -> any_byte (Ascii.eqb newline) s = false.
Proof.
  induction s as [|c s IH]; [done|]. cbn [has_control any_byte]. rewrite !orb_false_iff. intros [[[Hc _] _] Hs].
  split; [|by apply IH]. destruct (Ascii.eqb_spec newline c) as [<-|]; [by vm_compute in Hc|done].
Qed.

Lemma safe_path_words path : safe_unit_path path = true -> path <> EmptyString /\ all_bytes word_byte path = true.
Proof.
  unfold safe_unit_path. intros [Hm _]%andb_prop. split; [by apply (matches_nonempty safeUnitPathPattern)|].
  eapply matches_bytes; [|exact Hm]. apply forall_ascii. by vm_compute.
Qed.

Lemma validated_spec spec binary onCalendar : validateScheduleSpec spec binary = Ok onCalendar ->
  fine_spec binary spec /\ ValidateSchedule (sp_Cron spec) = Ok onCalendar.
Proof.
  unfold validateScheduleSpec. intros H. case_match eqn:Hv; [|done]. split; [|done]. destruct a.
  rewrite !seq_ok, !fail_if_ok, !negb_false_iff, !orb_false_iff, andb_true_iff in Hv.
  destruct Hv as (Hid & ((Hne & _) & Hctl) & Hstate & Hbin). split; [split|..].
  - eapply matches_bytes; [|exact Hid]. apply forall_ascii. by vm_compute.
  - apply any_byte_false. unfold unitDescription. apply replace_byte_bytes; [done|].
    by apply any_byte_false, control_no_newline.
  - by apply safe_path_words.
  - by apply safe_path_words.
Qed.

Lemma word_no_newline s : all_bytes word_byte s = true -> any_byte (Ascii.eqb newline) s = false.
Proof. intros H. apply any_byte_false. eapply all_bytes_impl; [|exact H]. apply forall_ascii. by vm_compute. Qed.

Lemma last_of p s t : p backslash = false -> s <> EmptyString -> all_bytes p s = true ->
  last_byte (Ascii.eqb backslash) (t +:+ s) = false.
Proof.
  intros Hp Hne Hs. destruct (last_byte_split s Hne) as (a & c & ->). rewrite <-str_app_assoc, last_byte_app.
  rewrite all_bytes_app in Hs. apply andb_prop in Hs as [_ Hc]. simpl in Hc. rewrite andb_true_r in Hc.
  destruct (Ascii.eqb_spec backslash c) as [<-|]; [congruence|done].
Qed.

(** ** The bytes of an accepted schedule *)
Definition number_byte (c : ascii) : bool := is_digit c || one_of "+-" c.
Definition schedule_byte (c : ascii) : bool := is_alnum c || one_of "+-*/.,: " c.

Lemma atoi_bytes s z : atoi s = Some z -> all_bytes number_byte s = true.
Proof.
  assert (Hd : forall t v, parse_digits t = Some v -> all_bytes number_byte t = true).
  { intros t v [_ Ht]%parse_digits_digits. eapply all_bytes_impl; [|exact Ht]. intros c Hc. unfold number_byte. by rewrite Hc. }
  destruct s as [|c s]; [done|]. unfold atoi. destruct (Ascii.eqb_spec c "-") as [->|_].
  - destruct (parse_digits s) eqn:Hs; [|done]. intros _. by apply Hd in Hs.
  - destruct (Ascii.eqb_spec c "+") as [->|_].
    + destruct (parse_digits s) eqn:Hs; [|done]. intros _. by apply Hd in Hs.
    + destruct (parse_digits (String c s)) eqn:Hs; [|done]. intros _. by apply Hd in Hs.
Qed.

Definition item_byte (c : ascii) : bool := number_byte c || one_of "*/" c.
Lemma number_item s : all_bytes number_byte s = true -> all_bytes item_byte s = true.
Proof. apply all_bytes_impl. intros c Hc. unfold item_byte. by rewrite Hc. Qed.

Lemma base_bytes b lo hi : validate_base b lo hi = Ok tt -> all_bytes item_byte b = true.
Proof.
  unfold validate_base. destruct (String.eqb_spec b "*") as [->|_]; [done|]. intros [_ H]%seq_ok.
  destruct (cut "-" b) as [[s t]|] eqn:Hcut.
  - apply cut_Some in Hcut as [-> _]. unfold parseCronNumber in H.
    destruct (atoi s) eqn:Hs; [|done]. destruct (atoi t) eqn:Ht; [|by destruct (_ || _)].
    rewrite all_bytes_app. change (all_bytes item_byte (String "-" t)) with (all_bytes item_byte t).
    apply andb_true_iff. split; by eapply number_item, atoi_bytes.
  - unfold parseCronNumber in H. destruct (atoi b) eqn:Hb; [|done]. by eapply number_item, atoi_bytes.
Qed.

Lemma item_bytes lo hi steps item : validate_item lo hi steps item = Ok tt -> all_bytes item_byte item = true.
Proof.
  unfold validate_item. rewrite !seq_ok, !fail_if_ok. intros (_ & _ & H).
  destruct (cut "/" item) as [[b n]|] eqn:Hcut; [|by eapply base_bytes].
  apply cut_Some in Hcut as [-> _]. rewrite !seq_ok, !fail_if_ok in H. destruct H as (_ & Hn & H).
  rewrite all_bytes_app. change (all_bytes item_byte (String "/" n)) with (all_bytes item_byte n).
  apply andb_true_iff. split; [by eapply base_bytes|]. destruct (atoi n) eqn:Ha; [|done]. by eapply number_item, atoi_bytes.
Qed.

Lemma item_schedule s : all_bytes item_byte s = true -> all_bytes schedule_byte s = true.
Proof. apply all_bytes_impl, forall_ascii. by vm_compute. Qed.

Lemma converted_bytes lo hi f : (lo = 0 \/ lo = 1) -> validateCronField f lo hi true = Ok tt ->
  all_bytes schedule_byte (convertNumericField f lo) = true.
Proof.
  intros Hlo Hv. unfold convertNumericField. destruct (String.eqb f "*"); [done|].
  unfold validateCronField in Hv. rewrite seq_ok, validate_items_ok in Hv. destruct Hv as [_ Hv].
  apply join_words; [done|]. apply Forall_fmap. eapply Forall_impl; [exact Hv|]. intros item Hi%item_bytes%item_schedule.
  unfold compose, convert_item. destruct (strip_prefix "*/" item) as [n|] eqn:Hn.
  - apply strip_prefix_Some in Hn as ->. rewrite !all_bytes_app in *. apply andb_prop in Hi as [_ Hi]. rewrite Hi.
    by destruct Hlo as [-> | ->].
  - by apply replace_byte_bytes.
Qed.

Lemma weekday_name_bytes token name : weekdayName token = Ok name -> all_bytes schedule_byte name = true.
Proof.
  unfold weekdayName. destruct (atoi token) as [v|]; [|done]. destruct (_ || _); [done|]. intros H.
  assert (Hall : Forall (fun n => all_bytes schedule_byte n = true) weekdayNames) by (repeat constructor).
  destruct (weekdayNames !! _) as [n|] eqn:Hn; [|done]. injection H as <-. exact (Forall_lookup_1 _ _ _ _ Hall Hn).
Qed.

Lemma weekday_bytes w text : convertWeekdayField w = Ok text -> all_bytes schedule_byte text = true.
Proof.
  unfold convertWeekdayField. generalize (split "," w). intros l.
  assert (H : forall xs, convert_weekday_items l = Ok xs -> Forall (fun t => all_bytes schedule_byte t = true) xs).
  { induction l as [|part l IH]; intros xs; [intros [= <-]; constructor|]. cbn [convert_weekday_items]. unfold mbind, result_bind.
    destruct (convert_weekdays part) as [x|] eqn:Hx; [|done]. destruct (convert_weekday_items l) as [ys|]; [|done].
    intros [= <-]. constructor; [|by apply IH]. unfold convert_weekdays in Hx. destruct (cut "-" part) as [[a b]|].
    - unfold mbind, result_bind in Hx. destruct (weekdayName a) as [n1|] eqn:H1; [|done]. destruct (weekdayName b) as [n2|] eqn:H2; [|done].
      assert (x = n1 +:+ ".." +:+ n2) as -> by congruence. rewrite !all_bytes_app. by rewrite (weekday_name_bytes a n1), (weekday_name_bytes b n2).
    - by eapply weekday_name_bytes. }
  destruct (convert_weekday_items l) as [xs|]; [|done]. intros Ht. assert (text = join "," xs) as -> by (cbv [mbind result_bind] in Ht; congruence).
  apply join_words; [done|]. by apply H.
Qed.

Lemma schedule_bytes expression text : ValidateSchedule expression = Ok text -> all_bytes schedule_byte text = true.
Proof.
  unfold ValidateSchedule. destruct (fields _) as [|mi [|h [|d [|mo [|w [|? ?]]]]]]; try done.
  destruct (validate_fields mi h d mo w) as [[]|] eqn:Hok; [|done]. unfold validate_fields in Hok.
  rewrite !seq_ok, !in_field_ok in Hok. destruct Hok as (Vmi & Vh & Vd & Vmo & _).
  apply converted_bytes in Vmi; [|by left]. apply converted_bytes in Vh; [|by left].
  apply converted_bytes in Vd; [|by right]. apply converted_bytes in Vmo; [|by right]. cbv zeta.
  assert (Hdc : all_bytes schedule_byte (("*-" +:+ convertNumericField mo 1 +:+ "-" +:+ convertNumericField d 1) +:+ " " +:+
    convertNumericField h 0 +:+ ":" +:+ convertNumericField mi 0 +:+ ":00") = true) by (by rewrite !all_bytes_app, Vmi, Vh, Vd, Vmo).
  revert Hdc. generalize ("*-" +:+ convertNumericField mo 1 +:+ "-" +:+ convertNumericField d 1). intros date.
  generalize (convertNumericField h 0 +:+ ":" +:+ convertNumericField mi 0 +:+ ":00"). intros clock Hdc.
  destruct (String.eqb w "*"); [by intros [= <-]|]. destruct (convertWeekdayField w) as [names|] eqn:Hw; [|done].
  apply weekday_bytes in Hw. cbv [mbind result_bind]. intros Ht. assert (text = names +:+ " " +:+ date +:+ " " +:+ clock) as -> by congruence.
  rewrite (all_bytes_app _ names), Hw. exact Hdc.
Qed.

(** ** The lines of a unit *)
Lemma read_description k prefix spec : fine_name spec -> k = "Description"%string ->
  any_byte (Ascii.eqb newline) prefix = false ->
  any_byte (Ascii.eqb newline) (k +:+ String "=" (description prefix spec)) = false /\
  read_unit_line (k +:+ String "=" (description prefix spec)) = Some [Unit_setting k (description prefix spec)].
Proof.
  intros [Hid Hname] -> Hp. pose proof (word_no_newline _ Hid) as Hn. split.
  - unfold description. rewrite any_byte_app. cbn [any_byte]. by rewrite !any_byte_app, Hp, Hname, Hn.
  - apply read_unit_setting; [done|]. unfold description.
    change ("Description" +:+ String "=" ?x) with ("Description=" +:+ x). rewrite <-!str_app_assoc. by apply last_byte_app.
Qed.

(** A setting whose value is one non-empty word, after some text. *)
Lemma read_word_setting k v w : key_text k = true -> w <> EmptyString -> all_bytes word_byte w = true ->
  any_byte (Ascii.eqb newline) v = false ->
  any_byte (Ascii.eqb newline) (k +:+ String "=" (v +:+ w)) = false /\
  read_unit_line (k +:+ String "=" (v +:+ w)) = Some [Unit_setting k (v +:+ w)].
Proof.
  intros Hk Hne Hw Hv. split.
  - unfold key_text in Hk. rewrite !andb_true_iff, !negb_true_iff in Hk. destruct Hk as [_ Hk].
    rewrite any_byte_app, Hk. cbn [any_byte orb]. by rewrite any_byte_app, Hv, (word_no_newline w).
  - apply read_unit_setting; [done|]. change (k +:+ String "=" (v +:+ w)) with (k +:+ ("=" +:+ v) +:+ w).
    rewrite <-!str_app_assoc. by apply (last_of word_byte).
Qed.

Lemma schedule_no_newline s : all_bytes schedule_byte s = true -> any_byte (Ascii.eqb newline) s = false.
Proof. intros H. apply any_byte_false. eapply all_bytes_impl; [|exact H]. apply forall_ascii. by vm_compute. Qed.

Lemma schedule_nonempty expression text : ValidateSchedule expression = Ok text -> text <> EmptyString.
Proof.
  unfold ValidateSchedule. destruct (fields _) as [|mi [|h [|d [|mo [|w [|? ?]]]]]]; try done.
  destruct (validate_fields mi h d mo w) as [[]|]; [|done]. cbv zeta. destruct (String.eqb w "*"); [intros [= <-]; done|].
  destruct (convertWeekdayField w) as [names|]; [|done]. cbv [mbind result_bind]. intros H ->.
  by destruct names.
Qed.

Ltac fixed_line := apply Forall2_cons_2; [split; reflexivity|].
Ltac described prefix spec Hn :=
  apply Forall2_cons_2; [exact (read_description "Description" prefix spec Hn eq_refl eq_refl)|].

(** The units of a plan say what they are meant to say.  For a specification that
    passes its checks the service unit reads back as one oneshot service of the nexa
    account that runs the trigger of this plan, word for word, and the timer unit as a
    timer with the calendar expression of the plan's schedule; the plan's name, which
    is free text, adds nothing to either. *)
Theorem backup_units_read_back binary spec onCalendar :
  validateScheduleSpec spec binary = Ok onCalendar ->
  read_unit (renderService binary spec) = Some (service_unit binary spec) /\
  read_unit (renderTimer spec onCalendar) = Some (timer_unit spec onCalendar).
Proof.
  intros [[Hn [Hsne Hstate] Hbin] Hcal]%validated_spec. split.
  - unfold renderService. rewrite (read_unit_lines _ [[Unit_section "Unit"]; [Unit_setting "Description" (description "Nexa Panel backup plan " spec)];
      [Unit_setting "After" "nexa-api.service"]; []; [Unit_section "Service"]; [Unit_setting "Type" "oneshot"];
      [Unit_setting "User" "nexa"]; [Unit_setting "Group" "nexa"];
      [Unit_setting "ExecStart" ((binary +:+ " backup trigger --plan " +:+ PlanID spec +:+ " --state ") +:+ StateDBPath spec)]]).
    + unfold service_unit. cbn [concat app]. do 9 f_equal. by rewrite !str_app_assoc.
    + fixed_line. described "Nexa Panel backup plan "%string spec Hn. do 6 fixed_line. apply Forall2_cons_2; [|constructor].
      change ("ExecStart=" +:+ ?x) with ("ExecStart" +:+ String "=" x). rewrite <-!str_app_assoc.
      apply read_word_setting; [done..|]. destruct Hn as [Hid _].
      by rewrite !any_byte_app, (word_no_newline binary), (word_no_newline (PlanID spec)).
  - unfold renderTimer. rewrite (read_unit_lines _ [[Unit_section "Unit"]; [Unit_setting "Description" (description "Schedule for Nexa Panel backup plan " spec)];
      []; [Unit_section "Timer"]; [Unit_setting "OnCalendar" onCalendar]; [Unit_setting "Persistent" "true"]; [];
      [Unit_section "Install"]; [Unit_setting "WantedBy" "timers.target"]]); [done|].
    pose proof (schedule_bytes _ _ Hcal) as Hb.
    fixed_line. described "Schedule for Nexa Panel backup plan "%string spec Hn. do 2 fixed_line.
    apply Forall2_cons_2; [|do 4 fixed_line; constructor].
    split; [rewrite any_byte_app; by rewrite (schedule_no_newline onCalendar Hb)|].
    apply (read_unit_setting "OnCalendar" onCalendar); [done|]. apply (last_of schedule_byte onCalendar "OnCalendar="); [done|by eapply schedule_nonempty|done].
Qed.

Lemma backup_units_read_back_witness :
  let spec := mk_schedule_spec "plan-7" " 100% nightly; [x] " "15 3 * * 1-5" "/var/lib/nexa-panel/control.db" in
  read_unit (renderService "/usr/bin/nexa" spec) = Some (service_unit "/usr/bin/nexa" spec) /\
  read_unit (renderTimer spec "Mon..Fri *-*-* 3:15:00") = Some (timer_unit spec "Mon..Fri *-*-* 3:15:00").
Proof. apply backup_units_read_back. by vm_compute. Defined.
