(* ===== verification/BackupRun.v ===== *)
(** * Backup copies: requests and runs

    [internal/platform/operators/backups]: the checks of a request (validation.go), the
    account as an rclone remote (support.go), a run of a plan and of the panel's own
    state, retention and the removal of a copy (run.go, system.go, restore.go).  Every
    program and file the run uses is a call; what it answers is any function of the calls
    before it. *)

From Stdlib Require Import Ascii.
From S2P Require Import Prelude GoStrings Paths Regex Naming Sites.

Local Open Scope Z_scope.

(** ** Data *)
Record SiteTarget := mk_site_target { st_Slug : string; RootPath : string; st_UnixUser : string }.
Record DatabaseTarget := mk_database_target { Engine : string; db_Name : string; Version : string; Port : Z; Socket : string }.
(** [Params] in the order in which the map is walked. *)
Record Account := mk_account { acc_Name : string; acc_Type : string; acc_Path : string; Params : list (string * string) }.
Record RunRequest := mk_run_request {
  rr_Account : Account;
  rr_PlanID : string;
  rr_CopyName : string;
  rr_Limit : Z;
  rr_Sites : list SiteTarget;
  rr_Databases : list DatabaseTarget;
  rr_StagingRoot : string;
}.
Record SystemRunRequest := mk_system_request {
  sr_Account : Account;
  sr_CopyName : string;
  sr_Limit : Z;
  sr_StagingRoot : string;
}.
Record DeleteRequest := mk_delete_request { dr_Account : Account; dr_PlanID : string; dr_CopyName : string }.
Record SiteRestoreTarget := mk_site_restore { s_Entry : string; s_SHA256 : string; s_Target : SiteTarget; s_Clear : bool }.
Record DatabaseRestoreTarget := mk_database_restore { d_Entry : string; d_SHA256 : string; d_Target : DatabaseTarget; d_Clear : bool }.
Record RestoreRequest := mk_restore_request {
  re_Account : Account;
  re_PlanID : string;
  re_CopyName : string;
  re_Sites : list SiteRestoreTarget;
  re_Databases : list DatabaseRestoreTarget;
  re_StagingRoot : string;
}.
Record CopyEntry := mk_entry { e_Name : string; SizeBytes : Z; SHA256 : string }.
Record Manifest := mk_manifest {
  m_CopyName : string;
  RemotePath : string;
  m_SizeBytes : Z;
  Entries : list CopyEntry;
  IntegrityChecked : bool;
  Pruned : list string;
}.

(** ** Checks *)
Definition maxRetentionCopies : Z := 1000.
Definition maxBackupTargets : Z := 128.

Definition underscore_or (p : ascii -> bool) (c : ascii) : bool := p c || Ascii.eqb "_" c.
Definition backupTokenPattern : regex :=
  Cat (Class is_alnum) (Upto (Class (underscore_or (fun c => is_alnum c || Ascii.eqb "-" c))) 127).
Definition databaseNamePattern : regex :=
  Cat (Class (underscore_or is_alpha)) (Upto (Class (underscore_or (fun c => is_alnum c || Ascii.eqb "$" c))) 63).
Definition postgresVersionPattern : regex := between 1 2 (Class is_digit).
Definition sha256Pattern : regex := between 64 64 (Class is_hex).

Definition validateBackupToken (label value : string) : error :=
  fail_if (negb (matches backupTokenPattern value)) ("backup " +:+ label +:+ " is invalid").

Definition validateSiteTarget (site : SiteTarget) (siteRoot : string) : error :=
  fail_if (negb (ValidSiteSlug (st_Slug site))) "slug is not a managed site slug" ;;;
  fail_if (negb (String.eqb (RootPath site) (filepath_join [siteRoot; st_Slug site]))) "root path does not match the managed site layout" ;;;
  fail_if (negb (String.eqb (st_UnixUser site) (SiteUnixUser (st_Slug site)))) "unix user does not match the managed site layout".

(** [filepath.Rel] of two clean absolute paths. *)
Definition components (p : string) : list string := filter (fun c => c <> EmptyString) (split slash p).
Fixpoint rel_components (base target : list string) : list string :=
  match base, target with
  | b :: base', t :: target' =>
      if String.eqb b t then rel_components base' target' else ((fun _ => "..") <$> base)%string ++ target
  | _, _ => ((fun _ => "..") <$> base)%string ++ target
  end.
Definition filepath_rel (base target : string) : string :=
  match rel_components (components base) (components target) with [] => "."%string | l => join "/" l end.
Definition pathWithinRuntime (candidate : string) (roots : list string) : bool :=
  has_prefix "/" candidate && String.eqb (path_clean candidate) candidate &&
  existsb (fun root =>
    let relative := filepath_rel root candidate in
    negb (String.eqb relative "..") && negb (has_prefix "../" relative)) roots.

Definition mysql_family (engine : string) : bool := String.eqb engine "mysql" || String.eqb engine "mariadb".
Definition validateDatabaseTarget (database : DatabaseTarget) : error :=
  fail_if (negb (matches databaseNamePattern (db_Name database))) "database name is invalid" ;;;
  if String.eqb (Engine database) "postgres" then
    fail_if (negb (matches postgresVersionPattern (Version database))) "PostgreSQL version is invalid" ;;;
    fail_if ((Port database <? 1) || (65535 <? Port database)) "PostgreSQL port is invalid" ;;;
    fail_if (negb (pathWithinRuntime (Socket database) ["/run/postgresql"; "/var/run/postgresql"]%string))
      "PostgreSQL socket path is outside the managed runtime directory"
  else if mysql_family (Engine database) then
    fail_if (negb (pathWithinRuntime (Socket database) ["/run/mysqld"; "/var/run/mysqld"]%string))
      "MySQL-family socket path is outside the managed runtime directory"
  else Err "database engine is unsupported"%string.

Definition site_entry (site : SiteTarget) : string := "site-" +:+ st_Slug site +:+ ".tar.gz".
Definition databaseBackupEntry (database : DatabaseTarget) : string :=
  if String.eqb (Engine database) "postgres" then "db-postgres-" +:+ db_Name database +:+ ".dump"
  else "db-" +:+ Engine database +:+ "-" +:+ db_Name database +:+ ".sql".

Definition wrap (prefix : string) (e : error) : error := match e with Err m => Err (prefix +:+ m) | Ok u => Ok u end.
Definition numbered (label : string) (index : Z) (rest : string) : string := label +:+ " " +:+ itoa index +:+ rest.
Definition duplicate (label : string) (index : Z) (entry : string) : string := numbered label index (" duplicates backup entry " +:+ entry).

(** The two loops of [validateRunRequest]; [seen] is the map of entries. *)
Fixpoint run_sites (siteRoot : string) (index : Z) (seen : gset string) (sites : list SiteTarget) : result string (gset string) :=
  match sites with
  | [] => Ok seen
  | site :: rest =>
      match wrap (numbered "site target" index ": ") (validateSiteTarget site siteRoot) with
      | Err e => Err e
      | Ok _ =>
          if bool_decide (site_entry site ∈ seen) then Err (duplicate "site target" index (site_entry site))
          else run_sites siteRoot (index + 1) ({[site_entry site]} ∪ seen) rest
      end
  end.
Fixpoint run_databases (index : Z) (seen : gset string) (databases : list DatabaseTarget) : error :=
  match databases with
  | [] => Ok tt
  | database :: rest =>
      wrap (numbered "database target" index ": ") (validateDatabaseTarget database) ;;;
      if bool_decide (databaseBackupEntry database ∈ seen) then Err (duplicate "database target" index (databaseBackupEntry database))
      else run_databases (index + 1) ({[databaseBackupEntry database]} ∪ seen) rest
  end.

Definition staging_supplied : string := "backup staging root is agent-owned and must not be supplied".
Definition limit_invalid : string := "backup retention limit must be between 0 and " +:+ itoa maxRetentionCopies.
Definition count {A} (l : list A) : Z := Z.of_nat (length l).
Definition validateRunRequest (request : RunRequest) (siteRoot : string) : error :=
  fail_if (negb (String.eqb (rr_StagingRoot request) EmptyString)) staging_supplied ;;;
  validateBackupToken "plan ID" (rr_PlanID request) ;;;
  validateBackupToken "copy name" (rr_CopyName request) ;;;
  fail_if ((rr_Limit request <? 0) || (maxRetentionCopies <? rr_Limit request)) limit_invalid ;;;
  fail_if ((count (rr_Sites request) =? 0) && (count (rr_Databases request) =? 0)) "backup request must select at least one target" ;;;
  fail_if (maxBackupTargets <? count (rr_Sites request) + count (rr_Databases request))
    ("backup request exceeds the " +:+ itoa maxBackupTargets +:+ "-target limit") ;;;
  match run_sites siteRoot 0 ∅ (rr_Sites request) with
  | Err e => Err e
  | Ok seen => run_databases 0 seen (rr_Databases request)
  end.

Definition ValidateSystemRunRequest (request : SystemRunRequest) : error :=
  fail_if (negb (String.eqb (sr_StagingRoot request) EmptyString)) staging_supplied ;;;
  validateBackupToken "copy name" (sr_CopyName request) ;;;
  fail_if ((sr_Limit request <? 0) || (maxRetentionCopies <? sr_Limit request)) limit_invalid.

Definition ValidateDeleteRequest (request : DeleteRequest) : error :=
  validateBackupToken "plan ID" (dr_PlanID request) ;;; validateBackupToken "copy name" (dr_CopyName request).

(** [safeEntry] *)
Definition path_special (c : ascii) : bool := Ascii.eqb "/" c || Ascii.eqb "\" c.
Definition safeEntry (staging entry : string) : result string string :=
  if String.eqb entry EmptyString || any_byte path_special entry || String.eqb entry ".." then Err ("invalid copy entry " +:+ entry)
  else Ok (filepath_join [staging; entry]).

(** The two loops of [validateRestoreRequest]; [seen] and [taken] are the maps of the
    entries and of the destinations. *)
Definition checksum_invalid (checksum : string) : bool :=
  negb (String.eqb checksum EmptyString) && negb (matches sha256Pattern checksum).
Definition restore_site_error (index : Z) (seen taken : gset string) (siteRoot : string) (site : SiteRestoreTarget) : error :=
  match safeEntry "." (s_Entry site) with Err e => Err (numbered "site restore target" index (": " +:+ e)) | Ok _ => Ok tt end ;;;
  fail_if (negb (has_prefix "site-" (s_Entry site)) || negb (has_suffix ".tar.gz" (s_Entry site)))
    (numbered "site restore target" index " does not reference a site archive") ;;;
  wrap (numbered "site restore target" index " is not a managed site: ") (validateSiteTarget (s_Target site) siteRoot) ;;;
  fail_if (checksum_invalid (s_SHA256 site)) (numbered "site restore target" index " has an invalid SHA-256") ;;;
  fail_if (bool_decide (s_Entry site ∈ seen)) ("restore entry " +:+ s_Entry site +:+ " is selected more than once") ;;;
  fail_if (bool_decide (RootPath (s_Target site) ∈ taken))
    ("site restore destination " +:+ RootPath (s_Target site) +:+ " is selected more than once").
Definition database_destination (t : DatabaseTarget) : string := Engine t +:+ ":" +:+ Socket t +:+ ":" +:+ db_Name t.
Definition restore_database_error (index : Z) (seen taken : gset string) (database : DatabaseRestoreTarget) : error :=
  match safeEntry "." (d_Entry database) with Err e => Err (numbered "database restore target" index (": " +:+ e)) | Ok _ => Ok tt end ;;;
  fail_if (negb (has_prefix "db-" (d_Entry database))) (numbered "database restore target" index " does not reference a database dump") ;;;
  wrap (numbered "database restore target" index ": ") (validateDatabaseTarget (d_Target database)) ;;;
  fail_if (checksum_invalid (d_SHA256 database)) (numbered "database restore target" index " has an invalid SHA-256") ;;;
  fail_if (bool_decide (d_Entry database ∈ seen)) ("restore entry " +:+ d_Entry database +:+ " is selected more than once") ;;;
  fail_if (bool_decide (database_destination (d_Target database) ∈ taken))
    ("database restore destination " +:+ db_Name (d_Target database) +:+ " is selected more than once").

Fixpoint restore_sites (siteRoot : string) (index : Z) (seen taken : gset string) (sites : list SiteRestoreTarget) : result string (gset string * gset string) :=
  match sites with
  | [] => Ok (seen, taken)
  | site :: rest =>
      match restore_site_error index seen taken siteRoot site with
      | Err e => Err e
      | Ok _ => restore_sites siteRoot (index + 1) ({[s_Entry site]} ∪ seen) ({[RootPath (s_Target site)]} ∪ taken) rest
      end
  end.
Fixpoint restore_databases (index : Z) (seen taken : gset string) (databases : list DatabaseRestoreTarget) : error :=
  match databases with
  | [] => Ok tt
  | database :: rest =>
      restore_database_error index seen taken database ;;;
      restore_databases (index + 1) ({[d_Entry database]} ∪ seen) ({[database_destination (d_Target database)]} ∪ taken) rest
  end.
Definition validateRestoreRequest (request : RestoreRequest) (siteRoot : string) : error :=
  fail_if (negb (String.eqb (re_StagingRoot request) EmptyString)) staging_supplied ;;;
  validateBackupToken "plan ID" (re_PlanID request) ;;;
  validateBackupToken "copy name" (re_CopyName request) ;;;
  fail_if ((count (re_Sites request) =? 0) && (count (re_Databases request) =? 0)) "restore request must select at least one target" ;;;
  fail_if (maxBackupTargets <? count (re_Sites request) + count (re_Databases request))
    ("restore request exceeds the " +:+ itoa maxBackupTargets +:+ "-target limit") ;;;
  match restore_sites siteRoot 0 ∅ ∅ (re_Sites request) with
  | Err e => Err e
  | Ok (seen, taken) => restore_databases 0 seen taken (re_Databases request)
  end.

(** ** The account as a remote *)
Definition remoteName : string := "nexa".
Section remote.
(** [strings.ToUpper] *)
Context (to_upper : string -> string).

Definition config_variable (key value : string) : string := "RCLONE_CONFIG_NEXA_" +:+ key +:+ "=" +:+ value.
Definition account_env (backend : string) (params : list (string * string)) : list string :=
  config_variable "TYPE" backend ::
  omap (fun p => let key := trim_space p.1 in
                 if String.eqb key EmptyString then None else Some (config_variable (to_upper key) p.2)) params.
Definition remote_base (account : Account) : result string string :=
  let target := trim_space (acc_Path account) in
  if String.eqb (trim_space (acc_Type account)) EmptyString then Err "backup account type is required"%string
  else if String.eqb (trim_space (acc_Type account)) "local" then
    if negb (has_prefix "/" target) then Err "local backup path must be absolute"%string
    else Ok ("nexa:" +:+ path_clean target)
  else Ok ("nexa:" +:+ trim_prefix "/" (path_clean ("/" +:+ target))).
Definition rcloneRemote (account : Account) : result string (string * list string) :=
  match remote_base account with
  | Err e => Err e
  | Ok reference => Ok (reference, account_env (trim_space (acc_Type account)) (Params account))
  end.
End remote.

Definition joinRemote (base segment : string) : string := base +:+ "/" +:+ trim_prefix "/" (path_clean ("/" +:+ segment)).

(** [sanitize] *)
Definition sanitize (message : string) : string := take_bytes 300 (replace_byte newline " " (trim_space message)).

(** ** Calls *)
Inductive call :=
| Exec (name : string) (args env : list string)
| ExecToFile (name : string) (args env : list string) (out : string)
| Sys (operation path : string).
Notation history := (list (call * result string string)).

Definition M (A : Type) : Type := history -> result string A * history.
#[export] Instance run_ret : MRet M := fun A a h => (Ok a, h).
#[export] Instance run_bind : MBind M := fun A B k m h =>
  match m h with (Ok a, h) => k a h | (Err e, h) => (Err e, h) end.
Definition fail {A} (e : string) : M A := fun h => (Err e, h).
Definition attempt {A} (m : M A) : M (result string A) := fun h => match m h with (r, h) => (Ok r, h) end.
Definition lift {A} (r : result string A) : M A := fun h => (r, h).
(** [fmt.Errorf("text: %w", err)] *)
Definition wrapping {A} (text : string) (m : M A) : M A := fun h =>
  match m h with (Err e, h) => (Err (text +:+ ": " +:+ e), h) | r => r end.
(** [defer f()] *)
Definition deferring {A} (f : M unit) (m : M A) : M A := r ← attempt m; _ ← attempt f; lift r.

Record HostOperator := mk_operator { binary : string; stagingRoot : string; siteRoot : string; stateDBPath : string; masterKeyPath : string }.
Definition defaultStagingRoot : string := "/var/lib/nexa-panel/backups/staging".
Definition defaultSiteRoot : string := "/srv/nexa/sites".
Definition defaultStateDBPath : string := "/var/lib/nexa-panel/control.db".
Definition defaultMasterKeyPath : string := "/var/lib/nexa-panel/master.key".

Section operator.
Context (to_upper : string -> string).
(** What a program or a system call answers, and what [artifactMetadata] finds. *)
Context (answer : history -> call -> result string string).
Context (inspect : history -> string -> result string (Z * string)).
Context (h : HostOperator).

Definition perform (c : call) : M string := fun history =>
  (answer history c, history ++ [(c, answer history c)]).
Definition sys (operation path : string) : M unit := _ ← perform (Sys operation path); mret tt.
Definition exec (name : string) (args env : list string) : M string := perform (Exec name args env).
Definition artifactMetadata (path : string) : M (Z * string) := fun history =>
  (inspect history path, history ++ [(Sys "Inspect" path, match inspect history path with Ok (_, sum) => Ok sum | Err e => Err e end)]).

Definition site_root : string := or_default (siteRoot h) defaultSiteRoot.
Definition staging_root : string := or_default (stagingRoot h) defaultStagingRoot.

Definition TestAccount (account : Account) : M (bool * string) :=
  remote ← lift (rcloneRemote to_upper account);
  r ← attempt (_ ← exec (binary h) ["mkdir"%string; remote.1] remote.2; exec (binary h) ["lsd"%string; remote.1] remote.2);
  mret (match r with Ok _ => (true, "Connection succeeded."%string) | Err e => (false, sanitize e) end).

(** *** What a copy holds *)
Definition archive_site (staging : string) (site : SiteTarget) : M CopyEntry :=
  let name := site_entry site in
  let out := filepath_join [staging; name] in
  _ ← wrapping ("archive site " +:+ st_Slug site) (exec "tar" ["-czf"; out; "-C"; RootPath site; "."]%string []);
  metadata ← wrapping ("inspect site archive " +:+ st_Slug site) (artifactMetadata out);
  mret (mk_entry name metadata.1 metadata.2).

Definition dumpDatabase (staging : string) (database : DatabaseTarget) : M string :=
  let name := databaseBackupEntry database in
  let out := filepath_join [staging; name] in
  if String.eqb (Engine database) "postgres" then
    let program := filepath_join ["/usr/lib/postgresql"; Version database; "bin"; "pg_dump"]%string in
    _ ← wrapping ("dump PostgreSQL database " +:+ db_Name database)
          (exec "runuser" (["-u"; "postgres"; "--"; program; "--host"; Socket database; "--port"; itoa (Port database);
             "--username"; "postgres"; "--format"; "custom"; "--no-owner"; "--no-privileges"; "--file"; out; db_Name database]%string) []);
    mret name
  else if mysql_family (Engine database) then
    let mysql := String.eqb (Engine database) "mysql" in
    _ ← wrapping ("dump " +:+ Engine database +:+ " database " +:+ db_Name database)
          (perform (ExecToFile (if mysql then "mysqldump" else "mariadb-dump")
            (["--protocol=socket"; "--socket=" +:+ Socket database; "--user=root"; "--single-transaction";
              "--routines"; "--events"; "--triggers"; "--hex-blob"; "--default-character-set=utf8mb4"]%string ++
             (if mysql then ["--set-gtid-purged=OFF"%string] else []) ++ ["--databases"%string; db_Name database])
            ["MYSQL_HISTFILE=/dev/null"%string] out));
    mret name
  else fail ("unsupported database engine " +:+ Engine database).

Definition dump_entry (staging : string) (database : DatabaseTarget) : M CopyEntry :=
  name ← dumpDatabase staging database;
  metadata ← wrapping ("inspect database dump " +:+ db_Name database) (artifactMetadata (filepath_join [staging; name]));
  mret (mk_entry name metadata.1 metadata.2).

Fixpoint each {A B} (f : A -> M B) (l : list A) : M (list B) :=
  match l with
  | [] => mret []
  | a :: rest => b ← f a; bs ← each f rest; mret (b :: bs)
  end.
Definition assemble (staging : string) (request : RunRequest) : M (list CopyEntry) :=
  sites ← each (archive_site staging) (rr_Sites request);
  databases ← each (dump_entry staging) (rr_Databases request);
  mret (sites ++ databases).

(** *** Retention *)
(** [strings.TrimRight(s, "/")] *)
Fixpoint trim_right_slashes (s : string) : string :=
  match s with
  | EmptyString => EmptyString
  | String c t =>
      match trim_right_slashes t with
      | EmptyString => if Ascii.eqb "/" c then EmptyString else String c EmptyString
      | t' => String c t'
      end
  end.
Definition listed_names (output : string) : list string :=
  filter (fun name => name <> EmptyString)
    ((fun line => trim_right_slashes (trim_space line)) <$> split newline output).
Definition newest_first (names : list string) : list string := rev (sort_strings names).
Definition expired (limit : Z) (keepName : string) (names : list string) : list string :=
  filter (fun name => name <> keepName) (drop (Z.to_nat limit) (newest_first names)).
Definition purge (env : list string) (dir : string) : M string := exec (binary h) ["purge"%string; dir] env.
Fixpoint purge_each (planDir : string) (env : list string) (names : list string) : M (list string) :=
  match names with
  | [] => mret []
  | name :: rest =>
      r ← attempt (purge env (joinRemote planDir name));
      pruned ← purge_each planDir env rest;
      mret (match r with Ok _ => name :: pruned | Err _ => pruned end)
  end.
Definition prune (planDir keepName : string) (limit : Z) (env : list string) : M (list string) :=
  if limit <? 1 then mret []
  else
    r ← attempt (exec (binary h) ["lsf"; "--dirs-only"; planDir]%string env);
    match r with
    | Err _ => mret []
    | Ok output => purge_each planDir env (expired limit keepName (listed_names output))
    end.

(** *** A run *)
(** The upload, its check and the retention of [Run] and [RunSystem]. *)
Definition ship (what staging planDir copyName : string) (limit : Z) (env : list string) : M (list string) :=
  let copyDir := joinRemote planDir copyName in
  _ ← wrapping ("upload " +:+ what) (exec (binary h) ["copy"%string; staging; copyDir] env);
  checked ← attempt (exec (binary h) ["check"%string; staging; copyDir; "--download"%string] env);
  match checked with
  | Err e => _ ← attempt (purge env copyDir); fail ("verify uploaded " +:+ what +:+ ": " +:+ e)
  | Ok _ => prune planDir copyName limit env
  end.

Definition total_size (entries : list CopyEntry) : Z := fold_left (fun total entry => wrap64 (total + SizeBytes entry)) entries 0.
Definition path_dir (p : string) : string :=
  path_clean (match removelast (split slash p) with [] => EmptyString | l => join "/" l +:+ "/" end).
Definition prepare_staging (staging : string) : M unit :=
  wrapping "prepare staging directory" (_ ← sys "MkdirAll" (path_dir staging); sys "Mkdir" staging).

Definition Run (request : RunRequest) : M Manifest :=
  _ ← lift (validateRunRequest request site_root);
  remote ← lift (rcloneRemote to_upper (rr_Account request));
  let staging := filepath_join [staging_root; rr_PlanID request; rr_CopyName request] in
  _ ← prepare_staging staging;
  deferring (sys "RemoveAll" staging)
    (entries ← assemble staging request;
     if count entries =? 0 then fail "the plan selected nothing to back up"
     else
       let planDir := joinRemote remote.1 (rr_PlanID request) in
       pruned ← ship "backup copy" staging planDir (rr_CopyName request) (rr_Limit request) remote.2;
       mret (mk_manifest (rr_CopyName request) (trim_prefix (remoteName +:+ ":") (joinRemote planDir (rr_CopyName request)))
               (total_size entries) entries true pruned)).

(** *** The panel's own state *)
Definition systemArchiveName : string := "nexa-panel-system.tar.gz".
Definition snapshotControlDB (source dest : string) : M unit :=
  _ ← wrapping "open control database" (_ ← sys "Stat" source; sys "sql.Open" source);
  _ ← wrapping "snapshot control database" (sys "VACUUM INTO" dest);
  wrapping "secure control database snapshot" (sys "Chmod 0600" dest).
Definition copyFileStrict (source dest : string) : M unit :=
  _ ← sys "Lstat regular" source; _ ← sys "Open" source; _ ← sys "Create 0600" dest; _ ← sys "Copy" dest;
  _ ← sys "Chmod 0600" dest; _ ← sys "Sync" dest; sys "Close" dest.
Definition writeArchiveMember (archive source : string) : M unit :=
  _ ← sys "Lstat regular" source; _ ← sys "WriteHeader 0600" archive; _ ← sys "Open" source; sys "Copy" archive.
Definition writeSystemArchive (archive : string) (members : list string) : M unit :=
  _ ← wrapping "create system archive" (sys "Create 0600" archive);
  _ ← wrapping "secure system archive" (sys "Chmod 0600" archive);
  _ ← each (writeArchiveMember archive) members;
  _ ← wrapping "finalize system archive" (_ ← sys "tar Close" archive; sys "gzip Close" archive);
  _ ← wrapping "flush system archive" (sys "Sync" archive);
  sys "Close" archive.

Definition RunSystem (request : SystemRunRequest) : M Manifest :=
  _ ← lift (ValidateSystemRunRequest request);
  remote ← lift (rcloneRemote to_upper (sr_Account request));
  let staging := filepath_join [staging_root; "system"%string; sr_CopyName request] in
  _ ← prepare_staging staging;
  _ ← wrapping "secure staging directory" (sys "Chmod 0700" staging);
  deferring (sys "RemoveAll" staging)
    (let payload := filepath_join [staging; "payload"%string] in
     let snapshotPath := filepath_join [payload; "control.db"%string] in
     let keyCopyPath := filepath_join [payload; "master.key"%string] in
     let archivePath := filepath_join [staging; systemArchiveName] in
     _ ← wrapping "prepare snapshot directory" (sys "Mkdir" payload);
     _ ← snapshotControlDB (or_default (stateDBPath h) defaultStateDBPath) snapshotPath;
     _ ← wrapping "stage master key" (copyFileStrict (or_default (masterKeyPath h) defaultMasterKeyPath) keyCopyPath);
     _ ← writeSystemArchive archivePath [snapshotPath; keyCopyPath];
     _ ← wrapping "clean snapshot directory" (sys "RemoveAll" payload);
     metadata ← wrapping "inspect system archive" (artifactMetadata archivePath);
     let planDir := joinRemote remote.1 "system" in
     pruned ← ship "system backup" staging planDir (sr_CopyName request) (sr_Limit request) remote.2;
     mret (mk_manifest (sr_CopyName request) (trim_prefix (remoteName +:+ ":") (joinRemote planDir (sr_CopyName request)))
             metadata.1 [mk_entry systemArchiveName metadata.1 metadata.2] true pruned)).

Definition DeleteCopy (request : DeleteRequest) : M unit :=
  _ ← lift (ValidateDeleteRequest request);
  remote ← lift (rcloneRemote to_upper (dr_Account request));
  _ ← wrapping "delete backup copy" (purge remote.2 (joinRemote (joinRemote remote.1 (dr_PlanID request)) (dr_CopyName request)));
  mret tt.
End operator.

(** ** What a run does to the copies of its plan *)
Definition purged_by (c : call) : option string := match c with Exec _ [verb; dir] _ => if String.eqb verb "purge" then Some dir else None | _ => None end.
Definition purges (l : history) : list string := omap (fun e => purged_by e.1) l.
(** The names the listing of a directory gave. *)
Definition lists (planDir : string) (e : call * result string string) : bool :=
  match e.1 with Exec _ args _ => bool_decide (args = ["lsf"; "--dirs-only"; planDir]%string) | _ => false end.
Definition listed (planDir : string) (l : history) : list string :=
  match List.find (lists planDir) l with Some (_, Ok output) => listed_names output | _ => [] end.

Lemma purges_app a b : purges (a ++ b) = purges a ++ purges b.
Proof. apply omap_app. Qed.

Lemma purges_cons e l : purges (e :: l) = match purged_by e.1 with Some d => d :: purges l | None => purges l end.
Proof. done. Qed.

(** A computation that purges nothing and lists nothing. *)
Class Quiet {A} (m : M A) := quiet_run before : exists new, (m before).2 = before ++ new /\ purges new = [] /\ forall dir, List.find (lists dir) new = None.

Lemma find_app_none {A} (p : A -> bool) a b : List.find p a = None -> List.find p (a ++ b) = List.find p b.
Proof. induction a as [|x a IH]; simpl; [done|]. by destruct (p x). Qed.

#[export] Instance quiet_ret {A} (a : A) : Quiet (mret a).
Proof. intros h. exists []. by rewrite app_nil_r. Qed.
#[export] Instance quiet_fail {A} e : Quiet (@fail A e).
Proof. intros h. exists []. by rewrite app_nil_r. Qed.
#[export] Instance quiet_lift {A} (r : result string A) : Quiet (lift r).
Proof. intros h. exists []. by rewrite app_nil_r. Qed.
#[export] Instance quiet_bind {A B} (m : M A) (k : A -> M B) : Quiet m -> (forall a, Quiet (k a)) -> Quiet (m ≫= k).
Proof.
  intros Hm Hk h. unfold mbind, run_bind. destruct (Hm h) as (n1 & E1 & P1 & L1). destruct (m h) as [[a|e] h1]; simpl in E1; subst h1.
  - destruct (Hk a (h ++ n1)) as (n2 & E2 & P2 & L2). exists (n1 ++ n2). rewrite E2, purges_app, P1, P2, app_assoc.
    split_and!; [done..|]. intros dir. by rewrite find_app_none.
  - by exists n1.
Qed.
#[export] Instance quiet_attempt {A} (m : M A) : Quiet m -> Quiet (attempt m).
Proof. intros Hm h. unfold attempt. destruct (Hm h) as (n & E & P). by destruct (m h); exists n. Qed.
#[export] Instance quiet_wrapping {A} text (m : M A) : Quiet m -> Quiet (wrapping text m).
Proof. intros Hm h. unfold wrapping. destruct (Hm h) as (n & E & P). destruct (m h) as [[a|e] h1]; by exists n. Qed.
#[export] Instance quiet_each {A B} (f : A -> M B) l : (forall a, Quiet (f a)) -> Quiet (each f l).
Proof. intros Hf. induction l; simpl; apply _. Qed.

Lemma find_app_tail {A} (p : A -> bool) a b : List.find p b = None -> List.find p (a ++ b) = List.find p a.
Proof. intros Hb. induction a as [|x a IH]; simpl; [done|]. by destruct (p x). Qed.

Lemma trim_prefix_slash s : trim_prefix "/" (String slash s) = s.
Proof. done. Qed.

Lemma deferring_result {A} f (m : M A) b : (deferring f m b).1 = (m b).1.
Proof. unfold deferring, attempt, lift, mbind, run_bind. destruct (m b) as [r b1]. by destruct (f b1). Qed.

Section run.
Context (answer : history -> call -> result string string).
Context (inspect : history -> string -> result string (Z * string)) (h : HostOperator).

Lemma quiet_perform c : purged_by c = None -> (forall dir r, lists dir (c, r) = false) -> Quiet (perform answer c).
Proof.
  intros Hc Hl b. exists [(c, answer b c)]. split_and!; [done| |].
  - unfold purges. simpl. by rewrite Hc.
  - intros dir. simpl. by rewrite Hl.
Qed.
#[local] Instance quiet_sys op p : Quiet (sys answer op p).
Proof. unfold sys. apply quiet_bind; [by apply quiet_perform|apply _]. Qed.
#[local] Instance quiet_to_file name args env out : Quiet (perform answer (ExecToFile name args env out)).
Proof. by apply quiet_perform. Qed.
#[local] Instance quiet_inspect p : Quiet (artifactMetadata inspect p).
Proof. intros b. unfold artifactMetadata. by eexists [_]. Qed.
#[local] Instance quiet_tar out root : Quiet (exec answer "tar" ["-czf"; out; "-C"; root; "."]%string []).
Proof. apply quiet_perform; [done|]. intros. by apply bool_decide_eq_false. Qed.
#[local] Instance quiet_runuser args : Quiet (exec answer "runuser" ("-u" :: "postgres" :: "--" :: args)%string []).
Proof. apply quiet_perform; [by destruct args|]. intros. by apply bool_decide_eq_false. Qed.
#[local] Instance quiet_upload b staging dir env : Quiet (exec answer b ["copy"; staging; dir]%string env).
Proof. apply quiet_perform; [done|]. intros. by apply bool_decide_eq_false. Qed.
#[local] Instance quiet_check b staging dir env : Quiet (exec answer b ["check"; staging; dir; "--download"]%string env).
Proof. apply quiet_perform; [done|]. intros. by apply bool_decide_eq_false. Qed.
#[local] Instance quiet_archive_site staging site : Quiet (archive_site answer inspect staging site).
Proof. unfold archive_site. apply _. Qed.
#[local] Instance quiet_dump staging d : Quiet (dumpDatabase answer staging d).
Proof. unfold dumpDatabase. repeat case_match; apply _. Qed.
#[local] Instance quiet_dump_entry staging d : Quiet (dump_entry answer inspect staging d).
Proof. unfold dump_entry. apply _. Qed.
#[local] Instance quiet_assemble staging request : Quiet (assemble answer inspect staging request).
Proof. unfold assemble. apply _. Qed.
#[local] Instance quiet_snapshot a b : Quiet (snapshotControlDB answer a b).
Proof. unfold snapshotControlDB. apply _. Qed.
#[local] Instance quiet_copy a b : Quiet (copyFileStrict answer a b).
Proof. unfold copyFileStrict. apply _. Qed.
#[local] Instance quiet_pack a l : Quiet (writeSystemArchive answer a l).
Proof. unfold writeSystemArchive, writeArchiveMember. apply _. Qed.

(** *** Retention *)
Lemma run_bind_eq {A B} (m : M A) (k : A -> M B) b : (m ≫= k) b = match m b with (Ok a, b') => k a b' | (Err e, b') => (Err e, b') end.
Proof. done. Qed.

Lemma lists_copy dir b x y env r : lists dir (Exec b ["copy"; x; y]%string env, r) = false.
Proof. by apply bool_decide_eq_false. Qed.

Lemma lists_check dir b x y z env r : lists dir (Exec b ["check"; x; y; z]%string env, r) = false.
Proof. by apply bool_decide_eq_false. Qed.

Lemma expired_nil limit keepName : expired limit keepName [] = [].
Proof. unfold expired. change (newest_first []) with (@nil string). by rewrite drop_nil. Qed.

Lemma lists_purge dir b d env r : lists dir (Exec b ["purge"%string; d] env, r) = false.
Proof. by apply bool_decide_eq_false. Qed.

Lemma purge_each_run planDir env names : forall before, exists pruned new,
  purge_each answer h planDir env names before = (Ok pruned, before ++ new) /\
  purges new = joinRemote planDir <$> names /\ sublist pruned names /\ (forall dir, List.find (lists dir) new = None).
Proof.
  induction names as [|name names IH]; intros b; [by exists [], []; rewrite app_nil_r|].
  simpl purge_each. rewrite run_bind_eq. unfold attempt, purge, exec, perform. cbv beta iota zeta.
  set (c := Exec _ _ _). rewrite run_bind_eq. destruct (IH (b ++ [(c, answer b c)])) as (pruned & new & -> & Hp & Hs & Hl).
  eexists _, ((c, answer b c) :: new). split; [by rewrite <- app_assoc|]. split_and!.
  - rewrite purges_cons. simpl. by rewrite Hp.
  - destruct (answer b c); by constructor.
  - intros dir. cbn [List.find]. unfold c. by rewrite lists_purge, Hl.
Qed.

Lemma prune_run planDir keepName limit env before : exists pruned new,
  prune answer h planDir keepName limit env before = (Ok pruned, before ++ new) /\
  let old := expired limit keepName (listed planDir new) in
  purges new = joinRemote planDir <$> old /\ sublist pruned old /\ (old <> [] -> 1 <= limit).
Proof.
  unfold prune. destruct (Z.ltb_spec limit 1) as [Hl|Hl].
  { exists [], []. rewrite app_nil_r. cbn [listed List.find]. by rewrite expired_nil. }
  rewrite run_bind_eq. unfold attempt, exec, perform. set (c := Exec _ _ _). cbv beta iota.
  assert (Hc : forall r, lists planDir (c, r) = true) by (intros; by apply bool_decide_eq_true).
  destruct (answer before c) as [output|e] eqn:Ea.
  - destruct (purge_each_run planDir env (expired limit keepName (listed_names output)) (before ++ [(c, Ok output)])) as (pruned & new & -> & Hp & Hs & Hn).
    exists pruned, ((c, Ok output) :: new). rewrite <- app_assoc. split; [done|]. unfold listed. cbn [List.find]. rewrite Hc. by split_and!.
  - exists [], [(c, Err e)]. split; [done|]. unfold listed. cbn [List.find]. rewrite Hc, expired_nil. by split_and!.
Qed.
Lemma expired_kept limit keepName names name : NoDup names -> 0 <= limit -> name ∈ expired limit keepName names ->
  exists newer, Z.of_nat (length newer) = limit /\ NoDup newer /\
    Forall (fun kept => kept ∈ names /\ kept ∉ expired limit keepName names /\ str_le name kept) newer.
Proof.
  intros Hn Hl. set (n := Z.to_nat limit). intros [Hk Hd]%list_elem_of_filter.
  pose proof (take_drop n (newest_first names)) as Hs.
  assert (Hp : newest_first names ≡ₚ names) by (unfold newest_first; by rewrite <- Permutation_rev, sort_strings_perm).
  assert (Hnd : NoDup (take n (newest_first names) ++ drop n (newest_first names))) by (by rewrite Hs, Hp).
  apply NoDup_app in Hnd as (Ht & Hx & _). exists (take n (newest_first names)). split_and!; [|done|].
  - rewrite length_take_le; [lia|]. destruct (decide (n <= length (newest_first names))%nat); [done|].
    rewrite drop_ge in Hd by lia. by apply elem_of_nil in Hd.
  - apply Forall_forall. intros kept Ht'. split_and!.
    + rewrite <- Hp, <- Hs. by apply elem_of_app; left.
    + intros [_ Hd']%list_elem_of_filter. by apply (Hx kept).
    + assert (Hss : StronglySorted str_le (sort_strings names)) by (apply Sorted_StronglySorted, sort_strings_sorted; exact str_leb_trans).
      rewrite <- (rev_involutive (sort_strings names)) in Hss. fold (newest_first names) in Hss.
      rewrite <- Hs, rev_app_distr in Hss.
      eapply StronglySorted_app_1_elem_of; [exact Hss|by rewrite <- Permutation_rev..].
Qed.
Lemma elem_of_newest names name : name ∈ newest_first names -> name ∈ names.
Proof. unfold newest_first. by rewrite <- Permutation_rev, sort_strings_perm. Qed.

Lemma listed_app dir a b : List.find (lists dir) a = None -> listed dir (a ++ b) = listed dir b.
Proof. intros Ha. unfold listed. by rewrite find_app_none. Qed.

(** The directories of old copies that were purged: none of the [limit] newest, nor the
    copy just made. *)
Definition retained (planDir copyName : string) (limit : Z) (l : history) (pruned : list string) : Prop :=
  exists old, purges l = joinRemote planDir <$> old /\ sublist pruned old /\ copyName ∉ old /\
    (NoDup (listed planDir l) -> Forall (fun name => exists newer, Z.of_nat (length newer) = limit /\ 1 <= limit /\ NoDup newer /\
      Forall (fun kept => kept ∈ listed planDir l /\ kept ∉ old /\ str_le name kept) newer) old) /\
    (Forall plain (listed planDir l) -> joinRemote planDir copyName ∉ purges l).

Definition shipped (staging planDir copyName : string) (limit : Z) (env : list string) (r : result string Manifest) (l : history) : Prop :=
  let copyDir := joinRemote planDir copyName in
  let upload := Exec (binary h) ["copy"%string; staging; copyDir] env in
  let check := Exec (binary h) ["check"; staging; copyDir; "--download"]%string env in
  match r with
  | Ok m => (exists before u c after, l = before ++ (upload, Ok u) :: (check, Ok c) :: after /\ purges before = []) /\
            IntegrityChecked m = true /\ retained planDir copyName limit l (Pruned m)
  | Err _ => purges l = [] \/ (purges l = [copyDir] /\ exists e, (check, Err e) ∈ l)
  end.

Lemma joinRemote_plain base name : plain name -> joinRemote base name = base +:+ "/" +:+ name.
Proof.
  intros Hn. unfold joinRemote. change ("/" +:+ name) with (abs [name]) at 1. rewrite clean_abs by by constructor.
  unfold abs. by rewrite trim_prefix_slash.
Qed.

Lemma joinRemote_inj base a b : plain a -> plain b -> joinRemote base a = joinRemote base b -> a = b.
Proof. intros Ha Hb. rewrite !joinRemote_plain by done. intros E. by apply str_app_inj_l in E; simplify_eq/=. Qed.

Lemma shipped_around staging planDir copyName limit env r a l z :
  purges a = [] -> (forall d, List.find (lists d) a = None) -> purges z = [] -> (forall d, List.find (lists d) z = None) ->
  shipped staging planDir copyName limit env r l -> shipped staging planDir copyName limit env r (a ++ l ++ z).
Proof using Type. clear answer inspect.
  intros Ha La Hz Lz. assert (Hp : purges (a ++ l ++ z) = purges l) by (rewrite !purges_app, Ha, Hz; by rewrite app_nil_r).
  assert (Hl : forall d, listed d (a ++ l ++ z) = listed d l).
  { intros d. unfold listed. rewrite find_app_none by done. by rewrite find_app_tail. }
  unfold shipped. destruct r as [m|e].
  - intros ((b & u & c & after & -> & Hb) & Hi & Hr). split_and!; [|done|].
    + exists (a ++ b), u, c, (after ++ z). split; [by rewrite <- !app_assoc|by rewrite purges_app, Ha, Hb].
    + unfold retained in *. by rewrite Hp, Hl.
  - rewrite Hp. intros [H|[H [e' He]]]; [by left|]. right. split; [done|]. exists e'. set_solver.
Qed.
Definition ships (staging planDir copyName : string) (limit : Z) (env : list string) (m : M Manifest) : Prop :=
  forall before, exists new, (m before).2 = before ++ new /\ shipped staging planDir copyName limit env (m before).1 new.

Section ships.
Context (staging planDir copyName : string) (limit : Z) (env : list string).
Notation ships := (ships staging planDir copyName limit env).

Lemma ships_quiet m : Quiet m -> (forall b, is_ok (m b).1 = false) -> ships m.
Proof using Type. clear answer inspect.
  intros Hq Hf b. destruct (Hq b) as (new & E & Hp & _). exists new. split; [done|].
  specialize (Hf b). destruct (m b) as [[a|e] b']; [done|]. by left.
Qed.

Lemma ships_after {A} (q : M A) (k : A -> M Manifest) : Quiet q -> (forall a b b', q b = (Ok a, b') -> ships (k a)) -> ships (q ≫= k).
Proof using Type. clear answer inspect.
  intros Hq Hk b. rewrite run_bind_eq. destruct (Hq b) as (n1 & E1 & P1 & L1). destruct (q b) as [[a|e] b1] eqn:Eq; simpl in E1; subst b1.
  - destruct (Hk a b _ Eq (b ++ n1)) as (n2 & E2 & H2). exists (n1 ++ n2). rewrite E2, app_assoc. split; [done|].
    rewrite <- (app_nil_r n2). by apply shipped_around.
  - exists n1. split; [done|]. by left.
Qed.

Lemma ships_deferring f m : Quiet f -> ships m -> ships (deferring f m).
Proof using Type. clear answer inspect.
  intros Hf Hm b. destruct (Hm b) as (n1 & E1 & H1). unfold deferring, attempt, lift. rewrite run_bind_eq.
  destruct (m b) as [r b1]; simpl in E1, H1 |- *; subst b1. rewrite run_bind_eq. destruct (Hf (b ++ n1)) as (n2 & E2 & P2 & L2).
  destruct (f (b ++ n1)) as [r' b2]; simpl in E2 |- *; subst b2. exists (n1 ++ n2). rewrite app_assoc. split; [done|].
  by apply (shipped_around _ _ _ _ _ _ [] _ n2).
Qed.

Lemma ships_ship what remotePath size entries : plain copyName -> 
  ships (pruned ← ship answer h what staging planDir copyName limit env; mret (mk_manifest copyName remotePath size entries true pruned)).
Proof.
  intros Hplain b. unfold ship, wrapping, exec, perform, attempt. rewrite !run_bind_eq.
  set (up := Exec (binary h) ["copy"; _; _]%string env). destruct (answer b up) as [u|e].
  2:{ exists [(up, Err e)]. split; [done|]. by left. }
  rewrite run_bind_eq. set (ck := Exec (binary h) ["check"; _; _; _]%string env). set (b1 := b ++ [(up, Ok u)]).
  destruct (answer b1 ck) as [c|e] eqn:Ec.
  - destruct (prune_run planDir copyName limit env (b1 ++ [(ck, Ok c)])) as (pruned & new & -> & Hp & Hs & Hl).
    exists ((up, Ok u) :: (ck, Ok c) :: new). split; [by subst b1; rewrite <- !app_assoc|].
    assert (Hk : forall names, copyName ∉ expired limit copyName names) by (intros names [? _]%list_elem_of_filter; done).
    assert (Hlist : listed planDir ((up, Ok u) :: (ck, Ok c) :: new) = listed planDir new)
      by (apply (listed_app planDir [(up, Ok u); (ck, Ok c)]); cbn [List.find]; unfold up, ck; by rewrite lists_copy, lists_check).
    split_and!; [by exists [], u, c, new|done|]. exists (expired limit copyName (listed planDir new)). rewrite Hlist. split_and!; [done..|apply Hk| |].
    + intros Hn. apply Forall_forall. intros name Hname. assert (1 <= limit) by (apply Hl; by intros E; rewrite E in Hname; apply elem_of_nil in Hname).
      destruct (expired_kept limit copyName _ name Hn ltac:(lia) Hname) as (newer & ? & ? & ?). by exists newer.
    + intros Hpl. rewrite !purges_cons. simpl. rewrite Hp. intros (name & E & Hname)%list_elem_of_fmap.
      apply joinRemote_inj in E; [by subst; apply (Hk (listed planDir new))|done|].
      rewrite Forall_forall in Hpl. apply Hpl. apply list_elem_of_filter in Hname as [_ Hname].
      apply (elem_of_newest (listed planDir new)). rewrite <- (take_drop (Z.to_nat limit)). apply elem_of_app. by right.
  - rewrite run_bind_eq. unfold attempt, purge, exec, perform. set (pu := Exec _ ["purge"; _]%string _).
    exists [(up, Ok u); (ck, Err e); (pu, answer (b1 ++ [(ck, Err e)]) pu)]. split; [by subst b1; rewrite <- !app_assoc|].
    right. split; [done|]. exists e. set_solver.
Qed.
End ships.

(** *** What a copy holds *)
Lemma each_names {A} (f : A -> M CopyEntry) (g : A -> string) l : (forall a b e b', f a b = (Ok e, b') -> e_Name e = g a) ->
  forall b es b', each f l b = (Ok es, b') -> e_Name <$> es = g <$> l.
Proof.
  intros Hf. induction l as [|a l IH]; intros b es b'; [by intros [= <- _]|]. simpl each. rewrite run_bind_eq.
  destruct (f a b) as [[e|?] b1] eqn:E1; [|done]. rewrite run_bind_eq. destruct (each f l b1) as [[es1|?] b2] eqn:E2; [|done].
  intros [= <- _]. simpl. f_equal; [by eapply Hf|by eapply IH].
Qed.

Lemma site_entry_name staging a b e b' : archive_site answer inspect staging a b = (Ok e, b') -> e_Name e = site_entry a.
Proof. unfold archive_site, wrapping. rewrite run_bind_eq. repeat (case_match; simplify_eq/=); rewrite ?run_bind_eq; repeat (case_match; simplify_eq/=); by intros [= <- _]. Qed.

Lemma dump_entry_name staging a b e b' : dump_entry answer inspect staging a b = (Ok e, b') -> e_Name e = databaseBackupEntry a.
Proof.
  unfold dump_entry. rewrite run_bind_eq. assert (Hn : forall b n b1, dumpDatabase answer staging a b = (Ok n, b1) -> n = databaseBackupEntry a).
  { clear. intros b n b1. unfold dumpDatabase, wrapping, exec, perform. repeat (case_match; rewrite ?run_bind_eq; simplify_eq/=); by intros [= <- _] || done. }
  destruct (dumpDatabase answer staging a b) as [[n|?] b1] eqn:E; [|done]. apply Hn in E as ->.
  rewrite run_bind_eq. unfold wrapping. repeat (case_match; simplify_eq/=); by intros [= <- _].
Qed.

Lemma assemble_names staging request b es b' : assemble answer inspect staging request b = (Ok es, b') ->
  e_Name <$> es = (site_entry <$> rr_Sites request) ++ (databaseBackupEntry <$> rr_Databases request).
Proof.
  unfold assemble. rewrite run_bind_eq. destruct (each _ (rr_Sites request) b) as [[es1|?] b1] eqn:E1; [|done].
  rewrite run_bind_eq. destruct (each _ (rr_Databases request) b1) as [[es2|?] b2] eqn:E2; [|done]. intros [= <- _].
  rewrite fmap_app. f_equal; [eapply each_names, E1; apply site_entry_name|eapply each_names, E2; apply dump_entry_name].
Qed.
End run.

(** *** What the checks mean *)
Lemma run_sites_distinct siteRoot sites : forall i seen seen', run_sites siteRoot i seen sites = Ok seen' ->
  NoDup (site_entry <$> sites) /\ (forall e, e ∈ site_entry <$> sites -> e ∉ seen /\ e ∈ seen') /\ seen ⊆ seen'.
Proof.
  induction sites as [|site sites IH]; intros i seen seen'; simpl; [by intros [= ->]; split_and!; [constructor|intros ? ?%elem_of_nil|]|].
  repeat (case_match; simplify_eq/=); [done| |done]. split_andb. intros Hr. apply IH in Hr as (Hn & Hd & Hs). split_and!.
  - constructor; [|done]. intros Hin. apply Hd in Hin. set_solver.
  - intros e [->|He]%elem_of_cons; [set_solver|]. apply Hd in He. set_solver.
  - set_solver.
Qed.

Lemma run_databases_distinct databases : forall i seen, run_databases i seen databases = Ok tt ->
  NoDup (databaseBackupEntry <$> databases) /\ (forall e, e ∈ databaseBackupEntry <$> databases -> e ∉ seen).
Proof.
  induction databases as [|d databases IH]; intros i seen; simpl; [by intros _; split; [constructor|intros ? ?%elem_of_nil]|].
  intros Hr. apply bind_Ok in Hr as (? & _ & Hr). case_match; [done|]. split_andb. apply IH in Hr as (Hn & Hd). split.
  - constructor; [|done]. intros Hin. apply Hd in Hin. set_solver.
  - intros e [->|He]%elem_of_cons; [done|]. apply Hd in He. set_solver.
Qed.

Lemma token_plain label v : validateBackupToken label v = Ok tt -> plain v.
Proof.
  unfold validateBackupToken, fail_if. destruct (matches backupTokenPattern v) eqn:E; [|done]. intros _.
  assert (Hb : all_bytes (fun c => negb (Ascii.eqb slash c) && negb (Ascii.eqb "." c)) v = true).
  { revert E. apply matches_bytes, forall_ascii. by vm_compute. }
  split_and!; [by apply matches_nonempty in E| | |].
  - by intros ->.
  - by intros ->.
  - apply any_byte_false. revert Hb. apply all_bytes_impl. intros c. by rewrite andb_true_iff; intros [? _].
Qed.

Lemma system_plain : plain "system".
Proof. by repeat split. Qed.

Section runs.
Context (to_upper : string -> string) (answer : history -> call -> result string string).
Context (inspect : history -> string -> result string (Z * string)) (h : HostOperator).
#[local] Existing Instances quiet_sys quiet_to_file quiet_inspect quiet_assemble quiet_snapshot quiet_copy quiet_pack.
Notation ships := (ships h).

#[local] Instance quiet_prepare staging : Quiet (prepare_staging answer staging).
Proof. unfold prepare_staging. apply _. Qed.

Definition outcome (staging folder copyName : string) (limit : Z) (account : Account) (run : result string Manifest * history) : Prop :=
  match rcloneRemote to_upper account with
  | Ok remote => shipped h staging (joinRemote remote.1 folder) copyName limit remote.2 run.1 run.2
  | Err _ => is_ok run.1 = false /\ purges run.2 = []
  end.

Lemma ships_outcome staging folder copyName limit account m :
  (forall remote, rcloneRemote to_upper account = Ok remote -> ships staging (joinRemote remote.1 folder) copyName limit remote.2 m) ->
  (forall e, rcloneRemote to_upper account = Err e -> exists e', m [] = (Err e', [])) ->
  outcome staging folder copyName limit account (m []).
Proof.
  intros Hok Herr. unfold outcome. destruct (rcloneRemote to_upper account) as [remote|e] eqn:E.
  - destruct (Hok remote eq_refl []) as (new & En & Hs). simpl in En. by rewrite <- En in Hs.
  - by destruct (Herr e eq_refl) as [e' ->].
Qed.

Lemma run_ships request remote : rcloneRemote to_upper (rr_Account request) = Ok remote ->
  ships (filepath_join [staging_root h; rr_PlanID request; rr_CopyName request]) (joinRemote remote.1 (rr_PlanID request))
    (rr_CopyName request) (rr_Limit request) remote.2 (Run to_upper answer inspect h request).
Proof.
  intros Hr. unfold Run. apply ships_after; [apply _|]. intros [] b b' [= Hv _].
  assert (Hc : plain (rr_CopyName request)).
  { apply (token_plain "copy name"). apply bind_Ok in Hv as (_ & _ & Hv). apply bind_Ok in Hv as (_ & _ & Hv).
    by apply bind_Ok in Hv as ([] & Hv & _). }
  rewrite Hr. apply ships_after; [apply _|]. intros a ? ? [= <- _]. apply ships_after; [apply _|]. intros _ _ _ _.
  apply ships_deferring; [apply _|]. apply ships_after; [apply _|]. intros entries _ _ _.
  destruct (count entries =? 0); [apply ships_quiet; [apply _|done]|]. by apply ships_ship.
Qed.

Lemma system_ships request remote : rcloneRemote to_upper (sr_Account request) = Ok remote ->
  ships (filepath_join [staging_root h; "system"%string; sr_CopyName request]) (joinRemote remote.1 "system")
    (sr_CopyName request) (sr_Limit request) remote.2 (RunSystem to_upper answer inspect h request).
Proof.
  intros Hr. unfold RunSystem. apply ships_after; [apply _|]. intros [] b b' [= Hv _].
  assert (Hc : plain (sr_CopyName request)).
  { apply (token_plain "copy name"). apply bind_Ok in Hv as (_ & _ & Hv). by apply bind_Ok in Hv as ([] & Hv & _). }
  rewrite Hr. apply ships_after; [apply _|]. intros a ? ? [= <- _]. do 2 (apply ships_after; [apply _|]; intros _ _ _ _).
  apply ships_deferring; [apply _|]. do 5 (apply ships_after; [apply _|]; intros _ _ _ _).
  apply ships_after; [apply _|]. intros metadata _ _ _. by apply ships_ship.
Qed.

Lemma run_entries request m b : (Run to_upper answer inspect h request b).1 = Ok m ->
  e_Name <$> Entries m = (site_entry <$> rr_Sites request) ++ (databaseBackupEntry <$> rr_Databases request) /\
  NoDup (e_Name <$> Entries m).
Proof.
  unfold Run. rewrite run_bind_eq. unfold lift at 1. destruct (validateRunRequest request (site_root h)) as [[]|] eqn:Hv; [|done].
  rewrite run_bind_eq. unfold lift at 1. destruct (rcloneRemote _ _) as [remote|]; [|done]. rewrite run_bind_eq.
  destruct (prepare_staging _ _ b) as [[[]|] b1]; [|done]. rewrite deferring_result, run_bind_eq.
  destruct (assemble answer inspect _ request b1) as [[entries|] b2] eqn:Ea; [|done].
  apply assemble_names in Ea. destruct (count entries =? 0); [done|].
  rewrite run_bind_eq. destruct (ship _ _ _ _ _ _ _ _ b2) as [[pruned|] b3]; [|done].
  intros [= <-]. simpl. rewrite Ea. split; [done|].
  do 6 apply bind_Ok in Hv as (_ & _ & Hv). destruct (run_sites _ _ _ _) as [seen|] eqn:Es; [|done].
  apply run_sites_distinct in Es as (Hn & Hd & _). apply run_databases_distinct in Hv as (Hm & He).
  apply NoDup_app. split_and!; [done| |done]. intros e H1 H2. apply Hd in H1 as [_ H1]. by apply He in H2.
Qed.

(** C17. A run of a plan, or of the panel's own state, whatever rclone and the host answer:
    a run that fails purges nothing, or the copy it had just uploaded and whose check had
    failed; a run that succeeds has uploaded its copy and had it checked before it purged
    anything, holds each selected target once, and every copy it then purges was listed in
    the directory of the plan with at least [Limit] listed copies that it keeps and whose
    names are not smaller in byte order (not older, as names are times); the new copy is never among the purged ones. *)
Theorem backup_run_retention :
  (forall request, let run := Run to_upper answer inspect h request [] in
     outcome (filepath_join [staging_root h; rr_PlanID request; rr_CopyName request]) (rr_PlanID request) (rr_CopyName request)
       (rr_Limit request) (rr_Account request) run /\
     forall m, run.1 = Ok m ->
       e_Name <$> Entries m = (site_entry <$> rr_Sites request) ++ (databaseBackupEntry <$> rr_Databases request) /\
       NoDup (e_Name <$> Entries m)) /\
  (forall request, outcome (filepath_join [staging_root h; "system"%string; sr_CopyName request]) "system" (sr_CopyName request)
     (sr_Limit request) (sr_Account request) (RunSystem to_upper answer inspect h request [])).
Proof.
  split.
  - intros request. split; [|intros m; apply run_entries]. apply ships_outcome; [intros; by apply run_ships|].
    intros e He. unfold Run. rewrite run_bind_eq. unfold lift at 1. destruct (validateRunRequest _ _); [|by eexists].
    rewrite run_bind_eq, He. by eexists.
  - intros request. apply ships_outcome; [intros; by apply system_ships|].
    intros e He. unfold RunSystem. rewrite run_bind_eq. unfold lift at 1. destruct (ValidateSystemRunRequest _); [|by eexists].
    rewrite run_bind_eq, He. by eexists.
Qed.
End runs.

(** ** A run *)
Module Copies.
Definition operator : HostOperator := mk_operator "rclone" EmptyString EmptyString EmptyString EmptyString.
Definition shop : SiteTarget := mk_site_target "shop" "/srv/nexa/sites/shop" "nexa_shop".
Definition shop_db : DatabaseTarget := mk_database_target "postgres" "shop" "16" 5432 "/run/postgresql".
Definition disk : Account := mk_account "disk" "local" "/backups/" [("env_auth", "false")]%string.
Definition request : RunRequest := mk_run_request disk "plan_1" "2025-03-01_020000_c3" 2 [shop] [shop_db] EmptyString.
Definition listing : string :=
  join (String newline EmptyString) ["2025-01-01_020000_c1/"; "2025-02-01_020000_c2/"; "2025-03-01_020000_c3/"; EmptyString]%string.
Definition node (before : history) (c : call) : result string string :=
  match c with Exec _ ["lsf"; _; _]%string _ => Ok listing | _ => Ok EmptyString end.
Definition sizes (before : history) (path : string) : result string (Z * string) := Ok (10, "ab"%string).
Definition run := Run (fun s => s) node sizes operator request [].

Lemma backup_run_retention_witness :
  Pruned <$> match run.1 with Ok m => Some m | Err _ => None end = Some ["2025-01-01_020000_c1"%string] /\
  purges run.2 = ["nexa:/backups/plan_1/2025-01-01_020000_c1"%string] /\
  outcome (fun s => s) operator (filepath_join [staging_root operator; rr_PlanID request; rr_CopyName request]) (rr_PlanID request)
    (rr_CopyName request) (rr_Limit request) (rr_Account request) run.
Proof.
  split; [by vm_compute|]. split; [by vm_compute|].
  exact (proj1 (proj1 (backup_run_retention (fun s => s) node sizes operator) request)).
Defined.
End Copies.
