(* ===== verification/Shell.v ===== *)
(** * Words of a shell script

    A reference reader of POSIX shell quoting, one line at a time: the words and
    operators a line is cut into, and for every byte of a word whether it stands for
    itself or is subject to expansion. *)

From Stdlib Require Import Ascii.
From S2P Require Import Prelude GoStrings Sites.

Local Open Scope Z_scope.

(** A byte that stands for itself, and one that expansion may still interpret. *)
Inductive piece := Lit (c : ascii) | Exp (c : ascii).
Inductive sh_token := Sh_word (w : list piece) | Sh_op (c : ascii).

Fixpoint literally (s : string) : list piece :=
  match s with EmptyString => [] | String c t => Lit c :: literally t end.
Fixpoint openly (s : string) : list piece :=
  match s with EmptyString => [] | String c t => Exp c :: openly t end.

Inductive sh_mode := Plain | Single | Double.

Definition blank (c : ascii) : bool := Ascii.eqb " " c || byte_eq 9 c.
Definition operator (c : ascii) : bool := one_of "|&;<>()" c.
Definition single_quote : ascii := "'".
Definition sh_backslash : ascii := "\".

(** The word read so far, if one was begun. *)
Definition flush (cur : option (list piece)) : list sh_token :=
  match cur with Some w => [Sh_word w] | None => [] end.
Definition more (cur : option (list piece)) (l : list piece) : option (list piece) := Some (default [] cur ++ l).

Fixpoint sh_lex (mode : sh_mode) (cur : option (list piece)) (s : string) : option (list sh_token) :=
  match s with
  | EmptyString => match mode with Plain => Some (flush cur) | _ => None end
  | String c t =>
      match mode with
      | Plain =>
          if blank c then (fun l => flush cur ++ l) <$> sh_lex Plain None t
          else if operator c then (fun l => flush cur ++ Sh_op c :: l) <$> sh_lex Plain None t
          else if Ascii.eqb single_quote c then sh_lex Single (more cur []) t
          else if Ascii.eqb double_quote c then sh_lex Double (more cur []) t
          else if Ascii.eqb sh_backslash c then
            match t with String d u => sh_lex Plain (more cur [Lit d]) u | EmptyString => None end
          else if Ascii.eqb "#" c && bool_decide (cur = None) then Some []
          else sh_lex Plain (more cur [Exp c]) t
      | Single =>
          if Ascii.eqb single_quote c then sh_lex Plain cur t else sh_lex Single (more cur [Lit c]) t
      | Double =>
          if Ascii.eqb double_quote c then sh_lex Plain cur t
          else if Ascii.eqb sh_backslash c then
            match t with
            | String d u => if one_of "$`\" d || Ascii.eqb double_quote d then sh_lex Double (more cur [Lit d]) u
                            else sh_lex Double (more cur [Exp c; Exp d]) u
            | EmptyString => None
            end
          else sh_lex Double (more cur [Exp c]) t
      end
  end.

Definition sh_line (s : string) : option (list sh_token) := sh_lex Plain None s.
(** A script without here-documents or quotes that span lines. *)
Definition sh_script (s : string) : option (list (list sh_token)) := mapM sh_line (split newline s).

(** ** Lemmas *)
Lemma literally_app a b : literally (a +:+ b) = literally a ++ literally b.
Proof. induction a as [|c a IH]; simpl; [done|]. by rewrite IH. Qed.
Lemma openly_app a b : openly (a +:+ b) = openly a ++ openly b.
Proof. induction a as [|c a IH]; simpl; [done|]. by rewrite IH. Qed.

Lemma more_more cur a b : more (more cur a) b = more cur (a ++ b).
Proof. unfold more. simpl. by rewrite (assoc_L (++)). Qed.

(** Quoting: single quotes around, each single quote written as quote, backslash,
    quote, quote. *)
Definition escaped (s : string) : string := replace_byte single_quote "'\''" s.

Lemma sh_lex_escaped cur s rest :
  sh_lex Single cur (escaped s +:+ String single_quote rest) =
  sh_lex Plain (match s with EmptyString => cur | _ => more cur (literally s) end) rest.
Proof.
  revert cur. induction s as [|c s IH]; intros cur; [done|]. unfold escaped in *. cbn [replace_byte literally].
  destruct (Ascii.eqb_spec single_quote c) as [<-|Hc].
  - change (("'\''" +:+ replace_byte single_quote "'\''" s) +:+ String single_quote rest) with
      (String single_quote (String sh_backslash (String single_quote (String single_quote
        (replace_byte single_quote "'\''" s +:+ String single_quote rest))))).
    cbn [sh_lex]. change (Ascii.eqb single_quote single_quote) with true.
    change (blank sh_backslash) with false. change (operator sh_backslash) with false.
    change (Ascii.eqb single_quote sh_backslash) with false. change (Ascii.eqb double_quote sh_backslash) with false.
    change (Ascii.eqb sh_backslash sh_backslash) with true. change (blank single_quote) with false.
    change (operator single_quote) with false. cbn iota.
    rewrite IH. destruct s as [|d s]; rewrite !more_more; done.
  - change (String c (replace_byte single_quote "'\''" s) +:+ String single_quote rest) with
      (String c (replace_byte single_quote "'\''" s +:+ String single_quote rest)).
    cbn [sh_lex]. rewrite (proj2 (Ascii.eqb_neq _ _) Hc). rewrite IH.
    destruct s as [|d s]; rewrite ?more_more; done.
Qed.

Lemma sh_lex_quoted cur s rest :
  sh_lex Plain cur (String single_quote (escaped s +:+ String single_quote rest)) = sh_lex Plain (more cur (literally s)) rest.
Proof.
  cbn [sh_lex]. change (blank single_quote) with false. change (operator single_quote) with false.
  change (Ascii.eqb single_quote single_quote) with true. cbn iota. rewrite sh_lex_escaped.
  destruct s as [|c s]; [done|]. by rewrite more_more.
Qed.

(** Bytes without a meaning of their own in a word, in quotes or not. *)
Definition word_safe (c : ascii) : bool := is_alnum c || one_of "_./:@+-,%=" c.

Lemma word_safe_plain c : word_safe c = true ->
  blank c = false /\ operator c = false /\ Ascii.eqb single_quote c = false /\ Ascii.eqb double_quote c = false /\
  Ascii.eqb sh_backslash c = false /\ Ascii.eqb "#" c = false.
Proof. by destruct c as [[] [] [] [] [] [] [] []]. Qed.

Lemma sh_lex_plain cur s rest : all_bytes word_safe s = true ->
  sh_lex Plain cur (s +:+ rest) = sh_lex Plain (match s with EmptyString => cur | _ => more cur (openly s) end) rest.
Proof.
  revert cur. induction s as [|c s IH]; intros cur; [done|]. intros [Hc Hs]%andb_prop.
  change (String c s +:+ rest) with (String c (s +:+ rest)). cbn [sh_lex openly].
  destruct (word_safe_plain _ Hc) as (-> & -> & -> & -> & -> & ->). cbn [andb]. rewrite (IH _ Hs).
  destruct s as [|d s]; [done|]. by rewrite more_more.
Qed.

(** Reading on: the state after some bytes, and the words completed in them. *)
Fixpoint sh_scan (mode : sh_mode) (cur : option (list piece)) (s : string) : option (sh_mode * option (list piece) * list sh_token) :=
  match s with
  | EmptyString => Some (mode, cur, [])
  | String c t =>
      match mode with
      | Plain =>
          if blank c then (fun r => (r.1, flush cur ++ r.2)) <$> sh_scan Plain None t
          else if operator c then (fun r => (r.1, flush cur ++ Sh_op c :: r.2)) <$> sh_scan Plain None t
          else if Ascii.eqb single_quote c then sh_scan Single (more cur []) t
          else if Ascii.eqb double_quote c then sh_scan Double (more cur []) t
          else if Ascii.eqb sh_backslash c || Ascii.eqb "#" c then None
          else sh_scan Plain (more cur [Exp c]) t
      | Single => if Ascii.eqb single_quote c then sh_scan Plain cur t else sh_scan Single (more cur [Lit c]) t
      | Double =>
          if Ascii.eqb double_quote c then sh_scan Plain cur t
          else if Ascii.eqb sh_backslash c then None
          else sh_scan Double (more cur [Exp c]) t
      end
  end.

Lemma sh_scan_lex s rest : forall mode cur mode' cur' out, sh_scan mode cur s = Some (mode', cur', out) ->
  sh_lex mode cur (s +:+ rest) = (fun l => out ++ l) <$> sh_lex mode' cur' rest.
Proof.
  induction s as [|c s IH]; intros mode cur mode' cur' out; cbn [sh_scan].
  - intros [= <- <- <-]. cbn. by destruct (sh_lex mode cur rest).
  - change (String c s +:+ rest) with (String c (s +:+ rest)). cbn [sh_lex]. destruct mode.
    + destruct (blank c).
      { destruct (sh_scan Plain None s) as [[[m u] o]|] eqn:Hs; [|done]. intros [= <- <- <-]. rewrite (IH _ _ _ _ _ Hs).
        destruct (sh_lex m u rest); [|done]. simpl. by rewrite (assoc_L (++)). }
      destruct (operator c).
      { destruct (sh_scan Plain None s) as [[[m u] o]|] eqn:Hs; [|done]. intros [= <- <- <-]. rewrite (IH _ _ _ _ _ Hs).
        destruct (sh_lex m u rest); [|done]. simpl. by rewrite <-(assoc_L (++)). }
      destruct (Ascii.eqb single_quote c); [apply IH|]. destruct (Ascii.eqb double_quote c); [apply IH|].
      destruct (Ascii.eqb sh_backslash c); [done|]. destruct (Ascii.eqb "#" c); [done|]. apply IH.
    + destruct (Ascii.eqb single_quote c); apply IH.
    + destruct (Ascii.eqb double_quote c); [apply IH|]. destruct (Ascii.eqb sh_backslash c); [done|apply IH].
Qed.

(** Bytes between quotes. *)
Lemma sh_lex_single cur s rest : any_byte (Ascii.eqb single_quote) s = false ->
  sh_lex Single cur (s +:+ rest) = sh_lex Single (match s with EmptyString => cur | _ => more cur (literally s) end) rest.
Proof.
  revert cur. induction s as [|c s IH]; intros cur; [done|]. cbn [any_byte]. intros [Hc Hs]%orb_false_iff.
  change (String c s +:+ rest) with (String c (s +:+ rest)). cbn [sh_lex literally]. rewrite Hc, (IH _ Hs).
  destruct s as [|d s]; [done|]. by rewrite more_more.
Qed.
Lemma sh_lex_double cur s rest : all_bytes word_safe s = true ->
  sh_lex Double cur (s +:+ rest) = sh_lex Double (match s with EmptyString => cur | _ => more cur (openly s) end) rest.
Proof.
  revert cur. induction s as [|c s IH]; intros cur; [done|]. intros [Hc Hs]%andb_prop.
  change (String c s +:+ rest) with (String c (s +:+ rest)). cbn [sh_lex openly].
  destruct (word_safe_plain _ Hc) as (_ & _ & _ & -> & -> & _). rewrite (IH _ Hs).
  destruct s as [|d s]; [done|]. by rewrite more_more.
Qed.
