(* ===== verification/Words.v ===== *)
(** * Texts of words between blanks

    Printable ASCII text read by [strings.Fields] and trimmed by [strings.TrimSpace]:
    the lines of crontabs and of status reports. *)

From Stdlib Require Import Ascii.
From S2P Require Import Prelude GoStrings Codec Shell.

Local Open Scope Z_scope.

(** ** Words between blanks *)
Definition begun (cur : string) : list string := match cur with EmptyString => [] | _ => [rev_string cur] end.
Fixpoint blank_words (cur s : string) : list string :=
  match s with
  | EmptyString => begun cur
  | String c t => if blank c then begun cur ++ blank_words EmptyString t else blank_words (String c cur) t
  end.

(** Printable ASCII and blanks: what separates the fields of such a text are blanks. *)
Definition spaced (c : ascii) : bool := byte_between 33 126 c || blank c.

Lemma space_width_spaced c t : spaced c = true -> space_width (String c t) = if blank c then 1%nat else 0%nat.
Proof.
  intros Hc. assert (H : space1 c = blank c /\ byte_eq 194 c = false /\ byte_eq 225 c = false /\ byte_eq 226 c = false /\ byte_eq 227 c = false).
  { revert Hc. by destruct c as [[] [] [] [] [] [] [] []]. }
  destruct H as (H1 & H2 & H3 & H4 & H5). unfold space_width. rewrite H1. destruct (blank c); [done|].
  destruct t as [|b u]; [done|]. unfold space2. rewrite H2. destruct u as [|d v]; [done|]. unfold space3. by rewrite H3, H4, H5.
Qed.

Lemma fields_blank_words s : all_bytes spaced s = true -> fields s = blank_words EmptyString s.
Proof.
  unfold fields. generalize EmptyString as cur. induction s as [|c s IH]; intros cur; [done|]. intros [Hc Hs]%andb_prop.
  cbn [String.length fields_fuel blank_words]. fold (begun cur). rewrite space_width_spaced by done. destruct (blank c).
  - change (drop_bytes 1 (String c s)) with s. by rewrite <-IH.
  - by rewrite <-IH.
Qed.


Lemma spaced_graphic c : graphic c = true -> spaced c = true.
Proof. unfold spaced, graphic. by intros ->. Qed.
Lemma graphic_not_blank c : graphic c = true -> blank c = false.
Proof. by destruct c as [[] [] [] [] [] [] [] []]. Qed.

Definition word (s : string) : bool := negb (String.eqb s EmptyString) && all_bytes graphic s.
Lemma word_spec s : word s = true <-> s <> EmptyString /\ all_bytes graphic s = true.
Proof. unfold word. by rewrite andb_true_iff, negb_true_iff, String.eqb_neq. Qed.

Lemma blank_words_word w rest cur : all_bytes graphic w = true ->
  blank_words cur (w +:+ rest) = blank_words (rev_string w +:+ cur) rest.
Proof.
  revert cur. induction w as [|c w IH]; intros cur; [done|]. intros [Hc Hw]%andb_prop.
  change (String c w +:+ rest) with (String c (w +:+ rest)). cbn [blank_words]. rewrite (graphic_not_blank c Hc), IH by done.
  by rewrite rev_string_cons, str_app_assoc.
Qed.

Lemma begun_rev w : w <> EmptyString -> begun (rev_string w) = [w].
Proof.
  intros H. destruct (rev_string w) as [|c t] eqn:Hr; cbn [begun]; [|by rewrite <-Hr, rev_string_involutive].
  destruct H. rewrite <-(rev_string_involutive w). by rewrite Hr.
Qed.

Lemma blank_words_one w : word w = true -> blank_words EmptyString w = [w].
Proof.
  intros [Hne Hw]%word_spec. rewrite <-(str_app_nil_r w) at 1. rewrite blank_words_word, str_app_nil_r by done. by apply begun_rev.
Qed.

Lemma blank_words_next w rest : word w = true ->
  blank_words EmptyString (w +:+ String " " rest) = w :: blank_words EmptyString rest.
Proof.
  intros [Hne Hw]%word_spec. rewrite blank_words_word, str_app_nil_r by done. cbn [blank_words].
  change (blank " ") with true. cbn iota. by rewrite begun_rev.
Qed.

(** Words joined by one blank, with text after them. *)
Lemma blank_words_join l rest : Forall (fun w => word w = true) l -> l <> [] ->
  blank_words EmptyString (join " " l +:+ String " " rest) = l ++ blank_words EmptyString rest.
Proof.
  intros Hl Hne. destruct Hl as [|w l Hw Hl]; [done|]. clear Hne. revert w Hw. induction Hl as [|v l Hv _ IH]; intros w Hw.
  - by apply blank_words_next.
  - change (join " " (w :: v :: l)) with (w +:+ String " " (join " " (v :: l))). rewrite str_app_assoc.
    change (String " " ?x +:+ ?y) with (String " " (x +:+ y)). rewrite blank_words_next by done. by rewrite IH.
Qed.
Lemma blank_words_joined l : Forall (fun w => word w = true) l -> blank_words EmptyString (join " " l) = l.
Proof.
  intros Hl. destruct Hl as [|w l Hw Hl]; [done|]. revert w Hw. induction Hl as [|v l Hv _ IH]; intros w Hw.
  - by apply blank_words_one.
  - change (join " " (w :: v :: l)) with (w +:+ String " " (join " " (v :: l))). rewrite blank_words_next by done. by rewrite IH.
Qed.

Lemma blank_words_skip c s : blank c = true -> blank_words EmptyString (String c s) = blank_words EmptyString s.
Proof. cbn [blank_words]. by intros ->. Qed.
Lemma blank_words_blanks b s : all_bytes blank b = true -> blank_words EmptyString (b +:+ s) = blank_words EmptyString s.
Proof.
  induction b as [|c b IH]; [done|]. intros [Hc Hb]%andb_prop. change (String c b +:+ s) with (String c (b +:+ s)).
  by rewrite blank_words_skip, IH.
Qed.
Lemma blank_words_trailing b s cur : all_bytes blank b = true -> blank_words cur (s +:+ b) = blank_words cur s.
Proof.
  intros Hb. revert cur. induction s as [|c s IH]; intros cur.
  - destruct b as [|c b]; [done|]. apply andb_prop in Hb as [Hc Hb]. change (EmptyString +:+ ?x) with x. cbn [blank_words]. rewrite Hc.
    rewrite <-(str_app_nil_r b), blank_words_blanks by done. cbn [blank_words begun]. by rewrite app_nil_r.
  - change (String c s +:+ b) with (String c (s +:+ b)). cbn [blank_words]. by destruct (blank c); rewrite IH.
Qed.

(** ** Trimming *)
Lemma space_width_rev_spaced c t : spaced c = true -> space_width_rev (String c t) = if blank c then 1%nat else 0%nat.
Proof.
  intros Hc. destruct (blank c) eqn:Hb.
  - unfold space_width_rev. assert (space1 c = true) as ->; [|done]. revert Hb. by destruct c as [[] [] [] [] [] [] [] []].
  - unfold spaced in Hc. rewrite Hb, orb_false_r in Hc. by apply graphic_no_space.
Qed.

Lemma trim_rev_spaced fuel s : all_bytes spaced s = true ->
  exists b, s = b +:+ trim_rev_fuel fuel s /\ all_bytes blank b = true.
Proof.
  revert s. induction fuel as [|fuel IH]; intros s Hs; [by exists EmptyString|].
  destruct s as [|c s]; [by exists EmptyString|]. apply andb_prop in Hs as [Hc Hs].
  cbn [trim_rev_fuel]. rewrite space_width_rev_spaced by done. destruct (blank c) eqn:Hb; [|by exists EmptyString].
  destruct (IH s Hs) as (b & Hsb & Hbb). exists (String c b). change (drop_bytes 1 (String c s)) with s. split.
  - change (String c b +:+ ?x) with (String c (b +:+ x)). by rewrite <-Hsb.
  - cbn [all_bytes]. by rewrite Hb.
Qed.

Lemma rev_string_bytes p s : all_bytes p (rev_string s) = all_bytes p s.
Proof.
  induction s as [|c s IH]; [done|]. rewrite rev_string_cons, all_bytes_app, IH. cbn [all_bytes]. rewrite andb_true_r. apply andb_comm.
Qed.

Lemma trim_right_spaced s : all_bytes spaced s = true -> exists b, s = trim_right s +:+ b /\ all_bytes blank b = true.
Proof.
  intros Hs. destruct (trim_rev_spaced (String.length s) (rev_string s)) as (b & Hb & Hbb); [by rewrite rev_string_bytes|].
  exists (rev_string b). rewrite rev_string_bytes. split; [|done]. unfold trim_right. by rewrite <-rev_string_app, <-Hb, rev_string_involutive.
Qed.

(** A text that starts with a graphic byte keeps it; only blanks go at its end. *)
Lemma trim_spaced c t : graphic c = true -> all_bytes spaced t = true ->
  exists a b, trim_space (String c t) = String c a /\ t = a +:+ b /\ all_bytes blank b = true.
Proof.
  intros Hc Ht. assert (Hl : trim_left (String c t) = String c t).
  { unfold trim_left. cbn [String.length trim_left_fuel]. destruct (graphic_no_space c t Hc) as [-> _]. done. }
  unfold trim_space. rewrite Hl. destruct (trim_right_spaced (String c t)) as (b & Hs & Hb).
  { cbn [all_bytes]. by rewrite spaced_graphic, Ht. }
  destruct (trim_right (String c t)) as [|d a].
  - exfalso. change (EmptyString +:+ b) with b in Hs. rewrite <-Hs in Hb. cbn [all_bytes] in Hb.
    by rewrite (graphic_not_blank c Hc) in Hb.
  - injection Hs as <- Hs. by exists a, b.
Qed.

(** A text between graphic bytes stays as it is; a blank after it goes. *)
Lemma trim_word_end a c b : all_bytes spaced a = true -> graphic c = true -> all_bytes blank b = true ->
  trim_right ((a +:+ String c EmptyString) +:+ b) = a +:+ String c EmptyString.
Proof.
  intros Ha Hc Hb. unfold trim_right. rewrite !rev_string_app, str_length_app.
  assert (Hb' : all_bytes blank (rev_string b) = true) by by rewrite rev_string_bytes.
  assert (Hlen : String.length (rev_string b) = String.length b).
  { clear. induction b as [|c b IH]; [done|]. rewrite rev_string_cons, str_length_app, IH. simpl. lia. }
  rewrite Nat.add_comm, <-Hlen. change (rev_string (String c EmptyString)) with (String c EmptyString).
  assert (H : forall d r n, all_bytes blank d = true -> trim_rev_fuel (String.length d + n) (d +:+ String c r) = String c r).
  { clear -Hc. intros d r n. induction d as [|e d IH]; intros Hd.
    - change (EmptyString +:+ ?x) with x. destruct (String.length EmptyString + n)%nat; [done|]. cbn [trim_rev_fuel].
      by destruct (graphic_no_space c r Hc) as [_ ->].
    - apply andb_prop in Hd as [He Hd]. change (String e d +:+ ?x) with (String e (d +:+ x)). cbn [String.length Nat.add trim_rev_fuel].
      rewrite space_width_rev_spaced by (unfold spaced; by rewrite He, orb_true_r). rewrite He. by apply IH. }
  change (String c EmptyString +:+ rev_string a) with (String c (rev_string a)). rewrite H by done.
  by rewrite rev_string_cons, rev_string_involutive.
Qed.

Lemma trim_left_graphic c t : graphic c = true -> trim_left (String c t) = String c t.
Proof. intros Hc. unfold trim_left. cbn [String.length trim_left_fuel]. by destruct (graphic_no_space c t Hc) as [-> _]. Qed.

Lemma fields_trimmed c t : graphic c = true -> all_bytes spaced t = true ->
  fields (trim_space (String c t)) = blank_words EmptyString (String c t).
Proof.
  intros Hc Ht. destruct (trim_spaced c t Hc Ht) as (a & b & -> & -> & Hb). rewrite all_bytes_app in Ht. apply andb_prop in Ht as [Ha _].
  rewrite fields_blank_words by (cbn [all_bytes]; by rewrite spaced_graphic, Ha).
  change (String c (a +:+ b)) with (String c a +:+ b). by rewrite blank_words_trailing.
Qed.
