(* ===== verification/SiteFs.v ===== *)
(** * Paths inside a site

    [internal/platform/operators/sitefs/sitefs.go]: the scope of a site as the control
    panel sends it, and the normalisation of the paths a client names below it. *)

From Stdlib Require Import Ascii.
From S2P Require Import Prelude GoStrings Paths Regex Naming Sites SiteChecks SiteProps.

Local Open Scope Z_scope.

(** ** Scopes *)
Record Scope := mk_scope { sc_SiteID : string; sc_Slug : string; sc_RootPath : string; sc_UnixUser : string }.

Definition Validate (scope : Scope) (siteRoot : string) : error :=
  fail_if (String.eqb (sc_SiteID scope) EmptyString) "site scope requires a site ID" ;;;
  fail_if (negb (ValidSiteSlug (sc_Slug scope))) "site scope slug is not a managed site slug" ;;;
  fail_if (negb (String.eqb (sc_RootPath scope) (filepath_join [siteRoot; sc_Slug scope])))
    "site scope root path does not match the managed site layout" ;;;
  fail_if (negb (String.eqb (sc_UnixUser scope) (SiteUnixUser (sc_Slug scope))))
    "site scope unix user does not match the managed site layout".

(** ** Paths below the root of a site *)
Definition CleanRelative (raw : string) : result string string :=
  if any_byte (byte_eq 0) raw then Err "path must not contain NUL bytes"%string
  else if String.eqb raw EmptyString || String.eqb raw "/" then Ok "."%string
  else if has_prefix "/" raw then Err "path must be relative to the site root"%string
  else let cleaned := path_clean raw in
       if String.eqb cleaned ".." || has_prefix "../" cleaned then Err "path must stay within the site root"%string
       else Ok cleaned.

(** ** What they mean

    Walking a path from the root of a site, one component at a time; a walk that would
    leave the root, if only for a moment, has no end. *)
Fixpoint walk (at_ : list string) (comps : list string) : option (list string) :=
  match comps with
  | [] => Some at_
  | c :: rest =>
      if String.eqb c EmptyString || String.eqb c "." then walk at_ rest
      else if String.eqb c ".." then match at_ with _ :: up => walk up rest | [] => None end
      else walk (c :: at_) rest
  end.
Definition location (at_ : list string) : string := match at_ with [] => "." | _ => join "/" (rev at_) end.

Lemma hex_no_slash s : all_bytes is_hex_lower s = true -> any_byte (Ascii.eqb slash) s = false.
Proof. intros Hs. apply any_byte_false. eapply all_bytes_impl; [|exact Hs]. apply forall_ascii. by vm_compute. Qed.

Lemma eqb_bool_decide (a b : string) : String.eqb a b = bool_decide (a = b).
Proof. destruct (String.eqb_spec a b); [by rewrite bool_decide_eq_true_2|by rewrite bool_decide_eq_false_2]. Qed.

Lemma walk_plain comps : forall at_ final, Forall (fun x => any_byte (Ascii.eqb slash) x = false) comps ->
  Forall plain at_ -> walk at_ comps = Some final -> Forall plain final /\ clean_components false at_ comps = rev final.
Proof.
  induction comps as [|c comps IH]; intros at_ final Hc Hp; cbn [walk clean_components]; [by intros [= ->]|].
  apply Forall_cons in Hc as [Hs Hc]. rewrite !eqb_bool_decide.
  destruct (_ || _) eqn:Hskip; [by apply IH|]. apply orb_false_iff in Hskip as [?%bool_decide_eq_false ?%bool_decide_eq_false].
  case_bool_decide as Hu.
  - destruct Hp as [|top up (_ & _ & Ht & _) Hp]; [done|]. rewrite bool_decide_eq_false_2 by done. by apply IH.
  - apply IH; [done|]. by constructor.
Qed.

(** A walk that leaves the root: the cleaned path starts with two dots. *)
Lemma clean_components_climbs comps : forall low, exists t, clean_components false (low ++ [".."%string]) comps = ".."%string :: t.
Proof.
  induction comps as [|c comps IH]; intros low; cbn [clean_components]; [rewrite rev_app_distr; by eexists|].
  destruct (_ || _); [by apply IH|]. destruct (bool_decide (c = ".."%string)); [|by apply (IH (c :: low))].
  destruct low as [|top low]; [by apply (IH [c])|]. cbn [app]. destruct (bool_decide _); [by apply (IH (c :: top :: low))|by apply IH].
Qed.

Lemma walk_climbs comps : forall at_, Forall plain at_ -> Forall (fun x => any_byte (Ascii.eqb slash) x = false) comps ->
  walk at_ comps = None -> exists t, clean_components false at_ comps = ".."%string :: t.
Proof.
  induction comps as [|c comps IH]; intros at_ Hp Hc; cbn [walk clean_components]; [done|].
  apply Forall_cons in Hc as [Hs Hc]. rewrite !eqb_bool_decide.
  destruct (_ || _) eqn:Hskip; [by apply IH|]. apply orb_false_iff in Hskip as [?%bool_decide_eq_false ?%bool_decide_eq_false].
  case_bool_decide as Hu.
  - destruct Hp as [|top up (_ & _ & Ht & _) Hp]; [intros _; subst c; by apply (clean_components_climbs comps [])|].
    rewrite bool_decide_eq_false_2 by done. by apply IH.
  - apply IH; [|done]. by constructor.
Qed.

(** ** Paths as the agent uses them *)
Lemma join_up_first t : String.eqb (join "/" (".."%string :: t)) ".." || has_prefix "../" (join "/" (".."%string :: t)) = true.
Proof. destruct t as [|a t]; [done|]. apply orb_true_iff. right. apply has_prefix_spec. by exists (join "/" (a :: t)). Qed.

Lemma join_plain_first l : l <> [] -> Forall plain l ->
  String.eqb (join "/" l) ".." || has_prefix "../" (join "/" l) = false /\ join "/" l <> EmptyString.
Proof.
  intros Hne Hl. pose proof (plain_join_contained l Hne Hl) as Hsp. split; [|intros He; rewrite He in Hsp; simpl in Hsp; by subst; inversion Hl as [|x y (?&_)]].
  apply orb_false_iff. split.
  - apply String.eqb_neq. intros He. rewrite He in Hsp. simpl in Hsp. subst l. by inversion Hl as [|x y (_&_&?&_)].
  - apply not_true_iff_false. intros (t & Ht)%has_prefix_spec. rewrite Ht in Hsp.
    change ("../" +:+ t) with (".." +:+ String slash t) in Hsp. rewrite split_app_any in Hsp. subst l. simpl in Hl.
    by inversion Hl as [|x y (_&_&?&_)].
Qed.

Lemma join_dot l : Forall plain l -> filepath_join [abs l; "."%string] = abs l.
Proof.
  intros Hl. destruct (split_join_plain l Hl) as [H1 H2]. rewrite filepath_join_cons by done.
  change (join "/" [abs l; "."%string]) with (String slash (join "/" l +:+ String slash ".")).
  rewrite path_clean_rooted, split_app_any. f_equal.
  assert (Hc : forall comps stack, Forall plain_or_empty comps ->
    clean_components true stack (comps ++ split slash ".") = clean_components true stack comps).
  { induction comps as [|c comps IH]; intros stack Hf; [done|]. apply Forall_cons in Hf as [_ Hf]. cbn [app clean_components].
    repeat case_match; by apply IH. }
  rewrite Hc, clean_components_plain, H2 by done. done.
Qed.

Lemma join_location l final : Forall plain l -> Forall plain final ->
  filepath_join [abs l; location final] = abs (l ++ rev final).
Proof.
  intros Hl Hf. destruct final as [|c final]; [by rewrite app_nil_r; apply join_dot|].
  apply join_abs_relative; [done|by apply Forall_rev|]. by intros ?%(f_equal length); rewrite length_rev in *.
Qed.

Definition clean_by_walking (raw : string) : result string string :=
  if any_byte (byte_eq 0) raw then Err "path must not contain NUL bytes"%string
  else if has_prefix "/" raw && negb (String.eqb raw "/") then Err "path must be relative to the site root"%string
  else match walk [] (split slash raw) with
       | Some final => Ok (location final)
       | None => Err "path must stay within the site root"%string
       end.

Lemma clean_relative_walks raw : CleanRelative raw = clean_by_walking raw.
Proof.
  assert (Hno : Forall (fun x => any_byte (Ascii.eqb slash) x = false) (split slash raw)) by apply split_no_slash.
  unfold CleanRelative, clean_by_walking. destruct (any_byte _ raw); [done|].
  destruct (String.eqb_spec raw EmptyString) as [->|Hne]; [done|]. destruct (String.eqb_spec raw "/") as [->|Hs]; [done|]. cbn [orb negb].
  rewrite andb_true_r. destruct (has_prefix "/" raw) eqn:Hp; [done|]. unfold path_clean. rewrite Hp.
  destruct (walk [] (split slash raw)) as [final|] eqn:Hw.
  - apply walk_plain in Hw as [Hf ->]; [|done..]. unfold location. destruct final as [|c final]; [done|].
    destruct (join_plain_first (rev (c :: final))) as [H1 H2]; [by intros ?%(f_equal length); rewrite length_rev in *|by apply Forall_rev|].
    by rewrite bool_decide_eq_false_2, H1.
  - apply walk_climbs in Hw as [t ->]; [|done..]. pose proof (join_up_first t) as H.
    rewrite bool_decide_eq_false_2 by (by destruct t). by rewrite H.
Qed.

Lemma validated_scope scope siteRoot l : Validate scope siteRoot = Ok tt -> path_clean siteRoot = abs l -> Forall plain l ->
  sc_SiteID scope <> EmptyString /\ ValidSiteSlug (sc_Slug scope) = true /\ plain (sc_Slug scope) /\
  sc_RootPath scope = abs (l ++ [sc_Slug scope]) /\ sc_UnixUser scope = SiteUnixUser (sc_Slug scope).
Proof.
  unfold Validate. rewrite !seq_ok, !fail_if_ok, !negb_false_iff, !String.eqb_eq, String.eqb_neq. intros (? & Hs & -> & ->) Hr Hl.
  pose proof (slug_plain _ Hs). split_and!; try done. apply (join_clean _ l); [done|done|by apply Forall_singleton].
Qed.

(** [CleanRelative] walks, and stays inside the site.  A path without a NUL byte that
    is not absolute (the empty path and ["/"] stand for the root) is accepted exactly when
    the walk along its components, from the root of the site, never leaves the root; the
    result names the place the walk ends at, as plain components joined by slashes, or
    ["."] for the root itself.  Joined to the root directory of a scope that passed
    [Validate], it is the path of that place: a path below the site's own directory. *)
Theorem sitefs_clean_relative_walks scope siteRoot l raw :
  path_clean siteRoot = abs l -> Forall plain l -> Validate scope siteRoot = Ok tt ->
  CleanRelative raw = clean_by_walking raw /\
  forall path, CleanRelative raw = Ok path -> exists final, walk [] (split slash raw) = Some final /\ path = location final /\
    filepath_join [sc_RootPath scope; path] = abs (l ++ [sc_Slug scope] ++ rev final) /\ Forall plain final.
Proof.
  intros Hr Hl Hv. split; [apply clean_relative_walks|]. intros path. rewrite clean_relative_walks. unfold clean_by_walking.
  destruct (any_byte _ raw); [done|]. destruct (_ && _); [done|]. destruct (walk [] _) as [final|] eqn:Hw; [|done].
  assert (Hf : Forall plain final) by (apply walk_plain in Hw as [? _]; [done|apply split_no_slash|done]).
  intros H. assert (path = location final) as -> by congruence.
  destruct (validated_scope scope siteRoot l Hv Hr Hl) as (_ & _ & Hs & -> & _). exists final. split_and!; try done.
  rewrite join_location, <-(assoc_L (++)); [done| |done]. apply Forall_app. split; [done|by apply Forall_singleton].
Qed.

Definition demo_scope : Scope := mk_scope "site-1" "demo-site" "/srv/nexa/sites/demo-site" "nexa_demo_site".
Lemma sitefs_clean_relative_walks_witness :
  filepath_join [sc_RootPath demo_scope; "logs/tasks"]%string = "/srv/nexa/sites/demo-site/logs/tasks"%string /\
  CleanRelative "public/../../other-site/x" = Err "path must stay within the site root"%string.
Proof.
  assert (Hp : Forall plain ["srv"; "nexa"; "sites"]%string) by (repeat (constructor; [by split_and!|]); constructor).
  destruct (sitefs_clean_relative_walks demo_scope "/srv/nexa/sites" ["srv"; "nexa"; "sites"]%string "public/.././logs//tasks"
    eq_refl Hp eq_refl) as [_ H]. destruct (H "logs/tasks"%string eq_refl) as (final & Hw & _ & -> & _). split; [|reflexivity].
  change (Some ["tasks"; "logs"]%string = Some final) in Hw. by assert (final = ["tasks"; "logs"]%string) as -> by congruence.
Defined.
