(* ===== verification/Schedules.v ===== *)
(** * Scheduled commands of a site

    [internal/platform/operators/schedules/schedules.go] and [render.go]: the checks of a
    task, and the two files of a task, its wrapper script and its crontab. *)

From Stdlib Require Import Ascii.
From S2P Require Import Prelude GoStrings Regex Naming Sites SiteFs.

Local Open Scope Z_scope.

(** ** Tasks, artifacts and plans *)
Record Task := mk_task {
  t_ID : string;
  t_Name : string;
  CronExpression : string;
  t_Command : string;
  TimeoutSeconds : Z;
  t_Enabled : bool;
  t_Scope : Scope;
}.

Record Artifact := mk_artifact {
  a_Path : string;
  a_Mode : Z;
  a_Content : string;
  a_Owner : string;
  a_Group : string;
  a_Remove : bool;
}.
#[export] Instance Artifact_eq_dec : EqDecision Artifact.
Proof. solve_decision. Defined.

Definition PlanKind : string := "nexa.schedule.change.v1".
Definition RunsMaxRecords : Z := 200.
Definition NameMaxLength : Z := 64.
Definition CommandMaxLength : Z := 2048.
Definition TimeoutMinSeconds : Z := 10.
Definition TimeoutMaxSeconds : Z := 86400.

(** ** Errors: a code and a message *)
Definition CodeInvalid : string := "schedule_invalid".
Definition CodeNotFound : string := "schedule_not_found".
Definition CodeConflict : string := "schedule_conflict".
Record OperationError := mk_operation_error { oe_Code : string; oe_Message : string }.
Definition invalid (message : string) : OperationError := mk_operation_error CodeInvalid message.
Definition notFound (message : string) : OperationError := mk_operation_error CodeNotFound message.
Definition conflict (message : string) : OperationError := mk_operation_error CodeConflict message.
Definition StatusFor (code : string) : Z :=
  if String.eqb code CodeInvalid then 422 else if String.eqb code CodeNotFound then 404
  else if String.eqb code CodeConflict then 409 else 500.

Definition outcome := result OperationError unit.
Definition refuse_if (b : bool) (message : string) : outcome := if b then Err (invalid message) else Ok tt.
Definition and_then (c k : outcome) : outcome := match c with Ok _ => k | Err e => Err e end.

(** ** Checks *)

(** [^[a-f0-9]{32}$] *)
Definition taskIDPattern : regex := between 32 32 (Class is_hex_lower).

Section unicode.
(** [unicode.IsPrint] of a character that is not ASCII, given by its encoding; an
    invalid byte is seen as U+FFFD, which is printable. *)
Context (is_print : string -> bool).

Definition printable (r : string * bool) : bool :=
  match r with
  | (String c EmptyString, true) => byte_between 32 126 c
  | (s, true) => is_print s
  | (_, false) => true
  end.

Definition ValidateName (name : string) : outcome :=
  if String.eqb name EmptyString || (NameMaxLength <? Z.of_nat (length (runes name)))
  then Err (invalid "The task name must contain 1-64 characters.")
  else refuse_if (negb (forallb printable (runes name))) "The task name may only contain printable characters.".

Definition return_byte : ascii := "013".
Definition ValidateCommand (command : string) : outcome :=
  if String.eqb command EmptyString || (CommandMaxLength <? len command)
  then Err (invalid "The task command must contain 1-2048 characters.")
  else refuse_if (any_byte (fun c => byte_eq 0 c || Ascii.eqb return_byte c || Ascii.eqb newline c) command)
         "The task command must be a single line without control characters.".

Definition ValidateTimeout (seconds : Z) : outcome :=
  refuse_if ((seconds <? TimeoutMinSeconds) || (TimeoutMaxSeconds <? seconds))
    "The task timeout must be between 10 and 86400 seconds.".

Definition cronBounds : list (string * Z * Z) :=
  [("minute"%string, 0, 59); ("hour"%string, 0, 23); ("day of month"%string, 1, 31); ("month"%string, 1, 12); ("day of week"%string, 0, 7)].

Definition cronNumber (value : string) : option Z :=
  if String.eqb value EmptyString || negb (all_bytes is_digit value) then None else atoi value.

Definition parseCronNumber (value : string) (lo hi : Z) : result string Z :=
  match cronNumber value with
  | None => Err "values must be plain numbers (names like @daily or MON are not supported)"%string
  | Some parsed =>
      if (parsed <? lo) || (hi <? parsed) then Err ("values must be between " +:+ itoa lo +:+ " and " +:+ itoa hi) else Ok parsed
  end.

Definition validate_value (value : string) (hasStep : bool) (lo hi : Z) : error :=
  if String.eqb value "*" then Ok tt
  else match cut "-" value with
       | Some (low, high) =>
           from ← parseCronNumber low lo hi;
           to ← parseCronNumber high lo hi;
           fail_if (to <? from) "a range must run from low to high"
       | None =>
           _ ← parseCronNumber value lo hi;
           fail_if hasStep "steps are only allowed on * and ranges"
       end.
Definition validateCronItem (item : string) (lo hi : Z) : error :=
  match cut "/" item with
  | Some (value, step) =>
      fail_if (match cronNumber step with Some parsed => (parsed <? 1) || (hi <? parsed) | None => true end)
        ("a step must be a number between 1 and " +:+ itoa hi) ;;;
      validate_value value true lo hi
  | None => validate_value item false lo hi
  end.

Fixpoint validate_cron_items (name : string) (lo hi : Z) (items : list string) : outcome :=
  match items with
  | [] => Ok tt
  | item :: rest =>
      match validateCronItem item lo hi with
      | Ok _ => validate_cron_items name lo hi rest
      | Err e => Err (invalid ("The cron " +:+ name +:+ " field is invalid: " +:+ e +:+ "."))
      end
  end.
Fixpoint validate_cron_fields (bounds : list (string * Z * Z)) (l : list string) : outcome :=
  match bounds, l with
  | (name, lo, hi) :: bounds, field :: l => and_then (validate_cron_items name lo hi (split "," field)) (validate_cron_fields bounds l)
  | _, _ => Ok tt
  end.
Definition ValidateCron (expression : string) : outcome :=
  let fs := fields expression in
  if negb (length fs =? 5)%nat
  then Err (invalid "The cron expression must contain exactly five fields (minute, hour, day of month, month, day of week).")
  else validate_cron_fields cronBounds fs.

Definition validateTask (task : Task) (siteRoot : string) : outcome :=
  and_then (refuse_if (negb (matches taskIDPattern (t_ID task))) "The task identifier is not a managed task identifier.")
  (and_then (match Validate (t_Scope task) siteRoot with
             | Ok _ => Ok tt
             | Err e => Err (invalid ("The site scope is invalid: " +:+ e +:+ "."))
             end)
  (and_then (ValidateName (t_Name task))
  (and_then (ValidateCommand (t_Command task))
  (and_then (ValidateTimeout (TimeoutSeconds task)) (ValidateCron (CronExpression task)))))).

(** ** Rendering *)
Record Renderer := mk_renderer { SiteRoot : string; TaskScriptRoot : string; CronRoot : string }.
Definition siteRoot (r : Renderer) : string := or_default (SiteRoot r) "/srv/nexa/sites".
Definition taskScriptRoot (r : Renderer) : string := or_default (TaskScriptRoot r) "/etc/nexa-panel/generated/tasks".
Definition cronRoot (r : Renderer) : string := or_default (CronRoot r) "/etc/cron.d".

Definition wrapperPath (r : Renderer) (task : Task) : string := filepath_join [taskScriptRoot r; "nexa-task-" +:+ t_ID task +:+ ".sh"].
Definition cronPath (r : Renderer) (task : Task) : string := filepath_join [cronRoot r; "nexa-task-" +:+ t_ID task].

Definition quote : string := String double_quote EmptyString.

(** The script, line by line; [q] in a line stands for a double quote. *)
Definition wrapperLines : list string :=
  let q := quote in
  ["#!/bin/sh"%string;
   "# Managed by Nexa Panel. Task <name> (<id>) for site <slug>. Runs as <unixuser>."%string;
   "set -u"%string;
   "TRIGGER=" +:+ q +:+ "${1:-manual}" +:+ q;
   "ROOT='<root>'"%string;
   "LOG=" +:+ q +:+ "$ROOT/logs/tasks/<id>.log" +:+ q;
   "RUNS=" +:+ q +:+ "$ROOT/logs/tasks/<id>.runs" +:+ q;
   "mkdir -p " +:+ q +:+ "$ROOT/logs/tasks" +:+ q +:+ " || exit 111";
   "exec 9>>" +:+ q +:+ "$ROOT/tmp/.nexa-task-<id>.lock" +:+ q +:+ " || exit 111";
   "if ! flock -n 9; then"%string;
   "  printf '%s\t0\tskipped-overlap\t%s\n' " +:+ q +:+ "$(date -u +%Y-%m-%dT%H:%M:%SZ)" +:+ q +:+ " " +:+ q +:+ "$TRIGGER" +:+ q +:+
     " >>" +:+ q +:+ "$RUNS" +:+ q;
   "  exit 0"%string;
   "fi"%string;
   "START_ISO=" +:+ q +:+ "$(date -u +%Y-%m-%dT%H:%M:%SZ)" +:+ q +:+ "; START_S=" +:+ q +:+ "$(date +%s)" +:+ q;
   "cd " +:+ q +:+ "$ROOT" +:+ q +:+ " || exit 111";
   "timeout -k 10 <timeout>s /bin/sh -c '<escaped command>' >>" +:+ q +:+ "$LOG" +:+ q +:+ " 2>&1";
   "CODE=$?"%string;
   "printf '%s\t%s\t%s\t%s\n' " +:+ q +:+ "$START_ISO" +:+ q +:+ " " +:+ q +:+ "$(( $(date +%s) - START_S ))" +:+ q +:+ " " +:+ q +:+
     "$CODE" +:+ q +:+ " " +:+ q +:+ "$TRIGGER" +:+ q +:+ " >>" +:+ q +:+ "$RUNS" +:+ q;
   "tail -c 262144 " +:+ q +:+ "$LOG" +:+ q +:+ " >" +:+ q +:+ "$LOG.trim" +:+ q +:+ " 2>/dev/null && mv " +:+ q +:+ "$LOG.trim" +:+ q +:+
     " " +:+ q +:+ "$LOG" +:+ q;
   "tail -n 200 " +:+ q +:+ "$RUNS" +:+ q +:+ " >" +:+ q +:+ "$RUNS.trim" +:+ q +:+ " 2>/dev/null && mv " +:+ q +:+ "$RUNS.trim" +:+ q +:+
     " " +:+ q +:+ "$RUNS" +:+ q;
   "exit " +:+ q +:+ "$CODE" +:+ q].
Definition wrapperTemplate : string := lines wrapperLines.

(** Single quotes around the command; each of its own is written quote, backslash,
    quote, quote. *)
Definition escaped_command (command : string) : string := replace_byte "'" "'\''" command.

Definition replacements (task : Task) : list (string * string) :=
  [("<name>", t_Name task);
   ("<id>", t_ID task);
   ("<slug>", sc_Slug (t_Scope task));
   ("<unixuser>", sc_UnixUser (t_Scope task));
   ("<root>", sc_RootPath (t_Scope task));
   ("<timeout>", itoa (TimeoutSeconds task));
   ("<escaped command>", escaped_command (t_Command task))]%string.
Definition renderWrapper (task : Task) : string := replacer (replacements task) wrapperTemplate.

Definition renderCron (r : Renderer) (task : Task) : string :=
  lines
    ["# Managed by Nexa Panel. Task " +:+ t_Name task +:+ " (" +:+ t_ID task +:+ ") for site " +:+ sc_Slug (t_Scope task) +:+ ".";
     "SHELL=/bin/sh"%string;
     "PATH=/usr/local/bin:/usr/bin:/bin"%string;
     CronExpression task +:+ " " +:+ sc_UnixUser (t_Scope task) +:+ " " +:+ wrapperPath r task +:+ " cron"].

Definition removal_warning : string :=
  "Applying this plan removes the task's wrapper script and cron entry; its logs are kept under the site's logs/tasks directory.".
Definition disabled_warning : string :=
  "The task is disabled: applying this plan removes its cron entry until it is enabled again.".

(** The artifacts and warnings of a plan. *)
Definition Render (r : Renderer) (task : Task) (removal : bool) : result OperationError (list Artifact * list string) :=
  match validateTask task (siteRoot r) with
  | Err e => Err e
  | Ok _ =>
      let wrapper content remove := mk_artifact (wrapperPath r task) 488 content "root" (sc_UnixUser (t_Scope task)) remove in
      let cron content remove := mk_artifact (cronPath r task) 420 content "root" "root" remove in
      Ok (if removal then ([wrapper EmptyString true; cron EmptyString true], [removal_warning])
          else if t_Enabled task then ([wrapper (renderWrapper task) false; cron (renderCron r task) false], [])
          else ([wrapper (renderWrapper task) false; cron EmptyString true], [disabled_warning]))
  end.
End unicode.
