(* ===== verification/ScheduleCron.v ===== *)
(** * The expression of a scheduled command

    [ValidateCron] against the crontab reader of [Cron]: which expressions it accepts,
    and what an accepted one means. *)

From Stdlib Require Import Ascii.
From S2P Require Import Prelude GoStrings Paths Regex Naming Sites SiteRender SiteChecks SiteProps Cron BackupUnits Shell SiteFs Schedules.

Local Open Scope Z_scope.

(** ** The expressions the panel keeps to

    An item crontab gives a meaning inside the bounds of its field, but for three things
    the panel does without: names, steps that exceed the last value of the field, and
    steps on a single value. *)
Definition stepped_number (item : string) : bool :=
  match cut "/" item with Some (value, _) => all_bytes is_digit value | None => false end.
Definition named (item : string) : bool := any_byte is_alpha item.
Definition kept_item (names : list (string * Z)) (lo hi : Z) (item : string) : bool :=
  match cron_item names lo hi item with
  | Some (_, _, n) => negb (named item) && (n <=? hi) && negb (stepped_number item)
  | None => false
  end.
Definition kept_field (names : list (string * Z)) (lo hi : Z) (field : string) : bool :=
  forallb (kept_item names lo hi) (split "," field).
Definition kept_fields (l : list string) : bool :=
  match l with
  | [mi; h; d; mo; w] =>
      kept_field [] 0 59 mi && kept_field [] 0 23 h && kept_field [] 1 31 d && kept_field month_names 1 12 mo &&
      kept_field day_names 0 7 w
  | _ => false
  end.

(** ** Names *)
Definition alphabetic (names : list (string * Z)) : Prop := forallb (fun p => any_byte is_alpha p.1) names = true.

Lemma lower_alpha s : any_byte is_alpha (lower_ascii s) = any_byte is_alpha s.
Proof.
  induction s as [|c s IH]; [done|]. cbn [lower_ascii any_byte]. rewrite IH. f_equal.
  by destruct c as [[] [] [] [] [] [] [] []].
Qed.

Lemma cron_number_plain names s : alphabetic names -> any_byte is_alpha s = false -> cron_number names s = parse_digits s.
Proof.
  intros Hn Hs. unfold cron_number. destruct (parse_digits s); [done|].
  destruct (List.find _ names) as [p|] eqn:Hf; [|done]. exfalso.
  apply List.find_some in Hf as [Hin Hp]. apply String.eqb_eq in Hp. unfold alphabetic in Hn. rewrite forallb_forall in Hn.
  specialize (Hn p Hin). by rewrite Hp, lower_alpha, Hs in Hn.
Qed.
Lemma cron_number_nil s : cron_number [] s = parse_digits s.
Proof. unfold cron_number. by destruct (parse_digits s). Qed.

Lemma cron_item_plain names lo hi item : alphabetic names -> named item = false -> cron_item names lo hi item = cron_item [] lo hi item.
Proof.
  intros Hn Hs. assert (Hb : forall s, any_byte is_alpha s = false -> cron_base names lo hi s = cron_base [] lo hi s).
  { intros s Ha. unfold cron_base. destruct (String.eqb s "*"); [done|]. destruct (cut "-" s) as [[a b]|] eqn:Hc.
    - apply cut_Some in Hc as [-> _]. change (a +:+ String "-" b) with (a +:+ "-" +:+ b) in Ha. rewrite !any_byte_app in Ha.
      apply orb_false_iff in Ha as [Ha [_ Hb]%orb_false_iff]. by rewrite !(cron_number_plain names), !cron_number_nil.
    - by rewrite (cron_number_plain names), cron_number_nil. }
  unfold cron_item. destruct (cut "/" item) as [[b n]|] eqn:Hc; [|by rewrite Hb]. apply cut_Some in Hc as [-> _].
  unfold named in Hs. rewrite any_byte_app in Hs. apply orb_false_iff in Hs as [Hs _]. by rewrite Hb.
Qed.

(** ** The bytes of an item of numbers *)
Definition item_byte (c : ascii) : bool := is_digit c || one_of "*-/" c.

Lemma digits_item s z : parse_digits s = Some z -> all_bytes item_byte s = true.
Proof. intros [_ H]%parse_digits_digits. eapply all_bytes_impl; [|exact H]. apply forall_ascii. by vm_compute. Qed.

Lemma cron_base_bytes lo hi s b : cron_base [] lo hi s = Some b -> all_bytes item_byte s = true.
Proof.
  unfold cron_base. destruct (String.eqb_spec s "*") as [->|_]; [done|]. destruct (cut "-" s) as [[x y]|] eqn:Hc.
  - apply cut_Some in Hc as [-> _]. rewrite !cron_number_nil. destruct (parse_digits x) eqn:Hx; [|done]. destruct (parse_digits y) eqn:Hy; [|done]. intros _.
    rewrite all_bytes_app. change (all_bytes item_byte (String "-" y)) with (all_bytes item_byte y).
    by rewrite (digits_item x z), (digits_item y z0).
  - rewrite cron_number_nil. destruct (parse_digits s) eqn:Hs; [|done]. intros _. by eapply digits_item.
Qed.

Lemma cron_item_bytes lo hi item p : cron_item [] lo hi item = Some p -> all_bytes item_byte item = true.
Proof.
  unfold cron_item. destruct (cut "/" item) as [[b n]|] eqn:Hc.
  - apply cut_Some in Hc as [-> _]. destruct (cron_base [] lo hi b) as [[[x y] one]|] eqn:Hb; [|done].
    cbn [mbind option_bind]. destruct (parse_digits n) eqn:Hn; [|done]. intros _.
    rewrite all_bytes_app. change (all_bytes item_byte (String "/" n)) with (all_bytes item_byte n).
    by rewrite (cron_base_bytes _ _ _ _ Hb), (digits_item n z).
  - destruct (cron_base [] lo hi item) as [[[x y] one]|] eqn:Hb; [|done]. intros _. by eapply cron_base_bytes.
Qed.

Lemma item_bytes_plain s : all_bytes item_byte s = true -> named s = false.
Proof. intros H. apply any_byte_false. eapply all_bytes_impl; [|exact H]. apply forall_ascii. by vm_compute. Qed.

(** Names make no difference for what is kept. *)
Lemma kept_item_plain names lo hi item : alphabetic names -> kept_item names lo hi item = kept_item [] lo hi item.
Proof.
  intros Hn. unfold kept_item. destruct (named item) eqn:Hs.
  - by destruct (cron_item names lo hi item) as [[[? ?] ?]|], (cron_item [] lo hi item) as [[[? ?] ?]|].
  - by rewrite cron_item_plain.
Qed.

Lemma kept_item_bytes names lo hi item : alphabetic names -> kept_item names lo hi item = true -> all_bytes item_byte item = true.
Proof.
  intros Hn. rewrite kept_item_plain by done. unfold kept_item.
  destruct (cron_item [] lo hi item) as [[[x y] n]|] eqn:Hi; [|done]. intros _. by eapply cron_item_bytes.
Qed.

(** ** Numbers *)
Lemma cronNumber_digits s : cronNumber s =
  match parse_digits s with Some z => if (int64_min <=? z) && (z <=? int64_max) then Some z else None | None => None end.
Proof.
  unfold cronNumber. destruct s as [|c s]; [done|]. change (String.eqb (String c s) EmptyString) with false. cbn [orb].
  destruct (all_bytes is_digit (String c s)) eqn:Hd; cbn [negb].
  - unfold atoi. pose proof Hd as [Hc _]%andb_prop.
    destruct (Ascii.eqb_spec c "-") as [->|_]; [done|]. by destruct (Ascii.eqb_spec c "+") as [->|_].
  - destruct (parse_digits (String c s)) eqn:Hp; [|done]. apply parse_digits_digits in Hp as [_ Hp]. congruence.
Qed.

(** A number between bounds that fit: no overflow is met. *)
Definition small (hi : Z) : Prop := 1 <= hi <= 59.
Lemma cron_number_between s lo hi z : 0 <= lo -> small hi ->
  (cronNumber s = Some z /\ lo <= z <= hi) <-> (parse_digits s = Some z /\ lo <= z <= hi).
Proof.
  intros Hlo Hhi. rewrite cronNumber_digits. unfold small, int64_min, int64_max in *. destruct (parse_digits s) as [v|]; [|done].
  destruct (_ && _) eqn:Hv; [done|]. split; [by intros [? _]|]. intros [[= ->] Hz]. exfalso.
  apply andb_false_iff in Hv as [Hv%Z.leb_gt|Hv%Z.leb_gt]; lia.
Qed.

Lemma parseCronNumber_ok s lo hi z : 0 <= lo -> small hi ->
  parseCronNumber s lo hi = Ok z <-> parse_digits s = Some z /\ lo <= z <= hi.
Proof.
  intros Hlo Hhi. rewrite <-cron_number_between by done. unfold parseCronNumber. destruct (cronNumber s) as [v|]; [|by split; [|intros [? _]]].
  destruct (_ || _) eqn:Hb.
  - split; [done|]. intros [[= ->] Hz]. apply orb_true_iff in Hb as [Hb%Z.ltb_lt|Hb%Z.ltb_lt]; lia.
  - apply orb_false_iff in Hb as [?%Z.ltb_ge ?%Z.ltb_ge]. split; [intros [= ->]; split; [done|lia]|by intros [[= ->] _]].
Qed.

(** ** Items *)
Lemma fail_if_iff b e : fail_if b e = Ok tt <-> b = false.
Proof. apply fail_if_ok. Qed.

Lemma digits_cut c s : is_digit c = false -> all_bytes is_digit s = true -> cut c s = None.
Proof. intros Hc Hs. by apply cut_None, digits_no_byte. Qed.

Lemma value_ok value hasStep lo hi : 0 <= lo -> small hi -> lo <= hi ->
  validate_value value hasStep lo hi = Ok tt <->
  exists x y single, cron_base [] lo hi value = Some (x, y, single) /\ lo <= x /\ x <= y /\ y <= hi /\
    (hasStep = true -> all_bytes is_digit value = false).
Proof.
  intros Hlo Hhi Hle. unfold validate_value, cron_base. rewrite ?cron_number_nil. destruct (String.eqb_spec value "*") as [->|Hstar].
  { split; [intros _; exists lo, hi, false; split_and!; done || lia|done]. }
  destruct (cut "-" value) as [[a b]|] eqn:Hcut; rewrite ?cron_number_nil.
  - assert (Hd : all_bytes is_digit value = false).
    { destruct (all_bytes is_digit value) eqn:Hd; [|done]. by rewrite digits_cut in Hcut. }
    split.
    + intros H. destruct (parseCronNumber a lo hi) as [x|] eqn:Hx; [|done]. destruct (parseCronNumber b lo hi) as [y|] eqn:Hy; [|done].
      apply parseCronNumber_ok in Hx as [-> ?], Hy as [-> ?]; [|done..]. apply fail_if_ok, Z.ltb_ge in H.
      exists x, y, false. split_and!; done || lia.
    + intros (x & y & single & Hb & Hx & Hxy & Hy & _). destruct (parse_digits a) as [x'|] eqn:Ha; [|done].
      destruct (parse_digits b) as [y'|] eqn:Hb'; [|done]. injection Hb as -> -> _.
      rewrite (proj2 (parseCronNumber_ok a lo hi x Hlo Hhi)) by (split; [done|lia]). cbn.
      rewrite (proj2 (parseCronNumber_ok b lo hi y Hlo Hhi)) by (split; [done|lia]). cbn. apply fail_if_ok, Z.ltb_ge. lia.
  - split.
    + intros H. destruct (parseCronNumber value lo hi) as [x|] eqn:Hx; [|done]. apply parseCronNumber_ok in Hx as [-> ?]; [|done..].
      apply fail_if_ok in H as ->. exists x, x, true. split_and!; done || lia.
    + intros (x & y & single & Hb & Hx & Hxy & Hy & Hs). destruct (parse_digits value) as [x'|] eqn:Ha; [|done]. injection Hb as -> -> _.
      rewrite (proj2 (parseCronNumber_ok value lo hi y Hlo Hhi)) by (split; [done|lia]). cbn. apply fail_if_ok.
      apply parse_digits_digits in Ha as [_ Ha]. destruct hasStep; [|done]. by rewrite Hs in Ha.
Qed.

Lemma single_digits lo hi value x y : cron_base [] lo hi value = Some (x, y, true) -> all_bytes is_digit value = true.
Proof.
  unfold cron_base. destruct (String.eqb value "*"); [done|]. destruct (cut "-" value) as [[a b]|]; rewrite !cron_number_nil.
  - by destruct (parse_digits a), (parse_digits b).
  - destruct (parse_digits value) eqn:Hv; [|done]. by apply parse_digits_digits in Hv as [_ ?].
Qed.

Lemma item_numbers item lo hi : 0 <= lo -> small hi -> lo <= hi ->
  validateCronItem item lo hi = Ok tt <->
  exists x y n, cron_item [] lo hi item = Some (x, y, n) /\ n <= hi /\ stepped_number item = false.
Proof.
  intros Hlo Hhi Hle. unfold validateCronItem, cron_item, stepped_number. destruct (cut "/" item) as [[value step]|] eqn:Hcut.
  - rewrite seq_ok, fail_if_ok, value_ok by done.
    assert (Hstep : (match cronNumber step with Some parsed => (parsed <? 1) || (hi <? parsed) | None => true end = false) <->
      exists n, parse_digits step = Some n /\ 1 <= n <= hi).
    { setoid_rewrite <-(cron_number_between step 1 hi); [|lia|done]. destruct (cronNumber step) as [n|]; [|naive_solver].
      rewrite orb_false_iff, !Z.ltb_ge. naive_solver lia. }
    rewrite Hstep. clear Hstep. split.
    + intros [(n & Hn & ?) (x & y & single & Hb & ? & ? & ? & Hs)]. rewrite Hb, Hn. cbn [mbind option_bind].
      destruct single; [apply single_digits in Hb; rewrite Hs in Hb; done|].
      exists x, y, n. rewrite checked_ok by (cbn; lia). split_and!; [done|lia|by apply Hs].
    + destruct (cron_base [] lo hi value) as [[[x y] single]|] eqn:Hb; [|by intros (? & ? & ? & ? & _)]. cbn [mbind option_bind].
      destruct (parse_digits step) as [n|]; [|by intros (? & ? & ? & ? & _)]. cbn [mbind option_bind].
      intros (x' & y' & n' & [He Hw]%checked_inv & Hn & Hd). destruct single; [apply single_digits in Hb; congruence|].
      injection He as -> -> ->. cbn in Hw. split; [exists n'; split; [done|lia]|].
      exists x', y', false. split_and!; done || lia.
  - rewrite value_ok by done. split.
    + intros (x & y & single & -> & ? & ? & ? & _). cbn [mbind option_bind]. exists x, y, 1.
      unfold small in *. rewrite checked_ok by (cbn; lia). split_and!; done || lia.
    + destruct (cron_base [] lo hi item) as [[[x y] single]|]; [|by intros (? & ? & ? & ? & _)]. cbn [mbind option_bind].
      intros (x' & y' & n' & [He Hw]%checked_inv & _). injection He as <- <- <-. cbn in Hw.
      exists x, y, single. split_and!; done || lia.
Qed.

Lemma item_ok names item lo hi : alphabetic names -> 0 <= lo -> small hi -> lo <= hi ->
  validateCronItem item lo hi = Ok tt <-> kept_item names lo hi item = true.
Proof.
  intros Hn Hlo Hhi Hle. rewrite kept_item_plain, item_numbers by done. unfold kept_item.
  destruct (cron_item [] lo hi item) as [[[x y] n]|] eqn:Hi; [|split; [by intros (? & ? & ? & ? & _)|done]].
  rewrite (item_bytes_plain item) by (by eapply cron_item_bytes). cbn [negb andb]. rewrite andb_true_iff, Z.leb_le, negb_true_iff.
  split; [by intros (? & ? & ? & [= -> -> ->] & ?)|]. intros [? ?]. by exists x, y, n.
Qed.

(** ** Fields and expressions *)
Lemma items_ok names name lo hi items : alphabetic names -> 0 <= lo -> small hi -> lo <= hi ->
  validate_cron_items name lo hi items = Ok tt <-> forallb (kept_item names lo hi) items = true.
Proof.
  intros Hn Hlo Hhi Hle. induction items as [|item items IH]; cbn [validate_cron_items forallb]; [done|].
  rewrite andb_true_iff, <-IH, <-item_ok by done. destruct (validateCronItem item lo hi) as [[]|]; naive_solver.
Qed.

Lemma and_then_ok c k : and_then c k = Ok tt <-> c = Ok tt /\ k = Ok tt.
Proof. destruct c as [[]|]; simpl; naive_solver. Qed.

Lemma expression_ok expression : ValidateCron expression = Ok tt <-> kept_fields (fields expression) = true.
Proof.
  unfold ValidateCron. destruct (fields expression) as [|mi [|h [|d [|mo [|w [|more rest]]]]]]; try done.
  cbn [length Nat.eqb negb cronBounds validate_cron_fields kept_fields]. unfold kept_field.
  rewrite !and_then_ok, !andb_true_iff, !(items_ok []) by (done || unfold small; lia).
  rewrite <-(items_ok month_names "month" 1 12), <-(items_ok day_names "day of week" 0 7) by (done || unfold small; lia).
  rewrite !(items_ok []) by (done || unfold small; lia). tauto.
Qed.

(** A kept field reads as a set that holds a value of its range. *)
Lemma kept_field_reads names lo hi field : kept_field names lo hi field = true ->
  exists ps, cron_field names lo hi field = Some ps /\ ps <> [] /\ Forall (well_bounded lo hi) ps.
Proof.
  unfold kept_field, cron_field. pose proof (split_not_nil "," field) as Hne. destruct (split "," field) as [|x l]; [done|]. clear Hne. revert x.
  assert (Hone : forall x, kept_item names lo hi x = true -> exists p, cron_item names lo hi x = Some p /\ well_bounded lo hi p).
  { intros x. unfold kept_item. destruct (cron_item names lo hi x) as [p|] eqn:Hi; [|done]. intros _. exists p. split; [done|].
    revert Hi. unfold cron_item. destruct (cut "/" x) as [[b n]|]; destruct (cron_base names lo hi _) as [[[? ?] ?]|]; try done;
      cbn [mbind option_bind]; [destruct (parse_digits n); [|done]; cbn [mbind option_bind]|]; by intros [<- ?]%checked_inv. }
  induction l as [|y l IH]; intros x; cbn [forallb mapM]; rewrite andb_true_iff; intros [(p & -> & Hp)%Hone Hl].
  - exists [p]. split_and!; [done..|by apply Forall_singleton].
  - apply IH in Hl as (ps & Hps & _ & Hf). exists (p :: ps). cbn [mapM] in Hps. cbn [mbind option_bind]. rewrite Hps. cbn [mret option_ret mbind option_bind].
    split_and!; [done..|by constructor].
Qed.

Lemma kept_selects lo hi ps : ps <> [] -> Forall (well_bounded lo hi) ps -> exists v, lo <= v <= hi /\ selects ps v = true.
Proof.
  intros Hne Hf. destruct Hf as [|[[x y] n] ps (? & ? & ? & ?) _]; [done|]. exists x. split; [lia|].
  unfold selects. cbn. rewrite Z.sub_diag, Zmod_0_l. rewrite !(proj2 (Z.leb_le _ _)) by lia. done.
Qed.

Lemma kept_selects_pair lo hi ps : ps <> [] /\ Forall (well_bounded lo hi) ps -> exists v, lo <= v <= hi /\ selects ps v = true.
Proof. intros [? ?]. by apply kept_selects. Qed.

Lemma cron_items_code name lo hi items e : validate_cron_items name lo hi items = Err e -> oe_Code e = CodeInvalid.
Proof. induction items as [|x l IH]; simpl; [done|]. destruct (validateCronItem x lo hi); [done|]. by intros [= <-]. Qed.
Lemma cron_error_code expression e : ValidateCron expression = Err e -> oe_Code e = CodeInvalid.
Proof.
  unfold ValidateCron. destruct (negb _); [by intros [= <-]|]. generalize cronBounds (fields expression).
  intros bounds. induction bounds as [|[[name lo] hi] bounds IH]; intros [|f l]; simpl; try done.
  destruct (validate_cron_items name lo hi (split "," f)) eqn:Hi; simpl; [by apply IH|]. intros [= <-]. by eapply cron_items_code.
Qed.

(** Some day an expression selects exists: both day fields are restricted, so that a day
    of the week is enough, or a day of the month is not beyond the longest the month has. *)
Definition has_date (l : list string) : Prop :=
  match l with
  | [_; _; d; mo; w] =>
      (starred d = false /\ starred w = false) \/
      exists ds ms day month, cron_field [] 1 31 d = Some ds /\ cron_field month_names 1 12 mo = Some ms /\
        selects ds day = true /\ selects ms month = true /\ day <= longest_month month
  | _ => False
  end.

Lemma kept_expression l : kept_fields l = true ->
  (forall t, is_Some (cron_selects l t)) /\
  (has_date l <-> exists t, real_moment t /\ cron_selects l t = Some true).
Proof.
  destruct l as [|mi [|h [|d [|mo [|w [|more rest]]]]]]; try done. cbn [kept_fields has_date]. rewrite !andb_true_iff.
  intros ((((Hmi & Hh) & Hd) & Hmo) & Hw).
  apply kept_field_reads in Hmi as (pmi & Hmi & (vmi & ? & Smi)%kept_selects_pair), Hh as (ph & Hh & (vh & ? & Sh)%kept_selects_pair),
    Hd as (pd & Hd & Bd), Hmo as (pmo & Hmo & Bmo), Hw as (pw & Hw & (vw & ? & Sw)%kept_selects_pair).
  unfold cron_selects. rewrite Hmi, Hh, Hd, Hmo, Hw. cbn [mbind option_bind]. split; [by eexists|]. split.
  - intros Hdate. assert (exists day month, 1 <= month <= 12 /\ 1 <= day <= longest_month month /\ selects pmo month = true /\
      (selects pd day = true \/ starred d || starred w = false)) as (day & month & Hm & Hday & Smo & Sd).
    { destruct Hdate as [[-> ->]|(ds & ms & day & month & [= <-] & [= <-] & Sd & Sm & Hlong)].
      - destruct (kept_selects_pair 1 12 pmo Bmo) as (vmo & ? & Smo). assert (1 <= longest_month vmo) by (unfold longest_month; repeat case_match; lia).
        exists 1, vmo. split_and!; first [by right | done | lia].
      - exists day, month. pose proof (selects_bounded 1 12 pmo month (proj2 Bmo) Sm).
        pose proof (selects_bounded 1 31 pd day (proj2 Bd) Sd). split_and!; done || lia || by left. }
    set (wd := if vw =? 7 then 0 else vw).
    assert (Hwd : 0 <= wd <= 6) by (unfold wd; destruct (Z.eqb_spec vw 7); lia).
    destruct (every_date month day wd Hm Hday Hwd) as (year & Hy).
    exists (mk_moment vmi vh day month wd). split.
    + split; [|by exists year]. unfold in_range. cbn [at_minute at_hour at_day at_month at_weekday].
      assert (day <= 31) by (destruct Hday as [_ Hday]; revert Hday; unfold longest_month; repeat case_match; lia).
      unfold wd. destruct (Z.eqb_spec vw 7); lia.
    + cbn [at_minute at_hour at_day at_month at_weekday]. rewrite Smi, Sh, Smo.
      assert (selects pw wd || (wd =? 0) && selects pw 7 = true) as ->.
      { unfold wd. destruct (Z.eqb_spec vw 7) as [->|_]; [rewrite Sw; apply orb_true_r|by rewrite Sw]. }
      destruct Sd as [-> | ->]; [by destruct (_ || _)|]. by rewrite orb_true_r.
  - intros (t & [_ (year & _ & Hlen & _)] & [= Ht]). rewrite !andb_true_iff in Ht. destruct Ht as [[_ Smo] Hday].
    destruct (starred d || starred w) eqn:Hst; [right|left; by apply orb_false_iff in Hst].
    apply andb_prop in Hday as [Sd _]. exists pd, pmo, (at_day t), (at_month t). split_and!; [done..|].
    etrans; [exact Hlen|apply month_length_longest].
Qed.

(** C27. [ValidateCron] accepts exactly the expressions of five fields, separated by any
    white space, whose items crontab(5) gives a meaning inside the bounds of their field,
    save those with a name of a month or a day, with a step above the last value of the
    field or with a step on a single value; anything else is refused as invalid.  An
    accepted expression has a meaning at every moment, and it selects a moment of some
    year exactly when both day fields are restricted or a selected month can have a
    selected day: a job is never installed with a schedule cron cannot read, but one for
    the 31st of February is, and never runs. *)
Theorem schedule_expression_exact expression :
  match ValidateCron expression with
  | Ok _ => kept_fields (fields expression) = true /\
            (forall t, is_Some (cron_selects (fields expression) t)) /\
            (has_date (fields expression) <-> exists t, real_moment t /\ cron_selects (fields expression) t = Some true)
  | Err e => kept_fields (fields expression) = false /\ oe_Code e = CodeInvalid
  end.
Proof.
  pose proof (expression_ok expression) as H. destruct (ValidateCron expression) as [[]|e] eqn:He.
  - assert (Hk : kept_fields (fields expression) = true) by by apply H. split; [done|by apply kept_expression].
  - split; [apply not_true_iff_false; intros Hk; by apply H in Hk|by eapply cron_error_code].
Qed.

(** The 31st of February is accepted and never comes; a name and a large step are refused
    although crontab reads them; a newline between fields is accepted. *)
Lemma schedule_expression_edges :
  ValidateCron "0 0 31 2 *" = Ok tt /\ ~ has_date (fields "0 0 31 2 *") /\
  (exists e, ValidateCron "0 0 * JAN-mar mon" = Err e) /\ is_Some (cron_selects (fields "0 0 * JAN-mar mon") (mk_moment 0 0 1 1 1)) /\
  (exists e, ValidateCron "*/90 0 * * *" = Err e) /\ is_Some (cron_selects (fields "*/90 0 * * *") (mk_moment 0 0 1 1 1)) /\
  ValidateCron ("0 0 * *" +:+ (String newline EmptyString) +:+ "*") = Ok tt.
Proof.
  split_and!; try (by vm_compute); try (by eexists; vm_compute).
  intros [[_ H]|(ds & ms & day & month & [= <-] & [= <-] & Hd & Hm & Hl)]; [done|].
  apply selects_bounded with (lo := 31) (hi := 31) in Hd; [|by repeat constructor].
  apply selects_bounded with (lo := 2) (hi := 2) in Hm; [|by repeat constructor].
  assert (day = 31) as -> by lia. assert (month = 2) as -> by lia. by apply Hl.
Qed.

(** ** The files of a scheduled command

    What /bin/sh finds in a rendered wrapper script, by the reader of [Shell], and what
    cron finds in a rendered crontab, by the reader below. *)
(** ** The lines of the script *)
Definition script_lines (task : Task) : list string :=
  let q := quote in
  let id := t_ID task in
  ["#!/bin/sh"%string;
   "# Managed by Nexa Panel. Task " +:+ t_Name task +:+ " (" +:+ id +:+ ") for site " +:+ sc_Slug (t_Scope task) +:+
     ". Runs as " +:+ sc_UnixUser (t_Scope task) +:+ ".";
   "set -u"%string;
   "TRIGGER=" +:+ q +:+ "${1:-manual}" +:+ q;
   "ROOT='" +:+ sc_RootPath (t_Scope task) +:+ "'";
   "LOG=" +:+ q +:+ "$ROOT/logs/tasks/" +:+ id +:+ ".log" +:+ q;
   "RUNS=" +:+ q +:+ "$ROOT/logs/tasks/" +:+ id +:+ ".runs" +:+ q;
   "mkdir -p " +:+ q +:+ "$ROOT/logs/tasks" +:+ q +:+ " || exit 111";
   "exec 9>>" +:+ q +:+ "$ROOT/tmp/.nexa-task-" +:+ id +:+ ".lock" +:+ q +:+ " || exit 111"] ++
  (drop 9 (take 15 wrapperLines)) ++
  ["timeout -k 10 " +:+ itoa (TimeoutSeconds task) +:+ "s /bin/sh -c '" +:+ escaped_command (t_Command task) +:+ "' >>" +:+ q +:+ "$LOG" +:+ q +:+ " 2>&1"] ++
  drop 16 wrapperLines.

Lemma render_wrapper_lines task : renderWrapper task = lines (script_lines task).
Proof.
  unfold script_lines, lines, line, quote. cbn [drop take wrapperLines app fmap list_fmap].
  cbn [String.concat]. rewrite !str_app_assoc. reflexivity.
Qed.

(** ** What the shell finds *)
Definition word (s : string) : sh_token := Sh_word (openly s).
Definition literal_word (s : string) : sh_token := Sh_word (literally s).
#[local] Arguments word _%_string.
#[local] Arguments literal_word _%_string.
#[local] Arguments Sh_op _%_char.
Definition or_exit : list sh_token := [Sh_op "|"; Sh_op "|"; word "exit"; word "111"].
Definition append_to (file : string) : list sh_token := [Sh_op ">"; Sh_op ">"; word file].
#[local] Arguments append_to _%_string.
Definition trim_file (flag bound file : string) : list sh_token :=
  [word "tail"; word flag; word bound; word file; Sh_op ">"; word (file +:+ ".trim"); word "2"; Sh_op ">"; word "/dev/null";
   Sh_op "&"; Sh_op "&"; word "mv"; word (file +:+ ".trim"); word file].

#[local] Arguments trim_file (_ _ _)%_string.

Definition wrapper_script (task : Task) : list (list sh_token) :=
  let id := t_ID task in
  [[]; [];
   [word "set"; word "-u"];
   [word "TRIGGER=${1:-manual}"];
   [Sh_word (openly "ROOT="%string ++ literally (sc_RootPath (t_Scope task)))];
   [word ("LOG=$ROOT/logs/tasks/" +:+ id +:+ ".log")];
   [word ("RUNS=$ROOT/logs/tasks/" +:+ id +:+ ".runs")];
   [word "mkdir"; word "-p"; word "$ROOT/logs/tasks"] ++ or_exit;
   [word "exec"; word "9"] ++ append_to ("$ROOT/tmp/.nexa-task-" +:+ id +:+ ".lock") ++ or_exit;
   [word "if"; word "!"; word "flock"; word "-n"; word "9"; Sh_op ";"; word "then"];
   [word "printf"; literal_word "%s\t0\tskipped-overlap\t%s\n"; word "$(date -u +%Y-%m-%dT%H:%M:%SZ)"; word "$TRIGGER"] ++ append_to "$RUNS";
   [word "exit"; word "0"];
   [word "fi"];
   [word "START_ISO=$(date -u +%Y-%m-%dT%H:%M:%SZ)"; Sh_op ";"; word "START_S=$(date +%s)"];
   [word "cd"; word "$ROOT"] ++ or_exit;
   [word "timeout"; word "-k"; word "10"; word (itoa (TimeoutSeconds task) +:+ "s"); word "/bin/sh"; word "-c";
    literal_word (t_Command task)] ++ append_to "$LOG" ++ [word "2"; Sh_op ">"; Sh_op "&"; word "1"];
   [word "CODE=$?"];
   [word "printf"; literal_word "%s\t%s\t%s\t%s\n"; word "$START_ISO"; word "$(( $(date +%s) - START_S ))"; word "$CODE"; word "$TRIGGER"] ++
     append_to "$RUNS";
   trim_file "-c" "262144" "$LOG";
   trim_file "-n" "200" "$RUNS";
   [word "exit"; word "$CODE"];
   []].

(** The lines with a value in them. *)
Section values.
Context (task : Task) (Hid : all_bytes word_safe (t_ID task) = true) (Hne : t_ID task <> EmptyString).
Notation id := (t_ID task).

Lemma in_double before mid after out : sh_scan Plain None before = Some (Double, Some (openly mid), out) ->
  forall l, sh_lex Double (Some (openly (mid +:+ id))) after = Some l -> sh_line (before +:+ id +:+ after) = Some (out ++ l).
Proof.
  intros Hb l Ha. unfold sh_line. rewrite (sh_scan_lex _ _ _ _ _ _ _ Hb), sh_lex_double by done.
  destruct (t_ID task) as [|c t] eqn:He; [done|]. unfold more. simpl default. rewrite <-openly_app, Ha. done.
Qed.

Lemma reads_log : sh_line ("LOG=" +:+ quote +:+ "$ROOT/logs/tasks/" +:+ id +:+ ".log" +:+ quote) =
  Some [word ("LOG=$ROOT/logs/tasks/" +:+ id +:+ ".log")].
Proof.
  apply (in_double ("LOG=" +:+ quote +:+ "$ROOT/logs/tasks/") "LOG=$ROOT/logs/tasks/" (".log" +:+ quote) []); [reflexivity|].
  unfold word. rewrite <-(str_app_assoc "LOG=$ROOT/logs/tasks/" id ".log"), (openly_app _ ".log"). simpl. by rewrite <-!(assoc_L (++)).
Qed.

Lemma reads_runs : sh_line ("RUNS=" +:+ quote +:+ "$ROOT/logs/tasks/" +:+ id +:+ ".runs" +:+ quote) =
  Some [word ("RUNS=$ROOT/logs/tasks/" +:+ id +:+ ".runs")].
Proof.
  apply (in_double ("RUNS=" +:+ quote +:+ "$ROOT/logs/tasks/") "RUNS=$ROOT/logs/tasks/" (".runs" +:+ quote) []); [reflexivity|].
  unfold word. rewrite <-(str_app_assoc "RUNS=$ROOT/logs/tasks/" id ".runs"), (openly_app _ ".runs"). simpl. by rewrite <-!(assoc_L (++)).
Qed.

Lemma reads_lock :
  sh_line ("exec 9>>" +:+ quote +:+ "$ROOT/tmp/.nexa-task-" +:+ id +:+ ".lock" +:+ quote +:+ " || exit 111") =
  Some ([word "exec"; word "9"] ++ append_to ("$ROOT/tmp/.nexa-task-" +:+ id +:+ ".lock") ++ or_exit).
Proof.
  apply (in_double ("exec 9>>" +:+ quote +:+ "$ROOT/tmp/.nexa-task-") "$ROOT/tmp/.nexa-task-" (".lock" +:+ quote +:+ " || exit 111")
    [word "exec"; word "9"; Sh_op ">"; Sh_op ">"]); [reflexivity|].
  unfold word. rewrite <-(str_app_assoc "$ROOT/tmp/.nexa-task-" id ".lock"), (openly_app _ ".lock"). simpl. by rewrite <-!(assoc_L (++)).
Qed.

Lemma reads_root root : any_byte (Ascii.eqb single_quote) root = false ->
  sh_line ("ROOT='" +:+ root +:+ "'") = Some [Sh_word (openly "ROOT="%string ++ literally root)].
Proof.
  intros Hr. unfold sh_line. rewrite (sh_scan_lex "ROOT='" _ _ _ Single (Some (openly "ROOT=")) []) by reflexivity.
  rewrite sh_lex_single by done. by destruct root.
Qed.

Lemma reads_timeout seconds command : 0 <= seconds ->
  sh_line ("timeout -k 10 " +:+ itoa seconds +:+ "s /bin/sh -c '" +:+ escaped_command command +:+ "' >>" +:+ quote +:+ "$LOG" +:+ quote +:+ " 2>&1") =
  Some ([word "timeout"; word "-k"; word "10"; word (itoa seconds +:+ "s"); word "/bin/sh"; word "-c"; literal_word command] ++
        append_to "$LOG" ++ [word "2"; Sh_op ">"; Sh_op "&"; word "1"]).
Proof.
  intros Hs. unfold sh_line.
  rewrite (sh_scan_lex "timeout -k 10 " _ _ _ Plain None [word "timeout"; word "-k"; word "10"]) by reflexivity.
  rewrite sh_lex_plain by (eapply all_bytes_impl; [|by apply itoa_digits]; apply forall_ascii; by vm_compute).
  pose proof (itoa_nonempty seconds) as Hn. destruct (itoa seconds) as [|c t] eqn:He; [done|]. rewrite <-He. clear Hn.
  change ("s /bin/sh -c '" +:+ ?x) with ("s /bin/sh -c " +:+ String single_quote x).
  rewrite (sh_scan_lex "s /bin/sh -c " _ _ _ Plain None [word (itoa seconds +:+ "s"); word "/bin/sh"; word "-c"])
    by (unfold word; rewrite openly_app; reflexivity).
  change (escaped_command command +:+ "' >>" +:+ ?x) with (escaped command +:+ String single_quote (" >>" +:+ x)).
  rewrite sh_lex_quoted. reflexivity.
Qed.
End values.

Lemma no_comment_line s : sh_line (String "#" s) = Some [].
Proof. reflexivity. Qed.

(** ** Names without line breaks *)
Lemma drop_bytes_length n s : (String.length (drop_bytes n s) <= String.length s)%nat.
Proof. revert s. induction n as [|n IH]; intros [|c s]; simpl; [done..|]. specialize (IH s). lia. Qed.

Lemma high_no_newline lo hi c : (11 <=? lo)%N = true -> byte_between lo hi c = true -> Ascii.eqb newline c = false.
Proof.
  intros Hlo%N.leb_le [Hc%N.leb_le _]%andb_prop. destruct (Ascii.eqb_spec newline c) as [<-|]; [|done].
  change (byte_val newline) with 10%N in Hc. lia.
Qed.

Lemma rune_breaks c t : let s := String c t in let '(n, ok) := rune_width s in
  (n = 1%nat /\ ok = true /\ byte_between 0 127 c = true) \/
  (exists m, n = S m) /\ any_byte (Ascii.eqb newline) (take_bytes n s) = false.
Proof.
  assert (Hcont : forall b, cont b = true -> Ascii.eqb newline b = false) by (intros b; by apply high_no_newline).
  assert (Hhead : byte_between 0 127 c = false -> Ascii.eqb newline c = false) by (by destruct (Ascii.eqb_spec newline c) as [<-|]).
  assert (Hone : byte_between 0 127 c = false -> (exists m, 1 = S m)%nat /\ any_byte (Ascii.eqb newline) (take_bytes 1 (String c t)) = false)
    by (intros Hc; split; [by eexists|]; cbn [take_bytes any_byte]; by rewrite (Hhead Hc)).
  cbn zeta. unfold rune_width. destruct (byte_between 0 127 c) eqn:Hc; [by left|].
  destruct t as [|b u]; [right; by apply Hone|].
  destruct (byte_between 194 223 c).
  { destruct (cont b) eqn:Hb; [|right; by apply Hone]. right. split; [by eexists|]. cbn [take_bytes any_byte]. by rewrite Hhead, Hcont. }
  destruct u as [|d v]; [right; by apply Hone|]. destruct (byte_between 224 239 c).
  { destruct (_ && cont d) eqn:Hb; [|right; by apply Hone]. apply andb_prop in Hb as [Hb Hd]. right. split; [by eexists|]. cbn [take_bytes any_byte].
    rewrite Hhead, (Hcont d) by done. assert (Ascii.eqb newline b = false) as ->; [|done].
    destruct (byte_eq 224 c), (byte_eq 237 c); revert Hb; by apply high_no_newline. }
  destruct v as [|e w]; [right; by apply Hone|]. destruct (_ && cont e) eqn:Hb; [|right; by apply Hone].
  rewrite !andb_true_iff in Hb. destruct Hb as [[[_ Hb] Hd] He]. right. split; [by eexists|]. cbn [take_bytes any_byte]. rewrite Hhead, (Hcont d), (Hcont e) by done.
  assert (Ascii.eqb newline b = false) as ->; [|done]. destruct (byte_eq 240 c), (byte_eq 244 c); revert Hb; by apply high_no_newline.
Qed.

Lemma printable_one_line is_print s : forallb (printable is_print) (runes s) = true -> any_byte (Ascii.eqb newline) s = false.
Proof.
  unfold runes. assert (H : forall n s, (String.length s <= n)%nat -> forallb (printable is_print) (runes_fuel n s) = true ->
    any_byte (Ascii.eqb newline) s = false); [|by apply H].
  clear s. induction n as [|n IH]; intros [|c t] Hn; try done; [simpl in Hn; lia|]. cbn [runes_fuel].
  pose proof (rune_breaks c t) as Hr. cbn zeta in Hr. destruct (rune_width (String c t)) as [k ok] eqn:Hw. cbn [forallb]. intros [Hp Hrest]%andb_prop.
  rewrite <-(take_drop_bytes k (String c t)), any_byte_app. apply orb_false_iff. split.
  - destruct Hr as [(-> & -> & _)|[_ Hr]]; [|done]. cbn [printable take_bytes any_byte] in Hp |- *. by rewrite (high_no_newline 32 126 c).
  - apply IH; [|done]. assert (exists m, k = S m) as [m ->] by (destruct Hr as [(-> & _)|[[m ->] _]]; by eexists).
    simpl. pose proof (drop_bytes_length m t). simpl in Hn. lia.
Qed.

(** ** What a task that passed its checks is made of *)
Definition path_text (c : ascii) : bool := negb (Ascii.eqb single_quote c) && negb (Ascii.eqb newline c).

Record fine_task (r : Renderer) (task : Task) : Prop := mk_fine_task {
  ft_id : t_ID task <> EmptyString /\ all_bytes is_hex_lower (t_ID task) = true;
  ft_name : any_byte (Ascii.eqb newline) (t_Name task) = false;
  ft_command : any_byte (Ascii.eqb newline) (t_Command task) = false;
  ft_timeout : TimeoutMinSeconds <= TimeoutSeconds task <= TimeoutMaxSeconds;
  ft_cron : kept_fields (fields (CronExpression task)) = true;
  ft_slug : ValidSiteSlug (sc_Slug (t_Scope task)) = true;
  ft_root : sc_RootPath (t_Scope task) = filepath_join [siteRoot r; sc_Slug (t_Scope task)];
  ft_user : sc_UnixUser (t_Scope task) = SiteUnixUser (sc_Slug (t_Scope task));
}.

Lemma refuse_if_ok b message : refuse_if b message = Ok tt <-> b = false.
Proof. by destruct b. Qed.

Lemma validated_task is_print r task : validateTask is_print task (siteRoot r) = Ok tt -> fine_task r task.
Proof.
  unfold validateTask, ValidateName, ValidateCommand, ValidateTimeout. rewrite !and_then_ok, !refuse_if_ok.
  intros (Hid%negb_false_iff & Hscope & Hname & Hcommand & Ht & Hcron%expression_ok).
  destruct (Validate _ _) as [[]|] eqn:Hv; [|done]. unfold Validate in Hv.
  rewrite !seq_ok, !fail_if_ok, !negb_false_iff, !String.eqb_eq, String.eqb_neq in Hv. destruct Hv as (_ & Hslug & Hroot & Huser).
  destruct (_ || _) in Hname; [done|]. apply refuse_if_ok, negb_false_iff in Hname.
  destruct (_ || _) in Hcommand; [done|]. apply refuse_if_ok in Hcommand.
  split; [split| | | | |done..].
  - by apply (matches_nonempty taskIDPattern).
  - eapply matches_bytes; [|exact Hid]. apply forall_ascii. by vm_compute.
  - by eapply printable_one_line.
  - apply any_byte_false. apply any_byte_false in Hcommand. eapply all_bytes_impl; [|exact Hcommand].
    cbn beta.
    intros c Hc. destruct (Ascii.eqb newline c); [|done]. by rewrite orb_true_r in Hc.
  - apply orb_false_iff in Ht as [?%Z.ltb_ge ?%Z.ltb_ge]. lia.
  - done.
Qed.

Lemma replace_one_line c r s : any_byte (Ascii.eqb newline) r = false -> any_byte (Ascii.eqb newline) s = false ->
  any_byte (Ascii.eqb newline) (replace_byte c r s) = false.
Proof. rewrite !any_byte_false. by apply replace_byte_bytes. Qed.

Lemma slug_one_line s : ValidSiteSlug s = true -> any_byte (Ascii.eqb newline) s = false.
Proof.
  intros H%slug_bytes. apply any_byte_false. eapply all_bytes_impl; [|exact H]. apply forall_ascii. by vm_compute.
Qed.
Lemma user_one_line s : ValidSiteSlug s = true -> any_byte (Ascii.eqb newline) (SiteUnixUser s) = false.
Proof. intros H. unfold SiteUnixUser. rewrite any_byte_app. by rewrite replace_one_line by (done || by apply slug_one_line). Qed.
Lemma itoa_one_line z : 0 <= z -> any_byte (Ascii.eqb newline) (itoa z) = false.
Proof. intros Hz. by apply digits_no_byte, itoa_digits. Qed.

Lemma fine_id_safe r task : fine_task r task -> all_bytes word_safe (t_ID task) = true /\ any_byte (Ascii.eqb newline) (t_ID task) = false.
Proof.
  intros [[_ H] _ _ _ _ _ _ _]. rewrite any_byte_false. split; (eapply all_bytes_impl; [|exact H]); apply forall_ascii; by vm_compute.
Qed.

Lemma fine_root_text r task : fine_task r task -> all_bytes path_text (siteRoot r) = true -> all_bytes path_text (sc_RootPath (t_Scope task)) = true.
Proof.
  intros Ht Hr. rewrite (ft_root _ _ Ht). apply filepath_join_bytes; [done..|]. repeat constructor; [done|].
  eapply all_bytes_impl; [|by apply slug_bytes, Ht]. apply forall_ascii. by vm_compute.
Qed.

(** ** The script as a whole *)
Lemma mapM_lines l ts : Forall2 (fun x t => any_byte (Ascii.eqb newline) x = false /\ sh_line x = Some t) l ts ->
  sh_script (lines l) = Some (ts ++ [[]]).
Proof.
  intros H. unfold sh_script. rewrite split_lines.
  - induction H as [|x t l ts [_ Hx] _ IH]; [done|]. cbn [app mapM]. rewrite Hx. cbn [mbind option_bind]. by rewrite IH.
  - induction H as [|x t l ts [Hx _] _ IH]; by constructor.
Qed.

Lemma wrapper_text_reads r task : fine_task r task -> all_bytes path_text (siteRoot r) = true ->
  sh_script (renderWrapper task) = Some (wrapper_script task).
Proof.
  intros Ht Hr. destruct (fine_id_safe r task Ht) as [Hsafe Hid1]. pose proof (proj1 (ft_id _ _ Ht)) as Hne.
  pose proof (fine_root_text r task Ht Hr) as Hroot.
  assert (Hroot1 : any_byte (Ascii.eqb newline) (sc_RootPath (t_Scope task)) = false /\
                   any_byte (Ascii.eqb single_quote) (sc_RootPath (t_Scope task)) = false).
  { split; apply any_byte_false; (eapply all_bytes_impl; [|exact Hroot]); intros c Hc; by apply andb_prop in Hc as [? ?]. }
  destruct Hroot1 as [Hroot1 Hroot2]. pose proof (ft_timeout _ _ Ht) as [Htime _].
  assert (0 <= TimeoutSeconds task) as Hpos by (unfold TimeoutMinSeconds in Htime; lia).
  rewrite render_wrapper_lines. change (wrapper_script task) with (take 21 (wrapper_script task) ++ [[]]).
  apply mapM_lines. unfold script_lines, wrapper_script. cbn [drop take wrapperLines app].
  repeat match goal with |- Forall2 _ (_ :: _) _ => constructor end; try (by constructor); split;
    try lazymatch goal with |- context [task] => fail | |- _ => vm_compute; reflexivity end.
  all: try lazymatch goal with |- sh_line _ = _ =>
    lazymatch goal with
    | |- sh_line ("LOG=" +:+ _) = _ => by apply reads_log
    | |- sh_line ("RUNS=" +:+ _) = _ => by apply reads_runs
    | |- sh_line ("exec 9>>" +:+ _) = _ => by apply reads_lock
    | |- sh_line ("ROOT='" +:+ _) = _ => by apply reads_root
    | |- sh_line ("timeout -k 10 " +:+ _) = _ => by apply reads_timeout
    | _ => reflexivity
    end end.
  all: rewrite ?any_byte_app, ?Hid1, ?Hroot1, ?(ft_name _ _ Ht), ?(slug_one_line _ (ft_slug _ _ Ht)); try reflexivity.
  - rewrite (ft_user _ _ Ht). by rewrite (user_one_line _ (ft_slug _ _ Ht)).
  - rewrite itoa_one_line by done. unfold escaped_command. by rewrite (replace_one_line _ _ _ (eq_refl : any_byte (Ascii.eqb newline) "'\''" = false) (ft_command _ _ Ht)).
Qed.

(** C25. A wrapper script says what its template means.  The script rendered for a task that
    passed the agent's checks, read by a POSIX shell's rules of quoting, is the
    template's sequence of commands, whatever the task's name, identifier, site and
    command hold: the command is one word, byte for byte the command of the task, the
    last argument of [/bin/sh -c] under the task's timeout; the name stays in a
    comment; nothing of the task starts, ends or joins another command. *)
Theorem schedule_wrapper_reads_back is_print r task : all_bytes path_text (siteRoot r) = true ->
  validateTask is_print task (siteRoot r) = Ok tt -> sh_script (renderWrapper task) = Some (wrapper_script task).
Proof. intros Hr Hv%validated_task. by eapply wrapper_text_reads. Qed.
