(* ===== verification/ScheduleCrontab.v ===== *)
(** * The crontab of a scheduled command

    A reader of system crontab files, as crontab(5) describes them, and what it finds in
    the crontab of a task that passed the agent's checks. *)

From Stdlib Require Import Ascii.
From S2P Require Import Prelude GoStrings Paths Regex Naming Sites SiteRender SiteChecks SiteProps Cron BackupUnits Shell Words SiteFs Schedules ScheduleCron.

Local Open Scope Z_scope.

(** ** Reading a crontab *)
Inductive cron_entry := Cron_setting (name value : string) | Cron_job (when : list string) (user command : string).

Fixpoint skip_blanks (s : string) : string :=
  match s with String c t => if blank c then skip_blanks t else s | EmptyString => s end.

(** The next [n] words, and the text after the byte that ends the last one. *)
Fixpoint scan_words (n : nat) (cur s : string) : option (list string * string) :=
  match n with
  | O => Some ([], s)
  | S m =>
      match s with
      | EmptyString => None
      | String c t =>
          if blank c then
            match cur with
            | EmptyString => scan_words n EmptyString t
            | _ => (fun r => (rev_string cur :: r.1, r.2)) <$> scan_words m EmptyString t
            end
          else scan_words n (String c cur) t
      end
  end.

(** A command with a percent sign, which cron turns into a line break, is not read. *)
Definition read_cron_line (l : string) : option (list cron_entry) :=
  match skip_blanks l with
  | EmptyString => Some []
  | String c t as s =>
      if Ascii.eqb "#" c then Some []
      else match cut "=" s with
           | Some (name, value) => if any_byte blank name then None else Some [Cron_setting name value]
           | None =>
               match scan_words 6 EmptyString s with
               | Some ([mi; h; d; mo; w; user], command) =>
                   if any_byte (Ascii.eqb "%") command then None else Some [Cron_job [mi; h; d; mo; w] user (skip_blanks command)]
               | _ => None
               end
           end
  end.

(** A file cron reads ends its last line. *)
Definition read_crontab (s : string) : option (list cron_entry) :=
  if last_byte (Ascii.eqb newline) s then @concat _ <$> mapM read_cron_line (split newline s) else None.

(** ** Scanning words *)
Lemma scan_words_app s m rest : forall cur, (1 <= m)%nat ->
  scan_words (length (blank_words cur s) + m) cur (s +:+ String " " rest) =
  (fun r => (blank_words cur s ++ r.1, r.2)) <$> scan_words m EmptyString rest.
Proof.
  induction s as [|c s IH]; intros cur Hm.
  - destruct m as [|m]; [lia|]. destruct cur as [|d cur].
    + change (scan_words (S m) EmptyString rest = (fun r => ([] ++ r.1, r.2)) <$> scan_words (S m) EmptyString rest).
      by destruct (scan_words (S m) EmptyString rest) as [[? ?]|].
    + change ((fun r => (rev_string (String d cur) :: r.1, r.2)) <$> scan_words (S m) EmptyString rest =
              (fun r => ([rev_string (String d cur)] ++ r.1, r.2)) <$> scan_words (S m) EmptyString rest).
      by destruct (scan_words (S m) EmptyString rest) as [[? ?]|].
  - change (String c s +:+ ?x) with (String c (s +:+ x)). cbn [blank_words]. destruct (blank c) eqn:Hc.
    + destruct cur as [|d cur]; cbn [begun app].
      * rewrite <-IH by done. destruct (_ + m)%nat eqn:Hn; [lia|]. cbn [scan_words]. by rewrite Hc.
      * cbn [length Nat.add scan_words]. rewrite Hc, IH by done. by destruct (scan_words m EmptyString rest) as [[? ?]|].
    + rewrite <-IH by done. destruct (_ + m)%nat eqn:Hn; [lia|]. cbn [scan_words]. by rewrite Hc.
Qed.

Lemma scan_words_none cur s : scan_words 0 cur s = Some ([], s).
Proof. by destruct s. Qed.

Lemma scan_word w rest : w <> EmptyString -> any_byte blank w = false ->
  scan_words 1 EmptyString (w +:+ String " " rest) = Some ([w], rest).
Proof.
  intros Hne Hw. assert (H : forall w cur, any_byte blank w = false -> cur <> EmptyString \/ w <> EmptyString ->
    scan_words 1 cur (w +:+ String " " rest) = Some ([rev_string (rev_string w +:+ cur)], rest)).
  { clear. induction w as [|c w IH]; intros cur; cbn [any_byte].
    - intros _ [Hc|]; [|done]. destruct cur as [|d cur]; [done|].
      change (scan_words 1 (String d cur) (EmptyString +:+ String " " rest)) with
        ((fun r => (rev_string (String d cur) :: r.1, r.2)) <$> scan_words 0 EmptyString rest). by rewrite scan_words_none.
    - intros [Hc Hw]%orb_false_iff _. change (String c w +:+ ?x) with (String c (w +:+ x)). cbn [scan_words]. rewrite Hc, IH by (done || by left).
      by rewrite rev_string_cons, str_app_assoc. }
  rewrite H by (done || by right). by rewrite str_app_nil_r, rev_string_involutive.
Qed.

(** ** The bytes of an accepted expression *)
Definition field_byte (c : ascii) : bool := item_byte c || Ascii.eqb "," c.
Definition expression_byte (c : ascii) : bool := field_byte c || blank c.

Lemma kept_field_bytes names lo hi field : alphabetic names -> kept_field names lo hi field = true -> all_bytes field_byte field = true.
Proof.
  intros Hn. unfold kept_field. rewrite forallb_forall. intros H. apply (split_bytes_inv field_byte ","); [done|].
  apply Forall_forall. intros x Hx%list_elem_of_In. apply H, kept_item_bytes in Hx; [|done]. eapply all_bytes_impl; [|exact Hx].
  intros c Hc. unfold field_byte. by rewrite Hc.
Qed.

Lemma blank_words_bytes p s : forall cur, Forall (fun w => all_bytes p w = true) (blank_words cur s) ->
  all_bytes p (rev_string cur) = true /\ all_bytes (fun c => p c || blank c) s = true.
Proof.
  induction s as [|c s IH]; intros cur; cbn [blank_words all_bytes].
  - destruct cur as [|d cur]; [done|]. by intros [H _]%Forall_cons.
  - destruct (blank c); rewrite ?orb_true_r, ?orb_false_r.
    + intros [Hb [_ Hs]%IH]%Forall_app. split; [|done]. destruct cur as [|d cur]; [done|]. by apply Forall_cons in Hb as [? _].
    + intros [Hc Hs]%IH. rewrite rev_string_cons, all_bytes_app, andb_true_iff in Hc. simpl in Hc. rewrite andb_true_r in Hc.
      destruct Hc as [? Hc]. by rewrite Hc.
Qed.

Lemma kept_expression_bytes e : all_bytes spaced e = true -> kept_fields (fields e) = true -> all_bytes expression_byte e = true.
Proof.
  intros Hs Hk. rewrite fields_blank_words in Hk by done.
  assert (Hf : Forall (fun w => all_bytes field_byte w = true) (blank_words EmptyString e)).
  { destruct (blank_words EmptyString e) as [|mi [|h [|d [|mo [|w [|more rest]]]]]]; try done. cbn [kept_fields] in Hk.
    rewrite !andb_true_iff in Hk. destruct Hk as ((((? & ?) & ?) & ?) & ?).
    repeat constructor; by (eapply kept_field_bytes; [|eassumption]). }
  by apply blank_words_bytes in Hf as [_ ?].
Qed.

(** ** The line of the job *)
Lemma skip_blanks_app e x : blank_words EmptyString e <> [] ->
  exists c t, skip_blanks (e +:+ x) = String c (t +:+ x) /\ blank c = false /\ blank_words EmptyString (String c t) = blank_words EmptyString e /\
    forall p, all_bytes p e = true -> all_bytes p (String c t) = true.
Proof.
  induction e as [|c e IH]; [done|]. cbn [blank_words]. change (String c e +:+ x) with (String c (e +:+ x)). cbn [skip_blanks].
  destruct (blank c) eqn:Hc.
  - intros H. destruct (IH H) as (d & t & -> & ? & Hw & Hp). exists d, t. split_and!; [done..|]. intros p [_ Hs]%andb_prop. by apply Hp.
  - intros _. exists c, e. cbn [blank_words]. by rewrite Hc.
Qed.

Lemma words_skip w x : w <> EmptyString -> all_bytes word_byte w = true -> skip_blanks (w +:+ x) = w +:+ x.
Proof.
  destruct w as [|c w]; [done|]. intros _ [Hc _]%andb_prop. change (String c w +:+ x) with (String c (w +:+ x)). cbn [skip_blanks].
  assert (blank c = false) as ->; [|done]. revert Hc. by destruct c as [[] [] [] [] [] [] [] []].
Qed.
Lemma word_without p w : forallb (fun c => negb (word_byte c && p c)) all_ascii = true -> all_bytes word_byte w = true -> any_byte p w = false.
Proof.
  intros Hp Hw. apply any_byte_false. eapply all_bytes_impl; [|exact Hw]. intros c Hc.
  rewrite forallb_forall in Hp. specialize (Hp c ltac:(apply list_elem_of_In, elem_of_all_ascii)). by rewrite Hc in Hp.
Qed.

Lemma reads_job e user path : all_bytes spaced e = true -> kept_fields (fields e) = true ->
  user <> EmptyString -> all_bytes word_byte user = true -> path <> EmptyString -> all_bytes word_byte path = true ->
  read_cron_line (e +:+ " " +:+ user +:+ " " +:+ path +:+ " cron") = Some [Cron_job (fields e) user (path +:+ " cron")].
Proof.
  intros Hs Hk Hu Hub Hp Hpb. pose proof (kept_expression_bytes e Hs Hk) as He. rewrite fields_blank_words in * by done.
  assert (Hlen : exists a b c d f, blank_words EmptyString e = [a; b; c; d; f])
    by (destruct (blank_words EmptyString e) as [|mi [|h [|d [|mo [|w [|more rest]]]]]]; try done; by repeat eexists).
  destruct Hlen as (w1 & w2 & w3 & w4 & w5 & Hl). unfold read_cron_line.
  destruct (skip_blanks_app e (" " +:+ user +:+ " " +:+ path +:+ " cron")) as (c & t & -> & Hc & Hw & Hbytes); [by rewrite Hl|].
  apply Hbytes in He. assert (Ascii.eqb "#" c = false) as ->.
  { apply andb_prop in He as [He _]. apply negb_true_iff. clear - He. revert c He. apply forall_ascii. by vm_compute. }
  change (String c (t +:+ ?x)) with (String c t +:+ x).
  rewrite (proj2 (cut_None _ _)).
  - change (" " +:+ user +:+ " " +:+ path +:+ " cron") with (String " " (user +:+ String " " (path +:+ " cron"))).
    pose proof (scan_words_app (String c t) 1 (user +:+ String " " (path +:+ " cron")) EmptyString (le_n 1)) as H.
    rewrite Hw, Hl in H. change (length [w1; w2; w3; w4; w5] + 1)%nat with 6%nat in H. rewrite H.
    rewrite scan_word by (done || by apply word_without; [vm_compute|]). cbn [fmap option_fmap option_map app fst snd].
    rewrite any_byte_app, (word_without (Ascii.eqb "%") path), words_skip by (done || by vm_compute). by rewrite Hl.
  - rewrite !any_byte_app, (word_without (Ascii.eqb "=") user), (word_without (Ascii.eqb "=") path) by (done || by vm_compute).
    assert (any_byte (Ascii.eqb "=") (String c t) = false) as ->; [|done].
    apply any_byte_false. eapply all_bytes_impl; [|exact He]. apply forall_ascii. by vm_compute.
Qed.

(** ** The crontab as a whole *)
Definition crontab (r : Renderer) (task : Task) : list cron_entry :=
  [Cron_setting "SHELL" "/bin/sh"; Cron_setting "PATH" "/usr/local/bin:/usr/bin:/bin";
   Cron_job (fields (CronExpression task)) (SiteUnixUser (sc_Slug (t_Scope task))) (wrapperPath r task +:+ " cron")].

Lemma last_line l x : last_byte (Ascii.eqb newline) (lines (l ++ [x])) = true.
Proof. rewrite lines_app. unfold lines at 2. simpl. unfold line. by rewrite <-str_app_assoc, last_byte_app. Qed.

Lemma read_cron_lines l es : l <> [] -> Forall2 (fun x e => any_byte (Ascii.eqb newline) x = false /\ read_cron_line x = Some e) l es ->
  read_crontab (lines l) = Some (concat es).
Proof.
  intros Hne H. unfold read_crontab. destruct (exists_last Hne) as (l' & x & Hl). rewrite Hl at 1. rewrite last_line, split_lines.
  - assert (Hm : mapM read_cron_line (l ++ [EmptyString]) = Some (es ++ [[]])).
    { clear Hne Hl. induction H as [|y e l es [_ Hx] _ IH]; [done|]. cbn [app mapM]. rewrite Hx. cbn [mbind option_bind]. by rewrite IH. }
    rewrite Hm. cbn. rewrite concat_app. cbn. by rewrite app_nil_r.
  - clear Hne Hl. induction H as [|y e l es [Hx _] _ IH]; by constructor.
Qed.

Lemma wrapper_path_words r task : fine_task r task -> all_bytes word_byte (taskScriptRoot r) = true ->
  wrapperPath r task <> EmptyString /\ all_bytes word_byte (wrapperPath r task) = true.
Proof.
  intros Ht Hr. split.
  - apply filepath_join_nonempty. right. by left.
  - apply filepath_join_bytes; [done..|]. repeat constructor; [done|]. rewrite !all_bytes_app.
    rewrite (all_bytes_impl is_hex_lower word_byte (t_ID task)); [done| |by apply Ht]. apply forall_ascii. by vm_compute.
Qed.

Lemma user_words s : ValidSiteSlug s = true -> SiteUnixUser s <> EmptyString /\ all_bytes word_byte (SiteUnixUser s) = true.
Proof.
  intros H%slug_bytes. split; [done|]. unfold SiteUnixUser. rewrite all_bytes_app, replace_byte_bytes; [done|done|].
  eapply all_bytes_impl; [|exact H]. apply forall_ascii. by vm_compute.
Qed.

Lemma crontab_reads r task : fine_task r task -> all_bytes spaced (CronExpression task) = true ->
  all_bytes word_byte (taskScriptRoot r) = true -> read_crontab (renderCron r task) = Some (crontab r task).
Proof.
  intros Ht Hs Hr. destruct (wrapper_path_words r task Ht Hr) as [Hp1 Hp2]. destruct (user_words _ (ft_slug _ _ Ht)) as [Hu1 Hu2].
  change (crontab r task) with (concat [[]; [Cron_setting "SHELL" "/bin/sh"]; [Cron_setting "PATH" "/usr/local/bin:/usr/bin:/bin"];
    [Cron_job (fields (CronExpression task)) (SiteUnixUser (sc_Slug (t_Scope task))) (wrapperPath r task +:+ " cron")]]).
  unfold renderCron. rewrite (ft_user _ _ Ht). apply read_cron_lines; [done|].
  constructor; [|constructor; [|constructor; [|constructor; [|constructor]]]]; split; try reflexivity.
  - destruct (fine_id_safe r task Ht) as [_ Hid]. rewrite !any_byte_app, Hid, (ft_name _ _ Ht), (slug_one_line _ (ft_slug _ _ Ht)). reflexivity.
  - pose proof (kept_expression_bytes _ Hs (ft_cron _ _ Ht)) as He.
    assert (any_byte (Ascii.eqb newline) (CronExpression task) = false) as He1.
    { apply any_byte_false. eapply all_bytes_impl; [|exact He]. apply forall_ascii. by vm_compute. }
    rewrite !any_byte_app, He1, (word_no_newline (SiteUnixUser _)), (word_no_newline (wrapperPath r task)) by done. reflexivity.
  - apply reads_job; try done. apply Ht.
Qed.

(** C26. A crontab says what its task asks for.  The file rendered for a task that passed the
    agent's checks and whose expression is printable and separates its fields by blanks,
    below a script root of plain bytes, read as cron reads it, holds two settings of the shell and exactly one job: at the times of the
    task's expression, as the account of the task's site, the task's own wrapper.
    Neither the task's name nor its identifier nor its command adds a line, a field or
    an argument. *)
Theorem schedule_crontab_reads_back is_print r task :
  all_bytes word_byte (taskScriptRoot r) = true -> all_bytes spaced (CronExpression task) = true ->
  validateTask is_print task (siteRoot r) = Ok tt -> read_crontab (renderCron r task) = Some (crontab r task).
Proof. intros Hr Hs Hv%validated_task. by apply crontab_reads. Qed.

(** ** Samples *)
Module Samples.
Definition agent_renderer : Renderer := mk_renderer EmptyString EmptyString EmptyString.
Definition sample_command : string := "echo 'hello' && printf '%s' x".
Definition sample : Task :=
  mk_task "0123456789abcdef0123456789abcdef" "Nightly <id> report" "*/5 1-6 * * 1" sample_command 120 true
    (mk_scope "site_1" "demo" "/srv/nexa/sites/demo" "nexa_demo").

Lemma schedule_wrapper_reads_back_witness :
  (fun l => l !! 15%nat) <$> sh_script (renderWrapper sample) =
  Some (Some ([word "timeout"; word "-k"; word "10"; word "120s"; word "/bin/sh"; word "-c"; literal_word sample_command;
               Sh_op ">"; Sh_op ">"; word "$LOG"; word "2"; Sh_op ">"; Sh_op "&"; word "1"])).
Proof.
  rewrite (schedule_wrapper_reads_back (fun _ => true) agent_renderer sample); [reflexivity|by vm_compute..].
Defined.

Lemma schedule_crontab_reads_back_witness :
  read_crontab (renderCron agent_renderer sample) =
  Some [Cron_setting "SHELL" "/bin/sh"; Cron_setting "PATH" "/usr/local/bin:/usr/bin:/bin";
        Cron_job ["*/5"; "1-6"; "*"; "*"; "1"] "nexa_demo"
          "/etc/nexa-panel/generated/tasks/nexa-task-0123456789abcdef0123456789abcdef.sh cron"]%string.
Proof.
  rewrite (schedule_crontab_reads_back (fun _ => true) agent_renderer sample); [reflexivity|by vm_compute..].
Defined.

(** The agent's check takes any Unicode white space between the fields of an expression
    and renders the expression as it came: one that separates them by a line break is
    accepted, and cron does not read the file. *)
Definition broken : Task :=
  mk_task (t_ID sample) (t_Name sample) ("*" +:+ String newline "* * * *") (t_Command sample) 120 true (t_Scope sample).
Lemma schedule_expression_breaks_crontab :
  validateTask (fun _ => true) broken (siteRoot agent_renderer) = Ok tt /\ read_crontab (renderCron agent_renderer broken) = None.
Proof. split; by vm_compute. Qed.
End Samples.
