(* ===== verification/ScheduleHost.v ===== *)
(** * Installing scheduled commands

    [internal/platform/operators/schedules/host.go] and the ownership of [schedules.go]:
    the agent's operator plans, applies, rolls back and runs tasks on the host of
    [Update]. *)

From Stdlib Require Import Ascii.
From S2P Require Import Prelude GoStrings Regex Naming Sites SiteFs Schedules Update.
From S2P Require SiteHost.

Local Open Scope Z_scope.

(** ** Data *)
Notation Snapshot := SiteHost.Snapshot.
Notation mk_snapshot := SiteHost.mk_snapshot.
Notation Exists := SiteHost.Exists.
Notation Digest := SiteHost.Digest.

Record Plan := mk_plan {
  PlanID : string;
  p_Kind : string;
  p_Task : Task;
  Artifacts : list Artifact;
  Before : list Snapshot;
  Warnings : list string;
  PlannedAt : Z;
  ExpiresAt : Z;
}.
Definition PlanTTL : Z := 15 * minute.

Record Observation := mk_observation { ob_TaskID : string; ob_Artifacts : list Snapshot; VerifiedAt : Z }.
Record RunResult := mk_run_result { ExitCode : Z; DurationMs : Z; StartedAt : Z; OutputTail : string; TimedOut : bool }.
Record RunRecord := mk_run_record { rr_StartedAt : Z; DurationSeconds : Z; rr_ExitCode : Z; Trigger : string }.

Record HostConfig := mk_host_config { c_SiteRoot : string; c_TaskScriptRoot : string; c_CronRoot : string }.
Definition is_abs (p : string) : bool := has_prefix "/" p.

(** [NewHostOperator], of which the renderer is what is kept. *)
Definition NewHostOperator (config : HostConfig) : result string Renderer :=
  let site := or_default (c_SiteRoot config) "/srv/nexa/sites" in
  let script := or_default (c_TaskScriptRoot config) "/etc/nexa-panel/generated/tasks" in
  let cron := or_default (c_CronRoot config) "/etc/cron.d" in
  if negb (is_abs site) || negb (is_abs script) || negb (is_abs cron)
  then Err "schedules site, task script, and cron roots must be absolute"%string
  else Ok (mk_renderer (path_clean site) (path_clean script) (path_clean cron)).

(** A failure carries the message of an [OperationError]; [check] raises one. *)
Definition check {A} (r : result OperationError A) : M A :=
  match r with Ok a => mret a | Err e => fail (oe_Message e) end.
Definition raise {A} (e : OperationError) : M A := fail (oe_Message e).

Section operator.
Context (is_print : string -> bool).
(** The bytes of a file that holds a document, and SHA-256 in hexadecimal. *)
Context (text_of : content -> string) (digestBytes : string -> string).
(** The account and group databases. *)
Context (lookup_user : string -> option (Z * Z)) (lookup_group : string -> option Z).
(** What [os.Root.Open] finds for a name below a directory. *)
Context (resolve : filesystem -> string -> string -> option node).
Context (o : Renderer).

(** ** Files *)
Definition atomicWrite (path text : string) (mode : Z) : M unit := SiteHost.atomicWriteOwned path text mode (-1) (-1).

(** [HostOwnership.Chown] *)
Definition Chown (path owner group : string) : M unit :=
  match lookup_user owner with
  | None => fail "unknown user"
  | Some (uid, gid) =>
      if negb (String.eqb group EmptyString) && negb (String.eqb group owner) then
        match lookup_group group with None => fail "unknown group" | Some gid => chown path uid gid end
      else chown path uid gid
  end.

Definition unsafe_artifact : OperationError := conflict "A managed schedule artifact is unsafe or too large.".
Definition snapshotMaxBytes : Z := 512 * 1024.
Definition no_file (path : string) : Snapshot := mk_snapshot path false 0 EmptyString EmptyString 0 0.
Definition snapshot_of (path : string) (c : content) (mode uid gid : Z) : Snapshot :=
  mk_snapshot path true (perm mode) (digestBytes (text_of c)) (text_of c) uid gid.
Definition readSnapshot (path : string) : M Snapshot :=
  n ← lstat path;
  match n with
  | None => mret (no_file path)
  | Some (Reg c mode uid gid) =>
      if snapshotMaxBytes <? len (text_of c) then raise unsafe_artifact else _ ← io; mret (snapshot_of path c mode uid gid)
  | Some _ => raise unsafe_artifact
  end.
Fixpoint readSnapshots (l : list Artifact) : M (list Snapshot) :=
  match l with
  | [] => mret []
  | a :: l => b ← readSnapshot (a_Path a); bs ← readSnapshots l; mret (b :: bs)
  end.

Definition writeSnapshot (s : Snapshot) : M unit :=
  if Exists s then
    _ ← atomicWrite (SiteHost.sn_Path s) (SiteHost.Content s) (SiteHost.sn_Mode s);
    chown (SiteHost.sn_Path s) (SiteHost.sn_UID s) (SiteHost.sn_GID s)
  else remove (SiteHost.sn_Path s).

(** ** Plans *)
(** [HostOperator.Plan]; [id] is the random identifier, [now] the clock. *)
Definition MakePlan (id : string) (now : Z) (task : Task) (removal : bool) : M Plan :=
  '(artifacts, warnings) ← check (Render is_print o task removal);
  before ← readSnapshots artifacts;
  mret (mk_plan id PlanKind task artifacts before warnings now (now + PlanTTL)).

Definition is_removal (l : list Artifact) : bool := forallb a_Remove l.

Definition unmanaged : OperationError := invalid "The schedule plan contains an unmanaged artifact.".
Definition validatePlan (plan : Plan) : result OperationError unit :=
  if String.eqb (PlanID plan) EmptyString || negb (String.eqb (p_Kind plan) PlanKind) || (length (Artifacts plan) =? 0)%nat ||
     negb (length (Artifacts plan) =? length (Before plan))%nat
  then Err (invalid "The schedule plan is invalid.")
  else match Render is_print o (p_Task plan) (is_removal (Artifacts plan)) with
       | Err e => Err e
       | Ok (expected, _) =>
           if negb (length expected =? length (Artifacts plan))%nat then Err unmanaged
           else if forallb (fun x => bool_decide (x.1.1 = x.1.2) && String.eqb (SiteHost.sn_Path x.2) (a_Path x.1.2))
                     (zip (zip expected (Artifacts plan)) (Before plan))
                then Ok tt else Err unmanaged
       end.

Definition drift : OperationError := conflict "The scheduled task changed on this node after planning; create a new plan.".
Definition same_state (current expected : Snapshot) : bool :=
  Bool.eqb (Exists current) (Exists expected) && String.eqb (Digest current) (Digest expected).
Definition checkBefore (plan : Plan) : M unit :=
  for_each (Before plan) (fun expected =>
    current ← readSnapshot (SiteHost.sn_Path expected);
    if same_state current expected then mret tt else raise drift).

(** The directory of a site's task logs, through the root of the site. *)
Definition log_directory (scope : Scope) : string := filepath_join [sc_RootPath scope; "logs"; "tasks"]%string.
Definition no_site : OperationError := notFound "The site directory is not present on this node.".
Definition open_root : M unit := r ← attempt io; match r with inl _ => mret tt | inr _ => raise no_site end.
Definition ensureTaskLogDirectory (scope : Scope) : M unit :=
  _ ← open_root;
  _ ← io;                                              (* mkdir logs *)
  _ ← io;                                              (* mkdir logs/tasks *)
  _ ← io;                                              (* chmod logs/tasks *)
  Chown (log_directory scope) (sc_UnixUser scope) "www-data".

Definition write_artifact (a : Artifact) : M unit :=
  if a_Remove a then remove (a_Path a)
  else _ ← atomicWrite (a_Path a) (a_Content a) (a_Mode a); Chown (a_Path a) (a_Owner a) (a_Group a).
Definition writeArtifacts (l : list Artifact) : M unit := for_each l write_artifact.

Definition restore (plan : Plan) : M unit :=
  failures ← SiteHost.collect (writeSnapshot <$> rev (Before plan));
  match failures with [] => mret tt | _ => fail (join "; " failures) end.
Definition restoreFailure {A} (plan : Plan) (cause : string) : M A :=
  r ← attempt (restore plan);
  fail (join "; " (cause :: match r with inl _ => [] | inr e => ["restore: " +:+ e] end)).

Definition observe (now : Z) (plan : Plan) : M Observation :=
  items ← readSnapshots (Artifacts plan); mret (mk_observation (t_ID (p_Task plan)) items now).

(** ** Operations *)
Definition expired : OperationError := conflict "The schedule plan has expired; create a new plan.".
Definition Apply (now : Z) (plan : Plan) : M Observation :=
  _ ← check (validatePlan plan);
  _ ← (if ExpiresAt plan <? now then raise expired else mret tt);
  _ ← checkBefore plan;
  _ ← (if is_removal (Artifacts plan) then mret tt else ensureTaskLogDirectory (t_Scope (p_Task plan)));
  r ← attempt (writeArtifacts (Artifacts plan));
  match r with
  | inr e => restoreFailure plan e
  | inl _ => observe now plan
  end.

Definition changed_after_plan : OperationError :=
  conflict "The scheduled task changed after this plan was applied; automatic rollback is unsafe.".
Definition check_applied (a : Artifact) : M unit :=
  current ← readSnapshot (a_Path a);
  if a_Remove a then (if Exists current then raise changed_after_plan else mret tt)
  else if negb (Exists current) || negb (String.eqb (Digest current) (digestBytes (a_Content a)))
       then raise changed_after_plan else mret tt.
Definition Rollback (now : Z) (plan : Plan) : M Observation :=
  _ ← check (validatePlan plan);
  _ ← for_each (Artifacts plan) check_applied;
  _ ← restore plan;
  observe now plan.

(** ** Runs *)
Definition runOutputTailBytes : Z := 64 * 1024.
Definition runsFileMaxBytes : Z := 256 * 1024.
Definition no_task : OperationError := notFound "The scheduled task is not installed on this node; apply its plan first.".

Definition log_name (id : string) : string := "logs/tasks/" +:+ id +:+ ".log".
Definition runs_name (id : string) : string := "logs/tasks/" +:+ id +:+ ".runs".

Definition readOutputTail (task : Task) : M string :=
  _ ← open_root;
  _ ← io; h ← get;
  match resolve (files h) (sc_RootPath (t_Scope task)) (log_name (t_ID task)) with
  | Some (Reg c _ _ _) =>
      let size := len (text_of c) in
      let start := Z.max 0 (size - runOutputTailBytes) in
      _ ← io; mret (drop_bytes (Z.to_nat start) (text_of c))
  | _ => mret EmptyString
  end.

(** The command that runs a task by hand; [runner] answers with an exit code and the
    output, or [inr] when it could not be started.  [started] and [ended] are the clock. *)
Definition run_command (o : Renderer) (task : Task) : Command :=
  command "runuser" ["-u"%string; sc_UnixUser (t_Scope task); "--"%string; wrapperPath o task; "manual"%string].
Definition Run (runner : Command -> M (Z * string + string)) (started ended : Z) (task : Task) : M RunResult :=
  _ ← check (validateTask is_print task (siteRoot o));
  n ← attempt (lstat (wrapperPath o task));
  match n with
  | inl (Some (Reg _ _ _ _)) =>
      r ← runner (run_command o task);
      match r with
      | inr e => raise (conflict ("execute scheduled task: " +:+ e))
      | inl (code, _) =>
          tail ← readOutputTail task;
          mret (mk_run_result code (Z.quot (ended - started) 1000000) started tail ((code =? 124) || (code =? 137)))
      end
  | _ => raise no_task
  end.

(** A row of the runs file; [parse_time] is [time.Parse] of RFC 3339 text. *)
Definition return_byte : ascii := "013".
Definition tab_byte : ascii := "009".
Definition parse_run (parse_time : string -> option Z) (line : string) : option RunRecord :=
  match split tab_byte (trim_suffix (String return_byte EmptyString) line) with
  | [at_; duration; code; trigger] =>
      at_ ← parse_time at_;
      if String.eqb trigger EmptyString then None
      else if String.eqb code "skipped-overlap" then Some (mk_run_record at_ 0 (-1) trigger)
      else duration ← atoi duration;
           if duration <? 0 then None else code ← atoi code; Some (mk_run_record at_ duration code trigger)
  | _ => None
  end.
Definition parseRunRecords (parse_time : string -> option Z) (data : string) : list RunRecord :=
  omap (parse_run parse_time) (split newline data).

Definition Runs (parse_time : string -> option Z) (scope : Scope) (taskID : string) : M (list RunRecord) :=
  _ ← (if matches taskIDPattern taskID then mret tt else raise (invalid "The task identifier is not a managed task identifier."));
  _ ← check (match Validate scope (siteRoot o) with
             | Ok _ => Ok tt
             | Err e => Err (invalid ("The site scope is invalid: " +:+ e +:+ "."))
             end);
  _ ← open_root;
  _ ← io; h ← get;
  match resolve (files h) (sc_RootPath scope) (runs_name taskID) with
  | None => mret []
  | Some (Reg c _ _ _) =>
      _ ← io;
      let records := parseRunRecords parse_time (take_bytes (Z.to_nat runsFileMaxBytes) (text_of c)) in
      mret (drop (length records - Z.to_nat RunsMaxRecords) records)
  | Some _ => fail system_error
  end.
End operator.
