(* ===== verification/ScheduleHostProps.v ===== *)
(** * What applying a schedule plan does to the node

    The two files of a task under [ScheduleHost.Apply] and [Rollback], in the logic of
    [UpdateLogic]: what holds whatever system calls answer and wherever the agent dies,
    and what holds when they are answered. *)

From S2P Require Import Prelude GoStrings Paths Regex Naming Sites SiteFs Schedules Update UpdateLogic SiteActivation ScheduleHost.
From S2P Require SiteHost SitePlans.

Local Open Scope Z_scope.

Section host.
Context (is_print : string -> bool) (text_of : content -> string) (digestBytes : string -> string).
Context (lookup_user : string -> option (Z * Z)) (lookup_group : string -> option Z).
Context (text_bytes : forall b, text_of (Bytes b) = b).
Context (o : Renderer).
Notation snapshot_at := (snapshot_at text_of digestBytes).
Notation readSnapshot := (readSnapshot text_of digestBytes).
Notation readSnapshots := (readSnapshots text_of digestBytes).
Notation Chown := (Chown lookup_user lookup_group).
Notation write_artifact := (write_artifact lookup_user lookup_group).
Notation MakePlan := (MakePlan is_print text_of digestBytes o).
Notation Apply := (Apply is_print text_of digestBytes lookup_user lookup_group o).
Notation Rollback := (Rollback is_print text_of digestBytes o).

(** ** Reading *)
Lemma spec_read c p (P F I : filesystem -> Prop) :
  (forall fs, P fs -> I fs) -> (forall fs, c = false -> P fs -> F fs) ->
  (forall fs, P fs -> snapshot_at fs p = None -> F fs) ->
  spec c (on_files P) (readSnapshot p) (fun b s => P s.1 /\ snapshot_at s.1 p = Some b) (on_files F) (on_files I).
Proof.
  intros HI HF HN. unfold ScheduleHost.readSnapshot. eapply spec_bind; [apply spec_lstat; unfold on_files; eauto|].
  intros n. unfold SiteActivation.snapshot_at. change snapshotMaxBytes with 524288. destruct n as [[x mode uid gid| |]|].
  - destruct (524288 <? len (text_of x)) eqn:Hl.
    + apply spec_fail. intros s [Hn HP]. apply HN; [done|]. unfold SiteActivation.snapshot_at. by rewrite <-Hn, Hl.
    + eapply spec_bind; [apply spec_io|intros ?; apply spec_ret].
      * intros s [_ HP]. by apply HI.
      * intros s ? [_ HP]. by apply HF.
      * intros s [Hn HP]. by rewrite <-Hn, Hl.
  - apply spec_fail. intros s [Hn HP]. apply HN; [done|]. unfold SiteActivation.snapshot_at. by rewrite <-Hn.
  - apply spec_fail. intros s [Hn HP]. apply HN; [done|]. unfold SiteActivation.snapshot_at. by rewrite <-Hn.
  - apply spec_ret. intros s [Hn HP]. by rewrite <-Hn.
Qed.

Lemma spec_reads c l fs :
  spec c (on_files (eq fs)) (readSnapshots l)
    (fun bs s => s.1 = fs /\ Forall2 (fun a b => snapshot_at fs (a_Path a) = Some b) l bs)
    (on_files (eq fs)) (on_files (eq fs)).
Proof.
  induction l as [|a l IH]; simpl; [by apply spec_ret; unfold on_files; intros s <-|].
  eapply spec_bind; [by apply spec_read|]. intros b.
  apply (spec_bind c _ _ _ (fun bs s => snapshot_at fs (a_Path a) = Some b /\ s.1 = fs /\
    Forall2 (fun a b => snapshot_at fs (a_Path a) = Some b) l bs)).
  - intros h Hc [Hs Hb]. pose proof (IH h Hc Hs) as H. rewrite <-Hs in Hb.
    destruct (readSnapshots l h) as [[r|e|] h']; [|done..]. destruct H as (? & ? & ?). done.
  - intros bs. apply spec_ret. intros s (Hb & Hs & Hall). auto.
Qed.

(** ** A plan and the state it was made in *)
Definition paths (plan : Plan) : list string := a_Path <$> Artifacts plan.
Definition logs (plan : Plan) : string := log_directory (t_Scope (p_Task plan)).

Record planned (fs : filesystem) (plan : Plan) : Prop := mk_planned {
  pl_valid : validatePlan is_print o plan = Ok tt;
  pl_before : Forall2 (fun a b => snapshot_at fs (a_Path a) = Some b) (Artifacts plan) (Before plan);
  pl_apart : NoDup (paths plan);
  pl_logs : logs plan ∉ paths plan;
}.

Definition tidy := SitePlans.tidy.
(** The files of the plan are as they were. *)
Definition same (plan : Plan) : filesystem -> filesystem -> Prop := agree (paths plan).
(** Nothing but the plan's files has changed, and the owner of the log directory. *)
Definition elsewhere (plan : Plan) (fs fs' : filesystem) : Prop :=
  forall p, p ∉ paths plan -> p <> logs plan -> fs' !! p = fs !! p.

(** An artifact in place. *)
Definition in_place (a : Artifact) (fs : filesystem) : Prop :=
  if a_Remove a then fs !! a_Path a = None
  else exists u g, fs !! a_Path a = Some (Reg (Bytes (a_Content a)) (a_Mode a) u g).
Definition installed (plan : Plan) (fs : filesystem) : Prop := forall a, a ∈ Artifacts plan -> in_place a fs.
Definition oversize (plan : Plan) : Prop := exists a, a ∈ Artifacts plan /\ a_Remove a = false /\ snapshotMaxBytes < len (a_Content a).

Section current.
Context (plan : Plan) (fs0 : filesystem) (Hplan : planned fs0 plan) (Htidy : tidy (paths plan) fs0).
Notation any := (on_files (fun _ => True)).

Lemma before_of a : a ∈ Artifacts plan -> exists b, b ∈ Before plan /\ snapshot_at fs0 (a_Path a) = Some b /\ SiteHost.sn_Path b = a_Path a.
Proof.
  intros (i & Hi)%list_elem_of_lookup_1. destruct (Forall2_lookup_l _ _ _ _ _ (pl_before _ _ Hplan) Hi) as (b & Hb & Hs).
  exists b. split_and!; [by eapply list_elem_of_lookup_2|done|by eapply SitePlans.snapshot_path].
Qed.
Lemma artifact_of b : b ∈ Before plan -> exists a, a ∈ Artifacts plan /\ snapshot_at fs0 (a_Path a) = Some b /\ SiteHost.sn_Path b = a_Path a.
Proof.
  intros (i & Hi)%list_elem_of_lookup_1. destruct (Forall2_lookup_r _ _ _ _ _ (pl_before _ _ Hplan) Hi) as (a & Ha & Hs).
  exists a. split_and!; [by eapply list_elem_of_lookup_2|done|by eapply SitePlans.snapshot_path].
Qed.
Lemma path_in a : a ∈ Artifacts plan -> a_Path a ∈ paths plan.
Proof. apply list_elem_of_fmap_2. Qed.

Lemma realised p b : p ∈ paths plan -> snapshot_at fs0 p = Some b -> realises b (fs0 !! p).
Proof.
  intros Hp. unfold SiteActivation.snapshot_at, realises. destruct (fs0 !! p) as [[x m u g| |]|] eqn:Hn; [|done..|].
  - destruct (Htidy p x m u g Hp Hn) as ((y & ->) & Hm & _). rewrite text_bytes. case_match; [done|]. intros [= <-]. simpl. by rewrite text_bytes, Hm.
  - by intros [= <-].
Qed.

Lemma same_at a b : a ∈ Artifacts plan -> snapshot_at fs0 (a_Path a) = Some b -> forall n, realises b n -> n = fs0 !! a_Path a.
Proof. intros Ha Hs n Hn. pose proof (realised _ _ (path_in a Ha) Hs) as H. unfold realises in *. congruence. Qed.

(** *** The states on the way

    Each file is as it was or as the plan says, but for its owner, and nothing else has
    changed. *)
Definition between (fs : filesystem) : Prop :=
  elsewhere plan fs0 fs /\
  forall a, a ∈ Artifacts plan -> in_place a fs \/ fs !! a_Path a = fs0 !! a_Path a \/
    exists x m u g u' g', fs0 !! a_Path a = Some (Reg (Bytes x) m u g) /\ fs !! a_Path a = Some (Reg (Bytes x) m u' g').

Lemma between_start fs : same plan fs0 fs -> elsewhere plan fs0 fs -> between fs.
Proof. intros Hs He. split; [done|]. intros a Ha. right. left. symmetry. by apply Hs, path_in. Qed.

Lemma artifact_path_inj a a' : a ∈ Artifacts plan -> a' ∈ Artifacts plan -> a_Path a = a_Path a' -> a = a'.
Proof.
  pose proof (pl_apart _ _ Hplan) as Hd. unfold paths in Hd. clear Hplan Htidy. revert Hd.
  induction (Artifacts plan) as [|x l IH]; [by intros _ ?%elem_of_nil|]. rewrite fmap_cons, NoDup_cons, !elem_of_cons.
  intros [Hx Hl] [->|Ha] [->|Ha'] He; [done| | |by apply IH].
  - destruct Hx. rewrite He. by apply list_elem_of_fmap_2.
  - destruct Hx. rewrite <-He. by apply list_elem_of_fmap_2.
Qed.

(** A step on the file of one artifact. *)
Lemma between_step fs fs' a : a ∈ Artifacts plan -> between fs -> touches (a_Path a) fs fs' ->
  (in_place a fs' \/ fs' !! a_Path a = fs0 !! a_Path a \/
   exists x m u g u' g', fs0 !! a_Path a = Some (Reg (Bytes x) m u g) /\ fs' !! a_Path a = Some (Reg (Bytes x) m u' g')) -> between fs'.
Proof.
  intros Ha [He Hb] Ht Hn. split.
  - intros p Hp Hl. rewrite Ht; [by apply He|]. intros ->. by apply Hp, path_in.
  - intros a' Ha'. destruct (decide (a = a')) as [->|Hne]; [done|].
    assert (Hp : a_Path a' <> a_Path a) by (intros He'; apply Hne; by apply artifact_path_inj).
    unfold in_place. rewrite (Ht _ Hp). by apply Hb.
Qed.

Lemma between_owner fs p uid gid : p ∈ paths plan \/ p = logs plan -> between fs -> between (alter (set_owner uid gid) p fs).
Proof.
  intros Hp Hb. destruct (decide (p = logs plan)) as [->|Hne].
  - destruct Hb as [He Hb]. split.
    + intros q Hq Hl. rewrite lookup_alter_ne by done. by apply He.
    + intros a Ha. assert (logs plan <> a_Path a) by (intros He'; apply (pl_logs _ _ Hplan); rewrite He'; by apply path_in).
      unfold in_place. rewrite lookup_alter_ne by done. by apply Hb.
  - destruct Hp as [Hp|]; [|done]. apply list_elem_of_fmap in Hp as (a & -> & Ha).
    apply (between_step fs _ a Ha Hb); [intros q Hq; by apply lookup_alter_ne|].
    destruct Hb as [_ Hb]. unfold in_place. rewrite lookup_alter_eq. destruct (Hb a Ha) as [Hn|[Hn|Hn]].
    + left. unfold in_place in Hn. destruct (a_Remove a); [by rewrite Hn|]. destruct Hn as (u & g & ->). by exists uid, gid.
    + rewrite Hn. destruct (before_of a Ha) as (b & _ & Hs & _). unfold SiteActivation.snapshot_at in Hs.
      destruct (fs0 !! a_Path a) as [[x m u g| |]|] eqn:Hr; [|done..|by right; left].
      destruct (Htidy _ x m u g (path_in a Ha) Hr) as ((y & ->) & _). right. right. by exists y, m, u, g, uid, gid.
    + destruct Hn as (x & m & u & g & u' & g' & H0 & ->). right. right. by exists x, m, u, g, uid, gid.
Qed.

(** *** Whatever system calls answer *)
Definition keeps (c : bool) {A} (m : M A) : Prop :=
  spec c (on_files between) m (fun _ => on_files between) (on_files between) (on_files between).

Lemma keeps_ret c {A} (a : A) : keeps c (mret a).
Proof. by apply spec_ret. Qed.
Lemma keeps_fail c {A} e : keeps c (fail (A := A) e).
Proof. by apply spec_fail. Qed.
Lemma keeps_raise c {A} e : keeps c (raise (A := A) e).
Proof. by apply spec_fail. Qed.
Lemma schedule_keeps_bind c {A B} (m : M A) (k : A -> M B) : keeps c m -> (forall a, keeps c (k a)) -> keeps c (m ≫= k).
Proof. intros Hm Hk. eapply spec_bind; [exact Hm|exact Hk]. Qed.
Lemma keeps_io c : keeps c io.
Proof. by apply spec_io. Qed.
Lemma keeps_get c : keeps c get.
Proof. eapply spec_conseq; [apply (spec_get c (on_files between) (on_files between) (on_files between))|done| |done|done]. by intros h s [_ ?]. Qed.
Lemma keeps_attempt c {A} (m : M A) : keeps c m -> keeps c (attempt m).
Proof. intros Hm. eapply spec_conseq; [by eapply spec_attempt|done| |intros s H; exact H|done]. by intros []. Qed.
Lemma keeps_for_each c {A} (l : list A) f : (forall x, x ∈ l -> keeps c (f x)) -> keeps c (for_each l f).
Proof.
  induction l as [|x l IH]; intros H; [by apply keeps_ret|]. simpl. apply schedule_keeps_bind; [apply H; by left|]. intros ?.
  apply IH. intros y Hy. apply H. by right.
Qed.
Lemma keeps_collect c l : (forall m, m ∈ l -> keeps c m) -> keeps c (SiteHost.collect l).
Proof.
  induction l as [|m l IH]; intros H; [by apply keeps_ret|]. simpl. apply schedule_keeps_bind; [apply keeps_attempt, H; by left|]. intros r.
  apply schedule_keeps_bind; [apply IH; intros y Hy; apply H; by right|]. intros fl. by apply keeps_ret.
Qed.
Lemma keeps_read c p : keeps c (readSnapshot p).
Proof. eapply spec_conseq; [by apply (spec_read c p between between between)|done| |done|done]. by intros b s [? _]. Qed.
Lemma keeps_check c {A} (r : result OperationError A) : keeps c (ScheduleHost.check r).
Proof. destruct r; [apply keeps_ret|apply keeps_fail]. Qed.
Hint Resolve keeps_ret keeps_fail keeps_raise schedule_keeps_bind keeps_io keeps_get keeps_attempt keeps_read keeps_check : keeps.

Lemma keeps_reads c l : keeps c (readSnapshots l).
Proof. induction l as [|a l IH]; simpl; auto with keeps. Qed.

Lemma keeps_chown c p uid gid : p ∈ paths plan \/ p = logs plan -> keeps c (chown p uid gid).
Proof. intros Hp. apply spec_chown; [done|done|]. intros s Hs. by apply between_owner. Qed.
Lemma keeps_Chown c p owner group : p ∈ paths plan \/ p = logs plan -> keeps c (Chown p owner group).
Proof.
  intros Hp. unfold ScheduleHost.Chown. destruct (lookup_user owner) as [[uid gid]|]; [|apply keeps_fail].
  destruct (_ && _); [destruct (lookup_group group); [by apply keeps_chown|apply keeps_fail]|by apply keeps_chown].
Qed.

Lemma touches_insert p n fs : touches p fs (<[p := n]> fs).
Proof. intros q Hq. by rewrite lookup_insert_ne. Qed.
Lemma touches_delete p fs : touches p fs (delete p fs).
Proof. intros q Hq. by rewrite lookup_delete_ne. Qed.

Lemma keeps_write_artifact c a : a ∈ Artifacts plan -> keeps c (write_artifact a).
Proof.
  intros Ha. unfold ScheduleHost.write_artifact. destruct (a_Remove a) eqn:Hr.
  - apply spec_remove; [done|done|]. intros s Hs. apply (between_step s.1 _ a Ha Hs (touches_delete _ _)). left.
    unfold in_place. by rewrite Hr, lookup_delete_eq.
  - apply schedule_keeps_bind; [|intros ?; apply keeps_Chown; left; by apply path_in].
    apply spec_write; [done|done|done|done|]. intros fs Hs. apply (between_step fs _ a Ha Hs (touches_insert _ _ _)). left.
    unfold in_place. rewrite Hr, lookup_insert_eq. by eexists _, _.
Qed.

Lemma keeps_writeSnapshot c b : b ∈ Before plan -> keeps c (writeSnapshot b).
Proof.
  intros Hb. destruct (artifact_of b Hb) as (a & Ha & Hs & Hp). pose proof (realised _ _ (path_in a Ha) Hs) as Hr. unfold realises in Hr.
  unfold writeSnapshot. rewrite Hp. destruct (SiteHost.Exists b).
  - apply schedule_keeps_bind; [|intros ?; apply keeps_chown; left; by apply path_in].
    apply spec_write; [done|done|done|done|]. intros fs Hfs. apply (between_step fs _ a Ha Hfs (touches_insert _ _ _)). right. right.
    rewrite lookup_insert_eq. eexists _, _, _, _, _, _. by split.
  - apply spec_remove; [done|done|]. intros s Hst. apply (between_step s.1 _ a Ha Hst (touches_delete _ _)). right. left.
    by rewrite lookup_delete_eq, Hr.
Qed.

Lemma keeps_restore c : keeps c (restore plan).
Proof.
  apply schedule_keeps_bind; [|intros [|]; auto with keeps]. apply keeps_collect. intros m (b & -> & Hb)%list_elem_of_fmap.
  apply keeps_writeSnapshot. by apply list_elem_of_In, in_rev, list_elem_of_In in Hb.
Qed.

Lemma keeps_log_directory c : keeps c (ensureTaskLogDirectory lookup_user lookup_group (t_Scope (p_Task plan))).
Proof.
  unfold ensureTaskLogDirectory, open_root. apply schedule_keeps_bind; [apply schedule_keeps_bind; [auto with keeps|intros []; auto with keeps]|]. intros ?.
  do 3 (apply schedule_keeps_bind; [auto with keeps|intros ?]). apply keeps_Chown. by right.
Qed.

Lemma keeps_Apply c now : keeps c (Apply now plan).
Proof.
  unfold ScheduleHost.Apply. apply schedule_keeps_bind; [auto with keeps|intros _].
  apply schedule_keeps_bind; [destruct (_ <? _); auto with keeps|intros _].
  apply schedule_keeps_bind; [apply keeps_for_each; intros b _; apply schedule_keeps_bind; [auto with keeps|intros s; destruct (same_state s b); auto with keeps]|intros _].
  apply schedule_keeps_bind; [destruct (is_removal _); auto using keeps_ret, keeps_log_directory|intros _].
  apply schedule_keeps_bind; [apply keeps_attempt, keeps_for_each; intros a Ha; by apply keeps_write_artifact|intros [_|e]].
  - apply schedule_keeps_bind; [apply keeps_reads|intros items; auto with keeps].
  - apply schedule_keeps_bind; [apply keeps_attempt, keeps_restore|intros r; auto with keeps].
Qed.

Lemma keeps_Rollback c now : keeps c (Rollback now plan).
Proof.
  unfold ScheduleHost.Rollback. apply schedule_keeps_bind; [auto with keeps|intros _].
  apply schedule_keeps_bind.
  { apply keeps_for_each. intros a _. apply schedule_keeps_bind; [auto with keeps|intros s].
    destruct (a_Remove a); [destruct (SiteHost.Exists s)|destruct (_ || _)]; auto with keeps. }
  intros _. apply schedule_keeps_bind; [apply keeps_restore|intros _]. apply schedule_keeps_bind; [apply keeps_reads|intros items; auto with keeps].
Qed.

(** *** When every system call is answered *)
Definition clear (fs : filesystem) : Prop := forall p, p ∈ paths plan -> fs !! p <> Some Special.

Lemma same_at_path fs p : same plan fs0 fs -> p ∈ paths plan -> snapshot_at fs p = snapshot_at fs0 p.
Proof. intros Hs Hp. unfold SiteActivation.snapshot_at. by rewrite (Hs p Hp). Qed.

Lemma same_clear fs : same plan fs0 fs -> clear fs.
Proof.
  intros Hs p Hp Hn. pose proof Hp as (a & -> & Ha)%list_elem_of_fmap. destruct (before_of a Ha) as (b & _ & Hb & _).
  rewrite <-(same_at_path fs) in Hb by done. unfold SiteActivation.snapshot_at in Hb. by rewrite Hn in Hb.
Qed.

Lemma clear_touches p fs fs' : clear fs -> touches p fs fs' -> fs' !! p <> Some Special -> clear fs'.
Proof. intros Hc Ht Hp q Hq. destruct (decide (q = p)) as [->|Hne]; [done|]. rewrite Ht by done. by apply Hc. Qed.
Lemma clear_owner p uid gid fs : clear fs -> clear (alter (set_owner uid gid) p fs).
Proof.
  intros Hc q Hq. destruct (decide (q = p)) as [->|Hne]; [|rewrite lookup_alter_ne by done; by apply Hc].
  rewrite lookup_alter_eq. specialize (Hc p Hq). destruct (fs !! p) as [[| |]|]; naive_solver.
Qed.
Lemma in_place_touches p a fs fs' : a_Path a <> p -> touches p fs fs' -> in_place a fs -> in_place a fs'.
Proof. intros Hp Ht. unfold in_place. by rewrite (Ht _ Hp). Qed.
Lemma in_place_owner p uid gid a fs : in_place a fs -> in_place a (alter (set_owner uid gid) p fs).
Proof.
  unfold in_place. destruct (decide (a_Path a = p)) as [<-|Hne]; [|by rewrite lookup_alter_ne].
  rewrite lookup_alter_eq. destruct (a_Remove a); [by intros ->|]. intros (u & g & ->). by exists uid, gid.
Qed.

(** Artifacts put in place so far. *)
Definition placed (l : list Artifact) (fs : filesystem) : Prop := (forall a, a ∈ l -> in_place a fs) /\ clear fs.

Lemma placed_step before a rest fs fs' : Artifacts plan = before ++ a :: rest -> placed before fs -> touches (a_Path a) fs fs' ->
  in_place a fs' -> fs' !! a_Path a <> Some Special -> placed (before ++ [a]) fs'.
Proof.
  intros Hl [Hb Hc] Ht Ha Hn. split; [|by eapply clear_touches]. intros x [Hx|Hx]%elem_of_app; [|by apply list_elem_of_singleton in Hx as ->].
  eapply in_place_touches; [|exact Ht|by apply Hb]. intros He.
  pose proof (pl_apart _ _ Hplan) as Hd. unfold paths in Hd. rewrite Hl, fmap_app, NoDup_app in Hd. destruct Hd as (_ & Hd & _).
  apply (Hd (a_Path x)); [by apply list_elem_of_fmap_2|]. rewrite He. by left.
Qed.

Lemma placed_owner l p uid gid fs : placed l fs -> placed l (alter (set_owner uid gid) p fs).
Proof. intros [Hb Hc]. split; [intros a Ha; by apply in_place_owner, Hb|by apply clear_owner]. Qed.

Lemma spec_Chown c (P F : filesystem -> Prop) p owner group :
  (forall fs, P fs -> F fs) -> (forall fs uid gid, P fs -> P (alter (set_owner uid gid) p fs)) ->
  spec c (on_files P) (Chown p owner group) (fun _ => on_files P) (on_files F) any.
Proof.
  intros HF HP. assert (Hch : forall uid gid, spec c (on_files P) (chown p uid gid) (fun _ => on_files P) (on_files F) any).
  { intros uid gid. apply spec_chown; [done|intros s _; apply HF|]. intros s Hs. by apply HP. }
  unfold ScheduleHost.Chown. destruct (lookup_user owner) as [[uid gid]|]; [|apply spec_fail; intros s; apply HF].
  destruct (_ && _); [destruct (lookup_group group); [done|apply spec_fail; intros s; apply HF]|done].
Qed.

Lemma spec_place c before a rest : Artifacts plan = before ++ a :: rest ->
  spec c (on_files (placed before)) (write_artifact a) (fun _ => on_files (placed (before ++ [a]))) (on_files clear) any.
Proof.
  intros Hl. assert (Ha : a ∈ Artifacts plan) by (rewrite Hl; apply elem_of_app; right; by left).
  unfold ScheduleHost.write_artifact. destruct (a_Remove a) eqn:Hr.
  - apply spec_remove; [done|by intros s _ [_ ?]|]. intros s Hs. apply (placed_step before a rest s.1 _ Hl Hs (touches_delete _ _)).
    + unfold in_place. by rewrite Hr, lookup_delete_eq.
    + simpl. by rewrite lookup_delete_eq.
  - apply (spec_bind _ _ _ _ (fun _ => on_files (placed (before ++ [a])))).
    + apply spec_write; [done|done|by intros fs _ [_ ?]| |].
      * intros fs [_ Hc] Hs. by destruct (Hc _ (path_in a Ha)).
      * intros fs Hs. apply (placed_step before a rest fs _ Hl Hs (touches_insert _ _ _)).
        -- unfold in_place. rewrite Hr, lookup_insert_eq. by eexists _, _.
        -- by rewrite lookup_insert_eq.
    + intros ?. apply spec_Chown; [by intros fs [_ ?]|]. intros fs uid gid. apply placed_owner.
Qed.

Lemma spec_place_all c :
  spec c (on_files clear) (writeArtifacts lookup_user lookup_group (Artifacts plan))
    (fun _ => on_files (placed (Artifacts plan))) (on_files clear) any.
Proof.
  eapply spec_pre; [apply (spec_for_each c (Artifacts plan) write_artifact (fun before => on_files (placed before)))|].
  - intros before a rest Hl. by eapply spec_place.
  - intros s Hs. split; [|done]. by intros a ?%elem_of_nil.
Qed.

(** Restoring. *)
Definition put_back (l : list Snapshot) (fs : filesystem) : Prop := forall b, b ∈ l -> realises b (fs !! SiteHost.sn_Path b).

Lemma snapshot_path_inj b b' : b ∈ Before plan -> b' ∈ Before plan -> SiteHost.sn_Path b = SiteHost.sn_Path b' -> b = b'.
Proof.
  intros Hb Hb' He. destruct (artifact_of b Hb) as (a & Ha & Hs & Hp), (artifact_of b' Hb') as (a' & Ha' & Hs' & Hp').
  assert (a = a') as -> by (apply artifact_path_inj; congruence). congruence.
Qed.

Lemma put_back_step fs b : b ∈ Before plan -> clear fs ->
  spec true (fun s => s.1 = fs) (writeSnapshot b)
    (fun _ s => touches (SiteHost.sn_Path b) fs s.1 /\ realises b (s.1 !! SiteHost.sn_Path b) /\ clear s.1) (fun _ => False) any.
Proof.
  intros Hb Hc. destruct (artifact_of b Hb) as (a & Ha & Hs & Hp). unfold writeSnapshot, realises. rewrite Hp.
  destruct (SiteHost.Exists b) eqn:He.
  - set (Q := fun fs' => touches (a_Path a) fs fs' /\
      exists u g, fs' !! a_Path a = Some (Reg (Bytes (SiteHost.Content b)) (SiteHost.sn_Mode b) u g)).
    apply (spec_bind _ _ _ _ (fun _ => on_files Q)).
    + apply (spec_write true _ _ _ _ _ (fun fs' => fs' = fs) Q (fun _ => False) (fun _ => True)); [done|done|done| |].
      * intros fs' -> Hsp. by destruct (Hc _ (path_in a Ha)).
      * intros fs' ->. split; [apply touches_insert|]. rewrite lookup_insert_eq. by eexists _, _.
    + intros ?. apply spec_chown; [done|done|]. intros s [Ht (u & g & Hn)]. simpl. rewrite lookup_alter_eq, Hn. split_and!; [|done|].
      * intros q Hq. rewrite lookup_alter_ne by done. by apply Ht.
      * apply clear_owner. eapply clear_touches; [exact Hc|exact Ht|]. by rewrite Hn.
  - apply spec_remove; [done|done|]. intros s ->. simpl. rewrite lookup_delete_eq. split_and!; [apply touches_delete|done|].
    eapply clear_touches; [exact Hc|apply touches_delete|]. by rewrite lookup_delete_eq.
Qed.

Lemma spec_task_restore :
  spec true (on_files clear) (restore plan) (fun _ => on_files (same plan fs0)) (fun _ => False) any.
Proof.
  unfold restore. eapply spec_bind.
  - eapply spec_conseq; [apply (spec_collect writeSnapshot true put_back clear False (fun _ => False) [] (rev (Before plan)))|..].
    + intros before b rest Hl h Hh [Hj Hw]. assert (Hb : b ∈ Before plan).
      { apply list_elem_of_In, in_rev. rewrite Hl. apply in_or_app. right. by left. }
      pose proof (put_back_step (files h) b Hb Hw h Hh eq_refl) as H. destruct (writeSnapshot b h) as [[u|e|] h']; [|by destruct H|by destruct H].
      destruct H as (? & Ht & Hr & ?). split; [done|]. split; [|done]. intros x [Hx|Hx]%elem_of_app; [|by apply list_elem_of_singleton in Hx as ->].
      assert (Hx' : x ∈ Before plan).
      { apply list_elem_of_In, in_rev. rewrite Hl. apply in_or_app. left. by apply list_elem_of_In. }
      destruct (decide (SiteHost.sn_Path x = SiteHost.sn_Path b)) as [He|Hne]; [by apply snapshot_path_inj in He as ->|].
      rewrite Ht by done. by apply Hj.
    + intros b Hb%list_elem_of_In%in_rev%list_elem_of_In h Hh Hw. pose proof (put_back_step (files h) b Hb Hw h Hh eq_refl) as H.
      destruct (writeSnapshot b h) as [[u|e|] h']; [|by destruct H|by destruct H]. by destruct H as (? & _ & _ & ?).
    + reflexivity.
    + intros s Hs. split; [by intros b ?%elem_of_nil|done].
    + intros fl s H. exact H.
    + done.
    + done.
  - intros fl h Hh (_ & Hj & He). destruct fl as [|e fl]; [|by destruct He]. split; [done|]. specialize (Hj eq_refl).
    intros p (a & -> & Ha)%list_elem_of_fmap. destruct (before_of a Ha) as (b & Hb & Hs & Hp). symmetry.
    apply (same_at a b Ha Hs). rewrite <-Hp. apply Hj. by apply list_elem_of_In, in_rev; rewrite rev_involutive; apply list_elem_of_In.
Qed.

Lemma same_reads fs a : same plan fs0 fs -> a ∈ Artifacts plan -> snapshot_at fs (a_Path a) <> None.
Proof. intros Hs Ha. rewrite same_at_path by (done || by apply path_in). destruct (before_of a Ha) as (b & _ & -> & _). done. Qed.

Lemma spec_task_checkBefore c :
  spec c (on_files (same plan fs0)) (checkBefore text_of digestBytes plan) (fun _ => on_files (same plan fs0))
    (on_files (same plan fs0)) any.
Proof.
  apply (spec_for_each c (Before plan) _ (fun _ => on_files (same plan fs0))). intros before b rest _.
  eapply spec_bind; [by apply (spec_read c _ (same plan fs0) (same plan fs0) (fun _ => True))|]. intros s.
  destruct (same_state s b); [apply spec_ret|apply spec_fail]; by intros x [? _].
Qed.

Lemma spec_log_directory c :
  spec c (on_files (same plan fs0)) (ensureTaskLogDirectory lookup_user lookup_group (t_Scope (p_Task plan)))
    (fun _ => on_files (same plan fs0)) (on_files (same plan fs0)) any.
Proof.
  unfold ensureTaskLogDirectory, open_root.
  assert (Hio : spec c (on_files (same plan fs0)) io (fun _ => on_files (same plan fs0)) (on_files (same plan fs0)) any) by (by apply spec_io).
  apply (spec_bind _ _ _ _ (fun _ => on_files (same plan fs0))).
  { eapply spec_bind; [eapply spec_attempt, Hio|]. intros [u|e]; [by apply spec_ret|by apply spec_fail]. }
  intros _. do 3 (apply (spec_bind _ _ _ _ (fun _ => on_files (same plan fs0))); [apply Hio|intros _]).
  apply spec_Chown; [done|]. intros fs uid gid Hs p Hp. rewrite lookup_alter_ne; [by apply Hs|].
  intros He. apply (pl_logs _ _ Hplan). unfold logs. by rewrite He.
Qed.

(** Reading the artifacts in place fails only on one that is too large. *)
Lemma in_place_reads a fs : a ∈ Artifacts plan -> in_place a fs -> snapshot_at fs (a_Path a) = None -> oversize plan.
Proof.
  intros Ha Hi Hs. unfold in_place, SiteActivation.snapshot_at in *. destruct (a_Remove a) eqn:Hr; [by rewrite Hi in Hs|].
  destruct Hi as (u & g & Hn). rewrite Hn, text_bytes in Hs. case_match eqn:Hl; [|done]. exists a. split_and!; [done..|].
  unfold snapshotMaxBytes. lia.
Qed.

Lemma spec_reads_from c (P F : filesystem -> Prop) l :
  (forall fs, c = false -> P fs -> F fs) ->
  (forall a fs, a ∈ l -> P fs -> snapshot_at fs (a_Path a) = None -> F fs) ->
  spec c (on_files P) (readSnapshots l)
    (fun bs s => P s.1 /\ Forall2 (fun a b => snapshot_at s.1 (a_Path a) = Some b) l bs) (on_files F) any.
Proof.
  intros HcF HF h Hh HP.
  assert (H : spec c (on_files (eq (files h))) (readSnapshots l)
    (fun bs s => s.1 = files h /\ Forall2 (fun a b => snapshot_at (files h) (a_Path a) = Some b) l bs) (on_files F) any).
  { clear Hh. unfold on_files. induction l as [|a l IH]; simpl; [by apply spec_ret; intros s <-|].
    eapply spec_bind; [apply (spec_read c (a_Path a) (eq (files h)) F (fun _ => True)); [done|by intros fs Hc <-; apply HcF|]|].
    - intros fs <- Hn. eapply HF; [by left|done|done].
    - intros b. apply (spec_bind c _ _ _ (fun bs s => snapshot_at (files h) (a_Path a) = Some b /\ s.1 = files h /\
        Forall2 (fun a b => snapshot_at (files h) (a_Path a) = Some b) l bs)).
      + intros h1 Hc [Hs Hb]. assert (IH' := IH (fun a' fs Ha' => HF a' fs ltac:(by right)) h1 Hc Hs). rewrite <-Hs in Hb.
        destruct (readSnapshots l h1) as [[r|e|] h']; [|done..]. destruct IH' as (? & ? & ?). done.
      + intros bs. apply spec_ret. intros s (Hb & Hs & Hall). auto. }
  specialize (H h Hh eq_refl). destruct (readSnapshots l h) as [[bs|e|] h']; [|done..]. destruct H as (? & Hs & Hf).
  split; [done|]. simpl in *. rewrite Hs. done.
Qed.

(** *** The operations *)
Definition observed (ob : Observation) (fs : filesystem) : Prop :=
  Forall2 (fun a b => snapshot_at fs (a_Path a) = Some b) (Artifacts plan) (ob_Artifacts ob).
Notation undone := (fun s : state => same plan fs0 s.1 \/ (installed plan s.1 /\ oversize plan)).

Lemma spec_task_Apply now :
  spec true (on_files (same plan fs0)) (Apply now plan) (fun ob s => installed plan s.1 /\ observed ob s.1) undone any.
Proof.
  unfold ScheduleHost.Apply. rewrite (pl_valid _ _ Hplan).
  apply (spec_bind _ _ _ _ (fun _ => on_files (same plan fs0))); [by apply spec_ret|intros _].
  apply (spec_bind _ _ _ _ (fun _ => on_files (same plan fs0))).
  { destruct (_ <? _); [apply spec_fail; by left|by apply spec_ret]. }
  intros _. apply (spec_bind _ _ _ _ (fun _ => on_files (same plan fs0))).
  { eapply spec_conseq; [apply spec_task_checkBefore|done|done|by left|done]. }
  intros _. apply (spec_bind _ _ _ _ (fun _ => on_files (same plan fs0))).
  { destruct (is_removal _); [by apply spec_ret|]. eapply spec_conseq; [apply spec_log_directory|done|done|by left|done]. }
  intros _. eapply spec_bind.
  { eapply spec_attempt. eapply spec_pre; [apply spec_place_all|]. intros s. apply same_clear. }
  intros [u|e].
  - unfold observe. eapply spec_bind.
    + eapply spec_conseq; [apply (spec_reads_from true (placed (Artifacts plan)) (fun fs => installed plan fs /\ oversize plan)); [done|]|done| |by right|done].
      * intros a fs Ha [Hp Hc] Hn. split; [exact Hp|]. eapply in_place_reads; [done|by apply Hp|done].
      * intros bs s H. exact H.
    + intros bs. apply spec_ret. by intros s [[Hp _] Hf].
  - unfold restoreFailure. eapply spec_bind; [eapply spec_attempt, spec_task_restore|]. intros [u|e']; apply spec_fail; [by left|done].
Qed.

(** *** When one system call is refused

    One call anywhere is refused and every other one is answered; the agent does not die.
    A program that is [tame] never dies then, and leaves such a schedule; a [strict] one
    fails only by that refusal, or before a path of the plan that is neither a file nor a
    link. *)
Definition one_refusal (l : list answer) : Prop := l = [] \/ exists n, l = replicate n Proceed ++ [Refuse].

Definition tame (strict : bool) {A} (m : M A) : Prop :=
  forall h, one_refusal (schedule h) ->
  match m h with
  | (Done _, h') => one_refusal (schedule h')
  | (Failed _, h') => one_refusal (schedule h') /\
      (strict = true -> schedule h' = [] \/ exists p, p ∈ paths plan /\ files h' !! p = Some Special)
  | (Crashed, _) => False
  end.

Lemma tame_ret s {A} (a : A) : tame s (mret a).
Proof. by intros h. Qed.
Lemma tame_fail {A} e : tame false (fail (A := A) e).
Proof. by intros h Hh. Qed.
Lemma tame_get s : tame s get.
Proof. by intros h. Qed.
Lemma tame_update s f : tame s (update_files f).
Proof. by intros h. Qed.
Lemma tame_io s : tame s io.
Proof.
  intros h Hh. unfold io, ask, mbind, M_bind. destruct Hh as [Hh|[[|n] Hh]]; rewrite Hh; simpl.
  - by left.
  - by split; [left|left].
  - right. by exists n.
Qed.
Lemma tame_bind s {A B} (m : M A) (k : A -> M B) : tame s m -> (forall a, tame s (k a)) -> tame s (m ≫= k).
Proof. intros Hm Hk h Hh. unfold mbind, M_bind. specialize (Hm h Hh). destruct (m h) as [[a|e|] h']; [|done..]. by apply Hk. Qed.
Lemma tame_attempt s {A} (m : M A) : tame false m -> tame s (attempt m).
Proof. intros Hm h Hh. unfold attempt. specialize (Hm h Hh). destruct (m h) as [[a|e|] h']; [done|by destruct Hm|done]. Qed.
Lemma tame_for_each s {A} (l : list A) f : (forall x, x ∈ l -> tame s (f x)) -> tame s (for_each l f).
Proof.
  induction l as [|x l IH]; intros Hf; simpl; [apply tame_ret|]. apply tame_bind; [apply Hf; by left|]. intros _.
  apply IH. intros y Hy. apply Hf. by right.
Qed.
Hint Resolve tame_ret tame_fail tame_get tame_update tame_io tame_bind tame_attempt : tame.

Lemma tame_read p : tame false (readSnapshot p).
Proof.
  unfold ScheduleHost.readSnapshot, lstat, raise. apply tame_bind; [auto with tame|]. intros n.
  repeat case_match; auto with tame.
Qed.
Lemma tame_reads l : tame false (readSnapshots l).
Proof. induction l as [|a l IH]; simpl; auto using tame_read with tame. Qed.

Context (user_known : forall name, is_Some (lookup_user name)) (group_known : forall name, is_Some (lookup_group name)).

Lemma tame_Chown s p owner group : tame s (Chown p owner group).
Proof.
  unfold ScheduleHost.Chown, chown. destruct (user_known owner) as [[uid gid] ->], (group_known group) as [g ->].
  case_match; auto with tame.
Qed.

Lemma tame_write a : a ∈ Artifacts plan -> tame true (write_artifact a).
Proof.
  intros Ha. unfold ScheduleHost.write_artifact, remove. case_match; [auto with tame|]. apply tame_bind; [|intros _; apply tame_Chown].
  unfold atomicWrite, SiteHost.atomicWriteOwned. do 2 (apply tame_bind; [auto with tame|intros _]).
  assert (Hk : forall f, tame true (_ ← update_files f; _ ← attempt io; mret tt)).
  { intros f. apply tame_bind; [apply tame_update|intros _]. apply tame_bind; [by apply tame_attempt, tame_io|intros _; apply tame_ret]. }
  intros h Hh. unfold mbind at 1, M_bind at 1, get. destruct (files h !! a_Path a) as [[]|] eqn:Hn; try apply (Hk _ h Hh).
  split; [done|]. intros _. right. exists (a_Path a). by split; [apply path_in|].
Qed.

Lemma tame_before : tame false (checkBefore text_of digestBytes plan).
Proof. apply tame_for_each. intros b _. apply tame_bind; [apply tame_read|]. intros s. unfold raise. case_match; auto with tame. Qed.
Lemma tame_logs scope : tame false (ensureTaskLogDirectory lookup_user lookup_group scope).
Proof.
  unfold ensureTaskLogDirectory, open_root, raise. apply tame_bind; [apply tame_bind; [auto with tame|intros []; auto with tame]|].
  intros _. do 3 (apply tame_bind; [auto with tame|intros _]). apply tame_Chown.
Qed.

(** [m] alone, both ways. *)
Lemma run_tame {A} strict (m : M A) P Q F h : spec false P m Q F any -> tame strict m -> one_refusal (schedule h) -> P (st h) ->
  match m h with
  | (Done a, h') => one_refusal (schedule h') /\ Q a (st h')
  | (Failed _, h') => one_refusal (schedule h') /\ F (st h') /\
      (strict = true -> schedule h' = [] \/ exists p, p ∈ paths plan /\ files h' !! p = Some Special)
  | (Crashed, _) => False
  end.
Proof.
  intros Hm Ht Hh HP. specialize (Ht h Hh). specialize (Hm h ltac:(done) HP).
  destruct (m h) as [[a|e|] h']; [by destruct Hm|destruct Hm, Ht; by split_and!|done].
Qed.

(** A sequence, where the first program changes nothing that matters. *)
Lemma run_front {A B} (m : M A) (k : A -> M B) R h :
  spec false (on_files (same plan fs0)) m (fun _ => on_files (same plan fs0)) (on_files (same plan fs0)) any -> tame false m ->
  one_refusal (schedule h) -> same plan fs0 (files h) ->
  (forall e h', same plan fs0 (files h') -> R (Failed e, h')) ->
  (forall a h', one_refusal (schedule h') -> same plan fs0 (files h') -> R (k a h')) -> R ((m ≫= k) h).
Proof.
  intros Hm Ht Hh Hs HF HR. pose proof (run_tame false m _ _ _ h Hm Ht Hh Hs) as H. unfold mbind, M_bind.
  destruct (m h) as [[a|e|] h']; [by apply HR; destruct H|by apply HF; destruct H as (_ & ? & _)|done].
Qed.

(** The forms of the outcome. *)
Definition settled (r : outcome Observation * machine) : Prop :=
  match r with
  | (Done ob, h') => installed plan (files h') /\ observed ob (files h')
  | (Failed _, h') => same plan fs0 (files h') \/ installed plan (files h')
  | (Crashed, _) => False
  end.

Lemma Apply_one_refusal now h :
  one_refusal (schedule h) -> same plan fs0 (files h) -> settled (Apply now plan h).
Proof.
  intros Hh Hs. unfold ScheduleHost.Apply. rewrite (pl_valid _ _ Hplan).
  assert (Hend : forall e h', same plan fs0 (files h') -> settled (Failed e, h')) by (intros; by left).
  apply run_front; [by apply spec_ret|apply tame_ret|done|done|done|]. clear h Hh Hs. intros _ h Hh Hs.
  apply run_front; [destruct (_ <? _); [by apply spec_fail|by apply spec_ret]|destruct (_ <? _); [apply tame_fail|apply tame_ret]|done..|].
  clear h Hh Hs. intros _ h Hh Hs. apply run_front; [apply spec_task_checkBefore|apply tame_before|done..|]. clear h Hh Hs. intros _ h Hh Hs.
  apply run_front; [destruct (is_removal _); [by apply spec_ret|apply spec_log_directory]|destruct (is_removal _); [apply tame_ret|apply tame_logs]|done..|].
  clear h Hh Hs. intros _ h Hh Hs.
  pose proof (run_tame true _ _ _ _ h (spec_place_all false) (tame_for_each true _ _ tame_write) Hh (same_clear _ Hs)) as H.
  unfold writeArtifacts in *. unfold mbind at 1, M_bind at 1, attempt at 1. destruct (for_each (Artifacts plan) _ h) as [[u|e|] h1]; [| |done].
  - destruct H as [H1 Hi].
    assert (Hr : spec false (on_files (placed (Artifacts plan))) (readSnapshots (Artifacts plan))
      (fun bs s => placed (Artifacts plan) s.1 /\ Forall2 (fun a b => snapshot_at s.1 (a_Path a) = Some b) (Artifacts plan) bs)
      (on_files (placed (Artifacts plan))) any) by (by apply spec_reads_from).
    pose proof (run_tame false _ _ _ _ h1 Hr (tame_reads _) H1 Hi) as H. unfold observe, mbind, M_bind.
    destruct (readSnapshots _ h1) as [[bs|e|] h2]; [|by right; destruct H as (_ & [? _] & _)|done].
    by destruct H as (_ & [? _] & ?).
  - destruct H as (_ & Hc & H1). destruct (H1 eq_refl) as [He|(p & Hp & Hn)]; [|by destruct (Hc p Hp)].
    unfold restoreFailure, mbind, M_bind, attempt. pose proof (spec_task_restore h1 (fun _ => He) Hc) as H.
    destruct (restore plan h1) as [[u|e'|] h2]; [|by destruct H..]. left. apply H.
Qed.

Lemma spec_task_Rollback now :
  spec true (on_files (installed plan)) (Rollback now plan) (fun ob s => same plan fs0 s.1 /\ observed ob s.1) 
    (fun s => installed plan s.1 /\ oversize plan) any.
Proof.
  unfold ScheduleHost.Rollback. rewrite (pl_valid _ _ Hplan).
  apply (spec_bind _ _ _ _ (fun _ => on_files (installed plan))); [by apply spec_ret|intros _].
  apply (spec_bind _ _ _ _ (fun _ => on_files (installed plan))).
  { apply (spec_for_each true (Artifacts plan) _ (fun _ => on_files (installed plan))). intros before a rest Hl.
    assert (Ha : a ∈ Artifacts plan) by (rewrite Hl; apply elem_of_app; right; by left).
    eapply spec_bind; [apply (spec_read true _ (installed plan) (fun fs => installed plan fs /\ oversize plan) (fun _ => True)); [done|done|]|].
    { intros fs Hi Hn. split; [done|]. eapply in_place_reads; [done|by apply Hi|done]. }
    intros b h Hh [Hi Hb]. pose proof (Hi a Ha) as Hp. unfold in_place in Hp. unfold SiteActivation.snapshot_at in Hb.
    destruct (a_Remove a); [rewrite Hp in Hb; by injection Hb as <-|]. destruct Hp as (u & g & Hn). rewrite Hn, text_bytes in Hb.
    case_match; [done|]. injection Hb as <-. simpl. rewrite text_bytes, String.eqb_refl. done. }
  intros _. apply (spec_bind _ _ _ _ (fun _ => on_files (same plan fs0))).
  { eapply spec_conseq; [apply spec_task_restore| |done|done|done]. intros s Hi p (a & -> & Ha)%list_elem_of_fmap Hn.
    specialize (Hi a Ha). unfold in_place in Hi. destruct (a_Remove a); [congruence|]. destruct Hi as (u & g & Hi). congruence. }
  intros _. unfold observe. eapply spec_bind.
  - apply (spec_reads_from true (same plan fs0) (fun fs => installed plan fs /\ oversize plan)); [done|]. intros a fs Ha Hs Hn. by destruct (same_reads fs a Hs Ha).
  - intros bs. apply spec_ret. by intros s [Hp Hf].
Qed.
End current.
End host.
