(* ===== verification/ScheduleTasks.v ===== *)
(** * Installing and undoing scheduled commands

    What the agent promises about the two files of a task: applying a plan installs the
    task or leaves the files as they were, a crash leaves each of them whole, and a
    rollback restores what the plan recorded. *)

From Stdlib Require Import Ascii.
From S2P Require Import Prelude GoStrings Update UpdateLogic Paths Regex Naming Sites SiteChecks SiteProps SiteActivation SiteFs Schedules ScheduleCron ScheduleCrontab ScheduleHost ScheduleHostProps.
From S2P Require SiteHost SitePlans.

Local Open Scope Z_scope.

(** ** The paths of a task *)
Definition good_roots (o : Renderer) : Prop :=
  exists l1 l2 l3, Forall plain l1 /\ Forall plain l2 /\ Forall plain l3 /\
    siteRoot o = abs l1 /\ taskScriptRoot o = abs l2 /\ cronRoot o = abs l3.

Lemma or_default_set s d : s <> EmptyString -> or_default s d = s.
Proof. unfold or_default. by destruct (String.eqb_spec s EmptyString). Qed.

Lemma operator_roots config o : NewHostOperator config = Ok o -> good_roots o.
Proof.
  unfold NewHostOperator. destruct (_ || _) eqn:H; [done|]. intros [= <-].
  rewrite !orb_false_iff, !negb_false_iff in H. destruct H as [[(l1 & H1 & E1)%clean_is_abs (l2 & H2 & E2)%clean_is_abs] (l3 & H3 & E3)%clean_is_abs].
  exists l1, l2, l3. unfold siteRoot, taskScriptRoot, cronRoot. cbn [SiteRoot TaskScriptRoot CronRoot].
  do 3 (rewrite (or_default_set (path_clean _)) by apply path_clean_nonempty). by split_and!.
Qed.

Lemma plain_task_name s : any_byte (Ascii.eqb slash) s = false -> plain ("nexa-task-" +:+ s).
Proof. intros Hs. split_and!; [done..|]. rewrite any_byte_app, Hs. done. Qed.

Lemma last_apart l m (x y : string) : Forall plain (l ++ [x]) -> Forall plain (m ++ [y]) -> x <> y -> abs (l ++ [x]) <> abs (m ++ [y]).
Proof. intros Hl Hm Hxy He. apply abs_inj in He; [|done|done]. apply app_inj_tail in He as [_ He]. done. Qed.

Lemma task_paths o task : good_roots o -> fine_task o task ->
  NoDup [wrapperPath o task; cronPath o task] /\ log_directory (t_Scope task) ∉ [wrapperPath o task; cronPath o task].
Proof.
  intros (l1 & l2 & l3 & H1 & H2 & H3 & E1 & E2 & E3) Ht. pose proof (hex_no_slash _ (proj2 (ft_id _ _ Ht))) as Hid.
  assert (Hw : plain ("nexa-task-" +:+ t_ID task +:+ ".sh")) by (apply plain_task_name; by rewrite any_byte_app, Hid).
  pose proof (plain_task_name _ Hid) as Hk. pose proof (slug_plain _ (ft_slug _ _ Ht)) as Hs.
  assert (Hlogs : Forall plain ["logs"; "tasks"]%string) by (repeat (constructor; [by split_and!|]); constructor).
  unfold wrapperPath, cronPath, log_directory. rewrite (ft_root _ _ Ht), E1, E2, E3.
  rewrite !join_abs by (first [done|by apply Forall_singleton]). rewrite (join_abs (l1 ++ _)) by (first [done|apply Forall_app; split; [done|by apply Forall_singleton]]).
  assert (P1 : Forall plain (l2 ++ ["nexa-task-" +:+ t_ID task +:+ ".sh"])) by (apply Forall_app; split; [done|by apply Forall_singleton]).
  assert (P2 : Forall plain (l3 ++ ["nexa-task-" +:+ t_ID task])) by (apply Forall_app; split; [done|by apply Forall_singleton]).
  change ["logs"; "tasks"]%string with (["logs"%string] ++ ["tasks"%string]). rewrite (assoc_L (++)).
  assert (P3 : Forall plain (((l1 ++ [sc_Slug (t_Scope task)]) ++ ["logs"%string]) ++ ["tasks"%string])).
  { rewrite <-(assoc_L (++)). apply Forall_app. split; [|done]. apply Forall_app. split; [done|by apply Forall_singleton]. }
  split.
  - apply NoDup_cons_2; [|apply NoDup_singleton]. intros He%list_elem_of_singleton. revert He. apply last_apart; [done|done|].
    intros He. apply (f_equal String.length) in He. rewrite !str_length_app in He. simpl in He. lia.
  - rewrite !elem_of_cons, elem_of_nil. intros [He|[He|[]]]; revert He; by apply last_apart.
Qed.

(** ** Plans *)
Section promises.
Context (is_print : string -> bool) (text_of : content -> string) (digestBytes : string -> string).
Context (lookup_user : string -> option (Z * Z)) (lookup_group : string -> option Z).
Context (text_bytes : forall b, text_of (Bytes b) = b).
Context (config : HostConfig) (o : Renderer) (Hconfig : NewHostOperator config = Ok o).
Notation MakePlan := (MakePlan is_print text_of digestBytes o).
Notation Apply := (Apply is_print text_of digestBytes lookup_user lookup_group o).
Notation Rollback := (Rollback is_print text_of digestBytes o).
Notation planned := (planned is_print text_of digestBytes o).

Lemma rendered task removal artifacts warnings : Render is_print o task removal = Ok (artifacts, warnings) ->
  fine_task o task /\ a_Path <$> artifacts = [wrapperPath o task; cronPath o task] /\
  Render is_print o task (is_removal artifacts) = Ok (artifacts, warnings).
Proof.
  unfold Render. destruct (validateTask is_print task (siteRoot o)) as [[]|] eqn:Hv; [|done]. apply validated_task in Hv.
  destruct removal; [|destruct (t_Enabled task) eqn:He]; intros [= <- <-]; rewrite ?He; by split_and!.
Qed.

Lemma made_valid id now task removal artifacts warnings before fs : id <> EmptyString ->
  Render is_print o task removal = Ok (artifacts, warnings) ->
  Forall2 (fun a b => snapshot_at text_of digestBytes fs (a_Path a) = Some b) artifacts before ->
  validatePlan is_print o (mk_plan id PlanKind task artifacts before warnings now (now + PlanTTL)) = Ok tt.
Proof.
  intros Hid Hr Hb. destruct (rendered _ _ _ _ Hr) as (_ & Hp & Hr'). unfold validatePlan. cbn [PlanID p_Kind Artifacts Before p_Task].
  rewrite Hr', (Forall2_length _ _ _ Hb), !Nat.eqb_refl. apply String.eqb_neq in Hid. rewrite Hid.
  assert (Hlen : length before = 2%nat) by (rewrite <-(Forall2_length _ _ _ Hb), <-(length_fmap a_Path artifacts), Hp; done).
  rewrite Hlen, String.eqb_refl. cbn [orb negb Nat.eqb].
  assert (forallb (fun x => bool_decide (x.1.1 = x.1.2) && String.eqb (SiteHost.sn_Path x.2) (a_Path x.1.2)) (zip (zip artifacts artifacts) before) = true) as ->; [|done].
  clear Hlen Hr Hr' Hp. induction Hb as [|a b artifacts before Hab _ IH]; [done|]. simpl. apply SitePlans.snapshot_path in Hab.
  by rewrite bool_decide_eq_true_2, Hab, String.eqb_refl, IH.
Qed.

Lemma made_task_plan id now task removal h plan h' : id <> EmptyString -> MakePlan id now task removal h = (Done plan, h') ->
  files h' = files h /\ planned (files h) plan /\ fine_task o (p_Task plan) /\ ExpiresAt plan = now + PlanTTL.
Proof.
  intros Hid. unfold ScheduleHost.MakePlan. destruct (Render is_print o task removal) as [[artifacts warnings]|e] eqn:Hr; [|done].
  unfold mbind, M_bind, ScheduleHost.check, mret, M_ret. cbn beta iota. assert (Hf : false = true -> schedule h = []) by done.
  pose proof (spec_reads text_of digestBytes false artifacts (files h) h Hf eq_refl) as H.
  destruct (readSnapshots text_of digestBytes artifacts h) as [[before|e|] h1]; [|done..]. intros [= <- <-].
  destruct H as (_ & Hfs & Hb). destruct (rendered _ _ _ _ Hr) as (Ht & Hp & _).
  destruct (task_paths o task (operator_roots _ _ Hconfig) Ht) as [Hd Hl]. split_and!; [done| |done|done].
  split; [by eapply made_valid|done|unfold paths; simpl; by rewrite Hp|unfold paths, logs; simpl; by rewrite Hp].
Qed.

(** C24. A task is installed or nothing happens, whatever single thing goes wrong.  The
    plan was made by the agent, and the files it is about were as the agent writes them
    (bytes, permission bits, an owner) and are still as they were.  Either every system
    call is answered and accounts or groups may be missing, or these exist and one system
    call, whichever it is, is refused; the agent does not die and the calls after a
    refused one are answered, those of the restoration among them.  When [Apply]
    succeeds, each artifact is in place: written with its content and mode, or gone if the
    plan removes it.  When it fails, both files are as they were, byte for byte, with
    their modes and owners; the one exception is a task that is installed and then cannot
    be read back, since that call is the refused one or an artifact has more than
    512 KiB. *)
Theorem schedule_apply_or_nothing id now task removal h0 plan h1 later h :
  id <> EmptyString -> MakePlan id now task removal h0 = (Done plan, h1) -> tidy (paths plan) (files h0) ->
  same plan (files h0) (files h) ->
  schedule h = [] \/
    (one_refusal (schedule h) /\ (forall name, is_Some (lookup_user name)) /\ (forall name, is_Some (lookup_group name))) ->
  match Apply later plan h with
  | (Done ob, h') => installed plan (files h') /\ observed text_of digestBytes plan ob (files h') /\ later <= now + PlanTTL
  | (Failed _, h') => same plan (files h0) (files h') \/ (installed plan (files h') /\ (schedule h = [] -> oversize plan))
  | (Crashed, _) => False
  end.
Proof.
  intros Hid Hm Ht Hsame Hs. destruct (made_task_plan _ _ _ _ _ _ _ Hid Hm) as (_ & Hp & _ & Hexp).
  assert (H : match Apply later plan h with
    | (Done ob, h') => installed plan (files h') /\ observed text_of digestBytes plan ob (files h')
    | (Failed _, h') => same plan (files h0) (files h') \/ (installed plan (files h') /\ (schedule h = [] -> oversize plan))
    | (Crashed, _) => False end).
  { destruct (decide (schedule h = [])) as [He|Hne].
    - pose proof (spec_task_Apply is_print text_of digestBytes lookup_user lookup_group text_bytes o plan (files h0) Hp Ht later h (fun _ => He) Hsame) as H.
      destruct (Apply later plan h) as [[ob|e|] h']; [by destruct H|destruct H as (_ & [H|[Hi Ho]]); [by left|by right]|by destruct H].
    - destruct Hs as [|(Hone & Hu & Hg)]; [done|].
      pose proof (Apply_one_refusal is_print text_of digestBytes lookup_user lookup_group text_bytes o plan (files h0) Hp Ht Hu Hg later h Hone Hsame) as H.
      destruct (Apply later plan h) as [[ob|e|] h']; [done|destruct H as [H|H]; [by left|by right]|done]. }
  destruct (Apply later plan h) as [[ob|e|] h'] eqn:He; [|done..]. destruct H as [Hi Ho]. split_and!; [done..|].
  revert He. unfold ScheduleHost.Apply. rewrite (pl_valid _ _ _ _ _ _ Hp). unfold mbind, M_bind, ScheduleHost.check, mret, M_ret. cbn beta iota.
  rewrite Hexp. destruct (now + PlanTTL <? later) eqn:Hl; [done|]. intros _. lia.
Qed.

(** Rolling a task back restores the node.  With the artifacts of a plan of the agent
    in place and system calls answered, [Rollback] gives both files the content, mode and
    owner the plan recorded, or removes them where it recorded none; it fails, changing
    nothing, only on an artifact of more than 512 KiB. *)
Theorem schedule_rollback_restores id now task removal h0 plan h1 later h :
  id <> EmptyString -> MakePlan id now task removal h0 = (Done plan, h1) -> tidy (paths plan) (files h0) ->
  installed plan (files h) -> schedule h = [] ->
  match Rollback later plan h with
  | (Done ob, h') => same plan (files h0) (files h') /\ observed text_of digestBytes plan ob (files h')
  | (Failed _, h') => installed plan (files h') /\ oversize plan
  | (Crashed, _) => False
  end.
Proof.
  intros Hid Hm Ht Hi Hs. destruct (made_task_plan _ _ _ _ _ _ _ Hid Hm) as (_ & Hp & _ & _).
  pose proof (spec_task_Rollback is_print text_of digestBytes lookup_user lookup_group text_bytes o plan (files h0) Hp Ht later h (fun _ => Hs) Hi) as H.
  destruct (Rollback later plan h) as [[ob|e|] h']; [by apply H|by apply H|by destruct H].
Qed.

(** Attempts at a plan: an application or a rollback, at a time, with the answers system
    calls give until one of them refuses everything or the agent dies. *)
Record attempt_of := mk_attempt { at_rollback : bool; at_time : Z; at_answers : list answer }.
Definition attempted (plan : Plan) (a : attempt_of) (h : machine) : machine :=
  (if at_rollback a then Rollback (at_time a) plan (with_schedule (at_answers a) h)
   else Apply (at_time a) plan (with_schedule (at_answers a) h)).2.

Lemma attempts_between plan fs0 l : planned fs0 plan -> tidy (paths plan) fs0 -> forall h,
  between plan fs0 (files h) -> between plan fs0 (files (foldl (fun h a => attempted plan a h) h l)).
Proof.
  intros Hp Ht. induction l as [|[rb t answers] l IH]; intros h Hb; [done|]. simpl. apply IH. unfold attempted. simpl.
  assert (Hf : false = true -> schedule (with_schedule answers h) = []) by done. destruct rb.
  - pose proof (keeps_Rollback is_print text_of digestBytes text_bytes o plan fs0 Hp Ht false t (with_schedule answers h) Hf Hb) as H.
    by destruct (Rollback t plan _) as [[ob|e|] h']; destruct H.
  - pose proof (keeps_Apply is_print text_of digestBytes lookup_user lookup_group text_bytes o plan fs0 Hp Ht false t (with_schedule answers h) Hf Hb) as H.
    by destruct (Apply t plan _) as [[ob|e|] h']; destruct H.
Qed.

(** A task's files are whole whatever happens.  Let the agent apply and roll back a
    plan of its own any number of times, with system calls refused and the agent dying
    anywhere: each of the two files is then as it was when the plan was made, or as the
    plan says (written, or gone), or has its recorded content and mode under another
    owner; no other content is ever in place, and nothing but these two files and the
    owner of the site's log directory has changed. *)
Theorem schedule_files_whole id now task removal h0 plan h1 attempts :
  id <> EmptyString -> MakePlan id now task removal h0 = (Done plan, h1) -> tidy (paths plan) (files h0) ->
  between plan (files h0) (files (foldl (fun h a => attempted plan a h) h1 attempts)).
Proof.
  intros Hid Hm Ht. destruct (made_task_plan _ _ _ _ _ _ _ Hid Hm) as (Hfs & Hp & _ & _).
  apply attempts_between; [done|done|]. rewrite Hfs. by apply between_start.
Qed.
End promises.

(** ** A scheduled command on a concrete node

    The sample task of [ScheduleCrontab] planned, applied, interrupted and rolled back on
    a node that has an older crontab of it. *)
Module HostSamples.
Definition text_of (c : content) : string := match c with Bytes b => b | _ => EmptyString end.
Definition digest_of (text : string) : string := text.
Definition users (name : string) : option (Z * Z) := if String.eqb name "root" then Some (0, 0) else Some (1001, 1001).
Definition groups (name : string) : option Z := Some 33.
Definition no_groups (name : string) : option Z := None.
Definition config : HostConfig := mk_host_config EmptyString EmptyString EmptyString.
Definition agent : Renderer := mk_renderer "/srv/nexa/sites" "/etc/nexa-panel/generated/tasks" "/etc/cron.d".
Definition sample : Task := ScheduleCrontab.Samples.sample.
Notation plan_task := (MakePlan (fun _ => true) text_of digest_of agent "p" 0).
Notation apply_with groups := (Apply (fun _ => true) text_of digest_of users groups agent 0).
Notation rollback_plan := (Rollback (fun _ => true) text_of digest_of agent 0).
Definition fresh (schedule : list answer) (fs : filesystem) : machine := mk_machine fs None schedule [].

Definition cron_file : string := cronPath agent sample.
Definition wrapper_file : string := wrapperPath agent sample.
Definition older : filesystem := {[ cron_file := Reg (Bytes "0 4 * * * nexa_demo old") 420 0 0 ]}.
Definition no_plan : Plan := mk_plan EmptyString EmptyString sample [] [] [] 0 0.
Definition planned_task : Plan := match plan_task sample false (fresh [] older) with (Done plan, _) => plan | _ => no_plan end.
Definition applied : machine := (apply_with groups planned_task (fresh [] older)).2.

Lemma made : plan_task sample false (fresh [] older) = (Done planned_task, fresh [] older).
Proof. by vm_compute. Qed.

Lemma older_task_tidy : tidy (paths planned_task) older.
Proof.
  intros p c m u g _ H. unfold older in H. apply lookup_singleton_Some in H as [_ H].
  injection H as <- <- <- <-. split_and!; [by eexists|done..].
Qed.

(** The rename of the second file is refused: nothing is installed, and the older
    crontab stays. *)
Definition refused : list answer := replicate 12 Proceed ++ [Refuse].
Lemma schedule_apply_or_nothing_witness :
  (apply_with groups planned_task (fresh refused older)).1 <> Crashed /\
  match apply_with groups planned_task (fresh refused older) with
  | (Done ob, h') => installed planned_task (files h') /\ observed text_of digest_of planned_task ob (files h') /\ 0 <= 0 + PlanTTL
  | (Failed _, h') => same planned_task older (files h') \/ (installed planned_task (files h') /\ (refused = [] -> oversize planned_task))
  | (Crashed, _) => False
  end.
Proof.
  pose proof (schedule_apply_or_nothing (fun _ => true) text_of digest_of users groups (fun _ => eq_refl) config agent eq_refl
           "p" 0 sample false (fresh [] older) planned_task (fresh [] older) 0 (fresh refused older)) as H.
  split; [vm_compute; discriminate|].
  refine (H ltac:(discriminate) made older_task_tidy (fun _ _ => eq_refl) _). right. split_and!.
  - right. by exists 12%nat.
  - intros name. unfold users. by destruct (String.eqb name "root").
  - done.
Defined.

Lemma applied_node :
  files applied !! cron_file = Some (Reg (Bytes (renderCron agent sample)) 420 0 0) /\
  files applied !! wrapper_file = Some (Reg (Bytes (renderWrapper sample)) 488 0 33).
Proof. by vm_compute. Qed.

Lemma failed_node : (apply_with no_groups planned_task (fresh [] older)).1 = Failed "unknown group"%string /\
  files (apply_with no_groups planned_task (fresh [] older)).2 !! wrapper_file = None.
Proof. by vm_compute. Qed.

Lemma refused_node : (apply_with groups planned_task (fresh refused older)).1 = Failed system_error /\
  files (apply_with groups planned_task (fresh refused older)).2 !! wrapper_file = None /\
  files (apply_with groups planned_task (fresh refused older)).2 !! cron_file = older !! cron_file.
Proof. by vm_compute. Qed.

Lemma applied_installed : installed planned_task (files applied).
Proof.
  intros a Ha. assert (Hl : Artifacts planned_task = [mk_artifact wrapper_file 488 (renderWrapper sample) "root" "nexa_demo" false;
    mk_artifact cron_file 420 (renderCron agent sample) "root" "root" false]) by (by vm_compute).
  rewrite Hl in Ha. destruct applied_node as [Hc Hw].
  apply elem_of_cons in Ha as [->|Ha]; [unfold in_place; eexists _, _; exact Hw|].
  apply list_elem_of_singleton in Ha as ->. unfold in_place. eexists _, _. exact Hc.
Qed.

Lemma schedule_rollback_restores_witness :
  match rollback_plan planned_task (fresh [] (files applied)) with
  | (Done ob, h') => same planned_task older (files h') /\ observed text_of digest_of planned_task ob (files h')
  | (Failed _, h') => installed planned_task (files h') /\ oversize planned_task
  | (Crashed, _) => False
  end.
Proof.
  apply (schedule_rollback_restores (fun _ => true) text_of digest_of users groups (fun _ => eq_refl) config agent eq_refl
           "p" 0 sample false (fresh [] older) planned_task (fresh [] older) 0 (fresh [] (files applied)));
    [done|apply made|apply older_task_tidy|apply applied_installed|done].
Defined.

(** The agent dies between the two files, then a rollback is refused a write. *)
Definition history : list attempt_of := [mk_attempt false 0 (replicate 14 Proceed ++ [Die]); mk_attempt true 0 [Proceed; Refuse]].
Lemma schedule_files_whole_witness :
  between planned_task older
    (files (foldl (fun h a => attempted (fun _ => true) text_of digest_of users groups agent planned_task a h) (fresh [] older) history)).
Proof.
  apply (schedule_files_whole (fun _ => true) text_of digest_of users groups (fun _ => eq_refl) config agent eq_refl
           "p" 0 sample false (fresh [] older) planned_task (fresh [] older)); [done|apply made|apply older_task_tidy].
Defined.
End HostSamples.
