(* ===== verification/Secrets.v ===== *)
(** * The master key and the box of secrets

    [internal/platform/secrets] (box.go, keypath.go): the key file, created once and
    never replaced, its move out of the state directory, and the authenticated encryption
    of labelled secrets.  The key file lives on the host of [Update]. *)

From Stdlib Require Import Ascii.
From S2P Require Import Prelude GoStrings Codec Release Update UpdateLogic.

Local Open Scope Z_scope.

(** ** The box *)
Definition keySize : Z := 32.

(** [cipher.AEAD]: AES-GCM under a key. *)
Record AEAD := mk_aead {
  NonceSize : Z;
  Overhead : Z;
  seal : string -> string -> string -> string;            (* nonce, plaintext, additional data *)
  open : string -> string -> string -> option string;     (* nonce, ciphertext, additional data *)
}.

Class AEADLaws (a : AEAD) : Prop := {
  law_sizes : 0 <= NonceSize a /\ 0 <= Overhead a;
  law_overhead n p l : len (seal a n p l) = len p + Overhead a;
  law_open n p l : len n = NonceSize a -> open a n (seal a n p l) l = Some p;
  law_only n c l p : len n = NonceSize a -> open a n c l = Some p -> c = seal a n p l;
}.

Definition New (aes_gcm : string -> AEAD) (key : string) : result string AEAD :=
  if negb (len key =? keySize) then Err "master key must be 32 bytes"%string else Ok (aes_gcm key).

(** [nonce]: the random bytes of this call. *)
Definition Encrypt (b : AEAD) (nonce label plaintext : string) : result string string :=
  if String.eqb label EmptyString then Err "secret label is required"%string
  else Ok (base64url_encode (nonce +:+ seal b nonce plaintext label)).

Definition invalid_secret : string := "encrypted secret is invalid".
Definition Decrypt (b : AEAD) (label encoded : string) : result string string :=
  if String.eqb label EmptyString then Err "secret label is required"%string
  else match base64url_decode encoded with
  | None => Err invalid_secret
  | Some payload =>
      if len payload <? NonceSize b + Overhead b then Err invalid_secret
      else
        let nonce := take_bytes (Z.to_nat (NonceSize b)) payload in
        let ciphertext := drop_bytes (Z.to_nat (NonceSize b)) payload in
        match open b nonce ciphertext label with
        | Some plaintext => Ok plaintext
        | None => Err "encrypted secret authentication failed"%string
        end
  end.

(** ** The key file *)
Section keys.
Context (follow : filesystem -> string -> option node) (text_of : content -> string).
(** How many bytes a write that does not finish leaves behind; the bytes of a fresh key. *)
Context (written : nat) (fresh : string).

Definition not_private : string := "master key must be a regular file accessible only by its owner".
(** [None]: the file does not exist. *)
Definition readKey (path : string) : M (option string) :=
  n ← lstat path;
  match n with
  | None => mret None
  | Some (Reg _ mode _ _) =>
      if negb (Z.land (perm mode) 63 =? 0) then fail not_private
      else
        c ← wrap "read master key" (read_existing follow path);
        if negb (len (text_of c) =? keySize) then fail "master key must contain 32 bytes" else mret (Some (text_of c))
  | Some _ => fail not_private
  end.
Definition readKey_existing (path : string) : M string :=
  r ← readKey path; match r with Some key => mret key | None => fail system_error end.

Definition syncDirectory : M unit := _ ← io; io.

(** [os.Link] of the finished temporary file: never over an existing path. *)
Definition readOrCreateKey (path : string) : M string :=
  r ← wrap "read master key" (readKey path);
  match r with
  | Some key => mret key
  | None =>
      _ ← wrap "create temporary master key" io;
      _ ← wrap "write master key" io;
      a ← attempt (_ ← io; get);
      match a with
      | inr e => fail ("publish master key without replacing an existing key: " +:+ e)
      | inl h =>
          match files h !! path with
          | Some _ => readKey_existing path
          | None =>
              _ ← update_files (<[path := Reg (Bytes fresh) 384 0 0]>);
              s ← attempt syncDirectory;
              match s with
              | inl _ => mret fresh
              | inr e => _ ← attempt (remove path); fail ("persist master key directory entry: " +:+ e)
              end
          end
      end
  end.

(** [filepath.Abs] in a working directory. *)
Definition absolute (cwd path : string) : string :=
  if has_prefix "/" path then path_clean path else filepath_join [cwd; path].

(** The box is given by its key. *)
Definition OpenKeyFile (cwd path : string) : M string :=
  if String.eqb path EmptyString then fail "master key path is required"
  else
    _ ← wrap "create master key directory" io;
    key ← readOrCreateKey (absolute cwd path);
    if negb (len key =? keySize) then fail "master key must be 32 bytes" else mret key.

(** ** The move from the legacy path *)
Definition DefaultKeyPath : string := "/etc/nexa-panel/master.key".
Definition LegacyKeyPath : string := "/var/lib/nexa-panel/master.key".

Definition create_exclusive (p : string) (mode : Z) : M unit :=
  _ ← io; h ← get;
  match files h !! p with
  | Some _ => fail system_error
  | None => update_files (<[p := Reg (Bytes EmptyString) mode 0 0]>)
  end.
Definition set_bytes (b : string) (n : node) : node :=
  match n with Reg _ mode uid gid => Reg (Bytes b) mode uid gid | other => other end.
Definition crash : M unit := fun h => (Crashed, h).
(** A write may stop half way. *)
Definition write (p b : string) : M unit :=
  a ← ask;
  match a with
  | Proceed => update_files (alter (set_bytes b) p)
  | Refuse => _ ← update_files (alter (set_bytes (take_bytes written b)) p); fail system_error
  | Die => _ ← update_files (alter (set_bytes (take_bytes written b)) p); crash
  end.
Definition rename (source destination : string) : M unit :=
  _ ← io;
  update_files (fun fs => match fs !! source with Some n => <[destination := n]> (delete source fs) | None => fs end).

(** A failed step removes the copy. *)
Definition or_remove {A} (target what : string) (m : M A) : M A :=
  r ← attempt (wrap what m);
  match r with inl a => mret a | inr e => _ ← attempt (remove target); fail e end.

Definition copyLegacyKey (target legacy : string) : M unit :=
  key ← wrap "read legacy master key" (readKey_existing legacy);
  _ ← wrap "create relocated master key" (create_exclusive target 384);
  _ ← or_remove target "write relocated master key" (write target key);
  _ ← or_remove target "sync relocated master key" io;
  _ ← or_remove target "close relocated master key" io;
  copied ← or_remove target "verify relocated master key" (readKey_existing target);
  _ ← or_remove target "relocated master key does not match the legacy key" (if String.eqb copied key then mret tt else fail EmptyString);
  _ ← or_remove target "persist relocated master key directory entry" syncDirectory;
  _ ← or_remove target "remove legacy master key after copying it" (remove legacy);
  wrap "persist legacy master key removal" syncDirectory.

Definition relocateLegacyKey (target legacy : string) : M unit :=
  old ← wrap "inspect legacy master key" (lstat legacy);
  match old with
  | None => mret tt
  | Some info =>
      new ← wrap "inspect master key" (lstat target);
      match new with
      | Some _ => mret tt
      | None =>
          match info with
          | Reg _ _ _ _ =>
              _ ← wrap "create master key directory" io;
              r ← attempt (rename legacy target);
              match r with inl _ => mret tt | inr _ => copyLegacyKey target legacy end
          | _ => fail "legacy master key must be a regular file"
          end
      end
  end.

Definition OpenDefaultKeyFile (cwd path : string) : M string :=
  _ ← (if String.eqb (path_clean path) DefaultKeyPath then relocateLegacyKey DefaultKeyPath LegacyKeyPath else mret tt);
  OpenKeyFile cwd path.
End keys.

(** ** What the box promises *)
(** A secret opens as what was sealed, under its own label, and nothing else opens.
    Encrypting under a label and a nonce of the cipher's size, then decrypting under the
    same label, gives the plaintext back; and [Decrypt] succeeds exactly on texts whose
    decoded bytes are a nonce followed by the seal of the result under that label: a
    text that was not sealed for the label, is cut short, or is not base64, is refused. *)
Theorem secrets_box_roundtrip (b : AEAD) `{!AEADLaws b} label :
  label <> EmptyString ->
  (forall nonce plaintext, len nonce = NonceSize b -> exists text,
     Encrypt b nonce label plaintext = Ok text /\ Decrypt b label text = Ok plaintext) /\
  (forall text plaintext, Decrypt b label text = Ok plaintext <->
     exists nonce, len nonce = NonceSize b /\ base64url_decode text = Some (nonce +:+ seal b nonce plaintext label)).
Proof.
  intros Hl. destruct law_sizes as [Hs Ho].
  assert (Hopen : forall text nonce plaintext, len nonce = NonceSize b ->
    base64url_decode text = Some (nonce +:+ seal b nonce plaintext label) -> Decrypt b label text = Ok plaintext).
  { intros text nonce plaintext Hn Ht. unfold Decrypt. rewrite (proj2 (String.eqb_neq _ _) Hl), Ht.
    assert (Hlen : (len (nonce +:+ seal b nonce plaintext label) <? NonceSize b + Overhead b) = false).
    { apply Z.ltb_ge. unfold len. rewrite str_length_app, Nat2Z.inj_add. fold (len nonce) (len (seal b nonce plaintext label)).
      rewrite law_overhead, Hn. unfold len. lia. }
    assert (Hnat : Z.to_nat (NonceSize b) = String.length nonce) by (rewrite <-Hn; unfold len; lia).
    rewrite Hlen, Hnat. destruct (take_drop_bytes_app nonce (seal b nonce plaintext label)) as [-> ->]. by rewrite law_open. }
  split.
  - intros nonce plaintext Hn. unfold Encrypt. rewrite (proj2 (String.eqb_neq _ _) Hl). eexists. split; [done|].
    eapply Hopen; [done|]. apply base64url_roundtrip.
  - intros text plaintext. split; [|intros (nonce & Hn & Ht); by eapply Hopen]. unfold Decrypt.
    rewrite (proj2 (String.eqb_neq _ _) Hl). destruct (base64url_decode text) as [payload|]; [|done].
    destruct (Z.ltb_spec (len payload) (NonceSize b + Overhead b)) as [|Hge]; [done|]. cbv zeta.
    set (nonce := take_bytes _ payload). destruct (open b nonce _ label) as [p|] eqn:Hop; [|done]. intros [= ->].
    assert (Hn : len nonce = NonceSize b).
    { unfold nonce. clear -Hs Ho Hge. unfold len in *. revert payload Hge.
      assert (H : forall n (s : string), (n <= String.length s)%nat -> String.length (take_bytes n s) = n).
      { intros n. induction n as [|n IH]; intros [|c s]; simpl; try lia. intros. rewrite IH; lia. }
      intros payload Hge. rewrite H; lia. }
    exists nonce. split; [done|]. apply law_only in Hop; [|done]. rewrite <-Hop. unfold nonce. by rewrite take_drop_bytes.
Qed.

(** ** What the key file promises

    [K] at [p], readable by its owner only. *)
Section survival.
Context (follow : filesystem -> string -> option node) (text_of : content -> string).
Context (text_bytes : forall b, text_of (Bytes b) = b).
Context (K : string) (key_length : len K = keySize).

Definition key_at (p : string) (fs : filesystem) : Prop :=
  exists c mode u g, fs !! p = Some (Reg c mode u g) /\ text_of c = K /\ Z.land (perm mode) 63 = 0.

(** A copy under way: what is there of it is a beginning of the key. *)
Definition part_at (p : string) (fs : filesystem) : Prop :=
  exists n u g, fs !! p = Some (Reg (Bytes (take_bytes n K)) 384 u g).

(** The key is at the legacy path, the other one free or torn; or it has moved. *)
Definition kept (fs : filesystem) : Prop :=
  (key_at LegacyKeyPath fs /\ (fs !! DefaultKeyPath = None \/ part_at DefaultKeyPath fs)) \/ key_at DefaultKeyPath fs.

Notation holds := (fun (P : filesystem -> Prop) (s : state) => P s.1).
Notation J := (holds kept).

Lemma paths_differ : LegacyKeyPath <> DefaultKeyPath.
Proof. done. Qed.

Lemma key_delete p q fs : p <> q -> key_at p fs -> key_at p (delete q fs).
Proof. intros Hpq (c & m & u & g & H & ? & ?). exists c, m, u, g. by rewrite lookup_delete_ne. Qed.
Lemma key_insert p q n fs : p <> q -> key_at p fs -> key_at p (<[q:=n]> fs).
Proof. intros Hpq (c & m & u & g & H & ? & ?). exists c, m, u, g. by rewrite lookup_insert_ne. Qed.



(** What is read at the new path while a copy may be torn there is the key or refused. *)
Lemma part_key fs : part_at DefaultKeyPath fs -> forall c m u g, fs !! DefaultKeyPath = Some (Reg c m u g) -> len (text_of c) = keySize -> text_of c = K.
Proof.
  intros (n & u0 & g0 & H) c m u g H'. rewrite H in H'. injection H' as <- _ _ _. rewrite text_bytes. unfold len, keySize in *.
  destruct (Nat.le_gt_cases (String.length K) n); [by rewrite take_bytes_short|]. rewrite take_bytes_length by lia. lia.
Qed.

Lemma spec_readKey c p (P : state -> Prop) F I : (forall s, P s -> I s) -> (forall s, P s -> F s) ->
  spec c P (readKey follow text_of p) (fun r s => P s /\ match r with
    | None => s.1 !! p = None
    | Some k => len k = keySize /\ exists x m u g, s.1 !! p = Some (Reg x m u g) /\ text_of x = k /\ Z.land (perm m) 63 = 0 end) F I.
Proof.
  intros HI HF. unfold readKey. eapply spec_bind; [by apply spec_lstat; auto|]. intros [[x m u g|t u g|]|]; cbn beta.
  - destruct (Z.eqb_spec (Z.land (perm m) 63) 0) as [Hm|]; cbn [negb]; [|apply spec_fail; intros s [_ Hs]; auto].
    eapply spec_bind.
    { apply spec_wrap, (spec_read_existing follow c p x (fun s => Some (Reg x m u g) = s.1 !! p /\ P s)).
      - intros s [_ Hs]. auto.
      - intros s _ [_ Hs]. auto.
      - intros s [<- _]. eauto. }
    intros y. cbn beta. destruct (Z.eqb_spec (len (text_of y)) keySize) as [Hl|]; cbn [negb].
    + apply spec_ret. intros s (-> & <- & Hs). split; [done|]. split; [done|]. by exists x, m, u, g.
    + apply spec_fail. intros s (_ & _ & Hs). auto.
  - apply spec_fail. intros s [_ Hs]. auto.
  - apply spec_fail. intros s [_ Hs]. auto.
  - apply spec_ret. intros s [<- Hs]. done.
Qed.

Lemma spec_readKey_existing c p (P : state -> Prop) F I : (forall s, P s -> I s) -> (forall s, P s -> F s) ->
  spec c P (readKey_existing follow text_of p) (fun k s => P s /\ len k = keySize /\
    exists x m u g, s.1 !! p = Some (Reg x m u g) /\ text_of x = k /\ Z.land (perm m) 63 = 0) F I.
Proof.
  intros HI HF. unfold readKey_existing. eapply spec_bind; [by apply spec_readKey|]. intros [k|].
  - apply spec_ret. intros s (Hs & Hk & Hx). done.
  - apply spec_fail. intros s [Hs _]. auto.
Qed.

Lemma spec_or_remove c {A} target what (m : M A) (P : state -> Prop) Q (F0 F I : state -> Prop) :
  spec c P m Q F0 I -> (forall s, F0 s -> I s /\ F s /\ F (delete target s.1, s.2)) -> spec c P (or_remove target what m) Q F I.
Proof.
  intros Hm HF. unfold or_remove. eapply spec_bind; [by apply spec_attempt, spec_wrap|]. intros [a|e]; [by apply spec_ret|].
  eapply (spec_bind c _ _ _ (fun _ => F)); [|intros ?; by apply spec_fail].
  apply (spec_conseq c F0 F0 _ (fun _ => F) (fun r s => match r with inl _ => F s | inr _ => F s end) F F I I); try done;
    [|by intros [] ?]. eapply spec_attempt, (spec_remove c target F0 (fun _ => F) F I).
  - intros s Hs. by apply HF.
  - intros s _ Hs. by apply HF.
  - intros s Hs. by apply HF.
Qed.

(** The copy: the key stays at the legacy path until it is whole at the new one. *)
Definition copying (rest : filesystem -> Prop) (s : state) : Prop := key_at LegacyKeyPath s.1 /\ rest s.1.
Definition whole (fs : filesystem) : Prop := fs !! DefaultKeyPath = Some (Reg (Bytes K) 384 0 0).

Lemma kept_free s : copying (fun fs => fs !! DefaultKeyPath = None) s -> J s.
Proof. intros [H H']. left. auto. Qed.
Lemma kept_part s : copying (part_at DefaultKeyPath) s -> J s.
Proof. intros [H H']. left. auto. Qed.
Lemma kept_whole s : whole s.1 -> J s.
Proof. intros H. right. exists (Bytes K), 384, 0, 0. by rewrite text_bytes. Qed.

Lemma kept_torn s : copying (part_at DefaultKeyPath) s -> J s /\ J s /\ J (delete DefaultKeyPath s.1, s.2).
Proof.
  intros H. split_and!; [by apply kept_part..|]. left. split; [apply key_delete, H; done|]. left. apply lookup_delete_eq.
Qed.
Lemma whole_part fs : whole fs -> part_at DefaultKeyPath fs.
Proof. intros H. exists (String.length K), 0, 0. by rewrite take_bytes_short. Qed.
Lemma kept_both s : copying whole s -> J s /\ J s /\ J (delete DefaultKeyPath s.1, s.2).
Proof. intros [H H']. apply kept_torn. split; [done|by apply whole_part]. Qed.

Notation copying_part := (copying (part_at DefaultKeyPath)).

Lemma spec_key_write written : spec false
  (copying (fun fs => fs !! DefaultKeyPath = Some (Reg (Bytes EmptyString) 384 0 0))) (write written DefaultKeyPath K)
  (fun _ => copying whole) copying_part J.
Proof.
  assert (Hupd : forall h b, key_at LegacyKeyPath (files h) -> files h !! DefaultKeyPath = Some (Reg (Bytes EmptyString) 384 0 0) ->
    key_at LegacyKeyPath (alter (set_bytes b) DefaultKeyPath (files h)) /\
    alter (set_bytes b) DefaultKeyPath (files h) !! DefaultKeyPath = Some (Reg (Bytes b) 384 0 0)).
  { intros h b (c & m & u & g & Hk & Ht & Hm) Hd. split; [exists c, m, u, g; by rewrite lookup_alter_ne|].
    by rewrite lookup_alter_eq, Hd. }
  intros h _ [Hk Hd]. destruct (Hupd h K Hk Hd) as [H1 H2]. destruct (Hupd h (take_bytes written K) Hk Hd) as [H3 H4].
  unfold write, ask, mbind, M_bind. destruct (head (schedule h)) as [[| |]|]; simpl; (split; [done|]); simpl.
  - done.
  - split; [done|]. by exists written, 0, 0.
  - left. split; [done|]. right. by exists written, 0, 0.
  - done.
Qed.

Lemma spec_sync (P : state -> Prop) : spec false P syncDirectory (fun _ => P) P P.
Proof. eapply spec_bind; [by apply spec_io|]. intros ?. by apply spec_io. Qed.

Lemma spec_create : spec false (copying (fun fs => fs !! DefaultKeyPath = None)) (create_exclusive DefaultKeyPath 384)
  (fun _ => copying (fun fs => fs !! DefaultKeyPath = Some (Reg (Bytes EmptyString) 384 0 0))) J J.
Proof.
  unfold create_exclusive. eapply spec_bind.
  { apply (spec_io _ (copying (fun fs => fs !! DefaultKeyPath = None))); [apply kept_free|intros s _; apply kept_free]. }
  intros ?. eapply spec_bind; [apply spec_get|]. intros h h' Hc [Hh [Hk Hn]]. rewrite <-Hh in Hn. simpl in Hn. rewrite Hn.
  split; [done|]. split; simpl; [by apply key_insert|by rewrite lookup_insert_eq].
Qed.

Lemma spec_copyLegacyKey written : spec false (copying (fun fs => fs !! DefaultKeyPath = None))
  (copyLegacyKey follow text_of written DefaultKeyPath LegacyKeyPath) (fun _ => holds (key_at DefaultKeyPath)) J J.
Proof.
  unfold copyLegacyKey. set (P0 := copying (fun fs => fs !! DefaultKeyPath = None)).
  eapply spec_bind; [apply spec_wrap, (spec_readKey_existing _ _ P0); by apply kept_free|]. intros key. cbn beta.
  apply (spec_pre _ _ (fun s => key = K /\ P0 s)).
  2: { intros s [HP (_ & x & m & u & g & Hx & Ht & _)]. split; [|done]. destruct HP as [(c & m' & u' & g' & Hc & Hk & _) _].
       rewrite Hc in Hx. injection Hx as -> _ _ _. congruence. }
  apply spec_pure. intros ->. eapply spec_bind; [apply spec_wrap, spec_create|]. intros ?.
  eapply spec_bind; [eapply spec_or_remove; [apply spec_key_write|apply kept_torn]|]. intros ?.
  do 2 (eapply spec_bind; [eapply (spec_or_remove _ _ _ _ (copying whole) (fun _ => copying whole) (copying whole) J J);
    [apply spec_io; [apply kept_both|done]|apply kept_both]|]; intros ?).
  eapply spec_bind; [eapply (spec_or_remove _ _ _ _ (copying whole) _ (copying whole) J J);
    [apply spec_readKey_existing; [apply kept_both|done]|apply kept_both]|]. intros copied. cbn beta.
  apply (spec_pre _ _ (fun s => copied = K /\ copying whole s)).
  2: { intros s [HP (_ & x & m & u & g & Hx & Ht & _)]. split; [|done]. destruct HP as [_ Hw]. unfold whole in Hw. rewrite Hw in Hx.
       injection Hx as <- _ _ _. by rewrite text_bytes in Ht. }
  apply spec_pure. intros ->. rewrite String.eqb_refl.
  eapply spec_bind; [eapply (spec_or_remove _ _ _ _ (copying whole) (fun _ => copying whole) (copying whole) J J);
    [by apply spec_ret|apply kept_both]|]. intros ?.
  eapply spec_bind; [eapply (spec_or_remove _ _ _ _ (copying whole) (fun _ => copying whole) (copying whole) J J);
    [eapply spec_conseq; [apply (spec_sync (copying whole))|done|done|done|apply kept_both]|apply kept_both]|]. intros ?.
  eapply spec_bind; [eapply (spec_or_remove _ _ _ _ (copying whole) (fun _ => holds whole) (copying whole) J J);
    [apply spec_remove; [apply kept_both|done|intros s [_ Hw]; unfold whole; simpl; by rewrite lookup_delete_ne]|apply kept_both]|]. intros ?.
  eapply spec_conseq; [apply spec_wrap, (spec_sync (holds whole))|done| | |]; [|apply kept_whole|apply kept_whole].
  intros y s Hd. exists (Bytes K), 384, 0, 0. by rewrite text_bytes.
Qed.

Lemma spec_relocate written : spec false J (relocateLegacyKey follow text_of written DefaultKeyPath LegacyKeyPath)
  (fun _ s => J s /\ s.1 !! DefaultKeyPath <> None) J J.
Proof.
  assert (Hthere : forall s : state, key_at DefaultKeyPath s.1 -> J s /\ s.1 !! DefaultKeyPath <> None).
  { intros s H. split; [by right|]. destruct H as (c & m & u & g & -> & _). done. }
  set (P0 := copying (fun fs => fs !! DefaultKeyPath = None)).
  unfold relocateLegacyKey. eapply spec_bind; [by apply spec_wrap, (spec_lstat _ _ J)|]. intros [info|]; cbn beta.
  2: { apply spec_ret. intros s [Hn [[(c & m & u & g & Hk & _) _]|Hk]]; [by rewrite Hk in Hn|auto]. }
  set (P1 := fun s : state => Some info = s.1 !! LegacyKeyPath /\ J s).
  eapply spec_bind; [apply spec_wrap, (spec_lstat _ _ P1); by intros s; intros [_ ?] || intros ? [_ ?]|]. intros [new|]; cbn beta.
  { apply spec_ret. intros s [Hn [_ HJ]]. split; [done|by rewrite <-Hn]. }
  apply (spec_pre _ _ (fun s => (exists c m u g, info = Reg c m u g) /\ P0 s)).
  2: { intros s [Hn [Hl [[Hk _]|(c & m & u & g & Hk & _)]]]; [|by rewrite Hk in Hn]. split; [|by split].
       destruct Hk as (c & m & u & g & Hk & _). rewrite Hk in Hl. injection Hl as ->. eauto. }
  apply spec_pure. intros (c & m & u & g & ->). cbn iota.
  eapply spec_bind; [apply spec_wrap, (spec_io _ P0); intros; by apply kept_free|]. intros ?.
  eapply (spec_bind _ _ _ _ (fun r s => match r with inl _ => key_at DefaultKeyPath s.1 | inr _ => P0 s end)).
  - apply (spec_attempt _ _ _ (fun _ s => key_at DefaultKeyPath s.1) P0). unfold rename.
    eapply spec_bind; [apply (spec_io _ P0); [apply kept_free|done]|]. intros ?. apply spec_update.
    intros s [(c' & m' & u' & g' & Hk & Ht & Hm) _]. simpl. rewrite Hk. exists c', m', u', g'. by rewrite lookup_insert_eq.
  - intros [[]|e]; [apply spec_ret, Hthere|].
    eapply spec_conseq; [apply spec_copyLegacyKey|done|intros y s; apply Hthere|done|done].
Qed.

Lemma spec_open written fresh cwd : spec false J (OpenDefaultKeyFile follow text_of written fresh cwd DefaultKeyPath)
  (fun key s => J s /\ key = K) J J.
Proof.
  unfold OpenDefaultKeyFile. change (String.eqb (path_clean DefaultKeyPath) DefaultKeyPath) with true. cbn iota.
  eapply spec_bind; [apply spec_relocate|]. intros ?. set (P1 := fun s : state => J s /\ s.1 !! DefaultKeyPath <> None).
  assert (HP1 : forall s, P1 s -> J s) by by intros s [].
  unfold OpenKeyFile. change (String.eqb DefaultKeyPath EmptyString) with false. cbn iota.
  change (absolute cwd DefaultKeyPath) with DefaultKeyPath.
  eapply spec_bind; [apply spec_wrap, (spec_io _ P1); auto|]. intros ?.
  eapply (spec_bind _ _ _ _ (fun key s => J s /\ key = K)).
  2: { intros key. destruct (negb _); [apply spec_fail; by intros s []|by apply spec_ret]. }
  unfold readOrCreateKey. eapply spec_bind; [apply spec_wrap, (spec_readKey _ _ P1); auto|]. intros [k|]; cbn beta.
  - apply spec_ret. intros s [[HJ _] (Hl & x & m & u & g & Hx & Ht & _)]. split; [done|].
    destruct HJ as [[_ [Hn|Hp]]|(c & m' & u' & g' & Hk & Hck & _)].
    + by rewrite Hn in Hx.
    + subst k. by eapply part_key.
    + rewrite Hk in Hx. injection Hx as -> _ _ _. congruence.
  - intros h _ [[_ Hn] Hnone]. done.
Qed.

(** One start of the panel on the default path, whatever the system answers, wherever it
    stops, whatever key it would make up. *)
Definition started (fs fs' : filesystem) : Prop := exists written fresh cwd answers running commands,
  files (OpenDefaultKeyFile follow text_of written fresh cwd DefaultKeyPath (mk_machine fs running answers commands)).2 = fs'.

Lemma started_kept fs fs' : kept fs -> rtc started fs fs' -> kept fs'.
Proof.
  intros HJ Hrun. induction Hrun as [|fs fs1 fs2 (written & fresh & cwd & answers & running & commands & <-) _ IH]; [done|].
  apply IH. pose proof (spec_open written fresh cwd (mk_machine fs running answers commands) ltac:(done) HJ) as H.
  destruct (OpenDefaultKeyFile _ _ _ _ _ _ _) as [[k|e|] h']; [by destruct H as (_ & ? & _)|by destruct H|by destruct H].
Qed.

(** Runs in which every call is answered. *)
Lemma run_readKey p fs running commands c m u g :
  fs !! p = Some (Reg c m u g) -> text_of c = K -> Z.land (perm m) 63 = 0 ->
  readKey follow text_of p (mk_machine fs running [] commands) = (Done (Some K), mk_machine fs running [] commands).
Proof.
  intros Hp Ht Hm. unfold readKey, lstat, wrap, read_existing, read_file, stat, io, ask, get, mret, M_ret, mbind, M_bind.
  cbn -[lookup perm]. rewrite Hp. cbn -[lookup perm]. rewrite Hm. cbn -[lookup perm]. rewrite Hp. cbn -[lookup perm].
  by rewrite Ht, key_length.
Qed.

Lemma run_relocate fs running commands written c m u g :
  fs !! LegacyKeyPath = Some (Reg c m u g) -> fs !! DefaultKeyPath = None ->
  relocateLegacyKey follow text_of written DefaultKeyPath LegacyKeyPath (mk_machine fs running [] commands) =
    (Done tt, mk_machine (<[DefaultKeyPath := Reg c m u g]> (delete LegacyKeyPath fs)) running [] commands).
Proof.
  intros Hk Hn. generalize dependent LegacyKeyPath. generalize dependent DefaultKeyPath. intros target Hn legacy Hk.
  unfold relocateLegacyKey, lstat, wrap, rename, attempt, io, ask, get, update_files, modify, mret, M_ret, mbind, M_bind.
  cbn -[lookup insert delete]. rewrite Hk. cbn -[lookup insert delete]. rewrite Hn. cbn -[lookup insert delete]. by rewrite Hk.
Qed.

(** C14. The master key survives its move.  Let an older installation have its key beside
    the database, and none at the new path.  Then however many starts of the panel follow,
    each with system calls that fail or a process that dies at any point, half-way through
    writing the copy included: the key is still there, whole, at the old or the new path;
    and a start that opens a box opens it with this key, never with a torn or a fresh one.
    A first start whose calls are all answered moves it. *)
Theorem secrets_key_survives fs fs' :
  key_at LegacyKeyPath fs -> fs !! DefaultKeyPath = None -> rtc started fs fs' ->
  (key_at LegacyKeyPath fs' \/ key_at DefaultKeyPath fs') /\
  (forall written fresh cwd answers running commands key h,
     OpenDefaultKeyFile follow text_of written fresh cwd DefaultKeyPath (mk_machine fs' running answers commands) = (Done key, h) -> key = K) /\
  forall written fresh cwd running commands, exists h,
     OpenDefaultKeyFile follow text_of written fresh cwd DefaultKeyPath (mk_machine fs running [] commands) = (Done K, h) /\
     files h !! LegacyKeyPath = None /\ key_at DefaultKeyPath (files h).
Proof.
  intros Hk Hn Hrun. assert (HJ : kept fs') by (apply (started_kept fs); [left; split; [done|by left]|done]). split_and!.
  - destruct HJ as [[? _]|?]; auto.
  - intros written fresh cwd answers running commands key h H.
    pose proof (spec_open written fresh cwd (mk_machine fs' running answers commands) ltac:(done) HJ) as Hs. rewrite H in Hs. by apply Hs.
  - intros. destruct Hk as (c & m & u & g & Hk & Ht & Hm).
    set (moved := <[DefaultKeyPath := Reg c m u g]> (delete LegacyKeyPath fs)).
    assert (Hmoved : moved !! DefaultKeyPath = Some (Reg c m u g)) by by apply lookup_insert_eq.
    exists (mk_machine moved running [] commands). split_and!.
    + unfold OpenDefaultKeyFile. change (String.eqb (path_clean DefaultKeyPath) DefaultKeyPath) with true. cbn iota.
      unfold mbind at 1, M_bind at 1. rewrite (run_relocate _ _ _ _ _ _ _ _ Hk Hn). cbn beta iota. fold moved.
      unfold OpenKeyFile, readOrCreateKey. change (String.eqb DefaultKeyPath EmptyString) with false. cbn iota.
      change (absolute cwd DefaultKeyPath) with DefaultKeyPath. unfold wrap, mbind, M_bind.
      change (io (mk_machine moved running [] commands)) with (@Done unit tt, mk_machine moved running [] commands). cbn beta iota.
      rewrite (run_readKey _ _ _ _ _ _ _ _ Hmoved Ht Hm). unfold mret, M_ret. cbn beta iota. by rewrite key_length.
    + simpl. unfold moved. by rewrite lookup_insert_ne, lookup_delete_eq.
    + exists c, m, u, g. done.
Qed.
End survival.

(** ** Samples *)
Module SecretSamples.
(** A cipher of one tag byte, the length of the label. *)
Definition tag (label : string) : string := String (ascii_of_nat (String.length label)) EmptyString.
Definition open_tagged (n c l : string) : option string :=
  let p := take_bytes (String.length c - 1) c in if String.eqb c (p +:+ tag l) then Some p else None.
Definition toy : AEAD := mk_aead 2 1 (fun n p l => p +:+ tag l) open_tagged.

#[local] Instance toy_laws : AEADLaws toy.
Proof.
  split; simpl.
  - lia.
  - intros n p l. unfold len. rewrite str_length_app. simpl. lia.
  - intros n p l _. unfold open_tagged. rewrite str_length_app. simpl. replace (String.length p + 1 - 1)%nat with (String.length p) by lia.
    destruct (take_drop_bytes_app p (tag l)) as [-> _]. by rewrite String.eqb_refl.
  - intros n c l p _. unfold open_tagged. destruct (String.eqb_spec c (take_bytes (String.length c - 1) c +:+ tag l)) as [H|]; [|done].
    intros [= <-]. done.
Qed.

Lemma secrets_box_roundtrip_witness :
  exists text, Encrypt toy "nn" "db" "hunter2" = Ok text /\ Decrypt toy "db" text = Ok "hunter2"%string /\ is_ok (Decrypt toy "database" text) = false.
Proof.
  destruct (secrets_box_roundtrip toy "db") as [H _]; [discriminate|].
  destruct (H "nn"%string "hunter2"%string eq_refl) as (text & He & Hd). exists text. split_and!; [exact He|exact Hd|].
  revert He. vm_compute. intros [= <-]. reflexivity.
Defined.

Definition text_of (c : content) : string := match c with Bytes b => b | _ => EmptyString end.
Definition no_links (fs : filesystem) (p : string) : option node := None.
Definition the_key : string := "0123456789abcdef0123456789abcdef".
Definition before_move : filesystem := {[ LegacyKeyPath := Reg (Bytes the_key) 384 0 0 ]}.
Definition open_with answers written fs :=
  OpenDefaultKeyFile no_links text_of written "ffffffffffffffffffffffffffffffff" "/" DefaultKeyPath (mk_machine fs None answers []).

(** The rename is refused (two file systems) and the process dies in the copy. *)
Definition torn_run := open_with [Proceed; Proceed; Proceed; Refuse; Proceed; Proceed; Proceed; Die] 10%nat before_move.

Lemma secrets_key_survives_witness :
  key_at text_of the_key LegacyKeyPath (files torn_run.2) \/ key_at text_of the_key DefaultKeyPath (files torn_run.2).
Proof.
  apply (secrets_key_survives no_links text_of (fun b => eq_refl) the_key eq_refl before_move (files torn_run.2)).
  - exists (Bytes the_key), 384, 0, 0. vm_compute. done.
  - reflexivity.
  - apply rtc_once. exists 10%nat, "ffffffffffffffffffffffffffffffff"%string, "/"%string. do 3 eexists. reflexivity.
Defined.

(** After that the panel does not start any more: the torn copy is taken for the key. *)
Example secrets_torn_copy_blocks :
  (torn_run.1, (open_with [] 0%nat (files torn_run.2)).1) = (Crashed, Failed "read master key: master key must contain 32 bytes"%string).
Proof. vm_compute. reflexivity. Qed.
End SecretSamples.
