(* ===== verification/Firewall.v ===== *)
(** * The firewall of the node

    [internal/platform/operators/firewall] (firewall.go, host.go, system.go): rules and
    their checks, the argument vectors UFW is run with, what its status report says, and
    the operator that applies changes.  UFW itself, and sshd, are the function that
    answers commands. *)

From Stdlib Require Import Ascii.
From S2P Require Import Prelude GoStrings Regex Codec.

Local Open Scope Z_scope.

(** ** Rules and changes *)
Record Rule := mk_rule {
  Port : string;
  Protocol : string;
  r_Action : string;
  From : string;
  r_Comment : string;
  V6 : bool;
}.
Record Status := mk_status { Installed : bool; Active : bool; Rules : list Rule }.
Record Change := mk_change { ch_Action : string; ch_Rule : Rule }.

Definition ActionEnable : string := "enable".
Definition ActionDisable : string := "disable".
Definition ActionAllow : string := "allow".
Definition ActionDeny : string := "deny".
Definition ActionDelete : string := "delete".
Definition panelPorts : list string := ["80"; "443"]%string.

(** [^[0-9]{1,5}(:[0-9]{1,5})?$] *)
Definition portPattern : regex :=
  Cat (between 1 5 (Class is_digit)) (opt (Cat (lit ":") (between 1 5 (Class is_digit)))).
(** [^[\w .,:/@()+-]{0,120}$] *)
Definition comment_byte (c : ascii) : bool := is_alnum c || one_of "_ .,:/@()+-" c.
Definition commentPattern : regex := Upto (Class comment_byte) 120.

Definition error := result string unit.
Definition fail_if (b : bool) (e : string) : error := if b then Err e else Ok tt.

Definition port_number (part : string) : bool :=
  match atoi part with Some n => (1 <=? n) && (n <=? 65535) | None => false end.

Section addresses.
(** [net.ParseIP(s) != nil] and [net.ParseCIDR(s)] without an error. *)
Context (is_ip is_cidr : string -> bool).

Definition validate_rule (r : Rule) : error :=
  _ ← fail_if (negb (matches portPattern (Port r))) "port must be a number 1-65535 or a range like 8000:8100";
  _ ← fail_if (negb (forallb port_number (split ":" (Port r)))) "port must be between 1 and 65535";
  _ ← fail_if (negb (String.eqb (Protocol r) EmptyString || String.eqb (Protocol r) "tcp" || String.eqb (Protocol r) "udp"))
        "protocol must be tcp, udp, or empty for both";
  _ ← fail_if (negb (String.eqb (From r) EmptyString || is_ip (From r) || is_cidr (From r)))
        "source must be a valid IP address or CIDR range";
  _ ← fail_if (negb (matches commentPattern (r_Comment r))) "comment contains unsupported characters";
  fail_if (negb (String.eqb (From r) EmptyString) && String.eqb (Protocol r) EmptyString)
    "a rule limited to a source address must specify tcp or udp".

Definition validate (c : Change) : error :=
  let action := ch_Action c in
  if String.eqb action ActionEnable || String.eqb action ActionDisable then Ok tt
  else if String.eqb action ActionAllow || String.eqb action ActionDeny then validate_rule (ch_Rule c)
  else if String.eqb action ActionDelete then
    if negb (String.eqb (r_Action (ch_Rule c)) ActionAllow) && negb (String.eqb (r_Action (ch_Rule c)) ActionDeny)
    then Err "a rule to delete must name whether it is an allow or deny rule"%string
    else validate_rule (ch_Rule c)
  else Err "unknown firewall action"%string.
End addresses.

Definition portSpec (r : Rule) : string :=
  if String.eqb (Protocol r) EmptyString then Port r else Port r +:+ "/" +:+ Protocol r.

(** ** Argument vectors *)
Definition ruleArgs (action : string) (rule : Rule) : list string :=
  (if String.eqb (From rule) EmptyString then [action; portSpec rule]
   else [action; "from"%string; From rule; "to"%string; "any"%string; "port"%string; Port rule; "proto"%string; Protocol rule]) ++
  (if String.eqb (r_Comment rule) EmptyString then [] else ["comment"%string; r_Comment rule]).
Definition without_comment (rule : Rule) : Rule :=
  mk_rule (Port rule) (Protocol rule) (r_Action rule) (From rule) EmptyString (V6 rule).
Definition deleteArgs (rule : Rule) : list string := "delete"%string :: ruleArgs (r_Action rule) (without_comment rule).

(** ** The status report *)
Definition actionWords (field : string) : option string :=
  if String.eqb field "ALLOW" then Some ActionAllow
  else if String.eqb field "DENY" then Some ActionDeny
  else if String.eqb field "REJECT" then Some "reject"%string
  else if String.eqb field "LIMIT" then Some "limit"%string
  else None.

(** [strings.LastIndex] of a byte, as the texts before and after it. *)
Definition cut_last (c : ascii) (s : string) : option (string * string) :=
  match cut c (rev_string s) with Some (b, a) => Some (rev_string a, rev_string b) | None => None end.

Definition stripAppProfile (to : string) : string :=
  match cut_last "(" to with
  | Some (EmptyString, _) | None => to
  | Some (before, _) => if has_suffix ")" to then trim_space before else to
  end.

Definition v6_mark : string := "(v6)".
Definition strip_v6 (s : string) : string := trim_space (replacer [(v6_mark, EmptyString)] s).
Definition contains (part s : string) : bool := match cut_str part s with Some _ => true | None => false end.
Definition is_anywhere (s : string) : bool := String.eqb (to_lower s) "anywhere".

(** The first action word, with what stands before and after it. *)
Fixpoint find_action (before fields : list string) : option (list string * string * list string) :=
  match fields with
  | [] => None
  | f :: rest =>
      match actionWords f with
      | Some action => Some (rev before, action, rest)
      | None => find_action (f :: before) rest
      end
  end.

Definition parseRuleLine (line : string) : option Rule :=
  match find_action [] (fields line) with
  | Some ((_ :: _) as to_fields, action, direction :: from_fields) =>
      if negb (String.eqb (to_upper direction) "IN") then None
      else
        let to := join " " to_fields in
        let from := join " " from_fields in
        let v6 := contains v6_mark to || contains v6_mark from in
        let to := stripAppProfile (strip_v6 to) in
        let '(port, protocol) :=
          if is_anywhere to then (EmptyString, EmptyString)
          else match cut_last "/" to with Some (p, q) => (p, to_lower q) | None => (to, EmptyString) end in
        let from := strip_v6 from in
        Some (mk_rule port protocol action (if is_anywhere from then EmptyString else from) EmptyString v6)
  | _ => None
  end.

Definition parse_line (status : Status) (line : string) : Status :=
  let trimmed := trim_space line in
  if String.eqb trimmed EmptyString then status
  else if has_prefix "Status:" trimmed
  then mk_status (Installed status) (String.eqb (trim_space (trim_prefix "Status:" trimmed)) "active") (Rules status)
  else match parseRuleLine trimmed with
       | Some rule => mk_status (Installed status) (Active status) (Rules status ++ [rule])
       | None => status
       end.
Definition parseStatus (output : string) : Status := foldl parse_line (mk_status false false []) (split newline output).

(** ** The operator *)
Record Command := mk_command { c_Name : string; c_Args : list string }.
#[export] Instance Command_eq_dec : EqDecision Command.
Proof. solve_decision. Defined.

(** What [execRunner.Run] passes on of a command's output. *)
Definition execRunner_output (output : string) : string :=
  if 8 * 1024 <? len output then take_bytes (8 * 1024) output else output.

Definition commandError (what output err : string) : string :=
  let message := trim_space output in
  if String.eqb message EmptyString then what +:+ ": " +:+ err
  else what +:+ ": " +:+ (if 500 <? len message then take_bytes 500 message else message).

Section host.
(** What a command does: its output, the text of its error if it failed. *)
Context {W : Type} (runner : Command -> W -> (string * option string) * W).
Context (is_ip is_cidr : string -> bool).

(** The node, and the commands run on it, each with whether it succeeded. *)
Record node := mk_node { world : W; ran : list (Command * bool) }.
Definition succeeded (e : option string) : bool := match e with None => true | Some _ => false end.
Definition exec (c : Command) (n : node) : string * option string * node :=
  let '(answer, w) := runner c (world n) in
  (answer, mk_node w (ran n ++ [(c, succeeded answer.2)])).

Definition ufw (args : list string) : Command := mk_command "ufw" args.
Definition run (args : list string) (n : node) : option string * node :=
  let '(output, err, n) := exec (ufw args) n in
  (match err with Some e => Some (commandError ("ufw " +:+ join " " args) output e) | None => None end, n).

Definition ufw_version : Command := ufw ["version"%string].
Definition ufw_status : Command := ufw ["status"; "verbose"]%string.
Definition sshd_config : Command := mk_command "sshd" ["-T"%string].
Definition enable_args : list string := ["--force"; "enable"]%string.

Definition installed (n : node) : bool * node :=
  let '(_, err, n) := exec ufw_version n in (succeeded err, n).

Definition Discover (n : node) : result string Status * node :=
  let '(present, n) := installed n in
  if negb present then (Ok (mk_status false false []), n)
  else let '(output, err, n) := exec ufw_status n in
       match err with
       | Some e => (Err (commandError "read firewall status" output e), n)
       | None => let status := parseStatus output in (Ok (mk_status true (Active status) (Rules status)), n)
       end.

Definition sshd_port (line : string) : option string :=
  match fields (to_lower line) with
  | [key; value] => if String.eqb key "port" && matches portPattern value then Some value else None
  | _ => None
  end.
Definition sshdPorts (n : node) : list string * node :=
  let '(output, err, n) := exec sshd_config n in
  (match err with Some _ => [] | None => omap sshd_port (split newline output) end, n).

Definition specs (ports : list string) : list string :=
  sort_strings ((fun p => p +:+ "/tcp") <$> elements (list_to_set ("22"%string :: ports ++ panelPorts) : gset string)).
Definition survivalPorts (n : node) : list string * node :=
  let '(ports, n) := sshdPorts n in (specs ports, n).

Fixpoint allow_all (ports : list string) (n : node) : option string * node :=
  match ports with
  | [] => (None, n)
  | port :: rest =>
      match run ["allow"%string; port] n with
      | (Some e, n) => (Some ("pre-authorise " +:+ port +:+ " before enabling the firewall: " +:+ e), n)
      | (None, n) => allow_all rest n
      end
  end.
Definition enable (n : node) : option string * node :=
  let '(ports, n) := survivalPorts n in
  match allow_all ports n with
  | (Some e, n) => (Some e, n)
  | (None, n) => run enable_args n
  end.

Definition perform (change : Change) (n : node) : option string * node :=
  let action := ch_Action change in
  if String.eqb action ActionEnable then enable n
  else if String.eqb action ActionDisable then run ["disable"%string] n
  else if String.eqb action ActionAllow || String.eqb action ActionDeny then run (ruleArgs action (ch_Rule change)) n
  else if String.eqb action ActionDelete then run (deleteArgs (ch_Rule change)) n
  else (None, n).

Definition Apply (change : Change) (n : node) : result string Status * node :=
  match validate is_ip is_cidr change with
  | Err e => (Err e, n)
  | Ok _ =>
      let '(present, n) := installed n in
      if negb present then (Err "ufw is not installed on this node"%string, n)
      else match perform change n with
           | (Some e, n) => (Err e, n)
           | (None, n) => Discover n
           end
  end.
End host.
