(* ===== verification/FirewallModule.v ===== *)
(** * Firewall changes from the control panel

    [internal/modules/firewall] (lockout.go, firewall.go): which change can lock the
    operator out, the change that undoes it, and how a change becomes an audited job
    with an armed revert behind it: the audit log of [AuditLog], the queue of [Jobs] and
    the guard of [Safeguard] in one operation. *)

From Stdlib Require Import Ascii.
From S2P Require Import Prelude GoStrings Json Regex Firewall.
From S2P Require AuditLog Jobs Safeguard.

Local Open Scope Z_scope.

(** ** Lockout *)
Record accessPort := mk_access_port { number : Z; label : string; panel : bool }.
Definition accessPorts : list accessPort :=
  [mk_access_port 22 "SSH" false; mk_access_port 80 "the panel over HTTP" true; mk_access_port 443 "the panel over HTTPS" true].

Definition portRange (spec : string) : option (Z * Z) :=
  match cut ":" spec with
  | None => start ← atoi (trim_space spec); Some (start, start)
  | Some (low, high) => start ← atoi (trim_space low); last ← atoi (trim_space high); Some (start, last)
  end.

Definition ruleAdmits (rule : Rule) (port : Z) : bool :=
  if negb (String.eqb (Protocol rule) EmptyString) && negb (String.eqb (Protocol rule) "tcp") then false
  else if String.eqb (Port rule) EmptyString then true
  else match portRange (Port rule) with Some (low, high) => (low <=? port) && (port <=? high) | None => false end.

Definition sameRuleBody (a b : Rule) : bool :=
  String.eqb (Port a) (Port b) && String.eqb (Protocol a) (Protocol b) && String.eqb (From a) (From b).

Definition anyOtherRuleAdmits (status : Status) (candidate : Rule) (port : Z) : bool :=
  existsb (fun existing => String.eqb (r_Action existing) ActionAllow && negb (sameRuleBody existing candidate) && ruleAdmits existing port)
    (Rules status).

Definition ruleLabel (rule : Rule) : string :=
  Port rule +:+ (if String.eqb (Protocol rule) EmptyString then EmptyString else "/" +:+ Protocol rule) +:+
  (if String.eqb (From rule) EmptyString then EmptyString else " from " +:+ From rule).

Definition sessionReason (rule : Rule) (peer : string) : string :=
  "It is the rule admitting the session you are using right now (" +:+ peer +:+ " reaching " +:+ ruleLabel rule +:+ ").".
Definition last_reason (port : accessPort) : string :=
  "It is the only remaining rule admitting " +:+ label port +:+ " (port " +:+ itoa (number port) +:+ ").".
Definition deny_reason (port : accessPort) : string :=
  "It denies " +:+ label port +:+ " (port " +:+ itoa (number port) +:+ ") for the address you are connected from.".

Fixpoint dedupe_from (seen : gset string) (values : list string) : list string :=
  match values with
  | [] => []
  | value :: rest => if bool_decide (value ∈ seen) then dedupe_from seen rest else value :: dedupe_from ({[value]} ∪ seen) rest
  end.
Definition dedupe (values : list string) : list string :=
  if (length values <? 2)%nat then values else dedupe_from ∅ values.

Section addresses.
(** [net.ParseIP], a result given by its 16 bytes, and [net.ParseCIDR], a network by the
    addresses it contains. *)
Context (parse_ip : string -> option string) (parse_cidr : string -> option (string -> bool)).

Definition fromCovers (from peer : string) : bool :=
  if String.eqb (trim_space from) EmptyString then true
  else match parse_ip peer with
       | None => false
       | Some address =>
           match parse_cidr from with
           | Some contains => contains address
           | None => match parse_ip from with Some ip => String.eqb ip address | None => false end
           end
       end.

Definition carriesSession (rule : Rule) (peer : string) : bool :=
  if String.eqb peer EmptyString || negb (fromCovers (From rule) peer) then false
  else existsb (fun port => panel port && ruleAdmits rule (number port)) accessPorts.

Definition assessLockout (status : Status) (change : Change) (peer : string) : list string :=
  let rule := ch_Rule change in
  if negb (Active status) then []
  else if String.eqb (ch_Action change) ActionDelete then
    if negb (String.eqb (r_Action rule) ActionAllow) then []
    else dedupe ((if carriesSession rule peer then [sessionReason rule peer] else []) ++
                 omap (fun port => if negb (ruleAdmits rule (number port)) then None
                                   else if negb (anyOtherRuleAdmits status rule (number port)) then Some (last_reason port) else None)
                   accessPorts)
  else if String.eqb (ch_Action change) ActionDeny then
    dedupe (omap (fun port => if ruleAdmits rule (number port) && fromCovers (From rule) peer then Some (deny_reason port) else None)
              accessPorts)
  else [].
End addresses.

(** ** Undoing a change *)
Definition with_action (action : string) (rule : Rule) : Rule :=
  mk_rule (Port rule) (Protocol rule) action (From rule) (r_Comment rule) (V6 rule).
Definition revertFor (change : Change) : result string Change :=
  let action := ch_Action change in
  if String.eqb action ActionDelete then Ok (mk_change (r_Action (ch_Rule change)) (ch_Rule change))
  else if String.eqb action ActionDeny || String.eqb action ActionAllow
  then Ok (mk_change ActionDelete (with_action action (ch_Rule change)))
  else Err ("no automatic revert exists for the " +:+ action +:+ " action").

(** ** What the log and the pages say *)
Definition bad_title : string := "firewall action must be enable, disable, allow, deny, or delete".
Definition changeTitle (change : Change) : result string string :=
  let action := ch_Action change in
  if String.eqb action ActionEnable then Ok "Enable firewall"%string
  else if String.eqb action ActionDisable then Ok "Disable firewall"%string
  else if String.eqb action ActionAllow then Ok ("Allow " +:+ ruleLabel (ch_Rule change))
  else if String.eqb action ActionDeny then Ok ("Deny " +:+ ruleLabel (ch_Rule change))
  else if String.eqb action ActionDelete then Ok ("Delete rule for " +:+ ruleLabel (ch_Rule change))
  else Err bad_title.

Definition switches (action : string) : bool := String.eqb action ActionEnable || String.eqb action ActionDisable.
Definition changeAuditAction (action : string) : string :=
  if String.eqb action ActionEnable then "firewall.enabled"
  else if String.eqb action ActionDisable then "firewall.disabled"
  else if String.eqb action ActionAllow then "firewall.rule_allowed"
  else if String.eqb action ActionDeny then "firewall.rule_denied"
  else "firewall.rule_deleted".
Definition changeSubject (change : Change) : string :=
  if switches (ch_Action change) then "firewall:node" else "firewall-rule:" +:+ ruleLabel (ch_Rule change).

Definition matchingRuleAction (status : Status) (rule : Rule) : string :=
  match List.find (fun existing => sameRuleBody existing rule) (Rules status) with
  | Some existing => r_Action existing
  | None => "none"
  end.
Definition intendedRuleAction (change : Change) : string :=
  if String.eqb (ch_Action change) ActionDelete then "none" else ch_Action change.

Definition changeMetadata (status : result string Status) (change : Change) (reasons : list string) : list (string * json) :=
  let action := ch_Action change in
  let rule := ch_Rule change in
  [("action", JStr action)]%string ++
  (if switches action then []
   else [("port", JStr (Port rule)); ("protocol", JStr (Protocol rule)); ("from", JStr (From rule)); ("direction", JStr "incoming")]%string) ++
  (match reasons with
   | [] => []
   | _ => [("lockoutReasons"%string, JArr (JStr <$> reasons)); ("automaticRevertArmed"%string, JBool true)]
   end) ++
  match status with
  | Err _ => []
  | Ok status =>
      if switches action
      then [("before", JObj [("active", JBool (Active status))]); ("after", JObj [("active", JBool (String.eqb action ActionEnable))])]%string
      else [("before", JObj [("rule", JStr (matchingRuleAction status rule))]); ("after", JObj [("rule", JStr (intendedRuleAction change))])]%string
  end.

Definition revertSummary (change : Change) : string :=
  match changeTitle change with
  | Ok title => "Access is restored automatically (" +:+ to_lower title +:+ ") unless you confirm you are still connected."
  | Err _ => "Access is restored automatically unless you confirm you are still connected."
  end.

(** ** The module *)
Definition lockoutDomain : string := "firewall".

Inductive submit_error :=
| errInvalid (message : string)
| errRisk (reasons : list string)
| errUnguarded
| errUnauditable
| errQueue (e : Jobs.error)
| errArm (e : Safeguard.error).

Record Submission := mk_submission { s_Job : Jobs.Job; s_Revert : option Safeguard.revertModel; s_Window : Z }.

(** The stores a submission writes to; without a guard there is no third. *)
Record stores {D : Type} := mk_stores { audit_db : D; jobs_db : Jobs.db; guard_of : option Safeguard.guard }.
Arguments stores D : clear implicits.
Arguments mk_stores {D}.

Section submitting.
Context {D : Type} `{!AuditLog.Recorder D}.
Context (parse_ip : string -> option string) (parse_cidr : string -> option (string -> bool)).
(** [json.Marshal] of a change, and of what it encodes. *)
Context (encode : Change -> json).
Context (unmarshal_strings : string -> list string).
Context (handlers : Jobs.registry) (window : Z).

Definition prepareRevert (reasons : list string) (change : Change) (acknowledged guarded : bool) : result submit_error (option Change) :=
  match reasons with
  | [] => Ok None
  | _ =>
      if negb acknowledged then Err (errRisk reasons)
      else if negb guarded then Err errUnguarded
      else match revertFor change with Ok c => Ok (Some c) | Err e => Err (errInvalid e) end
  end.

Definition clean_change (change : Change) : Change :=
  let rule := ch_Rule change in
  mk_change (trim_space (to_lower (ch_Action change)))
    (mk_rule (Port rule) (trim_space (to_lower (Protocol rule))) (trim_space (to_lower (r_Action rule))) (From rule) (r_Comment rule) (V6 rule)).

(** What goes wrong, or may differ, around a submission: the audit log, the queue, the
    best-effort entry of the queue, the guard; the clocks and the fresh identifier. *)
Record circumstances := mk_circumstances {
  audited : bool;
  audit_fault : bool;
  queue_fate : Jobs.tx_fate;
  entry_fault : bool;
  arm_fault : bool;
  fresh_id : string;
  clock : Z;
}.

(** [recordAudit] of the queue, for each entry. *)
Definition record_entries (c : circumstances) (l : list AuditLog.Entry) (d : D) : D :=
  foldl (fun d e => (AuditLog.RecordBestEffort (audited c) (entry_fault c) (clock c) e d).1) d l.

Definition queue (c : circumstances) (title : string) (change : Change) (actor : option string) (s : stores D)
    : result submit_error Jobs.Job * stores D :=
  let '(r, d, l) := Jobs.SubmitTitledWithOptions unmarshal_strings handlers (queue_fate c) (clock c) "firewall.apply" title
                      (Some (encode change)) (Jobs.mk_submit actor [] EmptyString) (jobs_db s) in
  (match r with Ok job => Ok job | Err e => Err (errQueue e) end,
   mk_stores (record_entries c l (audit_db s)) d (guard_of s)).

Definition arm_request (change revert : Change) (reasons : list string) (job : Jobs.Job) (actor : option string) : Safeguard.ArmRequest :=
  Safeguard.mk_arm lockoutDomain (ruleLabel (ch_Rule change)) (revertSummary revert) (Some reasons) (Some (encode revert)) (Jobs.J_ID job) actor.

(** [status] is the answer of the node's agent. *)
Definition Submit (c : circumstances) (status : result string Status) (change : Change) (actor : option string)
    (remoteAddress : string) (acknowledged : bool) (s : stores D) : result submit_error Submission * stores D :=
  let change := clean_change change in
  match changeTitle change with
  | Err e => (Err (errInvalid e), s)
  | Ok title =>
      let reasons := match status with Ok st => assessLockout parse_ip parse_cidr st change remoteAddress | Err _ => [] end in
      match prepareRevert reasons change acknowledged (bool_decide (is_Some (guard_of s))) with
      | Err e => (Err e, s)
      | Ok revertChange =>
          let entry := AuditLog.mk_entry actor (changeAuditAction (ch_Action change)) (changeSubject change) remoteAddress
                         (Some (changeMetadata status change reasons)) in
          match AuditLog.RecordSensitive (audited c) (audit_fault c) (clock c) entry (audit_db s) with
          | (Err _, d, _) => (Err errUnauditable, mk_stores d (jobs_db s) (guard_of s))
          | (Ok _, d, _) =>
              match queue c title change actor (mk_stores d (jobs_db s) (guard_of s)) with
              | (Err e, s) => (Err e, s)
              | (Ok job, s) =>
                  match revertChange, guard_of s with
                  | Some revert, Some g =>
                      match Safeguard.Arm window (arm_fault c) (fresh_id c) (clock c) (arm_request change revert reasons job actor) g with
                      | (Ok armed, g) => (Ok (mk_submission job (Some armed) window), mk_stores (audit_db s) (jobs_db s) (Some g))
                      | (Err e, g) => (Err (errArm e), mk_stores (audit_db s) (jobs_db s) (Some g))
                      end
                  | _, _ => (Ok (mk_submission job None 0), s)
                  end
              end
          end
      end
  end.

(** The revert of an armed change is queued as an ordinary change; [decode] is
    [json.Unmarshal] into a change. *)
Definition executeRevert (decode : string -> option Change) (c : circumstances) (revert : Safeguard.revertModel) (s : stores D)
    : result submit_error Z * stores D :=
  match decode (Safeguard.PayloadJSON revert) with
  | None => (Err (errInvalid "the stored revert instruction could not be read"), s)
  | Some change =>
      if String.eqb (ch_Action change) EmptyString then (Err (errInvalid "the stored revert instruction could not be read"), s)
      else match changeTitle change with
           | Err e => (Err (errInvalid e), s)
           | Ok title =>
               match queue c ("Automatic rollback: " +:+ title) change (Safeguard.ActorUserID revert) s with
               | (Err e, s) => (Err e, s)
               | (Ok job, s) => (Ok (Jobs.J_ID job), s)
               end
           end
  end.
End submitting.

(** ** The handler of the jobs, and the guard's routes

    [apply] is the operator's answer for a change, its status encoded. *)
Definition bad_request : string := "invalid firewall change request".
Definition applyJob (decode : string -> option Change) (apply : Change -> result string string) : Jobs.Handler := fun raw =>
  match decode raw with
  | None => Jobs.Done (Jobs.Failed bad_request)
  | Some change =>
      if String.eqb (ch_Action change) EmptyString then Jobs.Done (Jobs.Failed bad_request)
      else Jobs.Report 30 "Applying the firewall change." (fun _ =>
             match apply change with
             | Err e => Jobs.Done (Jobs.Failed e)
             | Ok encoded => Jobs.Report 95 "Firewall change is verified." (fun _ => Jobs.Done (Jobs.Returned encoded))
             end)
  end.

Definition with_guard {D} (g : Safeguard.guard) (s : stores D) : stores D := mk_stores (audit_db s) (jobs_db s) (Some g).
Definition Start {D} (fault : bool) (s : stores D) : stores D :=
  match guard_of s with Some g => with_guard (Safeguard.Start fault g) s | None => s end.
Definition Close {D} (s : stores D) : stores D :=
  match guard_of s with Some g => with_guard (Safeguard.Close g) s | None => s end.
Definition Reverts {D} (s : stores D) : list Safeguard.revertModel :=
  match guard_of s with Some g => Safeguard.Recent lockoutDomain 20 g | None => [] end.
Definition ConfirmRevert {D} (between after : Safeguard.guard -> Safeguard.guard) (fault : bool) (now : Z) (id : string)
    (s : stores D) : result Safeguard.error Safeguard.revertModel * stores D :=
  match guard_of s with
  | None => (Err Safeguard.ErrNotFound, s)
  | Some g => let '(r, g) := Safeguard.Confirm between after fault now lockoutDomain id g in (r, with_guard g s)
  end.
