(* ===== verification/FirewallTable.v ===== *)
(** * UFW's table, its status report, and the lockout judgement

    The rules as UFW keeps them, one per address family, with comments and application
    profiles; the report [ufw status verbose] prints of them, and what [parseStatus] reads
    in it; what a rule command makes of the table; and what a change that raises no reason
    leaves reachable in it. *)

From Stdlib Require Import Ascii.
From S2P Require Import Prelude GoStrings Codec Shell Words Cron Regex Firewall FirewallModule.

Local Open Scope Z_scope.

(** ** The table *)
Inductive verb := Allow | Deny | Reject | Limit.
#[export] Instance verb_eq_dec : EqDecision verb.
Proof. solve_decision. Defined.
Definition verb_name (v : verb) : string :=
  match v with Allow => "allow" | Deny => "deny" | Reject => "reject" | Limit => "limit" end.
Definition verb_word (v : verb) : string :=
  match v with Allow => "ALLOW" | Deny => "DENY" | Reject => "REJECT" | Limit => "LIMIT" end.

(** An incoming rule for a port (none: any port) of this host.  A profile is given by the
    words of its name.  Whether a column of the report carries the mark of the second
    address family is left open. *)
Record row := mk_row {
  u_v6 : bool;
  u_verb : verb;
  u_port : string;
  u_protocol : string;
  u_from : string;
  u_profile : list string;
  u_comment : string;
  to_marked : bool;
  from_marked : bool;
}.

Definition port_byte (c : ascii) : bool := is_digit c || one_of ",:" c.
Definition source_byte (c : ascii) : bool := is_hex c || one_of ".:/" c.
Definition profile_byte (c : ascii) : bool := graphic c && negb (one_of "()" c).
Definition profile_word (s : string) : bool :=
  negb (String.eqb s EmptyString) && all_bytes profile_byte s && bool_decide (actionWords s = None).

(** The rules that are considered: a port, a range or a list with an optional protocol,
    or any port; a source address or network, or any source; any comment of one line of
    printable ASCII; a profile other than one named [v6]. *)
Definition listed (r : row) : bool :=
  (if String.eqb (u_port r) EmptyString then String.eqb (u_protocol r) EmptyString && bool_decide (u_profile r = [])
   else all_bytes port_byte (u_port r)) &&
  bool_decide (u_protocol r ∈ [EmptyString; "tcp"; "udp"]%string) &&
  all_bytes source_byte (u_from r) && negb (is_anywhere (u_from r)) &&
  forallb profile_word (u_profile r) && negb (bool_decide (u_profile r = ["v6"%string])) &&
  all_bytes spaced (u_comment r).

(** ** The report *)
Fixpoint blanks (n : nat) : string := match n with O => EmptyString | S m => String " " (blanks m) end.
Definition pad (n : nat) (s : string) : string := s +:+ blanks (n - String.length s).

Definition spec_text (r : row) : string :=
  if String.eqb (u_port r) EmptyString then "Anywhere"
  else if String.eqb (u_protocol r) EmptyString then u_port r else u_port r +:+ "/" +:+ u_protocol r.

(** [(profile)], or [(profile (v6))]. *)
Fixpoint close_last (l : list string) : list string :=
  match l with [] => [] | [x] => [x +:+ ")"] | x :: l => x :: close_last l end.
Definition to_tail (r : row) : list string :=
  match u_profile r with
  | [] => if to_marked r then [v6_mark] else []
  | p :: ps => if to_marked r then String "(" p :: ps ++ [v6_mark +:+ ")"] else close_last (String "(" p :: ps)
  end.
Definition to_words (r : row) : list string := spec_text r :: to_tail r.
Definition from_words (r : row) : list string :=
  (if String.eqb (u_from r) EmptyString then "Anywhere"%string else u_from r) :: (if from_marked r then [v6_mark] else []).

Definition print_row (r : row) : string :=
  pad 26 (join " " (to_words r)) +:+ " " +:+ pad 12 (verb_word (u_verb r) +:+ " IN") +:+
  (if String.eqb (u_comment r) EmptyString then join " " (from_words r)
   else pad 26 (join " " (from_words r)) +:+ " # " +:+ u_comment r).

(** The lines between the first one and the rules: policies and the head of the table. *)
Definition quiet (l : string) : bool :=
  negb (any_byte (Ascii.eqb newline) l) &&
  (String.eqb (trim_space l) EmptyString ||
   negb (has_prefix "Status:" (trim_space l)) && bool_decide (parseRuleLine (trim_space l) = None)).
Definition report (header : list string) (t : list row) : string :=
  join (String newline EmptyString) ("Status: active"%string :: header ++ (print_row <$> t) ++ [EmptyString]).

(** What the panel reads of a rule: without a comment, its source. *)
Definition reported (r : row) (rule : Rule) : Prop :=
  Port rule = u_port r /\ Protocol rule = u_protocol r /\ r_Action rule = verb_name (u_verb r) /\
  (u_comment r = EmptyString -> From rule = u_from r).

(** ** Reading a row back *)
Lemma actionWords_verb v : actionWords (verb_word v) = Some (verb_name v).
Proof. by destruct v. Qed.

Lemma find_action_app ws v rest : Forall (fun w => actionWords w = None) ws ->
  find_action [] (ws ++ verb_word v :: rest) = Some (ws, verb_name v, rest).
Proof.
  intros Hws. assert (H : forall before, find_action before (ws ++ verb_word v :: rest) = Some (rev before ++ ws, verb_name v, rest)).
  { induction Hws as [|w ws Hw _ IH]; intros before; cbn [app find_action].
    - by rewrite actionWords_verb, app_nil_r.
    - rewrite Hw, IH. cbn [rev]. by rewrite <-(assoc_L (++)). }
  apply (H []).
Qed.

Lemma blanks_app n s : blanks n +:+ String " " s = String " " (blanks n +:+ s).
Proof. induction n as [|n IH]; [done|]. cbn [blanks]. change (String " " ?x +:+ ?y) with (String " " (x +:+ y)). by rewrite IH. Qed.
Lemma blanks_blank n : all_bytes blank (blanks n) = true.
Proof. by induction n. Qed.

Lemma words_padded n ws rest : Forall (fun w => word w = true) ws -> ws <> [] ->
  blank_words EmptyString (pad n (join " " ws) +:+ String " " rest) = ws ++ blank_words EmptyString rest.
Proof.
  intros Hw Hne. unfold pad. rewrite str_app_assoc, blanks_app, blank_words_join by done.
  by rewrite blank_words_blanks by apply blanks_blank.
Qed.

Lemma words_join_cons sep x l : l <> [] -> join sep (x :: l) = x +:+ sep +:+ join sep l.
Proof. by destruct l. Qed.
Lemma words_join_snoc sep l x : l <> [] -> join sep (l ++ [x]) = join sep l +:+ sep +:+ x.
Proof.
  intros Hl. destruct l as [|y l]; [done|]. clear Hl. revert y. induction l as [|z l IH]; intros y; [done|].
  change ((y :: z :: l) ++ [x]) with (y :: (z :: l) ++ [x]). rewrite words_join_cons, (IH z) by done.
  rewrite (words_join_cons sep y) by done. by rewrite !str_app_assoc.
Qed.
Lemma join_close l : l <> [] -> join " " (close_last l) = join " " l +:+ ")".
Proof.
  intros Hl. destruct l as [|y l]; [done|]. clear Hl. revert y. induction l as [|z l IH]; intros y; [done|].
  change (close_last (y :: z :: l)) with (y :: close_last (z :: l)).
  rewrite words_join_cons by (by destruct l). by rewrite IH, (words_join_cons " " y (z :: l)), !str_app_assoc.
Qed.

(** *** The words of a listed rule *)
Lemma listed_spec r : listed r = true ->
  (u_port r = EmptyString /\ u_protocol r = EmptyString /\ u_profile r = [] \/ u_port r <> EmptyString /\ all_bytes port_byte (u_port r) = true) /\
  (u_protocol r ∈ [EmptyString; "tcp"; "udp"]%string) /\ all_bytes source_byte (u_from r) = true /\ is_anywhere (u_from r) = false /\
  Forall (fun w => profile_word w = true) (u_profile r) /\ u_profile r <> ["v6"%string] /\ all_bytes spaced (u_comment r) = true.
Proof.
  unfold listed. rewrite !andb_true_iff, !negb_true_iff, bool_decide_eq_true, bool_decide_eq_false.
  intros ((((((Hp & Hq) & Hs) & Ha) & Hw) & Hv) & Hc). split_and!; try done; [|apply Forall_forall; intros w ?%list_elem_of_In; rewrite forallb_forall in Hw; by apply Hw].
  destruct (String.eqb_spec (u_port r) EmptyString) as [He|He]; [left|by right].
  apply andb_prop in Hp as [Hp%String.eqb_eq Hpr%bool_decide_eq_true]. done.
Qed.

Lemma port_graphic s : all_bytes port_byte s = true -> all_bytes graphic s = true.
Proof. apply all_bytes_impl, forall_ascii. by vm_compute. Qed.
Lemma source_graphic s : all_bytes source_byte s = true -> all_bytes graphic s = true.
Proof. apply all_bytes_impl, forall_ascii. by vm_compute. Qed.
Lemma profile_graphic s : all_bytes profile_byte s = true -> all_bytes graphic s = true.
Proof. apply all_bytes_impl, forall_ascii. by vm_compute. Qed.
Lemma word_app_r w s : word w = true -> all_bytes graphic s = true -> word (w +:+ s) = true.
Proof. intros [Hne Hw]%word_spec Hs. apply word_spec. split; [by destruct w|]. by rewrite all_bytes_app, Hw. Qed.

Lemma spec_word r : listed r = true -> word (spec_text r) = true.
Proof.
  intros ([(Hp & _)|(Hne & Hp)] & Hq & _)%listed_spec; unfold spec_text; [by rewrite Hp|].
  rewrite (proj2 (String.eqb_neq _ _) Hne). apply port_graphic in Hp. assert (word (u_port r) = true) by by apply word_spec.
  rewrite !elem_of_cons, elem_of_nil in Hq. by destruct Hq as [-> | [-> | [-> | []]]]; [|apply word_app_r..].
Qed.

Lemma profile_word_spec w : profile_word w = true -> word w = true /\ actionWords w = None /\ all_bytes profile_byte w = true.
Proof.
  unfold profile_word. rewrite !andb_true_iff, negb_true_iff, String.eqb_neq, bool_decide_eq_true. intros [[Hne Hw] Ha].
  split_and!; [|done..]. apply word_spec. by split; [|apply profile_graphic].
Qed.

(** No word of the first column is a verb: each has a byte no verb has, or is checked. *)
Definition fine_word (w : string) : Prop := word w = true /\ actionWords w = None.
Lemma any_byte_in p w c : any_byte (Ascii.eqb c) w = true -> all_bytes p w = true -> p c = true.
Proof.
  induction w as [|d w IH]; [done|]. cbn [any_byte all_bytes]. rewrite orb_true_iff, andb_true_iff.
  intros [Hd%Ascii.eqb_eq|Hw] [Hp Hr]; [by subst|by apply IH].
Qed.
Lemma marked_byte w c : any_byte (Ascii.eqb c) w = true -> is_upper c = false -> actionWords w = None.
Proof.
  intros Hw Hc. destruct (all_bytes is_upper w) eqn:Hu; [by rewrite (any_byte_in is_upper w c) in Hc|].
  unfold actionWords. by repeat match goal with |- context [String.eqb w ?x] => destruct (String.eqb_spec w x) as [->|_] end.
Qed.

Lemma spec_fine r : listed r = true -> fine_word (spec_text r).
Proof.
  intros Hl. split; [by apply spec_word|]. apply listed_spec in Hl as ([(Hp & _)|(Hne & Hp)] & _); unfold spec_text; [by rewrite Hp|].
  rewrite (proj2 (String.eqb_neq _ _) Hne). destruct (u_port r) as [|c p]; [done|]. apply andb_prop in Hp as [Hc _].
  apply (marked_byte _ c); [|revert Hc; by destruct c as [[] [] [] [] [] [] [] []]].
  destruct (String.eqb _ _); cbn [any_byte]; [by rewrite Ascii.eqb_refl|].
  change (String c p +:+ ?x) with (String c (p +:+ x)). cbn [any_byte]. by rewrite Ascii.eqb_refl.
Qed.

Lemma open_fine p : word p = true -> fine_word (String "(" p).
Proof. intros [_ Hp]%word_spec. split; [by apply word_spec|]. by apply (marked_byte _ "("). Qed.
Lemma close_fine w : word w = true -> fine_word (w +:+ ")").
Proof.
  intros Hw. split; [by apply word_app_r|]. apply (marked_byte _ ")"); [|done]. by rewrite any_byte_app, orb_true_r.
Qed.
Lemma close_last_fine l : Forall fine_word l -> Forall fine_word (close_last l).
Proof.
  induction 1 as [|x l Hx Hl IH]; [constructor|]. destruct l as [|y l]; [|by constructor].
  cbn [close_last]. constructor; [|constructor]. destruct Hx as [Hx _]. by apply close_fine.
Qed.

Lemma to_words_fine r : listed r = true -> Forall fine_word (to_words r).
Proof.
  intros Hl. unfold to_words. constructor; [by apply spec_fine|]. apply listed_spec in Hl as (_ & _ & _ & _ & Hp & _ & _). unfold to_tail.
  destruct Hp as [|p ps Hp Hps]; [destruct (to_marked r); by repeat constructor|].
  assert (Forall fine_word (String "(" p :: ps)).
  { constructor; [apply open_fine; by apply profile_word_spec in Hp as (? & _)|]. eapply Forall_impl; [exact Hps|].
    by intros w (? & ? & _)%profile_word_spec. }
  destruct (to_marked r); [|by apply close_last_fine]. change (?x :: ps ++ ?l) with ((x :: ps) ++ l). apply Forall_app. split; [done|by repeat constructor].
Qed.

Lemma from_words_words r : listed r = true -> Forall (fun w => word w = true) (from_words r).
Proof.
  intros (_ & _ & Hs & _)%listed_spec. unfold from_words. constructor.
  - destruct (String.eqb_spec (u_from r) EmptyString) as [_|Hne]; [done|]. apply word_spec. by split; [|apply source_graphic].
  - destruct (from_marked r); by repeat constructor.
Qed.

(** *** The fields of a printed row *)
Definition comment_words (r : row) : list string :=
  if String.eqb (u_comment r) EmptyString then [] else "#"%string :: blank_words EmptyString (u_comment r).

Lemma verb_words v rest :
  blank_words EmptyString (pad 12 (verb_word v +:+ " IN") +:+ rest) = verb_word v :: "IN"%string :: blank_words EmptyString rest.
Proof.
  assert (exists b, all_bytes blank b = true /\
    pad 12 (verb_word v +:+ " IN") +:+ rest = verb_word v +:+ String " " ("IN" +:+ String " " (b +:+ rest))) as (b & Hb & ->).
  { exists (blanks (11 - String.length (verb_word v +:+ " IN"))). split; [apply blanks_blank|]. by destruct v. }
  rewrite blank_words_next by (by destruct v). by rewrite (blank_words_next "IN"), blank_words_blanks.
Qed.

Lemma row_words r : listed r = true ->
  blank_words EmptyString (print_row r) = to_words r ++ verb_word (u_verb r) :: "IN"%string :: from_words r ++ comment_words r.
Proof.
  intros Hl. assert (Hfw := from_words_words r Hl). unfold print_row.
  change (" " +:+ ?x) with (String " " x). rewrite words_padded; [|eapply Forall_impl; [by apply to_words_fine|by intros w [? _]]|done].
  rewrite verb_words. unfold comment_words. do 3 f_equal. destruct (String.eqb _ _); [by rewrite blank_words_joined, app_nil_r|].
  change (" # " +:+ ?x) with (String " " ("#" +:+ String " " x)). rewrite words_padded by done. by rewrite (blank_words_next "#").
Qed.

Lemma words_join_bytes p l : p " "%char = true -> Forall (fun w => all_bytes p w = true) l -> all_bytes p (join " " l) = true.
Proof.
  intros Hb. induction 1 as [|x l Hx Hl IH]; [done|]. destruct l as [|y l]; [done|].
  rewrite words_join_cons, !all_bytes_app, Hx, IH by done. cbn [all_bytes]. by rewrite Hb.
Qed.
Lemma word_spaced w : word w = true -> all_bytes spaced w = true.
Proof. intros [_ Hw]%word_spec. eapply all_bytes_impl; [|exact Hw]. apply spaced_graphic. Qed.
Lemma pad_spaced n s : all_bytes spaced s = true -> all_bytes spaced (pad n s) = true.
Proof.
  intros Hs. unfold pad. rewrite all_bytes_app, Hs. eapply all_bytes_impl; [|apply blanks_blank]. intros c Hc. unfold spaced. by rewrite Hc, orb_true_r.
Qed.
Lemma words_spaced l : Forall (fun w => word w = true) l -> all_bytes spaced (join " " l) = true.
Proof. intros Hl. apply words_join_bytes; [done|]. eapply Forall_impl; [exact Hl|]. apply word_spaced. Qed.

(** A row starts with a byte that is not blank, nor the start of [Status:]. *)
Lemma row_head r : listed r = true -> exists c t, print_row r = String c t /\ graphic c = true /\ all_bytes spaced t = true /\
  Ascii.eqb "S" c = false.
Proof.
  intros Hl. assert (Hsp : all_bytes spaced (print_row r) = true).
  { assert (Hfw := words_spaced _ (from_words_words r Hl)).
    assert (Htw : all_bytes spaced (join " " (to_words r)) = true).
    { apply words_spaced. eapply Forall_impl; [by apply to_words_fine|by intros w [? _]]. }
    unfold print_row. rewrite !all_bytes_app, pad_spaced by done. rewrite pad_spaced by (by destruct (u_verb r)).
    destruct (String.eqb _ _); [by rewrite Hfw|]. rewrite !all_bytes_app, pad_spaced by done.
    by apply listed_spec in Hl as (_ & _ & _ & _ & _ & _ & ->). }
  assert (Hspec : exists c t, spec_text r = String c t /\ graphic c = true /\ Ascii.eqb "S" c = false).
  { apply listed_spec in Hl as ([(Hp & _)|(Hne & Hp)] & _); unfold spec_text; [rewrite Hp; by eexists _, _|].
    rewrite (proj2 (String.eqb_neq _ _) Hne). destruct (u_port r) as [|c p]; [done|]. apply andb_prop in Hp as [Hc _].
    destruct (String.eqb _ _); [exists c, p|exists c, (p +:+ "/" +:+ u_protocol r)]; split_and!; try done;
      revert Hc; by destruct c as [[] [] [] [] [] [] [] []]. }
  destruct Hspec as (c & t & Hspec & Hc & HS).
  assert (exists u, print_row r = String c u) as (u & Hu).
  { unfold print_row, pad, to_words. rewrite Hspec. destruct (to_tail r); by eexists. }
  exists c, u. split_and!; try done. rewrite Hu in Hsp. by apply andb_prop in Hsp as [_ ?].
Qed.

(** *** The columns *)
Notation unmark := (replacer [(v6_mark, EmptyString)]).

Lemma unmark_app s t : any_byte (Ascii.eqb "(") s = false -> unmark (s +:+ t) = s +:+ unmark t.
Proof.
  unfold replacer. rewrite str_length_app. induction s as [|c s IH]; [done|]. cbn [any_byte]. intros [Hc Hs]%orb_false_iff.
  change (String c s +:+ ?x) with (String c (s +:+ x)). cbn [String.length Nat.add replacer_fuel first_old strip_prefix v6_mark].
  by rewrite Hc, IH.
Qed.
Lemma unmark_none s : any_byte (Ascii.eqb "(") s = false -> unmark s = s.
Proof. intros Hs. rewrite <-(str_app_nil_r s) at 1. rewrite unmark_app by done. apply str_app_nil_r. Qed.
Lemma unmark_open y : strip_prefix v6_mark (String "(" y) = None -> unmark (String "(" y) = String "(" (unmark y).
Proof. intros Hy. unfold replacer. cbn [String.length replacer_fuel first_old]. by rewrite Hy. Qed.

Lemma graphic_last w : word w = true -> exists a c, w = a +:+ String c EmptyString /\ all_bytes graphic a = true /\ graphic c = true.
Proof.
  intros [Hne Hw]%word_spec. destruct (rev_string w) as [|c a] eqn:Hr.
  - destruct Hne. by rewrite <-(rev_string_involutive w), Hr.
  - exists (rev_string a), c. rewrite <-rev_string_cons, <-Hr, rev_string_involutive. split; [done|].
    rewrite <-(rev_string_bytes graphic w), Hr in Hw. cbn [all_bytes] in Hw. rewrite rev_string_bytes. by apply andb_prop in Hw as [-> ->].
Qed.

(** Blanks at the end of a word, or after the last byte of a text, are trimmed. *)
Lemma trim_text c a d b : graphic c = true -> all_bytes spaced a = true -> graphic d = true -> all_bytes blank b = true ->
  trim_space (String c (a +:+ String d b)) = String c (a +:+ String d EmptyString).
Proof.
  intros Hc Ha Hd Hb. unfold trim_space. rewrite trim_left_graphic by done.
  replace (String c (a +:+ String d b)) with ((String c a +:+ String d EmptyString) +:+ b) by (by rewrite str_app_assoc).
  apply trim_word_end; [|done..]. cbn [all_bytes]. by rewrite spaced_graphic, Ha.
Qed.
Lemma trim_word w b : word w = true -> all_bytes blank b = true -> trim_space (w +:+ b) = w.
Proof.
  intros (a & d & -> & Ha & Hd)%graphic_last Hb. destruct a as [|c a].
  - change ((EmptyString +:+ String d EmptyString) +:+ b) with (String d b). unfold trim_space. rewrite trim_left_graphic by done.
    by apply (trim_word_end EmptyString).
  - apply andb_prop in Ha as [Hc Ha]. rewrite str_app_assoc. change (String d EmptyString +:+ b) with (String d b).
    change (String c a +:+ ?x) with (String c (a +:+ x)). apply trim_text; try done. eapply all_bytes_impl; [|exact Ha]. apply spaced_graphic.
Qed.

(** A word with or without the mark behind it. *)
Lemma strip_marked w (marked : bool) : word w = true -> any_byte (Ascii.eqb "(") w = false ->
  strip_v6 (join " " (w :: (if marked then [v6_mark] else []))) = w.
Proof.
  intros Hw Hp. unfold strip_v6. destruct marked; cbn [join].
  - rewrite unmark_app by done. change (unmark (" " +:+ v6_mark)) with " "%string. by apply trim_word.
  - rewrite unmark_none by done. rewrite <-(str_app_nil_r w) at 1. by apply trim_word.
Qed.

Lemma cut_last_some c a b : any_byte (Ascii.eqb c) b = false -> cut_last c (a +:+ String c b) = Some (a, b).
Proof.
  intros Hb. unfold cut_last. rewrite rev_string_app, rev_string_cons, str_app_assoc.
  change (String c EmptyString +:+ ?x) with (String c x). rewrite cut_app; [by rewrite !rev_string_involutive|].
  apply any_byte_false. rewrite rev_string_bytes. by apply any_byte_false.
Qed.
Lemma cut_last_none c s : any_byte (Ascii.eqb c) s = false -> cut_last c s = None.
Proof.
  intros Hs. unfold cut_last. rewrite (proj2 (cut_None c (rev_string s))); [done|].
  apply any_byte_false. rewrite rev_string_bytes. by apply any_byte_false.
Qed.

Lemma byte_free p c s : p c = false -> all_bytes p s = true -> any_byte (Ascii.eqb c) s = false.
Proof.
  intros Hc Hs. destruct (any_byte (Ascii.eqb c) s) eqn:Ha; [|done]. by rewrite (any_byte_in p s c) in Hc.
Qed.
Lemma spec_no_paren r : listed r = true -> any_byte (Ascii.eqb "(") (spec_text r) = false.
Proof.
  intros ([(Hp & _)|(Hne & Hp)] & Hq & _)%listed_spec; unfold spec_text; [by rewrite Hp|].
  rewrite (proj2 (String.eqb_neq _ _) Hne). apply (byte_free _ "(") in Hp; [|done].
  rewrite !elem_of_cons, elem_of_nil in Hq. destruct Hq as [-> | [-> | [-> | []]]]; [done|..]; cbn [String.eqb]; by rewrite any_byte_app, Hp.
Qed.

Lemma has_suffix_app s p : has_suffix p (s +:+ p) = true.
Proof. unfold has_suffix. rewrite rev_string_app. apply has_prefix_spec. by eexists. Qed.

(** A profile behind the specification of the port. *)
Lemma strip_profile w x y : word w = true -> any_byte (Ascii.eqb "(") w = false -> any_byte (Ascii.eqb "(") y = false ->
  y = x +:+ ")" -> stripAppProfile (w +:+ " (" +:+ y) = w.
Proof.
  intros Hw Hp Hy ->. unfold stripAppProfile. change (" (" +:+ ?z) with (String " " EmptyString +:+ String "(" z).
  rewrite <-str_app_assoc, cut_last_some by done. assert (Hne := proj1 (proj1 (word_spec w) Hw)). destruct w as [|c w]; [done|].
  change (String c w +:+ ?z) with (String c (w +:+ z)) at 1. cbn iota.
  assert (has_suffix ")" ((String c w +:+ " ") +:+ String "(" (x +:+ ")")) = true) as ->.
  { change (String "(" (x +:+ ")")) with (String "(" x +:+ ")"). rewrite <-str_app_assoc. apply has_suffix_app. }
  by apply (trim_word (String c w) " ").
Qed.

Lemma profile_joined r : listed r = true -> all_bytes (fun c => profile_byte c || blank c) (join " " (u_profile r)) = true.
Proof.
  intros (_ & _ & _ & _ & Hp & _ & _)%listed_spec. apply words_join_bytes; [done|]. eapply Forall_impl; [exact Hp|].
  intros w (_ & _ & Hw)%profile_word_spec. eapply all_bytes_impl; [|exact Hw]. intros c ->. done.
Qed.
Lemma join_single l x : Forall (fun w => word w = true) l -> l <> [] -> any_byte blank x = false -> join " " l = x -> l = [x].
Proof.
  intros Hl Hne Hx Hj. destruct Hl as [|w l Hw Hl]; [done|]. destruct l as [|v l]; [cbn [join] in Hj; by subst|].
  exfalso. rewrite <-Hj in Hx. rewrite words_join_cons, !any_byte_app in Hx by done. cbn [any_byte] in Hx.
  change (blank " ") with true in Hx. by rewrite orb_true_r in Hx.
Qed.

Lemma profile_no_paren r c : listed r = true -> one_of "()" c = true -> any_byte (Ascii.eqb c) (join " " (u_profile r)) = false.
Proof.
  intros Hl Hc. eapply byte_free; [|by apply profile_joined]. cbn beta. unfold profile_byte. rewrite Hc, andb_false_r.
  revert Hc. by destruct c as [[] [] [] [] [] [] [] []].
Qed.

(** The profile is not taken for the mark. *)
Lemma profile_not_mark r y : listed r = true -> u_profile r <> [] -> y = ")"%string \/ y = " (v6))"%string ->
  strip_prefix v6_mark (String "(" (join " " (u_profile r) +:+ y)) = None.
Proof.
  intros Hl Hne Hy. destruct (strip_prefix _ _) as [t|] eqn:Hs; [|done]. exfalso. apply strip_prefix_Some in Hs.
  injection Hs as Hs. change (join " " (u_profile r) +:+ y = "v6" +:+ String ")" t) in Hs. apply (f_equal (cut ")")) in Hs. rewrite cut_app in Hs by done.
  assert (Hp := profile_no_paren r ")" Hl eq_refl). destruct Hy as [-> | ->].
  - rewrite cut_app in Hs by done. injection Hs as Hs _. pose proof Hl as (_ & _ & _ & _ & Hw & Hv & _)%listed_spec.
    apply Hv. apply join_single; try done. eapply Forall_impl; [exact Hw|]. by intros w (? & _)%profile_word_spec.
  - change (" (v6))"%string) with (" (v6" +:+ String ")" ")") in Hs. rewrite <-str_app_assoc, cut_app in Hs by (by rewrite any_byte_app, Hp).
    injection Hs as Hs _. apply (f_equal (any_byte (Ascii.eqb "("))) in Hs. by rewrite any_byte_app, orb_true_r in Hs.
Qed.

Lemma open_join p ps : join " " (String "(" p :: ps) = String "(" (join " " (p :: ps)).
Proof. by destruct ps. Qed.

Lemma trim_profile w x : word w = true -> all_bytes spaced x = true -> trim_space (w +:+ " (" +:+ x +:+ ")") = w +:+ " (" +:+ x +:+ ")".
Proof.
  intros [Hne Hw]%word_spec Hx. destruct w as [|c w]; [done|]. apply andb_prop in Hw as [Hc Hw].
  assert (Hws : all_bytes spaced w = true) by (eapply all_bytes_impl; [|exact Hw]; apply spaced_graphic).
  assert (Heq : w +:+ " (" +:+ x +:+ ")" = (w +:+ " (" +:+ x) +:+ String ")" EmptyString) by by rewrite !str_app_assoc.
  change (String c w +:+ ?z) with (String c (w +:+ z)). rewrite Heq. apply trim_text; try done. by rewrite !all_bytes_app, Hws, Hx.
Qed.

Lemma to_column r : listed r = true -> stripAppProfile (strip_v6 (join " " (to_words r))) = spec_text r.
Proof.
  intros Hl. pose proof (spec_word r Hl) as Hw. pose proof (spec_no_paren r Hl) as Hp. unfold to_words, to_tail.
  destruct (u_profile r) as [|p ps] eqn:Hpr.
  { rewrite strip_marked by done. unfold stripAppProfile. by rewrite cut_last_none. }
  assert (Hne : u_profile r <> []) by by rewrite Hpr. pose proof (profile_no_paren r "(" Hl eq_refl) as Hx.
  assert (Hxs : all_bytes spaced (join " " (u_profile r)) = true).
  { eapply all_bytes_impl; [|by apply profile_joined]. apply forall_ascii. by vm_compute. }
  unfold strip_v6. destruct (to_marked r).
  - rewrite words_join_cons by done. change (String "(" p :: ps ++ ?l) with ((String "(" p :: ps) ++ l). rewrite words_join_snoc, open_join, <-Hpr by done.
    rewrite unmark_app, (unmark_app " ") by done. change (String "(" ?a +:+ ?b) with (String "(" (a +:+ b)).
    change (" " +:+ v6_mark +:+ ")") with " (v6))"%string. rewrite unmark_open by (apply profile_not_mark; auto).
    rewrite unmark_app by done. change (unmark " (v6))") with " )"%string.
    replace (join " " (u_profile r) +:+ " )") with ((join " " (u_profile r) +:+ " ") +:+ ")") by by rewrite str_app_assoc.
    change (" " +:+ String "(" ?z) with (" (" +:+ z). rewrite trim_profile by (done || by rewrite all_bytes_app, Hxs).
    eapply strip_profile; try done. by rewrite !any_byte_app, Hx.
  - rewrite words_join_cons, join_close, open_join, <-Hpr by (done || by destruct ps).
    rewrite unmark_app, (unmark_app " ") by done. change (String "(" ?a +:+ ?b) with (String "(" (a +:+ b)).
    rewrite unmark_open by (apply profile_not_mark; auto). rewrite unmark_none by by rewrite any_byte_app, Hx.
    change (" " +:+ String "(" ?z) with (" (" +:+ z). rewrite trim_profile by done.
    eapply strip_profile; try done. by rewrite !any_byte_app, Hx.
Qed.

Lemma anywhere_head c t : port_byte c = true -> is_anywhere (String c t) = false.
Proof.
  intros Hc. unfold is_anywhere. assert (exists u, to_lower (String c t) = String c u) as (u & ->).
  { revert Hc. destruct c as [[] [] [] [] [] [] [] []]; try done; intros _; destruct t as [|b [|d t]]; by eexists. }
  revert Hc. by destruct c as [[] [] [] [] [] [] [] []].
Qed.

Lemma port_column r : listed r = true ->
  (if is_anywhere (spec_text r) then (EmptyString, EmptyString)
   else match cut_last "/" (spec_text r) with Some (p, q) => (p, to_lower q) | None => (spec_text r, EmptyString) end) = (u_port r, u_protocol r).
Proof.
  intros ([(Hp & He & _)|(Hne & Hp)] & Hq & _)%listed_spec; unfold spec_text; [by rewrite Hp, He|].
  rewrite (proj2 (String.eqb_neq _ _) Hne). pose proof (byte_free _ "/" _ eq_refl Hp) as Hs.
  assert (Ha : forall x, is_anywhere (u_port r +:+ x) = false).
  { intros x. destruct (u_port r) as [|c p]; [done|]. apply andb_prop in Hp as [Hc _]. by apply (anywhere_head c (p +:+ x)). }
  rewrite !elem_of_cons, elem_of_nil in Hq. destruct Hq as [-> |Hq].
  { cbn [String.eqb]. specialize (Ha EmptyString). rewrite str_app_nil_r in Ha. by rewrite Ha, cut_last_none. }
  assert (exists q, u_protocol r = q /\ String.eqb q EmptyString = false /\ any_byte (Ascii.eqb "/") q = false /\ to_lower q = q) as (q & -> & -> & Hqs & Hql).
  { destruct Hq as [-> | [-> | []]]; by eexists. }
  rewrite Ha. change (u_port r +:+ "/" +:+ q) with (u_port r +:+ String "/" q). by rewrite cut_last_some, Hql.
Qed.

Lemma from_column r : listed r = true ->
  let f := strip_v6 (join " " (from_words r)) in (if is_anywhere f then EmptyString else f) = u_from r.
Proof.
  intros Hl. cbn zeta. pose proof (from_words_words r Hl) as Hw. apply listed_spec in Hl as (_ & _ & Hs & Ha & _). unfold from_words in *.
  apply Forall_cons in Hw as [Hw _]. destruct (String.eqb_spec (u_from r) EmptyString) as [He|_].
  - rewrite strip_marked by done. by rewrite He.
  - rewrite strip_marked; [by rewrite Ha|done|]. by apply (byte_free source_byte).
Qed.

Lemma row_reported r : listed r = true -> exists rule, parseRuleLine (trim_space (print_row r)) = Some rule /\ reported r rule.
Proof.
  intros Hl. destruct (row_head r Hl) as (c & t & Hrow & Hc & Ht & _). unfold parseRuleLine. rewrite Hrow, fields_trimmed, <-Hrow, row_words by done.
  rewrite find_action_app by (eapply Forall_impl; [by apply to_words_fine|by intros w [_ ?]]).
  unfold to_words at 1. cbn iota. change (String.eqb (to_upper "IN") "IN") with true. cbn [negb]. cbn iota zeta. rewrite to_column by done.
  rewrite port_column by done. eexists. split; [reflexivity|]. split_and!; try done. intros Hcm. cbn [From].
  unfold comment_words. rewrite Hcm. cbn [String.eqb]. rewrite app_nil_r. by apply from_column.
Qed.

(** ** Reading the report back *)
Lemma parse_row st r : listed r = true -> exists rule, reported r rule /\
  parse_line st (print_row r) = mk_status (Installed st) (Active st) (Rules st ++ [rule]).
Proof.
  intros Hl. destruct (row_reported r Hl) as (rule & Hrule & Hr). exists rule. split; [done|].
  destruct (row_head r Hl) as (c & t & Hrow & Hc & Ht & HS). destruct (trim_spaced c t Hc Ht) as (a & b & Htrim & _).
  unfold parse_line. rewrite Hrule, Hrow, Htrim. cbn [String.eqb]. unfold has_prefix. cbn [strip_prefix]. by rewrite HS.
Qed.

Lemma parse_rows t : forallb listed t = true -> forall st, exists rules, Forall2 reported t rules /\
  foldl parse_line st (print_row <$> t) = mk_status (Installed st) (Active st) (Rules st ++ rules).
Proof.
  induction t as [|r t IH]; intros Ht st; [exists []; rewrite app_nil_r; split; [constructor|by destruct st]|].
  apply andb_prop in Ht as [Hr Ht]. destruct (parse_row st r Hr) as (rule & Hrule & Hp). cbn [fmap list_fmap foldl]. rewrite Hp.
  destruct (IH Ht (mk_status (Installed st) (Active st) (Rules st ++ [rule]))) as (rules & Hrules & ->).
  exists (rule :: rules). split; [by constructor|]. cbn [Installed Active Rules]. by rewrite <-(assoc_L (++)).
Qed.

Lemma parse_quiet header st : forallb quiet header = true -> foldl parse_line st header = st.
Proof.
  induction header as [|l header IH]; [done|]. cbn [forallb foldl]. intros [Hl Hh]%andb_prop.
  assert (parse_line st l = st) as ->; [|by apply IH]. unfold quiet in Hl. apply andb_prop in Hl as [_ Hl]. unfold parse_line.
  destruct (String.eqb (trim_space l) EmptyString); [done|]. cbn [orb] in Hl. apply andb_prop in Hl as [->%negb_true_iff ->%bool_decide_eq_true]. done.
Qed.

Lemma row_one_line r : listed r = true -> any_byte (Ascii.eqb newline) (print_row r) = false.
Proof.
  intros Hl. destruct (row_head r Hl) as (c & t & -> & Hc & Ht & _). apply (byte_free spaced); [done|]. cbn [all_bytes]. by rewrite spaced_graphic.
Qed.

Lemma report_read header t : forallb quiet header = true -> forallb listed t = true -> exists rules,
  Forall2 reported t rules /\ parseStatus (report header t) = mk_status false true rules.
Proof.
  intros Hh Ht. unfold parseStatus, report. rewrite split_joined; [|done|].
  - cbn [foldl]. rewrite !foldl_app.
    change (parse_line (mk_status false false []) "Status: active") with (mk_status false true []). rewrite (parse_quiet header) by done.
    destruct (parse_rows t Ht (mk_status false true [])) as (rules & Hr & ->). by exists rules.
  - constructor; [done|]. apply Forall_app. split; [|apply Forall_app; split; [|by repeat constructor]].
    + apply Forall_forall. intros l Hl%list_elem_of_In. rewrite forallb_forall in Hh. apply Hh, andb_prop in Hl as [Hl _]. by apply negb_true_iff in Hl.
    + apply Forall_map, Forall_forall. intros r Hr%list_elem_of_In. rewrite forallb_forall in Ht. by apply row_one_line, Ht.
Qed.

(** ** What the table decides

    UFW keeps a list for each address family; the first rule that covers a connection
    decides. *)
Definition in_port (port : Z) (part : string) : bool :=
  match cut ":" part with
  | None => bool_decide (parse_digits part = Some port)
  | Some (a, b) =>
      match parse_digits a, parse_digits b with Some x, Some y => (x <=? port) && (port <=? y) | _, _ => false end
  end.
Definition port_covers (spec : string) (port : Z) : bool := String.eqb spec EmptyString || existsb (in_port port) (split "," spec).
Definition tcp_covers (protocol : string) : bool := String.eqb protocol EmptyString || String.eqb protocol "tcp".
Definition admitting (v : verb) : bool := bool_decide (v = Allow \/ v = Limit).

(** ** The effect of a rule command, as UFW documents it

    A rule for any source stands for one row per address family, the second one if IPv6
    is on; a rule with a source has the family of the source.  A delete removes the rows
    of the verb and the body that have no profile, whatever their comment; an addition
    replaces the rows of its body, or adds one.  [normal] is what UFW makes of the rule
    of a command: the bits of a network behind its mask are cleared, a mask of all bits
    is dropped. *)
Definition families (ipv6 : bool) (rule : Rule) : list bool :=
  if String.eqb (From rule) EmptyString then false :: (if ipv6 then [true] else [])
  else [any_byte (Ascii.eqb ":") (From rule)].
Definition same_body (rule : Rule) (u : row) : bool :=
  String.eqb (u_port u) (Port rule) && String.eqb (u_protocol u) (Protocol rule) && String.eqb (u_from u) (From rule) &&
  bool_decide (u_profile u = []).
Definition of_family (v6 : bool) (rule : Rule) (u : row) : bool := eqb (u_v6 u) v6 && same_body rule u.
Definition deletes (ipv6 : bool) (rule : Rule) (u : row) : bool :=
  String.eqb (verb_name (u_verb u)) (r_Action rule) && existsb (fun v6 => of_family v6 rule u) (families ipv6 rule).

Definition new_row (action : string) (v6 : bool) (rule : Rule) (u : row) : Prop :=
  of_family v6 rule u = true /\ verb_name (u_verb u) = action.
Definition updated (action : string) (v6 : bool) (rule : Rule) (u u' : row) : Prop :=
  if of_family v6 rule u then new_row action v6 rule u' else u' = u.

Inductive put (action : string) (v6 : bool) (rule : Rule) : list row -> list row -> Prop :=
| put_update t t' : existsb (of_family v6 rule) t = true -> Forall2 (updated action v6 rule) t t' -> put action v6 rule t t'
| put_add l1 u l2 : existsb (of_family v6 rule) (l1 ++ l2) = false -> new_row action v6 rule u ->
    put action v6 rule (l1 ++ l2) (l1 ++ u :: l2).
Inductive puts (action : string) (rule : Rule) : list bool -> list row -> list row -> Prop :=
| puts_nil t : puts action rule [] t t
| puts_cons v6 l t t' t'' : put action v6 rule t t' -> puts action rule l t' t'' -> puts action rule (v6 :: l) t t''.

Section effects.
Context (normal : Rule -> Rule) (ipv6 : bool).

Inductive ufw_effect : Change -> list row -> list row -> Prop :=
| effect_delete rule t :
    ufw_effect (mk_change ActionDelete rule) t (List.filter (fun u => negb (deletes ipv6 (normal rule) u)) t)
| effect_put action rule t t' : action = ActionAllow \/ action = ActionDeny ->
    puts action (normal rule) (families ipv6 (normal rule)) t t' -> ufw_effect (mk_change action rule) t t'.
End effects.

(** ** Lemmas on lists and numbers *)
Lemma existsb_all_false {A} (f : A -> bool) l : existsb f l = false <-> forall x, x ∈ l -> f x = false.
Proof.
  induction l as [|y l IH]; simpl; [split; [by intros _ x ?%elem_of_nil|done]|]. rewrite orb_false_iff, IH. split.
  - by intros [Hy Hl] x [->|Hx]%elem_of_cons; [|by apply Hl].
  - intros H. split; [apply H; by left|]. intros x Hx. apply H. by right.
Qed.

Lemma elem_of_filterb {A} (f : A -> bool) l x : x ∈ List.filter f l <-> f x = true /\ x ∈ l.
Proof. rewrite !list_elem_of_In, filter_In. naive_solver. Qed.

Lemma dedupe_from_nil seen l : dedupe_from seen l = [] -> forall x, x ∈ l -> x ∈ seen.
Proof.
  revert seen. induction l as [|v l IH]; intros seen; simpl; [by intros _ x ?%elem_of_nil|].
  destruct (bool_decide_reflect (v ∈ seen)) as [Hv|Hv]; [|done]. intros H x [->|Hx]%elem_of_cons; [done|by eapply IH].
Qed.
Lemma dedupe_nil l : dedupe l = [] -> l = [].
Proof.
  unfold dedupe. destruct (length l <? 2)%nat; [done|]. intros H. destruct l as [|v l]; [done|].
  pose proof (dedupe_from_nil ∅ _ H v (list_elem_of_here _ _)). set_solver.
Qed.

Lemma omap_nil {A B} (f : A -> option B) l : omap f l = [] <-> forall x, x ∈ l -> f x = None.
Proof.
  induction l as [|y l IH]; simpl; [split; [by intros _ x ?%elem_of_nil|done]|]. destruct (f y) as [b|] eqn:Hf; split.
  - done.
  - intros H. by rewrite (H y (list_elem_of_here _ _)) in Hf.
  - intros Hl x [->|Hx]%elem_of_cons; [done|]. by apply IH.
  - intros H. apply IH. intros x Hx. apply H. by right.
Qed.

Lemma digits_graphic s z : parse_digits s = Some z -> all_bytes graphic s = true.
Proof. intros [_ H]%parse_digits_digits. eapply all_bytes_impl; [|exact H]. apply forall_ascii. by vm_compute. Qed.

(** A port specification of the table is read the way the panel reads it, but for lists,
    which the panel takes to admit nothing. *)
Lemma atoi_read s z : all_bytes port_byte s = true -> atoi (trim_space s) = Some z -> parse_digits s = Some z.
Proof.
  intros Hs. rewrite trim_graphic by by apply port_graphic. apply atoi_digits; by apply (byte_free port_byte).
Qed.
Lemma digits_bytes s z c : parse_digits s = Some z -> is_digit c = false -> any_byte (Ascii.eqb c) s = false.
Proof. intros [_ H]%parse_digits_digits Hc. by apply (byte_free is_digit). Qed.

Lemma range_covers spec port low high : all_bytes port_byte spec = true -> portRange spec = Some (low, high) -> low <= port <= high ->
  port_covers spec port = true.
Proof.
  intros Hb. unfold portRange, port_covers. intros Hr Hp. apply orb_true_iff. right. destruct (cut ":" spec) as [[a b]|] eqn:Hc.
  - pose proof Hc as [Hs _]%cut_Some. rewrite Hs, all_bytes_app in Hb. apply andb_prop in Hb as [Ha Hb]. change (all_bytes port_byte b = true) in Hb.
    destruct (atoi (trim_space a)) as [x|] eqn:Hx; [|done]. cbn [mbind option_bind] in Hr.
    destruct (atoi (trim_space b)) as [y|] eqn:Hy; [|done]. cbn [mbind option_bind] in Hr. injection Hr as -> ->.
    apply atoi_read in Hx, Hy; [|done..]. rewrite split_one.
    + cbn [existsb]. unfold in_port. rewrite Hc, Hx, Hy. by rewrite !(proj2 (Z.leb_le _ _)) by lia.
    + rewrite Hs, any_byte_app, (digits_bytes a low) by done. by apply (digits_bytes b high).
  - destruct (atoi (trim_space spec)) as [x|] eqn:Hx; [|done]. cbn [mbind option_bind] in Hr. injection Hr as -> ->.
    apply atoi_read in Hx; [|done]. rewrite split_one by by apply (digits_bytes spec high).
    cbn [existsb]. unfold in_port. rewrite Hc, Hx. replace port with high by lia. by rewrite bool_decide_true.
Qed.

Lemma port_part_read part z : port_number part = true -> parse_digits part = Some z -> atoi (trim_space part) = Some z.
Proof.
  intros Hp Hz. rewrite trim_graphic by (by eapply digits_graphic). unfold port_number in Hp.
  destruct (atoi part) as [v|] eqn:Hv; [|done]. apply atoi_digits in Hv as Hv'; [congruence|by apply (digits_bytes part z)..].
Qed.

(** The port of a checked rule. *)
Lemma checked_range spec port : matches portPattern spec = true -> forallb port_number (split ":" spec) = true -> port_covers spec port = true ->
  exists low high, portRange spec = Some (low, high) /\ low <= port <= high.
Proof.
  intros Hm Hn. assert (Hb : all_bytes (fun c => is_digit c || Ascii.eqb ":" c) spec = true).
  { revert Hm. apply matches_bytes, forall_ascii. by vm_compute. }
  unfold port_covers. assert (Hne : spec <> EmptyString) by (by apply (matches_nonempty portPattern)).
  rewrite (proj2 (String.eqb_neq _ _) Hne), split_one by (by apply (byte_free _ "," _) in Hb). cbn [orb existsb]. rewrite orb_false_r.
  unfold in_port, portRange. destruct (cut ":" spec) as [[a b]|] eqn:Hc.
  - apply cut_Some in Hc as [-> Ha]. rewrite split_app in Hn by done. cbn [forallb] in Hn. apply andb_prop in Hn as [Hna Hnb].
    destruct (parse_digits a) as [x|] eqn:Hx; [|done]. destruct (parse_digits b) as [y|] eqn:Hy; [|done].
    rewrite split_one in Hnb by (by apply (digits_bytes b y)). cbn [forallb] in Hnb. rewrite andb_true_r in Hnb.
    rewrite (port_part_read a x), (port_part_read b y) by done. cbn [mbind option_bind]. rewrite andb_true_iff, !Z.leb_le. intros Hp. by exists x, y.
  - apply cut_None in Hc. rewrite split_one in Hn by done. cbn [forallb] in Hn. rewrite andb_true_r in Hn.
    intros Hd%bool_decide_eq_true. rewrite (port_part_read spec port) by done. cbn [mbind option_bind]. exists port, port. split; [done|lia].
Qed.

Lemma find_app {A} (f : A -> bool) l1 l2 : List.find f (l1 ++ l2) = match List.find f l1 with Some x => Some x | None => List.find f l2 end.
Proof. induction l1 as [|x l1 IH]; simpl; [done|]. by destruct (f x). Qed.
Lemma find_kept {A} (f g : A -> bool) l x : List.find f l = Some x -> g x = true -> List.find f (List.filter g l) = Some x.
Proof.
  intros Hf Hg. revert Hf. induction l as [|y l IH]; simpl; [done|]. destruct (f y) eqn:Hy.
  - intros [= ->]. rewrite Hg. simpl. by rewrite Hy.
  - intros H%IH. destruct (g y); [|done]. simpl. by rewrite Hy.
Qed.

Lemma of_family_spec v6 rule u : of_family v6 rule u = true <->
  u_v6 u = v6 /\ u_port u = Port rule /\ u_protocol u = Protocol rule /\ u_from u = From rule /\ u_profile u = [].
Proof. unfold of_family, same_body. rewrite !andb_true_iff, eqb_true_iff, !String.eqb_eq, bool_decide_eq_true. tauto. Qed.

Section addresses.
(** [net.ParseIP], a result given by its 16 bytes, and [net.ParseCIDR], a network by the
    addresses it contains. *)
Context (parse_ip : string -> option string) (parse_cidr : string -> option (string -> bool)).
Notation fromCovers := (fromCovers parse_ip parse_cidr).
Notation carriesSession := (carriesSession parse_ip parse_cidr).
Notation assessLockout := (assessLockout parse_ip parse_cidr).
Definition is_ip (s : string) : bool := bool_decide (is_Some (parse_ip s)).
Definition is_cidr (s : string) : bool := bool_decide (is_Some (parse_cidr s)).

Definition source_covers (from address : string) : bool :=
  String.eqb from EmptyString ||
  match parse_cidr from with
  | Some contains => contains address
  | None => bool_decide (parse_ip from = Some address)
  end.
(** A connection to a TCP port of this host, in a family, from an address. *)
Definition covers (v6 : bool) (port : Z) (address : string) (u : row) : bool :=
  eqb (u_v6 u) v6 && tcp_covers (u_protocol u) && port_covers (u_port u) port && source_covers (u_from u) address.
Definition admitted (t : list row) (v6 : bool) (port : Z) (address : string) : bool :=
  match List.find (covers v6 port address) t with Some u => admitting (u_verb u) | None => false end.
(** Some row lets somebody reach the port. *)
Definition opens (port : Z) (u : row) : bool :=
  bool_decide (u_verb u = Allow) && tcp_covers (u_protocol u) && port_covers (u_port u) port.

(** ** What a change does to a connection *)
Lemma covers_body v6 port address f rule u u' : of_family v6 rule u = true -> of_family v6 rule u' = true ->
  covers f port address u = covers f port address u'.
Proof.
  intros (Hv & Hp & Hq & Hs & _)%of_family_spec (Hv' & Hp' & Hq' & Hs' & _)%of_family_spec. unfold covers. congruence.
Qed.

(** An addition keeps what is admitted if it allows, or does not cover the connection. *)
Lemma put_keeps action v6 rule t t' f port address : put action v6 rule t t' ->
  action = ActionAllow \/ (forall u, of_family v6 rule u = true -> covers f port address u = false) ->
  admitted t f port address = true -> admitted t' f port address = true.
Proof.
  intros Hput Hcase. assert (Hnew : forall u, new_row action v6 rule u -> covers f port address u = false \/ admitting (u_verb u) = true).
  { intros u [Hu Hv]. destruct Hcase as [->|Hc]; [right; by destruct (u_verb u)|left; by apply Hc]. }
  destruct Hput as [t t' _ Hall|l1 u l2 _ Hu].
  - unfold admitted. induction Hall as [|u u' t t' Hu Hall IH]; [done|]. cbn [List.find]. unfold updated in Hu.
    destruct (of_family v6 rule u) eqn:Hf; [|subst u'; by destruct (covers f port address u)].
    pose proof (covers_body _ port address f _ _ _ Hf (proj1 Hu)) as <-. destruct (Hnew u' Hu) as [Hc|Ha].
    + rewrite <-(covers_body _ port address f _ _ _ Hf (proj1 Hu)) in Hc. by rewrite Hc.
    + by destruct (covers f port address u).
  - unfold admitted. rewrite !find_app. destruct (List.find _ l1); [done|]. cbn [List.find].
    destruct (Hnew u Hu) as [->|Ha]; [done|]. by destruct (covers f port address u).
Qed.

Lemma puts_keep action rule l t t' f port address : puts action rule l t t' ->
  action = ActionAllow \/ (forall v6 u, of_family v6 rule u = true -> covers f port address u = false) ->
  admitted t f port address = true -> admitted t' f port address = true.
Proof.
  intros Hp Hc. induction Hp as [|v6 l t t' t'' Hput _ IH]; [done|]. intros Ha. apply IH. eapply put_keeps; [done| |done].
  destruct Hc as [?|Hc]; [by left|right; by apply Hc].
Qed.

Lemma delete_keeps ipv6 rule t f port address :
  (r_Action rule = ActionAllow -> forall v6 u, of_family v6 rule u = true -> covers f port address u = false) -> r_Action rule <> "limit"%string ->
  admitted t f port address = true -> admitted (List.filter (fun u => negb (deletes ipv6 rule u)) t) f port address = true.
Proof.
  intros Hc Hlim. unfold admitted. destruct (List.find _ t) as [u|] eqn:Hu; [|done]. intros Ha.
  rewrite (find_kept _ _ _ u Hu); [done|]. apply find_some in Hu as [_ Hu]. apply negb_true_iff. unfold deletes.
  destruct (String.eqb_spec (verb_name (u_verb u)) (r_Action rule)) as [Hv|]; [|done]. cbn [andb]. apply not_true_iff_false.
  intros (v6 & _ & Hf)%existsb_exists. assert (Hr : r_Action rule = ActionAllow).
  { rewrite <-Hv in Hlim |- *. by destruct (u_verb u). }
  by rewrite (Hc Hr v6 u Hf) in Hu.
Qed.

(** ** What a silent judgement says *)
Definition panel_covers (port : Z) (peer : string) (rule : Rule) : bool := ruleAdmits rule port && fromCovers (From rule) peer.

(** What an empty judgement says of a deny and of the delete of an allow. *)
Lemma assess_deny_nil st rule peer port : Active st = true -> assessLockout st (mk_change ActionDeny rule) peer = [] ->
  port ∈ accessPorts -> panel_covers (number port) peer rule = false.
Proof.
  intros Ha. unfold FirewallModule.assessLockout. rewrite Ha. cbn [negb ch_Rule ch_Action].
  change (String.eqb ActionDeny ActionDelete) with false. change (String.eqb ActionDeny ActionDeny) with true. cbn iota. intros H%dedupe_nil Hp.
  unfold panel_covers. rewrite omap_nil in H. specialize (H port Hp).
  destruct (ruleAdmits rule (number port)), (fromCovers (From rule) peer); done.
Qed.

Lemma assess_delete_nil st rule peer port : Active st = true -> r_Action rule = ActionAllow -> peer <> EmptyString ->
  assessLockout st (mk_change ActionDelete rule) peer = [] -> port ∈ accessPorts ->
  (panel port = true -> panel_covers (number port) peer rule = false) /\
  (ruleAdmits rule (number port) = true -> anyOtherRuleAdmits st rule (number port) = true).
Proof.
  intros Ha Hr Hpeer. unfold FirewallModule.assessLockout. rewrite Ha. cbn [negb ch_Rule ch_Action].
  change (String.eqb ActionDelete ActionDelete) with true. cbn iota. rewrite Hr. change (String.eqb ActionAllow ActionAllow) with true. cbn iota.
  intros H%dedupe_nil Hp. cbn [negb] in H. apply app_nil in H as [Hs Ho]. split.
  - intros Hpanel. destruct (carriesSession rule peer) eqn:Hc; [done|]. clear -Hc Hp Hpanel Hpeer. unfold FirewallModule.carriesSession in Hc.
    rewrite (proj2 (String.eqb_neq _ _) Hpeer) in Hc. cbn [orb] in Hc. unfold panel_covers.
    destruct (fromCovers (From rule) peer); [|by rewrite andb_false_r]. cbn [negb] in Hc. rewrite andb_true_r.
    rewrite existsb_all_false in Hc. specialize (Hc port Hp). by rewrite Hpanel in Hc.
  - intros Hadm. rewrite omap_nil in Ho. specialize (Ho port Hp). rewrite Hadm in Ho. cbn [negb] in Ho.
    by destruct (anyOtherRuleAdmits st rule (number port)).
Qed.


Lemma ruleAdmits_spec rule port : ruleAdmits rule port = tcp_covers (Protocol rule) &&
  (String.eqb (Port rule) EmptyString || match portRange (Port rule) with Some (low, high) => (low <=? port) && (port <=? high) | None => false end).
Proof.
  unfold ruleAdmits, tcp_covers. destruct (String.eqb (Protocol rule) EmptyString), (String.eqb (Protocol rule) "tcp"), (String.eqb (Port rule) EmptyString); done.
Qed.

(** A rule the agent accepts admits, for the panel, at least what UFW makes it admit. *)
Lemma body_covered rule port address peer v6 f u :
  validate_rule is_ip is_cidr rule = Ok tt -> parse_ip peer = Some address -> of_family v6 rule u = true ->
  covers f port address u = true -> panel_covers port peer rule = true.
Proof.
  intros Hv Hpeer (_ & Hp & Hq & Hs & _)%of_family_spec. unfold covers, panel_covers. rewrite Hp, Hq, Hs, ruleAdmits_spec, !andb_true_iff.
  intros (((_ & Ht) & Hport) & Hfrom). split_and!; [done| |].
  - unfold validate_rule in Hv. destruct (matches portPattern (Port rule)) eqn:Hm; [|done]. cbn [negb fail_if mbind result_bind] in Hv.
    destruct (forallb port_number (split ":" (Port rule))) eqn:Hn; [|done].
    destruct (checked_range _ _ Hm Hn Hport) as (low & high & -> & ?). by rewrite orb_true_iff, andb_true_iff, !Z.leb_le; right.
  - unfold source_covers in Hfrom. unfold FirewallModule.fromCovers. destruct (String.eqb (trim_space (From rule)) EmptyString) eqn:He; [done|].
    rewrite Hpeer. destruct (String.eqb_spec (From rule) EmptyString) as [He'|_]; [by rewrite He' in He|]. cbn [orb] in Hfrom.
    destruct (parse_cidr (From rule)); [done|]. apply bool_decide_eq_true in Hfrom. rewrite Hfrom. by apply String.eqb_refl.
Qed.

Lemma reported_opens r rule port : listed r = true -> reported r rule -> r_Action rule = ActionAllow -> ruleAdmits rule port = true ->
  opens port r = true.
Proof.
  intros Hl (Hp & Hq & Hv & _) Ha. rewrite ruleAdmits_spec, Hp, Hq. unfold opens. intros [Ht Hport]%andb_prop.
  rewrite Ht. rewrite Hv in Ha. rewrite bool_decide_true by (by destruct (u_verb r)). cbn [andb].
  apply listed_spec in Hl as ([(He & _)|(Hne & Hb)] & _); [by rewrite He|]. rewrite (proj2 (String.eqb_neq _ _) Hne) in Hport. cbn [orb] in Hport.
  destruct (portRange (u_port r)) as [[low high]|] eqn:Hr; [|done]. apply andb_prop in Hport as [?%Z.leb_le ?%Z.leb_le].
  by eapply range_covers.
Qed.

Lemma discovered {W} (runner : Command -> W -> (string * option string) * W) n header t st :
  (forall w, (runner ufw_status w).1 = (execRunner_output (report header t), None)) -> len (report header t) <= 8 * 1024 ->
  forallb quiet header = true -> forallb listed t = true -> (Discover runner n).1 = Ok st -> Active st = true -> Forall2 reported t (Rules st).
Proof.
  intros Hrun Hlen Hh Ht. unfold Discover. destruct (installed runner n) as [present n1]. destruct present; cbn [negb]; [|by intros [= <-]].
  unfold exec. specialize (Hrun (world n1)). destruct (runner ufw_status (world n1)) as [[output err] w]. injection Hrun as -> ->.
  unfold execRunner_output. rewrite (proj2 (Z.ltb_ge _ _)) by done. destruct (report_read header t Hh Ht) as (rules & Hr & ->).
  by intros [= <-] _.
Qed.

Lemma validate_delete rule : validate is_ip is_cidr (mk_change ActionDelete rule) = Ok tt ->
  (r_Action rule = ActionAllow \/ r_Action rule = ActionDeny) /\ validate_rule is_ip is_cidr rule = Ok tt.
Proof.
  unfold validate. cbn [ch_Action ch_Rule]. change (String.eqb ActionDelete ActionEnable || String.eqb ActionDelete ActionDisable) with false.
  change (String.eqb ActionDelete ActionAllow || String.eqb ActionDelete ActionDeny) with false.
  change (String.eqb ActionDelete ActionDelete) with true. cbn iota.
  destruct (String.eqb_spec (r_Action rule) ActionAllow) as [?|_]; [by split; [left|]|].
  destruct (String.eqb_spec (r_Action rule) ActionDeny) as [?|_]; [by split; [right|]|done].
Qed.
Lemma validate_put action rule : action = ActionAllow \/ action = ActionDeny -> validate is_ip is_cidr (mk_change action rule) = Ok tt ->
  validate_rule is_ip is_cidr rule = Ok tt.
Proof. by intros [-> | ->]. Qed.

(** The rows a delete leaves still open a port, when another reported rule admits it. *)
Lemma delete_leaves_open st t ipv6 rule port : Forall2 reported t (Rules st) -> forallb listed t = true ->
  (forall u, u ∈ t -> deletes ipv6 rule u = true -> u_comment u = EmptyString) ->
  (forall u, u ∈ t -> deletes ipv6 rule u = true -> opens port u = true -> anyOtherRuleAdmits st rule port = true) ->
  (exists u, u ∈ t /\ opens port u = true) ->
  exists u, u ∈ List.filter (fun u => negb (deletes ipv6 rule u)) t /\ opens port u = true.
Proof.
  intros Hr Ht Hcomment Hother (u & Hu & Ho). setoid_rewrite elem_of_filterb. destruct (deletes ipv6 rule u) eqn:Hd; [|by exists u; rewrite Hd].
  pose proof (Hother u Hu Hd Ho) as Hex. unfold anyOtherRuleAdmits in Hex.
  apply existsb_exists in Hex as (e & He%list_elem_of_In & [[Hea%String.eqb_eq Hes%negb_true_iff]%andb_true_iff Hep]%andb_true_iff).
  apply list_elem_of_lookup in He as (i & He). destruct (Forall2_lookup_r _ _ _ _ _ Hr He) as (x & Hx & Hxe). apply list_elem_of_lookup_2 in Hx.
  rewrite forallb_forall in Ht. exists x. split; [split; [|done]|].
  - apply negb_true_iff, not_true_iff_false. intros Hdx. pose proof (Hcomment x Hx Hdx) as Hc. unfold deletes in Hdx.
    apply andb_prop in Hdx as [_ (v6 & _ & (_ & Hp & Hq & Hs & _)%of_family_spec)%existsb_exists].
    destruct Hxe as (Hp' & Hq' & _ & Hs'). unfold sameRuleBody in Hes. rewrite Hp', Hq', (Hs' Hc), Hp, Hq, Hs, !String.eqb_refl in Hes. done.
  - eapply reported_opens; try done. apply Ht. by apply list_elem_of_In.
Qed.

Lemma deleted_admits rule ipv6 port u : validate_rule is_ip is_cidr rule = Ok tt -> deletes ipv6 rule u = true -> opens port u = true ->
  ruleAdmits rule port = true.
Proof.
  intros Hv [_ (v6 & _ & (_ & Hp & Hq & _)%of_family_spec)%existsb_exists]%andb_prop.
  unfold opens. rewrite Hp, Hq, ruleAdmits_spec, !andb_true_iff. intros ((_ & Ht) & Hport). split; [done|].
  unfold validate_rule in Hv. destruct (matches portPattern (Port rule)) eqn:Hm; [|done]. cbn [negb fail_if mbind result_bind] in Hv.
  destruct (forallb port_number (split ":" (Port rule))) eqn:Hn; [|done].
  destruct (checked_range _ _ Hm Hn Hport) as (low & high & -> & ?). by rewrite orb_true_iff, andb_true_iff, !Z.leb_le; right.
Qed.

(** C22. A change that raises no reason locks nobody out.  Let UFW's table hold listed
    rules, and the control panel judge a change the agent accepts by what the agent reads
    of the report of this table.  When the firewall enforces and no reason is raised,
    the command, whatever rows UFW puts it in, leaves every connection from the caller's
    address to a port of the panel that the table admitted admitted; and a delete leaves
    each of SSH, HTTP and HTTPS with an allow row when it had one, if no row it removes
    carries a comment.  The report fits the 8 KiB the agent reads, and the rule is
    written as UFW writes it. *)
Theorem firewall_unflagged_change_keeps_access {W} (runner : Command -> W -> (string * option string) * W) n header t normal ipv6 st change peer address after :
  (forall w, (runner ufw_status w).1 = (execRunner_output (report header t), None)) -> len (report header t) <= 8 * 1024 ->
  forallb quiet header = true -> forallb listed t = true ->
  (Discover runner n).1 = Ok st -> Active st = true ->
  validate is_ip is_cidr change = Ok tt -> normal (ch_Rule change) = ch_Rule change ->
  parse_ip peer = Some address -> peer <> EmptyString ->
  assessLockout st change peer = [] -> ufw_effect normal ipv6 change t after ->
  forall port, port ∈ accessPorts ->
    (panel port = true -> forall v6, admitted t v6 (number port) address = true -> admitted after v6 (number port) address = true) /\
    (ch_Action change = ActionDelete ->
      (forall u, u ∈ t -> deletes ipv6 (ch_Rule change) u = true -> u_comment u = EmptyString) ->
      (exists u, u ∈ t /\ opens (number port) u = true) -> exists u, u ∈ after /\ opens (number port) u = true).
Proof.
  intros Hrun Hlen Hh Ht Hdisc Ha Hval Hnorm Hip Hpeer Hn He port Hp.
  pose proof (discovered runner n header t st Hrun Hlen Hh Ht Hdisc Ha) as Hr.
  destruct He as [rule t|action rule t t' Hact He]; cbn [ch_Rule ch_Action] in *; rewrite Hnorm in *.
  - apply validate_delete in Hval as [Hv Hval]. destruct (decide (r_Action rule = ActionAllow)) as [Hallow|Hallow].
    + destruct (assess_delete_nil st rule peer port Ha Hallow Hpeer Hn Hp) as [Hc Ho]. split.
      * intros Hpan v6. apply delete_keeps; [|by rewrite Hallow]. intros _ f u Hu. specialize (Hc Hpan).
        apply not_true_iff_false. intros Hcov. by rewrite (body_covered rule (number port) address peer f v6 u) in Hc.
      * intros _ Hcomment. eapply delete_leaves_open; [done..|]. intros u _ Hd Hopen. apply Ho. by eapply deleted_admits.
    + destruct Hv as [?|Hdeny]; [done|]. split; [intros _ v6; apply delete_keeps; [done|by rewrite Hdeny]|].
      intros _ _ (u & Hu & Ho). exists u. split; [|done]. apply elem_of_filterb. split; [|done]. apply negb_true_iff.
      unfold deletes, opens in *. rewrite !andb_true_iff in Ho. destruct Ho as [[->%bool_decide_eq_true _] _]. by rewrite Hdeny.
  - pose proof (validate_put action rule Hact Hval) as Hvr. split; [|by destruct Hact as [-> | ->]]. intros _ v6. eapply puts_keep; [done|].
    destruct Hact as [->|Hd]; [by left|subst action; right]. intros f u Hu. pose proof (assess_deny_nil st rule peer port Ha Hn Hp) as Hc.
    apply not_true_iff_false. intros Hcov. by rewrite (body_covered rule (number port) address peer f v6 u) in Hc.
Qed.
End addresses.
