(* ===== verification/FirewallProps.v ===== *)
(** * Enabling the firewall, undoing a rule

    The commands behind an enable, in their order, and those behind a change and the
    change that undoes it. *)

From Stdlib Require Import Ascii.
From S2P Require Import Prelude GoStrings Regex Firewall FirewallModule.

Local Open Scope Z_scope.

Section host.
Context {W : Type} (runner : Command -> W -> (string * option string) * W) (is_ip is_cidr : string -> bool).
Notation node := (@Firewall.node W).
Notation exec := (exec runner).
Notation run := (run runner).
Notation Apply := (Apply runner is_ip is_cidr).

(** What an operation adds to the commands run. *)
Definition adds (n n' : node) (l : list (Command * bool)) : Prop := ran n' = ran n ++ l.

Lemma adds_trans n n' n'' l l' : adds n n' l -> adds n' n'' l' -> adds n n'' (l ++ l').
Proof. unfold adds. intros -> ->. by rewrite (assoc_L (++)). Qed.

Lemma exec_adds c n answer n' : exec c n = (answer, n') -> adds n n' [(c, succeeded answer.2)].
Proof. unfold Firewall.exec. destruct (runner c (world n)) as [a w]. by intros [= <- <-]. Qed.

Lemma run_adds args n e n' : run args n = (e, n') -> adds n n' [(ufw args, succeeded e)].
Proof.
  unfold Firewall.run. destruct (exec (ufw args) n) as [[output err] n1] eqn:He. apply exec_adds in He. simpl in He.
  by destruct err; intros [= <- <-].
Qed.

Lemma installed_adds n b n' : installed runner n = (b, n') -> adds n n' [(ufw_version, b)].
Proof. unfold installed. destruct (exec ufw_version n) as [[output err] n1] eqn:He. apply exec_adds in He. by intros [= <- <-]. Qed.

Lemma Discover_adds n r n' : Discover runner n = (r, n') -> exists l, adds n n' l /\ forall x, x ∈ l -> x.1 = ufw_version \/ x.1 = ufw_status.
Proof.
  unfold Discover. destruct (installed runner n) as [present n1] eqn:Hi. apply installed_adds in Hi. destruct present; cbn [negb].
  - destruct (exec ufw_status n1) as [[output err] n2] eqn:He. apply exec_adds in He. simpl in He. intros H.
    assert (n' = n2) as -> by (by destruct err; injection H as _ ->). eexists. split; [by eapply adds_trans|].
    intros x. simpl. rewrite !elem_of_cons, elem_of_nil. intros [->|[->|[]]]; [by left|by right].
  - intros [= _ <-]. eexists. split; [done|]. intros x ->%list_elem_of_singleton. by left.
Qed.

(** The ports that stay open. *)
Lemma elem_of_specs spec ports : spec ∈ specs ports <-> exists p, spec = p +:+ "/tcp" /\ (p = "22"%string \/ p ∈ ports \/ p ∈ panelPorts).
Proof.
  unfold specs. rewrite (sort_strings_perm _), list_elem_of_fmap. setoid_rewrite elem_of_elements.
  split; intros (p & -> & Hp); exists p; (split; [done|]); rewrite elem_of_list_to_set, elem_of_cons, elem_of_app in *; done.
Qed.

Lemma specs_distinct ports : NoDup (specs ports).
Proof.
  unfold specs. rewrite (sort_strings_perm _). apply NoDup_fmap_2_strong; [|apply NoDup_elements].
  intros p q _ _ He. apply str_app_inj_length in He as [? _]; [done|].
  apply (f_equal String.length) in He. rewrite !str_length_app in He. lia.
Qed.

Lemma allow_all_adds ports n e n' : allow_all runner ports n = (e, n') ->
  exists l, adds n n' l /\ (forall x, x ∈ l -> exists p, p ∈ ports /\ x.1 = ufw ["allow"%string; p]) /\
    (e = None -> l = (fun p => (ufw ["allow"%string; p], true)) <$> ports).
Proof.
  revert n. induction ports as [|p ports IH]; intros n; cbn [allow_all].
  - intros [= <- <-]. exists []. split_and!; [unfold adds; by rewrite app_nil_r|by intros x ?%elem_of_nil|done].
  - destruct (run ["allow"%string; p] n) as [[e1|] n1] eqn:Hr; apply run_adds in Hr.
    + intros [= <- <-]. eexists. split_and!; [done| |done]. intros x ->%list_elem_of_singleton. exists p. split; [by left|done].
    + intros (l & Hl & Hx & He)%IH. eexists. split_and!; [by eapply adds_trans| |].
      * intros x [->|(q & Hq & Hxq)%Hx]%elem_of_cons; [exists p; split; [by left|done]|]. exists q. split; [by right|done].
      * intros ->%He. done.
Qed.

(** ** Enabling *)
Definition enabling : Command := ufw enable_args.
Definition absent (l : list (Command * bool)) : Prop := forall x, x ∈ l -> x.1 <> enabling.

Lemma absent_app l l' : absent l -> absent l' -> absent (l ++ l').
Proof. intros H H' x [Hx|Hx]%elem_of_app; [by apply H|by apply H']. Qed.

Lemma absent_split pre b0 post l1 b l2 : absent pre -> absent post ->
  pre ++ (enabling, b0) :: post = l1 ++ (enabling, b) :: l2 -> l1 = pre /\ b = b0 /\ l2 = post.
Proof.
  revert l1. induction pre as [|x pre IH]; intros [|y l1] Hpre Hpost; simpl.
  - by intros [= -> ->].
  - intros [= <- ->]. exfalso. apply (Hpost (enabling, b)); [apply elem_of_app; right; by left|done].
  - intros [= -> _]. exfalso. by apply (Hpre (enabling, b)); [left|].
  - intros [= <- He]. apply IH in He as (-> & -> & ->); [done| |done]. intros z Hz. apply Hpre. by right.
Qed.

Lemma absent_never l l1 b l2 : absent l -> l <> l1 ++ (enabling, b) :: l2.
Proof. intros H ->. apply (H (enabling, b)); [apply elem_of_app; right; by left|done]. Qed.

(** The commands of an enable. *)
Lemma enable_adds n e n' : enable runner n = (e, n') ->
  let ports := (survivalPorts runner n).1 in
  exists l, adds n n' l /\
    (absent l /\ e <> None \/
     exists pre b, l = pre ++ [(enabling, b)] /\ absent pre /\ (e = None -> b = true) /\ forall p, p ∈ ports -> (ufw ["allow"%string; p], true) ∈ pre).
Proof.
  unfold enable. destruct (survivalPorts runner n) as [ports n1] eqn:Hs. cbn zeta. simpl fst.
  assert (H1 : exists b, adds n n1 [(sshd_config, b)]).
  { unfold survivalPorts, sshdPorts in Hs. destruct (exec sshd_config n) as [[output err] n0] eqn:He. apply exec_adds in He.
    injection Hs as _ <-. by eexists. }
  destruct H1 as [b1 H1]. destruct (allow_all runner ports n1) as [e2 n2] eqn:Ha. apply allow_all_adds in Ha as (l & Hl & Hx & Hnone).
  assert (Habs : absent ((sshd_config, b1) :: l)).
  { intros x [->|Hin]%elem_of_cons; [done|]. destruct (Hx x Hin) as (p & _ & ->). done. }
  destruct e2 as [e2|].
  - intros [= <- <-]. eexists. split; [by eapply adds_trans|]. by left.
  - intros Hr%run_adds. specialize (Hnone eq_refl). eexists. split; [eapply adds_trans; [by eapply adds_trans|exact Hr]|]. right.
    eexists _, _. split_and!; [done|done|by intros ->|]. intros p Hp. right. rewrite Hnone. apply (list_elem_of_fmap_2 (fun p => (ufw ["allow"%string; p], true))). done.
Qed.

(** C23. The firewall comes up with its survival rules.  Whatever UFW and sshd answer, an
    enable runs [ufw --force enable] at most once, and only after [ufw allow] succeeded
    for SSH on port 22, for HTTP and HTTPS, and for every port sshd says it listens on;
    when one of them fails the firewall is not enabled, and when the operator reports
    success it was.  No check of a caller is involved: this is what the operator does
    for the bare action. *)
Theorem firewall_enable_after_survival change n r n' :
  ch_Action change = ActionEnable -> Apply change n = (r, n') ->
  let ports := (survivalPorts runner (installed runner n).2).1 in
  (forall p, p ∈ ["22/tcp"; "80/tcp"; "443/tcp"]%string -> p ∈ ports) /\
  (forall p, p ∈ (sshdPorts runner (installed runner n).2).1 -> p +:+ "/tcp" ∈ ports) /\
  exists l, ran n' = ran n ++ l /\ (is_ok r = true -> (enabling, true) ∈ l) /\
    forall l1 b l2, l = l1 ++ (enabling, b) :: l2 -> absent l1 /\ absent l2 /\ forall p, p ∈ ports -> (ufw ["allow"%string; p], true) ∈ l1.
Proof.
  intros Hc HA. cbn zeta. assert (Hports : forall m, (survivalPorts runner m).1 = specs (sshdPorts runner m).1).
  { intros m. unfold survivalPorts. by destruct (sshdPorts runner m). }
  rewrite Hports. split_and!.
  { intros p Hp. apply elem_of_specs. rewrite !elem_of_cons, elem_of_nil in Hp.
    destruct Hp as [->|[->|[->|[]]]]; [exists "22"%string|exists "80"%string|exists "443"%string]; (split; [done|]); [by left|right; right; by left|].
    right. right. right. by left. }
  { intros p Hp. apply elem_of_specs. exists p. split; [done|]. right. by left. }
  rewrite <-Hports. revert HA. unfold Firewall.Apply, validate. rewrite Hc. cbn [orb]. change (String.eqb ActionEnable ActionEnable) with true. cbn [orb].
  destruct (installed runner n) as [present n1] eqn:Hi. apply installed_adds in Hi. simpl snd. destruct present; cbn [negb].
  - unfold perform. rewrite Hc. change (String.eqb ActionEnable ActionEnable) with true. cbn iota.
    destruct (enable runner n1) as [e n2] eqn:He. apply enable_adds in He as (l & Hl & Hcase). cbn zeta in Hcase.
    assert (Hv : absent [(ufw_version, true)]) by (by intros x ->%list_elem_of_singleton).
    destruct e as [e|].
    + intros [= <- <-]. exists ([(ufw_version, true)] ++ l). split_and!; [by eapply adds_trans|done|]. intros l1 b l2 Hs.
      destruct Hcase as [[Ha _]|(pre & b0 & -> & Hpre & _ & Hp)].
      * exfalso. revert Hs. apply absent_never. by apply absent_app.
      * rewrite (assoc_L (++)) in Hs. apply absent_split in Hs as (-> & -> & ->); [|by apply absent_app|by intros x ?%elem_of_nil].
        split_and!; [by apply absent_app|by intros x ?%elem_of_nil|]. intros p Hin. apply elem_of_app. right. by apply Hp.
    + destruct Hcase as [[_ []]|(pre & b0 & -> & Hpre & Hb & Hp)]; [done|]. rewrite (Hb eq_refl) in *. clear Hb.
      intros HD%Discover_adds. destruct HD as (ld & Hld & Hd). assert (Habs : absent ld) by (intros x Hx; by destruct (Hd x Hx) as [-> | ->]).
      exists ([(ufw_version, true)] ++ (pre ++ [(enabling, true)]) ++ ld). split_and!.
      * eapply adds_trans; [exact Hi|]. by eapply adds_trans.
      * intros _. apply elem_of_app. right. apply elem_of_app. left. apply elem_of_app. right. by left.
      * intros l1 b l2 Hs. rewrite <-(assoc_L (++) pre), (assoc_L (++)) in Hs.
        apply absent_split in Hs as (-> & -> & ->); [|by apply absent_app|done].
        split_and!; [by apply absent_app|done|]. intros p Hin. apply elem_of_app. right. by apply Hp.
  - intros [= <- <-]. exists [(ufw_version, false)]. split_and!; [done|done|]. intros l1 b l2 Hs. exfalso. revert Hs. apply absent_never.
    by intros x ->%list_elem_of_singleton.
Qed.
End host.

(** ** Undoing a change *)
Lemma revertFor_cases change back : revertFor change = Ok back ->
  (ch_Action change = ActionDelete /\ back = mk_change (r_Action (ch_Rule change)) (ch_Rule change)) \/
  ((ch_Action change = ActionAllow \/ ch_Action change = ActionDeny) /\
   back = mk_change ActionDelete (with_action (ch_Action change) (ch_Rule change))).
Proof.
  unfold revertFor. destruct (String.eqb_spec (ch_Action change) ActionDelete) as [Hd|_]; [intros [= <-]; by left|].
  destruct (String.eqb_spec (ch_Action change) ActionDeny) as [Hd|_]; [intros [= <-]; right; by auto|].
  destruct (String.eqb_spec (ch_Action change) ActionAllow) as [Hd|_]; [intros [= <-]; right; by auto|done].
Qed.

(** The change that undoes a checked rule command passes the agent's check too, and runs
    the delete of exactly the rule that was added, or adds exactly the rule that was
    deleted. *)
Theorem firewall_revert_commands {W} (runner : Command -> W -> (string * option string) * W) (is_ip is_cidr : string -> bool) change back :
  validate is_ip is_cidr change = Ok tt -> revertFor change = Ok back ->
  validate is_ip is_cidr back = Ok tt /\
  (forall n, perform runner back n =
     Firewall.run runner (if String.eqb (ch_Action change) ActionDelete then ruleArgs (r_Action (ch_Rule change)) (ch_Rule change)
                          else "delete"%string :: ruleArgs (ch_Action change) (without_comment (ch_Rule change))) n).
Proof.
  intros Hv Hb. destruct change as [action rule]. apply revertFor_cases in Hb as [(Ha & ->)|(Ha & ->)]; cbn [ch_Action ch_Rule] in *.
  - subst action. unfold validate in Hv. cbn [ch_Action ch_Rule] in Hv.
    change (String.eqb ActionDelete ActionEnable || String.eqb ActionDelete ActionDisable) with false in Hv.
    change (String.eqb ActionDelete ActionAllow || String.eqb ActionDelete ActionDeny) with false in Hv.
    change (String.eqb ActionDelete ActionDelete) with true in *. cbn iota in *.
    assert (Hr : r_Action rule = ActionAllow \/ r_Action rule = ActionDeny).
    { destruct (String.eqb_spec (r_Action rule) ActionAllow); [by left|]. destruct (String.eqb_spec (r_Action rule) ActionDeny); [by right|done]. }
    split.
    + unfold validate. cbn [ch_Action ch_Rule]. by destruct Hr as [Hr|Hr]; rewrite Hr in Hv |- *.
    + intros n. unfold perform. cbn [ch_Action ch_Rule]. by destruct Hr as [Hr|Hr]; rewrite Hr.
  - assert (Hd : String.eqb action ActionDelete = false) by (by destruct Ha as [-> | ->]). rewrite Hd. split.
    + unfold validate in Hv |- *. cbn [ch_Action ch_Rule]. by destruct Ha as [-> | ->].
    + intros n. unfold perform. cbn [ch_Action ch_Rule]. done.
Qed.
