(* ===== verification/FirewallSubmit.v ===== *)
(** * Accepting a firewall change

    What [Submit] leaves in the audit log, the queue and the table of reverts, on each of
    its outcomes. *)

From Stdlib Require Import Ascii.
From S2P Require Import Prelude GoStrings Json Regex Shell Firewall FirewallModule FirewallTable FirewallProps.
From S2P Require AuditLog Jobs JobQueue JobProps Safeguard SafeguardProps AuditChain.

Local Open Scope Z_scope.

Section submitting.
Context {D : Type} `{!AuditLog.Recorder D}.
Context (parse_ip : string -> option string) (parse_cidr : string -> option (string -> bool)).
Context (encode : Change -> json) (unmarshal_strings : string -> list string).
Context (handlers : Jobs.registry) (window : Z).
Notation Submit := (Submit parse_ip parse_cidr encode unmarshal_strings handlers window).
Notation queue := (queue encode unmarshal_strings handlers).

Lemma record_entries_log c l (d : D) : exists rest, AuditLog.entries (record_entries c l d) = AuditLog.entries d ++ rest.
Proof.
  revert d. induction l as [|e l IH]; intros d; [exists []; by rewrite app_nil_r|]. unfold record_entries in *. cbn [foldl].
  destruct (IH (AuditLog.RecordBestEffort (audited c) (entry_fault c) (clock c) e d).1) as [rest ->].
  unfold AuditLog.RecordBestEffort. destruct (audited c); cbn [negb]; [|by exists rest].
  destruct (AuditLog.record (entry_fault c) (clock c) e d) as [[u|x] d'] eqn:Hr; cbn [fst].
  - rewrite (AuditLog.record_appends _ _ _ _ _ _ Hr). eexists. by rewrite <-(assoc_L (++)).
  - rewrite (AuditLog.record_refused _ _ _ _ _ _ Hr). by exists rest.
Qed.

Lemma sensitive_log audited fault now e (d d' : D) r l : AuditLog.RecordSensitive audited fault now e d = (r, d', l) ->
  match r with Ok _ => AuditLog.entries d' = AuditLog.entries d ++ [AuditLog.describe e] | Err _ => d' = d end.
Proof.
  unfold AuditLog.RecordSensitive. destruct audited; cbn [negb]; [|by intros [= <- <- _]].
  destruct (AuditLog.record fault now e d) as [[u|x] d0] eqn:Hr; intros [= <- <- _].
  - by apply AuditLog.record_appends in Hr.
  - by apply AuditLog.record_refused in Hr.
Qed.

(** A job of the change, newly queued. *)
Definition queued (change : Change) (actor : option string) (job : Jobs.Job) (d d' : Jobs.db) : Prop :=
  exists row, JobQueue.inserted d d' row /\ Jobs.Kind row = "firewall.apply"%string /\ Jobs.RequestJSON row = marshal (encode change) /\
    Jobs.JobActor row = actor /\ Jobs.J_ID job = Jobs.ID row.

Lemma queue_spec c title change actor (s s' : stores D) r : JobQueue.db_ok (jobs_db s) -> queue c title change actor s = (r, s') ->
  guard_of s' = guard_of s /\ (exists rest, AuditLog.entries (audit_db s') = AuditLog.entries (audit_db s) ++ rest) /\
  match r with
  | Ok job => queued change actor job (jobs_db s) (jobs_db s')
  | Err (errQueue _) => queue_fate c = Jobs.TxRuns -> jobs_db s' = jobs_db s
  | Err _ => False
  end.
Proof.
  intros Hok. unfold FirewallModule.queue.
  destruct (Jobs.SubmitTitledWithOptions _ _ _ _ _ _ _ _ _) as [[r0 d] l] eqn:Hs.
  apply JobProps.submit_titled_spec in Hs; [|done..]. intros [= <- <-].
  split_and!; [done|apply (record_entries_log c l)|].
  destruct r0 as [job|e]; [|by apply Hs]. destruct Hs as (row & Hins & Hk & Hq & Ha & Hid & _). by exists row.
Qed.

Lemma arm_spec fault id now request g r g' : Safeguard.Arm window fault id now request g = (r, g') ->
  match r with
  | Err _ => g' = g
  | Ok armed => armed ∈ Safeguard.reverts g' /\ Safeguard.State armed = Safeguard.StateArmed /\
      (forall p, Safeguard.a_Payload request = Some p -> Safeguard.PayloadJSON armed = marshal p) /\
      Safeguard.JobID armed = Safeguard.a_JobID request /\ Safeguard.ExpiresAt armed = now + window /\
      (Safeguard.closed g' = false -> is_Some (Safeguard.timers g' !! Safeguard.ID armed))
  end.
Proof.
  unfold Safeguard.Arm. case_match; [by intros [= <- <-]|]. destruct (Safeguard.a_Payload request) as [payload|]; [|by intros [= <- <-]].
  case_match; [by intros [= <- <-]|]. intros [= <- <-]. rewrite SafeguardProps.schedule_rows, SafeguardProps.schedule_closed. split_and!; try done.
  - cbn. apply elem_of_app. right. by left.
  - by intros p [= ->].
  - intros Hc. by apply SafeguardProps.schedule_sets.
Qed.

Lemma prepareRevert_spec reasons change ack guarded :
  match prepareRevert reasons change ack guarded with
  | Ok None => reasons = []
  | Ok (Some back) => reasons <> [] /\ ack = true /\ guarded = true /\ revertFor change = Ok back
  | Err (errRisk l) => l = reasons /\ reasons <> [] /\ ack = false
  | Err errUnguarded => reasons <> [] /\ guarded = false
  | Err (errInvalid _) => True
  | Err _ => False
  end.
Proof.
  unfold prepareRevert. destruct reasons as [|x reasons]; [done|]. destruct ack, guarded; cbn [negb]; try done.
  by destruct (revertFor change).
Qed.

(** C21. A change that can lock the operator out is never applied unseen.  A refused
    request (unknown action, unacknowledged risk, no guard, no audit log) changes no
    store; a risk is refused with exactly the reasons of the judgement.  Every accepted
    request has its intent in the audit log before its job, whose row carries the change
    and the actor, is in the queue; it carries an armed revert exactly when the judgement
    raised a reason, and then it was acknowledged, the revert's payload is the change that
    undoes it, it names the job, expires one window later and has its timer.  The one
    failure that leaves more is that of arming: the job is queued then, and no revert is. *)
Theorem firewall_submission_guarded c status change actor remote ack (s s' : stores D) r :
  JobQueue.db_ok (jobs_db s) -> Submit c status change actor remote ack s = (r, s') ->
  let ch := clean_change change in
  let reasons := match status with Ok st => assessLockout parse_ip parse_cidr st ch remote | Err _ => [] end in
  let intent := AuditLog.mk_entry actor (changeAuditAction (ch_Action ch)) (changeSubject ch) remote (Some (changeMetadata status ch reasons)) in
  let logged := exists rest, AuditLog.entries (audit_db s') = AuditLog.entries (audit_db s) ++ AuditLog.describe intent :: rest in
  match r with
  | Err (errInvalid _) | Err errUnauditable => s' = s
  | Err (errRisk l) => s' = s /\ l = reasons /\ reasons <> [] /\ ack = false
  | Err errUnguarded => s' = s /\ reasons <> [] /\ guard_of s = None
  | Err (errQueue _) => logged /\ guard_of s' = guard_of s /\ (queue_fate c = Jobs.TxRuns -> jobs_db s' = jobs_db s)
  | Err (errArm _) => logged /\ reasons <> [] /\ ack = true /\ guard_of s' = guard_of s /\
      exists job, queued ch actor job (jobs_db s) (jobs_db s')
  | Ok sub => logged /\ queued ch actor (s_Job sub) (jobs_db s) (jobs_db s') /\
      match s_Revert sub with
      | None => reasons = [] /\ guard_of s' = guard_of s
      | Some armed => reasons <> [] /\ ack = true /\ exists g back, guard_of s' = Some g /\ revertFor ch = Ok back /\
          armed ∈ Safeguard.reverts g /\ Safeguard.State armed = Safeguard.StateArmed /\ Safeguard.PayloadJSON armed = marshal (encode back) /\
          Safeguard.JobID armed = Jobs.J_ID (s_Job sub) /\ Safeguard.ExpiresAt armed = clock c + window /\
          (Safeguard.closed g = false -> is_Some (Safeguard.timers g !! Safeguard.ID armed))
      end
  end.
Proof.
  intros Hok. unfold FirewallModule.Submit. destruct (changeTitle (clean_change change)) as [title|e]; [|by intros [= <- <-]].
  set (reasons := match status with Ok st => _ | Err _ => _ end).
  pose proof (prepareRevert_spec reasons (clean_change change) ack (bool_decide (is_Some (guard_of s)))) as Hprep.
  destruct (prepareRevert _ _ _ _) as [revertChange|e]; cbn zeta.
  2: { intros [= <- <-]. destruct e; try done. destruct Hprep as [? Hg]. split_and!; try done.
       apply bool_decide_eq_false in Hg. by destruct (guard_of s); [destruct Hg|]. }
  destruct (AuditLog.RecordSensitive _ _ _ _ _) as [[ru d] lost] eqn:Hrec. apply sensitive_log in Hrec.
  destruct ru as [u|x]; [|intros [= <- <-]; subst d; by destruct s].
  destruct (queue c title (clean_change change) actor _) as [rq sq] eqn:Hq. apply queue_spec in Hq as (Hg & (rest & Hrest) & Hq); [|done].
  cbn [guard_of audit_db jobs_db] in *. rewrite Hrec, <-(assoc_L (++)) in Hrest. cbn [app] in Hrest.
  destruct rq as [job|e]; [|destruct e; try done; intros [= <- <-]; split_and!; [by exists rest|done..]].
  destruct revertChange as [back|].
  - destruct Hprep as (Hr & Hack & Hguard & Hback). rewrite Hg. destruct (guard_of s) as [g|] eqn:Hgs; [|done].
    destruct (Safeguard.Arm _ _ _ _ _ g) as [ra g'] eqn:Harm. apply arm_spec in Harm. destruct ra as [armed|e]; intros [= <- <-].
    + destruct Harm as (H1 & H2 & H3 & H4 & H5 & H6). split_and!; [by exists rest|done|]. cbn [s_Revert s_Job guard_of]. split_and!; [done..|].
      exists g', back. split_and!; try done. by apply H3.
    + subst g'. split_and!; [by exists rest|done..|by eauto].
  - intros Heq. assert (Heq' : (r, s') = (Ok (mk_submission job None 0), sq)) by (by destruct (guard_of sq)). injection Heq' as -> ->.
    split_and!; [by exists rest|done|]. done.
Qed.
End submitting.

(** ** A concrete firewall

    A node whose sshd listens on port 2222, its table of rules, and one submission that
    goes through, one whose revert cannot be armed, one whose node does not answer. *)
Module Node.
Definition runner (c : Command) (w : unit) : (string * option string) * unit :=
  ((if String.eqb (c_Name c) "sshd" then "Port 2222"%string else "Status: active"%string, None), w).
Definition is_ip (s : string) : bool := String.eqb s "203.0.113.9" || String.eqb s "198.51.100.7".
Definition is_cidr (s : string) : bool := String.eqb s "10.0.0.0/8" || String.eqb s "10.1.2.3/8".
Definition parse_ip (s : string) : option string := if is_ip s then Some s else None.
Definition parse_cidr (s : string) : option (string -> bool) := if is_cidr s then Some (fun _ => false) else None.
Definition start : @node unit := mk_node tt [].
Definition enable_change : Change := mk_change ActionEnable (mk_rule EmptyString EmptyString EmptyString EmptyString EmptyString false).
Definition enabled := Apply runner is_ip is_cidr enable_change start.

Lemma firewall_enable_after_survival_witness :
  (ufw ["allow"; "2222/tcp"]%string, true) ∈ ran enabled.2 /\ (enabling, true) ∈ ran enabled.2.
Proof.
  destruct (firewall_enable_after_survival runner is_ip is_cidr enable_change start enabled.1 enabled.2 eq_refl (surjective_pairing _))
    as (_ & Hp & l & Hl & Hok & _).
  split; [|rewrite Hl; apply elem_of_app; right; apply Hok; vm_compute; reflexivity].
  apply list_elem_of_lookup_2 with 3%nat. vm_compute. reflexivity.
Defined.

(** The table: SSH from the office and, with a profile, from one address of the second
    family; the panel for everybody; DNS with a comment. *)
Definition row_of (v6 : bool) (port protocol from : string) (profile : list string) (comment : string) : row :=
  mk_row v6 Allow port protocol from profile comment (v6 && String.eqb from EmptyString) (v6 && String.eqb from EmptyString).
Definition rows : list row :=
  [row_of false "22" "tcp" "10.0.0.0/8" [] EmptyString; row_of false "80:443" "tcp" EmptyString ["Nginx"; "Full"]%string EmptyString;
   row_of false "443" "tcp" EmptyString [] EmptyString; row_of false "53" "udp" EmptyString [] "resolver (v6 too)";
   row_of true "22" "tcp" "2001:db8::7" ["OpenSSH"%string] EmptyString; row_of true "443" "tcp" EmptyString [] EmptyString;
   row_of true "53" "udp" EmptyString [] "resolver (v6 too)"].
Definition header : list string :=
  ["Logging: on (low)"; "Default: deny (incoming), allow (outgoing), disabled (routed)"; "New profiles: skip"; "";
   "To                         Action      From"; "--                         ------      ----"]%string.
Definition answers (header : list string) (t : list row) (c : Command) (w : unit) : (string * option string) * unit :=
  ((execRunner_output (report header t), None), w).
Definition peer : string := "203.0.113.9".
Definition panel_port : accessPort := mk_access_port 443 "the panel over HTTPS" true.
Definition https : Rule := mk_rule "443" "tcp" ActionAllow EmptyString EmptyString false.
Definition dns : Rule := mk_rule "53" "udp" ActionAllow EmptyString EmptyString false.
Definition status_of (t : list row) : Status :=
  match (Discover (answers header t) start).1 with Ok st => st | Err _ => mk_status false false [] end.
Definition table : Status := status_of rows.
Definition same (r : Rule) : Rule := r.
Definition without_dns : list row := List.filter (fun u => negb (deletes true dns u)) rows.

Example firewall_report_line :
  print_row (row_of false "53" "udp" EmptyString [] "resolver") = "53/udp                     ALLOW IN    Anywhere                   # resolver"%string /\
  print_row (row_of true "22" "tcp" EmptyString ["OpenSSH"%string] EmptyString) = "22/tcp (OpenSSH (v6))      ALLOW IN    Anywhere (v6)"%string.
Proof. done. Qed.

Lemma firewall_unflagged_change_keeps_access_witness :
  assessLockout parse_ip parse_cidr table (mk_change ActionDelete dns) peer = [] /\ length without_dns = 5%nat /\
  admitted parse_ip parse_cidr without_dns false 443 peer = true.
Proof.
  assert (Hn : assessLockout parse_ip parse_cidr table (mk_change ActionDelete dns) peer = []) by (vm_compute; reflexivity).
  split; [exact Hn|]. split; [vm_compute; reflexivity|].
  destruct (firewall_unflagged_change_keeps_access parse_ip parse_cidr (answers header rows) start header rows same true table
              (mk_change ActionDelete dns) peer peer without_dns (fun _ => eq_refl) ltac:(vm_compute; discriminate) ltac:(vm_compute; reflexivity)
              ltac:(vm_compute; reflexivity) ltac:(vm_compute; reflexivity) ltac:(vm_compute; reflexivity) ltac:(vm_compute; reflexivity)
              eq_refl ltac:(vm_compute; reflexivity) ltac:(discriminate) Hn (effect_delete same true dns rows) panel_port) as [H _].
  - right. right. left.
  - apply H; vm_compute; reflexivity.
Defined.

(** The only rule for SSH, with a comment. *)
Definition commented : list row := [row_of false "22" "tcp" EmptyString [] "office"; row_of false "443" "tcp" EmptyString [] EmptyString].
Definition ssh : Rule := mk_rule "22" "tcp" ActionAllow EmptyString EmptyString false.

(** The comment of a rule becomes part of its source: the delete of the listed rule is
    refused, and the delete of the rule itself is taken to leave another one. *)
Example firewall_comment_hides_rule :
  parseRuleLine (print_row (row_of false "22" "tcp" EmptyString [] "office")) = Some (mk_rule "22" "tcp" ActionAllow "Anywhere # office" EmptyString false) /\
  is_ok (validate is_ip is_cidr (mk_change ActionDelete (mk_rule "22" "tcp" ActionAllow "Anywhere # office" EmptyString false))) = false /\
  assessLockout parse_ip parse_cidr (status_of commented) (mk_change ActionDelete ssh) peer = [] /\
  existsb (opens 22) (List.filter (fun u => negb (deletes true ssh u)) commented) = false.
Proof. split_and!; vm_compute; reflexivity. Qed.

(** A source written otherwise than UFW keeps it: the panel takes the deleted rule for
    another one. *)
Definition office_rows : list row := [row_of false "22" "tcp" "10.0.0.0/8" [] EmptyString; row_of false "443" "tcp" EmptyString [] EmptyString].
Definition ssh_office (from : string) : Rule := mk_rule "22" "tcp" ActionAllow from EmptyString false.
Definition masked (r : Rule) : Rule := if String.eqb (From r) "10.1.2.3/8" then ssh_office "10.0.0.0/8" else r.
Example firewall_unmasked_source :
  validate is_ip is_cidr (mk_change ActionDelete (ssh_office "10.1.2.3/8")) = Ok tt /\
  assessLockout parse_ip parse_cidr (status_of office_rows) (mk_change ActionDelete (ssh_office "10.1.2.3/8")) peer = [] /\
  existsb (opens 22) (List.filter (fun u => negb (deletes true (masked (ssh_office "10.1.2.3/8")) u)) office_rows) = false.
Proof. split_and!; vm_compute; reflexivity. Qed.

(** A deny of the body of the only rule for SSH takes its place: nothing admits SSH any
    more, and the judgement, which asks only about the caller's address, is silent. *)
Definition denied (u : row) : row := mk_row (u_v6 u) Deny (u_port u) (u_protocol u) (u_from u) (u_profile u) (u_comment u) (to_marked u) (from_marked u).
Lemma deny_replaces rule t : families true rule = [false] -> existsb (of_family false rule) t = true ->
  ufw_effect same true (mk_change ActionDeny rule) t ((fun u => if of_family false rule u then denied u else u) <$> t).
Proof.
  intros Hf Hex. apply effect_put; [by right|]. change (same rule) with rule. rewrite Hf. eapply puts_cons; [|apply puts_nil].
  apply put_update; [done|]. clear. induction t as [|u t IH]; constructor; [|exact IH]. unfold updated.
  destruct (of_family false rule u) eqn:Hu; [|done]. split; [|done]. by rewrite <-Hu.
Qed.
Example firewall_deny_replaces_last_ssh :
  let deny := mk_change ActionDeny (ssh_office "10.0.0.0/8") in
  assessLockout parse_ip parse_cidr (status_of office_rows) deny peer = [] /\
  exists after, ufw_effect same true deny office_rows after /\ existsb (opens 22) after = false.
Proof. cbn zeta. split; [vm_compute; reflexivity|]. eexists. split; [by apply deny_replaces; vm_compute|]. vm_compute. reflexivity. Qed.

(** The revert of a deny that took the place of an allow leaves neither. *)
Example firewall_revert_loses_allow :
  let deny := mk_change ActionDeny (ssh_office "10.0.0.0/8") in
  exists back mid after, revertFor deny = Ok back /\ ufw_effect same true deny office_rows mid /\ ufw_effect same true back mid after /\
    existsb (opens 22) office_rows = true /\ existsb (opens 22) after = false.
Proof.
  cbn zeta. eexists _, _, _. split_and!; [reflexivity|by apply deny_replaces; vm_compute|apply effect_delete| |]; vm_compute; reflexivity.
Qed.

Lemma firewall_revert_commands_witness : validate is_ip is_cidr (mk_change ActionAllow dns) = Ok tt.
Proof.
  apply (firewall_revert_commands runner is_ip is_cidr (mk_change ActionDelete dns) (mk_change ActionAllow dns)); vm_compute; reflexivity.
Defined.
End Node.

Module Submission.
Import Node.
Definition rule_json (r : Rule) : json :=
  JObj [("port", JStr (Port r)); ("protocol", JStr (Protocol r)); ("action", JStr (r_Action r)); ("from", JStr (From r))]%string.
Definition encode (c : Change) : json := JObj [("action", JStr (ch_Action c)); ("rule", rule_json (ch_Rule c))]%string.
Definition no_sites (s : string) : list string := [].
Definition handlers : Jobs.registry :=
  {[ "firewall.apply"%string := Jobs.mk_registration (fun _ => Jobs.Done (Jobs.Returned "{}")) Jobs.RecoveryFail ]}.
#[export] Instance log : AuditLog.Recorder AuditLog.db := AuditChain.audit_recorder (fun s => s) (fun _ => EmptyString).
Definition before : stores AuditLog.db :=
  mk_stores (AuditLog.mk_db [] (Some (Some 0)) 0) JobQueue.empty_db (Some (Safeguard.fresh_guard [])).
Definition around (arm_fault : bool) : circumstances :=
  mk_circumstances true false Jobs.TxRuns false arm_fault "revert_1" (10 * second).
Definition delete_https : Change := mk_change ActionDelete https.
Definition submit (arm_fault : bool) (status : result string Status) (ack : bool) :=
  Submit parse_ip parse_cidr encode no_sites handlers (2 * minute) (around arm_fault) status delete_https (Some "u1"%string) peer ack before.
Definition accepted := submit false (Ok table) true.
Definition the_revert : option Safeguard.revertModel := match accepted.1 with Ok sub => s_Revert sub | Err _ => None end.

Lemma firewall_submission_guarded_witness : exists armed g,
  the_revert = Some armed /\ guard_of accepted.2 = Some g /\ armed ∈ Safeguard.reverts g /\
  Safeguard.PayloadJSON armed = marshal (encode (mk_change ActionAllow https)).
Proof.
  pose proof (firewall_submission_guarded parse_ip parse_cidr encode no_sites handlers (2 * minute) (around false) (Ok table) delete_https
    (Some "u1"%string) peer true before accepted.2 accepted.1 JobQueue.empty_db_ok (surjective_pairing _)) as H.
  unfold the_revert. cbn zeta in H. destruct accepted.1 as [sub|e] eqn:Hr; [|exfalso; revert Hr; vm_compute; discriminate].
  assert (Hs : is_Some (s_Revert sub)) by (assert (Hsub : accepted.1 = Ok sub) by exact Hr; revert Hsub; vm_compute; intros [= <-]; by eexists).
  destruct (s_Revert sub) as [armed|]; [|by destruct Hs]. destruct H as (_ & _ & _ & _ & g & back & Hg & Hb & Hin & _ & Hp & _).
  exists armed, g. split_and!; [done|done|done|]. rewrite Hp. do 2 f_equal. revert Hb. vm_compute. by intros [= <-].
Defined.

(** The guard refuses: the change is queued, and nothing will undo it. *)
Example firewall_arm_failure_unguarded :
  let '(r, s) := submit true (Ok table) true in
  is_ok r = false /\ length (Jobs.jobs (jobs_db s)) = 1%nat /\ (length ∘ Safeguard.reverts) <$> guard_of s = Some 0%nat.
Proof. vm_compute. done. Qed.

(** The node does not answer: the same change is queued without an acknowledgement. *)
Example firewall_unreachable_unguarded :
  let '(r, s) := submit false (Err "the agent is not reachable"%string) false in
  is_ok r = true /\ length (Jobs.jobs (jobs_db s)) = 1%nat /\ (length ∘ Safeguard.reverts) <$> guard_of s = Some 0%nat.
Proof. vm_compute. done. Qed.

(** With an answer it is refused with its reasons. *)
Example firewall_risk_refused :
  submit false (Ok table) false =
    (Err (errRisk ["It is the rule admitting the session you are using right now (203.0.113.9 reaching 443/tcp)."%string]), before).
Proof. vm_compute. done. Qed.
End Submission.
