(* ===== verification/Services.v ===== *)
(** * System services

    The services operator of the node ([internal/platform/operators/services]), the
    agent's routes in front of it with the signatures of plans
    ([internal/platform/agent/services_handlers.go], signatures.go), and the control
    panel's module ([internal/modules/services]): discovery, plans, their application, the
    lockout judgement and the submission of an action with its armed revert. *)

From Stdlib Require Import Ascii.
From S2P Require Import Prelude GoStrings Json Codec Regex.
From S2P Require AuditLog Jobs Safeguard Firewall.

Local Open Scope Z_scope.

(** ** Data *)
Definition PlanKind : string := "nexa.services.v1".
Definition ActionStart : string := "service.start".
Definition ActionStop : string := "service.stop".
Definition ActionRestart : string := "service.restart".
Definition ActionEnable : string := "service.enable".
Definition ActionDisable : string := "service.disable".

Record Service := mk_service { s_Name : string; SystemdUnit : string; s_Status : string; s_Active : bool; s_Enabled : bool }.
Record Change := mk_change { ch_Action : string; Unit : string }.
Record Plan := mk_plan {
  ID : string;
  Kind : string;
  p_Change : Change;
  Steps : option (list string);        (* [None]: the nil slice *)
  Warnings : option (list string);
  ObservedFingerprint : string;
  PlannedAt : Z;
  ExpiresAt : Z;
  Signature : string;
}.
Record Observation := mk_observation { o_Action : string; o_Service : Service; Verified : bool }.

(** [json.Marshal] of structures: the fields in the order of their declaration. *)
Definition struct_json (fields : list (string * string)) : string :=
  "{" +:+ join "," ((fun f => marshal_string f.1 +:+ ":" +:+ f.2) <$> fields) +:+ "}".
Definition service_json (s : Service) : string :=
  struct_json [("name", marshal (JStr (s_Name s))); ("systemdUnit", marshal (JStr (SystemdUnit s))); ("status", marshal (JStr (s_Status s)));
    ("active", marshal (JBool (s_Active s))); ("enabled", marshal (JBool (s_Enabled s)))]%string.
Definition change_json (c : Change) : json := JObj [("action", JStr (ch_Action c)); ("unit", JStr (Unit c))]%string.

(** ** Which units are managed *)
Definition unit_named (name : string) : regex := literal (name +:+ ".service").
Definition managedUnitPatterns : list regex :=
  (unit_named <$> ["nginx"; "apache2"; "cron"; "mysql"; "mariadb"; "dovecot"; "exim4"; "proftpd"]%string) ++
  [Cat (literal "php") (Cat (plus (Class is_digit)) (Cat (lit ".") (Cat (plus (Class is_digit)) (literal "-fpm.service"))));
   Cat (literal "postgresql@") (Cat (plus (Class (fun c => negb (byte_eq 10 c)))) (literal ".service"))].
Definition protectedUnits : list string := ["nexa-agent.service"; "nexa-api.service"]%string.
Definition managed (unit : string) : bool :=
  if bool_decide (unit ∈ protectedUnits) then false else existsb (fun pattern => matches pattern unit) managedUnitPatterns.

Definition displayName (unit : string) : string := trim_suffix ".service" unit.

Definition supported_actions : list string := [ActionStart; ActionStop; ActionRestart; ActionEnable; ActionDisable].
Definition systemctlVerb (action : string) : string :=
  if String.eqb action ActionStart then "start"
  else if String.eqb action ActionStop then "stop"
  else if String.eqb action ActionRestart then "restart"
  else if String.eqb action ActionEnable then "enable"
  else if String.eqb action ActionDisable then "disable"
  else EmptyString.

Definition expectState (action : string) (service : Service) : option string :=
  let unit := SystemdUnit service in
  if String.eqb action ActionStart || String.eqb action ActionRestart then
    if negb (s_Active service) then Some (unit +:+ " did not become active (now " +:+ s_Status service +:+ ")") else None
  else if String.eqb action ActionStop then
    if s_Active service then Some (unit +:+ " did not stop (now " +:+ s_Status service +:+ ")") else None
  else if String.eqb action ActionEnable then if negb (s_Enabled service) then Some (unit +:+ " was not enabled on boot") else None
  else if String.eqb action ActionDisable then if s_Enabled service then Some (unit +:+ " was not disabled on boot") else None
  else None.

Definition narrative (action : string) (service : Service) : option (list string) * option (list string) :=
  let unit := SystemdUnit service in
  let name := s_Name service in
  if String.eqb action ActionStart then (Some ["Start " +:+ unit +:+ "."; "Verify the unit reports active."%string], None)
  else if String.eqb action ActionStop then
    (Some ["Stop " +:+ unit +:+ "."; "Verify the unit reports inactive."%string], Some ["Stopping " +:+ name +:+ " takes it offline until it is started again."])
  else if String.eqb action ActionRestart then
    (Some ["Restart " +:+ unit +:+ "."; "Verify the unit reports active."%string], Some ["Restarting " +:+ name +:+ " briefly interrupts it while it comes back up."])
  else if String.eqb action ActionEnable then (Some ["Enable " +:+ unit +:+ " to start on boot."; "Verify the unit reports enabled."%string], None)
  else if String.eqb action ActionDisable then
    (Some ["Disable " +:+ unit +:+ " from starting on boot."; "Verify the unit reports disabled."%string],
     Some ["Disabling " +:+ name +:+ " means it will not come back after a reboot."])
  else (None, None).

Definition commandError (action output err : string) : string :=
  let message := trim_space output in
  let message := if 2000 <? len message then drop_bytes (Z.to_nat (len message - 2000)) message else message in
  if String.eqb message EmptyString then action +:+ ": " +:+ err else action +:+ ": " +:+ err +:+ ": " +:+ message.

(** ** The operator

    The node of [Firewall]: a function that answers commands, and the log of what ran. *)
Definition planExpiry : Z := 10 * minute.

Section host.
Notation Command := Firewall.Command.
Notation mk_command := Firewall.mk_command.
Context {W : Type} (runner : Command -> W -> (string * option string) * W).
Context (sha256hex : string -> string).
Notation node := (@Firewall.node W).
Notation exec := (Firewall.exec runner).

Definition systemctl (args : list string) : Command := mk_command "systemctl" args.
Definition list_units : Command := systemctl ["list-unit-files"; "--type=service"; "--no-legend"; "--plain"; "--no-pager"]%string.

Definition observe (unit : string) (n : node) : Service * node :=
  let '(active, _, n) := exec (systemctl ["is-active"%string; unit]) n in
  let status := trim_space active in
  let status := if String.eqb status EmptyString then "unknown"%string else status in
  let '(enabled, _, n) := exec (systemctl ["is-enabled"%string; unit]) n in
  let enabled := trim_space enabled in
  (mk_service (displayName unit) unit status (String.eqb status "active")
     (String.eqb enabled "enabled" || String.eqb enabled "enabled-runtime" || String.eqb enabled "alias"), n).

Fixpoint observe_all (units : list string) (n : node) : list Service * node :=
  match units with
  | [] => ([], n)
  | unit :: rest => let '(s, n) := observe unit n in let '(l, n) := observe_all rest n in (s :: l, n)
  end.

(** The managed units a listing names, each once, in order. *)
Definition unit_of_line (line : string) : option string :=
  match fields (trim_space line) with unit :: _ => if managed unit then Some unit else None | [] => None end.
Fixpoint first_seen (seen : gset string) (units : list string) : list string :=
  match units with
  | [] => []
  | unit :: rest => if bool_decide (unit ∈ seen) then first_seen seen rest else unit :: first_seen ({[unit]} ∪ seen) rest
  end.
Definition listed_units (output : string) : list string :=
  sort_strings (first_seen ∅ (omap unit_of_line (split newline output))).

Definition Discover (n : node) : result string (list Service) * node :=
  let '(output, err, n) := exec list_units n in
  match err with
  | Some e => (Err (commandError "list systemd service units" output e), n)
  | None => let '(services, n) := observe_all (listed_units output) n in (Ok services, n)
  end.

Definition find (unit : string) (n : node) : result string (option Service) * node :=
  let unit := trim_space unit in
  if negb (managed unit) then (Ok None, n)
  else match Discover n with
       | (Err e, n) => (Err e, n)
       | (Ok services, n) => (Ok (List.find (fun service => String.eqb (SystemdUnit service) unit) services), n)
       end.

Definition unsupported (action : string) : string := "service action " +:+ go_quote action +:+ " is not supported".
Definition unmanaged (unit : string) : string := go_quote unit +:+ " is not a service nexa manages on this node".
Definition normalizeChange (change : Change) (n : node) : result string Service * node :=
  if negb (bool_decide (ch_Action change ∈ supported_actions)) then (Err (unsupported (ch_Action change)), n)
  else match find (Unit change) n with
       | (Err e, n) => (Err e, n)
       | (Ok None, n) => (Err (unmanaged (Unit change)), n)
       | (Ok (Some service), n) => (Ok service, n)
       end.

Definition fingerprint (service : Service) : string := sha256hex (service_json service).

(** [id]: the random identifier. *)
Definition MakePlan (id : string) (now : Z) (change : Change) (n : node) : result string Plan * node :=
  match normalizeChange change n with
  | (Err e, n) => (Err e, n)
  | (Ok service, n) =>
      let '(steps, warnings) := narrative (ch_Action change) service in
      (Ok (mk_plan id PlanKind (mk_change (ch_Action change) (SystemdUnit service)) steps warnings (fingerprint service)
             now (now + planExpiry) EmptyString), n)
  end.

Definition verify (action unit : string) (n : node) : result string Observation * node :=
  match find unit n with
  | (Err e, n) => (Err e, n)
  | (Ok None, n) => (Err (unit +:+ " is no longer a managed service on this node"), n)
  | (Ok (Some service), n) =>
      match expectState action service with
      | Some e => (Err e, n)
      | None => (Ok (mk_observation action service true), n)
      end
  end.

Definition Apply (now : Z) (plan : Plan) (n : node) : result string Observation * node :=
  if String.eqb (ID plan) EmptyString || negb (String.eqb (Kind plan) PlanKind) || (ExpiresAt plan <? now)
  then (Err "service plan is invalid or expired"%string, n)
  else match normalizeChange (p_Change plan) n with
  | (Err e, n) => (Err e, n)
  | (Ok service, n) =>
      if negb (String.eqb (fingerprint service) (ObservedFingerprint plan))
      then (Err "service state changed after planning; refresh and try again"%string, n)
      else
        let verb := systemctlVerb (ch_Action (p_Change plan)) in
        if String.eqb verb EmptyString then (Err "service action is unsupported"%string, n)
        else match exec (systemctl [verb; SystemdUnit service]) n with
             | (output, Some e, n) => (Err (commandError (verb +:+ " " +:+ SystemdUnit service) output e), n)
             | (_, None, n) => verify (ch_Action (p_Change plan)) (SystemdUnit service) n
             end
  end.
End host.

(** ** The agent's routes

    [hmac]: HMAC-SHA256 of a message under a key; [time_json]: a time as JSON. *)
Section agent.
Context (hmac : string -> string -> string) (time_json : Z -> string) (token : string).

Definition marshal_list (l : option (list string)) : string :=
  match l with None => "null" | Some l => marshal_strings l end.
Definition plan_json (p : Plan) : string :=
  struct_json ([("id", marshal (JStr (ID p))); ("kind", marshal (JStr (Kind p)));
    ("change", struct_json [("action", marshal (JStr (ch_Action (p_Change p)))); ("unit", marshal (JStr (Unit (p_Change p))))]);
    ("steps", marshal_list (Steps p)); ("warnings", marshal_list (Warnings p));
    ("observedFingerprint", marshal (JStr (ObservedFingerprint p)));
    ("plannedAt", time_json (PlannedAt p)); ("expiresAt", time_json (ExpiresAt p))]%string ++
    (if String.eqb (Signature p) EmptyString then [] else [("signature"%string, marshal (JStr (Signature p)))])).

Definition nul : string := String (ascii_of_N 0) EmptyString.
(** [None]: the payload does not encode. *)
Definition signPayload (domain : string) (payload : option string) : string :=
  match payload with
  | None => EmptyString
  | Some encoded => hex_encode (hmac token (domain +:+ nul +:+ encoded))
  end.
Definition verifyPayload (domain : string) (payload : option string) (provided : string) : bool :=
  if negb (len provided =? 64) then false
  else let expected := signPayload domain payload in
       negb (String.eqb expected EmptyString) && String.eqb provided expected.

Definition with_signature (sig : string) (p : Plan) : Plan :=
  mk_plan (ID p) (Kind p) (p_Change p) (Steps p) (Warnings p) (ObservedFingerprint p) (PlannedAt p) (ExpiresAt p) sig.
Definition services_domain : string := "services.plan.v1".
Definition signServicesPlan (p : Plan) : string := signPayload services_domain (Some (plan_json (with_signature EmptyString p))).
Definition verifyServicesPlan (p : Plan) : bool :=
  verifyPayload services_domain (Some (plan_json (with_signature EmptyString p))) (Signature p).

(** A response: its status, and an error code with its message or a value. *)
Definition response (A : Type) : Type := Z * result (string * string) A.

Context {W : Type} (runner : Firewall.Command -> W -> (string * option string) * W) (sha256hex : string -> string).
Notation node := (@Firewall.node W).

Definition servicesDiscoverHTTP (n : node) : response (list Service) * node :=
  match Discover runner n with
  | (Err e, n) => ((503, Err ("services_discover_failed"%string, e)), n)
  | (Ok services, n) => ((200, Ok services), n)
  end.
(** [change], [plan]: the decoded body, or what is wrong with it. *)
Definition servicesPlanHTTP (id : string) (now : Z) (change : result string Change) (n : node) : response Plan * node :=
  match change with
  | Err e => ((400, Err ("invalid_request"%string, e)), n)
  | Ok change =>
      match MakePlan runner sha256hex id now change n with
      | (Err e, n) => ((422, Err ("services_plan_failed"%string, e)), n)
      | (Ok plan, n) => ((200, Ok (with_signature (signServicesPlan plan) plan)), n)
      end
  end.
Definition not_issued : string := "The service plan was not issued by this agent.".
Definition servicesApplyHTTP (now : Z) (plan : result string Plan) (n : node) : response Observation * node :=
  match plan with
  | Err e => ((400, Err ("invalid_request"%string, e)), n)
  | Ok plan =>
      if negb (verifyServicesPlan plan) then ((422, Err ("invalid_services_plan_signature"%string, not_issued)), n)
      else match Apply runner sha256hex now plan n with
           | (Err e, n) => ((409, Err ("services_operation_failed"%string, e)), n)
           | (Ok observation, n) => ((200, Ok observation), n)
           end
  end.
End agent.

(** ** The control panel's module *)
Definition lockoutDomain : string := "services".
Definition revertibleCriticalUnits : list (string * string) :=
  [("nginx.service", "the panel's HTTP/HTTPS ingress"); ("ssh.service", "SSH logins to this server");
   ("sshd.service", "SSH logins to this server")]%string.
Definition irreversibleCriticalUnits : list (string * string) :=
  [("nexa-api.service", "the panel API, which runs the automatic rollback timer");
   ("nexa-agent.service", "the privileged agent, the only path back to systemd")]%string.
Definition what_of (units : list (string * string)) (unit : string) : option string :=
  snd <$> List.find (fun entry => String.eqb entry.1 unit) units.

Definition normaliseUnit (unit : string) : string :=
  let unit := trim_space (to_lower unit) in
  if negb (String.eqb unit EmptyString) && negb (any_byte (Ascii.eqb ".") unit) then unit +:+ ".service" else unit.

Definition assessLockout (unit action : string) : list string * bool :=
  if negb (String.eqb action "stop") then ([], false)
  else
    let unit := normaliseUnit unit in
    match what_of irreversibleCriticalUnits unit with
    | Some what => (["Stopping " +:+ unit +:+ " stops " +:+ what +:+ ", so the panel could not start it again."], true)
    | None =>
        match what_of revertibleCriticalUnits unit with
        | Some what => (["Stopping " +:+ unit +:+ " stops " +:+ what +:+ "."], false)
        | None => ([], false)
        end
    end.

Definition actionsByName (action : string) : option string :=
  if String.eqb action "start" then Some ActionStart
  else if String.eqb action "stop" then Some ActionStop
  else if String.eqb action "restart" then Some ActionRestart
  else if String.eqb action "enable" then Some ActionEnable
  else if String.eqb action "disable" then Some ActionDisable
  else None.
Definition actionTitle (action : string) : string :=
  if String.eqb action "start" then "Start"
  else if String.eqb action "stop" then "Stop"
  else if String.eqb action "restart" then "Restart"
  else if String.eqb action "enable" then "Enable"
  else if String.eqb action "disable" then "Disable"
  else "Update".

Inductive submit_error :=
| errInvalid (message : string)
| errRisk (reasons : list string)
| errQueue (e : Jobs.error)
| errArm (e : Safeguard.error).
Record Submission := mk_submission { sub_Job : Jobs.Job; sub_Revert : option Safeguard.revertModel; sub_Window : Z }.

Definition checkLockout (guarded : bool) (reasons : list string) (irreversible acknowledged : bool) : option submit_error :=
  match reasons with
  | [] => None
  | _ =>
      if irreversible then Some (errInvalid (join " " reasons +:+ " Stop it from a root console instead, where you can start it again."))
      else if negb acknowledged then Some (errRisk reasons)
      else if negb guarded then Some (errInvalid "this stop can lock you out and automatic rollback is unavailable on this node, so it was refused")
      else None
  end.

(** The stores a submission writes to; [fate], [arm_fault]: the faults of the queue's
    transaction and of the guard's insertion. *)
Record stores := mk_stores { jobs_db : Jobs.db; guard_of : option Safeguard.guard }.

Section submitting.
Context (unmarshal_strings : string -> list string) (handlers : Jobs.registry) (window : Z).

(** The entries the queue records are returned. *)
Definition queue (fate : Jobs.tx_fate) (now : Z) (title : string) (change : Change) (actor : option string) (s : stores)
    : result submit_error Jobs.Job * list AuditLog.Entry * stores :=
  let '(r, d, l) := Jobs.SubmitTitledWithOptions unmarshal_strings handlers fate now "services.apply" title
                      (Some (change_json change)) (Jobs.mk_submit actor [] EmptyString) (jobs_db s) in
  (match r with Ok job => Ok job | Err e => Err (errQueue e) end, l, mk_stores d (guard_of s)).

Definition revert_summary : string :=
  "The service is started again automatically unless you confirm the panel and your server session still work.".
Definition arm_request (unit : string) (reasons : list string) (job : Jobs.Job) (actor : option string) : Safeguard.ArmRequest :=
  Safeguard.mk_arm lockoutDomain unit revert_summary (Some reasons) (Some (change_json (mk_change ActionStart unit))) (Jobs.J_ID job) actor.

Definition Toggle (fate : Jobs.tx_fate) (arm_fault : bool) (fresh_id : string) (now : Z) (unit action : string) (actor : option string)
    (acknowledged : bool) (s : stores) : result submit_error Submission * list AuditLog.Entry * stores :=
  let unit := trim_space unit in
  let action := trim_space (to_lower action) in
  if String.eqb unit EmptyString then (Err (errInvalid "a service unit is required"), [], s)
  else match actionsByName action with
  | None => (Err (errInvalid "service action must be start, stop, restart, enable, or disable"), [], s)
  | Some operatorAction =>
      let '(reasons, irreversible) := assessLockout unit action in
      match checkLockout (bool_decide (is_Some (guard_of s))) reasons irreversible acknowledged with
      | Some e => (Err e, [], s)
      | None =>
          let title := actionTitle action +:+ " " +:+ trim_suffix ".service" unit in
          match queue fate now title (mk_change operatorAction unit) actor s with
          | (Err e, l, s) => (Err e, l, s)
          | (Ok job, l, s) =>
              match reasons, guard_of s with
              | _ :: _, Some g =>
                  match Safeguard.Arm window arm_fault fresh_id now (arm_request unit reasons job actor) g with
                  | (Ok armed, g) => (Ok (mk_submission job (Some armed) window), l, mk_stores (jobs_db s) (Some g))
                  | (Err e, g) => (Err (errArm e), l, mk_stores (jobs_db s) (Some g))
                  end
              | _, _ => (Ok (mk_submission job None 0), l, s)
              end
          end
      end
  end.

Definition unreadable : string := "the stored revert instruction could not be read".
Definition executeRevert (decode : string -> option Change) (fate : Jobs.tx_fate) (now : Z) (revert : Safeguard.revertModel) (s : stores)
    : result submit_error Z * list AuditLog.Entry * stores :=
  match decode (Safeguard.PayloadJSON revert) with
  | None => (Err (errInvalid unreadable), [], s)
  | Some change =>
      if String.eqb (ch_Action change) EmptyString || String.eqb (Unit change) EmptyString then (Err (errInvalid unreadable), [], s)
      else match queue fate now ("Automatic rollback: start " +:+ trim_suffix ".service" (Unit change)) change (Safeguard.ActorUserID revert) s with
           | (Err e, l, s) => (Err e, l, s)
           | (Ok job, l, s) => (Ok (Jobs.J_ID job), l, s)
           end
  end.
End submitting.

(** [plan], [apply]: the agent's answers, the observation encoded. *)
Definition bad_request : string := "invalid service change request".
Definition applyJob (decode : string -> option Change) (plan : Change -> result string Plan) (apply : Plan -> result string string)
    : Jobs.Handler := fun raw =>
  match decode raw with
  | None => Jobs.Done (Jobs.Failed bad_request)
  | Some change =>
      if String.eqb (ch_Action change) EmptyString || String.eqb (Unit change) EmptyString then Jobs.Done (Jobs.Failed bad_request)
      else Jobs.Report 20 "Planning the service change." (fun _ =>
        match plan change with
        | Err e => Jobs.Done (Jobs.Failed e)
        | Ok plan => Jobs.Report 60 "Applying the signed service plan." (fun _ =>
            match apply plan with
            | Err e => Jobs.Done (Jobs.Failed e)
            | Ok observation => Jobs.Report 95 "Service change is verified." (fun _ => Jobs.Done (Jobs.Returned observation))
            end)
        end)
  end.

Definition Reverts (s : stores) : list Safeguard.revertModel :=
  match guard_of s with Some g => Safeguard.Recent lockoutDomain 20 g | None => [] end.
Definition ConfirmRevert (between after : Safeguard.guard -> Safeguard.guard) (fault : bool) (now : Z) (id : string)
    (s : stores) : result Safeguard.error Safeguard.revertModel * stores :=
  match guard_of s with
  | None => (Err Safeguard.ErrNotFound, s)
  | Some g => let '(r, g) := Safeguard.Confirm between after fault now lockoutDomain id g in (r, mk_stores (jobs_db s) (Some g))
  end.
