(* ===== verification/ServicesProps.v ===== *)
(** * What reaches systemctl

    The commands behind every route of the agent, the worth of a plan's signature, and the
    outcomes of an action submitted from the control panel. *)

From Stdlib Require Import Ascii.
From S2P Require Import Prelude GoStrings Json Codec Regex Services.
From S2P Require AuditLog Jobs JobQueue JobProps Safeguard Firewall FirewallProps FirewallSubmit.

Local Open Scope Z_scope.

(** ** Commands *)
Section commands.
Context {W : Type} (runner : Firewall.Command -> W -> (string * option string) * W) (sha256hex : string -> string).
Notation node := (@Firewall.node W).
Notation adds := (@FirewallProps.adds W).
Notation exec := (Firewall.exec runner).

(** A question: the listing of units, or the state of a managed one. *)
Definition question (c : Firewall.Command) : Prop :=
  c = list_units \/ exists unit, managed unit = true /\ (c = systemctl ["is-active"%string; unit] \/ c = systemctl ["is-enabled"%string; unit]).
Definition asks (l : list (Firewall.Command * bool)) : Prop := Forall (fun x => question x.1) l.

Lemma asks_app l l' : asks l -> asks l' -> asks (l ++ l').
Proof. apply Forall_app_2. Qed.

Lemma observe_adds unit n s n' : managed unit = true -> observe runner unit n = (s, n') ->
  SystemdUnit s = unit /\ exists l, adds n n' l /\ asks l.
Proof.
  intros Hm. unfold observe. destruct (exec _ n) as [[o1 e1] n1] eqn:H1. apply FirewallProps.exec_adds in H1.
  destruct (exec _ n1) as [[o2 e2] n2] eqn:H2. apply FirewallProps.exec_adds in H2. intros [= <- <-]. split; [done|].
  eexists. split; [by eapply FirewallProps.adds_trans|]. apply Forall_cons_2; [|apply Forall_cons_2; [|constructor]]; right; exists unit; auto.
Qed.

Lemma observe_all_adds units n l n' : (forall u, u ∈ units -> managed u = true) -> observe_all runner units n = (l, n') ->
  SystemdUnit <$> l = units /\ exists c, adds n n' c /\ asks c.
Proof.
  revert n l. induction units as [|u units IH]; intros n l Hm; cbn [observe_all].
  - intros [= <- <-]. split; [done|]. exists []. split; [unfold FirewallProps.adds; by rewrite app_nil_r|constructor].
  - destruct (observe runner u n) as [s n1] eqn:Ho. destruct (observe_all runner units n1) as [rest n2] eqn:Hr. intros [= <- <-].
    apply observe_adds in Ho as (<- & c1 & H1 & Hc1); [|apply Hm; by left].
    apply IH in Hr as (<- & c2 & H2 & Hc2); [|intros v Hv; apply Hm; by right].
    split; [done|]. eexists. split; [by eapply FirewallProps.adds_trans|by apply asks_app].
Qed.

Lemma first_seen_elem seen units u : u ∈ first_seen seen units -> u ∈ units.
Proof.
  revert seen. induction units as [|v units IH]; intros seen; simpl; [done|]. case_bool_decide; [intros ?%IH; by right|].
  intros [->|?%IH]%elem_of_cons; [by left|by right].
Qed.

Lemma listed_managed output u : u ∈ listed_units output -> managed u = true.
Proof.
  unfold listed_units. rewrite (sort_strings_perm _). intros Hu%first_seen_elem. apply list_elem_of_omap in Hu as (line & _ & Hl).
  unfold unit_of_line in Hl. destruct (fields _) as [|v ?]; [done|]. destruct (managed v) eqn:Hm; [|done]. by injection Hl as <-.
Qed.

Lemma services_Discover_adds n r n' : Discover runner n = (r, n') -> (exists l, adds n n' l /\ asks l) /\
  match r with Ok services => forall s, s ∈ services -> managed (SystemdUnit s) = true | Err _ => True end.
Proof.
  unfold Discover. destruct (exec list_units n) as [[output err] n1] eqn:He. apply FirewallProps.exec_adds in He.
  assert (Hq : asks [(list_units, Firewall.succeeded err)]) by (apply Forall_cons_2; [by left|constructor]).
  destruct err as [e|]; [intros [= <- <-]; split; [by eexists|done]|].
  destruct (observe_all runner _ n1) as [services n2] eqn:Ho. intros [= <- <-].
  apply observe_all_adds in Ho as (Hu & l & Hl & Hlq); [|apply listed_managed].
  split; [eexists; split; [by eapply FirewallProps.adds_trans|by apply asks_app]|].
  intros s Hs. apply (listed_managed output). rewrite <-Hu. by apply list_elem_of_fmap_2.
Qed.

Lemma find_adds unit n r n' : find runner unit n = (r, n') -> (exists l, adds n n' l /\ asks l) /\
  match r with Ok (Some s) => SystemdUnit s = trim_space unit /\ managed (SystemdUnit s) = true | _ => True end.
Proof.
  assert (Hnil : forall m : node, exists l, adds m m l /\ asks l).
  { intros m. exists []. split; [unfold FirewallProps.adds; by rewrite app_nil_r|constructor]. }
  unfold find. destruct (managed (trim_space unit)) eqn:Hm; cbn [negb]; [|by intros [= <- <-]].
  destruct (Discover runner n) as [[services|e] n1] eqn:Hd; apply services_Discover_adds in Hd as [Hl Hs]; intros [= <- <-]; [|done].
  split; [done|]. destruct (List.find _ services) as [s|] eqn:Hf; [|done]. apply find_some in Hf as [Hin Hu%String.eqb_eq].
  split; [done|]. apply Hs. by apply list_elem_of_In.
Qed.

Lemma normalizeChange_adds change n r n' : normalizeChange runner change n = (r, n') -> (exists l, adds n n' l /\ asks l) /\
  match r with
  | Ok s => SystemdUnit s = trim_space (Unit change) /\ managed (SystemdUnit s) = true /\ ch_Action change ∈ supported_actions
  | Err _ => True
  end.
Proof.
  unfold normalizeChange. case_bool_decide as Ha; cbn [negb].
  - destruct (find runner (Unit change) n) as [[[s|]|e] n1] eqn:Hf; apply find_adds in Hf as [Hl Hs]; intros [= <- <-]; split; try done.
    by destruct Hs.
  - intros [= <- <-]. split; [|done]. exists []. split; [unfold FirewallProps.adds; by rewrite app_nil_r|constructor].
Qed.

Lemma MakePlan_adds id now change n r n' : MakePlan runner sha256hex id now change n = (r, n') -> exists l, adds n n' l /\ asks l.
Proof.
  unfold MakePlan. destruct (normalizeChange runner change n) as [[s|e] n1] eqn:Hn; apply normalizeChange_adds in Hn as [Hl _];
    [destruct (narrative _ _)|]; by intros [= _ <-].
Qed.

Lemma verify_adds action unit n r n' : verify runner action unit n = (r, n') -> (exists l, adds n n' l /\ asks l) /\
  match r with
  | Ok ob => SystemdUnit (o_Service ob) = trim_space unit /\ expectState action (o_Service ob) = None /\ Verified ob = true
  | Err _ => True
  end.
Proof.
  unfold verify. destruct (find runner unit n) as [[[s|]|e] n1] eqn:Hf; apply find_adds in Hf as [Hl Hs];
    [destruct (expectState action s) eqn:He|..]; intros [= <- <-]; split; try done.
  by destruct Hs.
Qed.

(** What an application runs besides questions: one verb, on the unit of its plan. *)
Definition acts (now : Z) (plan : Plan) (ok : bool) (l : list (Firewall.Command * bool)) : Prop :=
  exists before service, let unit := SystemdUnit service in let action := ch_Action (p_Change plan) in
    exists after, l = before ++ (systemctl [systemctlVerb action; unit], ok) :: after /\ asks before /\ asks after /\
      action ∈ supported_actions /\ unit = trim_space (Unit (p_Change plan)) /\ managed unit = true /\
      fingerprint sha256hex service = ObservedFingerprint plan /\ Kind plan = PlanKind /\ now <= ExpiresAt plan.

Lemma verb_some action : action ∈ supported_actions -> String.eqb (systemctlVerb action) EmptyString = false.
Proof. intros H. unfold supported_actions in H. rewrite !elem_of_cons, elem_of_nil in H. by destruct H as [->|[->|[->|[->|[->|[]]]]]]. Qed.

Lemma Apply_adds now plan n r n' : Apply runner sha256hex now plan n = (r, n') ->
  exists l, adds n n' l /\ ((asks l /\ is_ok r = false) \/ exists ok, acts now plan ok l /\
    match r with
    | Ok ob => ok = true /\ o_Action ob = ch_Action (p_Change plan) /\ SystemdUnit (o_Service ob) = trim_space (trim_space (Unit (p_Change plan))) /\
        expectState (ch_Action (p_Change plan)) (o_Service ob) = None
    | Err _ => True
    end).
Proof.
  unfold Apply. destruct (_ || _ || _) eqn:Hbad.
  { intros [= <- <-]. exists []. split; [unfold FirewallProps.adds; by rewrite app_nil_r|]. left. by split; [constructor|]. }
  rewrite !orb_false_iff, negb_false_iff, String.eqb_eq, Z.ltb_ge in Hbad. destruct Hbad as [[_ Hkind] Hexp].
  destruct (normalizeChange runner (p_Change plan) n) as [[s|e] n1] eqn:Hn; apply normalizeChange_adds in Hn as [(l1 & H1 & Hq1) Hs].
  2: { intros [= <- <-]. exists l1. split; [done|by left]. }
  destruct Hs as (Hu & Hm & Ha). destruct (String.eqb_spec (fingerprint sha256hex s) (ObservedFingerprint plan)) as [Hf|]; cbn [negb].
  2: { intros [= <- <-]. exists l1. split; [done|by left]. }
  rewrite verb_some by done. destruct (exec _ n1) as [[output err] n2] eqn:He. apply FirewallProps.exec_adds in He.
  destruct err as [e|].
  - intros [= <- <-]. exists (l1 ++ [(systemctl [systemctlVerb (ch_Action (p_Change plan)); SystemdUnit s], false)]).
    split; [by eapply FirewallProps.adds_trans|]. right. exists false. split; [|done]. exists l1, s, []. split_and!; [done|done|by apply Forall_nil_2|done..].
  - destruct (verify runner _ _ n2) as [rv n3] eqn:Hv. pose proof Hv as Hact. apply verify_adds in Hv as [(l3 & H3 & Hq3) Hv]. intros [= <- <-].
    exists (l1 ++ (systemctl [systemctlVerb (ch_Action (p_Change plan)); SystemdUnit s], true) :: l3).
    split; [eapply FirewallProps.adds_trans; [done|]; by apply (FirewallProps.adds_trans n1 n2 n3 [_] l3)|]. right. exists true.
    split; [exists l1, s, l3; by split_and!|]. destruct rv as [ob|]; [|done]. destruct Hv as (Hob & Hexpect & _). rewrite <-Hu. split_and!; try done.
    unfold verify in Hact. destruct (find runner _ n2) as [[[s'|]|] ?]; [|done..]. destruct (expectState _ s'); [done|]. by injection Hact as <- _.
Qed.
End commands.

Lemma managed_unprotected unit : managed unit = true -> unit ∉ protectedUnits.
Proof. unfold managed. by case_bool_decide. Qed.

(** C15. Only five verbs on managed units reach systemctl, behind a plan of this agent.
    Whatever systemctl answers and whatever a caller sends: the routes that list services
    and make plans only ask questions about managed units; the route that applies a plan
    asks questions, and runs at most one verb, one of start, stop, restart, enable and
    disable, on a managed unit that is the plan's, never one of the panel's own; it does so
    only for a plan whose signature verifies, of this kind, not past its expiry, and only
    when the unit it has just found has the fingerprint the plan recorded.  A 200 means
    that the verb succeeded and the state it intends was observed afterwards. *)
Theorem services_commands_confined {W} (runner : Firewall.Command -> W -> (string * option string) * W) hmac time_json token sha256hex
    (n : @Firewall.node W) :
  (exists l, Firewall.ran (servicesDiscoverHTTP runner n).2 = Firewall.ran n ++ l /\ asks l) /\
  (forall id now change, exists l,
     Firewall.ran (servicesPlanHTTP hmac time_json token runner sha256hex id now change n).2 = Firewall.ran n ++ l /\ asks l) /\
  forall now plan, let '(status, answer, n') := servicesApplyHTTP hmac time_json token runner sha256hex now plan n in
    exists l, Firewall.ran n' = Firewall.ran n ++ l /\
      ((asks l /\ status <> 200) \/ exists p ok, plan = Ok p /\ verifyServicesPlan hmac time_json token p = true /\ acts sha256hex now p ok l /\
        trim_space (Unit (p_Change p)) ∉ protectedUnits /\
        (status = 200 -> ok = true /\ exists ob, answer = Ok ob /\ expectState (ch_Action (p_Change p)) (o_Service ob) = None)).
Proof.
  split_and!.
  - unfold servicesDiscoverHTTP. destruct (Discover runner n) as [[services|e] n'] eqn:H; by apply services_Discover_adds in H as [Hl _].
  - intros id now [change|e]; unfold servicesPlanHTTP; [|exists []; by rewrite app_nil_r; split; [|constructor]].
    destruct (MakePlan runner sha256hex id now change n) as [[p|e] n'] eqn:H; by apply MakePlan_adds in H.
  - intros now [p|e]; unfold servicesApplyHTTP; [|exists []; rewrite app_nil_r; split; [done|by left; split; [constructor|]]].
    destruct (verifyServicesPlan hmac time_json token p) eqn:Hv; cbn [negb]; [|exists []; rewrite app_nil_r; split; [done|by left; split; [constructor|]]].
    destruct (Apply runner sha256hex now p n) as [[ob|e] n'] eqn:H; apply Apply_adds in H as (l & Hl & Hcase); exists l; (split; [done|]).
    + right. destruct Hcase as [[_ ?]|(ok & Hacts & Hok & _ & _ & He)]; [done|]. exists p, ok. split_and!; try done; [|by eauto].
      destruct Hacts as (b & s & af & _ & _ & _ & _ & <- & Hm & _). by apply managed_unprotected.
    + destruct Hcase as [[Hq _]|(ok & Hacts & _)]; [by left|]. right. exists p, ok. split_and!; try done.
      destruct Hacts as (b & s & af & _ & _ & _ & _ & <- & Hm & _). by apply managed_unprotected.
Qed.

(** ** Signatures *)
Lemma hex_decodes s : exists pad, decode_bits 4 hex_alphabet (hex_encode s) = Some (bits_of s ++ pad) /\ (length pad < 4)%nat.
Proof.
  destruct (decode_encode_bits 4 hex_alphabet (8 * String.length s) (bits_of s)) as (pad & Hpad & Hd);
    [lia|by apply alphabet_check; vm_compute|rewrite bits_of_length; lia|]. by exists pad.
Qed.

Lemma hex_encode_inj a b : hex_encode a = hex_encode b -> a = b.
Proof.
  intros H. assert (Hl : String.length a = String.length b).
  { apply (f_equal String.length) in H. rewrite !hex_encode_length in H. lia. }
  destruct (hex_decodes a) as (pa & Ha & Hpa), (hex_decodes b) as (pb & Hb & Hpb). rewrite H, Hb in Ha. injection Ha as Ha.
  apply app_inj_1 in Ha as [Ha _]; [|by rewrite !bits_of_length, Hl].
  rewrite <-(bytes_of_bits a [] (8 * String.length a)), <-(bytes_of_bits b [] (8 * String.length b)), Ha, Hl; [done|simpl; lia..].
Qed.

(** A plan's signature stands for this plan.  A plan the agent has made verifies when
    it is handed back as it was given; and a signature with which a plan verifies was made
    for nothing else: if the agent's key ever signed a payload of any domain with it, that
    payload is the plan and the domain is that of services, unless HMAC-SHA256 under the
    key gives two messages one code. *)
Theorem services_plans_signed hmac time_json token :
  (forall m, len (hmac token m) = 32) ->
  (forall W (runner : Firewall.Command -> W -> (string * option string) * W) sha256hex id now change n p n',
     servicesPlanHTTP hmac time_json token runner sha256hex id now change n = ((200, Ok p), n') -> verifyServicesPlan hmac time_json token p = true) /\
  (forall p domain payload,
     verifyServicesPlan hmac time_json token p = true -> any_byte (Ascii.eqb (ascii_of_N 0)) domain = false ->
     signPayload hmac token domain (Some payload) = Signature p ->
     (domain = services_domain /\ payload = plan_json time_json (with_signature EmptyString p)) \/
     exists m m', m <> m' /\ hmac token m = hmac token m').
Proof.
  intros Hlen. assert (Hhex : forall m, len (hex_encode (hmac token m)) = 64).
  { intros m. specialize (Hlen m). unfold len in *. rewrite hex_encode_length. lia. }
  split.
  - intros W runner sha256hex id now [change|e] n p n'; unfold servicesPlanHTTP; [|done].
    destruct (MakePlan _ _ _ _ _ _) as [[plan|e] n1]; [|done]. intros [= <- <-].
    unfold verifyServicesPlan, verifyPayload, signServicesPlan, signPayload. cbn [Signature with_signature]. rewrite Hhex. cbn [negb Z.eqb].
    change (with_signature EmptyString (with_signature ?x plan)) with (with_signature EmptyString plan). rewrite String.eqb_refl, andb_true_r.
    apply negb_true_iff, String.eqb_neq. intros H. specialize (Hhex (services_domain +:+ nul +:+ plan_json time_json (with_signature EmptyString plan))).
    by rewrite H in Hhex.
  - intros p domain payload Hv Hd Hs. unfold verifyServicesPlan, verifyPayload in Hv. destruct (negb _); [done|]. cbv zeta in Hv.
    apply andb_true_iff in Hv as [_ Hv%String.eqb_eq]. rewrite <-Hs in Hv. unfold signPayload in Hv. apply hex_encode_inj in Hv.
    destruct (decide (domain +:+ nul +:+ payload = services_domain +:+ nul +:+ plan_json time_json (with_signature EmptyString p))) as [He|Hne].
    + left. apply (f_equal (cut (ascii_of_N 0))) in He.
      change (nul +:+ payload) with (String (ascii_of_N 0) payload) in He.
      change (nul +:+ plan_json time_json (with_signature EmptyString p)) with (String (ascii_of_N 0) (plan_json time_json (with_signature EmptyString p))) in He.
      rewrite !cut_app in He by done. by injection He as -> ->.
    + right. eexists _, _. split; [exact Hne|exact Hv].
Qed.

(** ** Submissions *)
Section submitting.
Context (unmarshal_strings : string -> list string) (handlers : Jobs.registry) (window : Z).
Notation queue := (queue unmarshal_strings handlers).
Notation Toggle := (Toggle unmarshal_strings handlers window).

Definition queued (change : Change) (actor : option string) (job : Jobs.Job) (d d' : Jobs.db) : Prop :=
  exists row, JobQueue.inserted d d' row /\ Jobs.Kind row = "services.apply"%string /\ Jobs.RequestJSON row = marshal (change_json change) /\
    Jobs.JobActor row = actor /\ Jobs.J_ID job = Jobs.ID row.

Lemma service_queue_spec fate now title change actor s r l s' : JobQueue.db_ok (jobs_db s) -> queue fate now title change actor s = (r, l, s') ->
  guard_of s' = guard_of s /\
  match r with
  | Ok job => queued change actor job (jobs_db s) (jobs_db s')
  | Err (errQueue _) => fate = Jobs.TxRuns -> jobs_db s' = jobs_db s
  | Err _ => False
  end.
Proof.
  intros Hok. unfold Services.queue. destruct (Jobs.SubmitTitledWithOptions _ _ _ _ _ _ _ _ _) as [[r0 d] l0] eqn:Hs.
  apply JobProps.submit_titled_spec in Hs; [|done..]. intros [= <- <- <-]. split; [done|].
  destruct r0 as [job|e]; [|by apply Hs]. destruct Hs as (row & Hins & Hk & Hq & Ha & Hid & _). by exists row.
Qed.

Lemma checkLockout_spec guarded reasons irreversible ack :
  match checkLockout guarded reasons irreversible ack with
  | None => reasons = [] \/ (reasons <> [] /\ irreversible = false /\ ack = true /\ guarded = true)
  | Some (errRisk l) => l = reasons /\ reasons <> [] /\ irreversible = false /\ ack = false
  | Some (errInvalid _) => reasons <> []
  | Some _ => False
  end.
Proof. unfold checkLockout. destruct reasons as [|x l]; [by left|]. destruct irreversible, ack, guarded; cbn [negb]; try done. by right. Qed.

Lemma assess_irreversible unit action : (assessLockout unit action).2 = true -> (assessLockout unit action).1 <> [].
Proof. unfold assessLockout. destruct (negb _); [done|]. destruct (what_of irreversibleCriticalUnits _); [done|]. by destruct (what_of _ _). Qed.

(** C16. No way of stopping a unit the panel needs goes unguarded.  A request the panel
    refuses changes no store.  The panel's own units, however their name is spelled, are
    never stopped, acknowledged or not.  A stop of the web server or of sshd is queued
    only when acknowledged and with a guard, and comes back with an armed revert that
    starts the unit again; any other accepted action carries none.  The one failure that
    leaves more is that of arming: the job is queued then, and no revert is. *)
Theorem services_toggle_guarded fate arm_fault id now unit action actor ack s r l s' :
  JobQueue.db_ok (jobs_db s) -> Toggle fate arm_fault id now unit action actor ack s = (r, l, s') ->
  let u := trim_space unit in let a := trim_space (to_lower action) in
  let reasons := (assessLockout u a).1 in let irreversible := (assessLockout u a).2 in
  let change := mk_change (default EmptyString (actionsByName a)) u in
  (a = "stop"%string -> is_Some (what_of irreversibleCriticalUnits (normaliseUnit u)) -> s' = s /\ is_ok r = false) /\
  (a = "stop"%string -> is_Some (what_of revertibleCriticalUnits (normaliseUnit u)) -> reasons <> []) /\
  match r with
  | Err (errInvalid _) => s' = s
  | Err (errRisk x) => s' = s /\ x = reasons /\ reasons <> [] /\ ack = false
  | Err (errQueue _) => guard_of s' = guard_of s /\ (fate = Jobs.TxRuns -> jobs_db s' = jobs_db s)
  | Err (errArm _) => reasons <> [] /\ ack = true /\ guard_of s' = guard_of s /\ exists job, queued change actor job (jobs_db s) (jobs_db s')
  | Ok sub => irreversible = false /\ queued change actor (sub_Job sub) (jobs_db s) (jobs_db s') /\
      match sub_Revert sub with
      | None => reasons = [] /\ guard_of s' = guard_of s
      | Some armed => reasons <> [] /\ ack = true /\ exists g, guard_of s' = Some g /\ armed ∈ Safeguard.reverts g /\
          Safeguard.State armed = Safeguard.StateArmed /\ Safeguard.PayloadJSON armed = marshal (change_json (mk_change ActionStart u)) /\
          Safeguard.JobID armed = Jobs.J_ID (sub_Job sub) /\ Safeguard.ExpiresAt armed = now + window /\
          (Safeguard.closed g = false -> is_Some (Safeguard.timers g !! Safeguard.ID armed))
      end
  end.
Proof.
  intros Hok H. cbn zeta. set (u := trim_space unit) in *. set (a := trim_space (to_lower action)) in *.
  assert (Hirr : a = "stop"%string -> is_Some (what_of irreversibleCriticalUnits (normaliseUnit u)) ->
    exists m, assessLockout u a = ([m], true)).
  { intros Ha [w Hw]. unfold assessLockout. rewrite Ha. cbn [negb String.eqb]. change (String.eqb "stop" "stop") with true. cbn [negb].
    rewrite Hw. by eexists. }
  split_and!.
  - intros Ha Hw. destruct (Hirr Ha Hw) as [m Hm]. revert H. unfold Services.Toggle. fold u a. rewrite Hm, Ha.
    destruct (String.eqb u EmptyString); [by intros [= <- _ <-]|]. cbn. by intros [= <- _ <-].
  - intros Ha [w Hw]. unfold assessLockout. rewrite Ha. change (String.eqb "stop" "stop") with true. cbn [negb]. rewrite Hw.
    by destruct (what_of irreversibleCriticalUnits _).
  - revert H. unfold Services.Toggle. fold u a. destruct (String.eqb u EmptyString); [by intros [= <- _ <-]|].
    destruct (actionsByName a) as [op|] eqn:Hop; [|by intros [= <- _ <-]].
    pose proof (assess_irreversible u a) as Hai. destruct (assessLockout u a) as [reasons irr] eqn:Has. cbn [fst snd] in *.
    pose proof (checkLockout_spec (bool_decide (is_Some (guard_of s))) reasons irr ack) as Hc.
    destruct (checkLockout _ reasons irr ack) as [e|]; [intros [= <- _ <-]; destruct e; naive_solver|].
    destruct (queue fate now _ (mk_change op u) actor s) as [[rq lq] sq] eqn:Hq. apply service_queue_spec in Hq as [Hg Hq]; [|done].
    assert (Hirf : irr = false) by (destruct irr; [|done]; specialize (Hai eq_refl); destruct Hc as [?|(_ & ? & _)]; done).
    destruct rq as [job|e]; [|intros [= <- _ <-]; destruct e; naive_solver].
    destruct reasons as [|x rest]; [intros [= <- _ <-]; by split_and!|].
    destruct Hc as [?|(Hne & _ & Hack & Hguard)]; [done|]. apply bool_decide_eq_true in Hguard as [g Hgs]. rewrite Hg, Hgs.
    destruct (Safeguard.Arm _ _ _ _ _ g) as [ra g'] eqn:Harm. apply FirewallSubmit.arm_spec in Harm. destruct ra as [armed|e]; intros [= <- _ <-].
    + destruct Harm as (H1 & H2 & H3 & H4 & H5 & H6). split_and!; [done|done|]. cbn [sub_Revert sub_Job guard_of]. split_and!; [done..|].
      exists g'. split_and!; try done. by apply H3.
    + subst g'. split_and!; [done..|by exists job].
Qed.
End submitting.

(** ** Samples *)
Module ServiceSamples.
Definition no_sites (s : string) : list string := [].
Definition handlers : Jobs.registry :=
  {[ "services.apply"%string := Jobs.mk_registration (fun _ => Jobs.Done (Jobs.Returned "{}")) Jobs.RecoveryFail ]}.
Definition before : stores := mk_stores JobQueue.empty_db (Some (Safeguard.fresh_guard [])).
Definition stop (arm_fault : bool) (unit : string) :=
  Toggle no_sites handlers (2 * minute) Jobs.TxRuns arm_fault "revert_1" (10 * second) unit "Stop" (Some "u1"%string) true before.

Lemma services_toggle_guarded_witness : (stop false "nexa-api").2 = before /\ is_ok (stop false "nexa-api").1.1 = false.
Proof.
  destruct (services_toggle_guarded no_sites handlers (2 * minute) Jobs.TxRuns false "revert_1" (10 * second) "nexa-api" "Stop" (Some "u1"%string) true
    before (stop false "nexa-api").1.1 (stop false "nexa-api").1.2 (stop false "nexa-api").2 JobQueue.empty_db_ok) as [H _].
  - unfold stop. destruct (Toggle _ _ _ _ _ _ _ _ _ _ _ _) as [[r l] s]. reflexivity.
  - apply H; [vm_compute; reflexivity|]. vm_compute. by eexists.
Defined.

(** The guard refuses: nginx will be stopped, and nothing will start it again. *)
Example services_arm_failure_unguarded :
  let '(r, _, s) := stop true "nginx.service" in
  is_ok r = false /\ length (Jobs.jobs (jobs_db s)) = 1%nat /\ (length ∘ Safeguard.reverts) <$> guard_of s = Some 0%nat.
Proof. vm_compute. done. Qed.

Definition toy_hmac (key message : string) : string := take_bytes 32 ("0123456789abcdef0123456789abcdef" +:+ key +:+ message).
Definition toy_time (t : Z) : string := itoa t.
Definition runner (c : Firewall.Command) (w : unit) : (string * option string) * unit :=
  ((if bool_decide (Firewall.c_Args c = Firewall.c_Args list_units) then "nginx.service enabled"%string else "active"%string, None), w).
Definition plan_response := servicesPlanHTTP toy_hmac toy_time "token" runner (fun s => s) "p1" 0 (Ok (mk_change ActionRestart "nginx.service")) (Firewall.mk_node tt []).
Definition the_plan : Plan := match plan_response.1.2 with Ok p => p | Err _ => mk_plan EmptyString EmptyString (mk_change EmptyString EmptyString) None None EmptyString 0 0 EmptyString end.

Lemma toy_hmac_length key m : len (toy_hmac key m) = 32.
Proof. reflexivity. Qed.

Lemma services_plans_signed_witness : verifyServicesPlan toy_hmac toy_time "token" the_plan = true.
Proof.
  destruct (services_plans_signed toy_hmac toy_time "token" (toy_hmac_length "token")) as [H _].
  apply (H unit runner (fun s => s) "p1"%string 0 (Ok (mk_change ActionRestart "nginx.service")) (Firewall.mk_node tt []) the_plan plan_response.2).
  vm_compute. reflexivity.
Defined.
End ServiceSamples.
