(* ===== verification/Files.v ===== *)
(** * Files of a site

    The part of [internal/platform/operators/files] that changes files (files.go, host.go,
    uploads.go, archive.go): where a request may write, saving, moving, deleting, uploads
    in chunks, and extraction of archives under a budget.  The tree of a site is a map
    from clean paths relative to its root; every system call may fail. *)

From Stdlib Require Import Ascii.
From S2P Require Import Prelude GoStrings Json Regex SiteFs.

Local Open Scope Z_scope.

(** ** Errors *)
Definition CodeInvalid : string := "files_invalid".
Definition CodeNotFound : string := "files_not_found".
Definition CodeExistsConflict : string := "files_exists_conflict".
Definition CodeETagConflict : string := "files_etag_conflict".
Definition CodeOffsetConflict : string := "files_offset_conflict".

Inductive cause := NotExist | Exist | NotEmpty | Escapes | IOError.
Inductive error :=
| OperationError (code message : string) (offset : Z)
| System (c : cause).
Definition invalid (message : string) : error := OperationError CodeInvalid message 0.
Definition notFound (message : string) : error := OperationError CodeNotFound message 0.
Definition existsConflict (message : string) : error := OperationError CodeExistsConflict message 0.
Definition etagConflict (message : string) : error := OperationError CodeETagConflict message 0.
Definition StatusFor (code : string) : Z :=
  if String.eqb code CodeInvalid then 422
  else if String.eqb code CodeNotFound then 404
  else if String.eqb code CodeExistsConflict || String.eqb code CodeETagConflict || String.eqb code CodeOffsetConflict then 409
  else 500.

Definition pathError (e : error) (missing : string) : error :=
  match e with
  | OperationError _ _ _ => e
  | System NotExist => notFound missing
  | System Exist => existsConflict "An entry already exists at the target path."
  | System Escapes => invalid "The path escapes the site root."
  | System _ => e
  end.

(** ** The tree and its programs *)
Inductive node :=
| File (content : string) (mode modified : Z)
| Dir (mode : Z)
| Symlink
| Other.
Notation filetree := (gmap string node).

(** An answer of the system: a call that fails may have written some bytes. *)
Inductive answer := Proceed | Fault (written : nat).
Record site := mk_site { tree : filetree; answers : list answer }.

Definition M (A : Type) : Type := site -> result error A * site.
#[export] Instance M_ret : MRet M := fun A a s => (Ok a, s).
#[export] Instance M_bind : MBind M := fun A B k m s =>
  match m s with (Ok a, s) => k a s | (Err e, s) => (Err e, s) end.
Definition fail {A} (e : error) : M A := fun s => (Err e, s).
Definition get : M filetree := fun s => (Ok (tree s), s).
Definition put (t : filetree) : M unit := fun s => (Ok tt, mk_site t (answers s)).
Definition attempt {A} (m : M A) : M (A + error) := fun s =>
  match m s with (Ok a, s) => (Ok (inl a), s) | (Err e, s) => (Ok (inr e), s) end.
(** [return pathError(err, missing)] on an error. *)
Definition or_path_error {A} (missing : string) (m : M A) : M A := fun s =>
  match m s with (Err e, s) => (Err (pathError e missing), s) | r => r end.
Definition ask : M answer := fun s => (Ok (default Proceed (head (answers s))), mk_site (tree s) (tail (answers s))).
Definition io : M unit := a ← ask; match a with Proceed => mret tt | Fault _ => fail (System IOError) end.
Definition lift {A} (r : result cause A) : M A := match r with Ok a => mret a | Err c => fail (System c) end.
Definition check (r : result error unit) : M unit := match r with Ok _ => mret tt | Err e => fail e end.

(** [path.Dir] and [path.Base] of clean relative paths. *)
Definition path_dir (p : string) : string :=
  match removelast (split slash p) with [] => "."%string | l => join "/" l end.
Definition path_base (p : string) : string := List.last (split slash p) EmptyString.
Definition path_join (a b : string) : string := if String.eqb a "." then b else a +:+ "/" +:+ b.
Definition under (root p : string) : bool := String.eqb p root || has_prefix (root +:+ "/") p.

(** The record of an upload, and the members of archives: a body that is [broken] ends
    with an error of the reader. *)
Record uploadMeta := mk_meta { up_Target : string; up_Size : Z; up_Overwrite : bool; up_CreatedAt : Z }.
Inductive typeflag := TypeDir | TypeReg | TypeOther.
Record tar_entry := mk_tar { te_Name : string; te_Typeflag : typeflag; te_Size : Z; te_Mode : Z; te_body : string; te_broken : bool }.
Record zip_entry := mk_zip { ze_Name : string; ze_type : typeflag; ze_UncompressedSize64 : Z; ze_Perm : Z; ze_opens : bool; ze_body : string; ze_broken : bool }.

(** A member of an archive the panel makes. *)
Record member := mk_member { mb_Name : string; mb_Dir : bool; mb_Mode : Z; mb_Content : string }.

Section host.
(** The path an operation of [os.Root] works on: the links of its directory part are
    followed, inside the root; and with the last component followed too. *)
Context (locate resolve_links : filetree -> string -> result cause string).
(** SHA-256 in hexadecimal; the clock; a random identifier. *)
Context (sha256hex : string -> string) (now : Z) (fresh : string).
(** The modification time of what is not a regular file. *)
Context (time_of : filetree -> string -> Z).
(** The record of an upload as JSON. *)
Context (encode_meta : uploadMeta -> string) (decode_meta : string -> option uploadMeta).
(** The members of an archive; [None] in the list: the stream is corrupt from there. *)
Context (read_tar : string -> option (list (option tar_entry))) (read_zip : string -> option (list zip_entry)).
(** A tar archive, compressed. *)
Context (tar_gz : list member -> string).

Definition find (t : filetree) (p : string) : option node := if String.eqb p "." then Some (Dir 488) else t !! p.
Definition is_dir (n : node) : bool := match n with Dir _ => true | _ => false end.
Definition dir_at (t : filetree) (p : string) : bool := match find t p with Some n => is_dir n | None => false end.

(** *** System calls *)
Definition lstat (p : string) : M node :=
  _ ← io; t ← get; q ← lift (locate t p);
  match find t q with Some n => mret n | None => fail (System NotExist) end.
Definition create (p : string) (n : node) : M unit :=
  _ ← io; t ← get; q ← lift (locate t p);
  if negb (dir_at t (path_dir q)) then fail (System NotExist)
  else match find t q with Some _ => fail (System Exist) | None => put (<[q := n]> t) end.
Definition open_exclusive (p : string) (mode : Z) : M unit := create p (File EmptyString mode now).
Definition mkdir (p : string) (mode : Z) : M unit := create p (Dir mode).

Definition append_bytes (b : string) (n : node) : node :=
  match n with File c mode _ => File (c +:+ b) mode now | other => other end.
(** Writing at the end of an open file. *)
Definition append_at (q b : string) : M unit :=
  a ← ask; t ← get;
  match a with
  | Proceed => put (alter (append_bytes b) q t)
  | Fault written => _ ← put (alter (append_bytes (take_bytes written b)) q t); fail (System IOError)
  end.
Definition append (p b : string) : M unit := t ← get; q ← lift (locate t p); append_at q b.
Definition truncate_bytes (size : Z) (n : node) : node :=
  match n with File c mode _ => File (take_bytes (Z.to_nat size) c) mode now | other => other end.
Definition truncate_at (q : string) (size : Z) : M unit := _ ← io; t ← get; put (alter (truncate_bytes size) q t).

Definition set_mode (mode : Z) (n : node) : node :=
  match n with File c _ modified => File c mode modified | Dir _ => Dir mode | other => other end.
Definition chmod (p : string) (mode : Z) : M unit :=
  _ ← io; t ← get; q ← lift (locate t p);
  match find t q with Some _ => put (alter (set_mode mode) q t) | None => fail (System NotExist) end.

Definition has_children (t : filetree) (p : string) : bool :=
  existsb (fun entry => under p entry.1 && negb (String.eqb entry.1 p)) (map_to_list t).
Definition remove (p : string) : M unit :=
  _ ← io; t ← get; q ← lift (locate t p);
  match find t q with
  | None => fail (System NotExist)
  | Some _ => if has_children t q then fail (System NotEmpty) else put (delete q t)
  end.
Definition remove_all (p : string) : M unit :=
  _ ← io; t ← get; q ← lift (locate t p); put (filter (fun entry => under q entry.1 = false) t).

(** What is at and under [a] goes to [b]. *)
Definition moved (a b : string) (t : filetree) : filetree :=
  list_to_map (omap (fun entry => if under a entry.1 then Some (b +:+ drop_bytes (String.length a) entry.1, entry.2) else None) (map_to_list t)) ∪
  filter (fun entry => under a entry.1 = false /\ under b entry.1 = false) t.
Definition rename (a b : string) : M unit :=
  _ ← io; t ← get; q ← lift (locate t a); r ← lift (locate t b);
  match find t q with
  | None => fail (System NotExist)
  | Some n =>
      if negb (dir_at t (path_dir r)) then fail (System NotExist)
      else match find t r with
           | Some target => if is_dir target || is_dir n then fail (System Exist) else put (moved q r t)
           | None => put (moved q r t)
           end
  end.

(** The ownership of an entry is not part of the tree. *)
Definition chown (p : string) : M unit := io.

(** *** Scopes and zones *)
Definition writeZones : list string := ["public"; "private"; "tmp"; "backups"]%string.
Definition outside_zones : string := "Changes are only allowed inside the public, private, tmp, and backups directories.".
Definition mutable (relative : string) : result error unit :=
  let '(first, rest) := match cut slash relative with Some p => p | None => (relative, EmptyString) end in
  if negb (bool_decide (first ∈ writeZones)) || String.eqb rest EmptyString then Err (invalid outside_zones) else Ok tt.

Definition not_allowed (e : string) : error := invalid ("The path is not allowed: " +:+ e +:+ ".").
Definition clean_path (raw : string) : M string :=
  match CleanRelative raw with Ok p => mret p | Err e => fail (not_allowed e) end.
Definition no_root : error := notFound "The site directory is not present on this node.".
Definition open_root : M unit := r ← attempt io; match r with inl _ => mret tt | inr _ => fail no_root end.
Definition resolve (siteRoot : string) (scope : Scope) (raw : string) : M string :=
  _ ← match Validate scope siteRoot with Ok _ => mret tt | Err e => fail (invalid ("The site scope is invalid: " +:+ e +:+ ".")) end;
  relative ← clean_path raw;
  _ ← open_root;
  mret relative.
Definition resolveMutable (siteRoot : string) (scope : Scope) (raw : string) : M string :=
  relative ← resolve siteRoot scope raw; _ ← check (mutable relative); mret relative.
Definition relativeMutable (raw : string) : M string :=
  relative ← clean_path raw; _ ← check (mutable relative); mret relative.

Definition fileMode : Z := 416.
Definition directoryMode : Z := 488.
Definition missing_path : string := "The requested path does not exist.".
Fixpoint make_directories (current : string) (segments : list string) : M unit :=
  match segments with
  | [] => mret tt
  | segment :: rest =>
      let current := path_join current segment in
      r ← attempt (lstat current);
      _ ← match r with
          | inr (System NotExist) => _ ← or_path_error missing_path (mkdir current directoryMode); chown current
          | inr e => fail (pathError e missing_path)
          | inl n => if is_dir n then mret tt else fail (invalid "An existing file blocks the requested directory path.")
          end;
      make_directories current rest
  end.
Definition makeDirectories (relative : string) : M unit := make_directories "." (split slash relative).

Definition missing_target : string := "The target directory does not exist.".
Definition stage_name (relative : string) : string := path_join (path_dir relative) (".nexa-stage-" +:+ fresh).
(** A failed step removes the staged file. *)
Definition or_discard {A} (staging : string) (m : M A) : M A :=
  r ← attempt m; match r with inl a => mret a | inr e => _ ← attempt (remove staging); fail e end.
Definition stageFile (relative content : string) (mode : Z) : M unit :=
  let staging := stage_name relative in
  _ ← or_path_error missing_target (open_exclusive staging mode);
  _ ← or_discard staging (append staging content);
  _ ← or_discard staging io;
  _ ← or_discard staging io;
  _ ← or_discard staging (or_path_error missing_target (rename staging relative));
  chown relative.

Definition requireRegular (n : node) (action : string) : result error unit :=
  match n with
  | File _ _ _ => Ok tt
  | Symlink => Err (invalid ("Symbolic links cannot be " +:+ action +:+ "."))
  | Dir _ => Err (invalid "A directory exists at the target path.")
  | Other => Err (invalid ("Only regular files can be " +:+ action +:+ "."))
  end.

Definition missing_file : string := "The requested file does not exist.".
(** [root.Open] and reading it all: the last link is followed. *)
Definition read_file (p : string) : M string :=
  _ ← io; t ← get; q ← lift (resolve_links t p);
  match find t q with Some (File c _ _) => mret c | Some _ => fail (System IOError) | None => fail (System NotExist) end.
Definition fileETag (relative : string) : M string :=
  c ← or_path_error missing_file (read_file relative); mret (sha256hex c).

(** *** Saving, creating, moving, deleting *)
Definition writeMaxBytes : Z := 1048576.
(** The switch of [Write] on what is at the target. *)
Definition compareETag (relative expectedETag : string) (r : node + error) : M unit :=
  match r with
  | inr (System NotExist) =>
      if String.eqb expectedETag EmptyString then mret tt else fail (etagConflict "The file no longer exists; refresh before saving.")
  | inr e => fail (pathError e missing_path)
  | inl existing =>
      _ ← check (requireRegular existing "edited");
      if String.eqb expectedETag EmptyString
      then fail (existsConflict "A file already exists at this path; supply its current etag to overwrite it.")
      else
        current ← fileETag relative;
        if negb (String.eqb current expectedETag) then fail (etagConflict "The file changed since it was loaded; reload it before saving.")
        else mret tt
  end.
Definition Write (siteRoot : string) (scope : Scope) (raw content expectedETag : string) : M string :=
  if writeMaxBytes <? len content then fail (invalid "File content must be 1 MiB or smaller; use an upload for larger files.")
  else
    relative ← resolveMutable siteRoot scope raw;
    r ← attempt (lstat relative);
    _ ← compareETag relative expectedETag r;
    _ ← stageFile relative content fileMode;
    mret (sha256hex content).

Definition Mkdir (siteRoot : string) (scope : Scope) (raw : string) : M node :=
  relative ← resolveMutable siteRoot scope raw;
  _ ← makeDirectories relative;
  or_path_error missing_path (lstat relative).

Definition Move (siteRoot : string) (scope : Scope) (rawFrom rawTo : string) (overwrite : bool) : M node :=
  from ← resolveMutable siteRoot scope rawFrom;
  to ← relativeMutable rawTo;
  source ← or_path_error "The source path does not exist." (lstat from);
  if is_dir source && under from to then fail (invalid "A directory cannot be moved into itself.")
  else
    r ← attempt (lstat to);
    _ ← match r with
        | inr (System NotExist) => mret tt
        | inr e => fail (pathError e "The target path is not reachable.")
        | inl target =>
            if negb overwrite then fail (existsConflict "An entry already exists at the target path.")
            else if is_dir target || is_dir source then fail (invalid "Directories cannot be replaced by a move; delete the target first.")
            else mret tt
        end;
    _ ← or_path_error "The source or target path does not exist." (rename from to);
    or_path_error "The moved entry could not be read back." (lstat to).

(** [strconv.ParseUint(mode, 8, 32)] of three characters. *)
Definition octal_digit (c : ascii) : option Z :=
  let n := Z.of_N (byte_val c) in if (48 <=? n) && (n <=? 55) then Some (n - 48) else None.
Definition bad_mode : error := invalid "The mode must be three octal digits, such as 755.".
Definition ParseMode (mode : string) : result error Z :=
  match mode with
  | String a (String b (String c EmptyString)) =>
      match octal_digit a, octal_digit b, octal_digit c with
      | Some a, Some b, Some c => Ok (64 * a + 8 * b + c)
      | _, _, _ => Err bad_mode
      end
  | _ => Err bad_mode
  end.
Definition Chmod (siteRoot : string) (scope : Scope) (raw mode : string) : M node :=
  match ParseMode mode with
  | Err e => fail e
  | Ok permissions =>
      relative ← resolveMutable siteRoot scope raw;
      n ← or_path_error missing_path (lstat relative);
      match n with
      | File _ _ _ | Dir _ =>
          _ ← or_path_error missing_path (chmod relative permissions);
          or_path_error "The changed entry could not be read back." (lstat relative)
      | _ => fail (invalid "Only regular files and directories can have their permissions changed.")
      end
  end.

Definition Delete (siteRoot : string) (scope : Scope) (raw : string) (recursive : bool) : M unit :=
  relative ← resolveMutable siteRoot scope raw;
  _ ← or_path_error missing_path (lstat relative);
  if recursive then remove_all relative
  else
    r ← attempt (remove relative);
    match r with
    | inl _ => mret tt
    | inr (System NotEmpty) | inr (System Exist) => fail (invalid "The directory is not empty; use a recursive delete.")
    | inr e => fail e
    end.

(** *** Uploads *)
Definition uploadPrefix : string := "tmp/.nexa-upload-".
Definition uploadIDPattern : regex := between 32 32 (Class is_hex_lower).
Definition ChunkMaxBytes : Z := 8388608.
Definition uploadMaxBytes : Z := 2147483648.
Definition uploadStaleAfter : Z := 86400000000000.

(** Opening a file to append to it, its size, and replacing what a file holds. *)
Definition open_append (p : string) : M string :=
  _ ← io; t ← get; q ← lift (resolve_links t p);
  match find t q with Some (File _ _ _) => mret q | Some _ => fail (System IOError) | None => fail (System NotExist) end.
Definition file_size (q : string) : M Z :=
  _ ← io; t ← get; match find t q with Some (File c _ _) => mret (len c) | _ => fail (System IOError) end.
Definition write_file (p content : string) (mode : Z) : M unit :=
  _ ← io; t ← get; q ← lift (resolve_links t p);
  _ ← match find t q with
      | Some (File _ mode _) => put (<[q := File EmptyString mode now]> t)
      | Some _ => fail (System IOError)
      | None => if dir_at t (path_dir q) then put (<[q := File EmptyString mode now]> t) else fail (System NotExist)
      end;
  _ ← append_at q content;
  io.

Definition checkUploadTarget (target : string) (overwrite : bool) : M unit :=
  r ← attempt (lstat target);
  match r with
  | inr (System NotExist) => mret tt
  | inr e => fail (pathError e "The target path is not reachable.")
  | inl info =>
      _ ← check (requireRegular info "replaced by an upload");
      if overwrite then mret tt else fail (existsConflict "A file already exists at the target path.")
  end.

Definition entry_time (t : filetree) (q : string) (n : node) : Z :=
  match n with File _ _ modified => modified | _ => time_of t q end.
Definition no_names : list string := [EmptyString; "."; ".."]%string.
Definition listed (directory p : string) : bool :=
  String.eqb (path_dir p) directory && negb (bool_decide (path_base p ∈ no_names)).
(** Reading a directory: no name is empty, [.] or [..]. *)
Definition children (t : filetree) (directory : string) : list string :=
  omap (fun entry => if listed directory entry.1 then Some (path_base entry.1) else None) (map_to_list t).
Fixpoint clean_stale (directory : string) (names : list string) : M unit :=
  match names with
  | [] => mret tt
  | name :: rest =>
      _ ← (if negb (has_prefix ".nexa-upload-" name) then mret tt
           else
             r ← attempt io; t ← get;
             match r, find t (path_join directory name) with
             | inl _, Some n =>
                 if entry_time t (path_join directory name) n <? now - uploadStaleAfter
                 then _ ← attempt (remove ("tmp/" +:+ name)); mret tt
                 else mret tt
             | _, _ => mret tt
             end);
      clean_stale directory rest
  end.
Definition read_dir (p : string) : M (string * list string) :=
  _ ← io; t ← get; q ← lift (resolve_links t p);
  if dir_at t q then _ ← io; mret (q, children t q) else fail (System IOError).
Definition cleanStaleUploads : M unit :=
  r ← attempt (read_dir "tmp");
  match r with inl (directory, names) => clean_stale directory names | inr _ => mret tt end.

Definition UploadBegin (siteRoot : string) (scope : Scope) (raw : string) (size : Z) (overwrite : bool) : M string :=
  target ← resolveMutable siteRoot scope raw;
  if (size <? 0) || (uploadMaxBytes <? size) then fail (invalid "Upload size must be between 0 bytes and 2 GiB.")
  else
    _ ← checkUploadTarget target overwrite;
    _ ← cleanStaleUploads;
    r ← attempt (lstat "tmp");
    _ ← match r with inr (System NotExist) => _ ← mkdir "tmp" 448; chown "tmp" | _ => mret tt end;
    let staging := uploadPrefix +:+ fresh in
    _ ← open_exclusive staging 384;
    _ ← io;
    _ ← chown staging;
    _ ← or_discard staging (write_file (staging +:+ ".meta") (encode_meta (mk_meta target size overwrite now)) 384);
    _ ← chown (staging +:+ ".meta");
    mret fresh.

Definition bad_upload_id : error := invalid "The upload ID is invalid.".
Definition expired : error := notFound "The upload session does not exist or has expired.".
Definition loadUpload (uploadID : string) : M (string * uploadMeta) :=
  if negb (matches uploadIDPattern uploadID) then fail bad_upload_id
  else
    let staging := uploadPrefix +:+ uploadID in
    r ← attempt (read_file (staging +:+ ".meta"));
    match r with
    | inr _ => fail expired
    | inl encoded => match decode_meta encoded with None => fail expired | Some meta => mret (staging, meta) end
    end.
Definition open_upload (staging : string) : M string :=
  r ← attempt (open_append staging); match r with inl q => mret q | inr _ => fail expired end.

Definition offsetConflict (size : Z) : error :=
  OperationError CodeOffsetConflict ("The upload is at offset " +:+ itoa size +:+ "; resend the chunk from there.") size.
Definition UploadChunk (siteRoot : string) (scope : Scope) (uploadID : string) (offset : Z) (body : string) : M unit :=
  _ ← resolve siteRoot scope ".";
  '(staging, meta) ← loadUpload uploadID;
  if offset <? 0 then fail (invalid "The chunk offset must not be negative.")
  else
    file ← open_upload staging;
    size ← file_size file;
    if negb (size =? offset) then fail (offsetConflict size)
    else
      let remaining := up_Size meta - offset in
      let accepted := take_bytes (Z.to_nat (Z.min remaining ChunkMaxBytes)) body in
      _ ← append_at file accepted;
      if len accepted <? len body then
        _ ← attempt (truncate_at file offset);
        fail (invalid (if remaining <=? len accepted then "The upload exceeds its declared size." else "Upload chunks must be 8 MiB or smaller."))
      else mret tt.

Definition UploadCommit (siteRoot : string) (scope : Scope) (uploadID : string) : M node :=
  _ ← resolve siteRoot scope ".";
  '(staging, meta) ← loadUpload uploadID;
  _ ← check (mutable (up_Target meta));
  file ← open_upload staging;
  size ← file_size file;
  if negb (size =? up_Size meta)
  then fail (invalid ("The upload holds " +:+ itoa size +:+ " of " +:+ itoa (up_Size meta) +:+ " declared bytes; upload the rest before committing."))
  else
    _ ← io;
    _ ← io;
    _ ← checkUploadTarget (up_Target meta) (up_Overwrite meta);
    _ ← chmod staging fileMode;
    _ ← or_path_error "The target directory no longer exists." (rename staging (up_Target meta));
    _ ← attempt (remove (staging +:+ ".meta"));
    _ ← chown (up_Target meta);
    lstat (up_Target meta).

Definition remove_present (p : string) : M unit :=
  r ← attempt (remove p); match r with inl _ | inr (System NotExist) => mret tt | inr e => fail e end.
Definition UploadAbort (siteRoot : string) (scope : Scope) (uploadID : string) : M unit :=
  _ ← resolve siteRoot scope ".";
  if negb (matches uploadIDPattern uploadID) then fail bad_upload_id
  else
    let staging := uploadPrefix +:+ uploadID in
    _ ← remove_present staging;
    remove_present (staging +:+ ".meta").

(** *** Budgets and extraction *)
Record budget := mk_budget { operation : string; entries : Z; bytes : Z }.
Definition newBudget (operation : string) (entries bytes : Z) : budget := mk_budget operation entries bytes.
Definition spendEntry (b : budget) : result error budget :=
  if entries b =? 0 then Err (invalid ("The " +:+ operation b +:+ " exceeds the entry limit."))
  else Ok (mk_budget (operation b) (entries b - 1) (bytes b)).
Definition spendBytes (b : budget) (size : Z) : result error budget :=
  if bytes b <? size then Err (invalid ("The " +:+ operation b +:+ " exceeds the size limit."))
  else Ok (mk_budget (operation b) (entries b) (bytes b - size)).
Definition spend (r : result error budget) : M budget := match r with Ok b => mret b | Err e => fail e end.
Definition extractMaxEntries : Z := 10000.
Definition extractMaxBytes : Z := 1073741824.
Definition extraction_budget : budget := newBudget "extraction" extractMaxEntries extractMaxBytes.
Record ExtractResult := mk_extract { ex_Written : Z; ex_Skipped : Z }.
Definition one_written (r : ExtractResult) : ExtractResult := mk_extract (ex_Written r + 1) (ex_Skipped r).
Definition one_skipped (r : ExtractResult) : ExtractResult := mk_extract (ex_Written r) (ex_Skipped r + 1).

Definition corrupt : error := invalid "The archive is corrupt and cannot be extracted.".
(** Whether the entry was written: it is skipped where something else than a file is. *)
Definition writeExtracted (destination body : string) (broken : bool) (declared perm : Z) : M bool :=
  if declared <? 0 then fail corrupt
  else
    let parent := path_dir destination in
    _ ← (if String.eqb parent "." then mret tt else makeDirectories parent);
    r ← attempt (lstat destination);
    skip ← match r with
            | inl (File _ _ _) => _ ← remove destination; mret false
            | inl _ => mret true
            | inr (System NotExist) => mret false
            | inr e => fail (pathError e "The target path is not reachable.")
            end;
    if (skip : bool) then mret false
    else
      let perm := if Z.land perm 511 =? 0 then fileMode else perm in
      _ ← or_path_error missing_target (open_exclusive destination (Z.land perm 511));
      let copied := take_bytes (Z.to_nat (declared + 1)) body in
      _ ← or_discard destination (append destination copied);
      _ ← or_discard destination (if broken && (len copied <=? declared) then fail (System IOError) else mret tt);
      _ ← or_discard destination (if declared <? len copied then fail (invalid "The archive contents exceed their declared size.") else mret tt);
      _ ← io;
      _ ← chown destination;
      mret true.

Definition extract_directory (destination : string) (b : budget) (r : ExtractResult) : M (budget * ExtractResult) :=
  b ← spend (spendEntry b); _ ← makeDirectories destination; mret (b, one_written r).
Definition extract_file (destination body : string) (broken opens : bool) (declared perm : Z) (b : budget) (r : ExtractResult)
    : M (budget * ExtractResult) :=
  b ← spend (spendEntry b);
  b ← spend (spendBytes b declared);
  if negb opens then fail corrupt
  else written ← writeExtracted destination body broken declared perm; mret (b, if (written : bool) then one_written r else one_skipped r).
(** Where a member of an archive goes: nowhere, when its name leaves the archive. *)
Definition member_path (targetDir name : string) : option string :=
  match CleanRelative name with
  | Ok cleaned => if String.eqb cleaned "." then None else Some (path_join targetDir cleaned)
  | Err _ => None
  end.

Fixpoint extractTar (targetDir : string) (b : budget) (r : ExtractResult) (entries : list (option tar_entry)) : M ExtractResult :=
  match entries with
  | [] => mret r
  | None :: _ => fail corrupt
  | Some header :: rest =>
      match member_path targetDir (te_Name header) with
      | None => extractTar targetDir b (one_skipped r) rest
      | Some destination =>
          '(b, r) ← match te_Typeflag header with
                    | TypeDir => extract_directory destination b r
                    | TypeReg => extract_file destination (te_body header) (te_broken header) true (te_Size header) (te_Mode header) b r
                    | TypeOther => mret (b, one_skipped r)
                    end;
          extractTar targetDir b r rest
      end
  end.
Fixpoint extractZip (targetDir : string) (b : budget) (r : ExtractResult) (entries : list zip_entry) : M ExtractResult :=
  match entries with
  | [] => mret r
  | entry :: rest =>
      match member_path targetDir (ze_Name entry) with
      | None => extractZip targetDir b (one_skipped r) rest
      | Some destination =>
          '(b, r) ← (if match ze_type entry with TypeDir => true | _ => has_suffix "/" (ze_Name entry) end then extract_directory destination b r
                     else match ze_type entry with
                          | TypeReg =>
                              if int64_max <? ze_UncompressedSize64 entry then fail (invalid "The extraction exceeds the size limit.")
                              else extract_file destination (ze_body entry) (ze_broken entry) (ze_opens entry) (ze_UncompressedSize64 entry) (ze_Perm entry) b r
                          | _ => mret (b, one_skipped r)
                          end);
          extractZip targetDir b r rest
      end
  end.

Definition stat (p : string) : M node :=
  _ ← io; t ← get; q ← lift (resolve_links t p);
  match find t q with Some n => mret n | None => fail (System NotExist) end.
(** Reading a regular file: the links of its path are followed. *)
Definition openRegular (relative : string) : M string :=
  info ← or_path_error missing_file (stat relative);
  match info with
  | Dir _ => fail (invalid "The requested path is a directory.")
  | Symlink | Other => fail (invalid "Only regular files can be read.")
  | File content _ _ =>
      _ ← or_path_error missing_file io;
      opened ← attempt io;
      match opened with inl _ => mret content | inr _ => fail (invalid "Only regular files can be read.") end
  end.
Definition Extract (siteRoot : string) (scope : Scope) (raw rawTargetDir : string) : M ExtractResult :=
  source ← resolve siteRoot scope raw;
  targetDir ← relativeMutable rawTargetDir;
  content ← openRegular source;
  _ ← makeDirectories targetDir;
  let name := to_lower source in
  if has_suffix ".zip" name then
    match read_zip content with
    | None => fail (invalid "The archive is not a valid zip file.")
    | Some l => extractZip targetDir extraction_budget (mk_extract 0 0) l
    end
  else if has_suffix ".tar.gz" name || has_suffix ".tgz" name then
    match read_tar content with
    | None => fail (invalid "The archive is not a valid gzip stream.")
    | Some l => extractTar targetDir extraction_budget (mk_extract 0 0) l
    end
  else fail (invalid "Only .zip, .tar.gz, and .tgz archives can be extracted.").

(** *** Copies *)
Definition copyMaxEntries : Z := 10000.
Definition copyMaxBytes : Z := 1073741824.
Record CopyResult := mk_copy { cp_Copied : Z; cp_Skipped : Z; cp_Bytes : Z }.
Definition missing_source : string := "The source path does not exist.".
Definition entry_limit (b : budget) : error := invalid ("The " +:+ operation b +:+ " exceeds the entry limit.").
Definition copyFile (from to content : string) (mode : Z) (b : budget) (r : CopyResult) : M (budget * CopyResult) :=
  b ← spend (spendEntry b);
  b ← spend (spendBytes b (len content));
  c ← or_path_error missing_source (read_file from);
  _ ← stageFile to (take_bytes (String.length content) c) mode;
  mret (b, mk_copy (cp_Copied r + 1) (cp_Skipped r) (cp_Bytes r + len content)).
Definition copy_skipped (r : CopyResult) : CopyResult := mk_copy (cp_Copied r) (cp_Skipped r + 1) (cp_Bytes r).
(** The children of a directory, one at a time; [tree] copies a directory among them. *)
Fixpoint copy_children (copy_tree : string -> string -> budget -> CopyResult -> M (budget * CopyResult))
    (directory from to : string) (b : budget) (r : CopyResult) (names : list string) : M (budget * CopyResult) :=
  match names with
  | [] => mret (b, r)
  | name :: rest =>
      info ← attempt io; t ← get;
      '(b, r) ← match info, find t (path_join directory name) with
                | inl _, Some (File content mode _) => copyFile (path_join from name) (path_join to name) content mode b r
                | inl _, Some (Dir _) => copy_tree (path_join from name) (path_join to name) b r
                | _, _ => mret (b, copy_skipped r)
                end;
      copy_children copy_tree directory from to b r rest
  end.
(** Every directory spends an entry of the budget, which bounds the depth: without fuel
    the entry limit is reached. *)
Fixpoint copyTree (fuel : nat) (from to : string) (b : budget) (r : CopyResult) : M (budget * CopyResult) :=
  match fuel with
  | O => fail (entry_limit b)
  | S fuel =>
      b ← spend (spendEntry b);
      _ ← or_path_error missing_target (mkdir to directoryMode);
      _ ← chown to;
      let r := mk_copy (cp_Copied r + 1) (cp_Skipped r) (cp_Bytes r) in
      listing ← or_path_error missing_source (read_dir from);
      copy_children (copyTree fuel) listing.1 from to b r (sort_strings listing.2)
  end.
Definition Copy (siteRoot : string) (scope : Scope) (rawFrom rawTo : string) : M CopyResult :=
  from ← resolve siteRoot scope rawFrom;
  to ← relativeMutable rawTo;
  source ← or_path_error missing_source (lstat from);
  present ← attempt (lstat to);
  _ ← match present with
      | inl _ => fail (existsConflict "An entry already exists at the target path.")
      | inr (System NotExist) => mret tt
      | inr e => fail (pathError e "The target path is not reachable.")
      end;
  let b := newBudget "copy" copyMaxEntries copyMaxBytes in
  let r := mk_copy 0 0 0 in
  match source with
  | File content mode _ => result ← copyFile from to content mode b r; mret result.2
  | Dir _ =>
      if under from to then fail (invalid "A directory cannot be copied into itself.")
      else result ← copyTree (S (Z.to_nat copyMaxEntries)) from to b r; mret result.2
  | _ => fail (invalid "Only regular files and directories can be copied.")
  end.

(** *** Archives *)
Definition archiveMaxEntries : Z := 10000.
Definition archiveMaxBytes : Z := 1073741824.
Record ArchiveResult := mk_archive { ar_members : list member; ar_Entries : Z; ar_Bytes : Z }.
Definition add_member (m : member) (size : Z) (r : ArchiveResult) : ArchiveResult :=
  mk_archive (ar_members r ++ [m]) (ar_Entries r + 1) (ar_Bytes r + size).
Definition absent (p : string) : string := "The path " +:+ go_quote p +:+ " does not exist.".
Definition archiveFile (source content : string) (mode : Z) (b : budget) (r : ArchiveResult) : M (budget * ArchiveResult) :=
  b ← spend (spendEntry b);
  b ← spend (spendBytes b (len content));
  _ ← io;
  c ← or_path_error (absent source) (read_file source);
  if negb (len c =? len content) then fail (System IOError)
  else mret (b, add_member (mk_member source false mode c) (len content) r).
Fixpoint archive_children (archive_tree : string -> budget -> ArchiveResult -> M (budget * ArchiveResult))
    (directory source : string) (b : budget) (r : ArchiveResult) (names : list string) : M (budget * ArchiveResult) :=
  match names with
  | [] => mret (b, r)
  | name :: rest =>
      '(b, r) ← (if has_prefix ".nexa-" name then mret (b, r)
                 else
                   info ← attempt io; t ← get;
                   match info, find t (path_join directory name) with
                   | inl _, Some (File _ _ _ | Dir _) => archive_tree (path_join source name) b r
                   | _, _ => mret (b, r)
                   end);
      archive_children archive_tree directory source b r rest
  end.
(** As with copies, the entries of the budget bound the depth. *)
Fixpoint archiveTree (fuel : nat) (named : bool) (source : string) (b : budget) (r : ArchiveResult) : M (budget * ArchiveResult) :=
  match fuel with
  | O => fail (entry_limit b)
  | S fuel =>
      info ← or_path_error (absent source) (lstat source);
      match info with
      | File content mode _ => archiveFile source content mode b r
      | Dir mode =>
          b ← spend (spendEntry b);
          _ ← io;
          let r := add_member (mk_member (source +:+ "/") true mode EmptyString) 0 r in
          listing ← read_dir source;
          archive_children (archiveTree fuel false) listing.1 source b r (sort_strings listing.2)
      | _ => if named then fail (invalid "Only regular files and directories can be archived.") else mret (b, r)
      end
  end.
Definition archive_fuel : nat := S (S (Z.to_nat archiveMaxEntries)).
Fixpoint archive_sources (sources : list string) (b : budget) (r : ArchiveResult) : M ArchiveResult :=
  match sources with
  | [] => mret r
  | source :: rest => '(b, r) ← archiveTree archive_fuel true source b r; archive_sources rest b r
  end.
Fixpoint checked_sources (raws : list string) : M (list string) :=
  match raws with
  | [] => mret []
  | raw :: rest =>
      cleaned ← clean_path raw;
      if String.eqb cleaned "." then fail (invalid "The site root cannot be archived; choose specific paths.")
      else
        _ ← or_path_error (absent cleaned) (lstat cleaned);
        l ← checked_sources rest;
        mret (cleaned :: l)
  end.
(** What the compressor has written so far is appended in one piece. *)
Definition Archive (siteRoot : string) (scope : Scope) (rawPaths : list string) (rawTarget : string) : M (ArchiveResult * node) :=
  target ← resolveMutable siteRoot scope rawTarget;
  if negb (has_suffix ".tar.gz" target) then fail (invalid "The archive target must end in .tar.gz.")
  else match rawPaths with
  | [] => fail (invalid "At least one path is required to build an archive.")
  | _ =>
    present ← attempt (lstat target);
    _ ← match present with
        | inl _ => fail (existsConflict "An entry already exists at the target path.")
        | inr (System NotExist) => mret tt
        | inr e => fail (pathError e "The target path is not reachable.")
        end;
    sources ← checked_sources rawPaths;
    let staging := stage_name target in
    _ ← or_path_error missing_target (open_exclusive staging fileMode);
    result ← or_discard staging (archive_sources sources (newBudget "archive" archiveMaxEntries archiveMaxBytes) (mk_archive [] 0 0));
    _ ← or_discard staging (append staging (tar_gz (ar_members result)));
    _ ← or_discard staging io;
    _ ← or_discard staging io;
    _ ← or_discard staging io;
    _ ← or_discard staging (or_path_error missing_target (rename staging target));
    _ ← chown target;
    n ← lstat target;
    mret (result, n)
  end.

(** *** Reading *)
Definition readMaxBytes : Z := 1048576.
Definition listMaxEntries : nat := Z.to_nat 5000.
Definition Stat (siteRoot : string) (scope : Scope) (raw : string) : M node :=
  relative ← resolve siteRoot scope raw; or_path_error missing_path (lstat relative).
Record ReadResult := mk_read { rd_ETag : string; rd_Size : Z; rd_Truncated : bool; rd_Binary : bool; rd_Content : string }.
Definition read_result (content : string) : ReadResult :=
  let preview := take_bytes (Z.to_nat readMaxBytes) content in
  let truncated := readMaxBytes <? len content in
  let binary := any_byte (byte_eq 0) (take_bytes (Z.to_nat 8192) preview) in
  mk_read (sha256hex content) (len content) truncated binary (if negb binary && negb truncated then preview else EmptyString).
Definition Read (siteRoot : string) (scope : Scope) (raw : string) : M ReadResult :=
  relative ← resolve siteRoot scope raw; content ← openRegular relative; _ ← io; mret (read_result content).

(** Directories first, each part by name. *)
Definition listing_order (t : filetree) (directory : string) (names : list string) : list string :=
  sort_strings (List.filter (fun name => dir_at t (path_join directory name)) names) ++
  sort_strings (List.filter (fun name => negb (dir_at t (path_join directory name))) names).
Fixpoint list_entries (directory : string) (room : nat) (names : list string) : M (list (string * node) * bool) :=
  match names, room with
  | [], _ => mret ([], false)
  | _ :: _, O => mret ([], true)
  | name :: rest, S less =>
      info ← attempt io; t ← get;
      match info, find t (path_join directory name) with
      | inl _, Some n => r ← list_entries directory less rest; mret ((name, n) :: r.1, r.2)
      | _, _ => list_entries directory room rest
      end
  end.
Definition ListDirectory (siteRoot : string) (scope : Scope) (raw : string) : M (list (string * node) * bool) :=
  relative ← resolve siteRoot scope raw;
  _ ← or_path_error "The requested directory does not exist." io;
  t ← get;
  q ← or_path_error "The requested directory does not exist." (lift (resolve_links t relative));
  match find t q with
  | None => fail (notFound "The requested directory does not exist.")
  | Some n =>
      _ ← io;
      if negb (is_dir n) then fail (invalid "The requested path is not a directory.")
      else _ ← io; list_entries q listMaxEntries (listing_order t q (children t q))
  end.
End host.
