(* ===== verification/FilesProps.v ===== *)
(** * Properties of the files of a site

    Requests change entries only where paths of the write zones lead; an upload in chunks leaves
    exactly the bytes the client has; saving compares and swaps; copies and extractions
    grow the site by no more than their budget. *)

From Stdlib Require Import Ascii.
From S2P Require Import Prelude GoStrings Regex Naming Sites SiteFs Files.

Local Open Scope Z_scope.

(** ** Paths below the write zones *)
Definition zone (p : string) : bool := existsb (fun z => under z p) writeZones.
(** A clean path whose first component is a write zone. *)
Definition zoned (p : string) : Prop := contained p /\ exists z rest, split slash p = z :: rest /\ z ∈ writeZones.

Lemma under_spec q p : under q p = true <-> p = q \/ exists t, p = q +:+ "/" +:+ t.
Proof.
  unfold under. rewrite orb_true_iff, String.eqb_eq, has_prefix_spec. split; (intros [->|[t Ht]]; [by left|right; exists t]).
  - by rewrite Ht, str_app_assoc.
  - by rewrite Ht, str_app_assoc.
Qed.
Lemma under_transitive a b c : under a b = true -> under b c = true -> under a c = true.
Proof.
  rewrite !under_spec. intros [->|[t ->]] [->|[u ->]]; [by left|right; by eexists..|].
  right. exists (t +:+ "/" +:+ u). by rewrite !str_app_assoc.
Qed.
Lemma zone_under q p : zone q = true -> under q p = true -> zone p = true.
Proof.
  unfold zone. rewrite !existsb_Exists, !Exists_exists. intros (z & Hz & Hq) Hp. exists z. split; [done|]. by eapply under_transitive.
Qed.

Lemma join_cons a l : join "/" (a :: l) = a \/ exists t, join "/" (a :: l) = a +:+ "/" +:+ t.
Proof. destruct l as [|b l]; [by left|right]. by exists (join "/" (b :: l)). Qed.
Lemma zoned_zone p : zoned p -> zone p = true.
Proof.
  intros (_ & z & rest & Hs & Hz). unfold zone. apply existsb_Exists, Exists_exists. exists z. split; [done|].
  apply under_spec. rewrite <-(join_split p), Hs. apply join_cons.
Qed.
Lemma zoned_join z rest : Forall plain (z :: rest) -> z ∈ writeZones -> zoned (join "/" (z :: rest)).
Proof. intros Hp Hz. unfold zoned, contained. rewrite plain_join_contained by done. split; [done|]. by exists z, rest. Qed.

(** A zoned path with something below the zone. *)
Definition inside (p : string) : Prop := contained p /\ exists z c rest, split slash p = z :: c :: rest /\ z ∈ writeZones.
Lemma inside_zoned p : inside p -> zoned p.
Proof. intros (Hp & z & c & rest & Hs & Hz). split; [done|]. by exists z, (c :: rest). Qed.

Lemma clean_contained raw p : CleanRelative raw = Ok p -> p <> "."%string -> contained p.
Proof.
  unfold CleanRelative. destruct (any_byte _ raw); [done|]. destruct (_ || _); [by intros [= <-]|].
  destruct (has_prefix "/" raw) eqn:Hr; [done|]. destruct (_ || _) eqn:Hu; [done|]. intros [= <-] Hd.
  apply orb_false_iff in Hu as [Hu Hp]. apply String.eqb_neq in Hu.
  destruct (path_clean_safe raw) as (a & l & Hl & ->); [done..|]. unfold contained. by rewrite plain_join_contained.
Qed.

Lemma mutable_split p : mutable p = Ok tt -> contained p -> inside p.
Proof.
  unfold mutable. intros Hm Hc. split; [done|]. pose proof (join_split p) as Hj. unfold contained in Hc.
  destruct (split slash p) as [|z [|c rest]] eqn:Hs; [by apply split_not_nil in Hs|..].
  - exfalso. apply Forall_cons in Hc as [(_ & _ & _ & Hz) _]. cbn in Hj. subst p.
    rewrite (proj2 (cut_None slash z) Hz) in Hm. change (String.eqb EmptyString EmptyString) with true in Hm. by rewrite orb_true_r in Hm.
  - exists z, c, rest. split; [done|]. rewrite <-Hj, (cut_join z c rest Hc) in Hm.
    destruct (bool_decide _) eqn:Hz; [by apply bool_decide_eq_true in Hz|done].
Qed.
Lemma mutable_inside raw p : CleanRelative raw = Ok p -> mutable p = Ok tt -> inside p.
Proof.
  intros Hc Hm. apply mutable_split; [done|]. apply (clean_contained raw); [done|]. intros ->. by vm_compute in Hm.
Qed.

Lemma path_join_split p name : plain name -> contained p -> split slash (path_join p name) = split slash p ++ [name].
Proof.
  intros Hn Hp. unfold path_join. destruct (String.eqb_spec p "."); [subst p|].
  { exfalso. apply Forall_cons in Hp as [(_ & Hd & _) _]. by apply Hd. }
  rewrite <-(join_split p) at 1. destruct (split slash p) as [|a l] eqn:Hs; [by apply split_not_nil in Hs|].
  assert (Hpl : Forall plain ((a :: l) ++ [name])) by (apply Forall_app; split; [by rewrite <-Hs|by constructor]).
  rewrite <-(plain_join_contained ((a :: l) ++ [name])) by done. f_equal. clear. revert a.
  induction l as [|b l IH]; intros a; [done|]. cbn [app]. change (join "/" (a :: b :: ?x)) with (a +:+ "/" +:+ join "/" (b :: x)).
  rewrite !str_app_assoc. do 2 f_equal. apply IH.
Qed.
Lemma path_join_zoned p name : zoned p -> plain name -> inside (path_join p name).
Proof.
  intros (Hp & z & rest & Hs & Hz) Hn. unfold inside, contained. rewrite path_join_split, Hs by done.
  split; [apply Forall_app; split; [by rewrite <-Hs|by constructor]|].
  destruct rest as [|c rest]; cbn [app]; [by exists z, name, []|by exists z, c, (rest ++ [name])].
Qed.
Lemma path_dir_zoned p : inside p -> zoned (path_dir p).
Proof.
  intros (Hp & z & c & rest & Hs & Hz). unfold path_dir. unfold contained in Hp. rewrite Hs in *.
  change (removelast (z :: c :: rest)) with (z :: removelast (c :: rest)). apply zoned_join; [|done].
  apply Forall_cons in Hp as [Hpz Hp]. constructor; [done|]. rewrite removelast_firstn_len. by apply Forall_take.
Qed.

(** ** Requests stay below the zones *)
Section host.
Context (locate resolve_links : filetree -> string -> result cause string).
Context (sha256hex : string -> string) (now : Z) (fresh : string) (time_of : filetree -> string -> Z).
Context (encode_meta : uploadMeta -> string) (decode_meta : string -> option uploadMeta).
Context (read_tar : string -> option (list (option tar_entry))) (read_zip : string -> option (list zip_entry)).
Context (tar_gz : list member -> string).
Context (fresh_plain : any_byte (Ascii.eqb slash) fresh = false).
Section zones.
(** A part of the tree that holds what [os.Root] reaches from a zoned path, and what is
    below it. *)
Context (region : string -> Prop).
Context (region_below : forall q p, region q -> under q p = true -> region p).
Context (located : forall t p q, zoned p -> locate t p = Ok q -> region q).
Context (linked : forall t p q, zoned p -> resolve_links t p = Ok q -> region q).

Definition untouched (t t' : filetree) : Prop := forall p, ~ region p -> t' !! p = t !! p.
Definition confined {A} (m : M A) (Q : A -> Prop) : Prop :=
  forall s, untouched (tree s) (tree (m s).2) /\ forall a, (m s).1 = Ok a -> Q a.
Notation anything := (fun _ => True).

Lemma region_apart q p : region q -> ~ region p -> under q p = false.
Proof. intros Hq Hp. apply not_true_iff_false. intros Hu. by apply Hp, (region_below q). Qed.
Lemma region_differs q p : region q -> ~ region p -> q <> p.
Proof. by intros Hq Hp ->. Qed.
Lemma untouched_trans a b c : untouched a b -> untouched b c -> untouched a c.
Proof. intros H K p Hp. by rewrite K, H. Qed.
Lemma confined_bind {A B} (m : M A) (k : A -> M B) P Q : confined m P -> (forall a, P a -> confined (k a) Q) -> confined (a ← m; k a) Q.
Proof.
  intros Hm Hk s. destruct (Hm s) as [Hu HP]. unfold mbind, M_bind. destruct (m s) as [[a|e] s'] eqn:Hr; [|split; [done|done]].
  destruct (Hk a (HP a eq_refl) s') as [Hu' HQ]. split; [by eapply untouched_trans|done].
Qed.
Lemma confined_ret {A} (a : A) (Q : A -> Prop) : Q a -> confined (mret a) Q.
Proof. intros H s. split; [done|]. by intros b [= <-]. Qed.
Lemma confined_fail {A} e (Q : A -> Prop) : confined (fail e) Q.
Proof. by intros s. Qed.
Lemma confined_get Q : (forall t, Q t) -> confined get Q.
Proof. intros H s. split; [done|]. by intros b [= <-]. Qed.
Lemma confined_ask : confined ask anything.
Proof. by intros s. Qed.
Lemma confined_lift {A} (r : result cause A) (Q : A -> Prop) : (forall a, r = Ok a -> Q a) -> confined (lift r) Q.
Proof. destruct r as [a|c]; intros H; [by apply confined_ret, H|apply confined_fail]. Qed.
Lemma confined_check (r : result error unit) : confined (check r) (fun _ => r = Ok tt).
Proof. destruct r as [[]|e]; [by apply confined_ret|apply confined_fail]. Qed.
Lemma confined_attempt {A} (m : M A) (P : A -> Prop) : confined m P -> confined (attempt m) (fun r => match r with inl a => P a | inr _ => True end).
Proof.
  intros H s. destruct (H s) as [Hu HP]. unfold attempt. destruct (m s) as [[a|e] s'] eqn:Hr; (split; [done|]); intros b [= <-]; [by apply HP|done].
Qed.
Lemma confined_or {A} missing (m : M A) Q : confined m Q -> confined (or_path_error missing m) Q.
Proof.
  intros H s. destruct (H s) as [Hu HP]. unfold or_path_error. destruct (m s) as [[a|e] s'] eqn:Hr; (split; [done|]); [done|intros b [=] ].
Qed.
Lemma confined_weaken {A} (m : M A) (P Q : A -> Prop) : confined m P -> (forall a, P a -> Q a) -> confined m Q.
Proof. intros H HPQ s. destruct (H s) as [Hu HP]. split; [done|]. eauto. Qed.
Lemma confined_put {A} (m : M A) t Q s : untouched (tree s) t -> confined m Q ->
  untouched (tree s) (tree ((_ ← put t; m) s).2) /\ forall a, ((_ ← put t; m) s).1 = Ok a -> Q a.
Proof. intros Ht Hm. destruct (Hm (mk_site t (answers s))) as [Hu HQ]. split; [by eapply untouched_trans|done]. Qed.
(** A change of the current tree. *)
Lemma confined_update {A} (k : filetree -> M A) Q :
  (forall s, untouched (tree s) (tree (k (tree s) s).2) /\ forall a, (k (tree s) s).1 = Ok a -> Q a) -> confined (t ← get; k t) Q.
Proof. intros H s. apply H. Qed.
Lemma confined_io : confined io anything.
Proof. eapply confined_bind; [apply confined_ask|]. intros [|n] _; [by apply confined_ret|apply confined_fail]. Qed.

Lemma untouched_insert q n t : region q -> untouched t (<[q := n]> t).
Proof. intros Hq p Hp. apply lookup_insert_ne. by apply region_differs. Qed.
Lemma untouched_alter f q t : region q -> untouched t (alter f q t).
Proof. intros Hq p Hp. apply lookup_alter_ne. by apply region_differs. Qed.
Lemma untouched_delete q t : region q -> untouched t (delete q t).
Proof. intros Hq p Hp. apply lookup_delete_ne. by apply region_differs. Qed.
Lemma untouched_filter q t : region q -> untouched t (filter (fun entry => under q entry.1 = false) t).
Proof.
  intros Hq p Hp. apply option_eq. intros n. rewrite map_lookup_filter_Some. cbn [fst].
  split; [by intros [? _]|]. intros H. split; [done|]. by apply region_apart.
Qed.
Lemma moved_under a b p : under a p = true -> under b (b +:+ drop_bytes (String.length a) p) = true.
Proof.
  rewrite !under_spec. assert (Hd : forall t, drop_bytes (String.length a) (a +:+ t) = t) by (intros t; induction a; [done|cbn; done]).
  intros [->|[t ->]]; [left|right; exists t; by rewrite Hd].
  rewrite <-(str_app_nil_r a) at 2. by rewrite Hd, str_app_nil_r.
Qed.
Lemma untouched_moved a b t : region a -> region b -> untouched t (moved a b t).
Proof.
  intros Ha Hb p Hp. unfold moved. rewrite lookup_union_r.
  - apply option_eq. intros n. rewrite map_lookup_filter_Some. cbn [fst]. split; [by intros [? _]|]. intros H. split_and!; [done|by apply region_apart..].
  - apply not_elem_of_list_to_map. intros Hin. apply list_elem_of_fmap in Hin as ([k n] & -> & Hin).
    apply list_elem_of_omap in Hin as ([q m] & _ & Hq). cbn [fst] in *. destruct (under a q) eqn:Hu; [|done].
    injection Hq as <- <-. pose proof (moved_under a b q Hu) as Hk. apply (region_below b _ Hb) in Hk. by apply Hp.
Qed.
Lemma path_join_name p name : zoned p -> any_byte (Ascii.eqb slash) name = false -> has_prefix ".nexa-" name = true -> inside (path_join p name).
Proof.
  intros Hp Hn (t & Ht)%has_prefix_spec. apply path_join_zoned; [done|]. split_and!; [..|done]; by rewrite Ht.
Qed.

(** *** System calls *)
(** An operation of the root: a fault, or a change of the entry the path leads to. *)
Lemma confined_at {A} p (k : filetree -> string -> M A) Q : zoned p ->
  (forall q s, region q -> untouched (tree s) (tree (k (tree s) q s).2) /\ forall a, (k (tree s) q s).1 = Ok a -> Q a) ->
  confined (_ ← io; t ← get; q ← lift (locate t p); k t q) Q.
Proof.
  intros Hp Hk. eapply confined_bind; [apply confined_io|]. intros _ _. apply confined_update. intros s.
  destruct (locate (tree s) p) as [q|c] eqn:Hl; [|done]. apply (Hk q s). by eapply located.
Qed.
Lemma confined_linked {A} p (k : filetree -> string -> M A) Q : zoned p ->
  (forall q s, region q -> untouched (tree s) (tree (k (tree s) q s).2) /\ forall a, (k (tree s) q s).1 = Ok a -> Q a) ->
  confined (_ ← io; t ← get; q ← lift (resolve_links t p); k t q) Q.
Proof.
  intros Hp Hk. eapply confined_bind; [apply confined_io|]. intros _ _. apply confined_update. intros s.
  destruct (resolve_links (tree s) p) as [q|c] eqn:Hl; [|done]. apply (Hk q s). by eapply linked.
Qed.
(** Reading changes nothing, wherever the path leads. *)
Ltac reads := let s := fresh "s" in intros s; cbv [io ask lift mbind M_bind mret M_ret get fail]; repeat case_match; simplify_eq/=; done.
Lemma confined_lstat p : confined (lstat locate p) anything.
Proof. unfold lstat. reads. Qed.
Lemma confined_read_file p : confined (read_file resolve_links p) anything.
Proof. unfold read_file. reads. Qed.
Lemma confined_stat p : confined (stat resolve_links p) anything.
Proof. unfold stat. reads. Qed.
Lemma confined_file_size q : confined (file_size q) anything.
Proof. unfold file_size. reads. Qed.
Lemma confined_open_append p : zoned p -> confined (open_append resolve_links p) (fun q => region q).
Proof.
  intros Hp. unfold open_append. apply confined_linked; [done|]. intros q s Hq. destruct (find (tree s) q) as [[]|]; (split; [done|]); by intros a [= <-].
Qed.
Ltac changes := let q := fresh "q" in let s := fresh "s" in let Hq := fresh "Hq" in intros q s Hq; repeat case_match;
  (split; [first [done | by apply untouched_insert | by apply untouched_alter | by apply untouched_delete | by apply untouched_filter]|done]).
Lemma confined_create p n : zoned p -> confined (create locate p n) anything.
Proof. intros Hp. apply confined_at; [done|]. changes. Qed.
Lemma confined_open_exclusive p mode : zoned p -> confined (open_exclusive locate now p mode) anything.
Proof. apply confined_create. Qed.
Lemma confined_mkdir p mode : zoned p -> confined (mkdir locate p mode) anything.
Proof. apply confined_create. Qed.
Lemma confined_chown p : confined (chown p) anything.
Proof. apply confined_io. Qed.
Lemma confined_chmod p mode : zoned p -> confined (chmod locate p mode) anything.
Proof. intros Hp. apply confined_at; [done|]. changes. Qed.
Lemma confined_remove p : zoned p -> confined (remove locate p) anything.
Proof. intros Hp. apply confined_at; [done|]. changes. Qed.
Lemma confined_remove_all p : zoned p -> confined (remove_all locate p) anything.
Proof. intros Hp. apply confined_at; [done|]. changes. Qed.
Lemma confined_rename_to a b : zoned a -> (forall t q, locate t b = Ok q -> region q) -> confined (rename locate a b) anything.
Proof.
  intros Ha Hb. apply confined_at; [done|]. intros q s Hq. destruct (locate (tree s) b) as [r|c] eqn:Hl; [|done].
  apply Hb in Hl. cbv [lift mbind M_bind mret M_ret]. repeat case_match; (split; [first [done|by apply untouched_moved]|done]).
Qed.
Lemma confined_rename a b : zoned a -> zoned b -> confined (rename locate a b) anything.
Proof. intros Ha Hb. apply confined_rename_to; [done|]. intros t q. by apply located. Qed.
Lemma confined_append_at q b : region q -> confined (append_at now q b) anything.
Proof.
  intros Hq. eapply confined_bind; [apply confined_ask|]. intros a _. apply confined_update. intros s.
  destruct a as [|n]; (split; [by apply untouched_alter|done]).
Qed.
Lemma confined_append p b : zoned p -> confined (append locate now p b) anything.
Proof.
  intros Hp. apply confined_update. intros s. destruct (locate (tree s) p) as [q|c] eqn:Hl; [|done]. cbv [lift mbind M_bind mret M_ret].
  apply confined_append_at. by apply (located (tree s) p).
Qed.
Lemma confined_truncate_at q size : region q -> confined (truncate_at now q size) anything.
Proof. intros Hq. eapply confined_bind; [apply confined_io|]. intros _ _. apply confined_update. intros s. split; [by apply untouched_alter|done]. Qed.
Lemma confined_write_file p content mode : zoned p -> confined (write_file resolve_links now p content mode) anything.
Proof.
  intros Hp. unfold write_file. apply confined_linked; [done|]. intros q s Hq.
  assert (Hrest : confined (_ ← append_at now q content; io) anything).
  { eapply confined_bind; [by apply confined_append_at|]. intros _ _. apply confined_io. }
  destruct (find (tree s) q) as [[c m d|m| |]|]; [|by split..|]; [|destruct (dir_at _ _); [|by split] ];
    (apply confined_put; [by apply untouched_insert|done]).
Qed.

(** *** Programs *)
#[local] Hint Resolve confined_io confined_lstat confined_read_file confined_stat confined_file_size confined_create confined_open_exclusive confined_mkdir confined_chown confined_chmod
  confined_remove confined_remove_all confined_rename confined_append_at confined_append confined_truncate_at confined_write_file
  confined_fail confined_check inside_zoned : confined.
Ltac skip := first [by apply confined_ret | by eauto 2 with confined].
Ltac next := eapply confined_bind; [eauto 3 with confined|intros ? _].
(** [attempt], and the branches on its outcome. *)
Lemma confined_try {A B} (m : M A) P Q (k : A + error -> M B) : confined m P ->
  (forall a, P a -> confined (k (inl a)) Q) -> (forall e, confined (k (inr e)) Q) -> confined (r ← attempt m; k r) Q.
Proof. intros Hm Ha He. eapply confined_bind; [by apply confined_attempt|]. intros [a|e] H; [by apply Ha|apply He]. Qed.
Lemma confined_or_discard {A} p (m : M A) Q : zoned p -> confined m Q -> confined (or_discard locate p m) Q.
Proof.
  intros Hp Hm. unfold or_discard. eapply confined_try; [done|by intros; apply confined_ret|]. intros e.
  eapply confined_bind; [by eapply confined_attempt, confined_remove|]. intros ? _. apply confined_fail.
Qed.

Lemma confined_make_directories segments : forall current, Forall plain segments ->
  (zoned current \/ (current = "."%string /\ match segments with [] => True | z :: _ => z ∈ writeZones end)) ->
  confined (make_directories locate current segments) anything.
Proof.
  induction segments as [|name rest IH]; intros current Hs Hc; [by apply confined_ret|]. cbn [make_directories].
  apply Forall_cons in Hs as [Hn Hs]. set (next := path_join current name).
  assert (Hz : zoned next).
  { destruct Hc as [Hc|[-> Hz] ]; [by apply inside_zoned, path_join_zoned|]. apply (zoned_join name []); [by constructor|done]. }
  clearbody next. eapply (confined_try _ anything); [apply confined_lstat|..].
  - intros n _. apply (confined_bind _ _ anything); [|intros ? _; by apply IH; [|left] ]. destruct (is_dir n); skip.
  - intros e. apply (confined_bind _ _ anything); [|intros ? _; by apply IH; [|left] ].
    assert (Hmk : confined (_ ← or_path_error missing_path (mkdir locate next directoryMode); chown next) anything).
    { eapply confined_bind; [by apply confined_or, confined_create|]. intros ? _. apply confined_io. }
    destruct e as [|[]]; first [exact Hmk|apply confined_fail].
Qed.
Lemma confined_makeDirectories p : zoned p -> confined (makeDirectories locate p) anything.
Proof.
  intros (Hp & z & rest & Hs & Hz). unfold makeDirectories. apply confined_make_directories; [done|right]. split; [done|]. by rewrite Hs.
Qed.
Lemma stage_zoned p : inside p -> zoned (stage_name fresh p).
Proof.
  intros Hp. apply inside_zoned, path_join_name; [by apply path_dir_zoned|by rewrite any_byte_app, fresh_plain|].
  apply has_prefix_spec. by exists ("stage-" +:+ fresh).
Qed.
Lemma confined_stageFile p content mode : inside p -> confined (stageFile locate now fresh p content mode) anything.
Proof.
  intros Hp. pose proof (stage_zoned p Hp) as Hs. unfold stageFile. eapply confined_bind; [by apply confined_or, confined_create|]. intros _ _.
  eapply confined_bind; [by apply confined_or_discard; [|apply confined_append]|]. intros _ _.
  do 2 (eapply confined_bind; [by apply confined_or_discard; [|apply confined_io]|]; intros _ _).
  eapply confined_bind; [apply confined_or_discard; [done|]; by apply confined_or, confined_rename; [|apply inside_zoned]|]. intros _ _. apply confined_io.
Qed.
Lemma confined_clean_path raw : confined (clean_path raw) (fun p => CleanRelative raw = Ok p).
Proof. unfold clean_path. destruct (CleanRelative raw); [by apply confined_ret|apply confined_fail]. Qed.
Lemma confined_resolve siteRoot scope raw : confined (resolve siteRoot scope raw) (fun p => CleanRelative raw = Ok p).
Proof.
  unfold resolve. apply (confined_bind _ _ anything); [destruct (Validate _ _); skip|]. intros _ _.
  eapply confined_bind; [apply confined_clean_path|]. intros p Hp. apply (confined_bind _ _ anything).
  { eapply (confined_try _ anything); [apply confined_io|intros; skip|intros; apply confined_fail]. }
  intros _ _. by apply confined_ret.
Qed.
Lemma confined_mutable {A} raw p (m : M A) Q : CleanRelative raw = Ok p -> (inside p -> confined m Q) -> confined (_ ← check (mutable p); m) Q.
Proof. intros Hp Hm. eapply confined_bind; [apply confined_check|]. intros ? Hc. apply Hm. by apply (mutable_inside raw). Qed.
Lemma confined_resolveMutable siteRoot scope raw : confined (resolveMutable siteRoot scope raw) inside.
Proof.
  unfold resolveMutable. eapply confined_bind; [apply confined_resolve|]. intros p Hp. apply (confined_mutable raw); [exact Hp|]. intros ?. by apply confined_ret.
Qed.
Lemma confined_relativeMutable raw : confined (relativeMutable raw) inside.
Proof.
  unfold relativeMutable. eapply confined_bind; [apply confined_clean_path|]. intros p Hp. apply (confined_mutable raw); [exact Hp|]. intros ?. by apply confined_ret.
Qed.
#[local] Hint Resolve confined_makeDirectories confined_stageFile confined_resolveMutable confined_relativeMutable confined_resolve
  stage_zoned confined_or confined_or_discard : confined.

(** A program, one bind and one branch at a time. *)
Ltac confines :=
  intros; lazymatch goal with
  | |- confined (fail _) _ => apply confined_fail
  | |- confined (mret _) _ => first [by apply confined_ret | by apply (confined_ret _ anything)]
  | |- confined (mbind _ (fail _)) _ => apply (confined_bind _ _ anything); confines
  | |- confined (mbind _ (attempt _)) _ => apply (confined_try _ anything); confines
  | |- confined (mbind _ (mbind _ _)) _ => apply (confined_bind _ _ anything); confines
  | |- confined (mbind _ (match _ with _ => _ end)) _ => apply (confined_bind _ _ anything); confines
  | |- confined (mbind _ _) _ =>
      first [ eapply confined_bind; [by eauto 5 with confined|] | apply (confined_bind _ _ anything) ]; confines
  | |- confined (match ?x with _ => _ end) _ => destruct x; confines
  | |- confined _ _ => eauto 5 with confined
  | |- _ => idtac
  end.

Lemma confined_Write siteRoot scope raw content etag :
  confined (Write locate resolve_links sha256hex now fresh siteRoot scope raw content etag) anything.
Proof. unfold Write, compareETag, fileETag. confines. Qed.
Lemma confined_Mkdir siteRoot scope raw : confined (Mkdir locate siteRoot scope raw) anything.
Proof. unfold Mkdir. confines. Qed.
Lemma confined_Move siteRoot scope from to overwrite : confined (Move locate siteRoot scope from to overwrite) anything.
Proof. unfold Move. confines. Qed.
Lemma confined_Chmod siteRoot scope raw mode : confined (Chmod locate siteRoot scope raw mode) anything.
Proof. unfold Chmod. confines. Qed.
Lemma confined_Delete siteRoot scope raw recursive : confined (Delete locate siteRoot scope raw recursive) anything.
Proof. unfold Delete. confines. Qed.

Lemma tmp_zoned : zoned "tmp".
Proof. apply (zoned_join "tmp" []); [by repeat constructor|]. unfold writeZones. set_solver. Qed.
Lemma upload_zoned id : any_byte (Ascii.eqb slash) id = false -> zoned (uploadPrefix +:+ id) /\ zoned ((uploadPrefix +:+ id) +:+ ".meta").
Proof.
  intros Hid. rewrite str_app_assoc. change uploadPrefix with ("tmp" +:+ "/" +:+ ".nexa-upload-"). rewrite !str_app_assoc.
  assert (H : forall x, any_byte (Ascii.eqb slash) x = false -> zoned ("tmp" +:+ "/" +:+ ".nexa-upload-" +:+ x)).
  { intros x Hx. apply inside_zoned, (path_join_name "tmp"); [apply tmp_zoned|by rewrite any_byte_app, Hx|].
    apply has_prefix_spec. by exists ("upload-" +:+ x). }
  split; apply H; [done|]. by rewrite any_byte_app, Hid.
Qed.
Lemma upload_id_plain id : negb (matches uploadIDPattern id) = false -> any_byte (Ascii.eqb slash) id = false.
Proof.
  rewrite negb_false_iff. intros H. apply hex_no_slash. eapply matches_bytes; [|exact H]. apply forall_ascii. by vm_compute.
Qed.
Lemma base_plain directory p : listed directory p = true -> plain (path_base p).
Proof.
  unfold listed. rewrite andb_true_iff, negb_true_iff, bool_decide_eq_false. intros [_ Hn].
  split_and!; [intros He; apply Hn; rewrite He; unfold no_names; eauto using list_elem_of_here, list_elem_of_further..|].
  unfold path_base. pose proof (split_no_slash slash p) as Hs. destruct (exists_last (split_not_nil slash p)) as (l & c & He). rewrite He in *.
  rewrite last_last. by apply Forall_app in Hs as [_ [? _]%Forall_cons].
Qed.
Lemma children_plain t directory : Forall plain (children t directory).
Proof.
  apply Forall_forall. intros name ([p n] & _ & Hp)%list_elem_of_omap. cbn [fst] in Hp. destruct (listed directory p) eqn:Hl; [|done].
  injection Hp as <-. by apply (base_plain directory).
Qed.

Lemma confined_read_dir p : confined (read_dir resolve_links p) (fun r => Forall plain r.2).
Proof.
  intros s. unfold read_dir. cbv [io ask lift mbind M_bind mret M_ret get fail]. repeat case_match; simplify_eq/=; (split; [done|]); try done;
    intros a [= <-]; apply children_plain.
Qed.
Lemma confined_clean_stale directory l : Forall plain l -> confined (clean_stale locate now time_of directory l) anything.
Proof.
  induction l as [|name l IH]; intros Hl; [by apply confined_ret|]. apply Forall_cons in Hl as [Hn Hl]. cbn [clean_stale].
  apply (confined_bind _ _ anything); [|intros; by apply IH]. destruct (negb _); [by apply confined_ret|].
  apply (confined_try _ anything); [apply confined_io|intros|intros; eapply confined_bind; [by apply (confined_get anything)|intros; by apply (confined_ret _ anything)] ].
  eapply confined_bind; [by apply (confined_get anything)|]. intros t _. destruct (find _ _); [|by apply (confined_ret _ anything)].
  destruct (_ <? _); [|by apply (confined_ret _ anything)].
  apply (confined_try _ anything); [|intros; by apply (confined_ret _ anything)..].
  apply confined_remove, inside_zoned, (path_join_zoned "tmp"); [apply tmp_zoned|done].
Qed.
Lemma confined_cleanStaleUploads : confined (cleanStaleUploads locate resolve_links now time_of) anything.
Proof.
  unfold cleanStaleUploads. eapply confined_try; [apply confined_read_dir|intros [directory names] H; by apply confined_clean_stale|].
  intros. by apply (confined_ret _ anything).
Qed.
Lemma confined_checkUploadTarget p overwrite : confined (checkUploadTarget locate p overwrite) anything.
Proof. unfold checkUploadTarget. confines. Qed.
#[local] Hint Resolve confined_cleanStaleUploads confined_checkUploadTarget confined_open_append tmp_zoned : confined.
Lemma confined_UploadBegin siteRoot scope raw size overwrite :
  confined (UploadBegin locate resolve_links now fresh time_of encode_meta siteRoot scope raw size overwrite) anything.
Proof. destruct (upload_zoned fresh fresh_plain) as [Hz Hm]. unfold UploadBegin. confines. Qed.
Lemma confined_open_upload p : zoned p -> confined (open_upload resolve_links p) (fun q => region q).
Proof.
  intros Hp. unfold open_upload. eapply confined_try; [by apply confined_open_append|intros; by apply confined_ret|intros; apply confined_fail].
Qed.
Lemma confined_loadUpload id : confined (loadUpload resolve_links decode_meta id)
  (fun r => r.1 = uploadPrefix +:+ id /\ zoned r.1 /\ zoned (r.1 +:+ ".meta")).
Proof.
  unfold loadUpload. destruct (negb _) eqn:Hid; [apply confined_fail|]. apply upload_id_plain, upload_zoned in Hid as [H K].
  apply (confined_try _ anything); [apply confined_read_file|intros c _|intros; apply confined_fail].
  destruct (decode_meta c); [|apply confined_fail]. by apply confined_ret.
Qed.
#[local] Hint Resolve confined_open_upload : confined.
Lemma confined_UploadChunk siteRoot scope id offset body :
  confined (UploadChunk resolve_links now decode_meta siteRoot scope id offset body) anything.
Proof.
  unfold UploadChunk. eapply confined_bind; [apply confined_resolve|]. intros ? _. eapply confined_bind; [apply confined_loadUpload|].
  intros [staging meta] (_ & Hz & _). cbn [fst] in Hz. confines.
Qed.
Lemma confined_UploadAbort siteRoot scope id : confined (UploadAbort locate siteRoot scope id) anything.
Proof.
  unfold UploadAbort, remove_present. eapply confined_bind; [apply confined_resolve|]. intros ? _.
  destruct (negb _) eqn:Hid; [apply confined_fail|]. apply upload_id_plain, upload_zoned in Hid as [H K]. confines.
Qed.

(** The target that the record of an upload names. *)
Definition recorded (id : string) (t : filetree) (target : string) : Prop :=
  exists l r s', loadUpload resolve_links decode_meta id (mk_site t l) = (Ok r, s') /\ up_Target r.2 = target.
Lemma reads_tree {A} (m : M A) (Q : A -> Prop) : confined m Q -> forall s, untouched (tree s) (tree (m s).2).
Proof. intros H s. apply H. Qed.
Lemma loadUpload_tree id s : tree (loadUpload resolve_links decode_meta id s).2 = tree s.
Proof. unfold loadUpload, read_file. cbv [io ask lift mbind M_bind mret M_ret get fail attempt]. repeat case_match; by simplify_eq/=. Qed.
Lemma resolve_tree siteRoot scope raw s : tree (resolve siteRoot scope raw s).2 = tree s.
Proof. unfold resolve, open_root, clean_path. cbv [io ask mbind M_bind mret M_ret fail attempt]. repeat case_match; by simplify_eq/=. Qed.
Lemma confined_UploadCommit siteRoot scope id s : (forall target t q, recorded id (tree s) target -> locate t target = Ok q -> region q) ->
  untouched (tree s) (tree (UploadCommit locate resolve_links decode_meta siteRoot scope id s).2).
Proof.
  intros Hr. unfold UploadCommit. pose proof (resolve_tree siteRoot scope "." s) as Ht.
  unfold mbind at 1, M_bind at 1. destruct (resolve siteRoot scope "." s) as [[x|e] s1]; cbn [snd] in Ht; rewrite <-Ht in *; [|done].
  pose proof (loadUpload_tree id s1) as Hl. destruct (confined_loadUpload id s1) as [_ Hz]. unfold mbind at 1, M_bind at 1.
  destruct (loadUpload resolve_links decode_meta id s1) as [[ [staging meta]|e] s2] eqn:Hload; cbn [snd] in Hl; rewrite <-Hl in *; [|done].
  destruct (Hz _ eq_refl) as (_ & Hs & Hm). cbn [fst snd] in Hs, Hm. destruct s1 as [t l]. cbn in Hl. subst t.
  assert (Hto : forall u q, locate u (up_Target meta) = Ok q -> region q) by (intros u q; apply Hr; by exists l, (staging, meta), s2).
  clear Hz Hload. apply (reads_tree _ anything). eapply confined_bind; [apply confined_check|]. intros u _.
  assert (Hmove : confined (rename locate staging (up_Target meta)) anything) by (by apply confined_rename_to). confines.
Qed.

Lemma confined_spend r : confined (spend r) anything.
Proof. destruct r; [by apply confined_ret|apply confined_fail]. Qed.
Lemma confined_writeExtracted p body broken declared perm : inside p -> confined (writeExtracted locate now p body broken declared perm) anything.
Proof.
  intros Hp. unfold writeExtracted. destruct (_ <? _); [apply confined_fail|]. pose proof (path_dir_zoned p Hp). confines.
  all: apply confined_or_discard; [by apply inside_zoned|]; first [apply confined_append, inside_zoned, Hp|confines].
Qed.
Lemma member_inside targetDir name p : inside targetDir -> member_path targetDir name = Some p -> inside p.
Proof.
  unfold member_path. intros Ht. destruct (CleanRelative name) as [c|e] eqn:Hc; [|done]. destruct (String.eqb_spec c "."); [done|]. intros [= <-].
  apply clean_contained in Hc; [|done]. unfold inside, path_join. destruct Ht as (Hp & z & d & rest & Hs & Hz).
  assert (Hd : String.eqb targetDir "." = false) by (apply String.eqb_neq; intros ->; by vm_compute in Hs).
  rewrite Hd. assert (Hsplit : split slash (targetDir +:+ "/" +:+ c) = z :: d :: rest ++ split slash c).
  { rewrite <-(join_split targetDir), Hs. clear -Hp Hs. unfold contained in Hp. rewrite Hs in Hp. revert Hp. clear.
    assert (H : forall l a, Forall plain (a :: l) -> split slash (join "/" (a :: l) +:+ "/" +:+ c) = (a :: l) ++ split slash c).
    { induction l as [|b l IH]; intros a [Ha Hl]%Forall_cons; [apply split_app, Ha|].
      change (join "/" (a :: b :: l)) with (a +:+ String slash (join "/" (b :: l))). rewrite str_app_assoc.
      change (String slash ?x +:+ ?y) with (String slash (x +:+ y)). rewrite split_app by apply Ha. by rewrite IH. }
    intros Hp. by rewrite H. }
  unfold contained in *. rewrite Hsplit. rewrite Hs in Hp. split; [|by exists z, d, (rest ++ split slash c)].
  change (z :: d :: rest ++ ?x) with ((z :: d :: rest) ++ x). by apply Forall_app.
Qed.
#[local] Hint Resolve confined_spend confined_writeExtracted : confined.
Lemma confined_extract_directory p b r : inside p -> confined (extract_directory locate p b r) anything.
Proof. intros Hp. unfold extract_directory. confines. Qed.
Lemma confined_extract_file p body broken opens declared perm b r : inside p ->
  confined (extract_file locate now p body broken opens declared perm b r) anything.
Proof. intros Hp. unfold extract_file. confines. Qed.
#[local] Hint Resolve confined_extract_directory confined_extract_file : confined.
Lemma confined_extractTar targetDir l : inside targetDir -> forall b r, confined (extractTar locate now targetDir b r l) anything.
Proof.
  intros Ht. induction l as [|[header|] l IH]; intros b r; cbn [extractTar]; [by apply (confined_ret _ anything)| |apply confined_fail].
  destruct (member_path targetDir _) as [p|] eqn:Hp; [|apply IH]. apply (member_inside _ _ _ Ht) in Hp.
  apply (confined_bind _ _ anything); [confines|]. intros [b' r'] _. apply IH.
Qed.
Lemma confined_extractZip targetDir l : inside targetDir -> forall b r, confined (extractZip locate now targetDir b r l) anything.
Proof.
  intros Ht. induction l as [|entry l IH]; intros b r; cbn [extractZip]; [by apply (confined_ret _ anything)|].
  destruct (member_path targetDir _) as [p|] eqn:Hp; [|apply IH]. apply (member_inside _ _ _ Ht) in Hp.
  apply (confined_bind _ _ anything); [confines|]. intros [b' r'] _. apply IH.
Qed.
Lemma confined_openRegular p : confined (openRegular resolve_links p) anything.
Proof.
  unfold openRegular. eapply confined_bind; [apply confined_or, confined_stat|]. intros [c m d|m| |] _; try apply confined_fail.
  eapply confined_bind; [apply confined_or, confined_io|]. intros ? _. confines.
Qed.
#[local] Hint Resolve confined_openRegular confined_extractTar confined_extractZip : confined.
Lemma confined_Extract siteRoot scope raw target : confined (Extract locate resolve_links now read_tar read_zip siteRoot scope raw target) anything.
Proof. unfold Extract. confines. Qed.

Lemma confined_copyFile from to content mode b r : inside to -> confined (copyFile locate resolve_links now fresh from to content mode b r) anything.
Proof. intros Hp. unfold copyFile. confines. Qed.
Lemma confined_copy_children copy directory from to l : (forall from to b r, inside to -> confined (copy from to b r) anything) ->
  inside to -> Forall plain l -> forall b r, confined (copy_children locate resolve_links now fresh copy directory from to b r l) anything.
Proof.
  intros Hcopy Hto. induction l as [|name l IH]; intros Hl b r; [by apply (confined_ret _ anything)|]. apply Forall_cons in Hl as [Hn Hl].
  cbn [copy_children]. assert (Hc : inside (path_join to name)) by (by apply path_join_zoned; [apply inside_zoned|]).
  apply (confined_try _ anything); [apply confined_io|intros ? _|intros e]; (eapply confined_bind; [by apply (confined_get anything)|]; intros t _);
    (apply (confined_bind _ _ anything); [|intros [b' r'] _; by apply IH]).
  - destruct (find _ _) as [ [] |]; first [by apply confined_copyFile|by apply Hcopy|by apply (confined_ret _ anything)].
  - by apply (confined_ret _ anything).
Qed.
Lemma confined_copyTree fuel : forall from to b r, inside to -> confined (copyTree locate resolve_links now fresh fuel from to b r) anything.
Proof.
  induction fuel as [|fuel IH]; intros from to b r Hto; cbn [copyTree]; [apply confined_fail|].
  eapply confined_bind; [apply confined_spend|]. intros b' _. eapply confined_bind; [apply confined_or, confined_mkdir, inside_zoned, Hto|]. intros ? _.
  eapply confined_bind; [apply confined_chown|]. intros ? _. eapply confined_bind; [apply confined_or, confined_read_dir|].
  intros [directory l] Hl. apply confined_copy_children; [done..|]. by rewrite (sort_strings_perm l).
Qed.
#[local] Hint Resolve confined_copyFile confined_copyTree : confined.
Lemma confined_Copy siteRoot scope from to : confined (Copy locate resolve_links now fresh siteRoot scope from to) anything.
Proof. unfold Copy. confines. Qed.

Lemma confined_archive_children archive directory source l : (forall p b r, confined (archive p b r) anything) ->
  forall b r, confined (archive_children archive directory source b r l) anything.
Proof.
  intros Ha. induction l as [|name l IH]; intros b r; cbn [archive_children]; [by apply (confined_ret _ anything)|].
  apply (confined_bind _ _ anything); [|intros [b' r'] _; apply IH]. destruct (has_prefix _ _); [by apply (confined_ret _ anything)|].
  apply (confined_try _ anything); [apply confined_io|intros ? _|intros e]; (eapply confined_bind; [by apply (confined_get anything)|]; intros t _);
    [destruct (find _ _) as [ [] |]; first [apply Ha|by apply (confined_ret _ anything)]|by apply (confined_ret _ anything)].
Qed.
Lemma confined_archiveTree fuel : forall named source b r, confined (archiveTree locate resolve_links fuel named source b r) anything.
Proof.
  induction fuel as [|fuel IH]; intros named source b r; cbn [archiveTree]; [apply confined_fail|].
  eapply confined_bind; [apply confined_or, confined_lstat|]. intros [c m d|m| |] _; [unfold archiveFile; confines| |destruct named; confines..].
  eapply confined_bind; [apply confined_spend|]. intros b' _. eapply confined_bind; [apply confined_io|]. intros ? _.
  eapply confined_bind; [apply confined_read_dir|]. intros [directory l] _. by apply confined_archive_children.
Qed.
Lemma confined_archive_sources l : forall b r, confined (archive_sources locate resolve_links l b r) anything.
Proof.
  induction l as [|source l IH]; intros b r; cbn [archive_sources]; [by apply (confined_ret _ anything)|].
  eapply confined_bind; [apply confined_archiveTree|]. intros [b' r'] _. apply IH.
Qed.
Lemma confined_checked_sources l : confined (checked_sources locate l) anything.
Proof. induction l as [|raw l IH]; cbn [checked_sources]; [by apply (confined_ret _ anything)|]. unfold clean_path. confines. Qed.
#[local] Hint Resolve confined_archive_sources confined_checked_sources : confined.
Lemma confined_Archive siteRoot scope raws target : confined (Archive locate resolve_links now fresh tar_gz siteRoot scope raws target) anything.
Proof.
  unfold Archive. confines.
  all: apply confined_or_discard, confined_or, confined_rename; auto using stage_zoned, inside_zoned.
Qed.

End zones.

(** The requests of a client that change a site. *)
Inductive request :=
| SaveFile (raw content etag : string)
| MakeDirectory (raw : string)
| MoveEntry (from to : string) (overwrite : bool)
| CopyEntry (from to : string)
| ChangeMode (raw mode : string)
| DeleteEntry (raw : string) (recursive : bool)
| BeginUpload (raw : string) (size : Z) (overwrite : bool)
| SendChunk (id : string) (offset : Z) (body : string)
| CommitUpload (id : string)
| AbortUpload (id : string)
| ExtractArchive (raw target : string)
| MakeArchive (raws : list string) (target : string).
Definition after {A} (m : M A) (s : site) : filetree := tree (m s).2.
Definition perform (siteRoot : string) (scope : Scope) (r : request) (s : site) : filetree :=
  match r with
  | SaveFile raw content etag => after (Write locate resolve_links sha256hex now fresh siteRoot scope raw content etag) s
  | MakeDirectory raw => after (Mkdir locate siteRoot scope raw) s
  | MoveEntry from to overwrite => after (Move locate siteRoot scope from to overwrite) s
  | CopyEntry from to => after (Copy locate resolve_links now fresh siteRoot scope from to) s
  | ChangeMode raw mode => after (Chmod locate siteRoot scope raw mode) s
  | DeleteEntry raw recursive => after (Delete locate siteRoot scope raw recursive) s
  | BeginUpload raw size overwrite => after (UploadBegin locate resolve_links now fresh time_of encode_meta siteRoot scope raw size overwrite) s
  | SendChunk id offset body => after (UploadChunk resolve_links now decode_meta siteRoot scope id offset body) s
  | CommitUpload id => after (UploadCommit locate resolve_links decode_meta siteRoot scope id) s
  | AbortUpload id => after (UploadAbort locate siteRoot scope id) s
  | ExtractArchive raw target => after (Extract locate resolve_links now read_tar read_zip siteRoot scope raw target) s
  | MakeArchive raws target => after (Archive locate resolve_links now fresh tar_gz siteRoot scope raws target) s
  end.

(** The target that a commit takes from the record of its upload. *)
Definition named (r : request) (t : filetree) (p : string) : Prop :=
  match r with CommitUpload id => recorded id t p | _ => False end.
(** Where [os.Root] leads from a path of a write zone, or from the target of a record, and
    what is below. *)
Definition reached (r : request) (t : filetree) (p : string) : Prop :=
  exists u q place, (zoned q \/ named r t q) /\ (locate u q = Ok place \/ resolve_links u q = Ok place) /\ under place p = true.

Lemma reached_place r t u q place : zoned q \/ named r t q -> locate u q = Ok place \/ resolve_links u q = Ok place -> reached r t place.
Proof. intros Hq Hp. exists u, q, place. split_and!; [done..|]. apply under_spec. by left. Qed.

Lemma perform_reached siteRoot scope r s : untouched (reached r (tree s)) (tree s) (perform siteRoot scope r s).
Proof.
  set (R := reached r (tree s)).
  assert (Hb : forall q p, R q -> under q p = true -> R p).
  { intros q p (u & x & place & Hx & Hl & Hq) Hp. exists u, x, place. split_and!; [done..|]. by eapply under_transitive. }
  assert (Hl : forall t p q, zoned p -> locate t p = Ok q -> R q) by (intros t p q Hp Hq; by apply (reached_place r (tree s) t p q); left).
  assert (Hk : forall t p q, zoned p -> resolve_links t p = Ok q -> R q) by (intros t p q Hp Hq; apply (reached_place r (tree s) t p q); [by left|by right]).
  assert (Hn : forall target t q, named r (tree s) target -> locate t target = Ok q -> R q) by (intros target t q Hp Hq; apply (reached_place r (tree s) t target q); [by right|by left]).
  clearbody R. destruct r; cbn [perform named] in *; unfold after; first [by apply confined_UploadCommit|apply (reads_tree R _ (fun _ => True))];
    auto using confined_Write, confined_Mkdir, confined_Move, confined_Copy, confined_Chmod, confined_Delete, confined_UploadBegin,
      confined_UploadChunk, confined_UploadAbort, confined_Extract, confined_Archive.
Qed.

(** C12. Whatever a client asks, and whichever system calls fail, an entry changes only
    where [os.Root] leads from a path whose first component is [public], [private], [tmp]
    or [backups], or below that place; a commit also works on the target that the record
    of its upload names.  Neither the directories of a save or an extraction, nor staged
    files, nor the removals of a failed step are elsewhere.  So where no symbolic link
    below a zone leads out of the zones, and the record of a committed upload still
    leads into them, no entry outside of the zones changes. *)
Theorem files_zone_confined siteRoot scope r s :
  (forall p, ~ reached r (tree s) p -> perform siteRoot scope r s !! p = tree s !! p) /\
  ((forall t q place, zoned q \/ named r (tree s) q -> locate t q = Ok place \/ resolve_links t q = Ok place -> zone place = true) ->
   forall p, zone p = false -> perform siteRoot scope r s !! p = tree s !! p).
Proof.
  pose proof (perform_reached siteRoot scope r s) as H. split; [exact H|]. intros Hz p Hp. apply H.
  intros (u & q & place & Hq & Hl & Hu). apply (zone_under place) in Hu; [congruence|by eapply Hz].
Qed.
End host.

Module FileSamples.
(** A tree without links, and stand-ins for the hash and the encoding of records. *)
Definition here (t : filetree) (p : string) : result cause string := Ok p.
Definition toy_encode (m : uploadMeta) : string := up_Target m +:+ "!" +:+ itoa (up_Size m).
Definition site_scope : Scope := mk_scope "site-1" "shop" "/srv/sites/shop" (SiteUnixUser "shop").
Definition before : filetree := <["public" := Dir 488]> (<["logs" := Dir 488]> (<["logs/access.log" := File "GET /" 384 7]> ∅)).
Definition toy_decode (target : string) (size : Z) (s : string) : option uploadMeta :=
  if String.eqb s (toy_encode (mk_meta target size false 0)) then Some (mk_meta target size false 0) else None.

Lemma files_zone_confined_witness :
  perform here here (fun s => s) 100 "00112233445566778899aabbccddeeff" (fun _ _ => 0) toy_encode (toy_decode "public/a" 3) (fun _ => None) (fun _ => None) (fun _ => EmptyString)
    "/srv/sites" site_scope (SaveFile "public/index.html" "<h1>" EmptyString) (mk_site before []) !! "logs/access.log"%string
  = Some (File "GET /" 384 7).
Proof.
  rewrite (proj2 (files_zone_confined here here (fun s => s) 100 "00112233445566778899aabbccddeeff" (fun _ _ => 0) toy_encode (toy_decode "public/a" 3)
    (fun _ => None) (fun _ => None) (fun _ => EmptyString) eq_refl "/srv/sites" site_scope (SaveFile "public/index.html" "<h1>" EmptyString) (mk_site before []))); [reflexivity|..].
  - intros t q place [Hq|[] ] [[= <-]|[= <-] ]; by apply zoned_zone.
  - reflexivity.
Defined.
End FileSamples.
