(* ===== verification/FilesUploads.v ===== *)
(** * What is saved, uploaded and extracted

    Where no symbolic link is involved: an upload in chunks leaves exactly the bytes the
    client has, saving compares and swaps, and copies and extractions grow the site by no
    more than their budget.  The triples speak of the tree only, so that they hold
    whichever system calls fail. *)

From Stdlib Require Import Ascii.
From S2P Require Import Prelude GoStrings Regex Naming Sites SiteFs Files FilesProps.

Local Open Scope Z_scope.

(** ** Triples over trees *)
Definition triple {A} (P : filetree -> Prop) (m : M A) (Q : A -> filetree -> Prop) (E : error -> filetree -> Prop) : Prop :=
  forall s, P (tree s) -> match m s with (Ok a, s') => Q a (tree s') | (Err e, s') => E e (tree s') end.

Lemma triple_bind {A B} P (m : M A) R (k : A -> M B) Q E :
  triple P m R E -> (forall a, triple (R a) (k a) Q E) -> triple P (a ← m; k a) Q E.
Proof.
  intros Hm Hk s Hs. specialize (Hm s Hs). unfold mbind, M_bind. destruct (m s) as [[a|e] s']; [by apply Hk|done].
Qed.
Lemma triple_ret {A} (a : A) (Q : A -> filetree -> Prop) E : triple (Q a) (mret a) Q E.
Proof. by intros s. Qed.
Lemma triple_fail {A} e (Q : A -> filetree -> Prop) (E : error -> filetree -> Prop) : triple (E e) (fail e) Q E.
Proof. by intros s. Qed.
Lemma triple_get {B} P (k : filetree -> M B) Q E : (forall t, P t -> triple (fun u => u = t) (k t) Q E) -> triple P (t ← get; k t) Q E.
Proof. intros H s Hs. by apply (H (tree s) Hs s). Qed.
Lemma triple_put (t : filetree) (Q : unit -> filetree -> Prop) E : triple (fun _ => Q tt t) (put t) Q E.
Proof. by intros s. Qed.
Lemma triple_io P : triple P io (fun _ => P) (fun e t => P t /\ e = System IOError).
Proof. intros [t [|[|n] l] ] Hs; by cbn. Qed.
Lemma triple_ask P E : triple P ask (fun _ => P) E.
Proof. by intros s. Qed.
Lemma triple_pure {A} (p : Prop) P (m : M A) Q E : (p -> triple P m Q E) -> triple (fun t => p /\ P t) m Q E.
Proof. intros H s [Hp Hs]. by apply H. Qed.
Lemma triple_fact {A} (p : Prop) (m : M A) Q E : (p -> triple (fun _ => True) m Q E) -> triple (fun _ => p) m Q E.
Proof. intros H s Hp. by apply H. Qed.
Lemma triple_conseq {A} P P' (m : M A) Q Q' E E' : triple P' m Q' E' -> (forall t, P t -> P' t) ->
  (forall a t, Q' a t -> Q a t) -> (forall e t, E' e t -> E e t) -> triple P m Q E.
Proof. intros H HP HQ HE s Hs. specialize (H s (HP _ Hs)). destruct (m s) as [[a|e] s']; auto. Qed.
Lemma triple_attempt {A} P (m : M A) Q E E' : triple P m Q E ->
  triple P (attempt m) (fun r t => match r with inl a => Q a t | inr e => E e t end) E'.
Proof. intros H s Hs. specialize (H s Hs). unfold attempt. by destruct (m s) as [[a|e] s']. Qed.
Lemma triple_or {A} P missing (m : M A) Q (E : error -> filetree -> Prop) : triple P m Q (fun e => E (pathError e missing)) -> triple P (or_path_error missing m) Q E.
Proof. intros H s Hs. specialize (H s Hs). unfold or_path_error. by destruct (m s) as [[a|e] s']. Qed.
Lemma triple_check P (r : result error unit) (E : error -> filetree -> Prop) : (forall e t, r = Err e -> P t -> E e t) ->
  triple P (check r) (fun _ t => r = Ok tt /\ P t) E.
Proof. destruct r as [[]|e]; intros H s Hs; cbn; auto. Qed.

(** A step that leaves the tree as it was when it fails. *)
Lemma triple_step {A B} P P' (m : M A) R (k : A -> M B) Q E : triple P m R (fun _ => P') ->
  (forall e t, P' t -> E e t) -> (forall a, triple (R a) (k a) Q E) -> triple P (a ← m; k a) Q E.
Proof. intros Hm HE. apply triple_bind. eapply triple_conseq; [exact Hm|done..]. Qed.

(** A tree without symbolic links on the way: every path leads to itself. *)
Definition here (t : filetree) (p : string) : result cause string := Ok p.

(** Programs that change nothing. *)
Definition silent {A} (m : M A) : Prop := forall s, tree (m s).2 = tree s.
Lemma triple_silent {A} P (m : M A) : silent m -> triple P m (fun _ => P) (fun _ => P).
Proof. intros H s Hs. specialize (H s). destruct (m s) as [[a|e] s']; cbn [snd] in H; by rewrite H. Qed.
Lemma silent_resolve siteRoot scope raw : silent (resolve siteRoot scope raw).
Proof. intros s. apply resolve_tree. Qed.

(** Running a program from a given site. *)
Ltac run := cbv [triple io ask lift mbind M_bind mret M_ret get put fail check here]; cbn [tree answers head tail default id fst snd].
(** Reading an entry. *)
Lemma triple_lstat P p : (forall t, P t -> p <> "."%string) -> triple P (lstat here p)
  (fun n t => t !! p = Some n /\ P t) (fun e t => P t /\ (e = System NotExist -> t !! p = None)).
Proof.
  intros Hp [t [|[|n] l] ] Hs; [..|done]; pose proof (Hp _ Hs) as Hd; apply String.eqb_neq in Hd;
    unfold lstat; run; unfold find; rewrite Hd; destruct (t !! p) eqn:Ht; done.
Qed.

Lemma take_bytes_all n s : len (take_bytes n s) <? len s = false -> take_bytes n s = s.
Proof.
  rewrite Z.ltb_ge. intros H. pose proof (take_drop_bytes n s) as Ht. rewrite <-Ht in H at 1. rewrite len_app in H.
  destruct (drop_bytes n s) as [|c u]; [by rewrite str_app_nil_r in Ht|]. unfold len in H. cbn [String.length] in H. lia.
Qed.
Lemma take_bytes_bound n s : len (take_bytes n s) <= Z.of_nat n.
Proof.
  unfold len. revert s. induction n as [|n IH]; intros [|c s]; cbn [take_bytes String.length]; [lia..|]. specialize (IH s). lia.
Qed.

(** [s] is the beginning of [data]. *)
Definition begins (s data : string) : Prop := exists u, data = s +:+ u.
Lemma begins_refl s : begins s s.
Proof. exists EmptyString. by rewrite str_app_nil_r. Qed.
Lemma begins_take n s data : begins s data -> begins (take_bytes n s) data.
Proof. intros [u ->]. exists (drop_bytes n s +:+ u). by rewrite <-str_app_assoc, take_drop_bytes. Qed.
Lemma begins_more c b data : begins c data -> begins b (drop_bytes (String.length c) data) -> begins (c +:+ b) data.
Proof. intros [u ->] [v Hv]. rewrite (proj2 (take_drop_bytes_app c u)) in Hv. exists v. by rewrite Hv, str_app_assoc. Qed.
Lemma begins_whole c data : begins c data -> len c = len data -> c = data.
Proof.
  intros [u ->]. rewrite len_app. unfold len. destruct u as [|a u]; [by rewrite str_app_nil_r|]. cbn [String.length]. lia.
Qed.

(** ** Replacing an entry *)
Definition is_file (c : string) (n : option node) : Prop := exists mode modified, n = Some (File c mode modified).
Lemma moved_lookup a b t n : t !! a = Some n -> moved a b t !! b = Some n.
Proof.
  intros Ha. unfold moved. apply lookup_union_Some_l. apply elem_of_list_to_map_1'.
  - intros m Hm. apply list_elem_of_omap in Hm as ([p k] & Hp & Hk). cbn [fst snd] in Hk. destruct (under a p) eqn:Hu; [|done].
    injection Hk as Hb <-. apply elem_of_map_to_list in Hp. apply under_spec in Hu as [->|[u ->] ]; [congruence|].
    rewrite (proj2 (take_drop_bytes_app a ("/" +:+ u))) in Hb. rewrite <-(str_app_nil_r b) in Hb at 2. by apply str_app_inj_l in Hb.
  - apply list_elem_of_omap. exists (a, n). split; [by apply elem_of_map_to_list|]. cbn [fst snd].
    assert (Hu : under a a = true) by (apply under_spec; by left). rewrite Hu.
    pose proof (proj2 (take_drop_bytes_app a EmptyString)) as Hd. rewrite str_app_nil_r in Hd. by rewrite Hd, str_app_nil_r.
Qed.
Lemma triple_rename p q c mode old : p <> "."%string ->
  triple (fun t => (exists modified, t !! p = Some (File c mode modified)) /\ t !! q = old) (rename here p q)
    (fun _ t => exists modified, t !! q = Some (File c mode modified)) (fun _ t => t !! q = old).
Proof.
  intros Hd%String.eqb_neq [t [|[|n] l] ] [ (d & Hs) Ht]; [..|done]; cbn [tree] in *; unfold rename; run; unfold find at 1;
    rewrite Hd, Hs; run; (destruct (negb _); [done|]); repeat case_match; simplify_eq/=; try done; exists d; by apply moved_lookup.
Qed.

(** ** Uploads *)
Section upload.
Context (now : Z) (fresh : string) (time_of : filetree -> string -> Z).
Context (encode_meta : uploadMeta -> string) (decode_meta : string -> option uploadMeta).
Context (siteRoot : string) (scope : Scope) (id : string) (meta : uploadMeta).
Notation staging := (uploadPrefix +:+ id).
Notation record_path := (staging +:+ ".meta").

(** The upload has received [c]. *)
Definition received (c : string) (t : filetree) : Prop :=
  is_file c (t !! staging) /\ exists e, is_file e (t !! record_path) /\ decode_meta e = Some meta.

Lemma staging_dot p : (uploadPrefix +:+ p) <> "."%string.
Proof. done. Qed.
Lemma staging_record : staging <> record_path.
Proof. intros H. assert (K : len staging = len record_path) by (by rewrite <-H). rewrite (len_app staging ".meta") in K. change (len ".meta") with 5 in K. lia. Qed.

Lemma triple_read_file P p c : p <> "."%string -> (forall t, P t -> is_file c (t !! p)) ->
  triple P (read_file here p) (fun x t => x = c /\ P t) (fun _ => P).
Proof.
  intros Hd Hp [t [|[|n] l] ] Hs; [..|done]; destruct (Hp _ Hs) as (m & d & Ht); apply String.eqb_neq in Hd; cbn [tree] in Ht;
    unfold read_file; run; unfold find; rewrite Hd, Ht; done.
Qed.
Lemma triple_open_upload P c : (forall t, P t -> is_file c (t !! staging)) ->
  triple P (open_upload here staging) (fun q t => q = staging /\ P t) (fun _ => P).
Proof.
  intros Hp [t [|[|n] l] ] Hs; [..|done]; destruct (Hp _ Hs) as (m & d & Ht); cbn [tree] in Ht;
    unfold open_upload, open_append, attempt; run; unfold find; change (String.eqb staging ".") with false; cbn match; rewrite Ht; done.
Qed.
Lemma triple_file_size P c : (forall t, P t -> is_file c (t !! staging)) ->
  triple P (file_size staging) (fun n t => n = len c /\ P t) (fun _ => P).
Proof.
  intros Hp [t [|[|n] l] ] Hs; [..|done]; destruct (Hp _ Hs) as (m & d & Ht); cbn [tree] in Ht;
    unfold file_size; run; unfold find; change (String.eqb staging ".") with false; cbn match; rewrite Ht; done.
Qed.
Lemma triple_loadUpload c (P : filetree -> Prop) : (forall t, P t -> received c t) ->
  triple P (loadUpload here decode_meta id) (fun r t => r = (staging, meta) /\ P t) (fun _ => P).
Proof.
  intros HP [t l] Hs. unfold loadUpload. destruct (negb _); [done|]. destruct (HP _ Hs) as (_ & e & Hf & He). cbn [tree] in Hf.
  destruct Hf as (m & d & Hf). destruct l as [|[|n] l]; unfold read_file, attempt; run; unfold find;
    change (String.eqb record_path ".") with false; cbn match; rewrite ?Hf; run; rewrite ?He; done.
Qed.
Lemma received_alter f c c' t : (forall m d, is_file c' (Some (f (File c m d)))) -> received c t -> received c' (alter f staging t).
Proof.
  intros Hf ((m & d & Hs) & e & He & Hd). split; [rewrite lookup_alter_eq, Hs; apply Hf|]. exists e. split; [|done].
  rewrite lookup_alter_ne; [done|]. apply staging_record.
Qed.
Lemma triple_append b c : triple (received c) (append_at now staging b)
  (fun _ => received (c +:+ b)) (fun _ t => exists n, received (c +:+ take_bytes n b) t).
Proof.
  intros [t [|[|n] l] ] Hs; unfold append_at; run; [..|exists n]; apply (received_alter _ c); try done; intros m d; cbn; by eexists _, _.
Qed.
Lemma triple_truncate c b : triple (received (c +:+ b)) (truncate_at now staging (len c))
  (fun _ => received c) (fun _ => received (c +:+ b)).
Proof.
  intros [t [|[|n] l] ] Hs; unfold truncate_at; run; [..|done]; apply (received_alter _ (c +:+ b)); try done; intros m d; cbn;
    unfold len; rewrite Nat2Z.id, (proj1 (take_drop_bytes_app c b)); by eexists _, _.
Qed.

(** The invariant of an upload of [data]: what was received is its beginning, as long as
    every chunk is the part of [data] at the offset it names. *)
Definition receiving (data : string) (t : filetree) : Prop := exists c, received c t /\ begins c data.
Definition honest (data : string) (chunk : Z * string) : Prop := begins chunk.2 (drop_bytes (Z.to_nat chunk.1) data).
Lemma triple_exists {A B} (P : B -> filetree -> Prop) (m : M A) Q E : (forall b, triple (P b) m Q E) -> triple (fun t => exists b, P b t) m Q E.
Proof. intros H s [b Hs]. by apply (H b). Qed.
Lemma chunk_receiving data chunk : honest data chunk ->
  triple (receiving data) (UploadChunk here now decode_meta siteRoot scope id chunk.1 chunk.2)
    (fun _ => receiving data) (fun _ => receiving data).
Proof.
  destruct chunk as [offset body]. cbn [fst snd]. intros Hh. apply triple_exists. intros c. unfold UploadChunk.
  set (P := fun t => received c t /\ begins c data).
  assert (HP : forall (e : error) t, P t -> receiving data t) by (intros _ t Ht; by exists c).
  eapply triple_step; [by apply triple_silent, silent_resolve|exact HP|]. intros ?.
  eapply triple_step; [apply (triple_loadUpload c P); by intros ? []|exact HP|]. intros r. apply triple_pure. intros ->.
  destruct (offset <? 0); [intros s Hs; by apply (HP (System IOError))|].
  eapply triple_step; [apply (triple_open_upload P c); by intros ? [ [] ]|exact HP|]. intros q. apply triple_pure. intros ->.
  eapply triple_step; [apply (triple_file_size P c); by intros ? [ [] ]|exact HP|]. intros size. apply triple_pure. intros ->.
  destruct (len c =? offset) eqn:Ho; cbn [negb]; [apply Z.eqb_eq in Ho; subst offset|intros s Hs; by apply (HP (System IOError))].
  set (accepted := take_bytes _ body).
  assert (Hb : begins c data -> forall n, begins (c +:+ take_bytes n accepted) data).
  { intros Hc n. apply begins_more; [done|]. apply begins_take, begins_take. unfold honest, len in Hh. cbn [fst snd] in Hh. by rewrite Nat2Z.id in Hh. }
  intros s [Hr Hc]. specialize (Hb Hc). 
  assert (Hw : begins (c +:+ accepted) data) by (rewrite <-(take_bytes_short accepted (String.length accepted)) by done; apply Hb).
  revert s Hr. change (triple (received c) (_ ← append_at now staging accepted;
    if len accepted <? len body then _ ← attempt (truncate_at now staging (len c));
      fail (invalid (if up_Size meta - len c <=? len accepted then "The upload exceeds its declared size." else "Upload chunks must be 8 MiB or smaller."))
    else mret tt) (fun _ => receiving data) (fun _ => receiving data)).
  apply (triple_bind _ _ (fun _ => received (c +:+ accepted))).
  { eapply triple_conseq; [apply triple_append|done|done|]. intros _ t [n Hn]. by eexists. }
  intros ?.
  destruct (len accepted <? len body); [|intros s Hs; by eexists].
  eapply triple_bind; [eapply triple_attempt, triple_truncate|].
  intros [ []|e] s Hs; [by exists c|by exists (c +:+ accepted)].
Qed.

(** *** Committing *)
Context (old : option node).
Notation target := (up_Target meta).
Context (target_dot : target <> "."%string) (target_staging : target <> staging) (target_record : target <> record_path).
Definition kept (c : string) (t : filetree) : Prop := is_file c (t !! staging) /\ t !! target = old.
Definition delivered (c : string) (t : filetree) : Prop := exists modified, t !! target = Some (File c fileMode modified).
Definition settled (c : string) (t : filetree) : Prop := t !! target = old \/ delivered c t.

Lemma triple_chmod c : triple (kept c) (chmod here staging fileMode)
  (fun _ t => (exists modified, t !! staging = Some (File c fileMode modified)) /\ t !! target = old) (fun _ => kept c).
Proof.
  intros [t [|[|n] l] ] [ (m & d & Hs) Ht]; [..|split; [by exists m, d|done] ]; cbn [tree] in *; unfold chmod; run; unfold find;
    change (String.eqb staging ".") with false; cbn match; rewrite Hs; run; (split; [exists d; by rewrite lookup_alter_eq, Hs|by rewrite lookup_alter_ne]).
Qed.
Lemma triple_remove_record c : triple (delivered c) (attempt (remove here record_path)) (fun _ => delivered c) (fun _ => delivered c).
Proof.
  intros [t [|[|n] l] ] [d Ht]; cbn [tree] in Ht; unfold attempt, remove; run; repeat case_match; simplify_eq/=; exists d; try done;
    by rewrite lookup_delete_ne.
Qed.
Lemma settled_old c (e : error) t : t !! target = old -> settled c t.
Proof. by left. Qed.
Lemma silent_checkUploadTarget p overwrite : silent (checkUploadTarget here p overwrite).
Proof.
  intros [t [|[|n] l] ]; unfold checkUploadTarget, lstat, attempt, requireRegular; run; repeat case_match; by simplify_eq/=.
Qed.
Lemma commit_tail data : triple (kept data)
  (_ ← chmod here staging fileMode;
   _ ← or_path_error "The target directory no longer exists." (rename here staging target);
   _ ← attempt (remove here record_path);
   _ ← chown target;
   lstat here target)
  (fun n t => delivered data t /\ t !! target = Some n) (fun _ => settled data).
Proof.
  eapply triple_step; [apply triple_chmod|by intros _ t []; apply (settled_old data (System IOError))|]. intros ?.
  apply (triple_bind _ _ (fun _ => delivered data)); [apply triple_or; eapply triple_conseq; [by apply (triple_rename staging target data fileMode old)|intros ? H; exact H|intros ? ? H; exact H|intros ? ? H; by left]|].
  intros ?. eapply triple_step; [apply triple_remove_record|by right|]. intros ?.
  eapply triple_step; [eapply triple_conseq; [apply (triple_io (delivered data))|done|intros ? ? H; exact H|by intros ? ? [] ]|by right|]. intros ?.
  eapply triple_conseq; [by apply (triple_lstat (delivered data))|done|by intros ? ? []|]. intros e t [ ]. by right.
Qed.
Lemma commit_after c data : len data = up_Size meta ->
  triple (fun t => (received c t /\ begins c data) /\ t !! target = old) (UploadCommit here here decode_meta siteRoot scope id)
    (fun n t => delivered data t /\ t !! target = Some n) (fun _ => settled data).
Proof.
  intros Hlen. unfold UploadCommit.
  set (P := fun t => (received c t /\ begins c data) /\ t !! target = old).
  assert (HP : forall (e : error) t, P t -> settled data t) by (intros _ t Ht; left; apply Ht).
  eapply triple_step; [by apply triple_silent, silent_resolve|exact HP|]. intros ?.
  eapply triple_step; [apply (triple_loadUpload c P); by intros ? [ [] ]|exact HP|]. intros r. apply triple_pure. intros ->.
  eapply triple_step; [by apply (triple_check P)|exact HP|]. intros ?. apply triple_pure. intros _.
  eapply triple_step; [apply (triple_open_upload P c); by intros ? [ [ [] ] ]|exact HP|]. intros q. apply triple_pure. intros ->.
  eapply triple_step; [apply (triple_file_size P c); by intros ? [ [ [] ] ]|exact HP|]. intros size. apply triple_pure. intros ->.
  destruct (len c =? up_Size meta) eqn:Hsize; cbn [negb]; [|intros s Hs; by apply (HP (System IOError))].
  apply Z.eqb_eq in Hsize. do 2 (eapply triple_step; [eapply triple_conseq; [apply (triple_io P)|done|intros ? ? H; exact H|by intros ? ? [] ]|exact HP|]; intros ?).
  eapply triple_step; [by apply triple_silent, silent_checkUploadTarget|exact HP|]. intros ?.
  intros s [ [Hr Hb] Ht]. assert (c = data) as -> by (apply begins_whole; [done|congruence]).
  apply (commit_tail data s). by split; [apply Hr|].
Qed.
Lemma commit_delivers data : len data = up_Size meta ->
  triple (fun t => receiving data t /\ t !! target = old) (UploadCommit here here decode_meta siteRoot scope id)
    (fun n t => delivered data t /\ t !! target = Some n) (fun _ => settled data).
Proof. intros Hlen s [ (c & Hc) Ht]. by apply (commit_after c data Hlen s). Qed.
End upload.

(** *** The whole upload *)
Section whole.
Context (now : Z) (fresh : string) (time_of : filetree -> string -> Z).
Context (encode_meta : uploadMeta -> string) (decode_meta : string -> option uploadMeta).
Context (siteRoot : string) (scope : Scope).
Notation begin raw size overwrite := (UploadBegin here here now fresh time_of encode_meta siteRoot scope raw size overwrite).

Lemma triple_true {A} P (m : M A) : triple P m (fun _ _ => True) (fun _ _ => True).
Proof. intros s _. by destruct (m s) as [ [a|e] s']. Qed.
Lemma triple_any {A B} P (m : M A) (k : A -> M B) Q : (forall a, triple (fun _ => True) (k a) Q (fun _ _ => True)) ->
  triple P (a ← m; k a) Q (fun _ _ => True).
Proof. intros H. eapply triple_bind; [apply triple_true|exact H]. Qed.
Lemma triple_keep {B} P (k : unit -> M B) Q : (forall a, triple P (k a) Q (fun _ _ => True)) -> triple P (a ← io; k a) Q (fun _ _ => True).
Proof. intros H. eapply triple_step; [eapply triple_conseq; [apply (triple_io P)|done|intros ? ? K; exact K|by intros ? ? [] ]|done|exact H]. Qed.

Lemma triple_keep_last P : triple P io (fun _ => P) (fun _ _ => True).
Proof. eapply triple_conseq; [apply (triple_io P)|done|intros ? ? K; exact K|done]. Qed.
Lemma triple_or_discard {A} P p (m : M A) Q : triple P m Q (fun _ _ => True) -> triple P (or_discard here p m) Q (fun _ _ => True).
Proof.
  intros H s Hs. specialize (H s Hs). unfold or_discard, attempt. cbv [mbind M_bind mret M_ret fail]. by repeat case_match; simplify_eq/=.
Qed.
Lemma triple_open_exclusive p mode P : p <> "."%string ->
  triple P (open_exclusive here now p mode) (fun _ t => is_file EmptyString (t !! p)) (fun _ _ => True).
Proof.
  intros _ [t [|[|n] l] ] _; [..|done]; unfold open_exclusive, create; run; repeat case_match; simplify_eq/=; try done;
    eexists _, _; by rewrite lookup_insert_eq.
Qed.
Lemma triple_write_file p q content mode : p <> "."%string -> p <> q ->
  triple (fun t => is_file EmptyString (t !! q)) (write_file here now p content mode)
    (fun _ t => is_file EmptyString (t !! q) /\ is_file content (t !! p)) (fun _ _ => True).
Proof.
  intros Hd Hpq. unfold write_file. apply triple_keep. intros ?. apply triple_get. intros t Hq. cbn [lift here].
  apply (triple_bind _ _ (fun a u => a = p /\ u = t)); [by intros s|]. intros x. apply triple_pure. intros ->.
  assert (H : forall m, triple (fun u => u = t) (put (<[p:=File EmptyString m now]> t))
    (fun _ u => is_file EmptyString (u !! q) /\ is_file EmptyString (u !! p)) (fun _ _ => True)).
  { intros m s _. cbn. rewrite lookup_insert_ne, lookup_insert_eq by done. split; [done|by eexists _, _]. }
  apply (triple_bind _ _ (fun _ u => is_file EmptyString (u !! q) /\ is_file EmptyString (u !! p))).
  { destruct (find t p) as [ [c m d|m| |]|]; [apply H|intros s ?; exact I..|]. destruct (dir_at _ _); [apply H|intros s ?; exact I]. }
  intros ?. apply (triple_bind _ _ (fun _ u => is_file EmptyString (u !! q) /\ is_file content (u !! p))); [|intros ?; apply triple_keep_last].
  intros [u [|[|n] l] ] [Hu (m & d & Hp)]; cbn [tree] in *; [..|done]; unfold append_at; run;
    rewrite lookup_alter_ne, lookup_alter_eq, Hp by done; (split; [done|by eexists _, _]).
Qed.

Lemma begin_receives raw size overwrite target : CleanRelative raw = Ok target ->
  decode_meta (encode_meta (mk_meta target size overwrite now)) = Some (mk_meta target size overwrite now) ->
  triple (fun _ => True) (begin raw size overwrite)
    (fun id t => id = fresh /\ received decode_meta fresh (mk_meta target size overwrite now) EmptyString t) (fun _ _ => True).
Proof.
  intros Hraw Hjson. unfold UploadBegin.
  apply (triple_bind _ _ (fun p _ => p = target)).
  { intros s _. unfold resolveMutable, resolve, clean_path. rewrite Hraw. unfold open_root, attempt. run. repeat case_match; by simplify_eq/=. }
  intros p. apply triple_fact. intros ->.
  destruct (_ || _); [intros s ?; exact I|]. do 4 (apply triple_any; intros ?).
  eapply triple_bind; [by apply (triple_open_exclusive _ _ (fun _ => True))|]. intros ?. apply triple_keep. intros ?. apply triple_keep. intros ?.
  apply (triple_bind _ _ (fun _ t => is_file EmptyString (t !! (uploadPrefix +:+ fresh)) /\
    is_file (encode_meta (mk_meta target size overwrite now)) (t !! ((uploadPrefix +:+ fresh) +:+ ".meta")))).
  - apply triple_or_discard, triple_write_file; [done|]. by apply not_eq_sym, staging_record.
  - intros ?. apply triple_keep. intros ? s [Hs Hm]. split; [done|]. split; [done|]. eexists. split; [exact Hm|apply Hjson].
Qed.

(** Chunks in the order they arrive, whatever each of them answers. *)
Fixpoint send_chunks (id : string) (chunks : list (Z * string)) (s : site) : site :=
  match chunks with
  | [] => s
  | (offset, body) :: rest => send_chunks id rest (UploadChunk here now decode_meta siteRoot scope id offset body s).2
  end.
Lemma chunks_receive id meta data chunks : Forall (honest data) chunks -> forall s,
  receiving decode_meta id meta data (tree s) -> receiving decode_meta id meta data (tree (send_chunks id chunks s)).
Proof.
  induction chunks as [|[offset body] rest IH]; intros Hh s Hs; [done|]. apply Forall_cons in Hh as [Hc Hh]. cbn [send_chunks]. apply IH; [done|].
  pose proof (chunk_receiving now decode_meta siteRoot scope id meta data (offset, body) Hc s Hs) as H. cbn [fst snd] in H.
  by destruct (UploadChunk _ _ _ _ _ _ _ _ _) as [ [a|e] s'].
Qed.

(** C13. An upload leaves exactly what the client has, when its chunks are handled one
    at a time and no symbolic link is on the way ([here]).  However often a chunk is sent
    again, out of order, cut short by a fault or refused, as long as each one carries the
    bytes of the file at the offset it names, a commit that succeeds leaves the whole
    file at the target and answers with it; a commit that fails leaves at the target
    either what was there or the whole file.  (Two requests at the same offset that run
    at once can both append: [UploadChunk] compares and appends without a lock.) *)
Theorem files_upload_exact raw size overwrite target data chunks s :
  CleanRelative raw = Ok target -> target <> (uploadPrefix +:+ fresh) -> target <> ((uploadPrefix +:+ fresh) +:+ ".meta") ->
  target <> "."%string ->
  decode_meta (encode_meta (mk_meta target size overwrite now)) = Some (mk_meta target size overwrite now) -> len data = size -> Forall (honest data) chunks ->
  match begin raw size overwrite s with
  | (Ok id, begun) =>
      let sent := send_chunks id chunks begun in
      match UploadCommit here here decode_meta siteRoot scope id sent with
      | (Ok n, s') => (exists modified, n = File data fileMode modified) /\ tree s' !! target = Some n
      | (Err _, s') => tree s' !! target = tree sent !! target \/ exists modified, tree s' !! target = Some (File data fileMode modified)
      end
  | (Err _, _) => True
  end.
Proof.
  intros Hraw Hs Hm Hd Hjson Hlen Hh. pose proof (begin_receives raw size overwrite target Hraw Hjson s I) as H.
  destruct (begin raw size overwrite s) as [ [id|e] begun]; [|done]. destruct H as [-> Hrec]. cbn zeta.
  set (meta := mk_meta target size overwrite now) in *. set (sent := send_chunks fresh chunks begun).
  assert (Hsent : receiving decode_meta fresh meta data (tree sent)).
  { apply chunks_receive; [done|]. exists EmptyString. split; [done|by exists data]. }
  pose proof (commit_delivers decode_meta siteRoot scope fresh meta (tree sent !! target) Hd Hs Hm data Hlen sent (conj Hsent eq_refl)) as H.
  destruct (UploadCommit _ _ _ _ _ _ _) as [ [n|e] s']; [|exact H]. destruct H as [ [d Hdel] Hn].
  cbn [up_Target] in *. split; [exists d; congruence|done].
Qed.
End whole.

(** ** Saving *)
Section saving.
Context (sha256hex : string -> string) (now : Z) (fresh : string) (siteRoot : string) (scope : Scope).
Context (target : string) (old : option node).
Context (target_dot : target <> "."%string) (target_stage : stage_name fresh target <> target).

Definition written (content : string) (mode : Z) (t : filetree) : Prop := exists modified, t !! target = Some (File content mode modified).
Definition same (t : filetree) : Prop := t !! target = old.
(** A staged file beside the target. *)
Definition staged (content : string) (mode : Z) (t : filetree) : Prop :=
  (exists modified, t !! stage_name fresh target = Some (File content mode modified)) /\ same t.

Lemma triple_discard {A} P (m : M A) Q : triple P m Q (fun _ => same) -> triple P (or_discard here (stage_name fresh target) m) Q (fun _ => same).
Proof.
  intros H. unfold or_discard. eapply triple_bind; [by eapply triple_attempt|]. intros [a|e]; [by intros s|].
  apply (triple_bind _ _ (fun _ => same)); [|by intros ? s].
  intros [t [|[|n] l] ] Hs; unfold attempt, remove, same in *; run; repeat case_match; simplify_eq/=; by rewrite ?lookup_delete_ne.
Qed.
Lemma stage_dot : stage_name fresh target <> "."%string.
Proof. unfold stage_name, path_join. destruct (String.eqb _ _); [done|]. intros H. assert (K : len "." = len (path_dir target +:+ "/" +:+ ".nexa-stage-" +:+ fresh)) by (by rewrite <-H).
  rewrite !len_app in K. change (len "/") with 1 in K. change (len ".nexa-stage-") with 12 in K. change (len ".") with 1 in K. unfold len in K. lia. Qed.
Lemma triple_create_stage mode : triple same (open_exclusive here now (stage_name fresh target) mode) (fun _ => staged EmptyString mode) (fun _ => same).
Proof.
  intros [t [|[|n] l] ] Hs; [..|done]; unfold same in *; unfold open_exclusive, create; run; repeat case_match; simplify_eq/=; try done;
    (split; [eexists; by rewrite lookup_insert_eq|by unfold same; rewrite lookup_insert_ne]).
Qed.
Lemma triple_fill content mode : triple (staged EmptyString mode) (append here now (stage_name fresh target) content) (fun _ => staged content mode) (fun _ => same).
Proof.
  intros [t [|[|n] l] ] [ [d Hs] Ht]; unfold append, append_at, staged, same in *; run; cbn [tree] in *; [..|by rewrite lookup_alter_ne];
    (split; [eexists; by rewrite lookup_alter_eq, Hs|by rewrite lookup_alter_ne]).
Qed.
Lemma stage_replaces content mode : triple same (stageFile here now fresh target content mode)
  (fun _ => written content mode) (fun _ t => same t \/ written content mode t).
Proof.
  unfold stageFile.
  apply (triple_step _ same _ (fun _ => staged EmptyString mode)); [apply triple_or, triple_create_stage|by left|]. intros ?.
  apply (triple_step _ same _ (fun _ => staged content mode)); [apply triple_discard, triple_fill|by left|]. intros ?.
  do 2 (apply (triple_step _ same _ (fun _ => staged content mode));
    [apply triple_discard; eapply triple_conseq; [apply (triple_io (staged content mode))|done|intros ? ? H; exact H|by intros ? ? [ [] ] ]|by left|]; intros ?).
  apply (triple_step _ same _ (fun _ => written content mode)); [apply triple_discard, triple_or, triple_rename, stage_dot|by left|]. intros ?.
  eapply triple_conseq; [apply (triple_io (written content mode))|done|intros ? ? H; exact H|intros ? ? []; by right].
Qed.

(** What a save expects: no file, or the file it was given. *)
Definition expected (etag : string) : Prop :=
  match old with
  | None => etag = EmptyString
  | Some (File c _ _) => etag <> EmptyString /\ sha256hex c = etag
  | Some _ => False
  end.
Lemma triple_etag c : old = Some c -> triple same (fileETag here sha256hex target)
  (fun x t => same t /\ exists b m d, c = File b m d /\ x = sha256hex b) (fun _ => same).
Proof.
  intros Hold [t [|[|n] l] ] Hs; unfold same in *; cbn [tree] in *; rewrite Hold in Hs; apply String.eqb_neq in target_dot as Hd;
    unfold fileETag, or_path_error, read_file; run; unfold find; rewrite ?Hd, ?Hs; repeat case_match; simplify_eq/=; eauto 10.
Qed.
Lemma triple_compare etag r :
  triple (fun t => same t /\ match r with inl n => t !! target = Some n | inr e => e = System NotExist -> t !! target = None end)
    (compareETag here sha256hex target etag r) (fun _ t => expected etag /\ same t) (fun _ => same).
Proof.
  destruct r as [n|e]; unfold compareETag.
  - apply (triple_conseq _ (fun t => old = Some n /\ same t) _ (fun _ t => expected etag /\ same t) (fun _ t => expected etag /\ same t) (fun _ => same) (fun _ => same));
      [|unfold same; intros t []; split; congruence|done..]. apply triple_pure. intros Hold.
    eapply triple_step; [by apply (triple_check same)|done|]. intros ?. apply triple_pure. intros _.
    destruct (String.eqb_spec etag EmptyString) as [|He]; [by intros u|].
    eapply triple_step; [by apply (triple_etag n)|done|]. intros x u [Hu (b & m & d & -> & ->)].
    destruct (String.eqb_spec (sha256hex b) etag) as [Hx|]; cbn [negb]; [|done]. split; [|done]. unfold expected. by rewrite Hold.
  - intros u [Hu Hn]. destruct e as [|[]]; try exact Hu. specialize (Hn eq_refl). unfold same in Hu.
    destruct (String.eqb_spec etag EmptyString); [|exact Hu]. split; [|exact Hu]. unfold expected. by rewrite <-Hu, Hn.
Qed.
End saving.

(** C29. Saving compares and swaps.  A save that succeeds replaced the file whose etag it
    was given, or created a file where there was none and it was given no etag, and
    leaves exactly the content with the mode 0640; every other one leaves the target as
    it was, but for a fault after the new file is in place. *)
Theorem files_save_swaps sha256hex now fresh siteRoot scope raw content etag target s :
  CleanRelative raw = Ok target -> target <> "."%string -> stage_name fresh target <> target ->
  let old := tree s !! target in
  match Write here here sha256hex now fresh siteRoot scope raw content etag s with
  | (Ok e, s') => e = sha256hex content /\ expected sha256hex old etag /\ exists modified, tree s' !! target = Some (File content fileMode modified)
  | (Err _, s') => tree s' !! target = old \/
      (expected sha256hex old etag /\ exists modified, tree s' !! target = Some (File content fileMode modified))
  end.
Proof.
  intros Hraw Hd Hst old.
  assert (Hw : triple (same target old) (Write here here sha256hex now fresh siteRoot scope raw content etag)
    (fun e t => e = sha256hex content /\ expected sha256hex old etag /\ written target content fileMode t)
    (fun _ t => same target old t \/ (expected sha256hex old etag /\ written target content fileMode t))); [|apply (Hw s eq_refl)].
  unfold Write. destruct (_ <? _); [intros u Hu; by left|].
  apply (triple_step _ (same target old) _ (fun p t => p = target /\ same target old t)); [|by left|].
  { intros u Hu. unfold resolveMutable, resolve, clean_path. rewrite Hraw. unfold open_root, attempt. run. repeat case_match; by simplify_eq/=. }
  intros p. apply triple_pure. intros ->.
  eapply triple_bind; [eapply triple_attempt, (triple_lstat (same target old)); by intros|]. intros r.
  eapply triple_step; [eapply triple_conseq; [apply (triple_compare sha256hex fresh target old Hd Hst)|by destruct r; intros t []|intros ? ? H; exact H|intros ? ? H; exact H]|by left|].
  intros ?. apply triple_pure. intros Hexp.
  eapply triple_bind; [eapply triple_conseq; [by apply (stage_replaces now fresh target old)|done|intros ? ? H; exact H|intros ? ? []; [by left|by right] ]|].
  by intros ? u.
Qed.

(** ** How much a site grows *)
Definition bytes_of (n : node) : Z := match n with File c _ _ => len c | _ => 0 end.
Fixpoint weight (l : list (string * node)) : Z := match l with [] => 0 | e :: l => bytes_of e.2 + weight l end.
(** The bytes all the files of a tree hold. *)
Definition total (t : filetree) : Z := weight (map_to_list t).

Lemma bytes_nonneg n : 0 <= bytes_of n.
Proof. destruct n; cbn; unfold len; lia. Qed.
#[export] Instance weight_proper : Proper ((≡ₚ) ==> eq) weight.
Proof. induction 1; cbn; lia. Qed.
Lemma total_empty : total ∅ = 0.
Proof. unfold total. by rewrite map_to_list_empty. Qed.
Lemma total_fresh k n t : t !! k = None -> total (<[k:=n]> t) = bytes_of n + total t.
Proof. intros Hk. unfold total. by rewrite map_to_list_insert. Qed.
Lemma total_delete k n t : t !! k = Some n -> total t = bytes_of n + total (delete k t).
Proof. intros Hk. rewrite <-(insert_delete_id t k n) at 1 by done. apply total_fresh, lookup_delete_eq. Qed.
Lemma total_delete_le k t : total (delete k t) <= total t.
Proof.
  destruct (t !! k) as [n|] eqn:Hk; [|by rewrite delete_id]. rewrite (total_delete k n t) by done. pose proof (bytes_nonneg n). lia.
Qed.
Lemma total_insert k n t : total (<[k:=n]> t) <= bytes_of n + total t.
Proof.
  rewrite <-insert_delete_eq, total_fresh by apply lookup_delete_eq. pose proof (total_delete_le k t). lia.
Qed.
Lemma total_alter f k t b : 0 <= b -> (forall n, bytes_of (f n) <= bytes_of n + b) -> total (alter f k t) <= total t + b.
Proof.
  intros Hb Hf. destruct (t !! k) as [n|] eqn:Hk.
  - assert (Ha : alter f k t = <[k:=f n]> (delete k t)) by (apply map_eq; intros i; destruct (decide (i = k)) as [->|Hi];
      [by rewrite lookup_alter_eq, lookup_insert_eq, Hk|by rewrite lookup_alter_ne, lookup_insert_ne, lookup_delete_ne]).
    rewrite Ha, total_fresh, (total_delete k n t) by (done || apply lookup_delete_eq). specialize (Hf n). lia.
  - rewrite alter_id; [lia|]. intros n Hn. congruence.
Qed.
Lemma total_list l : total (list_to_map l) <= weight l.
Proof.
  induction l as [|[k n] l IH]; cbn; [rewrite total_empty; lia|]. pose proof (total_insert k n (list_to_map l)). lia.
Qed.
Lemma total_union a b : total (a ∪ b) <= total a + total b.
Proof.
  induction a as [|k n a Hk IH] using map_ind.
  - rewrite (left_id_L ∅ (∪)), total_empty. lia.
  - rewrite <-insert_union_l, (total_fresh k n a) by done. pose proof (total_insert k n (a ∪ b)). lia.
Qed.
(** A tree in two parts, one of them under other names. *)
Lemma total_parts (f : string * node -> option (string * node)) (P : string * node -> Prop) `{forall e, Decision (P e)} t :
  (forall e e', f e = Some e' -> e'.2 = e.2 /\ ~ P e) -> weight (omap f (map_to_list t)) + total (filter P t) <= total t.
Proof.
  intros Hf. induction t as [|k n t Hk IH] using map_ind; [rewrite map_to_list_empty, map_filter_empty, total_empty; cbn; lia|].
  rewrite map_to_list_insert, total_fresh by done. pose proof (bytes_nonneg n). cbn [omap list_omap].
  destruct (f (k, n)) as [ [k' n']|] eqn:He.
  - apply Hf in He as [Hn HP]. cbn in Hn. subst n'. rewrite map_filter_insert_False by done. rewrite (delete_id t k) by done. cbn [weight snd]. lia.
  - assert (Hnone : filter P t !! k = None) by (apply map_lookup_filter_None; by left).
    destruct (decide (P (k, n))); [rewrite map_filter_insert_True, total_fresh by done|
      rewrite map_filter_insert_False by done; rewrite (delete_id t k) by done]; lia.
Qed.
Lemma total_moved a b t : total (moved a b t) <= total t.
Proof.
  unfold moved. etrans; [apply total_union|]. etrans; [apply Z.add_le_mono_r, total_list|]. apply total_parts.
  intros [k n] e' He. cbn [fst snd] in *. destruct (under a k) eqn:Hu; [|done]. injection He as <-. split; [done|]. by intros [? _].
Qed.
Lemma total_filter (P : string * node -> Prop) `{forall e, Decision (P e)} t : total (filter P t) <= total t.
Proof.
  assert (Hz : forall l : list (string * node), weight (omap (fun _ => None : option (string * node)) l) = 0) by (intros l; induction l; done).
  pose proof (total_parts (fun _ => None) P t ltac:(done)) as Hp. rewrite Hz in Hp. lia.
Qed.

(** Programs under a bound: they add nothing. *)
Section growth.
Context (locate resolve_links : filetree -> string -> result cause string) (now : Z) (fresh : string).
Definition within (k : Z) (t : filetree) : Prop := total t <= k.
Definition steady {A} (m : M A) : Prop := forall s, total (tree (m s).2) <= total (tree s).
Lemma triple_steady {A} k (m : M A) : steady m -> triple (within k) m (fun _ => within k) (fun _ => within k).
Proof. intros H s Hs. specialize (H s). unfold within in *. destruct (m s) as [ [a|e] s']; cbn in *; lia. Qed.
Lemma steady_bind {A B} (m : M A) (k : A -> M B) : steady m -> (forall a, steady (k a)) -> steady (a ← m; k a).
Proof.
  intros Hm Hk s. specialize (Hm s). unfold mbind, M_bind. destruct (m s) as [ [a|e] s']; [|done]. etrans; [apply Hk|done].
Qed.
Lemma steady_silent {A} (m : M A) : silent m -> steady m.
Proof. intros H s. by rewrite H. Qed.
Lemma steady_ret {A} (a : A) : steady (mret a).
Proof. by intros s. Qed.
Lemma steady_fail {A} e : steady (fail e : M A).
Proof. by intros s. Qed.
Lemma steady_attempt {A} (m : M A) : steady m -> steady (attempt m).
Proof. intros H s. specialize (H s). unfold attempt. by destruct (m s) as [ [a|e] s']. Qed.
Lemma steady_or {A} missing (m : M A) : steady m -> steady (or_path_error missing m).
Proof. intros H s. specialize (H s). unfold or_path_error. by destruct (m s) as [ [a|e] s']. Qed.
Lemma steady_io : steady io.
Proof. intros [t [|[|n] l] ]; reflexivity. Qed.
Lemma steady_check r : steady (check r).
Proof. by destruct r; intros s. Qed.
Lemma steady_spend r : steady (spend r).
Proof. by destruct r; intros s. Qed.
Ltac calls := intros [t [|[|n] l] ]; run; repeat case_match; simplify_eq/=; try done;
  first [ apply total_delete_le | etrans; [apply total_insert|]; reflexivity | apply total_moved | idtac ].
Lemma steady_lstat p : steady (lstat locate p).
Proof. unfold lstat. calls. Qed.
Lemma steady_stat p : steady (stat resolve_links p).
Proof. unfold stat. calls. Qed.
Lemma steady_read_file p : steady (read_file resolve_links p).
Proof. unfold read_file. calls. Qed.
Lemma steady_read_dir p : steady (read_dir resolve_links p).
Proof. unfold read_dir. calls. Qed.
Lemma steady_open_exclusive p mode : steady (open_exclusive locate now p mode).
Proof. unfold open_exclusive, create. calls. Qed.
Lemma steady_mkdir p mode : steady (mkdir locate p mode).
Proof. unfold mkdir, create. calls. Qed.
Lemma steady_remove p : steady (remove locate p).
Proof. unfold remove. calls. Qed.
Lemma steady_rename p q : steady (rename locate p q).
Proof. unfold rename. calls. Qed.
#[local] Hint Resolve steady_ret steady_fail steady_io steady_check steady_spend steady_lstat steady_stat steady_read_file steady_read_dir
  steady_open_exclusive steady_mkdir steady_remove steady_rename steady_attempt steady_or : steady.
Ltac steadies := intros; lazymatch goal with
  | |- steady (mbind _ _) => apply steady_bind; steadies
  | |- steady (match ?x with _ => _ end) => destruct x; steadies
  | |- _ => eauto 4 with steady
  end.
Lemma steady_make_directories segments : forall current, steady (make_directories locate current segments).
Proof. induction segments as [|name rest IH]; intros current; cbn [make_directories]; unfold chown; steadies. Qed.
Lemma steady_makeDirectories p : steady (makeDirectories locate p).
Proof. apply steady_make_directories. Qed.
Lemma steady_or_discard {A} p (m : M A) : steady m -> steady (or_discard locate p m).
Proof. intros H. unfold or_discard. steadies. Qed.

Lemma triple_within_append k p b : triple (within k) (append locate now p b) (fun _ => within (k + len b)) (fun _ => within (k + len b)).
Proof.
  assert (Ha : forall x t q, len x <= len b -> within k t -> within (k + len b) (alter (append_bytes now x) q t)).
  { unfold within. intros x t q Hx Ht. etrans; [apply (total_alter _ _ _ (len b)); [unfold len; lia|]|lia].
    intros [c m d|m| |]; cbn; [rewrite len_app; lia|unfold len; lia..]. }
  assert (Hn : forall n, len (take_bytes n b) <= len b).
  { intros n. rewrite <-(take_drop_bytes n b) at 2. rewrite len_app. unfold len. lia. }
  intros [t l] Ht. unfold append. run. destruct (locate t p) as [q|c]; [|unfold within in *; cbn in *; unfold len; lia].
  destruct l as [|[|n] l]; unfold append_at; run; cbn [tree] in *; by apply Ha.
Qed.
Lemma triple_within_discard {A} k j p (m : M A) Q : triple (within k) m Q (fun _ => within j) -> triple (within k) (or_discard locate p m) Q (fun _ => within j).
Proof.
  intros H. unfold or_discard. eapply triple_bind; [by eapply triple_attempt|]. intros [a|e]; [by intros s|].
  eapply triple_step; [apply triple_steady, steady_attempt, steady_remove|done|]. by intros ? s.
Qed.
Lemma within_mono k j t : k <= j -> within k t -> within j t.
Proof. unfold within. lia. Qed.

Lemma extracted_within k p body broken declared perm :
  triple (within k) (writeExtracted locate now p body broken declared perm)
    (fun _ t => within (k + declared) t /\ 0 <= declared) (fun _ => within (k + Z.max 0 (declared + 1))).
Proof.
  unfold writeExtracted. destruct (declared <? 0) eqn:Hd; [intros s; apply within_mono; lia|]. apply Z.ltb_ge in Hd.
  assert (HE : forall (e : error) t, within k t -> within (k + Z.max 0 (declared + 1)) t) by (intros _ t; apply within_mono; lia).
  eapply triple_step; [apply (triple_steady k); destruct (String.eqb _ _); [apply steady_ret|apply steady_makeDirectories]|exact HE|]. intros ?.
  eapply triple_step; [apply (triple_steady k), steady_attempt, steady_lstat|exact HE|]. intros r.
  eapply triple_step; [apply (triple_steady k); steadies|exact HE|]. intros skip. destruct skip; [intros s Hs; split; [by eapply within_mono; [|exact Hs]; lia|done]|].
  eapply triple_step; [apply (triple_steady k), steady_or, steady_open_exclusive|exact HE|]. intros ?.
  set (copied := take_bytes _ body). assert (Hc : len copied <= declared + 1) by (etrans; [apply take_bytes_bound|lia]).
  assert (HE' : forall (e : error) t, within (k + len copied) t -> within (k + Z.max 0 (declared + 1)) t) by (intros _ t; apply within_mono; lia).
  eapply triple_step; [apply triple_within_discard, triple_within_append|exact HE'|]. intros ?.
  eapply triple_step; [apply (triple_steady (k + len copied)), steady_or_discard; steadies|exact HE'|]. intros ?.
  destruct (declared <? len copied) eqn:Hl.
  - apply (triple_bind _ _ (fun _ _ => False)); [|by intros ? s]. apply triple_within_discard. intros s Hs. exact (HE' (System IOError) _ Hs).
  - apply Z.ltb_ge in Hl. eapply triple_step; [apply (triple_steady (k + len copied)), steady_or_discard; steadies|exact HE'|]. intros ?.
    eapply triple_step; [apply (triple_steady (k + len copied)), steady_io|exact HE'|]. intros ?.
    eapply triple_step; [apply (triple_steady (k + len copied)), steady_io|exact HE'|]. intros ? s Hs. split; [|done]. eapply within_mono; [|exact Hs]. lia.
Qed.

(** The budget [b] left, and [n] entries made: together within [c] bytes and [w] entries. *)
Definition held (c w : Z) (b : budget) (n : Z) (t : filetree) : Prop :=
  (0 <= bytes b /\ 0 <= entries b /\ n + entries b <= w) /\ within (c - bytes b) t.
Lemma held_more c w b n (e : error) t : held c w b n t -> within (c + 1) t.
Proof. intros [ (Hb & _) Ht]. eapply within_mono; [|exact Ht]. lia. Qed.
Lemma spent_entry b b' : 0 <= entries b -> spendEntry b = Ok b' -> bytes b' = bytes b /\ entries b' = entries b - 1 /\ 0 <= entries b'.
Proof. unfold spendEntry. intros He. destruct (_ =? 0) eqn:H0; [done|]. apply Z.eqb_neq in H0. intros [= <-]. cbn. lia. Qed.
Lemma spent_bytes b b' size : spendBytes b size = Ok b' -> bytes b' = bytes b - size /\ 0 <= bytes b' /\ entries b' = entries b.
Proof. unfold spendBytes. destruct (_ <? _) eqn:H0; [done|]. apply Z.ltb_ge in H0. intros [= <-]. cbn. lia. Qed.
Lemma triple_spend_entry {A} c w b n (k : budget -> M A) Q (E : error -> filetree -> Prop) : (forall e t, held c w b n t -> E e t) ->
  (forall b', bytes b' = bytes b -> triple (held c w b' (n + 1)) (k b') Q E) -> triple (held c w b n) (b' ← spend (spendEntry b); k b') Q E.
Proof.
  intros HE Hk s Hs. pose proof Hs as [ (Hb & He & Hn) Ht]. destruct (spendEntry b) as [b'|e] eqn:Hsp; [|by apply HE].
  apply spent_entry in Hsp as (H1 & H2 & H3); [|done]. apply (Hk b' H1 s). unfold held. rewrite H1. split; [lia|done].
Qed.
Lemma triple_spend_bytes {A} k b size (m : budget -> M A) Q (E : error -> filetree -> Prop) : (forall e t, within k t -> E e t) ->
  (forall b', spendBytes b size = Ok b' -> triple (within k) (m b') Q E) -> triple (within k) (b' ← spend (spendBytes b size); m b') Q E.
Proof. intros HE Hm s Hs. destruct (spendBytes b size) as [b'|e] eqn:Hsp; [by apply (Hm b')|by apply HE]. Qed.

Lemma held_directory c w p b r : triple (held c w b (ex_Written r)) (extract_directory locate p b r)
  (fun x => held c w x.1 (ex_Written x.2)) (fun _ => within (c + 1)).
Proof.
  unfold extract_directory. apply triple_spend_entry; [apply held_more|]. intros b' _. apply triple_pure. intros Hp.
  eapply triple_step; [apply triple_steady, steady_makeDirectories| |by intros ? s Hs].
  intros ? t. apply within_mono. lia.
Qed.
Lemma held_file c w p body broken opens declared perm b r :
  triple (held c w b (ex_Written r)) (extract_file locate now p body broken opens declared perm b r)
    (fun x => held c w x.1 (ex_Written x.2)) (fun _ => within (c + 1)).
Proof.
  unfold extract_file. apply triple_spend_entry; [apply held_more|]. intros b1 H1. apply triple_pure. intros (Hb & He & Hn).
  apply triple_spend_bytes; [intros ? t; apply within_mono; lia|]. intros b2 (H2 & H3 & H4)%spent_bytes.
  destruct opens; cbn [negb]; [|intros s; apply within_mono; lia].
  eapply triple_bind; [eapply triple_conseq; [apply extracted_within|done|intros ? ? H; exact H|intros ? t; apply within_mono; lia]|].
  intros ok s [Hs Hd]. split; [destruct ok; cbn; lia|]. cbn [fst]. rewrite H2. eapply within_mono; [|exact Hs]. lia.
Qed.
Lemma held_skipped c w b r s : held c w b (ex_Written r) s -> held c w b (ex_Written (one_skipped r)) s.
Proof. done. Qed.
Lemma held_tar c w targetDir l : forall b r, triple (held c w b (ex_Written r)) (extractTar locate now targetDir b r l)
  (fun r' t => ex_Written r' <= w /\ within c t) (fun _ => within (c + 1)).
Proof.
  induction l as [|[header|] l IH]; intros b r; cbn [extractTar].
  - intros s [Hp Hs]. split; [lia|]. eapply within_mono; [|exact Hs]. lia.
  - destruct (member_path _ _) as [p|]; [|apply (IH b (one_skipped r))].
    apply (triple_bind _ _ (fun x => held c w x.1 (ex_Written x.2))); [|intros [b' r']; apply IH].
    destruct (te_Typeflag header); [apply held_directory|apply held_file|by intros s].
  - intros s Hs. by eapply (held_more _ _ _ _ corrupt).
Qed.
Lemma held_zip c w targetDir l : forall b r, triple (held c w b (ex_Written r)) (extractZip locate now targetDir b r l)
  (fun r' t => ex_Written r' <= w /\ within c t) (fun _ => within (c + 1)).
Proof.
  induction l as [|entry l IH]; intros b r; cbn [extractZip].
  - intros s [Hp Hs]. split; [lia|]. eapply within_mono; [|exact Hs]. lia.
  - destruct (member_path _ _) as [p|]; [|apply (IH b (one_skipped r))].
    apply (triple_bind _ _ (fun x => held c w x.1 (ex_Written x.2))); [|intros [b' r']; apply IH].
    destruct (match ze_type entry with TypeDir => true | _ => _ end); [apply held_directory|].
    destruct (ze_type entry); [by intros s| |by intros s]. destruct (_ <? _); [|apply held_file].
    intros s Hs. by eapply (held_more _ _ _ _ corrupt).
Qed.

Lemma staged_within k p content mode :
  triple (within k) (stageFile locate now fresh p content mode) (fun _ => within (k + len content)) (fun _ => within (k + len content)).
Proof.
  assert (HE : forall (e : error) t, within k t -> within (k + len content) t) by (intros _ t; apply within_mono; unfold len; lia).
  unfold stageFile. eapply triple_step; [apply triple_steady, steady_or, steady_open_exclusive|exact HE|]. intros ?.
  eapply triple_step; [apply triple_within_discard, triple_within_append|done|]. intros ?.
  do 2 (eapply triple_step; [apply triple_steady, steady_or_discard, steady_io|done|]; intros ?).
  eapply triple_step; [apply triple_steady, steady_or_discard, steady_or, steady_rename|done|]. intros ?. apply triple_steady, steady_io.
Qed.
Lemma held_within c w b n (e : error) t : held c w b n t -> within c t.
Proof. intros [ (Hb & _) Ht]. eapply within_mono; [|exact Ht]. lia. Qed.
Lemma held_copyFile c w from to content mode b r : triple (held c w b (cp_Copied r)) (copyFile locate resolve_links now fresh from to content mode b r)
  (fun x => held c w x.1 (cp_Copied x.2)) (fun _ => within c).
Proof.
  unfold copyFile. apply triple_spend_entry; [apply held_within|]. intros b1 H1. apply triple_pure. intros (Hb & He & Hn).
  apply triple_spend_bytes; [intros ? t; apply within_mono; lia|]. intros b2 (H2 & H3 & H4)%spent_bytes.
  eapply triple_step; [apply triple_steady, steady_or, steady_read_file|intros ? t; apply within_mono; lia|]. intros x.
  assert (Hx : len (take_bytes (String.length content) x) <= len content) by (etrans; [apply take_bytes_bound|done]).
  eapply triple_step; [apply staged_within|intros ? t; apply within_mono; lia|]. intros ? s Hs.
  split; [cbn; lia|]. cbn [fst]. eapply within_mono; [|exact Hs]. lia.
Qed.
Lemma triple_read {A} (P : filetree -> Prop) (k : filetree -> M A) Q E : (forall t, triple P (k t) Q E) -> triple P (t ← get; k t) Q E.
Proof. intros H s Hs. by apply (H (tree s)). Qed.
Lemma held_copy_children c w copy directory from to l :
  (forall from to b r, triple (held c w b (cp_Copied r)) (copy from to b r) (fun x => held c w x.1 (cp_Copied x.2)) (fun _ => within c)) ->
  forall b r, triple (held c w b (cp_Copied r)) (copy_children locate resolve_links now fresh copy directory from to b r l)
    (fun x => held c w x.1 (cp_Copied x.2)) (fun _ => within c).
Proof.
  intros Hcopy. induction l as [|name l IH]; intros b r; cbn [copy_children]; [by intros s|].
  apply (triple_step _ (within c) _ (fun _ => held c w b (cp_Copied r))); [|done|].
  { intros [t [|[|n] l'] ] Hs; exact Hs. }
  intros info. apply triple_read. intros t. apply (triple_bind _ _ (fun x => held c w x.1 (cp_Copied x.2))); [|intros [b' r']; apply IH].
  destruct info; [|by intros s]. destruct (find _ _) as [ [] |]; [apply held_copyFile|apply Hcopy|by intros s..].
Qed.
Lemma held_copyTree c w fuel : forall from to b r, triple (held c w b (cp_Copied r)) (copyTree locate resolve_links now fresh fuel from to b r)
  (fun x => held c w x.1 (cp_Copied x.2)) (fun _ => within c).
Proof.
  induction fuel as [|fuel IH]; intros from to b r; cbn [copyTree]; [intros s; apply (held_within _ _ _ _ (System IOError))|].
  apply triple_spend_entry; [apply held_within|]. intros b1 _. apply triple_pure. intros Hp.
  assert (HE : forall (e : error) t, within (c - bytes b1) t -> within c t) by (intros _ t; apply within_mono; lia).
  eapply triple_step; [apply triple_steady, steady_or, steady_mkdir|exact HE|]. intros ?.
  eapply triple_step; [apply triple_steady, steady_io|exact HE|]. intros ?.
  eapply triple_step; [apply triple_steady, steady_or, steady_read_dir|exact HE|]. intros [directory l] s Hs.
  apply (held_copy_children c w _ _ _ _ _ IH b1 (mk_copy (cp_Copied r + 1) (cp_Skipped r) (cp_Bytes r)) s). by split.
Qed.
End growth.

(** Reading only. *)
Lemma steady_resolve siteRoot scope raw : steady (resolve siteRoot scope raw).
Proof. intros s. by rewrite resolve_tree. Qed.

Lemma steady_relativeMutable raw : steady (relativeMutable raw).
Proof.
  unfold relativeMutable, clean_path. apply steady_bind; [destruct (CleanRelative raw); [apply steady_ret|apply steady_fail]|]. intros p.
  apply steady_bind; [apply steady_check|]. intros ?. apply steady_ret.
Qed.
Lemma steady_openRegular resolve_links p : steady (openRegular resolve_links p).
Proof.
  unfold openRegular. apply steady_bind; [apply steady_or, steady_stat|]. intros [c m d|m| |]; try apply steady_fail.
  apply steady_bind; [apply steady_or, steady_io|]. intros ?. apply steady_bind; [apply steady_attempt, steady_io|].
  intros [x|e]; [apply steady_ret|apply steady_fail].
Qed.
Lemma held_start k operation n bytes t : 0 <= n -> 0 <= bytes -> within k t -> held (k + bytes) n (newBudget operation n bytes) 0 t.
Proof. intros Hn Hb Ht. split; [cbn; lia|]. cbn. by replace (k + bytes - bytes) with k by lia. Qed.

Lemma extract_within locate resolve_links now read_tar read_zip siteRoot scope raw target k :
  triple (within k) (Extract locate resolve_links now read_tar read_zip siteRoot scope raw target)
    (fun r t => ex_Written r <= extractMaxEntries /\ within (k + extractMaxBytes) t) (fun _ => within (k + extractMaxBytes + 1)).
Proof.
  assert (HE : forall (e : error) t, within k t -> within (k + extractMaxBytes + 1) t) by (intros _ t; apply within_mono; unfold extractMaxBytes; lia).
  unfold Extract. eapply triple_step; [apply triple_steady, steady_resolve|exact HE|]. intros source.
  eapply triple_step; [apply triple_steady, steady_relativeMutable|exact HE|]. intros directory.
  eapply triple_step; [apply triple_steady, steady_openRegular|exact HE|]. intros content.
  eapply triple_step; [apply triple_steady, steady_makeDirectories|exact HE|]. intros ?. cbn zeta.
  assert (Hstart : forall t, within k t -> held (k + extractMaxBytes) extractMaxEntries extraction_budget 0 t).
  { intros t Ht. apply held_start; [by unfold extractMaxEntries|by unfold extractMaxBytes|done]. }
  destruct (has_suffix ".zip" _).
  - destruct (read_zip content) as [l|]; intros s Hs; [|exact (HE (System IOError) _ Hs)].
    by apply (held_zip locate now _ _ directory l extraction_budget (mk_extract 0 0)), Hstart.
  - destruct (_ || _); [|intros s Hs; exact (HE (System IOError) _ Hs)]. destruct (read_tar content) as [l|]; intros s Hs; [|exact (HE (System IOError) _ Hs)].
    by apply (held_tar locate now _ _ directory l extraction_budget (mk_extract 0 0)), Hstart.
Qed.
Lemma copy_within locate resolve_links now fresh siteRoot scope from to k :
  triple (within k) (Copy locate resolve_links now fresh siteRoot scope from to)
    (fun r t => cp_Copied r <= copyMaxEntries /\ within (k + copyMaxBytes) t) (fun _ => within (k + copyMaxBytes)).
Proof.
  assert (HE : forall (e : error) t, within k t -> within (k + copyMaxBytes) t) by (intros _ t; apply within_mono; unfold copyMaxBytes; lia).
  unfold Copy. eapply triple_step; [apply triple_steady, steady_resolve|exact HE|]. intros p.
  eapply triple_step; [apply triple_steady, steady_relativeMutable|exact HE|]. intros q.
  eapply triple_step; [apply triple_steady, steady_or, steady_lstat|exact HE|]. intros n.
  eapply triple_step; [apply triple_steady, steady_attempt, steady_lstat|exact HE|]. intros present.
  eapply triple_step; [apply (triple_steady k); destruct present as [|[|[] ] ]; first [apply steady_ret|apply steady_fail]|exact HE|]. intros ?. cbn zeta.
  assert (Hstart : forall t, within k t -> held (k + copyMaxBytes) copyMaxEntries (newBudget "copy" copyMaxEntries copyMaxBytes) 0 t).
  { intros t Ht. apply held_start; [by unfold copyMaxEntries|by unfold copyMaxBytes|done]. }
  assert (Hend : forall x t, held (k + copyMaxBytes) copyMaxEntries x.1 (cp_Copied x.2) t -> cp_Copied x.2 <= copyMaxEntries /\ within (k + copyMaxBytes) t).
  { intros x t H. split; [destruct H as [H _]; lia|by apply (held_within _ _ _ _ (System IOError) _ H)]. }
  destruct n as [content mode d|mode| |]; [| |intros s Hs; exact (HE (System IOError) _ Hs)..].
  - eapply triple_conseq with (P' := held _ _ _ 0); [|exact Hstart|intros ? ? H; exact H|intros ? ? H; exact H].
    eapply triple_bind; [apply held_copyFile with (r := mk_copy 0 0 0)|]. intros x s Hs. by apply Hend.
  - destruct (under p q); [intros s Hs; exact (HE (System IOError) _ Hs)|].
    eapply triple_conseq with (P' := held _ _ _ 0); [|exact Hstart|intros ? ? H; exact H|intros ? ? H; exact H].
    eapply triple_bind; [apply held_copyTree with (r := mk_copy 0 0 0)|]. intros x s Hs. by apply Hend.
Qed.

(** C30. Copies and extractions stay within their budget, whatever an archive holds or
    declares and whichever links and faults there are: one adds at most 1 GiB to the
    files of a site (an extraction that fails, one byte more, of the file it could not
    remove) and reports at most 10000 entries. *)
Theorem files_growth_bounded locate resolve_links now fresh read_tar read_zip siteRoot scope raw target s :
  (match Extract locate resolve_links now read_tar read_zip siteRoot scope raw target s with
   | (Ok r, s') => total (tree s') <= total (tree s) + extractMaxBytes /\ ex_Written r <= extractMaxEntries
   | (Err _, s') => total (tree s') <= total (tree s) + extractMaxBytes + 1
   end) /\
  (match Copy locate resolve_links now fresh siteRoot scope raw target s with
   | (Ok r, s') => total (tree s') <= total (tree s) + copyMaxBytes /\ cp_Copied r <= copyMaxEntries
   | (Err _, s') => total (tree s') <= total (tree s) + copyMaxBytes
   end).
Proof.
  split.
  - pose proof (extract_within locate resolve_links now read_tar read_zip siteRoot scope raw target (total (tree s)) s (Z.le_refl _)) as H.
    destruct (Extract _ _ _ _ _ _ _ _ _ s) as [ [r|e] s']; unfold within in H; [destruct H; split; lia|lia].
  - pose proof (copy_within locate resolve_links now fresh siteRoot scope raw target (total (tree s)) s (Z.le_refl _)) as H.
    destruct (Copy _ _ _ _ _ _ _ _ s) as [ [r|e] s']; unfold within in H; [destruct H; split; lia|lia].
Qed.


Module UploadSamples.
Import FileSamples.
Definition id : string := "00112233445566778899aabbccddeeff".
Definition sha (s : string) : string := "sha:" +:+ s.
Definition decode (s : string) : option uploadMeta := toy_decode "public/a.txt" 6 s.
Definition chunks : list (Z * string) := [(0, "abc"); (0, "abc"); (2, "cdef")]%string.
(** The first chunk is cut short after two bytes. *)
Definition faulty : site := mk_site before (repeat Proceed 17 ++ [Fault 2]).
Definition begun : result error string * site :=
  UploadBegin here here 0 id (fun _ _ => 0) toy_encode "/srv/sites" site_scope "public/a.txt" 6 false faulty.
Definition committed (i : string) (s : site) : result error node * site :=
  UploadCommit here here decode "/srv/sites" site_scope i (send_chunks 0 decode "/srv/sites" site_scope i chunks s).

Lemma files_upload_exact_witness :
  (committed id begun.2).1 = Ok (File "abcdef" 416 0) /\
  match begun with
  | (Ok i, s) =>
      match committed i s with
      | (Ok n, s') => (exists modified, n = File "abcdef" fileMode modified) /\ tree s' !! "public/a.txt"%string = Some n
      | (Err _, s') => tree s' !! "public/a.txt"%string = tree (send_chunks 0 decode "/srv/sites" site_scope i chunks s) !! "public/a.txt"%string \/
          exists modified, tree s' !! "public/a.txt"%string = Some (File "abcdef" fileMode modified)
      end
  | (Err _, _) => True
  end.
Proof.
  split; [by vm_compute|].
  apply (files_upload_exact 0 id (fun _ _ => 0) toy_encode decode "/srv/sites" site_scope "public/a.txt" 6 false "public/a.txt" "abcdef" chunks faulty);
    [reflexivity|discriminate..|reflexivity|reflexivity|].
  repeat constructor; [exists "def"%string|exists "def"%string|exists EmptyString]; reflexivity.
Defined.

Definition saved : filetree := <["public/index.html" := File "<h1>" 416 7]> before.
Lemma files_save_swaps_witness :
  match Write here here sha 100 id "/srv/sites" site_scope "public/index.html" "<h2>" "sha:<h1>" (mk_site saved []) with
  | (Ok e, s') => e = "sha:<h2>"%string /\ expected sha (Some (File "<h1>" 416 7)) "sha:<h1>" /\
      exists modified, tree s' !! "public/index.html"%string = Some (File "<h2>" fileMode modified)
  | (Err _, s') => tree s' !! "public/index.html"%string = Some (File "<h1>" 416 7) \/
      (expected sha (Some (File "<h1>" 416 7)) "sha:<h1>" /\ exists modified, tree s' !! "public/index.html"%string = Some (File "<h2>" fileMode modified))
  end.
Proof.
  apply (files_save_swaps sha 100 id "/srv/sites" site_scope "public/index.html" "<h2>" "sha:<h1>" "public/index.html" (mk_site saved []));
    [reflexivity|discriminate..].
Defined.
Example stale_etag_refused :
  (Write here here sha 100 id "/srv/sites" site_scope "public/index.html" "<h2>" "sha:<old>" (mk_site saved [])).1
  = Err (etagConflict "The file changed since it was loaded; reload it before saving.").
Proof. by vm_compute. Qed.

(** The site root copied into a directory below it: the guard compares with ["./"], so
    the copy descends into itself until the budget is spent. *)
Example root_copied_into_itself :
  under "." "public/copy" = false /\
  let r := copyTree here here 0 id 6 "." "public/copy" (newBudget "copy" 5 1000) (mk_copy 0 0 0) (mk_site (<["public" := Dir 488]> ∅) []) in
  r.1 = Err (entry_limit (newBudget "copy" 0 1000)) /\ tree r.2 !! "public/copy/public/copy/public/copy"%string = Some (Dir 488).
Proof. by vm_compute. Qed.

(** The record of an upload belongs to the account of the site.  Rewritten there, with a
    target that is not clean, it lets a commit write outside of the zones. *)
Definition cleaning (t : filetree) (p : string) : result cause string := match CleanRelative p with Ok q => Ok q | Err _ => Err Escapes end.
Definition rewritten : filetree :=
  <["tmp/.nexa-upload-00112233445566778899aabbccddeeff" := File EmptyString 384 0]>
  (<["tmp/.nexa-upload-00112233445566778899aabbccddeeff.meta" := File "public/../logs/evil!0" 384 0]> (<["tmp" := Dir 448]> before)).
Example rewritten_record_escapes :
  tree (UploadCommit cleaning cleaning (toy_decode "public/../logs/evil" 0) "/srv/sites" site_scope id (mk_site rewritten [])).2
    !! "logs/evil"%string = Some (File EmptyString fileMode 0).
Proof. by vm_compute. Qed.
End UploadSamples.
