(* ===== verification/BackupArchive.v ===== *)
(** * The archive of a site

    [internal/platform/operators/backups/site_archive.go]: how the members of an archive
    are checked and written below the directory of a restore, and the check of the tree
    that results; with what an archive of a site tree restores to. *)

From Stdlib Require Import Ascii.
From S2P Require Import Prelude GoStrings Paths Sites SiteFs BackupRun.
From S2P Require Files.

Local Open Scope Z_scope.

(** ** Trees and archives *)
Inductive node :=
| Reg (content : string) (mode : Z) (owner : string)
| Dir (mode : Z) (owner : string)
| Symlink (target owner : string)
| Special (owner : string).
(** The entries below a directory, by their clean relative paths. *)
Notation filetree := (gmap string node).

Inductive typeflag := TypeDir | TypeReg | TypeSymlink | TypeLink | TypeOther.
#[export] Instance typeflag_eq_dec : EqDecision typeflag.
Proof. solve_decision. Defined.
(** [h_body]: the bytes the reader delivers for the member. *)
Record header := mk_header { h_Name : string; Typeflag : typeflag; h_Size : Z; h_Mode : Z; Linkname : string; h_body : string }.

(** An answer of the system: a write that fails may have written some bytes. *)
Inductive answer := Proceed | Fault (written : nat).
Record state := mk_state { tree : filetree; answers : list answer }.
Definition AM (A : Type) : Type := state -> result string A * state.
#[export] Instance AM_ret : MRet AM := fun A a s => (Ok a, s).
#[export] Instance AM_bind : MBind AM := fun A B k m s => match m s with (Ok a, s) => k a s | (Err e, s) => (Err e, s) end.
Definition refuse {A} (e : string) : AM A := fun s => (Err e, s).
Definition read_tree : AM filetree := fun s => (Ok (tree s), s).
Definition write_tree (t : filetree) : AM unit := fun s => (Ok tt, mk_state t (answers s)).
Definition given {A} (r : result string A) : AM A := fun s => (r, s).
Definition ask : AM answer := fun s => (Ok (default Proceed (head (answers s))), mk_state (tree s) (tail (answers s))).
Definition io : AM unit := a ← ask; match a with Proceed => mret tt | Fault _ => refuse "input/output error" end.

Definition absent : string := "file does not exist".
Definition present : string := "file exists".
Definition is_directory (n : node) : bool := match n with Dir _ _ => true | _ => false end.
Definition directory_at (t : filetree) (p : string) : bool :=
  String.eqb p "." || match t !! p with Some n => is_directory n | None => false end.

(** ** Names *)
Definition unsafe_byte (c : ascii) : bool := Ascii.eqb "\" c || Ascii.eqb zero c.
Definition unsafe_name (value : string) : bool :=
  String.eqb value EmptyString || any_byte unsafe_byte value || has_prefix "/" value.
Definition climbs (p : string) : bool := String.eqb p ".." || has_prefix "../" p.
Definition safeArchivePath (value : string) : result string (string * bool) :=
  if unsafe_name value then Err ("site archive contains unsafe path " +:+ value)
  else
    let name := path_clean value in
    if String.eqb name "." then Ok (name, true)
    else if climbs name then Err ("site archive path " +:+ value +:+ " escapes the document root")
    else Ok (name, false).
Definition validateArchiveLink (name target : string) : error :=
  if unsafe_name target then Err ("archive symlink " +:+ name +:+ " has unsafe target " +:+ target)
  else fail_if (climbs (path_clean (filepath_join [Files.path_dir name; target])))
         ("archive symlink " +:+ name +:+ " escapes the document root").

Definition maxSiteArchiveEntries : Z := 1000000.
Definition maxSiteArchiveBytes : Z := Z.shiftl 1 40.

Record progress := mk_progress {
  seen : gset string;
  directories : list (string * Z);
  hardLinks : list (string * string);
  entries : Z;
  expanded : Z;
}.
Definition start : progress := mk_progress ∅ [] [] 0 0.

(** The order in which directories get their modes. *)
Definition deeper (a b : string * Z) : Prop := (count_byte "/" b.1 <= count_byte "/" a.1)%nat.
#[export] Instance deeper_dec : RelDecision deeper.
Proof. intros a b. unfold deeper. apply _. Defined.

Section extraction.
(** The path an operation of [os.Root] works on. *)
Context (locate : filetree -> string -> result string string).

(** *** Calls *)
Definition lstat (p : string) : AM (option node) := _ ← io; t ← read_tree; q ← given (locate t p); mret (t !! q).
Definition add (p : string) (n : node) : AM unit :=
  _ ← io; t ← read_tree; q ← given (locate t p);
  if negb (directory_at t (Files.path_dir q)) then refuse absent
  else match t !! q with Some _ => refuse present | None => write_tree (<[q := n]> t) end.
Definition mkdir (p : string) (mode : Z) : AM unit := add p (Dir mode "root").
Definition removeAll (p : string) : AM unit :=
  _ ← io; t ← read_tree; q ← given (locate t p); write_tree (filter (fun entry => Files.under q entry.1 = false) t).
Definition set_mode (mode : Z) (n : node) : node :=
  match n with Reg c _ o => Reg c mode o | Dir _ o => Dir mode o | other => other end.
Definition chmod (p : string) (mode : Z) : AM unit :=
  _ ← io; t ← read_tree; q ← given (locate t p);
  match t !! q with Some _ => write_tree (alter (set_mode mode) q t) | None => refuse absent end.
Definition chtimes (p : string) : AM unit := io.
(** [root.OpenFile], [io.CopyN], [file.Chmod], [file.Sync], [file.Close]. *)
Definition fill (q content : string) : AM unit :=
  a ← ask; t ← read_tree;
  match a with
  | Proceed => write_tree (alter (fun n => match n with Reg _ m o => Reg content m o | other => other end) q t)
  | Fault written =>
      _ ← write_tree (alter (fun n => match n with Reg _ m o => Reg (take_bytes written content) m o | other => other end) q t);
      refuse "input/output error"
  end.
Definition write_file (p : string) (size : Z) (body : string) (mode : Z) : AM unit :=
  _ ← add p (Reg EmptyString 384 "root");
  t ← read_tree; q ← given (locate t p);
  _ ← fill q (take_bytes (Z.to_nat size) body);
  _ ← (if len body <? size then refuse "unexpected EOF" else mret tt);
  _ ← chmod p mode;
  _ ← io;
  io.

(** *** Parents *)
Definition place_directory (current : string) : AM unit := _ ← removeAll current; mkdir current 448.
Fixpoint ensure_parts (current : string) (parts : list string) : AM unit :=
  match parts with
  | [] => mret tt
  | part :: rest =>
      let current := if String.eqb current EmptyString then part else current +:+ "/" +:+ part in
      info ← lstat current;
      _ ← match info with
          | None => mkdir current 448
          | Some (Symlink _ _) => refuse ("archive parent " +:+ current +:+ " is a symbolic link")
          | Some n => if is_directory n then mret tt else place_directory current
          end;
      ensure_parts current rest
  end.
Definition ensureArchiveParent (name : string) : AM unit :=
  let parent := Files.path_dir name in
  if String.eqb parent "." then mret tt else ensure_parts EmptyString (split slash parent).
Definition ensureArchiveDirectory (name : string) : AM unit :=
  _ ← ensureArchiveParent name;
  info ← lstat name;
  match info with
  | None => mkdir name 448
  | Some n => if is_directory n then mret tt else place_directory name
  end.

(** *** Members *)
Definition perm (mode : Z) : Z := Z.land mode 511.
Definition extract_member (name : string) (h : header) (p : progress) : AM progress :=
  match Typeflag h with
  | TypeDir =>
      _ ← ensureArchiveDirectory name;
      mret (mk_progress (seen p) (directories p ++ [(name, perm (h_Mode h))]) (hardLinks p) (entries p) (expanded p))
  | TypeReg =>
      _ ← ensureArchiveParent name;
      _ ← removeAll name;
      _ ← write_file name (h_Size h) (h_body h) (perm (h_Mode h));
      _ ← chtimes name;
      mret p
  | TypeSymlink =>
      _ ← given (validateArchiveLink name (Linkname h));
      _ ← ensureArchiveParent name;
      _ ← removeAll name;
      _ ← add name (Symlink (Linkname h) "root");
      mret p
  | TypeLink =>
      match safeArchivePath (Linkname h) with
      | Ok (target, false) => mret (mk_progress (seen p) (directories p) (hardLinks p ++ [(name, target)]) (entries p) (expanded p))
      | _ => refuse ("archive hard link " +:+ name +:+ " has an invalid target")
      end
  | TypeOther => refuse ("site archive entry " +:+ h_Name h +:+ " has unsupported type")
  end.

Definition extract_header (h : header) (p : progress) : AM progress :=
  let p := mk_progress (seen p) (directories p) (hardLinks p) (entries p + 1) (expanded p) in
  if maxSiteArchiveEntries <? entries p then refuse "site archive contains more than 1000000 entries"
  else
    path ← given (safeArchivePath (h_Name h));
    if (path.2 : bool) then
      if decide (Typeflag h = TypeDir) then mret p else refuse "site archive root entry is not a directory"
    else if bool_decide (path.1 ∈ seen p) then refuse ("site archive contains duplicate entry " +:+ h_Name h)
    else if (h_Size h <? 0) || (maxSiteArchiveBytes - expanded p <? h_Size h) then refuse "site archive expands beyond its limit"
    else extract_member path.1 h
           (mk_progress ({[path.1]} ∪ seen p) (directories p) (hardLinks p) (entries p) (expanded p + h_Size h)).

Fixpoint extract_members (members : list (option header)) (p : progress) : AM progress :=
  match members with
  | [] => mret p
  | None :: _ => refuse "read site archive"
  | Some h :: rest => p ← extract_header h p; extract_members rest p
  end.

(** *** Hard links, and the modes of directories, the deepest first *)
Fixpoint make_links (links : list (string * string)) : AM unit :=
  match links with
  | [] => mret tt
  | (name, target) :: rest =>
      _ ← ensureArchiveParent name;
      info ← lstat target;
      match info with
      | Some (Reg c mode owner) => _ ← removeAll name; _ ← add name (Reg c mode owner); make_links rest
      | _ => refuse ("archive hard link " +:+ name +:+ " does not reference a regular extracted file")
      end
  end.
Fixpoint set_modes (l : list (string * Z)) : AM unit :=
  match l with
  | [] => mret tt
  | (name, mode) :: rest => _ ← chmod name mode; _ ← chtimes name; set_modes rest
  end.

(** [extractSiteArchive]; [members] is what [gzip] and [tar] read, [None] when the
    archive does not open. *)
Definition extractSiteArchive (members : option (list (option header))) : AM unit :=
  _ ← io;
  match members with
  | None => refuse "open compressed site archive"
  | Some l =>
      _ ← io;
      p ← extract_members l start;
      _ ← make_links (hardLinks p);
      set_modes (merge_sort deeper (directories p))
  end.
End extraction.

(** *** The tree before it is published *)
Definition link_inside (root name target : string) : bool :=
  let resolved := path_clean (filepath_join [filepath_join [root; Files.path_dir name]; target]) in
  negb (climbs (filepath_rel root resolved)).
Definition entry_allowed (root name : string) (n : node) : bool :=
  match n with
  | Reg _ _ _ | Dir _ _ => true
  | Symlink target _ => negb (has_prefix "/" target) && link_inside root name target
  | Special _ => false
  end.
Definition validateStagedSiteTree (root : string) : AM unit :=
  _ ← io; t ← read_tree;
  if forallb (fun entry => entry_allowed root entry.1 entry.2) (map_to_list t) then mret tt
  else refuse "restored site contains an unsupported file or link".

(** ** An archive of a tree *)
Definition closed (t : filetree) : Prop :=
  map_Forall (fun p _ => contained p /\ directory_at t (Files.path_dir p) = true) t.

(** What can be archived and restored: relative links that stay inside, no special file,
    no backslash in a name. *)
Definition restorable_node (p : string) (n : node) : Prop :=
  any_byte unsafe_byte p = false /\
  match n with Symlink target _ => validateArchiveLink p target = Ok tt | Special _ => False | _ => True end.
Definition restorable (t : filetree) : Prop := closed t /\ map_Forall restorable_node t.

(** The member [tar] writes for an entry, and the members for a tree: the root first, then
    each entry once, after its directory. *)
Definition describes (t : filetree) (h : header) (p : string) : Prop :=
  match t !! p with
  | Some (Reg c mode _) => h = mk_header ("./" +:+ p) TypeReg (len c) mode (Linkname h) c
  | Some (Dir mode _) => h = mk_header ("./" +:+ p +:+ "/") TypeDir 0 mode (Linkname h) (h_body h)
  | Some (Symlink target _) => h = mk_header ("./" +:+ p) TypeSymlink 0 (h_Mode h) target (h_body h)
  | _ => False
  end.
Definition parents_first (ps : list string) : Prop :=
  forall a p b, ps = a ++ p :: b -> Files.path_dir p = "."%string \/ Files.path_dir p ∈ a.
Definition archives (t : filetree) (hs : list header) : Prop :=
  exists root rest ps, hs = root :: rest /\ h_Name root = "./"%string /\ Typeflag root = TypeDir /\
    Forall2 (describes t) rest ps /\ NoDup ps /\ (forall p, p ∈ ps <-> is_Some (t !! p)) /\ parents_first ps.

(** What is restored of an entry, before its owner is set. *)
Definition restored_node (n : node) : node :=
  match n with
  | Reg c mode _ => Reg c (perm mode) "root"
  | Dir mode _ => Dir (perm mode) "root"
  | Symlink target _ => Symlink target "root"
  | Special o => Special o
  end.
Definition staged_node (n : node) : node := match restored_node n with Dir _ o => Dir 448 o | other => other end.
Definition archive_bytes (hs : list header) : Z := foldr (fun h total => h_Size h + total) 0 hs.

(** *** Paths *)
Lemma path_dir_snoc l x : Forall plain l -> plain x -> l <> [] -> Files.path_dir (join "/" (l ++ [x])) = join "/" l.
Proof.
  intros Hl Hx Hn. unfold Files.path_dir. rewrite plain_join_contained; [|by destruct l|by apply Forall_app; auto].
  rewrite removelast_last. by destruct l.
Qed.

Lemma path_dir_one x : plain x -> Files.path_dir x = "."%string.
Proof. intros (_ & _ & _ & Hx). unfold Files.path_dir. by rewrite split_one. Qed.

Lemma contained_cases p : contained p -> plain p \/ exists l x, l <> [] /\ Forall plain l /\ plain x /\ p = join "/" (l ++ [x]).
Proof.
  unfold contained. intros H. pose proof (join_split p) as Hj. pose proof (split_not_nil slash p) as Hn.
  destruct (split slash p) as [|x l] using rev_ind; [done|]. apply Forall_app in H as [Hl [Hx _]%Forall_cons].
  destruct l as [|y l]; [left; simpl in Hj; by rewrite <- Hj|]. right. by exists (y :: l), x.
Qed.

Lemma contained_join l : l <> [] -> Forall plain l -> contained (join "/" l).
Proof. intros. unfold contained. by rewrite plain_join_contained. Qed.

Lemma contained_plain p : plain p -> contained p.
Proof. intros H. unfold contained. destruct H as (H1 & H2 & H3 & H4). rewrite split_one by done. constructor; [done|constructor]. Qed.

Lemma contained_below a x : contained a -> plain x -> contained (a +:+ "/" +:+ x).
Proof.
  intros Ha Hx. unfold contained. change ("/" +:+ x) with (String slash x). rewrite split_app_any. apply Forall_app. split; [done|by apply contained_plain].
Qed.

Lemma contained_not_dot p : contained p -> p <> "."%string.
Proof. intros H ->. by apply Forall_cons in H as [(_ & ? & _) _]. Qed.

(** The directories above a path. *)
Definition ancestors (t : filetree) (p : string) : Prop :=
  forall a b, a <> [] -> b <> [] -> split slash p = a ++ b -> directory_at t (join "/" a) = true.

Lemma closed_entry t p : closed t -> directory_at t p = true -> p = "."%string \/ (contained p /\ directory_at t (Files.path_dir p) = true).
Proof.
  intros Hc Hp. unfold directory_at in Hp at 1. destruct (String.eqb_spec p "."); [by left|]. right.
  destruct (t !! p) as [n'|] eqn:E; [|done]. by apply (Hc p n').
Qed.

Lemma closed_ancestors t p : closed t -> contained p -> directory_at t (Files.path_dir p) = true -> ancestors t p.
Proof.
  intros Hc Hp Hd a b Ha Hb E. revert p Hp Hd E. induction b as [|x b IH] using rev_ind; intros p Hp Hd E; [done|].
  assert (Hplain : Forall plain (a ++ b ++ [x])) by (by unfold contained in Hp; rewrite E in Hp).
  rewrite app_assoc in E, Hplain. apply Forall_app in Hplain as [Hab [Hx _]%Forall_cons].
  assert (Hn : a ++ b <> []) by (by destruct a).
  assert (Ep : p = join "/" ((a ++ b) ++ [x])) by (by rewrite <- E, join_split).
  rewrite Ep, path_dir_snoc in Hd by done. destruct b as [|y b]; [by rewrite app_nil_r in Hd|].
  apply (IH ltac:(done) (join "/" (a ++ y :: b))); [by apply contained_join| |by rewrite plain_join_contained].
  apply closed_entry in Hd as [Hd|[_ Hd]]; [|done|done]. exfalso. by apply (contained_not_dot _ (contained_join _ Hn Hab)).
Qed.

Section undisturbed.
Context (locate : filetree -> string -> result string string).
Context (located : forall t p, contained p -> ancestors t p -> locate t p = Ok p).
Notation still t := (mk_state t []).

Definition reachable (t : filetree) (p : string) : Prop := closed t /\ contained p /\ directory_at t (Files.path_dir p) = true.

Lemma reachable_locate t p : reachable t p -> locate t p = Ok p.
Proof. intros (Hc & Hp & Hd). apply located; [done|by apply closed_ancestors]. Qed.

Lemma lstat_still t p : reachable t p -> lstat locate p (still t) = (Ok (t !! p), still t).
Proof. intros H. cbv [lstat io ask read_tree given mbind AM_bind mret AM_ret]. simpl. by rewrite reachable_locate. Qed.

Lemma add_still t p n : reachable t p -> t !! p = None -> add locate p n (still t) = (Ok tt, still (<[p := n]> t)).
Proof.
  intros H Hn. cbv [add io ask read_tree given write_tree mbind AM_bind mret AM_ret]. simpl. rewrite reachable_locate by done.
  destruct H as (_ & _ & ->). simpl. by rewrite Hn.
Qed.

Lemma closed_under t p q : closed t -> t !! p = None -> contained p -> is_Some (t !! q) -> Files.under p q = false.
Proof.
  intros Hc Hn Hp [n Hq]. apply not_true_iff_false. intros Hu. destruct (Hc q n Hq) as [Hcq Hd].
  unfold Files.under in Hu. apply orb_true_iff in Hu as [Hu|Hu]; [apply String.eqb_eq in Hu; congruence|].
  apply has_prefix_spec in Hu as [rest Hr]. assert (Hs : split slash q = split slash p ++ split slash rest).
  { rewrite Hr, str_app_assoc. apply (split_app_any slash p rest). }
  pose proof (closed_ancestors t q Hc Hcq Hd (split slash p) (split slash rest) (split_not_nil _ _) (split_not_nil _ _) Hs) as Ha.
  rewrite join_split in Ha. unfold directory_at in Ha. rewrite Hn, orb_false_r in Ha. apply String.eqb_eq in Ha.
  by apply (contained_not_dot p).
Qed.

Lemma removeAll_still t p : reachable t p -> t !! p = None -> removeAll locate p (still t) = (Ok tt, still t).
Proof.
  intros H Hn. cbv [removeAll io ask read_tree given write_tree mbind AM_bind mret AM_ret]. simpl. rewrite reachable_locate by done.
  destruct H as (Hc & Hp & _). do 2 f_equal. apply map_filter_id. intros q n Hq. simpl. by apply (closed_under t).
Qed.

Lemma chmod_still t p mode : reachable t p -> is_Some (t !! p) -> chmod locate p mode (still t) = (Ok tt, still (alter (set_mode mode) p t)).
Proof.
  intros H [n Hn]. cbv [chmod io ask read_tree given write_tree mbind AM_bind mret AM_ret]. simpl.
  rewrite reachable_locate by done. by rewrite Hn.
Qed.

Lemma directory_insert t p n d : (is_directory n = false -> t !! p = None) -> directory_at t d = true -> directory_at (<[p := n]> t) d = true.
Proof.
  intros Hn. unfold directory_at. destruct (String.eqb d "."); [done|]. simpl. destruct (decide (p = d)) as [->|Hpd].
  - rewrite lookup_insert_eq. destruct (is_directory n) eqn:E; [done|]. by rewrite Hn.
  - by rewrite lookup_insert_ne.
Qed.

Lemma closed_insert t p n : reachable t p -> (is_directory n = false -> t !! p = None) -> closed (<[p := n]> t).
Proof.
  intros (Hc & Hp & Hd) Hn q m. rewrite lookup_insert_Some. intros [[<- <-]|[Hpq Hq]].
  - split; [done|by apply directory_insert].
  - destruct (Hc q m Hq). split; [done|by apply directory_insert].
Qed.

Lemma reachable_insert t p q n : reachable t p -> (is_directory n = false -> t !! p = None) -> reachable t q -> reachable (<[p := n]> t) q.
Proof. intros Hp Hn (Hc & Hcq & Hd). split_and!; [by apply closed_insert|done|by apply directory_insert]. Qed.

Lemma reachable_dir t p : reachable t p -> Files.path_dir p = "."%string \/ reachable t (Files.path_dir p).
Proof.
  intros (Hc & _ & Hd). destruct (closed_entry t (Files.path_dir p) Hc Hd) as [?|[? ?]]; [by left|by right].
Qed.

(** *** Members whose directories are there *)
Lemma ensure_parts_still t parts : forall current, closed t -> Forall plain parts -> (current = EmptyString \/ contained current) ->
  (forall a b, a <> [] -> parts = a ++ b -> directory_at t (join "/" (if String.eqb current EmptyString then a else current :: a)) = true) ->
  ensure_parts locate current parts (still t) = (Ok tt, still t).
Proof.
  induction parts as [|part parts IH]; intros current Hc Hp Hcur Hd; [done|].
  apply Forall_cons in Hp as [Hpart Hparts]. simpl ensure_parts. set (next := if String.eqb current EmptyString then part else _).
  assert (Hcn : contained next).
  { subst next. destruct Hcur as [->|Hcur]; simpl; [by apply contained_plain|].
    destruct (String.eqb_spec current EmptyString); [by apply contained_plain|].
    by apply contained_below. }
  assert (Hdn : directory_at t next = true).
  { specialize (Hd [part] parts ltac:(done) eq_refl). subst next. by destruct (String.eqb current EmptyString). }
  assert (Hn : exists n, t !! next = Some n /\ is_directory n = true).
  { unfold directory_at in Hdn. destruct (String.eqb_spec next ".") as [E|E]; [by apply contained_not_dot in Hcn|]. simpl in Hdn.
    destruct (t !! next) as [n|]; [by exists n|done]. }
  destruct Hn as (n & Hn & Hdir). destruct (Hc next n Hn) as [_ Hpar].
  cbv [mbind AM_bind]. rewrite lstat_still by done. rewrite Hn. destruct n; try done. simpl. apply IH; [done|done|by right|].
  intros a b Ha E. specialize (Hd (part :: a) b ltac:(done) ltac:(by rewrite E)). subst next.
  destruct (String.eqb_spec current EmptyString) as [->|Hne]; simpl in *.
  - by destruct (String.eqb_spec part EmptyString) as [->|]; [destruct Hpart|].
  - destruct a as [|x a]; [done|]. destruct current as [|c current]; [done|]. revert Hd. simpl. by rewrite !str_app_assoc.
Qed.
End undisturbed.

(** *** Names that [tar] writes *)
Lemma clean_dotted p suffix : contained p -> suffix = EmptyString \/ suffix = "/"%string -> path_clean ("./" +:+ p +:+ suffix) = p.
Proof.
  intros Hp Hs. unfold path_clean. change (has_prefix "/" ("./" +:+ p +:+ suffix)) with false. cbv iota.
  assert (E : clean_components false [] (split slash ("./" +:+ p +:+ suffix)) = split slash p).
  { change ("./" +:+ p +:+ suffix) with ("." +:+ String slash (p +:+ suffix)). rewrite split_app_any. simpl.
    assert (Hsplit : exists z, split slash (p +:+ suffix) = split slash p ++ z /\ Forall plain_or_empty (split slash p ++ z) /\ filter (fun c => c <> EmptyString) z = []).
    { destruct Hs as [->| ->]; [exists []; rewrite str_app_nil_r, app_nil_r; split_and!; [done|by apply plain_components|done]|].
      exists [EmptyString]. change "/"%string with (String slash EmptyString). rewrite split_app_any. split_and!; [done| |done].
      apply Forall_app. split; [by apply plain_components|]. constructor; [by left|constructor]. }
    destruct Hsplit as (z & -> & Hz & Hf). rewrite clean_components_plain by done. simpl. rewrite filter_app, Hf, app_nil_r. by apply filter_plain. }
  rewrite E, join_split. case_bool_decide as H; [|done]. subst p. by apply Forall_cons in Hp as [(? & _) _].
Qed.

Lemma safe_dotted p suffix : contained p -> any_byte unsafe_byte p = false -> suffix = EmptyString \/ suffix = "/"%string ->
  safeArchivePath ("./" +:+ p +:+ suffix) = Ok (p, false).
Proof.
  intros Hp Hb Hs. unfold safeArchivePath, unsafe_name. rewrite clean_dotted by done.
  rewrite !any_byte_app, Hb. replace (any_byte unsafe_byte suffix) with false by (by destruct Hs as [->| ->]).
  simpl. destruct (String.eqb_spec p "."); [by apply contained_not_dot in Hp|].
  replace (climbs p) with false; [done|]. symmetry. rewrite <- (join_split p). apply join_plain_first; [apply split_not_nil|done].
Qed.

Section roundtrip.
Context (locate : filetree -> string -> result string string).
Context (located : forall t p, contained p -> ancestors t p -> locate t p = Ok p).
Notation still t := (mk_state t []).

Lemma parent_still t p : reachable t p -> ensureArchiveParent locate p (still t) = (Ok tt, still t).
Proof.
  intros H. unfold ensureArchiveParent. destruct (String.eqb_spec (Files.path_dir p) ".") as [E|E]; [done|].
  destruct (reachable_dir t p H) as [?|(Hc & Hd & Hdd)]; [done|]. apply ensure_parts_still; [done..|by left|]. simpl.
  intros a b Ha Eab. destruct b as [|x b]; [|by eapply closed_ancestors; [..|exact Ha| |exact Eab]].
  rewrite app_nil_r in Eab. rewrite <- Eab, join_split. apply H.
Qed.

Lemma fill_still t p c : fill p c (still t) = (Ok tt, still (alter (fun n => match n with Reg _ m o => Reg c m o | other => other end) p t)).
Proof. done. Qed.

Lemma write_file_still t p c mode : reachable t p -> t !! p = None ->
  write_file locate p (len c) c mode (still t) = (Ok tt, still (<[p := Reg c mode "root"]> t)).
Proof.
  intros H Hn. unfold write_file. cbv [mbind AM_bind]. rewrite (add_still locate located) by done. cbv [read_tree given]. cbn [tree].
  set (n0 := Reg EmptyString 384 "root"). assert (H1 : reachable (<[p := n0]> t) p) by (by apply reachable_insert).
  rewrite (reachable_locate locate located) by done. rewrite fill_still.
  replace (len c <? len c) with false by (symmetry; apply Z.ltb_irrefl). rewrite alter_insert_eq. subst n0. cbv beta iota.
  unfold len. rewrite Nat2Z.id, take_bytes_short by done. cbv [mret AM_ret].
  rewrite (chmod_still locate located); [|by apply reachable_insert|by rewrite lookup_insert_eq; eexists].
  rewrite alter_insert_eq. simpl. done.
Qed.

Definition with_member (T : filetree) (p : string) (h : header) (pr : progress) : progress :=
  mk_progress ({[p]} ∪ seen pr) (directories pr ++ match T !! p with Some (Dir m _) => [(p, perm m)] | _ => [] end) (hardLinks pr)
    (entries pr + 1) (expanded pr + h_Size h).

Lemma extract_still T t h p pr : restorable T -> describes T h p -> reachable t p -> t !! p = None -> p ∉ seen pr ->
  entries pr + 1 <= maxSiteArchiveEntries -> expanded pr + h_Size h <= maxSiteArchiveBytes ->
  exists n, T !! p = Some n /\ extract_header locate h pr (still t) = (Ok (with_member T p h pr), still (<[p := staged_node n]> t)).
Proof.
  intros [_ HT] Hh Hr Hn Hseen He Hx. unfold describes in Hh. destruct (T !! p) as [n|] eqn:Ep; [|done]. exists n. split; [done|].
  destruct (HT p n Ep) as [Hb Hnode]. assert (Hcp : contained p) by apply Hr.
  assert (Hname : safeArchivePath (h_Name h) = Ok (p, false) /\ 0 <= h_Size h).
  { assert (forall c, 0 <= len c) by (intros; unfold len; lia).
    destruct n as [c m o|m o|target o|o]; [| | |done]; rewrite Hh; cbn [h_Name h_Size]; (split; [|done]);
      [rewrite <- (str_app_nil_r p) at 1| |rewrite <- (str_app_nil_r p) at 1]; apply safe_dotted; auto. }
  destruct Hname as [Hname Hsz]. unfold extract_header. cbn [entries]. replace (maxSiteArchiveEntries <? entries pr + 1) with false by lia.
  cbv [mbind AM_bind given]. rewrite Hname. cbn [fst snd seen]. rewrite bool_decide_eq_false_2 by done. cbn [expanded].
  replace (h_Size h <? 0) with false by lia. replace (maxSiteArchiveBytes - expanded pr <? h_Size h) with false by lia. cbn [orb].
  unfold extract_member, with_member. rewrite Ep. cbv [mbind AM_bind given].
  destruct n as [c m o|m o|target o|o]; [| | |done]; rewrite Hh; cbn [Typeflag h_Size h_Mode h_body Linkname staged_node restored_node].
  - rewrite parent_still, (removeAll_still locate located), write_file_still by done. simpl. by rewrite app_nil_r.
  - unfold ensureArchiveDirectory. cbv [mbind AM_bind]. rewrite parent_still, (lstat_still locate located) by done. rewrite Hn.
    unfold mkdir. by rewrite (add_still locate located).
  - rewrite Hnode, parent_still, (removeAll_still locate located), (add_still locate located) by done. simpl. by rewrite app_nil_r.
Qed.

(** *** All members *)
Definition extracted (T : filetree) (a : list string) (t : filetree) : Prop :=
  closed t /\ forall p, t !! p = if decide (p ∈ a) then staged_node <$> T !! p else None.
Definition directories_of (T : filetree) (ps : list string) : list (string * Z) :=
  omap (fun p => match T !! p with Some (Dir m _) => Some (p, perm m) | _ => None end) ps.

Lemma describes_present T h p : describes T h p -> is_Some (T !! p) /\ 0 <= h_Size h.
Proof. unfold describes. destruct (T !! p) as [[c m o|m o|target o|o]|]; [| | |done|done]; intros ->; cbn [h_Size]; unfold len; split; eauto; lia. Qed.

Lemma describes_sizes T hs ps : Forall2 (describes T) hs ps -> 0 <= archive_bytes hs.
Proof. induction 1 as [|h p hs ps H _ IH]; simpl; [lia|]. apply describes_present in H. lia. Qed.

Lemma extracted_reachable T a p t : restorable T -> extracted T a t -> is_Some (T !! p) ->
  Files.path_dir p = "."%string \/ Files.path_dir p ∈ a -> reachable t p.
Proof.
  intros [HT _] [Hc Ht] [n Hp] Hd. destruct (HT p n Hp) as [Hcp HTd]. split_and!; [done|done|].
  unfold directory_at in *. destruct (String.eqb_spec (Files.path_dir p) ".") as [E|E]; [done|]. simpl in *.
  destruct Hd as [|Hd]; [done|]. rewrite Ht, decide_True by done. by destruct (T !! Files.path_dir p) as [[]|].
Qed.

Lemma extracted_snoc T a p n t : T !! p = Some n -> reachable t p -> t !! p = None -> extracted T a t -> extracted T (a ++ [p]) (<[p := staged_node n]> t).
Proof.
  intros Hp Hr Hn [Hc Ht]. split; [by apply closed_insert|]. intros q. destruct (decide (p = q)) as [<-|Hq].
  - rewrite lookup_insert_eq, decide_True by set_solver. by rewrite Hp.
  - rewrite lookup_insert_ne, Ht by done. destruct (decide (q ∈ a)); [rewrite decide_True by set_solver|rewrite decide_False by set_solver]; done.
Qed.

Lemma members_still T rest ps : restorable T -> Forall2 (describes T) rest ps -> forall a t pr,
  NoDup (a ++ ps) -> parents_first (a ++ ps) -> extracted T a t -> seen pr = list_to_set a ->
  entries pr + count rest <= maxSiteArchiveEntries -> expanded pr + archive_bytes rest <= maxSiteArchiveBytes ->
  exists t' pr', extract_members locate (Some <$> rest) pr (still t) = (Ok pr', still t') /\ extracted T (a ++ ps) t' /\
    hardLinks pr' = hardLinks pr /\ directories pr' = directories pr ++ directories_of T ps.
Proof.
  intros HT. induction 1 as [|h p rest ps Hh Hrest IH]; intros a t pr Hnd Hpf Ht Hs He Hx.
  { exists t, pr. rewrite !app_nil_r. done. }
  destruct (describes_present T h p Hh) as [Hp Hsz]. pose proof (describes_sizes T rest ps Hrest) as Hall.
  assert (Hpa : p ∉ a) by (apply NoDup_app in Hnd as (_ & Hx' & _); intros Hin; apply (Hx' p Hin); set_solver).
  assert (Hr : reachable t p) by (eapply extracted_reachable; [done..|]; by apply (Hpf a p ps)).
  assert (Hn : t !! p = None) by (destruct Ht as [_ Ht]; by rewrite Ht, decide_False).
  unfold count in He. simpl in He, Hx.
  destruct (extract_still T t h p pr) as (n & HTp & Hrun); [done..|by rewrite Hs, elem_of_list_to_set|lia|lia|].
  cbn [fmap list_fmap extract_members]. cbv [mbind AM_bind]. rewrite Hrun.
  destruct (IH (a ++ [p]) (<[p := staged_node n]> t) (with_member T p h pr)) as (t' & pr' & E & Ht' & Hl & Hd).
  - by rewrite <- app_assoc.
  - by rewrite <- app_assoc.
  - by apply extracted_snoc.
  - unfold with_member. cbn [seen]. rewrite Hs, list_to_set_app_L. set_solver.
  - unfold with_member, count. cbn [entries]. lia.
  - unfold with_member. cbn [expanded]. lia.
  - exists t', pr'. rewrite E. rewrite <- app_assoc in Ht'. split_and!; [done..|]. rewrite Hd. unfold with_member. cbn [directories].
    rewrite <- app_assoc. unfold directories_of. simpl. by destruct (T !! p) as [[]|].
Qed.

Lemma set_modes_still l : forall t, NoDup l.*1 -> closed t -> Forall (fun e => t !! e.1 = Some (Dir 448 "root")) l ->
  exists t', set_modes locate l (still t) = (Ok tt, still t') /\
    (forall p m, (p, m) ∈ l -> t' !! p = Some (Dir m "root")) /\ (forall p, p ∉ l.*1 -> t' !! p = t !! p).
Proof.
  induction l as [|[p m] l IH]; intros t Hnd Hc Hl; [by exists t; split_and!; [|intros ?? ?%elem_of_nil|]|].
  apply Forall_cons in Hl as [Hp Hl]. apply NoDup_cons in Hnd as [Hpl Hnd]. simpl in Hp, Hpl.
  assert (Hr : reachable t p) by (split; [done|]; by apply (Hc p (Dir 448 "root"))).
  cbn [set_modes]. cbv [mbind AM_bind]. rewrite (chmod_still locate located) by eauto. cbn [chtimes].
  change (chtimes p (still ?x)) with (@Ok string unit tt, still x). cbv iota beta.
  assert (Ea : alter (set_mode m) p t = <[p := Dir m "root"]> t).
  { apply map_eq. intros q. destruct (decide (p = q)) as [<-|]; [by rewrite lookup_alter_eq, Hp, lookup_insert_eq|by rewrite lookup_alter_ne, lookup_insert_ne]. }
  rewrite Ea. destruct (IH (<[p := Dir m "root"]> t)) as (t' & E & Hin & Hout); [done|by apply closed_insert| |].
  { rewrite Forall_forall in *. intros e He. rewrite lookup_insert_ne; [by apply Hl|]. intros ->. apply Hpl. by apply list_elem_of_fmap_2. }
  exists t'. split; [done|]. split.
  - intros q k [[= -> ->]|Hq]%elem_of_cons; [|by apply Hin]. rewrite Hout by done. by rewrite lookup_insert_eq.
  - intros q Hq. simpl in Hq. rewrite Hout by set_solver. apply lookup_insert_ne. set_solver.
Qed.
End roundtrip.

(** ** A link that may be extracted points inside of the tree, wherever the tree is *)
Lemma walk_rooted comps : forall at_ base final, Forall plain at_ -> Forall plain base ->
  Forall (fun x => any_byte (Ascii.eqb slash) x = false) comps -> walk at_ comps = Some final ->
  clean_components true (at_ ++ base) comps = rev (final ++ base) /\ Forall plain final.
Proof.
  induction comps as [|c comps IH]; intros at_ base final Ha Hb Hc; cbn [walk clean_components]; [by intros [= <-]|].
  apply Forall_cons in Hc as [Hs Hc]. rewrite !eqb_bool_decide.
  destruct (_ || _) eqn:Hskip; [by apply IH|]. apply orb_false_iff in Hskip as [?%bool_decide_eq_false ?%bool_decide_eq_false].
  case_bool_decide as Hu.
  - destruct Ha as [|top up (_ & _ & Ht & _) Ha]; [done|]. cbn [app]. rewrite bool_decide_eq_false_2 by done. by apply IH.
  - intros Hw. apply (IH (c :: at_)); [constructor|..]; done.
Qed.

Lemma up_climbs t : climbs (path_clean (join "/" (".."%string :: t))) = true.
Proof.
  assert (Hs : exists rest, split slash (join "/" (".."%string :: t)) = ".."%string :: rest).
  { destruct t as [|a t]; [by eexists|]. change (join "/" (".."%string :: a :: t)) with (".." +:+ String slash (join "/" (a :: t))).
    rewrite split_app_any. by eexists. }
  destruct Hs as [rest Hs]. unfold path_clean. replace (has_prefix "/" _) with false by (by destruct t). rewrite Hs.
  cbn [clean_components]. destruct (clean_components_climbs rest []) as [t' Ht]. simpl in Ht |- *. rewrite Ht.
  rewrite bool_decide_eq_false_2 by (by destruct t'). apply join_up_first.
Qed.

Lemma not_climbing_walks x : has_prefix "/" x = false -> climbs (path_clean (path_clean x)) = false -> is_Some (walk [] (split slash x)).
Proof.
  intros Hp Hc. destruct (walk [] (split slash x)) eqn:Hw; [by eexists|]. exfalso.
  apply walk_climbs in Hw as [t Ht]; [|constructor|apply split_no_slash]. unfold path_clean at 2 in Hc. rewrite Hp, Ht in Hc.
  rewrite bool_decide_eq_false_2 in Hc by (by destruct t). by rewrite up_climbs in Hc.
Qed.

Lemma rel_below l q : Forall plain l -> Forall plain q -> climbs (filepath_rel (abs l) (abs (l ++ q))) = false.
Proof.
  intros Hl Hq. assert (Hcomp : forall m, Forall plain m -> components (abs m) = m).
  { intros m Hm. unfold components, abs. change (split slash (String slash (join "/" m))) with (EmptyString :: split slash (join "/" m)).
    rewrite filter_cons, decide_False by naive_solver. apply (split_join_plain m Hm). }
  unfold filepath_rel. rewrite !Hcomp by (try apply Forall_app; done).
  assert (Hr : rel_components l (l ++ q) = q).
  { clear. induction l as [|a l IH]; [by destruct q|]. simpl. by rewrite String.eqb_refl. }
  rewrite Hr. destruct q as [|a q]; [done|]. unfold climbs. by apply join_plain_first.
Qed.

Lemma rooted_plain_prefix m comps : Forall plain m -> forall stack, clean_components true stack (m ++ comps) = clean_components true (rev m ++ stack) comps.
Proof.
  induction 1 as [|c m (? & ? & ? & _) _ IH]; intros stack; [done|]. cbn [app clean_components].
  rewrite !bool_decide_eq_false_2 by done. cbn [orb]. rewrite IH. simpl. by rewrite <- app_assoc.
Qed.

Lemma walk_prefix m comps : Forall plain m -> forall at_, walk at_ (m ++ comps) = walk (rev m ++ at_) comps.
Proof.
  induction 1 as [|c m (? & ? & ? & _) _ IH]; intros at_; [done|]. cbn [app walk]. rewrite !eqb_bool_decide.
  rewrite !bool_decide_eq_false_2 by done. cbn [orb]. rewrite IH. simpl. by rewrite <- app_assoc.
Qed.

Lemma path_dir_components name : contained name -> exists D, Forall plain D /\
  (forall l, Forall plain l -> filepath_join [abs l; Files.path_dir name] = abs (l ++ D)) /\
  (forall target, target <> EmptyString -> filepath_join [Files.path_dir name; target] = path_clean (join "/" ((if decide (D = []) then "."%string else join "/" D) :: [target]))) /\
  (Files.path_dir name = if decide (D = []) then "."%string else join "/" D).
Proof.
  intros Hn. destruct (contained_cases name Hn) as [Hp|(D & x & HD & Hp & Hx & ->)].
  - exists []. rewrite path_dir_one by done. split_and!; [constructor| | |done].
    + intros l Hl. rewrite app_nil_r. by apply join_dot.
    + intros target Ht. by rewrite filepath_join_cons.
  - exists D. rewrite path_dir_snoc by done. rewrite decide_False by done. split_and!; [done| | |done].
    + intros l Hl. by apply join_abs_relative.
    + intros target Ht. apply filepath_join_cons. by apply join_plain_first.
Qed.

Lemma accepted_link_inside l name target o : Forall plain l -> contained name -> validateArchiveLink name target = Ok tt ->
  entry_allowed (abs l) name (Symlink target o) = true.
Proof.
  intros Hl Hn. unfold validateArchiveLink, unsafe_name. destruct (String.eqb_spec target EmptyString) as [->|Ht]; [done|].
  destruct (any_byte unsafe_byte target); [done|]. cbn [orb]. unfold entry_allowed. destruct (has_prefix "/" target) eqn:Hp; [done|].
  destruct (path_dir_components name Hn) as (D & HD & Habs & Hrel & _). rewrite Hrel by done. unfold fail_if.
  destruct (climbs _) eqn:Hc; [done|]. intros _. cbn [negb andb]. unfold link_inside. rewrite Habs by done.
  set (x := join "/" [_; target]) in *. assert (Hx : has_prefix "/" x = false /\ exists pre, split slash x = pre ++ split slash target /\ forall at_ c, walk at_ (pre ++ c) = walk (rev D ++ at_) c).
  { subst x. destruct (decide (D = [])) as [->|HDn].
    - split; [done|]. exists ["."%string]. split; [|done]. change (join "/" ["."%string; target]) with ("." +:+ String slash target). by rewrite split_app_any.
    - destruct (join_plain_first D HDn HD) as [_ Hne]. pose proof (plain_join_contained D HDn HD) as Hs. split.
      + destruct HD as [|c D (Hc1 & _ & _ & Hc4) HD]; [done|]. destruct c as [|b c]; [done|]. apply not_true_iff_false.
        intros (r & Hr)%has_prefix_spec. simpl in Hc4. apply orb_false_iff in Hc4 as [Hc4 _].
        assert (Hb : exists s, join "/" [join "/" (String b c :: D); target] = String b s) by (destruct D; by eexists).
        destruct Hb as [s Hb]. rewrite Hb in Hr. injection Hr as -> _. discriminate Hc4.
      + exists D. split; [|by intros; apply walk_prefix]. change (join "/" [join "/" D; target]) with (join "/" D +:+ String slash target).
        by rewrite split_app_any, Hs. }
  destruct Hx as (Hxp & pre & Hxs & Hwalk). destruct (not_climbing_walks x Hxp Hc) as [final Hf].
  rewrite Hxs, Hwalk, app_nil_r in Hf.
  destruct (walk_rooted (split slash target) (rev D) (rev l) final) as [Hr Hfp]; [by apply Forall_rev..|apply split_no_slash|done|].
  rewrite filepath_join_cons by done.
  assert (Hres : path_clean (join "/" [abs (l ++ D); target]) = abs (l ++ rev final)).
  { change (join "/" [abs (l ++ D); target]) with (String slash (join "/" (l ++ D) +:+ String slash target)).
    rewrite path_clean_rooted, split_app_any. f_equal.
    assert (Hpre : clean_components true [] (split slash (join "/" (l ++ D)) ++ split slash target) = clean_components true (rev (l ++ D)) (split slash target)).
    { destruct (decide (l ++ D = [])) as [E|E]; [by rewrite E|]. rewrite plain_join_contained by (try apply Forall_app; done).
      rewrite rooted_plain_prefix by (apply Forall_app; done). by rewrite app_nil_r. }
    rewrite Hpre, rev_app_distr, Hr, rev_app_distr, rev_involutive. done. }
  rewrite Hres, clean_abs by (apply Forall_app; split; [done|by apply Forall_rev]).
  rewrite rel_below; [done|done|by apply Forall_rev].
Qed.

Section restored.
Context (locate : filetree -> string -> result string string).
Context (located : forall t p, contained p -> ancestors t p -> locate t p = Ok p).
Notation still t := (mk_state t []).

Lemma io_still t : io (still t) = (Ok tt, still t).
Proof. done. Qed.

Lemma root_member root pr t : h_Name root = "./"%string -> Typeflag root = TypeDir -> entries pr + 1 <= maxSiteArchiveEntries ->
  extract_header locate root pr (still t) = (Ok (mk_progress (seen pr) (directories pr) (hardLinks pr) (entries pr + 1) (expanded pr)), still t).
Proof.
  intros Hn Ht He. unfold extract_header. cbn [entries]. replace (maxSiteArchiveEntries <? entries pr + 1) with false by lia.
  cbv [mbind AM_bind given]. rewrite Hn. change (safeArchivePath "./") with (@Ok string (string * bool) ("."%string, true)). cbn [snd].
  by rewrite decide_True.
Qed.

Lemma directories_of_spec T ps p m : (p, m) ∈ directories_of T ps <-> p ∈ ps /\ exists k o, T !! p = Some (Dir k o) /\ m = perm k.
Proof.
  unfold directories_of. rewrite list_elem_of_omap. split.
  - intros (q & Hq & E). destruct (T !! q) as [[]|] eqn:ET; simplify_eq. naive_solver.
  - intros [Hp (k & o & E & ->)]. exists p. by rewrite E.
Qed.

Lemma directories_of_NoDup T ps : NoDup ps -> NoDup (directories_of T ps).*1.
Proof.
  intros H. apply (sublist_NoDup _ ps); [done|]. clear H. induction ps as [|p ps IH]; [done|]. unfold directories_of in *. simpl.
  destruct (T !! p) as [[]|]; simpl; by constructor.
Qed.

(** C18. What an archive of a site holds comes back.  For a tree of directories, regular
    files and links that are relative and stay inside (without backslashes in names, within
    a million entries and 1 TiB), the members [tar] writes for it, in any order that puts a
    directory before what it holds, extract into an empty directory to exactly this tree:
    each path once, contents and targets byte for byte, permission bits kept (the bits above
    them dropped), and the result passes the check that precedes publication. *)
Theorem backup_site_roundtrip T hs root : restorable T -> archives T hs -> Forall plain root ->
  count hs <= maxSiteArchiveEntries -> archive_bytes (tail hs) <= maxSiteArchiveBytes ->
  (_ ← extractSiteArchive locate (Some (Some <$> hs)); validateStagedSiteTree (abs root)) (still ∅) = (Ok tt, still (restored_node <$> T)).
Proof.
  intros HT (rt & rest & ps & -> & Hname & Htype & Hrest & Hnd & Hdom & Hpf) Hroot Hcount Hbytes. cbn [tail] in Hbytes.
  unfold count in Hcount. simpl in Hcount. unfold extractSiteArchive. cbn [fmap list_fmap extract_members].
  cbv [mbind AM_bind]. rewrite io_still. cbv iota beta. rewrite io_still. cbv iota beta.
  rewrite root_member by (try done; unfold start; cbn [entries]; lia). cbv iota beta. set (pr := mk_progress _ _ _ _ _).
  destruct (members_still locate located T rest ps HT Hrest [] ∅ pr) as (t & pr' & E & [Hc Ht] & Hl & Hd); [done|done| |done|..].
  { split; [by intros ? ? ?%lookup_empty_Some|]. intros p. by rewrite lookup_empty, decide_False by apply not_elem_of_nil. }
  { unfold pr, start, count. cbn [entries]. lia. }
  { unfold pr, start. cbn [expanded]. lia. }
  cbv [mbind AM_bind] in E. rewrite E. rewrite Hl. cbn [pr hardLinks start make_links]. cbv [mret AM_ret]. rewrite Hd. cbn [pr directories start app].
  set (ds := directories_of T ps). pose proof (merge_sort_Permutation deeper ds) as Hperm.
  destruct (set_modes_still locate located (merge_sort deeper ds) t) as (t' & -> & Hin & Hout).
  { rewrite Hperm. by apply directories_of_NoDup. }
  { done. }
  { rewrite Hperm. apply Forall_forall. intros [p m] (Hp & k & o & HTp & _)%directories_of_spec. simpl. rewrite Ht, decide_True, HTp by done. done. }
  assert (Et : t' = restored_node <$> T).
  { apply map_eq. intros p. rewrite lookup_fmap. destruct (decide (p ∈ ds.*1)) as [[[q m] [-> Hq]]%list_elem_of_fmap|Hp].
    - simpl. rewrite (Hin q m) by (by rewrite Hperm). apply directories_of_spec in Hq as (_ & k & o & -> & ->). done.
    - rewrite Hout by (by rewrite Hperm). rewrite Ht. destruct (T !! p) as [n|] eqn:ETp.
      + rewrite decide_True by (apply Hdom; by eexists). destruct n as [c m o|m o|target o|o]; [done| |done..].
        exfalso. apply Hp, list_elem_of_fmap. exists (p, perm m). split; [done|]. apply directories_of_spec. split; [|by eexists _, _]. apply Hdom. by eexists.
      + by case_decide. }
  rewrite Et. unfold validateStagedSiteTree. cbv [mbind AM_bind read_tree]. rewrite io_still. cbv iota beta. cbn [tree].
  replace (forallb _ _) with true; [done|]. symmetry. apply forallb_Forall, Forall_forall. intros [p n] Hp%elem_of_map_to_list. simpl.
  rewrite lookup_fmap in Hp. destruct (T !! p) as [m|] eqn:ETp; [|done]. simplify_eq/=. destruct HT as [Hclosed HT].
  destruct (HT p m ETp) as [_ Hm]. destruct (Hclosed p m ETp) as [Hcp _]. destruct m; [done|done|by apply accepted_link_inside|done].
Qed.
End restored.

(** ** What cannot be restored

    A link with an absolute target, or a special file, refuses the whole archive, whatever
    the host answers; yet [archive_site] of [BackupRun] archives both. *)
Section refused.
Context (locate : filetree -> string -> result string string).

Definition refused (h : header) : bool :=
  match Typeflag h with
  | TypeSymlink => has_prefix "/" (Linkname h)
  | TypeOther => true
  | _ => false
  end.

Lemma refused_header h pr s : refused h = true -> is_ok (extract_header locate h pr s).1 = false.
Proof.
  intros Hr. unfold extract_header. case_match; [done|]. cbv [mbind AM_bind given].
  destruct (safeArchivePath (h_Name h)) as [[name is_root]|e]; [|done]. cbn [fst snd]. unfold refused in Hr.
  destruct is_root; [destruct (decide (Typeflag h = TypeDir)) as [Ht|Ht]; [by rewrite Ht in Hr|done]|]. destruct (bool_decide _); [done|]. destruct (_ || _); [done|].
  unfold extract_member. destruct (Typeflag h); try done. cbv [mbind AM_bind given]. unfold validateArchiveLink, unsafe_name.
  by rewrite Hr, orb_true_r.
Qed.

Lemma backup_archive_refused hs h s : Some h ∈ hs -> refused h = true -> is_ok (extractSiteArchive locate (Some hs) s).1 = false.
Proof.
  intros Hin Hr. assert (Hm : forall pr s, is_ok (extract_members locate hs pr s).1 = false).
  { clear s. induction hs as [|x hs IH]; intros pr s; [by apply elem_of_nil in Hin|]. cbn [extract_members]. apply elem_of_cons in Hin as [<-|Hin].
    - cbv [mbind AM_bind]. pose proof (refused_header h pr s Hr) as H. by destruct (extract_header locate h pr s) as [[|] ?].
    - destruct x as [x|]; [|done]. cbv [mbind AM_bind]. destruct (extract_header locate x pr s) as [[pr'|] s']; [by apply IH|done]. }
  unfold extractSiteArchive. cbv [mbind AM_bind]. destruct (io s) as [[|] s1]; [|done]. destruct (io s1) as [[|] s2]; [|done].
  specialize (Hm start s2). by destruct (extract_members locate hs start s2) as [[|] ?].
Qed.
End refused.

(** ** A site *)
Module Site.
Definition files : filetree :=
  <["public"%string := Dir 1512 "nexa_shop"]> (<["public/index.php"%string := Reg "<?php" 416 "nexa_shop"]>
    (<["public/home.php"%string := Symlink "index.php" "nexa_shop"]> ∅)).
Definition members : list header := [
  mk_header "./" TypeDir 0 493 EmptyString EmptyString;
  mk_header "./public/" TypeDir 0 1512 EmptyString EmptyString;
  mk_header "./public/index.php" TypeReg 5 416 EmptyString "<?php";
  mk_header "./public/home.php" TypeSymlink 0 511 "index.php" EmptyString].

Lemma files_entries P : P "public"%string (Dir 1512 "nexa_shop") -> P "public/index.php"%string (Reg "<?php" 416 "nexa_shop") ->
  P "public/home.php"%string (Symlink "index.php" "nexa_shop") -> map_Forall P files.
Proof. intros. unfold files. repeat (apply map_Forall_insert_2; [done|]). apply map_Forall_empty. Qed.

Lemma files_restorable : restorable files.
Proof.
  assert (Hp : plain "public") by (repeat split; discriminate). assert (Hi : plain "index.php") by (repeat split; discriminate).
  assert (Hh : plain "home.php") by (repeat split; discriminate).
  split; apply files_entries; split; try done.
  - by apply contained_plain.
  - apply (contained_below "public" "index.php"); [by apply contained_plain|done].
  - apply (contained_below "public" "home.php"); [by apply contained_plain|done].
Qed.

Lemma members_archive : archives files members.
Proof.
  exists (mk_header "./" TypeDir 0 493 EmptyString EmptyString), (tail members), ["public"; "public/index.php"; "public/home.php"]%string.
  split_and!; [done..| | | |].
  - repeat constructor.
  - apply (bool_decide_unpack _). by vm_compute.
  - intros p. split.
    + rewrite !elem_of_cons, elem_of_nil. intros [->|[->|[->|[]]]]; by eexists.
    + intros [n Hn]. unfold files in Hn. rewrite !lookup_insert_Some, lookup_empty in Hn. naive_solver set_solver.
  - intros a p b E. do 3 (destruct a as [|? a]; [simplify_eq/=; by (left + right; set_solver)|simplify_eq/=]).
    by destruct a.
Qed.

Lemma backup_site_roundtrip_witness :
  (_ ← extractSiteArchive (fun _ p => Ok p) (Some (Some <$> members)); validateStagedSiteTree "/srv/nexa/sites/shop") (mk_state ∅ []) =
  (Ok tt, mk_state (restored_node <$> files) []) /\ (restored_node <$> files) !! "public"%string = Some (Dir 488 "root").
Proof.
  split; [|by vm_compute].
  apply (backup_site_roundtrip (fun _ p => Ok p) (fun _ _ _ _ => eq_refl) files members ["srv"; "nexa"; "sites"; "shop"]%string);
    [apply files_restorable|apply members_archive|by (repeat constructor; discriminate)|done|done].
Defined.
End Site.
